(* ===== verification/_CoqProject ===== *)
-Q . S2P
Prelude.v
JsString.v
JsNumber.v
JsValue.v
Json.v
JsonRoundtrip.v
JsonKeys.v
StatusCodes.v
ParamOverride.v
ParamOverrideBuild.v
ParamOverrideReload.v
ParamOverrideTemplates.v
ParamOverrideEditor.v
ParamOverrideInvariant.v
ParamOverrideBehaviour.v
Pricing.v
PricingEditor.v
PricingSave.v
PricingFilter.v
UpstreamUpdates.v
ChannelTags.v
ChannelLoading.v
ChannelTests.v
ApiClient.v
ApiHelpers.v
Dates.v
LogTables.v
Passkey.v
JsonEditor.v
Sidebar.v
SecureVerification.v
ExactIntegers.v
ChannelForm.v
ChannelFormSubmit.v
ChannelFormReload.v
Render.v
RenderPrice.v
RenderArticle.v
Dashboard.v
DashboardSums.v
Playground.v
RatioSync.v
FormCompat.v
SettingsPages.v
Tokens.v
TopUp.v
SidebarSettings.v
TableService.v
Users.v
Redemptions.v
ModelsTable.v
AdminTables.v
ChannelAffinity.v
CustomOAuth.v
PaymentSettings.v
SystemSettings.v
