(* ===== verification/Prelude.v ===== *)
(** * Verification of the web client of New API

    New API is a gateway for language-model services: a Go server relays
    requests, and a web client (React, under [src/web/src]) configures
    channels, prices, tokens, payments, permissions and the side bar.  This
    development models
    the logic of that client: what its editors read, check, store and send,
    what its tables request and show, and how it talks to the server.

    ** The parts and how they interact

    The server stores configuration as JSON texts (options, channel settings,
    the side bar modules).  The editors of the client parse such a text into
    rows of text fields, let the user edit the rows, validate them and write
    the text back.  Hooks keep the state of a page (React state), talk to the
    server asynchronously and show toasts.

    - JavaScript itself.  [Prelude]: exceptions ([res]), state with
      exceptions ([st]), insertion-ordered sets ([uniq]), loops that count
      ([seeded]).  [JsString]: strings as UTF-8 byte strings, [trim],
      [split], [includes].  [JsNumber]: binary64 numbers, [Number(s)],
      [String(n)], [toFixed].  [JsValue]: values, own properties in
      [Object.keys] order, coercions.  [Json]: [JSON.stringify] and
      [JSON.parse].  [JsonRoundtrip]: parsing what was printed gives the value
      back.  [JsonKeys]: the order of keys that printing and parsing keep.
      [Dates]: the calendar and the date functions of [helpers/utils.jsx].
    - The HTTP client, [helpers/api.js].  [ApiClient]: axios instances, the
      sharing of GET requests in flight ([patchAPIInstance], [updateAPI]) and
      the error handler.  [ApiHelpers]: chat payloads, groups, OAuth logins,
      cached models.
    - [StatusCodes]: [helpers/statusCodeRules.js] (module [Rules]: the text
      "200-299, 404" of a rule set) and
      [components/table/channels/modals/statusCodeRiskGuard.js] (module
      [Guard]: redirects of the status codes 504 and 524 need confirmation).
    - The parameter override editor,
      [components/table/channels/modals/ParamOverrideEditorModal.jsx] with
      [constants/channel-affinity-template.constants.js].  [ParamOverride]:
      modes, rows, drafts of structured values, normalisation with fresh ids.
      [ParamOverrideBuild]: [parseInitialState], [validateOperations],
      [buildOperationsJson], [reorderOperations].  [ParamOverrideReload]: what
      is stored and how it reopens.  [ParamOverrideTemplates]: the template
      library and the labels.  [ParamOverrideEditor]: the component, its state
      hooks as the record [editor], one definition per handler and effect, and
      a step relation.  [ParamOverrideInvariant]: its invariant.
      [ParamOverrideBehaviour]: saving, switching, the [prune_objects] form,
      templates.
    - The price editor,
      [pages/Setting/Ratio/hooks/useModelPricingEditorState.js].  [Pricing]:
      conversion between stored ratios and price texts.  [PricingEditor]: the
      hook.  [PricingSave]: what it stores.
    - [PricingFilter]: [hooks/model-pricing/usePricingFilterCounts.js].
    - [UpstreamUpdates]: [hooks/channels/upstreamUpdateUtils.js] and
      [useChannelUpstreamUpdates.jsx].
    - The channel list, [hooks/channels/useChannelsData.jsx].  [ChannelTags]:
      its rows by channel or by tag, changes of channels and tags, type tabs.
      [ChannelLoading]: loads and searches answered in any order, with the
      switches and tabs that start them.  [ChannelTests]: single and batch
      tests of models as a state machine over answers, timers and clicks.
    - The channel form, [components/table/channels/modals/EditChannelModal.jsx].
      [ChannelForm]: the texts and settings of a channel, loading, the handlers
      of the fields.  [ChannelFormSubmit]: checks, questions and the channel
      that is sent.  [ChannelFormReload]: opening and submitting a stored
      channel.
    - Amounts, [helpers/render.jsx].  [Render]: numbers, currencies, quotas,
      colours.  [RenderPrice], [RenderArticle]: the prices and the articles of
      a log entry.  [ExactIntegers]: binary64 arithmetic is exact on integers
      below 2^53.
    - The dashboard, [helpers/dashboard.jsx] with [hooks/dashboard].
      [Dashboard]: totals, trends, chart data and their loading.
      [DashboardSums]: what they add up to.
    - [Playground]: [pages/Playground/index.jsx], the tests of a channel, with
      the reader of streams.
    - [RatioSync]: [pages/Setting/Ratio/UpstreamRatioSync.jsx], the choice and
      saving of upstream ratios, with the objects its handlers share.
    - [FormCompat]: [components/compat/Form.jsx], the form every page uses, and
      its controls.  [SettingsPages]: ten pages below [pages/Setting] on that
      form, with [compareObjects].  [PaymentSettings]:
      [components/settings/PaymentSetting.jsx] with its four pages below
      [pages/Setting/Payment].  [SystemSettings]:
      [components/settings/SystemSetting.jsx], whose inputs, origin and form
      share objects.  [CustomOAuth]:
      [components/settings/CustomOAuthSetting.jsx].  [ChannelAffinity]:
      [pages/Setting/Operation/SettingsChannelAffinity.jsx].
    - [SidebarSettings]: the pages that switch modules of the side bar and the
      header ([SettingsSidebarModulesAdmin.jsx], [SettingsHeaderNavModules.jsx],
      the tab of [NotificationSettings.jsx]) and [hooks/common/useHeaderBar.js];
      what they store is read by [Sidebar].
    - Tables of the administrator.  [TableService]: what a table and the
      service promise each other, as a class with laws, and sessions of a
      table; a request that fails leaves the rows it is about in doubt until
      a page is served.  [Users], [Redemptions], [ModelsTable]: the hooks
      [useUsersData.jsx], [useRedemptionsData.jsx], [useModelsData.jsx] with
      their dialogs, filters and actions, as instances.  [AdminTables]: what
      follows for all three.
    - [Tokens]: [hooks/tokens/useTokensData.jsx], [helpers/token.js].
    - [TopUp]: [components/topup/index.jsx] with [RechargeCard.jsx] (on
      [FormCompat], amounts from [Render]).
    - [LogTables]: [hooks/task-logs/useTaskLogsData.js] and
      [hooks/mj-logs/useMjLogsData.js] as one program over the constants of a
      table, with the stored columns and page size.
    - [Passkey]: [helpers/passkey.js], the base64url texts and the options and
      credentials of WebAuthn.
    - [JsonEditor]: [components/common/ui/JSONEditor.jsx], the editor of JSON
      objects as pairs or as text.
    - [Sidebar]: [hooks/common/useSidebar.js] (module [Sidebar]),
      [useUserPermissions.js] ([Permissions]), [useNavigation.js]
      ([Navigation]).
    - [SecureVerification]: [services/secureVerification.js],
      [helpers/secureApiCall.js], [hooks/common/useSecureVerification.jsx],
      and sessions of the hook: attempts, verifications, dialogs.

    ** How code becomes definitions

    Pure functions are Rocq functions with the names of the source.  A
    function that can throw returns [res]; one that also draws local ids is in
    the monad [st] over the id counter.  State hooks are the fields of a
    record, a handler maps the record (or [st] of it) to the next one, toasts,
    requests and callbacks are appended to its field [effects].  A handler
    reads the state of the render it belongs to; handlers that [await] are
    split there, and what remains is a continuation ([UpstreamUpdates],
    [LogTables], [ChannelLoading], [ChannelTests], [Playground], [RatioSync],
    [Tokens], [TopUp], the tables and the settings pages), a second definition ([PricingEditor.submitEnd]) or a computation over the
    log of requests ([SecureVerification]).  Arguments stand for what is
    outside: the translations [t], the clock [now], the server, the collation
    of [localeCompare], the browser.  No law is assumed of them, except that
    a translation is not the empty text where an error message is recognised
    by being non-empty, and that the service behind the tables of the
    administrator answers as [answers] of each table says.  Objects that are shared and written (the choices of
    [RatioSync], the rows of [Tokens], the values of [FormCompat]) live in a
    heap; [SystemSettings] puts its own objects into the heap of its form.

    Objects are association lists in [Object.keys] order; properties of
    [Object.prototype] are not modelled (reading one gives [undefined], and
    assigning the key [__proto__] creates no own property), except where the
    code uses an object as a set of names ([JsValue.inherited]).  Case mapping is
    that of ASCII letters.  Numbers are exact binary64 values.

    ** What the theorems show

    - Round trips: what is printed or stored reads back ([save_reopen],
      [resave_same], [switch_roundtrip], [tab_roundtrip],
      [parse_rules_normalized], [return_error_roundtrip],
      [prune_draft_roundtrip], [sync_target_roundtrip],
      [load_save_unpriced], [columns_survive], [base64url_roundtrip],
      [date_text_roundtrip], [reload_submit], [select_recovers], [rate_shown]).
    - Exact behaviour: what validation accepts, what merging, guards, filters,
      merged configurations, price maps, model lists, payloads, tag rows and
      saves compute, on every branch ([validateOperations_spec],
      [parse_rules_spec], [mergeRanges_canonical_form],
      [collectDisallowed_exact], [collectNew_exact], [module_visible_iff],
      [merged_config_value], [default_user_sees_admin], [saved_maps_exact],
      [batch_copy_prices], [preview_matches_save], [panel_counts],
      [apply_partitions], [normalizeModelList_spec], [handleSave_rules],
      [reorder_placement], [library_templates_save], [visual_change_saved],
      [duplicateKeys_exact], [payload_spec], [groups_offered],
      [request_options_faithful], [tag_rows_spec], [manage_exact],
      [type_tabs], [report_complete], [trend_exact], [bars_exact],
      [quota_not_shown_as_zero], [fixed_price_shown], [tool_test_verdict],
      [started_request], [sync_values], [saved_differences],
      [saved_exactly_reported], [saved_switches_decide],
      [offered_switch_effective], [header_switches_decide],
      [saved_group_forgets], [gateway_sends_loaded]).
    - Equivalence: how a stream is cut into chunks makes no difference
      ([stream_chunks]).
    - Types: what is sent or offered has the shape its reader expects
      ([sent_channel_typed], [methods_typed], [dialog_rules_complete]).
    - Invariants over all reachable states and interleavings
      ([editor_invariant], [model_names_distinct], [one_request_in_flight],
      [json_editor_invariant], [admin_columns_hidden], [shared_requests],
      [one_billing_category], [one_key_request], [one_redemption],
      [tables_agree], [creem_products_distinct]).
    - Refinement: the HTTP client with its instances and maps of promises
      implements a service that answers every call with a request of its own
      address ([client_refines_service]); nothing is lost ([all_settled]).
      The form with its two copies of the values implements one map
      ([form_refines_map]).  The page of affinity rules implements a list of
      rules ([page_refines_rules]).
    - Order and failure of requests ([business_after_verify],
      [execution_leaves_dialog], [start_chooses_method],
      [submit_all_or_nothing], [submit_end_reports], [refresh_reaches_all],
      [latest_load_wins], [login_needs_state], [user_requests_self],
      [storage_footprint], [submit_confirmed], [key_not_lost],
      [billing_change_asked], [clipboard_exact], [payments_checked],
      [password_login_confirmed], [update_options_outcome],
      [save_sends_shown]).
    - Bounds, termination and settling ([batch_window], [colour_in_palette],
      [batch_ends], [new_key_found], [tests_settle], [batches_end],
      [page_settles], [preset_and_issuer_save]).
    - Behaviour that is probably not meant ([prune_rule_edit_lost],
      [prune_rule_add_lost], [prune_draft_collapses],
      [resave_retypes_string], [load_save_free_model],
      [open_null_operation_throws], [updated_instance_silent],
      [network_error_lost], [handleApiError_no_message],
      [failed_load_keeps_loading], [failed_channels_keep_loading],
      [task_username_selectable], [empty_key_lost], [blank_becomes_zero],
      [default_region_shadowed], [stale_load_over_search], [stop_not_seen],
      [restart_resumes], [inherited_tag_throws], [group_part_lost],
      [unfinished_line_dropped], [malformed_answer_lost],
      [stale_result_shown], [default_rates_differ], [image_counted_twice],
      [image_loses_cache_discount], [old_rows_missing],
      [new_year_bars_empty], [bulk_uncheck_clears_others],
      [selection_lost_in_flight], [unchecked_in_flight],
      [silent_page_never_saves], [invalid_json_saved],
      [stale_default_time], [init_values_mutated], [numbers_duplicated],
      [tag_typing_throws], [page_size_ends_search], [stale_rows_restored],
      [empty_page_stays], [typed_count_ignored], [confirmed_twice],
      [price_of_other_way], [price_of_other_count], [transferred_twice],
      [loaded_quota_lost], [absent_shown_off], [null_configuration],
      [stale_language_restored], [stale_rows_shown],
      [page_size_drops_search], [rejected_change_keeps_loading],
      [keyword_not_encoded], [delete_never_goes_back],
      [page_size_asks_twice], [search_first_page],
      [rejected_clear_keeps_loading], [page_drops_search],
      [failed_preview_syncs], [tab_loads_twice], [json_edits_lost],
      [own_id_deletes_both], [unknown_field_dropped],
      [discovery_overwrites_typed], [discovery_fills_other_dialog],
      [inherited_slug_is_preset], [realm_placeholder_sent],
      [stripe_price_id_lost], [creem_test_mode_off], [blank_price_accepted],
      [first_edit_not_saved], [passkey_edit_ignored],
      [change_back_not_saved], [typed_while_saving_dropped]).

    ** Fuel

    [Json.json_parse] runs with fuel [2 * length + 2]; every recursive call
    consumes a character or the value at its head, and [JsonRoundtrip] proves
    that the fuel suffices for every printed value.  The digit search of
    [JsNumber.num_to_str] tries at most 17 digits, which always identify a
    binary64 number.  [JsonEditor.next_key] searches with one round more than
    there are pairs, which [new_key_found] proves to be enough.
    [SystemSettings.settle] answers one request more than there are options,
    which [update_options_outcome] proves to be enough.  All other
    recursion is structural.

    ** What is not modelled

    The Go server, React rendering (memo caching, layout, and which widget
    calls which handler outside of [FormCompat] and the pages built on it),
    i18n data and styles; the Electron shell (calls into Node and Electron);
    the dashboard cards, subscription lists and bills (rendering around single
    requests); the remaining actions of the channel list (one request and one
    message each); the forms for model deployments, whose behaviour is mostly
    that of a third-party service; and the pages that only pass form values
    on. *)
From stdpp Require Export numbers sorting base gmap strings pretty list.

(** * Exceptions *)

(** What a JavaScript evaluation produces: a value, or a thrown error
    with its [message]. *)
Inductive res (A : Type) : Type :=
| Ok (a : A)
| Throw (message : string).
Arguments Ok {A} a.
Arguments Throw {A} message.

#[export] Instance res_eq_dec {A} `{EqDecision A} : EqDecision (res A).
Proof. solve_decision. Defined.

#[export] Instance res_ret : MRet res := λ A a, Ok a.
#[export] Instance res_bind : MBind res := λ A B f m,
  match m with Ok a => f a | Throw e => Throw e end.
#[export] Instance res_fmap : FMap res := λ A B f m,
  match m with Ok a => Ok (f a) | Throw e => Throw e end.

(** [arr.map(f)] where [f] may throw: left to right, the first error wins. *)
Fixpoint res_map {A B} (f : A → res B) (l : list A) : res (list B) :=
  match l with
  | [] => Ok []
  | x :: l => y ← f x; ys ← res_map f l; Ok (y :: ys)
  end.

Definition is_ok {A} (r : res A) : bool :=
  match r with Ok _ => true | Throw _ => false end.

Lemma res_bind_Ok {A B} (m : res A) (f : A → res B) b :
  (m ≫= f) = Ok b ↔ ∃ a, m = Ok a ∧ f a = Ok b.
Proof. destruct m; unfold mbind, res_bind; naive_solver. Qed.

Lemma res_bind_Throw {A B} (m : res A) (f : A → res B) e :
  (m ≫= f) = Throw e ↔ m = Throw e ∨ ∃ a, m = Ok a ∧ f a = Throw e.
Proof. destruct m; unfold mbind, res_bind; naive_solver. Qed.

Lemma res_map_Ok {A B} (f : A → res B) l ys :
  res_map f l = Ok ys ↔ Forall2 (λ x y, f x = Ok y) l ys.
Proof.
  revert ys. induction l as [|x l IH]; intros ys; simpl.
  - split; [by intros [= <-]|by inv 1].
  - rewrite res_bind_Ok. setoid_rewrite res_bind_Ok. split.
    + intros (y & ? & zs & ?%IH & [= <-]). by constructor.
    + inv 1; naive_solver.
Qed.

(** * Sets as insertion-ordered lists *)

(** [Array.from(new Set(l))]: the first occurrence of each element, in
    order. *)
Fixpoint uniq {A} `{EqDecision A} (l : list A) : list A :=
  match l with
  | [] => []
  | x :: l => x :: filter (λ y, y ≠ x) (uniq l)
  end.

Section uniq.
Context {A : Type} `{EqDecision A}.
Implicit Types l : list A.

Lemma elem_of_uniq l x : x ∈ uniq l ↔ x ∈ l.
Proof.
  induction l as [|y l IH]; simpl; [done|].
  rewrite !elem_of_cons, list_elem_of_filter, IH.
  destruct (decide (x = y)); naive_solver.
Qed.

Lemma NoDup_uniq l : NoDup (uniq l).
Proof.
  induction l as [|y l IH]; simpl; constructor.
  - rewrite list_elem_of_filter. naive_solver.
  - by apply NoDup_filter.
Qed.

Lemma filter_all (P : A → Prop) `{∀ x, Decision (P x)} l :
  (∀ x, x ∈ l → P x) → filter P l = l.
Proof.
  induction l as [|y l IH]; intros HP; [done|].
  rewrite filter_cons_True by set_solver. f_equal. set_solver.
Qed.

Lemma uniq_NoDup l : NoDup l → uniq l = l.
Proof.
  induction 1 as [|x l Hx _ IH]; simpl; [done|].
  rewrite IH, filter_all; [done|set_solver].
Qed.

Lemma uniq_idemp l : uniq (uniq l) = uniq l.
Proof. apply uniq_NoDup, NoDup_uniq. Qed.
End uniq.

Lemma Forall_delete {A} (P : A → Prop) (l : list A) (k : nat) : Forall P l → Forall P (delete k l).
Proof.
  intros H. rewrite delete_take_drop. apply Forall_app. split; [by apply Forall_take|by apply Forall_drop].
Qed.

Create HintDb js discriminated.
#[export] Hint Resolve NoDup_uniq : js.

(** * Computations with state and exceptions *)

(** A computation that reads and writes a state [S] and may throw; what was
    written before the error stays written. *)
Definition st (S A : Type) : Type := S → res A * S.

#[export] Instance st_ret {S} : MRet (st S) := λ A a s, (Ok a, s).
#[export] Instance st_bind {S} : MBind (st S) := λ A B f m s,
  match m s with
  | (Ok a, s') => f a s'
  | (Throw e, s') => (Throw e, s')
  end.

Definition st_lift {S A} (r : res A) : st S A := λ s, (r, s).
Definition st_throw {S A} (e : string) : st S A := λ s, (Throw e, s).
Definition st_get {S} : st S S := λ s, (Ok s, s).
Definition st_modify {S} (f : S → S) : st S unit := λ s, (Ok (), f s).

(** [try { m } catch (error) { h(error.message) }]. *)
Definition st_catch {S A} (m : st S A) (h : string → st S A) : st S A := λ s,
  match m s with
  | (Ok a, s') => (Ok a, s')
  | (Throw e, s') => h e s'
  end.

Fixpoint st_map {S A B} (f : A → st S B) (l : list A) : st S (list B) :=
  match l with
  | [] => mret []
  | x :: l => y ← f x; ys ← st_map f l; mret (y :: ys)
  end.

Section st.
Context {S : Type}.

Lemma st_bind_Ok {A B} (m : st S A) (f : A → st S B) s a s' :
  m s = (Ok a, s') → (m ≫= f) s = f a s'.
Proof. intros H. unfold mbind, st_bind. by rewrite H. Qed.

Lemma st_bind_Throw {A B} (m : st S A) (f : A → st S B) s e s' :
  m s = (Throw e, s') → (m ≫= f) s = (Throw e, s').
Proof. intros H. unfold mbind, st_bind. by rewrite H. Qed.

Lemma st_bind_inv {A B} (m : st S A) (f : A → st S B) s b s' :
  (m ≫= f) s = (Ok b, s') → ∃ a s1, m s = (Ok a, s1) ∧ f a s1 = (Ok b, s').
Proof. unfold mbind, st_bind. destruct (m s) as [[a|e] s1]; naive_solver. Qed.

(** A property of results and final states, for every run that returns. *)
Definition st_post {A} (m : st S A) (s : S) (Q : A → S → Prop) : Prop :=
  ∀ a s', m s = (Ok a, s') → Q a s'.

Lemma st_post_bind {A B} (m : st S A) (f : A → st S B) s Q :
  st_post m s (λ a s1, st_post (f a) s1 Q) → st_post (m ≫= f) s Q.
Proof. intros H b s' (a & s1 & H1 & H2)%st_bind_inv. by eapply H. Qed.

Lemma st_post_ret {A} (a : A) s (Q : A → S → Prop) : Q a s → st_post (mret a) s Q.
Proof. intros H a' s' E. unfold mret, st_ret in E. by simplify_eq. Qed.

Lemma st_post_mono {A} (m : st S A) s (P Q : A → S → Prop) :
  st_post m s P → (∀ a s', P a s' → Q a s') → st_post m s Q.
Proof. unfold st_post. naive_solver. Qed.
End st.

(** ** Loops that count *)

Section seeded.
Context {A B C : Type} (h : N → A → B) (w : A → N).

(** The results of a loop whose step on [x] at counter [s] gives [h s x] and
    advances the counter by [w x]. *)
Fixpoint seeded (s : N) (l : list A) : list B :=
  match l with
  | [] => []
  | x :: l => h s x :: seeded (s + w x)%N l
  end.

Definition total (l : list A) : N := foldr (λ x n, (w x + n)%N) 0%N l.

Lemma st_map_seeded (f : C → st N B) (g : A → C) l s :
  (∀ x s, x ∈ l → f (g x) s = (Ok (h s x), (s + w x)%N)) →
  st_map f (g <$> l) s = (Ok (seeded s l), (s + total l)%N).
Proof.
  revert s. induction l as [|x l IH]; intros s Hf; cbn [fmap list_fmap st_map seeded total foldr].
  - unfold mret, st_ret. f_equal. lia.
  - erewrite st_bind_Ok by (apply Hf; set_solver).
    erewrite st_bind_Ok by (apply IH; set_solver).
    unfold mret, st_ret. f_equal. unfold total. lia.
Qed.

Lemma length_seeded s l : length (seeded s l) = length l.
Proof. revert s. induction l as [|x l IH]; intros s; simpl; [done|]. by rewrite IH. Qed.
End seeded.

Lemma total_one {A} (l : list A) : total (λ _, 1%N) l = N.of_nat (length l).
Proof. induction l; simpl; [done|]. unfold total in *. lia. Qed.
