(* ===== verification/JsString.v ===== *)
(** * JavaScript strings

    A JavaScript string is represented by its UTF-8 bytes ([string] of the
    Standard Library), so equality, concatenation and searching for a
    substring are those of the source; lone surrogates have no
    representation.  This file holds the string operations the code under
    [web/src] calls: [trim], [split] on one ASCII character, [includes],
    [startsWith], [replaceAll], [join], the ASCII case mappings and digit
    tests, with the lemmas the components share. *)
From Stdlib Require Import Ascii.
From S2P Require Import Prelude.

Abbreviation chars := String.list_ascii_of_string.
Abbreviation of_chars := String.string_of_list_ascii.

Lemma of_chars_chars s : of_chars (chars s) = s.
Proof. apply String.string_of_list_ascii_of_string. Qed.
Lemma chars_of_chars l : chars (of_chars l) = l.
Proof. apply String.list_ascii_of_string_of_list_ascii. Qed.

#[export] Instance of_chars_inj : Inj (=) (=) of_chars.
Proof. intros l k H. by rewrite <-(chars_of_chars l), H, chars_of_chars. Qed.
#[export] Instance chars_inj : Inj (=) (=) (String.list_ascii_of_string).
Proof. intros l k H. by rewrite <-(of_chars_chars l), H, of_chars_chars. Qed.

Lemma chars_app s1 s2 : chars (s1 +:+ s2) = chars s1 ++ chars s2.
Proof. induction s1 as [|a s1 IH]; [done|]. cbn. by rewrite <-IH. Qed.

(** ** Character classes *)

Definition is_digit (c : ascii) : bool :=
  let n := N_of_ascii c in (48 <=? n)%N && (n <=? 57)%N.
Definition digit_val (c : ascii) : Z := Z.of_N (N_of_ascii c) - 48.

(** [/^\d+$/.test(s)] (the [d] class of a regular expression without the [u]
    flag is ASCII). *)
Definition all_digits (s : string) : bool :=
  match chars s with [] => false | l => forallb is_digit l end.

(** The integer denoted by a digit string, [Number.parseInt(s, 10)] on it. *)
Definition digits_to_Z (l : list ascii) : Z :=
  foldl (λ acc c, acc * 10 + digit_val c)%Z 0%Z l.

(** [toLowerCase]/[toUpperCase] on the ASCII letters; other characters are
    left alone. *)
Definition ascii_lower (c : ascii) : ascii :=
  let n := N_of_ascii c in
  if (65 <=? n)%N && (n <=? 90)%N then ascii_of_N (n + 32) else c.
Definition ascii_upper (c : ascii) : ascii :=
  let n := N_of_ascii c in
  if (97 <=? n)%N && (n <=? 122)%N then ascii_of_N (n - 32) else c.
Definition to_lower (s : string) : string := of_chars (ascii_lower <$> chars s).
Definition to_upper (s : string) : string := of_chars (ascii_upper <$> chars s).

(** ** [trim] *)

(** The white space and line terminators of ECMA-262, as UTF-8 sequences. *)
Definition bytes (l : list N) : list ascii := ascii_of_N <$> l.
Definition white_space : list (list ascii) := Eval vm_compute in
  bytes <$> ([[9];[10];[11];[12];[13];[32];[194;160];[225;154;128];
   [226;128;128];[226;128;129];[226;128;130];[226;128;131];[226;128;132];
   [226;128;133];[226;128;134];[226;128;135];[226;128;136];[226;128;137];
   [226;128;138];[226;128;168];[226;128;169];[226;128;175];[226;129;159];
   [227;128;128];[239;187;191]])%N.

(** Remove the list [w] from the front of [l]. *)
Fixpoint strip (w l : list ascii) : option (list ascii) :=
  match w, l with
  | [], _ => Some l
  | _, [] => None
  | a :: w, b :: l => if decide (a = b) then strip w l else None
  end.

Fixpoint strip_any (ws : list (list ascii)) (l : list ascii) : option (list ascii) :=
  match ws with
  | [] => None
  | w :: ws => match strip w l with Some l' => Some l' | None => strip_any ws l end
  end.

Fixpoint strip_all (ws : list (list ascii)) (fuel : nat) (l : list ascii) : list ascii :=
  match fuel with
  | O => l
  | S fuel => match strip_any ws l with Some l' => strip_all ws fuel l' | None => l end
  end.

Definition trim_start (l : list ascii) : list ascii :=
  strip_all white_space (length l) l.
Definition trim_end (l : list ascii) : list ascii :=
  reverse (strip_all (reverse <$> white_space) (length l) (reverse l)).
Definition trim (s : string) : string := of_chars (trim_end (trim_start (chars s))).

Section strip.
Implicit Types ws : list (list ascii).

Lemma strip_Some w l l' : strip w l = Some l' ↔ l = w ++ l'.
Proof.
  revert l. induction w as [|a w IH]; intros [|b l]; simpl; try naive_solver.
  case_decide; naive_solver.
Qed.

Lemma strip_any_Some ws l l' :
  strip_any ws l = Some l' → ∃ w, w ∈ ws ∧ l = w ++ l'.
Proof.
  induction ws as [|w ws IH]; simpl; [done|]. destruct (strip w l) eqn:E.
  - intros [= <-]. apply strip_Some in E. set_solver.
  - intros (w' & ? & ?)%IH. set_solver.
Qed.

Lemma strip_any_None ws l :
  strip_any ws l = None ↔ ∀ w l', w ∈ ws → l ≠ w ++ l'.
Proof.
  induction ws as [|w ws IH]; simpl; [set_solver|].
  destruct (strip w l) eqn:E; split; try done.
  - apply strip_Some in E. intros H. by destruct (H w l0 ltac:(set_solver)).
  - rewrite IH. intros H w' l' [->|?]%elem_of_cons; [|by apply H].
    rewrite <-strip_Some. congruence.
  - rewrite IH. intros H w' l' ?. apply H. set_solver.
Qed.

(** Stripping ends with a list none of the sequences starts. *)
Lemma strip_all_clean ws fuel l :
  (∀ w, w ∈ ws → w ≠ []) → length l ≤ fuel →
  strip_any ws (strip_all ws fuel l) = None.
Proof.
  intros Hws. revert l. induction fuel as [|fuel IH]; intros l Hl; simpl.
  - apply strip_any_None. destruct l; [|simpl in Hl; lia].
    intros w l' ? [? ?]%eq_sym%app_eq_nil. set_solver.
  - destruct (strip_any ws l) eqn:E; [|done].
    apply IH. apply strip_any_Some in E as (w & Hw & ->).
    specialize (Hws w Hw). destruct w; [done|]. rewrite length_app in Hl.
    simpl in Hl. lia.
Qed.

Lemma strip_all_id ws fuel l :
  strip_any ws l = None → strip_all ws fuel l = l.
Proof. intros H. destruct fuel; simpl; [done|]. by rewrite H. Qed.

Lemma strip_all_suffix ws fuel l : strip_all ws fuel l `suffix_of` l.
Proof.
  revert l. induction fuel as [|fuel IH]; intros l; simpl; [done|].
  destruct (strip_any ws l) eqn:E; [|done].
  apply strip_any_Some in E as (w & _ & ->).
  etrans; [apply IH|]. by apply suffix_app_r.
Qed.
End strip.

Lemma white_space_nonempty w : w ∈ white_space → w ≠ [].
Proof.
  intros H ->. revert H. change ([] ∉ white_space).
  apply (bool_decide_unpack _). by vm_compute.
Qed.

Definition trimmed (s : string) : Prop := trim s = s.

Lemma trim_idemp s : trim (trim s) = trim s.
Proof.
  unfold trim at 1 2. rewrite chars_of_chars. unfold trim. f_equal.
  set (t := trim_start (chars s)).
  assert (Ht : strip_any white_space t = None).
  { apply strip_all_clean; [apply white_space_nonempty|done]. }
  assert (He : strip_any (reverse <$> white_space) (reverse (trim_end t)) = None).
  { unfold trim_end. rewrite reverse_involutive. apply strip_all_clean.
    - intros w (w' & -> & Hw)%list_elem_of_fmap E%(f_equal reverse).
      rewrite reverse_involutive in E. by apply (white_space_nonempty w').
    - by rewrite length_reverse. }
  assert (Hs : strip_any white_space (trim_end t) = None).
  { apply strip_any_None. intros w l' Hw E.
    assert (Hp : trim_end t `prefix_of` t).
    { destruct (strip_all_suffix (reverse <$> white_space) (length t) (reverse t))
        as [k Hk%(f_equal reverse)].
      rewrite reverse_app, reverse_involutive in Hk. by exists (reverse k). }
    destruct Hp as [k Hk]. rewrite Hk, E, <-app_assoc in Ht.
    eapply strip_any_None in Ht; [done|exact Hw]. }
  rewrite (strip_all_id _ _ _ Hs : trim_start (trim_end t) = trim_end t).
  unfold trim_end at 1. rewrite strip_all_id by done. by rewrite reverse_involutive.
Qed.
#[export] Hint Resolve trim_idemp : js.

(** ** Searching, splitting and joining *)

(** [s.startsWith(p)]. *)
Definition starts_with (p s : string) : bool := String.prefix p s.

(** [s.endsWith(p)]. *)
Definition ends_with (p s : string) : bool :=
  String.prefix (of_chars (reverse (chars p))) (of_chars (reverse (chars s))).

(** [s.includes(p)]. *)
Fixpoint includes (p s : string) : bool :=
  String.prefix p s || match s with String _ s' => includes p s' | EmptyString => false end.

(** [s.split(c)] for a separator of one ASCII character. *)
Fixpoint split_on (c : ascii) (s : string) : list string :=
  match s with
  | EmptyString => [""]
  | String a s' =>
      if decide (a = c) then "" :: split_on c s'
      else match split_on c s' with
           | p :: ps => String a p :: ps
           | [] => []
           end
  end.

(** [l.join(sep)]. *)
Definition join (sep : string) (l : list string) : string := String.concat sep l.

(** [s.replaceAll(pat, rep)] for a non-empty [pat], leftmost occurrences
    first; [fuel] is at least the number of characters. *)
Fixpoint replace_all_go (fuel : nat) (pat rep l : list ascii) : list ascii :=
  match fuel with
  | O => l
  | S fuel =>
      match l with
      | [] => []
      | a :: l' =>
          match strip pat l with
          | Some rest => rep ++ replace_all_go fuel pat rep rest
          | None => a :: replace_all_go fuel pat rep l'
          end
      end
  end.
Definition replace_all (pat rep s : string) : string :=
  of_chars (replace_all_go (length (chars s)) (chars pat) (chars rep) (chars s)).

(** The character [c] does not occur in [s]. *)
Definition no_char (c : ascii) (s : string) : Prop := c ∉ chars s.

Lemma split_on_nonempty c s : split_on c s ≠ [].
Proof. induction s; simpl; [done|]. case_decide; [done|]. by case_match. Qed.

Lemma split_on_cons c a s :
  split_on c (String a s) =
  if decide (a = c) then "" :: split_on c s
  else match split_on c s with p :: ps => String a p :: ps | [] => [] end.
Proof. done. Qed.

Lemma no_char_cons c a s : no_char c (String a s) ↔ a ≠ c ∧ no_char c s.
Proof. unfold no_char. change (chars (String a s)) with (a :: chars s). set_solver. Qed.

Lemma split_on_no_char c s : no_char c s → split_on c s = [s].
Proof.
  induction s as [|a s IH]; [done|]. intros [Ha Hs]%no_char_cons.
  by rewrite split_on_cons, decide_False, IH.
Qed.

Lemma split_on_app c s1 s2 :
  no_char c s1 → split_on c (s1 +:+ String c s2) = s1 :: split_on c s2.
Proof.
  induction s1 as [|a s1 IH].
  - intros _. change ("" +:+ String c s2) with (String c s2).
    by rewrite split_on_cons, decide_True.
  - intros [Ha Hs]%no_char_cons.
    change (String a s1 +:+ String c s2) with (String a (s1 +:+ String c s2)).
    by rewrite split_on_cons, decide_False, IH.
Qed.

(** Joining parts that do not contain the separator and splitting again
    gives the parts back. *)
Lemma split_on_join c l :
  l ≠ [] → Forall (no_char c) l → split_on c (join (String c "") l) = l.
Proof.
  intros Hne Hall. induction Hall as [|s l Hs Hl IH]; [done|].
  destruct l as [|s' l]; [by apply split_on_no_char|].
  change (join (String c "") (s :: s' :: l))
    with (s +:+ String c (join (String c "") (s' :: l))).
  rewrite split_on_app by done. by rewrite IH.
Qed.

(** ** Decimal strings *)

Lemma digits_to_Z_app l1 l2 :
  digits_to_Z (l1 ++ l2) = (digits_to_Z l1 * 10 ^ Z.of_nat (length l2) + digits_to_Z l2)%Z.
Proof.
  unfold digits_to_Z. rewrite foldl_app.
  generalize (foldl (λ acc c, acc * 10 + digit_val c)%Z 0%Z l1) as acc.
  induction l2 as [|c l2 IH] using rev_ind; intros acc; cbn; [lia|].
  rewrite !foldl_app, length_app. cbn. rewrite IH.
  rewrite Nat2Z.inj_add, Z.pow_add_r by lia. lia.
Qed.

(** ** Printable ASCII *)

Definition plain (c : ascii) : bool :=
  let n := N_of_ascii c in (33 <=? n)%N && (n <=? 126)%N.
Definition plain_str (s : string) : Prop := forallb plain (chars s) = true.

Lemma white_space_not_plain w :
  w ∈ white_space →
  match w with c :: _ => plain c = false | [] => False end ∧
  match reverse w with c :: _ => plain c = false | [] => False end.
Proof.
  intros Hw.
  cut (forallb (λ w : list ascii,
    match w with c :: _ => negb (plain c) | [] => false end &&
    match reverse w with c :: _ => negb (plain c) | [] => false end) white_space = true).
  { rewrite forallb_forall. intros H. specialize (H w).
    rewrite <-list_elem_of_In in H. specialize (H Hw).
    apply andb_true_iff in H as [H1 H2].
    destruct w; [done|]. destruct (reverse _); [done|]. by rewrite !negb_true_iff in *. }
  by vm_compute.
Qed.

(** [trim] leaves a string alone when its first and last characters are
    printable ASCII. *)
Lemma trim_edges s :
  match chars s with [] => True | c :: _ => plain c = true end →
  match reverse (chars s) with [] => True | c :: _ => plain c = true end →
  trim s = s.
Proof.
  intros Hh Hl. unfold trim.
  assert (Hs : strip_any white_space (chars s) = None).
  { apply strip_any_None. intros w l' [Hw _]%white_space_not_plain E.
    destruct w as [|c w]; [done|]. rewrite E in Hh. cbn in Hh. congruence. }
  assert (He : strip_any (reverse <$> white_space) (reverse (chars s)) = None).
  { apply strip_any_None. intros w l' (w' & -> & [_ Hw]%white_space_not_plain)%list_elem_of_fmap E.
    destruct (reverse w') as [|c w]; [done|]. rewrite E in Hl. cbn in Hl. congruence. }
  unfold trim_start. rewrite strip_all_id by done. unfold trim_end.
  rewrite strip_all_id by done. by rewrite reverse_involutive, of_chars_chars.
Qed.

Lemma trim_plain s : plain_str s → trim s = s.
Proof.
  unfold plain_str. rewrite forallb_forall. intros H. apply trim_edges.
  - destruct (chars s); [done|]. apply H. by left.
  - destruct (reverse (chars s)) as [|c l] eqn:E; [done|]. apply H.
    apply list_elem_of_In. apply elem_of_reverse. rewrite E. set_solver.
Qed.

Lemma plain_str_app s1 s2 : plain_str s1 → plain_str s2 → plain_str (s1 +:+ s2).
Proof. unfold plain_str. rewrite chars_app, forallb_app. by intros -> ->. Qed.

Lemma plain_str_no_char c s : plain c = false → plain_str s → no_char c s.
Proof.
  unfold plain_str, no_char. rewrite forallb_forall. intros Hc H Hin.
  rewrite H in Hc; [done|]. by apply list_elem_of_In.
Qed.

(** Replacing a pattern that starts with a character the string does not
    contain changes nothing. *)
Lemma replace_all_absent p pat rep s :
  no_char p s → replace_all (String p pat) rep s = s.
Proof.
  unfold no_char, replace_all. intros H.
  cut (∀ n l, p ∉ l → length l ≤ n → replace_all_go n (p :: chars pat) (chars rep) l = l).
  { intros Hgo. rewrite <-(of_chars_chars s) at 3. f_equal. by apply Hgo. }
  clear s H. intros n. induction n as [|n IH]; intros [|c l] Hp Hl; try done.
  cbn [replace_all_go strip]. rewrite decide_False by set_solver.
  f_equal. apply IH; [set_solver|]. cbn in Hl. lia.
Qed.

Lemma prefix_char c s : String.prefix (String c "") s = true ↔ ∃ s', s = String c s'.
Proof.
  destruct s as [|a s]; cbn; [naive_solver|]. destruct (ascii_dec c a); [|naive_solver].
  destruct s; naive_solver.
Qed.

Lemma includes_char c s : includes (String c "") s = true ↔ c ∈ chars s.
Proof.
  induction s as [|a s IH].
  - cbn. split; [done|set_solver].
  - change (includes (String c "") (String a s))
      with (String.prefix (String c "") (String a s) || includes (String c "") s).
    change (chars (String a s)) with (a :: chars s).
    rewrite orb_true_iff, IH, prefix_char, elem_of_cons. naive_solver.
Qed.

Lemma plain_str_join sep l : plain_str sep → Forall plain_str l → plain_str (join sep l).
Proof.
  intros Hs HF. induction HF as [|s l H HF IH]; [done|].
  destruct l as [|s' l]; [done|].
  change (join sep (s :: s' :: l)) with (s +:+ sep +:+ join sep (s' :: l)).
  auto using plain_str_app.
Qed.

Lemma join_nonempty sep p ps : p ≠ "" → join sep (p :: ps) ≠ "".
Proof. unfold join. destruct ps, p; cbn; done. Qed.

(** ** Decimal numerals *)

Lemma pretty_N_go_digits x s :
  forallb is_digit (chars s) = true → forallb is_digit (chars (pretty_N_go x s)) = true.
Proof.
  revert s. induction (N.lt_wf_0 x) as [x _ IH]; intros s Hs.
  destruct (decide (x = 0)%N) as [->|Hx]; [by rewrite pretty_N_go_0|].
  rewrite pretty_N_go_step by lia. apply IH; [apply N.div_lt; lia|].
  change (chars (String ?c s)) with (c :: chars s). cbn [forallb]. rewrite Hs, andb_true_r.
  unfold pretty_N_char. by repeat case_match.
Qed.

Lemma pretty_N_digits (n : N) : forallb is_digit (chars (pretty n)) = true.
Proof. unfold pretty, pretty_N. case_decide; [done|]. by apply pretty_N_go_digits. Qed.

Lemma digits_no_char c s : is_digit c = false → forallb is_digit (chars s) = true → no_char c s.
Proof.
  unfold no_char. rewrite forallb_forall. intros Hc H Hin%list_elem_of_In%H. congruence.
Qed.

Lemma app_cons_inj_no {A} (c : A) l1 l2 k1 k2 :
  c ∉ l1 → c ∉ l2 → l1 ++ c :: k1 = l2 ++ c :: k2 → l1 = l2 ∧ k1 = k2.
Proof.
  revert l2. induction l1 as [|a l1 IH]; intros [|b l2] H1 H2 E; cbn in E.
  - by simplify_eq.
  - simplify_eq. set_solver.
  - simplify_eq. set_solver.
  - injection E as -> E. apply IH in E as [-> ->]; set_solver.
Qed.

(** The part after the last [c] is determined by the string. *)
Lemma after_last_inj c s1 s2 d1 d2 :
  no_char c d1 → no_char c d2 → s1 +:+ String c d1 = s2 +:+ String c d2 → d1 = d2.
Proof.
  unfold no_char. intros H1 H2 E%(f_equal (λ s, reverse (chars s))). rewrite !chars_app in E.
  change (chars (String c ?d)) with (c :: chars d) in E.
  rewrite !reverse_app, !reverse_cons, <-!app_assoc in E. cbn [app] in E.
  apply app_cons_inj_no in E as [E _]; [|by rewrite elem_of_reverse..].
  apply (inj reverse) in E. by apply (inj _) in E.
Qed.

Lemma white_space_all_odd w : w ∈ white_space → forallb (λ c, negb (plain c)) w = true.
Proof.
  intros Hw. cut (forallb (forallb (λ c, negb (plain c))) white_space = true); [|by vm_compute].
  rewrite forallb_forall. intros H. by apply H, list_elem_of_In.
Qed.

(** A printable prefix does not disturb a trimmed, non-empty rest. *)
Lemma trim_plain_prefix p k :
  plain_str p → p ≠ "" → trim k = k → k ≠ "" → trim (p +:+ k) = p +:+ k.
Proof.
  intros Hp Hne Hk Hkne. unfold trim. rewrite chars_app.
  assert (H1 : strip_any white_space (chars p ++ chars k) = None).
  { apply strip_any_None. intros w l' [Hw _]%white_space_not_plain E.
    destruct w as [|c w]; [done|]. destruct p as [|a p]; [done|]. cbn in E. simplify_eq.
    unfold plain_str in Hp. cbn in Hp, Hw. by rewrite Hw in Hp. }
  unfold trim_start. rewrite strip_all_id by done.
  assert (H2 : strip_any (reverse <$> white_space) (reverse (chars k)) = None).
  { rewrite <-Hk. unfold trim. rewrite chars_of_chars. unfold trim_end.
    rewrite reverse_involutive. apply strip_all_clean; [|by rewrite length_reverse].
    intros w (w' & -> & Hw)%list_elem_of_fmap E%(f_equal reverse).
    rewrite reverse_involutive in E. by apply (white_space_nonempty w'). }
  unfold trim_end. rewrite strip_all_id.
  { by rewrite reverse_involutive, <-chars_app, of_chars_chars. }
  apply strip_any_None. intros w l' (w' & -> & Hw)%list_elem_of_fmap E.
  rewrite reverse_app in E.
  apply app_eq_inv in E as [(k' & E1 & E2)|(k' & E1 & E2)].
  - (* the sequence ends inside [k] *)
    apply (proj1 (strip_any_None _ _) H2 (reverse w') k'); [|done].
    apply list_elem_of_fmap. by exists w'.
  - (* the sequence reaches into [p] *)
    destruct k' as [|c k'].
    + rewrite app_nil_r in E1. apply (proj1 (strip_any_None _ _) H2 (reverse w') []).
      * apply list_elem_of_fmap. by exists w'.
      * by rewrite app_nil_r.
    + assert (Hin : c ∈ w').
      { apply elem_of_reverse. rewrite E1. set_solver. }
      assert (Hcp : c ∈ chars p).
      { apply elem_of_reverse. rewrite E2. set_solver. }
      pose proof (white_space_all_odd w' Hw) as Ho. rewrite forallb_forall in Ho.
      specialize (Ho c). rewrite <-list_elem_of_In in Ho. specialize (Ho Hin).
      unfold plain_str in Hp. rewrite forallb_forall in Hp. specialize (Hp c).
      rewrite <-list_elem_of_In in Hp. by rewrite Hp in Ho.
Qed.
