(* ===== verification/JsNumber.v ===== *)
(** * JavaScript numbers

    A JavaScript number is an IEEE-754 binary64 value, here the executable
    [spec_float] of the Standard Library with its operations instantiated
    at 53 bits of precision and exponent range 1024.  The conversions follow
    ECMA-262: [str_to_num] is [Number(s)], [parse_float] is [parseFloat],
    [num_to_str] is [String(n)] (shortest digits that read back) and
    [to_fixed] is [n.toFixed(d)].  Decimal literals are rounded once, from
    the exact rational. *)
From Stdlib Require Import Ascii SpecFloat.
From S2P Require Import Prelude JsString.
Local Open Scope Z_scope.

Abbreviation num := spec_float.

Definition nan : num := S754_nan.
Definition num_of_Z (z : Z) : num := binary_normalize 53 1024 z 0 false.
Definition num_mul : num → num → num := SFmul 53 1024.
Definition num_div : num → num → num := SFdiv 53 1024.
Definition num_add : num → num → num := SFadd 53 1024.
Definition num_opp : num → num := SFopp.

(** [a === b], [a < b] and [a <= b] on numbers. *)
Definition num_eqb : num → num → bool := SFeqb.
Definition num_ltb : num → num → bool := SFltb.
Definition num_leb : num → num → bool := SFleb.

#[export] Instance num_eq_dec : EqDecision num.
Proof. solve_decision. Defined.

(** [Number.isFinite(n)] and [Number.isInteger(n)]. *)
Definition is_finite (n : num) : bool :=
  match n with S754_zero _ | S754_finite _ _ _ => true | _ => false end.
Definition is_integer (n : num) : bool :=
  match n with
  | S754_zero _ => true
  | S754_finite _ m e => (0 <=? e) || (Z.pos m mod 2 ^ (- e) =? 0)
  | _ => false
  end.

(** ** Decimal to binary *)

(** The double nearest to [sign p / q] (ties to even). *)
Definition num_of_ratio (neg : bool) (p q : positive) : num :=
  let '(m, e, l) := SFdiv_core_binary 53 1024 (Z.pos p) 0 (Z.pos q) 0 in
  binary_round_aux 53 1024 neg m e l.

(** The double nearest to [sign m * 10^e]. *)
Definition num_of_dec (neg : bool) (m e : Z) : num :=
  match m with
  | Z.pos p =>
      match e with
      | Z.neg k => num_of_ratio neg p (10 ^ k)%positive
      | Z0 => binary_round 53 1024 neg p 0
      | Z.pos k => binary_round 53 1024 neg (p * 10 ^ k)%positive 0
      end
  | _ => S754_zero neg
  end.

(** The longest run of digits at the front of a list. *)
Fixpoint span_digits (l : list ascii) : list ascii * list ascii :=
  match l with
  | c :: l' => if is_digit c then let '(d, r) := span_digits l' in (c :: d, r) else ([], l)
  | [] => ([], [])
  end.

(** An optional exponent part; nothing is consumed when it is malformed. *)
Definition scan_exponent (l : list ascii) : Z * list ascii :=
  match l with
  | c :: l' =>
      if bool_decide (c = "e"%char) || bool_decide (c = "E"%char) then
        let '(neg, l'') :=
          match l' with
          | c' :: r => if bool_decide (c' = "-"%char) then (true, r)
                       else if bool_decide (c' = "+"%char) then (false, r) else (false, l')
          | [] => (false, [])
          end in
        match span_digits l'' with
        | ([], _) => (0, l)
        | (d, r) => ((if neg then - digits_to_Z d else digits_to_Z d), r)
        end
      else (0, l)
  | [] => (0, [])
  end.

(** StrUnsignedDecimalLiteral without [Infinity]: digits with an optional
    fraction and exponent, at least one digit in all. *)
Definition scan_unsigned (neg : bool) (l : list ascii) : option (num * list ascii) :=
  let '(ip, r) := span_digits l in
  let '(fp, r) :=
    match r with
    | c :: r' => if bool_decide (c = "."%char) then
                   let '(d, r'') := span_digits r' in
                   match ip, d with [], [] => ([], r) | _, _ => (d, r'') end
                 else ([], r)
    | [] => ([], [])
    end in
  match ip ++ fp with
  | [] => None
  | ds => let '(e, r) := scan_exponent r in
          Some (num_of_dec neg (digits_to_Z ds) (e - Z.of_nat (length fp)), r)
  end.

(** StrDecimalLiteral: a sign, then [Infinity] or an unsigned literal. *)
Definition scan_decimal (l : list ascii) : option (num * list ascii) :=
  let '(neg, l) :=
    match l with
    | c :: r => if bool_decide (c = "-"%char) then (true, r)
                else if bool_decide (c = "+"%char) then (false, r) else (false, l)
    | [] => (false, [])
    end in
  match strip (chars "Infinity") l with
  | Some r => Some (S754_infinity neg, r)
  | None => scan_unsigned neg l
  end.

(** The value of a digit in base 16. *)
Definition hex_val (c : ascii) : option Z :=
  let n := Z.of_N (N_of_ascii c) in
  if (48 <=? n) && (n <=? 57) then Some (n - 48)
  else if (97 <=? n) && (n <=? 102) then Some (n - 87)
  else if (65 <=? n) && (n <=? 70) then Some (n - 55)
  else None.

Fixpoint radix_digits (radix acc : Z) (l : list ascii) : option Z :=
  match l with
  | [] => Some acc
  | c :: l => match hex_val c with
              | Some d => if d <? radix then radix_digits radix (acc * radix + d) l else None
              | None => None
              end
  end.

Definition radix_of (c : ascii) : option Z :=
  if bool_decide (c ∈ ["x"; "X"]%char) then Some 16
  else if bool_decide (c ∈ ["o"; "O"]%char) then Some 8
  else if bool_decide (c ∈ ["b"; "B"]%char) then Some 2 else None.

(** [Number(s)]: white space around the literal is ignored, the empty string
    is 0, anything that is not a numeric literal is [NaN]. *)
Definition str_to_num (s : string) : num :=
  let l := chars (trim s) in
  match l with
  | [] => S754_zero false
  | _ =>
      let radix := match l with
                   | a :: b :: c :: r => if bool_decide (a = "0"%char)
                                         then (λ x, (x, c :: r)) <$> radix_of b else None
                   | _ => None
                   end in
      match radix with
      | Some (r, ds) => match radix_digits r 0 ds with Some z => num_of_Z z | None => nan end
      | None => match scan_decimal l with Some (n, []) => n | _ => nan end
      end
  end.

(** [parseFloat(s)]: the longest numeric prefix. *)
Definition parse_float (s : string) : num :=
  match scan_decimal (trim_start (chars s)) with Some (n, _) => n | None => nan end.

Fixpoint hex_run (l : list ascii) : list ascii :=
  match l with
  | c :: l => match hex_val c with Some _ => c :: hex_run l | None => [] end
  | [] => []
  end.

(** [parseInt(s)]: an optional sign and the longest run of digits, in base
    16 after [0x]; [NaN] without a digit. *)
Definition parse_int_unsigned (neg : bool) (l : list ascii) : num :=
  let sign n := if neg then num_opp n else n in
  let hex := match l with
             | a :: b :: r => if bool_decide (a = "0"%char) && bool_decide (b ∈ ["x"; "X"]%char)
                              then Some r else None
             | _ => None
             end in
  match hex with
  | Some r =>
      match hex_run r with
      | [] => nan
      | ds => sign (num_of_Z (default 0 (radix_digits 16 0 ds)))
      end
  | None => match (span_digits l).1 with
            | [] => nan
            | ds => sign (num_of_Z (digits_to_Z ds))
            end
  end.
Definition parse_int (s : string) : num :=
  match trim_start (chars s) with
  | c :: r => if bool_decide (c = "-"%char) then parse_int_unsigned true r
              else if bool_decide (c = "+"%char) then parse_int_unsigned false r
              else parse_int_unsigned false (c :: r)
  | [] => nan
  end.

(** ** Binary to decimal *)

(** The exact value [m * 2^e] as a fraction. *)
Definition fraction (m : positive) (e : Z) : Z * Z :=
  if 0 <=? e then (Z.pos m * 2 ^ e, 1) else (Z.pos m, 2 ^ (- e)).

Definition pow10_frac (n : Z) : Z * Z := if 0 <=? n then (10 ^ n, 1) else (1, 10 ^ (- n)).

(** [p / q < 10^n]. *)
Definition below_pow10 (p q n : Z) : bool :=
  let '(a, b) := pow10_frac n in p * b <? a * q.

(** The [n] with [10^(n-1) <= p/q < 10^n], searched upwards. *)
Fixpoint dec_exponent (fuel : nat) (p q n : Z) : Z :=
  match fuel with
  | O => n
  | S fuel => if below_pow10 p q n then n else dec_exponent fuel p q (n + 1)
  end.

(** A [k]-digit decimal [s * 10^(n-k)] that reads back as [x]: the closer of
    the two neighbours of [p/q], when one does. *)
Definition digits_at (x : num) (p q n k : Z) : option Z :=
  let '(a, b) := pow10_frac (k - n) in
  let s := (p * a) / (q * b) in
  let r := (p * a) mod (q * b) in
  let ok s := bool_decide (num_of_dec false s (n - k) = x) in
  let lo := ok s in let hi := ok (s + 1) in
  if lo && hi then
    Some (match 2 * r ?= q * b with
          | Lt => s | Gt => s + 1 | Eq => if Z.even s then s else s + 1 end)
  else if lo then Some s else if hi then Some (s + 1) else None.

Fixpoint shortest_digits (fuel : nat) (x : num) (p q n k : Z) : Z * Z :=
  match fuel with
  | O => (k, 0)
  | S fuel => match digits_at x p q n k with
              | Some s => (k, s)
              | None => shortest_digits fuel x p q n (k + 1)
              end
  end.

Definition zeros (n : Z) : string := of_chars (replicate (Z.to_nat n) "0"%char).

(** Number::toString(x) for digits [ds] of length [k] and decimal exponent [n]. *)
Definition format_digits (ds : list ascii) (n : Z) : string :=
  let k := Z.of_nat (length ds) in
  if (k <=? n) && (n <=? 21) then of_chars ds +:+ zeros (n - k)
  else if (0 <? n) && (n <=? 21) then
    of_chars (take (Z.to_nat n) ds) +:+ "." +:+ of_chars (drop (Z.to_nat n) ds)
  else if (-6 <? n) && (n <=? 0) then "0." +:+ zeros (- n) +:+ of_chars ds
  else
    let e := n - 1 in
    let exp := "e" +:+ (if 0 <=? e then "+" else "-") +:+ pretty (Z.abs e) in
    match ds with
    | [d] => of_chars [d] +:+ exp
    | d :: rest => of_chars [d] +:+ "." +:+ of_chars rest +:+ exp
    | [] => ""
    end.

(** The digits of a positive finite double, [s] normalised so that it has no
    trailing power of ten beyond [k] digits, with the decimal exponent. *)
Definition num_digits (m : positive) (e : Z) : list ascii * Z :=
  let '(p, q) := fraction m e in
  let est := ((Z.pos (digits2_pos m) + e - 1) * 30103) / 100000 in
  let n := dec_exponent 4 p q (est - 1) in
  let '(k, s) := shortest_digits 18 (S754_finite false m e) p q n 1 in
  if s =? 10 ^ k then (chars "1", n + 1) else (chars (pretty s), n).

(** [String(x)]. *)
Definition num_to_str (x : num) : string :=
  match x with
  | S754_nan => "NaN"
  | S754_infinity false => "Infinity"
  | S754_infinity true => "-Infinity"
  | S754_zero _ => "0"
  | S754_finite neg m e =>
      let '(ds, n) := num_digits m e in
      (if neg then "-" else "") +:+ format_digits ds n
  end.

(** [x.toFixed(f)] for a non-negative digit count [f]: the nearest multiple
    of [10^-f], the larger one on a tie; [String(x)] from [1e21] on. *)
Definition to_fixed_abs (p q : Z) (f : nat) : string :=
  let n := (2 * p * 10 ^ Z.of_nat f + q) / (2 * q) in
  let ds := chars (pretty n) in
  match f with
  | O => of_chars ds
  | _ => let ds := replicate (S f - length ds) "0"%char ++ ds in
         let k := (length ds - f)%nat in
         of_chars (take k ds) +:+ "." +:+ of_chars (drop k ds)
  end.

Definition to_fixed (x : num) (f : nat) : string :=
  match x with
  | S754_zero _ => to_fixed_abs 0 1 f
  | S754_finite neg m e =>
      let '(p, q) := fraction m e in
      if 10 ^ 21 * q <=? p then num_to_str x
      else (if neg then "-" else "") +:+ to_fixed_abs p q f
  | _ => num_to_str x
  end.

(** The integer part of a finite double. *)
Definition num_to_Z (n : num) : Z :=
  match n with
  | S754_finite neg m e =>
      let a := if 0 <=? e then Z.pos m * 2 ^ e else Z.pos m / 2 ^ (- e) in
      if neg then - a else a
  | _ => 0
  end.

(** ** Integers in the status code range *)

(** [n] is a double: its mantissa and exponent are in canonical form. *)
Definition is_double (n : num) : Prop := valid_binary 53 1024 n = true.

Lemma digits2_pos_size p : digits2_pos p = Pos.size p.
Proof. induction p; cbn; by rewrite ?IHp. Qed.

Lemma status_num_table z :
  100 ≤ z ≤ 599 →
  num_of_Z z = S754_finite false (Z.to_pos (z * 2 ^ (52 - Z.log2 z))) (Z.log2 z - 52).
Proof.
  intros Hz.
  cut (forallb (λ z, bool_decide (num_of_Z z =
    S754_finite false (Z.to_pos (z * 2 ^ (52 - Z.log2 z))) (Z.log2 z - 52))) (seqZ 100 500) = true);
    [|by vm_compute].
  rewrite forallb_forall. intros H. specialize (H z).
  rewrite <-list_elem_of_In, bool_decide_eq_true in H. apply H, elem_of_seqZ. lia.
Qed.

Lemma canonical_bounds m e :
  -1074 < e → canonical_mantissa 53 1024 m e = true → 2 ^ 52 ≤ Z.pos m < 2 ^ 53.
Proof.
  unfold canonical_mantissa, fexp, emin. intros He H%Z.eqb_eq.
  rewrite digits2_pos_size in H. cbn in H.
  assert (Hs : Z.pos (Pos.size m) = 53) by lia.
  assert (Pos.size m = 53%positive) as Hp by lia.
  pose proof (Pos.size_gt m) as Hgt. pose proof (Pos.size_le m) as Hle.
  rewrite Hp in Hgt, Hle. change (2 ^ 53)%positive with 9007199254740992%positive in *.
  change (2 ^ 52) with 4503599627370496. change (2 ^ 53) with 9007199254740992. 
  apply Pos2Z.pos_lt_pos in Hgt. apply Pos2Z.pos_le_pos in Hle. rewrite Pos2Z.inj_xO in Hle.
  clear -Hgt Hle. lia.
Qed.

Lemma scaled_integer m e z :
  2 ^ 52 ≤ Z.pos m < 2 ^ 53 → -46 ≤ e ≤ -43 → Z.pos m = z * 2 ^ (- e) →
  100 ≤ z ≤ 599 → S754_finite false m e = num_of_Z z.
Proof.
  intros Hm He Hz Hr. rewrite status_num_table by done.
  assert (Z.log2 z = e + 52) as ->.
  { apply Z.log2_unique; [lia|]. rewrite Hz in Hm.
    assert (e = -46 ∨ e = -45 ∨ e = -44 ∨ e = -43) as [->|[->|[->| ->]]] by lia; lia. }
  replace (52 - (e + 52)) with (- e) by lia. replace (e + 52 - 52) with e by lia.
  by rewrite <-Hz.
Qed.

Lemma num_leb_pos m1 e1 m2 e2 :
  num_leb (S754_finite false m1 e1) (S754_finite false m2 e2) = true →
  e1 < e2 ∨ (e1 = e2 ∧ Z.pos m1 ≤ Z.pos m2).
Proof.
  unfold num_leb, SFleb, SFcompare. fold (Pos.compare m1 m2).
  destruct (Z.compare_spec e1 e2); [|lia|done].
  destruct (Pos.compare_spec m1 m2); try done; lia.
Qed.

Lemma status_num n :
  is_double n → is_integer n = true → num_leb (num_of_Z 100) n = true →
  num_leb n (num_of_Z 599) = true → ∃ z, 100 ≤ z ≤ 599 ∧ n = num_of_Z z.
Proof.
  intros Hd Hi Hlo Hhi.
  assert (H100 : num_of_Z 100 = S754_finite false 7036874417766400 (-46)) by done.
  assert (H599 : num_of_Z 599 = S754_finite false 5268859720302592 (-43)) by done.
  rewrite H100 in Hlo. rewrite H599 in Hhi.
  destruct n as [s|s| |s m e]; try done; [by destruct s..|]. destruct s; [done|].
  unfold is_double, valid_binary, bounded in Hd. apply andb_true_iff in Hd as [Hc _].
  apply num_leb_pos in Hlo, Hhi. apply canonical_bounds in Hc; [|lia].
  unfold is_integer in Hi. rewrite (proj2 (Z.leb_gt 0 e)) in Hi by lia. cbn [orb] in Hi.
  apply Z.eqb_eq in Hi. apply Z.mod_divide in Hi as [z Hz]; [|lia].
  exists z. assert (He : -46 ≤ e ≤ -43) by lia. assert (100 ≤ z ≤ 599).
  { assert (e = -46 ∨ e = -45 ∨ e = -44 ∨ e = -43) as [->|[->|[->| ->]]] by lia; lia. }
  split; [done|]. by apply scaled_integer.
Qed.
