(* ===== verification/JsValue.v ===== *)
(** * JavaScript values

    The data the front end handles: what [JSON.parse] returns and the plain
    objects and arrays the code builds.  An object is the list of its own
    enumerable properties in [Object.keys] order: array-index keys first, in
    ascending order, then the other keys in insertion order.  Properties
    inherited from [Object.prototype] are not represented, and assigning to
    [__proto__] creates no own property. *)
From Stdlib Require Import Ascii SpecFloat.
From S2P Require Import Prelude JsString JsNumber.
Local Open Scope Z_scope.

Unset Elimination Schemes.
Inductive jsval : Type :=
| VUndef
| VNull
| VBool (b : bool)
| VNum (n : num)
| VStr (s : string)
| VArr (l : list jsval)
| VObj (o : list (string * jsval)).
Set Elimination Schemes.

Abbreviation obj := (list (string * jsval)).

Section jsval_ind.
Variable P : jsval → Prop.
Hypothesis (HU : P VUndef) (HN : P VNull) (HB : ∀ b, P (VBool b)).
Hypothesis (Hnum : ∀ n, P (VNum n)) (HS : ∀ s, P (VStr s)).
Hypothesis HA : ∀ l, Forall P l → P (VArr l).
Hypothesis HO : ∀ o, Forall (λ kv, P kv.2) o → P (VObj o).

Fixpoint jsval_ind (v : jsval) : P v :=
  match v with
  | VUndef => HU
  | VNull => HN
  | VBool b => HB b
  | VNum n => Hnum n
  | VStr s => HS s
  | VArr l => HA l ((fix go l : Forall P l :=
      match l with
      | [] => Forall_nil_2 P
      | x :: l => Forall_cons_2 P x l (jsval_ind x) (go l)
      end) l)
  | VObj o => HO o ((fix go o : Forall (λ kv, P kv.2) o :=
      match o with
      | [] => Forall_nil_2 _
      | (k, x) :: o => Forall_cons_2 _ (k, x) o (jsval_ind x) (go o)
      end) o)
  end.
End jsval_ind.

(** ** Tests *)

(** [Boolean(v)]. *)
Definition truthy (v : jsval) : bool :=
  match v with
  | VUndef | VNull => false
  | VBool b => b
  | VNum n => match n with S754_zero _ | S754_nan => false | _ => true end
  | VStr s => negb (bool_decide (s = ""))
  | VArr _ | VObj _ => true
  end.

(** [typeof v === 'object']. *)
Definition typeof_object (v : jsval) : bool :=
  match v with VNull | VArr _ | VObj _ => true | _ => false end.

(** [Array.isArray(v)]. *)
Definition is_array (v : jsval) : bool := match v with VArr _ => true | _ => false end.

(** [v && typeof v === 'object' && !Array.isArray(v)]: a plain object. *)
Definition as_plain_object (v : jsval) : option obj :=
  match v with VObj o => Some o | _ => None end.

(** [v === true], [v === false], [v === s], [v !== undefined]. *)
Definition is_true (v : jsval) : bool := match v with VBool true => true | _ => false end.
Definition is_false (v : jsval) : bool := match v with VBool false => true | _ => false end.
Definition is_str (s : string) (v : jsval) : bool :=
  match v with VStr s' => bool_decide (s = s') | _ => false end.
Definition is_undef (v : jsval) : bool := match v with VUndef => true | _ => false end.
Definition is_nullish (v : jsval) : bool := match v with VUndef | VNull => true | _ => false end.

(** [a || b] and [a ?? b]. *)
Definition js_or (a b : jsval) : jsval := if truthy a then a else b.
Definition js_nullish (a b : jsval) : jsval := if is_nullish a then b else a.

(** ** Own properties *)

(** A canonical array index: ["0"] or a digit string without leading zero,
    below [2^32 - 1]. *)
Definition array_index (k : string) : option Z :=
  match chars k with
  | [] => None
  | (c :: l) as ds =>
      if forallb is_digit ds && (bool_decide (l = []) || negb (bool_decide (c = "0"%char)))
      then let z := digits_to_Z ds in if z <? 2 ^ 32 - 1 then Some z else None
      else None
  end.

Fixpoint obj_get {A} (o : list (string * A)) (k : string) : option A :=
  match o with
  | [] => None
  | (k', v) :: o => if decide (k = k') then Some v else obj_get o k
  end.

(** Insert a new array-index key at its place. *)
Fixpoint insert_index {A} (i : Z) (k : string) (v : A) (o : list (string * A)) : list (string * A) :=
  match o with
  | [] => [(k, v)]
  | (k', v') :: o' =>
      match array_index k' with
      | Some j => if j <? i then (k', v') :: insert_index i k v o' else (k, v) :: o
      | None => (k, v) :: o
      end
  end.

Fixpoint obj_replace {A} (k : string) (v : A) (o : list (string * A)) : list (string * A) :=
  match o with
  | [] => []
  | (k', v') :: o => if decide (k = k') then (k, v) :: o else (k', v') :: obj_replace k v o
  end.

(** Define the own property [k]: in place when it exists, otherwise at the
    position [Object.keys] gives it. *)
Definition obj_define {A} (k : string) (v : A) (o : list (string * A)) : list (string * A) :=
  match obj_get o k with
  | Some _ => obj_replace k v o
  | None => match array_index k with
            | Some i => insert_index i k v o
            | None => o ++ [(k, v)]
            end
  end.

(** [o[k] = v]. *)
Definition obj_set {A} (k : string) (v : A) (o : list (string * A)) : list (string * A) :=
  if decide (k = "__proto__") then o else obj_define k v o.

(** [if (b) o[k] = v]. *)
Definition set_if {A} (b : bool) (k : string) (v : A) (o : list (string * A))
    : list (string * A) := if b then obj_set k v o else o.

(** [for (const [k, a] of Object.entries(l)) { ... acc[k] = f(k, a) ... }],
    where [None] assigns nothing. *)
Definition set_all {A B} (f : string → A → option B) (acc : list (string * B))
    (l : list (string * A)) : list (string * B) :=
  foldl (λ acc kv, match f kv.1 kv.2 with Some v => obj_set kv.1 v acc | None => acc end) acc l.

(** [delete o[k]]. *)
Definition obj_delete {A} (k : string) (o : list (string * A)) : list (string * A) :=
  filter (λ kv, kv.1 ≠ k) o.

(** [{...o1, ...o2}]. *)
Definition obj_spread {A} (o1 o2 : list (string * A)) : list (string * A) :=
  foldl (λ acc kv, obj_define kv.1 kv.2 acc) o1 o2.

Definition obj_of_list {A} (l : list (string * A)) : list (string * A) := obj_spread [] l.

Definition obj_keys {A} (o : list (string * A)) : list string := o.*1.

(** The elements of an array as own properties ["0"], ["1"], .... *)
Definition index_props {A} (l : list A) : list (string * A) :=
  imap (λ i x, (pretty i, x)) l.

(** Own enumerable properties of an object or array: [Object.entries(v)]. *)
Definition own_props (v : jsval) : obj :=
  match v with VObj o => o | VArr l => index_props l | _ => [] end.

(** The properties [...v] adds to an object; an ASCII text spreads into its
    characters. *)
Definition spread_props (v : jsval) : obj :=
  match v with
  | VStr s => index_props ((λ c, VStr (String c "")) <$> chars s)
  | _ => own_props v
  end.

(** The names every object literal inherits. *)
Definition inherited : list string :=
  ["__proto__"; "constructor"; "hasOwnProperty"; "isPrototypeOf"; "propertyIsEnumerable";
   "toLocaleString"; "toString"; "valueOf"; "__defineGetter__"; "__defineSetter__";
   "__lookupGetter__"; "__lookupSetter__"].

(** [v?.[k]]: [undefined] when [v] is nullish. *)
Definition prop_opt (v : jsval) (k : string) : jsval :=
  match v with
  | VArr l => if decide (k = "length") then VNum (num_of_Z (Z.of_nat (length l)))
              else default VUndef (obj_get (own_props v) k)
  | VObj o => default VUndef (obj_get o k)
  | _ => VUndef
  end.

(** [v[k]]: reading a property of a nullish value throws. *)
Definition prop (v : jsval) (k : string) : res jsval :=
  match v with
  | VUndef => Throw ("Cannot read properties of undefined (reading '" +:+ k +:+ "')")
  | VNull => Throw ("Cannot read properties of null (reading '" +:+ k +:+ "')")
  | _ => Ok (prop_opt v k)
  end.

(** ** Coercions *)

(** [String(v)].  An object whose own [toString] property is data (not
    callable) cannot be converted: its inherited [valueOf] returns the
    object itself, so the conversion throws. *)
Fixpoint to_str (v : jsval) : res string :=
  match v with
  | VUndef => Ok "undefined"
  | VNull => Ok "null"
  | VBool b => Ok (if b then "true" else "false")
  | VNum n => Ok (num_to_str n)
  | VStr s => Ok s
  | VArr l =>
      parts ← (fix go l := match l with
               | [] => Ok []
               | x :: l => p ← (match x with VUndef | VNull => Ok "" | _ => to_str x end);
                           ps ← go l; Ok (p :: ps)
               end) l;
      Ok (join "," parts)
  | VObj o => match obj_get o "toString" with
              | Some _ => Throw "Cannot convert object to primitive value"
              | None => Ok "[object Object]"
              end
  end.

(** [Number(v)]. *)
Definition to_num (v : jsval) : res num :=
  match v with
  | VUndef => Ok nan
  | VNull => Ok (S754_zero false)
  | VBool b => Ok (num_of_Z (if b then 1 else 0))
  | VNum n => Ok n
  | VStr s => Ok (str_to_num s)
  | VArr _ | VObj _ => s ← to_str v; Ok (str_to_num s)
  end.

(** ** Laws of own properties *)

Section obj_laws.
Context {A : Type}.
Implicit Types (o : list (string * A)) (k : string).

Lemma obj_get_replace o k v k' :
  obj_get o k ≠ None →
  obj_get (obj_replace k v o) k' = if decide (k' = k) then Some v else obj_get o k'.
Proof.
  induction o as [|[k0 v0] o IH]; simpl; [done|]. repeat case_decide; simpl;
    repeat case_decide; simplify_eq; try done; intros ?; rewrite IH by done;
    by repeat case_decide.
Qed.

Lemma obj_get_insert_index i o k v k' :
  obj_get o k = None →
  obj_get (insert_index i k v o) k' = if decide (k' = k) then Some v else obj_get o k'.
Proof.
  induction o as [|[k0 v0] o IH]; simpl; [done|].
  intros H. destruct (array_index k0) as [j|]; [destruct (j <? i)|]; simpl;
    repeat case_decide; simplify_eq; try done; rewrite IH by done;
    by repeat case_decide.
Qed.

Lemma obj_get_app o1 o2 k :
  obj_get (o1 ++ o2) k = match obj_get o1 k with Some v => Some v | None => obj_get o2 k end.
Proof. induction o1 as [|[k0 v0] o IH]; simpl; [done|]. by case_decide. Qed.

Lemma obj_get_define o k v k' :
  obj_get (obj_define k v o) k' = if decide (k' = k) then Some v else obj_get o k'.
Proof.
  unfold obj_define. destruct (obj_get o k) eqn:E.
  - apply obj_get_replace. by rewrite E.
  - destruct (array_index k); [by apply obj_get_insert_index|].
    rewrite obj_get_app. simpl. repeat case_decide; simplify_eq; [by rewrite E|].
    by case_match.
Qed.

Lemma obj_get_define_eq o k v : obj_get (obj_define k v o) k = Some v.
Proof. by rewrite obj_get_define, decide_True. Qed.
Lemma obj_get_define_ne o k k' v :
  k' ≠ k → obj_get (obj_define k v o) k' = obj_get o k'.
Proof. intros. by rewrite obj_get_define, decide_False. Qed.

Lemma obj_get_set_if b o k k' v :
  k ≠ "__proto__" →
  obj_get (set_if b k v o) k' = if decide (k' = k) then (if b then Some v else obj_get o k')
                                else obj_get o k'.
Proof.
  intros. unfold set_if, obj_set. rewrite decide_False by done.
  destruct b; [apply obj_get_define|by case_decide].
Qed.

Lemma set_if_ext b b' k v v' o o' :
  b = b' → (b = true → v = v') → o = o' → set_if b k v o = set_if b' k v' o'.
Proof. intros <- Hv <-. destruct b; simpl; [by rewrite Hv|done]. Qed.

Lemma obj_get_set_if_eq b o k v :
  k ≠ "__proto__" → obj_get (set_if b k v o) k = if b then Some v else obj_get o k.
Proof. intros. by rewrite obj_get_set_if, decide_True. Qed.
Lemma obj_get_set_if_ne b o k k' v :
  k ≠ "__proto__" → k' ≠ k → obj_get (set_if b k v o) k' = obj_get o k'.
Proof. intros. by rewrite obj_get_set_if, decide_False. Qed.

Lemma obj_get_elem_of o k v : obj_get o k = Some v → (k, v) ∈ o.
Proof.
  induction o as [|[k0 v0] o IH]; simpl; [done|].
  case_decide; intros; simplify_eq; set_solver.
Qed.

Lemma obj_get_is_Some o k : is_Some (obj_get o k) ↔ k ∈ obj_keys o.
Proof.
  unfold obj_keys. induction o as [|[k0 v0] o IH]; simpl; [split; [by intros []|set_solver]|].
  case_decide; simplify_eq; rewrite elem_of_cons, ?IH; naive_solver.
Qed.

Lemma obj_get_None o k : obj_get o k = None ↔ k ∉ obj_keys o.
Proof. rewrite <-obj_get_is_Some, <-not_eq_None_Some. destruct (obj_get o k); naive_solver. Qed.

Lemma elem_of_obj_get o k v :
  NoDup (obj_keys o) → (k, v) ∈ o → obj_get o k = Some v.
Proof.
  induction o as [|[k0 v0] o IH]; simpl; [set_solver|].
  intros [Hk Ho]%NoDup_cons [?|Hin]%elem_of_cons; simplify_eq; [by rewrite decide_True|].
  rewrite decide_False; [by apply IH|]. intros ->. apply Hk.
  apply list_elem_of_fmap. by exists (k0, v).
Qed.

Lemma obj_keys_define o k v k' :
  k' ∈ obj_keys (obj_define k v o) ↔ k' = k ∨ k' ∈ obj_keys o.
Proof. rewrite <-!obj_get_is_Some, obj_get_define. case_decide; naive_solver. Qed.

Lemma obj_keys_replace o k v : obj_keys (obj_replace k v o) = obj_keys o.
Proof.
  induction o as [|[k0 v0] o IH]; simpl; [done|].
  case_decide; simplify_eq/=; [done|]. by f_equal.
Qed.

Lemma insert_index_perm i o k v : insert_index i k v o ≡ₚ (k, v) :: o.
Proof.
  induction o as [|[k0 v0] o IH]; simpl; [done|].
  destruct (array_index k0); [case_match|]; [|done..].
  rewrite IH. apply Permutation_swap.
Qed.

Lemma obj_define_NoDup o k v : NoDup (obj_keys o) → NoDup (obj_keys (obj_define k v o)).
Proof.
  intros Ho. unfold obj_define. destruct (obj_get o k) eqn:E.
  - by rewrite obj_keys_replace.
  - assert (Hc : NoDup (obj_keys ((k, v) :: o))).
    { apply NoDup_cons. split; [by apply obj_get_None|done]. }
    destruct (array_index k).
    + unfold obj_keys. by rewrite insert_index_perm.
    + unfold obj_keys. by rewrite <-Permutation_cons_append.
Qed.

Lemma obj_spread_cons o1 k v o2 :
  obj_spread o1 ((k, v) :: o2) = obj_spread (obj_define k v o1) o2.
Proof. done. Qed.

Lemma obj_spread_NoDup o1 o2 : NoDup (obj_keys o1) → NoDup (obj_keys (obj_spread o1 o2)).
Proof.
  revert o1. induction o2 as [|[k v] o2 IH]; intros o1 H; simpl; [done|].
  by apply IH, obj_define_NoDup.
Qed.

Lemma obj_get_spread o1 o2 k :
  NoDup (obj_keys o2) →
  obj_get (obj_spread o1 o2) k =
    match obj_get o2 k with Some v => Some v | None => obj_get o1 k end.
Proof.
  revert o1. induction o2 as [|[k0 v0] o2 IH]; intros o1; [done|].
  intros [Hk Ho]%NoDup_cons.
  rewrite obj_spread_cons, IH, obj_get_define by done. simpl.
  repeat case_decide; simplify_eq; [|by case_match].
  by rewrite (proj2 (obj_get_None o2 k0)).
Qed.

Lemma obj_get_delete o k k' :
  obj_get (obj_delete k o) k' = if decide (k' = k) then None else obj_get o k'.
Proof.
  unfold obj_delete. induction o as [|[k0 v0] o IH]; simpl; [by case_decide|].
  rewrite filter_cons. simpl. repeat case_decide; simplify_eq; simpl; rewrite ?IH;
    repeat case_decide; simplify_eq; try done; naive_solver.
Qed.

Lemma obj_delete_NoDup o k : NoDup (obj_keys o) → NoDup (obj_keys (obj_delete k o)).
Proof.
  unfold obj_keys, obj_delete. induction o as [|[k0 v0] o IH]; simpl; [done|].
  intros [Hk Ho]%NoDup_cons. rewrite filter_cons. case_decide; simpl; [|by apply IH].
  apply NoDup_cons. split; [|by apply IH].
  contradict Hk. apply list_elem_of_fmap in Hk as ([? ?] & -> & [_ ?]%list_elem_of_filter).
  apply list_elem_of_fmap. eauto.
Qed.
Lemma obj_get_set o k v k' :
  obj_get (obj_set k v o) k' =
    if decide (k' = k ∧ k ≠ "__proto__") then Some v else obj_get o k'.
Proof.
  unfold obj_set. destruct (decide (k = "__proto__")) as [->|Hk].
  - rewrite decide_False; naive_solver.
  - rewrite obj_get_define. repeat case_decide; naive_solver.
Qed.

Lemma obj_set_NoDup o k v : NoDup (obj_keys o) → NoDup (obj_keys (obj_set k v o)).
Proof. intros. unfold obj_set. case_decide; [done|]. by apply obj_define_NoDup. Qed.
End obj_laws.

Lemma set_all_NoDup {A B} (f : string → A → option B) acc o :
  NoDup (obj_keys acc) → NoDup (obj_keys (set_all f acc o)).
Proof.
  revert acc. induction o as [|[k a] o IH]; intros acc H; cbn; [done|]. apply IH.
  destruct (f k a); [by apply obj_set_NoDup|done].
Qed.

Lemma set_all_get {A B} (f : string → A → option B) acc o k :
  NoDup (obj_keys o) →
  obj_get (set_all f acc o) k =
    match obj_get o k with
    | Some a => if decide (k = "__proto__") then obj_get acc k
                else match f k a with Some v => Some v | None => obj_get acc k end
    | None => obj_get acc k
    end.
Proof.
  revert acc. induction o as [|[k0 a0] o IH]; intros acc; [done|].
  intros [Hk Ho]%NoDup_cons. cbn [set_all foldl obj_get fst snd].
  change (foldl _ ?acc o) with (set_all f acc o). rewrite IH by done.
  destruct (decide (k = k0)) as [->|Hne].
  - rewrite (proj2 (obj_get_None o k0)) by done. destruct (f k0 a0).
    + rewrite obj_get_set. repeat case_decide; naive_solver.
    + by case_decide.
  - assert (E : obj_get (match f k0 a0 with Some v => obj_set k0 v acc | None => acc end) k
      = obj_get acc k).
    { destruct (f k0 a0); [|done]. rewrite obj_get_set, decide_False; naive_solver. }
    by rewrite E.
Qed.
#[export] Hint Resolve obj_define_NoDup obj_spread_NoDup obj_delete_NoDup : js.

(** Decide the comparisons of literal property names in the goal. *)
Ltac js_keys :=
  cbn [obj_get obj_keys fmap list_fmap app fst snd];
  repeat match goal with
  | |- context [@decide (?a = ?b :> string) ?d] =>
      first [ rewrite (decide_True (P := a = b)) by reflexivity
            | rewrite (decide_False (P := a = b)) by discriminate ]
  end.

(** Evaluate assignments to literal property names. *)
Ltac js_obj :=
  unfold obj_set, obj_define;
  repeat (progress (js_keys;
    repeat match goal with
    | |- context [array_index ?k] =>
        let r := eval vm_compute in (array_index k) in
        change (array_index k) with r; cbn iota
    end)).

(** Read a literal property through conditional assignments. *)
Ltac js_set_if :=
  repeat first [rewrite obj_get_set_if_ne by discriminate
               |rewrite obj_get_set_if_eq by discriminate]; js_keys.
