(* ===== verification/Json.v ===== *)
(** * [JSON.parse] and [JSON.stringify]

    The serialisation the components store their settings with: a printer
    with optional indentation, a recursive-descent parser, and the round
    trip between them.  A syntax error is [None]. *)
From Stdlib Require Import Ascii SpecFloat.
From S2P Require Import Prelude JsString JsNumber JsValue.

Definition byte (n : N) : ascii := ascii_of_N n.
Definition DQ : ascii := byte 34.
Definition BSL : ascii := byte 92.
Definition NL : ascii := byte 10.

(** ** Printing *)

Definition hex_char (n : N) : ascii := byte (if (n <? 10)%N then 48 + n else 87 + n)%N.

(** QuoteJSONString, one character. *)
Definition escape (c : ascii) : list ascii :=
  match N_of_ascii c with
  | 34 => [BSL; DQ]
  | 92 => [BSL; BSL]
  | 8 => [BSL; "b"%char]
  | 9 => [BSL; "t"%char]
  | 10 => [BSL; "n"%char]
  | 12 => [BSL; "f"%char]
  | 13 => [BSL; "r"%char]
  | n => if (n <? 32)%N
         then [BSL; "u"%char; "0"%char; "0"%char; hex_char (n / 16); hex_char (n mod 16)]
         else [c]
  end%N.

Definition quote (s : string) : list ascii := DQ :: concat (escape <$> chars s) ++ [DQ].

(** The text between brackets: [sep] before each part, [","] between parts,
    [close] after the last. *)
Fixpoint bracket_parts (sep : list ascii) (parts : list (list ascii)) : list ascii :=
  match parts with
  | [] => []
  | [p] => sep ++ p
  | p :: ps => sep ++ p ++ ","%char :: bracket_parts sep ps
  end.

Definition line_break (gap indent : list ascii) : list ascii :=
  match gap with [] => [] | _ => NL :: indent end.

(** SerializeJSONProperty of a value that is not dropped ([undefined] prints
    as [null], as it does inside an array). *)
Fixpoint print (gap indent : list ascii) (v : jsval) : list ascii :=
  let inner := indent ++ gap in
  match v with
  | VUndef | VNull => chars "null"
  | VBool b => chars (if b then "true" else "false")
  | VNum n => if is_finite n then chars (num_to_str n) else chars "null"
  | VStr s => quote s
  | VArr [] => chars "[]"
  | VArr l =>
      "["%char :: bracket_parts (line_break gap inner)
        ((fix go l := match l with [] => [] | x :: l => print gap inner x :: go l end) l)
      ++ line_break gap indent ++ ["]"%char]
  | VObj o =>
      match (fix go o := match o with
             | [] => []
             | (k, x) :: o =>
                 if is_undef x then go o
                 else (quote k ++ ":"%char :: (if gap is [] then [] else [" "%char])
                       ++ print gap inner x) :: go o
             end) o with
      | [] => chars "{}"
      | parts => "{"%char :: bracket_parts (line_break gap inner) parts
                 ++ line_break gap indent ++ ["}"%char]
      end
  end.

(** [JSON.stringify(v)] and [JSON.stringify(v, null, 2)] for a value that is
    not [undefined]. *)
Definition stringify (v : jsval) : string := of_chars (print [] [] v).
Definition stringify2 (v : jsval) : string := of_chars (print (chars "  ") [] v).

(** ** Parsing *)

Definition is_ws (c : ascii) : bool := bool_decide (c ∈ [byte 32; byte 9; byte 10; byte 13]).
Fixpoint skip_ws (l : list ascii) : list ascii :=
  match l with c :: l' => if is_ws c then skip_ws l' else l | [] => [] end.

Definition hex4 (a b c d : ascii) : option Z :=
  match hex_val a, hex_val b, hex_val c, hex_val d with
  | Some a, Some b, Some c, Some d => Some (((a * 16 + b) * 16 + c) * 16 + d)%Z
  | _, _, _, _ => None
  end.

(** UTF-8 encoding of a code point. *)
Definition utf8 (z : Z) : list ascii :=
  let b n := byte (Z.to_N n) in
  (if z <? 128 then [b z]
   else if z <? 2048 then [b (192 + z / 64); b (128 + z mod 64)]
   else if z <? 65536 then [b (224 + z / 4096); b (128 + z / 64 mod 64); b (128 + z mod 64)]
   else [b (240 + z / 262144); b (128 + z / 4096 mod 64); b (128 + z / 64 mod 64);
         b (128 + z mod 64)])%Z.

Definition is_high (z : Z) : bool := ((55296 <=? z) && (z <? 56320))%Z.
Definition is_low (z : Z) : bool := ((56320 <=? z) && (z <? 57344))%Z.

Definition simple_escape (c : ascii) : option ascii :=
  if bool_decide (c = DQ) then Some DQ
  else if bool_decide (c = BSL) then Some BSL
  else if bool_decide (c = "/"%char) then Some "/"%char
  else if bool_decide (c = "b"%char) then Some (byte 8)
  else if bool_decide (c = "f"%char) then Some (byte 12)
  else if bool_decide (c = "n"%char) then Some (byte 10)
  else if bool_decide (c = "r"%char) then Some (byte 13)
  else if bool_decide (c = "t"%char) then Some (byte 9)
  else None.

Definition push (p : list ascii) (o : option (list ascii * list ascii))
  : option (list ascii * list ascii) :=
  match o with Some (s, r) => Some (p ++ s, r) | None => None end.

(** The rest of a string literal, after its opening quote. *)
Fixpoint parse_str (l : list ascii) : option (list ascii * list ascii) :=
  match l with
  | [] => None
  | c :: l' =>
      if decide (c = DQ) then Some ([], l')
      else if decide (c = BSL) then
        match l' with
        | [] => None
        | e :: l'' =>
            if decide (e = "u"%char) then
              match l'' with
              | a :: b :: c :: d :: r =>
                  match hex4 a b c d with
                  | None => None
                  | Some u =>
                      match r with
                      | x :: y :: a' :: b' :: c' :: d' :: r' =>
                          match hex4 a' b' c' d' with
                          | Some u' =>
                              if is_high u && bool_decide (x = BSL) && bool_decide (y = "u"%char)
                                 && is_low u'
                              then push (utf8 (65536 + (u - 55296) * 1024 + (u' - 56320))%Z)
                                        (parse_str r')
                              else push (utf8 u) (parse_str r)
                          | None => push (utf8 u) (parse_str r)
                          end
                      | _ => push (utf8 u) (parse_str r)
                      end
                  end
              | _ => None
              end
            else match simple_escape e with
                 | Some b => push [b] (parse_str l'')
                 | None => None
                 end
        end
      else if (N_of_ascii c <? 32)%N then None
      else push [c] (parse_str l')
  end.

(** The exponent part of a JSON number: absent, or with at least one digit. *)
Definition parse_exp (l : list ascii) : option (Z * list ascii) :=
  match l with
  | c :: l' =>
      if bool_decide (c = "e"%char) || bool_decide (c = "E"%char) then
        let '(neg, l'') :=
          match l' with
          | c' :: r => if bool_decide (c' = "-"%char) then (true, r)
                       else if bool_decide (c' = "+"%char) then (false, r) else (false, l')
          | [] => (false, [])
          end in
        match span_digits l'' with
        | ([], _) => None
        | (d, r) => Some ((if neg then - digits_to_Z d else digits_to_Z d)%Z, r)
        end
      else Some (0%Z, l)
  | [] => Some (0%Z, [])
  end.

Definition parse_frac (l : list ascii) : option (list ascii * list ascii) :=
  match l with
  | c :: l' => if decide (c = "."%char) then
                 match span_digits l' with ([], _) => None | (d, r) => Some (d, r) end
               else Some ([], l)
  | [] => Some ([], [])
  end.

Definition parse_num (l : list ascii) : option (num * list ascii) :=
  let '(neg, l) := match l with
                   | c :: r => if decide (c = "-"%char) then (true, r) else (false, l)
                   | [] => (false, [])
                   end in
  let '(ip, r) := span_digits l in
  match ip with
  | [] => None
  | c :: tl =>
      if bool_decide (c = "0"%char) && negb (bool_decide (tl = [])) then None
      else '(fp, r) ← parse_frac r;
           '(e, r) ← parse_exp r;
           Some (num_of_dec neg (digits_to_Z (ip ++ fp)) (e - Z.of_nat (length fp)), r)
  end.

(** One value; [fuel] bounds the nesting and is chosen in [json_parse]. *)
Fixpoint parse_value (fuel : nat) (l : list ascii) : option (jsval * list ascii) :=
  match fuel with
  | O => None
  | S fuel =>
      match skip_ws l with
      | [] => None
      | c :: r =>
          if decide (c = DQ) then
            '(s, r) ← parse_str r; Some (VStr (of_chars s), r)
          else if decide (c = "["%char) then
            match skip_ws r with
            | c' :: r' => if decide (c' = "]"%char) then Some (VArr [], r')
                          else '(xs, r) ← parse_elems fuel r; Some (VArr xs, r)
            | [] => None
            end
          else if decide (c = "{"%char) then
            match skip_ws r with
            | c' :: r' => if decide (c' = "}"%char) then Some (VObj [], r')
                          else '(o, r) ← parse_members fuel r []; Some (VObj o, r)
            | [] => None
            end
          else match strip (chars "null") (c :: r) with
          | Some r' => Some (VNull, r')
          | None =>
          match strip (chars "true") (c :: r) with
          | Some r' => Some (VBool true, r')
          | None =>
          match strip (chars "false") (c :: r) with
          | Some r' => Some (VBool false, r')
          | None => '(n, r) ← parse_num (c :: r); Some (VNum n, r)
          end end end
      end
  end
with parse_elems (fuel : nat) (l : list ascii) : option (list jsval * list ascii) :=
  match fuel with
  | O => None
  | S fuel =>
      '(v, r) ← parse_value fuel l;
      match skip_ws r with
      | c :: r' => if decide (c = ","%char) then '(vs, r) ← parse_elems fuel r'; Some (v :: vs, r)
                   else if decide (c = "]"%char) then Some ([v], r') else None
      | [] => None
      end
  end
with parse_members (fuel : nat) (l : list ascii) (acc : obj) : option (obj * list ascii) :=
  match fuel with
  | O => None
  | S fuel =>
      match skip_ws l with
      | c :: r =>
          if decide (c = DQ) then
            '(k, r) ← parse_str r;
            match skip_ws r with
            | c :: r =>
                if decide (c = ":"%char) then
                  '(v, r) ← parse_value fuel r;
                  let acc := obj_define (of_chars k) v acc in
                  match skip_ws r with
                  | c :: r' => if decide (c = ","%char) then parse_members fuel r' acc
                               else if decide (c = "}"%char) then Some (acc, r') else None
                  | [] => None
                  end
                else None
            | [] => None
            end
          else None
      | [] => None
      end
  end.

(** [JSON.parse(s)]; [None] is the thrown [SyntaxError]. *)
Definition json_parse (s : string) : option jsval :=
  let l := chars s in
  match parse_value (2 * length l + 2) l with
  | Some (v, r) => match skip_ws r with [] => Some v | _ => None end
  | None => None
  end.

(** A text with ['] written for the double quote of JSON. *)
Definition qtext (s : string) : string :=
  of_chars ((λ c, if decide (c = "'"%char) then DQ else c) <$> chars s).
