(* ===== verification/JsonRoundtrip.v ===== *)
(** * [JSON.parse (JSON.stringify v) = v]

    The round trip holds for the values whose text determines them: no
    [undefined], every number finite and read back from its own digits
    ([num_ok], a computable test), every object in [Object.keys] order. *)
From Stdlib Require Import Ascii SpecFloat.
From S2P Require Import Prelude JsString JsNumber JsValue Json.

(** ** Serialisable values *)

Definition num_ok (n : num) : bool :=
  is_finite n &&
  match parse_num (chars (num_to_str n)) with
  | Some (m, []) => bool_decide (m = n)
  | _ => false
  end.

Definition key_after (pre : list string) (k : string) : bool :=
  bool_decide (k ∉ pre) &&
  match array_index k with
  | None => true
  | Some i => forallb (λ k', match array_index k' with Some j => (j <? i)%Z | None => false end) pre
  end.

Fixpoint keys_ok (pre ks : list string) : bool :=
  match ks with
  | [] => true
  | k :: ks => key_after pre k && keys_ok (pre ++ [k]) ks
  end.

Fixpoint json_ok (v : jsval) : bool :=
  match v with
  | VUndef => false
  | VNull | VBool _ | VStr _ => true
  | VNum n => num_ok n
  | VArr l => (fix go l := match l with [] => true | x :: l => json_ok x && go l end) l
  | VObj o => keys_ok [] (obj_keys o) &&
              (fix go o := match o with [] => true | (_, x) :: o => json_ok x && go o end) o
  end.

Lemma json_ok_arr l : json_ok (VArr l) = forallb json_ok l.
Proof. simpl. by induction l; f_equal/=. Qed.
Lemma json_ok_obj o :
  json_ok (VObj o) = keys_ok [] (obj_keys o) && forallb (λ kv, json_ok kv.2) o.
Proof. simpl. f_equal. by induction o as [|[??]]; f_equal/=. Qed.

(** An object built by definitions in key order is the list of its members. *)
Lemma insert_index_last {A} i k (v : A) o :
  forallb (λ k', match array_index k' with Some j => (j <? i)%Z | None => false end)
    (obj_keys o) = true →
  insert_index i k v o = o ++ [(k, v)].
Proof.
  induction o as [|[k' v'] o IH]; simpl; [done|].
  intros [H1 H2]%andb_true_iff. destruct (array_index k'); [|done]. rewrite H1.
  f_equal. by apply IH.
Qed.

Lemma obj_define_after {A} k (v : A) o :
  key_after (obj_keys o) k = true → obj_define k v o = o ++ [(k, v)].
Proof.
  unfold key_after, obj_define. rewrite andb_true_iff, bool_decide_eq_true.
  intros [Hk%obj_get_None Hi]. rewrite Hk. destruct (array_index k); [|done].
  by apply insert_index_last.
Qed.

Lemma obj_spread_ok {A} (o1 o2 : list (string * A)) :
  keys_ok (obj_keys o1) (obj_keys o2) = true → obj_spread o1 o2 = o1 ++ o2.
Proof.
  revert o1. induction o2 as [|[k v] o2 IH]; intros o1; [by rewrite app_nil_r|].
  intros [Hk Ho]%andb_true_iff. rewrite obj_spread_cons, obj_define_after by done. rewrite IH; [by rewrite <-app_assoc|].
  unfold obj_keys in *. by rewrite fmap_app.
Qed.

(** ** Strings *)

Lemma parse_str_unicode a b c d u r :
  hex4 a b c d = Some u → is_high u = false →
  parse_str (BSL :: "u"%char :: a :: b :: c :: d :: r) = push (utf8 u) (parse_str r).
Proof.
  intros Hx Hu. cbn [parse_str]. rewrite decide_False by done.
  rewrite decide_True by done. rewrite decide_True by done. rewrite Hx, Hu.
  destruct r as [|? [|? [|? [|? [|? [|? ?]]]]]]; try reflexivity. by case_match.
Qed.

Lemma parse_str_raw c l :
  c ≠ DQ → c ≠ BSL → (N_of_ascii c <? 32)%N = false →
  parse_str (c :: l) = push [c] (parse_str l).
Proof. intros H1 H2 H3. cbn [parse_str]. by rewrite !decide_False, H3. Qed.

Lemma parse_str_simple e b l :
  e ≠ "u"%char → simple_escape e = Some b →
  parse_str (BSL :: e :: l) = push [b] (parse_str l).
Proof.
  intros H1 H2. cbn [parse_str]. rewrite decide_False by done.
  rewrite decide_True by done. rewrite decide_False by done. by rewrite H2.
Qed.

Lemma parse_str_escape c l : parse_str (escape c ++ l) = push [c] (parse_str l).
Proof.
  destruct c as [[] [] [] [] [] [] [] []];
    first [ apply parse_str_raw; [done..|reflexivity]
          | apply parse_str_simple; [done|reflexivity]
          | etrans; [eapply parse_str_unicode; reflexivity|reflexivity] ].
Qed.

Lemma parse_str_quote cs rest :
  parse_str (concat (escape <$> cs) ++ DQ :: rest) = Some (cs, rest).
Proof.
  induction cs as [|c cs IH]; cbn [fmap list_fmap concat app].
  - cbn [parse_str]. by rewrite decide_True.
  - rewrite <-app_assoc, parse_str_escape, IH. done.
Qed.

(** ** White space *)

Definition all_ws (l : list ascii) : Prop := forallb is_ws l = true.

Lemma skip_ws_app w l : all_ws w → skip_ws (w ++ l) = skip_ws l.
Proof.
  unfold all_ws. induction w as [|c w IH]; simpl; [done|].
  intros [Hc Hw]%andb_true_iff. rewrite Hc. by apply IH.
Qed.

Lemma skip_ws_cons c l : is_ws c = false → skip_ws (c :: l) = c :: l.
Proof. intros Hc. simpl. by rewrite Hc. Qed.

Lemma parse_value_ws fuel w l : all_ws w → parse_value fuel (w ++ l) = parse_value fuel l.
Proof. intros. destruct fuel; simpl; [done|]. by rewrite skip_ws_app. Qed.

Lemma all_ws_app w1 w2 : all_ws w1 → all_ws w2 → all_ws (w1 ++ w2).
Proof. unfold all_ws. rewrite forallb_app. by intros -> ->. Qed.

Lemma all_ws_line_break gap indent : all_ws indent → all_ws (line_break gap indent).
Proof. unfold all_ws. by destruct gap. Qed.
#[local] Hint Resolve all_ws_app all_ws_line_break : core.

(** ** Numbers *)

(** What may follow a number without extending it. *)
Definition num_stop (rest : list ascii) : Prop :=
  match rest with
  | [] => True
  | c :: _ => is_digit c = false ∧ c ≠ "."%char ∧ c ≠ "e"%char ∧ c ≠ "E"%char
  end.

Lemma span_digits_app l d r rest :
  span_digits l = (d, r) → (r ≠ [] ∨ num_stop rest) →
  span_digits (l ++ rest) = (d, r ++ rest).
Proof.
  revert d r. induction l as [|c l IH]; intros d r; simpl.
  - intros [= <- <-] [?|Hs]; [done|]. destruct rest as [|c rest]; [done|]. simpl.
    destruct Hs as [-> _]. done.
  - destruct (is_digit c); [|by intros [= <- <-]].
    destruct (span_digits l) as [d' r']. intros [= <- <-] H. by rewrite (IH d' r').
Qed.

Lemma parse_exp_app l e r rest :
  num_stop rest → parse_exp l = Some (e, r) → parse_exp (l ++ rest) = Some (e, r ++ rest).
Proof.
  intros Hs. destruct l as [|c l]; simpl.
  - intros [= <- <-]. destruct rest as [|c rest]; [done|]. destruct Hs as (_ & _ & He & HE).
    simpl. by rewrite !bool_decide_false.
  - destruct (_ || _); [|by intros [= <- <-]].
    assert (Hgo : ∀ neg l', match span_digits l' with
        | ([], _) => None
        | (d, r) => Some ((if neg : bool then - digits_to_Z d else digits_to_Z d)%Z, r)
        end = Some (e, r) →
      match span_digits (l' ++ rest) with
        | ([], _) => None
        | (d, r) => Some ((if neg : bool then - digits_to_Z d else digits_to_Z d)%Z, r)
        end = Some (e, r ++ rest)).
    { intros neg l'. destruct (span_digits l') as [[|c' d] r'] eqn:E; [done|].
      intros [= <- <-]. by rewrite (span_digits_app _ _ _ rest E (or_intror Hs)). }
    destruct l as [|c' l]; [done|]. simpl.
    destruct (bool_decide (c' = "-"%char)); [apply (Hgo true)|].
    destruct (bool_decide (c' = "+"%char)); [apply (Hgo false)|]. apply (Hgo false (c' :: l)).
Qed.

Lemma parse_frac_app l d r rest :
  num_stop rest → parse_frac l = Some (d, r) → parse_frac (l ++ rest) = Some (d, r ++ rest).
Proof.
  intros Hs. destruct l as [|c l]; simpl.
  - intros [= <- <-]. destruct rest as [|c rest]; [done|]. destruct Hs as (_ & Hd & _).
    simpl. by rewrite decide_False.
  - case_decide; [|by intros [= <- <-]].
    destruct (span_digits l) as [[|c' d'] r'] eqn:E; [done|].
    intros [= <- <-]. by rewrite (span_digits_app _ _ _ rest E (or_intror Hs)).
Qed.

Lemma parse_num_app l n rest :
  num_stop rest → parse_num l = Some (n, []) → parse_num (l ++ rest) = Some (n, rest).
Proof.
  intros Hs. unfold parse_num.
  set (sg := λ l : list ascii, match l with
             | c :: r => if decide (c = "-"%char) then (true, r) else (false, l)
             | [] => (false, []) end).
  change (match l with [] => _ | _ => _ end) with (sg l).
  change (match l ++ rest with [] => _ | _ => _ end) with (sg (l ++ rest)).
  destruct (sg l) as [neg l0] eqn:Esg.
  destruct (span_digits l0) as [[|c ip] r0] eqn:Ed; [done|].
  assert (Hl : sg (l ++ rest) = (neg, l0 ++ rest)).
  { destruct l as [|c0 l]; [by simplify_eq/=|]. simpl in *. case_decide; by simplify_eq. }
  rewrite Hl, (span_digits_app _ _ _ rest Ed) by auto.
  destruct (_ && _); [done|]. unfold mbind, option_bind.
  destruct (parse_frac r0) as [[fp r1]|] eqn:Ef; [|done].
  rewrite (parse_frac_app _ _ _ _ Hs Ef).
  destruct (parse_exp r1) as [[e r2]|] eqn:Ee; [|done].
  rewrite (parse_exp_app _ _ _ _ Hs Ee). by intros [= <- ->].
Qed.

(** ** Values *)

(** Recursive calls the parser needs for a value. *)
Fixpoint vsize (v : jsval) : nat :=
  match v with
  | VArr l => S ((fix go l := match l with [] => O | x :: l => S (vsize x) + go l end) l)
  | VObj o => S ((fix go o := match o with [] => O | (_, x) :: o => S (vsize x) + go o end) o)
  | _ => 1
  end.

Lemma vsize_arr l : vsize (VArr l) = S (sum_list_with (λ x, S (vsize x)) l).
Proof. done. Qed.
Lemma vsize_obj o : vsize (VObj o) = S (sum_list_with (λ kv, S (vsize kv.2)) o).
Proof. cbn [vsize]. f_equal. induction o as [|[k x] o IH]; [done|]. cbn [sum_list_with]. by rewrite <-IH. Qed.

Definition member (gap inner : list ascii) (kv : string * jsval) : list ascii :=
  quote kv.1 ++ ":"%char :: (if gap is [] then [] else [" "%char]) ++ print gap inner kv.2.

Lemma print_arr gap ind l :
  l ≠ [] →
  print gap ind (VArr l) =
    "["%char :: bracket_parts (line_break gap (ind ++ gap)) (print gap (ind ++ gap) <$> l)
    ++ line_break gap ind ++ ["]"%char].
Proof. intros H. by destruct l. Qed.

Lemma print_obj gap ind o :
  o ≠ [] → forallb (λ kv, json_ok kv.2) o = true →
  print gap ind (VObj o) =
    "{"%char :: bracket_parts (line_break gap (ind ++ gap)) (member gap (ind ++ gap) <$> o)
    ++ line_break gap ind ++ ["}"%char].
Proof.
  intros Hne Hok. cbn [print].
  match goal with |- match ?parts with [] => _ | _ => _ end = _ =>
    assert (parts = member gap (ind ++ gap) <$> o) as -> end; [|by destruct o].
  clear Hne. induction o as [|[k x] o IH]; [done|].
  simpl in Hok. apply andb_true_iff in Hok as [Hx Ho].
  cbn [fmap list_fmap]. rewrite <-(IH Ho). by destruct x.
Qed.

Lemma parse_num_head l n r :
  parse_num l = Some (n, r) → ∃ c l', l = c :: l' ∧ (c = "-"%char ∨ is_digit c = true).
Proof.
  unfold parse_num. destruct l as [|c l]; [done|]. case_decide; [eauto|].
  destruct (is_digit c) eqn:E; [eauto|]. simpl. by rewrite E.
Qed.

(** The first character of a printed value. *)
Definition value_head (c : ascii) : Prop :=
  c ∈ [DQ; "["; "{"; "n"; "t"; "f"; "-"]%char ∨ is_digit c = true.

Lemma print_head gap ind v :
  json_ok v = true → ∃ c r, print gap ind v = c :: r ∧ value_head c.
Proof.
  unfold value_head. destruct v as [| |[]|n|s|[|x l]|o]; try done; intros H;
    try (by eexists _, _; split; [done|set_solver]).
  - simpl in *. unfold num_ok in H. apply andb_true_iff in H as [-> H].
    destruct (parse_num _) as [[m [|]]|] eqn:E; try done.
    apply parse_num_head in E as (c & l' & -> & Hc). eexists _, _; split; [done|].
    destruct Hc as [->|]; [set_solver|by right].
  - destruct o as [|kv o]; [by eexists _, _; split; [done|set_solver]|].
    rewrite json_ok_obj in H. apply andb_true_iff in H as [_ H].
    rewrite print_obj by done. eexists _, _; split; [done|set_solver].
Qed.

Lemma value_head_spec c :
  value_head c → is_ws c = false ∧ c ≠ "]"%char ∧ c ≠ "}"%char.
Proof.
  intros [Hc|Hc].
  - repeat (apply elem_of_cons in Hc as [->|Hc]; [done|]). set_solver.
  - by destruct c as [[] [] [] [] [] [] [] []].
Qed.

Lemma skip_ws_print gap ind v rest :
  json_ok v = true → skip_ws (print gap ind v ++ rest) = print gap ind v ++ rest.
Proof.
  intros (c & r & -> & (Hc & _)%value_head_spec)%(print_head gap ind). simpl. by rewrite Hc.
Qed.

Lemma num_stop_close gap ind c rest :
  c ∈ ["]"; "}"; ","]%char → num_stop (line_break gap ind ++ c :: rest).
Proof.
  intros Hc. destruct gap; [|done]. simpl.
  repeat (apply elem_of_cons in Hc as [->|Hc]; [done|]). set_solver.
Qed.

(** A value printed at any indentation is read back, whatever follows. *)
Definition reads_back (v : jsval) : Prop := ∀ gap ind fuel rest,
  json_ok v = true → all_ws gap → all_ws ind → vsize v ≤ fuel → num_stop rest →
  parse_value fuel (print gap ind v ++ rest) = Some (v, rest).

Lemma skip_ws_close gap ind c rest :
  all_ws ind → is_ws c = false → skip_ws (line_break gap ind ++ c :: rest) = c :: rest.
Proof. intros ? Hc. rewrite skip_ws_app by auto. simpl. by rewrite Hc. Qed.

Lemma bracket_parts_cons sep p p' ps :
  bracket_parts sep (p :: p' :: ps) = sep ++ p ++ ","%char :: bracket_parts sep (p' :: ps).
Proof. done. Qed.

Lemma parse_elems_print gap ind l fuel rest :
  all_ws gap → all_ws ind → l ≠ [] → Forall reads_back l → forallb json_ok l = true →
  sum_list_with (λ x, S (vsize x)) l ≤ fuel →
  parse_elems fuel (bracket_parts (line_break gap (ind ++ gap)) (print gap (ind ++ gap) <$> l)
                    ++ line_break gap ind ++ "]"%char :: rest) = Some (l, rest).
Proof.
  intros Hg Hi Hne HF. revert fuel Hne.
  induction HF as [|x l Hx HF IH]; intros fuel Hne Hok Hf; [done|].
  simpl in Hok, Hf. apply andb_true_iff in Hok as [Hokx Hokl].
  destruct fuel as [|fuel]; [lia|]. destruct l as [|y l].
  - cbn [fmap list_fmap bracket_parts]. rewrite <-!app_assoc. cbn [parse_elems].
    rewrite parse_value_ws by auto. rewrite Hx; [|auto using num_stop_close with lia..].
    2: apply num_stop_close; set_solver. cbn [mbind option_bind].
    by rewrite skip_ws_close.
  - cbn [fmap list_fmap]. rewrite bracket_parts_cons, <-!app_assoc. cbn [parse_elems].
    rewrite parse_value_ws by auto. rewrite Hx; [|auto with lia..|done].
    cbn [mbind option_bind app]. rewrite skip_ws_cons, decide_True by done.
    change (print gap (ind ++ gap) y :: list_fmap _ _ (print gap (ind ++ gap)) l)
      with (print gap (ind ++ gap) <$> y :: l).
    rewrite IH; [done..|lia].
Qed.

Lemma parse_members_print gap ind o fuel rest acc :
  all_ws gap → all_ws ind → o ≠ [] → Forall (λ kv, reads_back kv.2) o →
  forallb (λ kv, json_ok kv.2) o = true →
  sum_list_with (λ kv, S (vsize kv.2)) o ≤ fuel →
  parse_members fuel
    (bracket_parts (line_break gap (ind ++ gap)) (member gap (ind ++ gap) <$> o)
     ++ line_break gap ind ++ "}"%char :: rest) acc = Some (obj_spread acc o, rest).
Proof.
  intros Hg Hi Hne HF. revert fuel acc Hne.
  induction HF as [|[k x] o Hx HF IH]; intros fuel acc Hne Hok Hf; [done|].
  simpl in Hok, Hf, Hx. apply andb_true_iff in Hok as [Hokx Hokl].
  destruct fuel as [|fuel]; [lia|].
  assert (Hk : ∀ tl r, num_stop tl →
    parse_value fuel ((if gap is [] then [] else [" "%char])
      ++ print gap (ind ++ gap) x ++ tl) = r → r = Some (x, tl)).
  { intros tl r Htl <-. rewrite parse_value_ws by (by destruct gap).
    apply Hx; auto with lia. }
  destruct o as [|kv o]; cbn [fmap list_fmap];
    [cbn [bracket_parts]|rewrite bracket_parts_cons]; unfold member at 1, quote;
    cbn [parse_members]; rewrite <-?app_assoc; rewrite skip_ws_app by auto;
    cbn [app fst snd]; rewrite skip_ws_cons, decide_True by done;
    rewrite <-?app_assoc; cbn [app]; rewrite parse_str_quote;
    cbn [mbind option_bind]; rewrite skip_ws_cons, decide_True by done;
    rewrite <-?app_assoc.
  - erewrite (Hk _ _ _ eq_refl). cbn [mbind option_bind].
    rewrite skip_ws_close by done. rewrite of_chars_chars. done.
    Unshelve. apply num_stop_close. set_solver.
  - erewrite (Hk _ _ _ eq_refl). cbn [mbind option_bind app].
    rewrite skip_ws_cons, decide_True by done. rewrite of_chars_chars.
    change (member gap (ind ++ gap) kv :: list_fmap _ _ (member gap (ind ++ gap)) o)
      with (member gap (ind ++ gap) <$> kv :: o).
    rewrite IH; [done..|lia].
    Unshelve. done.
Qed.

Lemma reads_back_num n : reads_back (VNum n).
Proof.
  intros gap ind fuel rest Hok _ _ Hf Hs. destruct fuel as [|fuel]; [simpl in Hf; lia|].
  simpl in Hok. unfold num_ok in Hok. apply andb_true_iff in Hok as [Hfin Hp].
  cbn [print]. rewrite Hfin. destruct (parse_num (chars _)) as [[m [|]]|] eqn:E; try done.
  apply bool_decide_eq_true in Hp as ->.
  pose proof (parse_num_app _ _ _ Hs E) as Ha.
  destruct (parse_num_head _ _ _ E) as (c & l' & El & Hc). rewrite El in *.
  assert (is_ws c = false ∧ c ≠ DQ ∧ c ≠ "["%char ∧ c ≠ "{"%char ∧ c ≠ "n"%char
          ∧ c ≠ "t"%char ∧ c ≠ "f"%char) as (? & ? & ? & ? & ? & ? & ?).
  { destruct Hc as [->|Hc]; [done|]. by destruct c as [[] [] [] [] [] [] [] []]. }
  cbn [app parse_value] in *. rewrite skip_ws_cons by done. rewrite !decide_False by done.
  cbn [String.list_ascii_of_string strip]. rewrite !decide_False by done. by rewrite Ha.
Qed.

Lemma reads_back_all v : reads_back v.
Proof.
  induction v as [| |b|n|s|l IH|o IH] using jsval_ind.
  4: apply reads_back_num.
  all: intros gap ind fuel rest Hok Hg Hi Hf Hs; destruct fuel as [|fuel]; [simpl in Hf; lia|].
  - done.
  - done.
  - by destruct b.
  - cbn [print]. unfold quote. cbn [app parse_value]. rewrite skip_ws_cons, decide_True by done.
    rewrite <-app_assoc. cbn [app]. rewrite parse_str_quote. cbn [mbind option_bind].
    by rewrite of_chars_chars.
  - destruct (decide (l = [])) as [->|Hne]; [done|]. rewrite print_arr by done.
    rewrite vsize_arr in Hf. rewrite json_ok_arr in Hok. cbn [app parse_value].
    rewrite skip_ws_cons, decide_False, decide_True by done. rewrite <-!app_assoc.
    cbn [app]. rewrite parse_elems_print by (auto with lia).
    destruct l as [|x l]; [done|]. simpl in Hok. apply andb_true_iff in Hok as [Hx _].
    destruct (print_head gap (ind ++ gap) x Hx) as (c & r & Hp & (Hc & Hb & _)%value_head_spec).
    assert (∃ r', skip_ws (bracket_parts (line_break gap (ind ++ gap))
       (print gap (ind ++ gap) <$> x :: l) ++ line_break gap ind ++ "]"%char :: rest)
       = c :: r') as [r' ->].
    { destruct l; cbn [fmap list_fmap bracket_parts]; rewrite <-?app_assoc;
        rewrite skip_ws_app by auto; rewrite Hp; cbn [app]; rewrite skip_ws_cons by done; eauto. }
    by rewrite decide_False.
  - destruct (decide (o = [])) as [->|Hne]; [done|]. rewrite json_ok_obj in Hok.
    apply andb_true_iff in Hok as [Hk Hok]. rewrite print_obj by done.
    rewrite vsize_obj in Hf. cbn [app parse_value].
    rewrite skip_ws_cons, decide_False, decide_False, decide_True by done. rewrite <-!app_assoc.
    cbn [app]. rewrite parse_members_print by (auto with lia).
    rewrite obj_spread_ok by done.
    assert (∃ r', skip_ws (bracket_parts (line_break gap (ind ++ gap))
       (member gap (ind ++ gap) <$> o) ++ line_break gap ind ++ "}"%char :: rest)
       = DQ :: r') as [r' ->].
    { destruct o as [|x [|y o]]; [done|..]; cbn [fmap list_fmap bracket_parts]; rewrite <-?app_assoc;
        rewrite skip_ws_app by auto; unfold member at 1, quote; cbn [app];
        rewrite skip_ws_cons by done; eauto. }
    by rewrite decide_False.
Qed.

(** ** Enough fuel *)

Lemma length_bracket_parts sep parts :
  sum_list_with (λ p, S (length p)) parts ≤ S (length (bracket_parts sep parts)).
Proof.
  induction parts as [|p [|p' ps] IH]; [simpl; lia|simpl; rewrite length_app; lia|].
  rewrite bracket_parts_cons, !length_app. cbn [length sum_list_with] in *. lia.
Qed.

Lemma sum_list_with_le {A} (f g : A → nat) l :
  Forall (λ x, f x ≤ g x) l → sum_list_with f l ≤ sum_list_with g l.
Proof. induction 1; simpl; lia. Qed.

Lemma sum_list_with_fmap {A B} (f : B → nat) (g : A → B) l :
  sum_list_with f (g <$> l) = sum_list_with (λ x, f (g x)) l.
Proof. by induction l; f_equal/=. Qed.

Lemma sum_list_with_double {A} (f : A → nat) l :
  sum_list_with (λ x, 2 * f x) l = 2 * sum_list_with f l.
Proof. induction l; simpl in *; lia. Qed.

Lemma vsize_print v : ∀ gap ind, json_ok v = true → vsize v ≤ 2 * length (print gap ind v).
Proof.
  induction v as [| |b|n|s|l IH|o IH] using jsval_ind; intros gap ind Hok; try (simpl; lia).
  - destruct b; simpl; lia.
  - destruct (print_head gap ind (VNum n) Hok) as (c & r & -> & _). simpl. lia.
  - destruct (decide (l = [])) as [->|Hne]; [simpl; lia|]. rewrite json_ok_arr in Hok.
    rewrite print_arr, vsize_arr by done. cbn [length]. rewrite !length_app. cbn [length].
    pose proof (length_bracket_parts (line_break gap (ind ++ gap))
      (print gap (ind ++ gap) <$> l)) as HL. rewrite sum_list_with_fmap in HL.
    assert (sum_list_with (λ x, S (vsize x)) l
            ≤ sum_list_with (λ x, 2 * S (length (print gap (ind ++ gap) x))) l) as Hs.
    { apply sum_list_with_le. apply Forall_forall. intros x Hx.
      rewrite Forall_forall in IH. rewrite forallb_forall in Hok.
      specialize (IH x Hx gap (ind ++ gap)). specialize (Hok x).
      rewrite <-list_elem_of_In in Hok. specialize (IH (Hok Hx)). lia. }
    rewrite sum_list_with_double in Hs. lia.
  - destruct (decide (o = [])) as [->|Hne]; [simpl; lia|]. rewrite json_ok_obj in Hok.
    apply andb_true_iff in Hok as [_ Hok].
    rewrite print_obj, vsize_obj by done. cbn [length]. rewrite !length_app. cbn [length].
    pose proof (length_bracket_parts (line_break gap (ind ++ gap))
      (member gap (ind ++ gap) <$> o)) as HL. rewrite sum_list_with_fmap in HL.
    assert (sum_list_with (λ kv, S (vsize kv.2)) o
            ≤ sum_list_with (λ kv, 2 * S (length (member gap (ind ++ gap) kv))) o) as Hs.
    { apply sum_list_with_le. apply Forall_forall. intros x Hx.
      rewrite Forall_forall in IH. rewrite forallb_forall in Hok.
      specialize (IH x Hx gap (ind ++ gap)). specialize (Hok x).
      rewrite <-list_elem_of_In in Hok. specialize (IH (Hok Hx)). unfold member.
      rewrite length_app. cbn [length]. rewrite length_app. lia. }
    rewrite sum_list_with_double in Hs. lia.
Qed.

Lemma json_parse_print gap v :
  json_ok v = true → all_ws gap → json_parse (of_chars (print gap [] v)) = Some v.
Proof.
  intros Hok Hg. unfold json_parse. rewrite chars_of_chars.
  pose proof (vsize_print v gap [] Hok).
  rewrite <-(app_nil_r (print gap [] v)) at 2.
  rewrite reads_back_all by (done || lia). done.
Qed.

Lemma json_parse_stringify v : json_ok v = true → json_parse (stringify v) = Some v.
Proof. intros. by apply json_parse_print. Qed.
Lemma json_parse_stringify2 v : json_ok v = true → json_parse (stringify2 v) = Some v.
Proof. intros. by apply json_parse_print. Qed.

(** The text of an object has no white space at its ends. *)
Lemma trim_print_obj gap o :
  o ≠ [] → forallb (λ kv, json_ok kv.2) o = true →
  trim (of_chars (print gap [] (VObj o))) = of_chars (print gap [] (VObj o)).
Proof.
  intros. rewrite print_obj by done. apply trim_edges; rewrite chars_of_chars; [done|].
  rewrite reverse_cons, !reverse_app. done.
Qed.

Lemma json_ok_obj_values o : json_ok (VObj o) = true → forallb (λ kv, json_ok kv.2) o = true.
Proof. rewrite json_ok_obj. by intros [_ ?]%andb_true_iff. Qed.

(** Status codes are printed and read back exactly. *)
Lemma num_ok_status z : (100 ≤ z ≤ 599)%Z → num_ok (num_of_Z z) = true.
Proof.
  intros Hz. cut (forallb (λ z, num_ok (num_of_Z z)) (seqZ 100 500) = true); [|by vm_compute].
  rewrite forallb_forall. intros H. apply H, list_elem_of_In, elem_of_seqZ. lia.
Qed.

(** Assigning a serialisable value to a property that is not an array index
    keeps an object serialisable. *)
Lemma keys_ok_snoc pre ks k :
  keys_ok pre ks = true → k ∉ pre ++ ks → array_index k = None → keys_ok pre (ks ++ [k]) = true.
Proof.
  revert pre. induction ks as [|k0 ks IH]; intros pre; cbn [keys_ok app].
  - intros _ Hk Hi. unfold key_after. rewrite Hi, app_nil_r in *. by rewrite bool_decide_true.
  - intros [-> H]%andb_true_iff Hk Hi. apply IH; [done| |done]. by rewrite <-app_assoc.
Qed.

Lemma forallb_replace (o : obj) k v :
  json_ok v = true → forallb (λ kv, json_ok kv.2) o = true →
  forallb (λ kv, json_ok kv.2) (obj_replace k v o) = true.
Proof.
  intros Hv. induction o as [|[k0 v0] o IH]; simpl; [done|].
  intros [H0 H1]%andb_true_iff. case_decide; simpl; by rewrite ?Hv, ?H0, ?H1, ?IH.
Qed.

Lemma json_ok_set_if b k v (o : obj) :
  array_index k = None → json_ok v = true → json_ok (VObj o) = true →
  json_ok (VObj (set_if b k v o)) = true.
Proof.
  intros Hi Hv Ho. unfold set_if, obj_set. destruct b; [|done]. case_decide; [done|].
  rewrite json_ok_obj in *. apply andb_true_iff in Ho as [Hk Ho].
  unfold obj_define. rewrite Hi. destruct (obj_get o k) eqn:E.
  - by rewrite obj_keys_replace, Hk, forallb_replace.
  - unfold obj_keys in *. rewrite fmap_app, forallb_app, Ho. cbn [forallb snd]. rewrite Hv.
    change ([(k, v)].*1) with [k]. rewrite keys_ok_snoc; [done|done| |done]. by apply obj_get_None.
Qed.
