(* ===== verification/JsonKeys.v ===== *)
(** * Key order of objects

    The own keys of an object are its array indices in ascending order,
    followed by the other keys in the order of their definition.  Defining a
    property keeps this order, so an object that is built from serialisable
    values by assignments is serialisable ([json_ok]).  An array index has
    one spelling ([array_index_inj]). *)
From Stdlib Require Import Ascii SpecFloat.
From S2P Require Import Prelude JsString JsNumber JsValue Json JsonRoundtrip.

Lemma digit_val_range c : is_digit c = true → (0 ≤ digit_val c ≤ 9)%Z.
Proof. unfold is_digit, digit_val. rewrite andb_true_iff, !N.leb_le. lia. Qed.

Lemma digit_val_inj c d : digit_val c = digit_val d → c = d.
Proof.
  unfold digit_val. intros H. assert (N_of_ascii c = N_of_ascii d) as E by lia.
  apply (f_equal ascii_of_N) in E. by rewrite !ascii_N_embedding in E.
Qed.

(** A number without leading zeros. *)
Definition canonical_digits (l : list ascii) : Prop :=
  forallb is_digit l = true ∧ head l ≠ Some "0"%char.

Lemma digits_to_Z_snoc l c : digits_to_Z (l ++ [c]) = (digits_to_Z l * 10 + digit_val c)%Z.
Proof. rewrite digits_to_Z_app. cbn. lia. Qed.

Lemma canonical_snoc l c :
  canonical_digits (l ++ [c]) → canonical_digits l ∧ is_digit c = true ∧ (l = [] → c ≠ "0"%char).
Proof.
  intros [Hd Hh]. rewrite forallb_app in Hd. apply andb_true_iff in Hd as [Hl Hc].
  cbn in Hc. rewrite andb_true_r in Hc. split_and!; [|done|].
  - split; [done|]. by destruct l.
  - intros ->. cbn in Hh. congruence.
Qed.

Lemma canonical_pos l : canonical_digits l → (0 ≤ digits_to_Z l)%Z ∧ (l ≠ [] → (0 < digits_to_Z l)%Z).
Proof.
  induction l as [|c l IH] using rev_ind; [done|]. intros (Hl & Hc & H0)%canonical_snoc.
  rewrite digits_to_Z_snoc. destruct (IH Hl) as [H1 H2]. pose proof (digit_val_range c Hc).
  split; [lia|]. intros _. destruct (decide (l = [])) as [->|Hne]; [|specialize (H2 Hne); lia].
  assert (digit_val c ≠ 0)%Z; [|cbn; lia]. intros E. apply H0; [done|].
  by apply digit_val_inj.
Qed.

Lemma canonical_inj l1 l2 :
  canonical_digits l1 → canonical_digits l2 → digits_to_Z l1 = digits_to_Z l2 → l1 = l2.
Proof.
  revert l2. induction l1 as [|c l1 IH] using rev_ind; intros l2 H1 H2 E.
  - destruct l2 as [|d l2]; [done|]. destruct (canonical_pos _ H2) as [_ Hp].
    specialize (Hp ltac:(done)). rewrite <-E in Hp. by vm_compute in Hp.
  - destruct l2 as [|d l2 _] using rev_ind.
    { destruct (canonical_pos _ H1) as [_ Hp]. rewrite E in Hp.
      assert (l1 ++ [c] ≠ []) as Hne by by destruct l1. by specialize (Hp Hne). }
    apply canonical_snoc in H1 as (H1 & Hc & _), H2 as (H2 & Hd & _).
    rewrite !digits_to_Z_snoc in E.
    pose proof (digit_val_range c Hc). pose proof (digit_val_range d Hd).
    rewrite (IH l2); [|done|done|lia]. do 2 f_equal. apply digit_val_inj.
    assert (digits_to_Z l1 = digits_to_Z l2) by lia. lia.
Qed.

Lemma array_index_inj k1 k2 i : array_index k1 = Some i → array_index k2 = Some i → k1 = k2.
Proof.
  assert (∀ k, array_index k = Some i →
    digits_to_Z (chars k) = i ∧ chars k ≠ [] ∧ (chars k = ["0"%char] ∨ canonical_digits (chars k))) as H.
  { intros k. unfold array_index. destruct (chars k) as [|c l] eqn:E; [done|].
    destruct (forallb is_digit (c :: l) && _) eqn:Ed; [|done].
    apply andb_true_iff in Ed as [Hd Hz]. case_match; [|done]. intros [= <-]. split_and!; [done|done|].
    destruct (decide (c = "0"%char)) as [->|Hc].
    - left. rewrite orb_false_r in Hz. apply bool_decide_eq_true in Hz. by subst.
    - right. split; [done|]. cbn. congruence. }
  intros (H1 & N1 & C1)%H (H2 & N2 & C2)%H. apply (inj (String.list_ascii_of_string)).
  assert (∀ l, l ≠ [] → canonical_digits l → digits_to_Z l ≠ 0)%Z as Hz.
  { intros l Hl Hc%canonical_pos. destruct Hc as [_ Hc]. specialize (Hc Hl). lia. }
  destruct C1 as [E1|C1], C2 as [E2|C2].
  - by rewrite E1, E2.
  - destruct (Hz _ N2 C2). rewrite H2, <-H1, E1. done.
  - destruct (Hz _ N1 C1). rewrite H1, <-H2, E2. done.
  - apply canonical_inj; [done|done|congruence].
Qed.

(** [k] may come before [k'] in an object. *)
Definition key_before (k k' : string) : Prop :=
  k ≠ k' ∧ match array_index k, array_index k' with
           | Some i, Some j => (i < j)%Z
           | None, Some _ => False
           | _, None => True
           end.

Lemma key_after_spec pre k : key_after pre k = true ↔ ∀ k', k' ∈ pre → key_before k' k.
Proof.
  unfold key_after, key_before. rewrite andb_true_iff, bool_decide_eq_true.
  destruct (array_index k) as [i|].
  - rewrite forallb_forall. setoid_rewrite <-list_elem_of_In. split.
    + intros [Hn H] k' Hk'. specialize (H k' Hk'). split; [set_solver|].
      destruct (array_index k'); [by apply Z.ltb_lt|done].
    + intros H. split; [intros Hk; by destruct (H k Hk)|]. intros k' Hk'. destruct (H k' Hk') as [_ H'].
      destruct (array_index k'); [by apply Z.ltb_lt|done].
  - split; [intros [Hn _] k' Hk'; split; [set_solver|by destruct (array_index k')]|].
    intros H. split; [|done]. intros Hk. by destruct (H k Hk).
Qed.

Lemma keys_ok_cons pre k ks :
  keys_ok pre (k :: ks) = true ↔ (∀ k', k' ∈ pre → key_before k' k) ∧ keys_ok (pre ++ [k]) ks = true.
Proof. cbn. by rewrite andb_true_iff, key_after_spec. Qed.

Lemma keys_ok_spec pre ks :
  keys_ok pre ks = true ↔
  (∀ k k', k ∈ pre → k' ∈ ks → key_before k k') ∧ keys_ok [] ks = true.
Proof.
  revert pre. induction ks as [|k ks IH]; intros pre; [cbn; set_solver|].
  rewrite !keys_ok_cons, IH, (IH [k]). setoid_rewrite elem_of_app. setoid_rewrite elem_of_cons.
  setoid_rewrite elem_of_nil. naive_solver.
Qed.

Lemma keys_ok_head k ks :
  keys_ok [] (k :: ks) = true ↔ (∀ k', k' ∈ ks → key_before k k') ∧ keys_ok [] ks = true.
Proof.
  rewrite keys_ok_cons, (keys_ok_spec ([] ++ [k])). cbn [app]. setoid_rewrite list_elem_of_singleton.
  set_solver.
Qed.

Lemma keys_ok_NoDup ks : keys_ok [] ks = true → NoDup ks.
Proof.
  induction ks as [|k ks IH]; [constructor|]. intros [Hb H]%keys_ok_head.
  constructor; [|by apply IH]. intros Hk. by destruct (Hb k Hk).
Qed.

Lemma key_before_trans k1 k2 k3 :
  key_before k1 k2 → key_before k2 k3 → is_Some (array_index k2) → key_before k1 k3.
Proof.
  unfold key_before. intros [H1 H1'] [H2 H2'] [j Hj]. rewrite Hj in *.
  destruct (array_index k1) as [i|] eqn:E1; [|done]. destruct (array_index k3) as [l|] eqn:E3.
  - split; [|lia]. intros ->. rewrite E1 in E3. simplify_eq. lia.
  - split; [|done]. intros ->. congruence.
Qed.

(** Inserting a new index keeps the order. *)
Lemma insert_index_keys {A} i k (v : A) o :
  array_index k = Some i → k ∉ obj_keys o → keys_ok [] (obj_keys o) = true →
  keys_ok [] (obj_keys (insert_index i k v o)) = true.
Proof.
  intros Hi. induction o as [|[k' v'] o IH]; intros Hk Hok; [apply keys_ok_head; set_solver|].
  cbn [insert_index]. pose proof Hok as [Hb Ho]%keys_ok_head.
  assert (k' ≠ k) as Hne by (intros ->; apply Hk; left).
  assert (Hstop : (∀ j, array_index k' = Some j → (i < j)%Z) → keys_ok [] (k :: k' :: obj_keys o) = true).
  { intros Hj. apply keys_ok_head. split; [|done].
    assert (key_before k k') as Hkk by (split; [done|]; rewrite Hi; case_match; [by apply Hj|done]).
    intros k2 [->|Hk2]%elem_of_cons; [done|]. destruct (Hb k2 Hk2) as [Hn2 Hb2].
    destruct (array_index k') as [j|] eqn:Ej.
    - apply (key_before_trans k k' k2); [done|by apply Hb|rewrite Ej; eauto].
    - split; [intros ->; apply Hk; by right|]. rewrite Hi. revert Hb2.
      cbn [fst]. rewrite Ej. by destruct (array_index k2). }
  destruct (array_index k') as [j|] eqn:Ej; [|by apply Hstop].
  destruct (Z.ltb_spec j i).
  - cbn [obj_keys fmap list_fmap fst]. apply keys_ok_head. split; [|apply IH; [|done]; intros ?; apply Hk; by right].
    intros k2 Hk2. assert (k2 = k ∨ k2 ∈ obj_keys o) as [->|Hk2'].
    { unfold obj_keys in Hk2. rewrite (insert_index_perm i o k v) in Hk2. by apply elem_of_cons in Hk2. }
    + split; [done|]. by rewrite Ej, Hi.
    + by apply Hb.
  - apply Hstop. intros j' [= <-]. assert (i ≠ j); [|lia]. intros ->.
    apply Hne. by eapply array_index_inj.
Qed.

(** Defining a property keeps the key order of an object. *)
Lemma obj_define_keys {A} k (v : A) o :
  keys_ok [] (obj_keys o) = true → keys_ok [] (obj_keys (obj_define k v o)) = true.
Proof.
  intros Ho. unfold obj_define. destruct (obj_get o k) eqn:E; [by rewrite obj_keys_replace|].
  apply obj_get_None in E. destruct (array_index k) as [i|] eqn:Ei.
  - by apply insert_index_keys.
  - unfold obj_keys in *. rewrite fmap_app. by apply keys_ok_snoc.
Qed.

Lemma obj_define_json k v (o : obj) :
  json_ok v = true → json_ok (VObj o) = true → json_ok (VObj (obj_define k v o)) = true.
Proof.
  intros Hv Ho. rewrite json_ok_obj in *. apply andb_true_iff in Ho as [Hk Ho].
  rewrite obj_define_keys by done. cbn. rewrite forallb_forall in *. intros [k' v'] Hin.
  assert ((k', v') = (k, v) ∨ In (k', v') o) as [[= -> ->]|?]; [|done|by apply (Ho (k', v'))].
  revert Hin. rewrite <-!list_elem_of_In. unfold obj_define. destruct (obj_get o k) eqn:E.
  - clear. induction o as [|[k0 v0] o IH]; cbn; [set_solver|]. case_decide; set_solver.
  - destruct (array_index k); [rewrite insert_index_perm|]; set_solver.
Qed.
