(* ===== verification/StatusCodes.v ===== *)
(** * HTTP status code rules

    [web/src/helpers/statusCodeRules.js] (the list of retryable status codes
    an administrator types as codes and ranges) and
    [web/src/components/table/channels/modals/statusCodeRiskGuard.js] (the
    warnings about risky status code redirects).

    Codes are integers: every number the code keeps lies in 100..599, where
    doubles are exact, and a digit string outside that range is rejected
    whether or not it is rounded. *)
From Stdlib Require Import Ascii SpecFloat.
From S2P Require Import Prelude JsString JsNumber JsValue Json.
Local Open Scope Z_scope.

Module Rules.

Record range := Range { start : Z; end_ : Z }.

#[export] Instance range_eq_dec : EqDecision range.
Proof. solve_decision. Defined.

(** [isNumber(s)] for a string. *)
Definition isNumber (s : string) : bool := all_digits s.

Definition parseToken (token : string) : option range :=
  let cleaned := replace_all " " "" (trim token) in
  if bool_decide (cleaned = "") then None
  else if includes "-" cleaned then
    match split_on "-" cleaned with
    | [a; b] =>
        if negb (isNumber a) || negb (isNumber b) then None
        else
          let start := digits_to_Z (chars a) in
          let end_ := digits_to_Z (chars b) in
          if end_ <? start then None
          else if (start <? 100) || (599 <? end_) then None
          else Some (Range start end_)
    | _ => None
    end
  else if negb (isNumber cleaned) then None
  else
    let code := digits_to_Z (chars cleaned) in
    if (code <? 100) || (599 <? code) then None else Some (Range code code).

(** The comparator [a.start !== b.start ? a.start - b.start : a.end - b.end],
    as the order it sorts by. *)
Definition range_le (a b : range) : Prop :=
  start a < start b ∨ (start a = start b ∧ end_ a ≤ end_ b).
#[export] Instance range_le_dec : RelDecision range_le.
Proof. unfold range_le. intros a b. apply _. Defined.

(** The loop over the sorted ranges; [last] is [merged[merged.length - 1]]. *)
Fixpoint merge_loop (last : range) (rest : list range) : list range :=
  match rest with
  | [] => [last]
  | current :: rest =>
      if start current <=? end_ last + 1
      then merge_loop (Range (start last) (Z.max (end_ last) (end_ current))) rest
      else last :: merge_loop current rest
  end.

Definition mergeRanges (ranges : list range) : list range :=
  match merge_sort range_le ranges with
  | [] => []
  | first :: rest => merge_loop first rest
  end.

Definition token_of_range (r : range) : string :=
  if start r =? end_ r then pretty (start r) else pretty (start r) +:+ "-" +:+ pretty (end_ r).

Record parse_result := ParseResult {
  ok : bool;
  ranges : list range;
  tokens : list string;
  normalized : string;
  invalidTokens : list string }.

(** The [for (const segment of segments)] loop: [(ranges, invalidTokens)]. *)
Fixpoint scan_segments (segments : list string) : list range * list string :=
  match segments with
  | [] => ([], [])
  | segment :: segments =>
      let '(rs, bad) := scan_segments segments in
      let trimmed := trim segment in
      if bool_decide (trimmed = "") then (rs, bad)
      else match parseToken trimmed with
           | None => (rs, trimmed :: bad)
           | Some r => (r :: rs, bad)
           end
  end.

Definition parse_rules (input : string) : parse_result :=
  let raw := trim input in
  if bool_decide (raw = "") then ParseResult true [] [] "" []
  else
    let sanitized := replace_all "，" "," raw in
    let segments := split_on "," sanitized in
    let '(rs, bad) := scan_segments segments in
    match bad with
    | [] => let merged := mergeRanges rs in
            let tokens := token_of_range <$> merged in
            ParseResult true merged tokens (join "," tokens) []
    | _ => ParseResult false [] [] raw bad
    end.

(** [parseHttpStatusCodeRules(input)]: [(input ?? '').toString()] first. *)
Definition parseHttpStatusCodeRules (input : jsval) : res parse_result :=
  s ← to_str (js_nullish input (VStr ""));
  Ok (parse_rules s).

(** ** What a text denotes *)

(** [s] is a decimal numeral of [n]: digits only, at least one of them,
    leading zeros allowed. *)
Definition numeral (s : string) (n : Z) : Prop :=
  s ≠ "" ∧ (∀ c, c ∈ chars s → is_digit c = true) ∧ digits_to_Z (chars s) = n.

(** The text [tok], without its outer white space and its blanks, is a code
    in 100..599, or two codes in that range joined by a hyphen, the smaller
    one first. *)
Definition denotes (tok : string) (r : range) : Prop :=
  let text := replace_all " " "" (trim tok) in
  (∃ n, numeral text n ∧ 100 ≤ n ≤ 599 ∧ r = Range n n) ∨
  (∃ a b m n, text = a +:+ "-" +:+ b ∧ numeral a m ∧ numeral b n ∧
     100 ≤ m ≤ n ∧ n ≤ 599 ∧ r = Range m n).

(** ** What a list of ranges denotes *)

Definition in_range (c : Z) (r : range) : Prop := start r ≤ c ≤ end_ r.
Definition covers (rs : list range) (c : Z) : Prop := Exists (in_range c) rs.
Definition valid (r : range) : Prop := start r ≤ end_ r.

(** Disjoint, non-adjacent ranges in ascending order. *)
Fixpoint canonical (rs : list range) : Prop :=
  match rs with
  | [] => True
  | r :: rs => valid r ∧ Forall (λ r', end_ r + 1 < start r') rs ∧ canonical rs
  end.

#[local] Instance range_le_total : Total range_le.
Proof. intros [a b] [c d]. unfold range_le; simpl. lia. Qed.
#[local] Instance range_le_trans : Transitive range_le.
Proof. intros [a b] [c d] [e f]. unfold range_le; simpl. lia. Qed.
#[local] Instance range_le_antisymm : AntiSymm (=) range_le.
Proof. intros [a b] [c d]. unfold range_le; simpl. intros ??. f_equal; lia. Qed.

Lemma covers_cons r rs c : covers (r :: rs) c ↔ in_range c r ∨ covers rs c.
Proof. apply Exists_cons. Qed.

Lemma covers_perm rs rs' c : rs ≡ₚ rs' → covers rs c ↔ covers rs' c.
Proof.
  intros H. unfold covers. rewrite !Exists_exists. setoid_rewrite H. done.
Qed.

(** Ascending starts, all the merge loop relies on. *)
Definition start_le (a b : range) : Prop := start a ≤ start b.

Lemma merge_sort_starts rs : StronglySorted start_le (merge_sort range_le rs).
Proof.
  pose proof (StronglySorted_merge_sort range_le rs) as H.
  induction H as [|r l H IH HF]; constructor; [done|].
  eapply Forall_impl; [done|]. unfold range_le, start_le. lia.
Qed.

Lemma merge_loop_spec last rest :
  valid last → Forall valid rest → StronglySorted start_le (last :: rest) →
  (∀ c, covers (merge_loop last rest) c ↔ covers (last :: rest) c) ∧
  canonical (merge_loop last rest) ∧
  Forall (λ r, start last ≤ start r) (merge_loop last rest).
Proof.
  revert last. induction rest as [|r rest IH]; intros last Hl Hv Hs.
  { split_and!; [done|by split_and!; [|constructor|]|]. by constructor. }
  inv Hv as [|?? Hr Hv']. inv Hs as [|?? Hs' HF]. inv HF as [|?? Hlr HF0].
  inv Hs' as [|?? Hs'' HF']. unfold valid, start_le in *.
  cbn [merge_loop]. destruct (Z.leb_spec (start r) (end_ last + 1)) as [Hle|Hgt].
  - destruct (IH (Range (start last) (Z.max (end_ last) (end_ r)))) as (Hc & Hcan & Hst);
      [cbn; lia|done|by constructor|].
    split_and!; [|done..]. intros c. rewrite Hc, !covers_cons. unfold in_range; cbn [start end_].
    split; [intros [?|?]|intros [?|[?|?]]]; auto; try (left; lia).
    destruct (decide (c ≤ end_ last)); [left; lia|right; left; lia].
  - destruct (IH r) as (Hc & Hcan & Hst); [done..|by constructor|].
    split_and!.
    + intros c. by rewrite (covers_cons last), (covers_cons last), Hc.
    + split_and!; [done| |done]. eapply Forall_impl; [done|]. cbn. lia.
    + constructor; [lia|]. eapply Forall_impl; [done|]. cbn. lia.
Qed.

Lemma mergeRanges_spec rs :
  Forall valid rs →
  (∀ c, covers (mergeRanges rs) c ↔ covers rs c) ∧ canonical (mergeRanges rs).
Proof.
  intros Hv. unfold mergeRanges. pose proof (merge_sort_starts rs) as Hs.
  pose proof (merge_sort_Permutation range_le rs) as Hp.
  destruct (merge_sort range_le rs) as [|r l]; [apply Permutation_nil_l in Hp; subst; done|].
  assert (Hv' : Forall valid (r :: l)) by (by rewrite Hp).
  inv Hv'. destruct (merge_loop_spec r l) as (Hc & ? & _); [done..|].
  split; [|done]. intros c. rewrite Hc. by apply covers_perm.
Qed.

(** A canonical list is determined by the codes it covers. *)
Lemma canonical_above r rs c :
  canonical (r :: rs) → covers rs c → end_ r + 1 < c.
Proof.
  intros (_ & HF & _) (r' & Hr' & Hc)%Exists_exists.
  rewrite Forall_forall in HF. specialize (HF r' Hr'). unfold in_range in Hc. lia.
Qed.

Lemma canonical_head r rs c : canonical (r :: rs) → covers (r :: rs) c → start r ≤ c.
Proof.
  intros Hc [H|H]%covers_cons; [unfold in_range in H; lia|].
  pose proof (canonical_above _ _ _ Hc H). destruct Hc as [Hv _]. unfold valid in Hv. lia.
Qed.

Lemma canonical_unique rs1 rs2 :
  canonical rs1 → canonical rs2 → (∀ c, covers rs1 c ↔ covers rs2 c) → rs1 = rs2.
Proof.
  assert (Hin : ∀ r rs, canonical (r :: rs) → covers (r :: rs) (start r) ∧
     covers (r :: rs) (end_ r) ∧ ¬ covers (r :: rs) (end_ r + 1)).
  { intros r rs Hc. pose proof Hc as [Hv _]. unfold valid in Hv.
    rewrite !covers_cons. unfold in_range. split_and!; [left; lia..|].
    intros [?|H]; [lia|]. pose proof (canonical_above _ _ _ Hc H). lia. }
  revert rs2. induction rs1 as [|r1 rs1 IH]; intros [|r2 rs2] H1 H2 Heq; [done|..].
  - destruct (Hin _ _ H2) as (H & _). apply Heq in H. by inv H.
  - destruct (Hin _ _ H1) as (H & _). apply Heq in H. by inv H.
  - destruct (Hin _ _ H1) as (Hs1 & He1 & Hn1), (Hin _ _ H2) as (Hs2 & He2 & Hn2).
    pose proof (canonical_head _ _ _ H1 (proj2 (Heq _) Hs2)).
    pose proof (canonical_head _ _ _ H2 (proj1 (Heq _) Hs1)).
    pose proof H1 as [Hv1 _]. pose proof H2 as [Hv2 _]. unfold valid in Hv1, Hv2.
    assert (end_ r1 = end_ r2).
    { destruct (Z.lt_trichotomy (end_ r1) (end_ r2)) as [?|[?|?]]; [|done|].
      - destruct Hn1. apply Heq, covers_cons. left. unfold in_range. lia.
      - destruct Hn2. apply Heq, covers_cons. left. unfold in_range. lia. }
    assert (r1 = r2) as -> by (destruct r1, r2; cbn in *; f_equal; lia).
    f_equal. apply IH; [apply H1|apply H2|]. intros c. specialize (Heq c).
    rewrite !covers_cons in Heq. split; intros Hc.
    + pose proof (canonical_above _ _ _ H1 Hc). destruct (proj1 Heq (or_intror Hc)) as [Hr|]; [|done].
      unfold in_range in Hr. lia.
    + pose proof (canonical_above _ _ _ H2 Hc). destruct (proj2 Heq (or_intror Hc)) as [Hr|]; [|done].
      unfold in_range in Hr. lia.
Qed.

(** ** Tokens *)

Definition bounded (r : range) : Prop := 100 ≤ start r ∧ start r ≤ end_ r ∧ end_ r ≤ 599.

Lemma parseToken_bounded t r : parseToken t = Some r → bounded r.
Proof.
  unfold parseToken, bounded. intros H.
  repeat (case_match; try done); simplify_eq; cbn [start end_];
    repeat match goal with
    | H : _ || _ = false |- _ => apply orb_false_iff in H as [??]
    | H : (_ <? _) = false |- _ => apply Z.ltb_ge in H
    end; lia.
Qed.

Lemma scan_segments_bounded segs : Forall bounded (scan_segments segs).1.
Proof.
  induction segs as [|s segs IH]; [constructor|]. cbn [scan_segments].
  destruct (scan_segments segs) as [rs bad]. case_bool_decide; [done|].
  destruct (parseToken (trim s)) eqn:E; [|done]. cbn.
  constructor; [by eapply parseToken_bounded|done].
Qed.

Lemma bounded_valid rs : Forall bounded rs → Forall valid rs.
Proof. intros. eapply Forall_impl; [done|]. unfold bounded, valid. lia. Qed.

(** Everything [token_of_range] needs of the decimal form of a status code. *)
Definition code_printed (z : Z) : bool :=
  all_digits (pretty z) && (digits_to_Z (chars (pretty z)) =? z) &&
  forallb (λ c, plain c && negb (bool_decide (c = "-"%char)) && negb (bool_decide (c = ","%char)))
    (chars (pretty z)) && negb (bool_decide (pretty z = "")).

Lemma code_printed_all z : 100 ≤ z ≤ 599 → code_printed z = true.
Proof.
  intros Hz. cut (forallb code_printed (seqZ 100 500) = true); [|by vm_compute].
  rewrite forallb_forall. intros H. apply H, list_elem_of_In, elem_of_seqZ. lia.
Qed.

Lemma code_printed_spec z :
  100 ≤ z ≤ 599 →
  all_digits (pretty z) = true ∧ digits_to_Z (chars (pretty z)) = z ∧
  plain_str (pretty z) ∧ no_char "-" (pretty z) ∧ no_char "," (pretty z) ∧ pretty z ≠ "".
Proof.
  intros (((Hd & Hz)%andb_true_iff & HF)%andb_true_iff & Hne)%code_printed_all%andb_true_iff.
  apply Z.eqb_eq in Hz. rewrite negb_true_iff, bool_decide_eq_false in Hne.
  rewrite forallb_forall in HF. split_and!; [done..| | | |done]; unfold plain_str, no_char.
  - apply forallb_forall. intros c Hc%HF. by apply andb_true_iff in Hc as [[??]%andb_true_iff ?].
  - intros Hc%list_elem_of_In%HF. by apply andb_true_iff in Hc as [[??]%andb_true_iff ?].
  - intros Hc%list_elem_of_In%HF. by apply andb_true_iff in Hc as [[??]%andb_true_iff ?].
Qed.

Lemma token_of_range_plain r :
  bounded r → plain_str (token_of_range r) ∧ no_char "," (token_of_range r)
    ∧ token_of_range r ≠ "".
Proof.
  intros (?&?&?). unfold token_of_range.
  destruct (code_printed_spec (start r)) as (_ & _ & Hp & _ & Hc & Hne); [lia|].
  destruct (code_printed_spec (end_ r)) as (_ & _ & Hp' & _ & Hc' & Hne'); [lia|].
  destruct (start r =? end_ r); [done|]. split_and!.
  - auto using plain_str_app.
  - unfold no_char in *. rewrite !chars_app. set_solver.
  - destruct (pretty (start r)); done.
Qed.

Lemma parseToken_token_of_range r : bounded r → parseToken (token_of_range r) = Some r.
Proof.
  intros Hb. destruct (token_of_range_plain r Hb) as (Hp & _ & Hne).
  unfold parseToken. rewrite trim_plain, replace_all_absent by
    (done || (apply plain_str_no_char; done)).
  rewrite bool_decide_false by done. destruct Hb as (?&?&?).
  destruct (code_printed_spec (start r)) as (Hd & Hz & _ & Hm & _ & _); [lia|].
  destruct (code_printed_spec (end_ r)) as (Hd' & Hz' & _ & Hm' & _ & _); [lia|].
  unfold token_of_range. destruct (Z.eqb_spec (start r) (end_ r)) as [He|He].
  - destruct (includes "-" (pretty (start r))) eqn:E; [by apply includes_char in E|].
    unfold isNumber. rewrite Hd, Hz. cbn [negb].
    rewrite (proj2 (Z.ltb_ge _ _)), (proj2 (Z.ltb_ge _ _)) by lia.
    destruct r; cbn in *. by subst.
  - rewrite (proj2 (includes_char "-" _)).
    2: { rewrite !chars_app. change (chars "-") with ["-"%char]. set_solver. }
    change ("-" +:+ pretty (end_ r)) with (String "-" (pretty (end_ r))).
    rewrite split_on_app, split_on_no_char by done. unfold isNumber.
    rewrite Hd, Hd', Hz, Hz'. cbn [negb orb].
    rewrite !(proj2 (Z.ltb_ge _ _)) by lia. by destruct r.
Qed.

Lemma scan_tokens rs : Forall bounded rs → scan_segments (token_of_range <$> rs) = (rs, []).
Proof.
  induction 1 as [|r rs Hr HF IH]; [done|]. cbn [fmap list_fmap scan_segments].
  change (list_fmap _ _ token_of_range rs) with (token_of_range <$> rs). rewrite IH.
  destruct (token_of_range_plain r Hr) as (Hp & _ & Hne). rewrite trim_plain by done.
  rewrite bool_decide_false by done. by rewrite parseToken_token_of_range.
Qed.

Lemma mergeRanges_canonical rs : canonical rs → Forall valid rs → mergeRanges rs = rs.
Proof.
  intros Hc Hv. destruct (mergeRanges_spec rs Hv) as [Heq Hc'].
  by apply canonical_unique.
Qed.

Lemma mergeRanges_bounded rs : Forall bounded rs → Forall bounded (mergeRanges rs).
Proof.
  intros Hb. destruct (mergeRanges_spec rs (bounded_valid rs Hb)) as [Heq Hc].
  apply Forall_forall. intros r Hr.
  assert (valid r) as Hv.
  { clear -Hc Hr. induction (mergeRanges rs) as [|r' l IH]; [set_solver|].
    destruct Hc as (? & _ & ?). apply elem_of_cons in Hr as [->|?]; auto. }
  assert (∀ c, in_range c r → 100 ≤ c ≤ 599) as HB.
  { intros c Hcr. assert (covers rs c) as (r' & Hr' & Hin)%Exists_exists.
    { apply Heq, Exists_exists. eauto. }
    rewrite Forall_forall in Hb. specialize (Hb r' Hr'). unfold bounded, in_range in *. lia. }
  unfold valid, bounded, in_range in *.
  pose proof (HB (start r)). pose proof (HB (end_ r)). lia.
Qed.

Lemma scan_segments_spec segs :
  (∀ r, r ∈ (scan_segments segs).1 ↔
     ∃ seg, seg ∈ segs ∧ trim seg ≠ "" ∧ parseToken (trim seg) = Some r) ∧
  (∀ t, t ∈ (scan_segments segs).2 ↔
     ∃ seg, seg ∈ segs ∧ t = trim seg ∧ t ≠ "" ∧ parseToken t = None).
Proof.
  induction segs as [|s segs [IH1 IH2]]; [set_solver|].
  cbn [scan_segments]. destruct (scan_segments segs) as [rs bad]. cbn [fst snd] in *.
  case_bool_decide as Hs; [|destruct (parseToken (trim s)) eqn:E]; cbn [fst snd]; split; intros ?;
    rewrite ?elem_of_cons, ?IH1, ?IH2; setoid_rewrite elem_of_cons; naive_solver.
Qed.

Lemma parseToken_empty : parseToken "" = None.
Proof. done. Qed.

Lemma numeral_digits s n :
  numeral s n ↔ isNumber s = true ∧ digits_to_Z (chars s) = n.
Proof.
  unfold numeral, isNumber, all_digits.
  assert (s = "" ↔ chars s = []) as Hs by (destruct s; done).
  destruct (chars s) as [|c l].
  - split; [intros (H & _); by destruct H; apply Hs|by intros [? ?]].
  - rewrite forallb_forall. setoid_rewrite list_elem_of_In.
    split; [tauto|]. intros [??]. split_and!; [|done..]. by intros ?%Hs.
Qed.

Lemma numeral_no_hyphen s n : numeral s n → no_char "-" s.
Proof. intros (_ & Hd & _) H. by apply Hd in H. Qed.

Lemma split_on_whole c s : join (String c "") (split_on c s) = s.
Proof.
  induction s as [|a s IH]; [done|]. rewrite split_on_cons.
  pose proof (split_on_nonempty c s) as Hne.
  destruct (split_on c s) as [|p ps]; [done|]. case_decide as Ha; [subst a|].
  - change (String c "" +:+ join (String c "") (p :: ps) = String c s). by rewrite IH.
  - destruct ps as [|p' ps]; [cbn in IH |- *; by subst|].
    change (String a (join (String c "") (p :: p' :: ps)) = String a s). by rewrite IH.
Qed.

(** The parser recognises exactly the texts that denote a range. *)
Lemma parseToken_denotes t r : parseToken t = Some r ↔ denotes t r.
Proof.
  unfold parseToken, denotes. set (text := replace_all _ _ _). clearbody text.
  setoid_rewrite numeral_digits. case_bool_decide as Hne.
  { subst text. split; [done|]. intros [(n & (? & _) & _)|(a & b & m & n & E & _)]; [done|].
    by destruct a. }
  destruct (includes "-" text) eqn:Ei.
  - apply includes_char in Ei. split.
    + intros H. right. pose proof (split_on_whole "-" text) as E.
      destruct (split_on "-" text) as [|a [|b [|??]]]; try done.
      repeat (case_match; try done); simplify_eq.
      repeat match goal with
      | H : _ || _ = false |- _ => apply orb_false_iff in H as [?%negb_false_iff ?%negb_false_iff]
                                || apply orb_false_iff in H as [?%Z.ltb_ge ?%Z.ltb_ge]
      | H : (_ <? _) = false |- _ => apply Z.ltb_ge in H
      end.
      eexists a, b, _, _. split_and!; done.
    + intros [(n & Hn & _)|(a & b & m & n & -> & Ha & Hb & ? & ? & ->)].
      { apply numeral_digits, numeral_no_hyphen in Hn. done. }
      pose proof (numeral_no_hyphen _ _ (proj2 (numeral_digits a m) Ha)) as Hma.
      pose proof (numeral_no_hyphen _ _ (proj2 (numeral_digits b n) Hb)) as Hmb.
      change ("-" +:+ b) with (String "-" b).
      rewrite split_on_app, (split_on_no_char _ b) by done.
      destruct Ha as [-> ->], Hb as [-> ->]. cbn [negb orb].
      by rewrite !(proj2 (Z.ltb_ge _ _)) by lia.
  - assert (no_char "-" text) as Hno.
    { intros H. apply (includes_char "-") in H. congruence. }
    split.
    + intros H. left. repeat (case_match; try done); simplify_eq.
      match goal with H : _ || _ = false |- _ => apply orb_false_iff in H as [?%Z.ltb_ge ?%Z.ltb_ge] end.
      eexists. split_and!; try done. by apply negb_false_iff.
    + intros [(n & [-> ->] & ? & ->)|(a & b & m & n & -> & _)].
      * cbn [negb]. by rewrite !(proj2 (Z.ltb_ge _ _)) by lia.
      * destruct Hno. rewrite chars_app. apply elem_of_app. right. left.
Qed.

Lemma parseToken_none t : parseToken t = None ↔ ∀ r, ¬ denotes t r.
Proof.
  setoid_rewrite <-parseToken_denotes. destruct (parseToken t) as [r|]; [|done].
  split; [done|]. intros H. by destruct (H r).
Qed.

(** Merging status code ranges yields the canonical form of the set of
    codes they denote: the result is ascending, with a gap between any two
    ranges, covers exactly the codes of the input, and two inputs are merged
    to the same list exactly when they denote the same codes. *)
Theorem mergeRanges_canonical_form (rs1 rs2 : list range) :
  Forall valid rs1 → Forall valid rs2 →
  canonical (mergeRanges rs1) ∧
  (∀ c, covers (mergeRanges rs1) c ↔ covers rs1 c) ∧
  (mergeRanges rs1 = mergeRanges rs2 ↔ ∀ c, covers rs1 c ↔ covers rs2 c).
Proof.
  intros H1 H2. destruct (mergeRanges_spec rs1 H1) as [E1 C1], (mergeRanges_spec rs2 H2) as [E2 C2].
  split_and!; [done..|]. split.
  - intros Heq c. by rewrite <-E1, <-E2, Heq.
  - intros Heq. apply canonical_unique; [done..|]. intros c. by rewrite E1, E2.
Qed.

Lemma mergeRanges_canonical_form_witness :
  mergeRanges [Range 500 504; Range 429 429; Range 505 510; Range 502 503]
  = mergeRanges [Range 429 429; Range 500 510].
Proof.
  apply (mergeRanges_canonical_form [Range 500 504; Range 429 429; Range 505 510; Range 502 503]
           [Range 429 429; Range 500 510]);
    [repeat constructor; vm_compute; congruence..|].
  intros c. unfold covers, in_range. rewrite !Exists_cons, !Exists_nil. cbn [start end_]. lia.
Defined.

(** C24.  The rule parser accepts an input exactly when every non-blank
    comma-separated segment is, blanks aside, a decimal code in 100..599 or
    two such codes joined by a hyphen, the smaller one first; then the
    ranges are canonical, within bounds and cover exactly the codes the
    segments denote, and otherwise it reports exactly the segments that
    denote nothing, and no range. *)
Theorem parse_rules_spec (s : string) :
  let r := parse_rules s in
  let segments := split_on "," (replace_all "，" "," (trim s)) in
  (ok r = true ↔ ∀ seg, seg ∈ segments → trim seg ≠ "" → ∃ rg, denotes (trim seg) rg) ∧
  (ok r = true →
     canonical (ranges r) ∧ Forall bounded (ranges r) ∧ invalidTokens r = [] ∧
     tokens r = token_of_range <$> ranges r ∧ normalized r = join "," (tokens r) ∧
     ∀ c, covers (ranges r) c ↔
       ∃ seg rg, seg ∈ segments ∧ denotes (trim seg) rg ∧ in_range c rg) ∧
  (ok r = false →
     ranges r = [] ∧ tokens r = [] ∧ normalized r = trim s ∧
     ∀ t, t ∈ invalidTokens r ↔
       ∃ seg, seg ∈ segments ∧ t = trim seg ∧ t ≠ "" ∧ ∀ rg, ¬ denotes t rg).
Proof.
  cbn zeta. setoid_rewrite <-parseToken_none. setoid_rewrite <-parseToken_denotes.
  unfold parse_rules. case_bool_decide as Hs.
  { rewrite Hs. change (split_on "," (replace_all "，" "," "")) with [""].
    cbn [ok ranges tokens normalized invalidTokens]. split_and!; try done.
    - split; [|done]. intros _ seg ->%list_elem_of_singleton. done.
    - intros _. split_and!; try done. intros c. split; [by intros ?%Exists_nil|].
      intros (seg & rg & ->%list_elem_of_singleton & ? & _). done. }
  set (segs := split_on _ _). destruct (scan_segments_spec segs) as [H1 H2].
  pose proof (scan_segments_bounded segs) as Hb.
  destruct (scan_segments segs) as [rs bad]. cbn [fst snd] in *.
  destruct bad as [|t bad]; cbn [ok ranges tokens normalized invalidTokens]; split_and!; try done.
  - split; [|done]. intros _ seg Hseg Hne. destruct (parseToken (trim seg)) as [rg|] eqn:Hn; [by exists rg|].
    assert (trim seg ∈ []) by (apply H2; eauto). set_solver.
  - intros _. destruct (mergeRanges_spec rs (bounded_valid rs Hb)) as [Heq Hc].
    split_and!; [done|by apply mergeRanges_bounded|done..|].
    intros c. rewrite Heq. unfold covers. rewrite Exists_exists. setoid_rewrite H1. split.
    + naive_solver.
    + intros (seg & rg & ? & Ht & ?). exists rg. split; [|done]. exists seg.
      split_and!; [done| |done]. intros E. by rewrite E, parseToken_empty in Ht.
  - split; [done|]. intros H. assert (t ∈ t :: bad) as Ht by set_solver.
    apply H2 in Ht as (seg & Hseg & -> & Hne & Hn). destruct (H seg Hseg Hne) as [rg Hrg]. by rewrite Hn in Hrg.
Qed.

(** The normalised text of an accepted input is a fixed point: parsing
    it again is accepted and gives the same ranges, tokens and text. *)
Theorem parse_rules_normalized (s : string) :
  ok (parse_rules s) = true → parse_rules (normalized (parse_rules s)) = parse_rules s.
Proof.
  unfold parse_rules at 1 3 4. case_bool_decide as Hs; [done|].
  set (segs := split_on _ _). pose proof (scan_segments_bounded segs) as Hb.
  destruct (scan_segments segs) as [rs [|t bad]]; [|done]. cbn [fst] in Hb. intros _.
  cbn [normalized]. set (m := mergeRanges rs).
  pose proof (mergeRanges_bounded rs Hb) as Hmb.
  destruct (mergeRanges_spec rs (bounded_valid rs Hb)) as [_ Hc]. fold m in Hmb, Hc.
  destruct (decide (m = [])) as [->|Hne]; [done|].
  assert (Hp : plain_str (join "," (token_of_range <$> m))).
  { apply plain_str_join; [done|]. apply Forall_fmap. eapply Forall_impl; [done|].
    intros r Hr. by apply token_of_range_plain. }
  unfold parse_rules. rewrite trim_plain by done.
  rewrite bool_decide_false.
  2: { destruct m as [|r m]; [done|]. inv Hmb.
       destruct (token_of_range_plain r) as (_ & _ & Hne'); [done|].
       by apply join_nonempty. }
  rewrite replace_all_absent by (apply plain_str_no_char; done).
  rewrite split_on_join, scan_tokens; [|done|by destruct m|].
  - cbn. rewrite (mergeRanges_canonical m); [done..|]. by apply bounded_valid.
  - apply Forall_fmap. eapply Forall_impl; [done|]. intros r Hr. by apply token_of_range_plain.
Qed.

Lemma parse_rules_normalized_witness :
  parse_rules (normalized (parse_rules " 500-504，429, 503 - 510,, "))
  = parse_rules " 500-504，429, 503 - 510,, ".
Proof. apply (parse_rules_normalized " 500-504，429, 503 - 510,, "). by vm_compute. Defined.

Example parse_rules_example :
  normalized (parse_rules " 500-504，429, 503 - 510,, ") = "429,500-510".
Proof. by vm_compute. Qed.

End Rules.

Module Guard.

Definition NON_REDIRECTABLE_STATUS_CODES : list Z := [504; 524].

(** [/^[1-5]\d{2}$/.test(s)]. *)
Definition code_regex (s : string) : bool :=
  match chars s with
  | [a; b; c] =>
      let n := N_of_ascii a in
      (49 <=? n)%N && (n <=? 53)%N && is_digit b && is_digit c
  | _ => false
  end.

(** [parseStatusCodeKey]; the keys of [Object.entries] are strings. *)
Definition parseStatusCodeKey (rawKey : string) : option Z :=
  let normalized := trim rawKey in
  if negb (code_regex normalized) then None else Some (digits_to_Z (chars normalized)).

Definition parseStatusCodeMappingTarget (rawValue : jsval) : option Z :=
  match rawValue with
  | VNum n =>
      if is_integer n then
        if num_leb (num_of_Z 100) n && num_leb n (num_of_Z 599) then Some (num_to_Z n) else None
      else None
  | VStr s =>
      let normalized := trim s in
      if negb (code_regex normalized) then None
      else let code := digits_to_Z (chars normalized) in
           if (100 <=? code) && (code <=? 599) then Some code else None
  | _ => None
  end.

(** The entries of the mapping text, [None] for the early [return []]: the
    argument is no string or blank, the text is no JSON, or the JSON is no
    plain object. *)
Definition mapping_entries (statusCodeMappingStr : jsval) : option obj :=
  match statusCodeMappingStr with
  | VStr s =>
      if bool_decide (trim s = "") then None
      else match json_parse s with
           | Some parsed => as_plain_object parsed
           | None => None
           end
  | _ => None
  end.

Definition collectInvalidStatusCodeEntries (statusCodeMappingStr : jsval) : res (list string) :=
  match mapping_entries statusCodeMappingStr with
  | None => Ok []
  | Some entries =>
      let bad := filter (λ kv, parseStatusCodeKey kv.1 = None
                               ∨ parseStatusCodeMappingTarget kv.2 = None) entries in
      res_map (λ kv, v ← to_str kv.2; Ok (kv.1 +:+ " → " +:+ v)) bad
  end.

(** One callback of the [forEach]: the mapping it pushes, if any. *)
Definition risky_mapping (kv : string * jsval) : option string :=
  match parseStatusCodeKey kv.1, parseStatusCodeMappingTarget kv.2 with
  | Some fromCode, Some toCode =>
      if bool_decide (fromCode ∉ NON_REDIRECTABLE_STATUS_CODES) then None
      else if fromCode =? toCode then None
      else Some (pretty fromCode +:+ " -> " +:+ pretty toCode)
  | _, _ => None
  end.

Definition collectDisallowedStatusCodeRedirects (statusCodeMappingStr : jsval) : list string :=
  match mapping_entries statusCodeMappingStr with
  | None => []
  | Some entries => merge_sort String.le (uniq (omap risky_mapping entries))
  end.

Definition collectNewDisallowedStatusCodeRedirects (original current : jsval) : list string :=
  let currentRisky := collectDisallowedStatusCodeRedirects current in
  if bool_decide (currentRisky = []) then []
  else let originalRiskySet := uniq (collectDisallowedStatusCodeRedirects original) in
       filter (λ mapping, mapping ∉ originalRiskySet) currentRisky.

(** ** Specification: the redirects of a mapping text *)

(** [from] is mapped to [to] by an entry of the text. *)
Definition redirects (str : jsval) (from to : Z) : Prop :=
  ∃ entries k v, mapping_entries str = Some entries ∧ (k, v) ∈ entries ∧
    parseStatusCodeKey k = Some from ∧ parseStatusCodeMappingTarget v = Some to.

Definition risky (str : jsval) (m : string) : Prop :=
  ∃ from to, redirects str from to ∧ from ∈ NON_REDIRECTABLE_STATUS_CODES ∧ from ≠ to ∧
    m = pretty from +:+ " -> " +:+ pretty to.

Lemma risky_mapping_spec k v m :
  risky_mapping (k, v) = Some m ↔
  ∃ from to, parseStatusCodeKey k = Some from ∧ parseStatusCodeMappingTarget v = Some to ∧
    from ∈ NON_REDIRECTABLE_STATUS_CODES ∧ from ≠ to ∧ m = pretty from +:+ " -> " +:+ pretty to.
Proof.
  unfold risky_mapping. cbn [fst snd].
  destruct (parseStatusCodeKey k) as [f|], (parseStatusCodeMappingTarget v) as [t|];
    try naive_solver.
  case_bool_decide as Hf; [naive_solver|].
  destruct (Z.eqb_spec f t); naive_solver.
Qed.

Lemma elem_of_disallowed str m :
  m ∈ collectDisallowedStatusCodeRedirects str ↔ risky str m.
Proof.
  unfold collectDisallowedStatusCodeRedirects, risky, redirects.
  destruct (mapping_entries str) as [entries|]; [|set_solver].
  rewrite merge_sort_Permutation, elem_of_uniq, list_elem_of_omap.
  split.
  - intros ([k v] & ? & (f & t & ?)%risky_mapping_spec). naive_solver.
  - intros (f & t & (e & k & v & [= <-] & ? & ? & ?) & ? & ? & ->).
    exists (k, v). split; [done|]. apply risky_mapping_spec. eauto 10.
Qed.

Lemma disallowed_NoDup str : NoDup (collectDisallowedStatusCodeRedirects str).
Proof.
  unfold collectDisallowedStatusCodeRedirects.
  destruct (mapping_entries str); [|constructor].
  rewrite merge_sort_Permutation. apply NoDup_uniq.
Qed.

Lemma disallowed_sorted str :
  StronglySorted String.le (collectDisallowedStatusCodeRedirects str).
Proof.
  unfold collectDisallowedStatusCodeRedirects.
  destruct (mapping_entries str); [|constructor]. apply (StronglySorted_merge_sort _).
Qed.

(** The risky redirects reported for a mapping text are, sorted and
    without duplicates, exactly the ["from -> to"] of the entries that map
    504 or 524 to a different valid status code. *)
Theorem collectDisallowed_exact (str : jsval) :
  (∀ m, m ∈ collectDisallowedStatusCodeRedirects str ↔ risky str m) ∧
  StronglySorted String.le (collectDisallowedStatusCodeRedirects str) ∧
  NoDup (collectDisallowedStatusCodeRedirects str).
Proof.
  split_and!; [apply elem_of_disallowed|apply disallowed_sorted|apply disallowed_NoDup].
Qed.

(** An edit asks for confirmation exactly of the risky redirects it
    introduces: those of the new text that the old text does not have, so
    none is reported when the edit adds none. *)
Theorem collectNew_exact (original current : jsval) :
  (∀ m, m ∈ collectNewDisallowedStatusCodeRedirects original current ↔
        risky current m ∧ ¬ risky original m) ∧
  (collectNewDisallowedStatusCodeRedirects original current = [] ↔
     ∀ m, risky current m → risky original m).
Proof.
  assert (H : ∀ m, m ∈ collectNewDisallowedStatusCodeRedirects original current ↔
        risky current m ∧ ¬ risky original m).
  { intros m. unfold collectNewDisallowedStatusCodeRedirects.
    case_bool_decide as Hc.
    - rewrite <-(elem_of_disallowed current), Hc. set_solver.
    - rewrite list_elem_of_filter, elem_of_uniq, !elem_of_disallowed. naive_solver. }
  split; [done|]. split.
  - intros E m Hm. destruct (decide (m ∈ collectDisallowedStatusCodeRedirects original)) as [Hi|Hn].
    + by apply elem_of_disallowed.
    + rewrite elem_of_disallowed in Hn. specialize (H m). rewrite E in H. set_solver.
  - intros Hall. apply elem_of_nil_inv. intros m [??]%H. naive_solver.
Qed.

Example collectDisallowed_example :
  collectDisallowedStatusCodeRedirects
    (VStr (qtext "{'524':'200','504':200,'429':'500',' 504 ':504,'x':1}"))
  = ["504 -> 200"; "524 -> 200"].
Proof. by vm_compute. Qed.

End Guard.
