(* ===== verification/ParamOverride.v ===== *)
(** * Parameter override rules: data, drafts and normalisation

    The module-level part of
    [web/src/components/table/channels/modals/ParamOverrideEditorModal.jsx]:
    the operation and condition modes with what each mode needs
    ([MODE_META]), the conversions between stored JSON and the text fields
    of the editor, and the drafts of the two structured value editors
    ([return_error], [prune_objects]).

    Local ids are [`param_override_${Date.now()}_${localIdSeed++}`]: the seed
    is the state of the computations, and [now n] is what [Date.now()]
    returns at the call that uses seed [n], an arbitrary function. *)
From Stdlib Require Import Ascii SpecFloat.
From S2P Require Import Prelude JsString JsNumber JsValue Json JsonRoundtrip.

(** ** Modes *)

(** [OPERATION_MODE_OPTIONS] as (value, label). *)
Definition OPERATION_MODE_OPTIONS : list (string * string) :=
  [("set", "设置字段"); ("delete", "删除字段"); ("append", "追加到末尾");
   ("prepend", "追加到开头"); ("copy", "复制字段"); ("move", "移动字段");
   ("replace", "字符串替换"); ("regex_replace", "正则替换"); ("trim_prefix", "裁剪前缀");
   ("trim_suffix", "裁剪后缀"); ("ensure_prefix", "确保前缀"); ("ensure_suffix", "确保后缀");
   ("trim_space", "去掉空白"); ("to_lower", "转小写"); ("to_upper", "转大写");
   ("return_error", "返回自定义错误"); ("prune_objects", "清理对象项");
   ("pass_headers", "请求头透传"); ("sync_fields", "字段同步"); ("set_header", "设置请求头");
   ("delete_header", "删除请求头"); ("copy_header", "复制请求头"); ("move_header", "移动请求头")].
Definition OPERATION_MODE_VALUES : list string := OPERATION_MODE_OPTIONS.*1.

Definition CONDITION_MODE_VALUES : list string :=
  ["full"; "prefix"; "suffix"; "contains"; "gt"; "gte"; "lt"; "lte"].

(** What the fields of a mode mean; an absent flag is falsy. *)
Record mode_meta := MkMeta {
  m_path : bool; m_pathOptional : bool; m_value : bool; m_keepOrigin : bool;
  m_from : bool; m_to : bool; m_pathAlias : bool }.

Definition meta_path := MkMeta true false false false false false false.
Definition meta_set := MkMeta true false true true false false false.
Definition meta_from_to := MkMeta false false false false true true false.
Definition meta_replace := MkMeta true false false false true false false.
Definition meta_affix := MkMeta true false true false false false false.
Definition meta_header_copy := MkMeta false false false true true true true.

Definition MODE_META : list (string * mode_meta) :=
  [("delete", meta_path); ("set", meta_set); ("append", meta_set); ("prepend", meta_set);
   ("copy", meta_from_to); ("move", meta_from_to);
   ("replace", meta_replace); ("regex_replace", meta_replace);
   ("trim_prefix", meta_affix); ("trim_suffix", meta_affix);
   ("ensure_prefix", meta_affix); ("ensure_suffix", meta_affix);
   ("trim_space", meta_path); ("to_lower", meta_path); ("to_upper", meta_path);
   ("return_error", MkMeta false false true false false false false);
   ("prune_objects", MkMeta false true true false false false false);
   ("pass_headers", MkMeta false false true true false false false);
   ("sync_fields", meta_from_to); ("set_header", meta_set); ("delete_header", meta_path);
   ("copy_header", meta_header_copy); ("move_header", meta_header_copy)].

(** [MODE_META[mode] || MODE_META.set]. *)
Definition mode_meta_of (mode : string) : mode_meta := default meta_set (obj_get MODE_META mode).

Definition VALUE_REQUIRED_MODES : list string :=
  ["trim_prefix"; "trim_suffix"; "ensure_prefix"; "ensure_suffix"; "set_header";
   "return_error"; "prune_objects"; "pass_headers"].
Definition FROM_REQUIRED_MODES : list string :=
  ["copy"; "move"; "replace"; "regex_replace"; "copy_header"; "move_header"; "sync_fields"].
Definition TO_REQUIRED_MODES : list string :=
  ["copy"; "move"; "copy_header"; "move_header"; "sync_fields"].

(** ** Editor rows *)

(** A condition of an operation, or a rule of a [prune_objects] draft (the
    two normalisers build the same fields). *)
Record condition := Condition {
  c_id : string; c_path : string; c_mode : string; c_value_text : string;
  c_invert : bool; c_pass_missing_key : bool }.

Record operation := Operation {
  id : string; description : string; path : string; mode : string; value_text : string;
  keep_origin : bool; from : string; to : string; logic : string;
  conditions : list condition }.

#[export] Instance condition_eq_dec : EqDecision condition.
Proof. solve_decision. Defined.
#[export] Instance operation_eq_dec : EqDecision operation.
Proof. solve_decision. Defined.

(** ** Values and texts *)

(** [toValueText(value)]; [JSON.stringify] does not throw on JSON data. *)
Definition toValueText (value : jsval) : string :=
  match value with
  | VUndef => ""
  | VStr s => s
  | _ => stringify value
  end.

Definition parseLooseValue (valueText : string) : jsval :=
  if bool_decide (trim valueText = "") then VStr ""
  else default (VStr valueText) (json_parse valueText).

(** [.map((item) => String(item ?? '').trim()).filter(Boolean)]. *)
Definition header_list (items : list jsval) : res (list string) :=
  names ← res_map (λ item, s ← to_str (js_nullish item (VStr "")); Ok (trim s)) items;
  Ok (filter (λ n, n ≠ "") names).

Definition parsePassHeaderNames (rawValue : jsval) : res (list string) :=
  match rawValue with
  | VArr l => header_list l
  | VObj _ =>
      match prop_opt rawValue "headers" with
      | VArr l => header_list l
      | _ =>
          let header := prop_opt rawValue "header" in
          if is_undef header then Ok []
          else s ← to_str (js_nullish header (VStr ""));
               let single := trim s in
               Ok (if bool_decide (single = "") then [] else [single])
      end
  | VStr s => Ok (filter (λ n, n ≠ "") (trim <$> split_on "," s))
  | _ => Ok []
  end.

(** [typeof v === 'string' ? v : '']. *)
Definition str_or_empty (v : jsval) : string := match v with VStr s => s | _ => "" end.

(** [set.has(v) ? v : d] for a set of strings. *)
Definition str_in_or (set : list string) (v : jsval) (d : string) : string :=
  match v with VStr s => if bool_decide (s ∈ set) then s else d | _ => d end.

(** [String(v || d).toUpperCase() === w ? w : d]: only ASCII letters map to
    the letters of [w]. *)
Definition upper_choice (v : jsval) (d w : string) : res string :=
  s ← to_str (js_or v (VStr d)); Ok (if bool_decide (to_upper s = w) then w else d).

(** ** [return_error] drafts *)

Record return_error_draft := ReturnErrorDraft {
  message : string; statusCode : num; code : string; type : string;
  skipRetry : bool; re_simpleMode : bool }.

Definition status_in_range (n : num) : bool :=
  is_integer n && num_leb (num_of_Z 100) n && num_leb n (num_of_Z 599).

Definition re_defaults : return_error_draft :=
  ReturnErrorDraft "" (num_of_Z 400) "" "" true true.

(** The [try] body for a parsed plain object. *)
Definition return_error_of_object (parsed : jsval) : res return_error_draft :=
  let status := prop_opt parsed "status_code" in
  let statusRaw := if negb (is_undef status) then status else prop_opt parsed "status" in
  statusValue ← to_num statusRaw;
  msg ← to_str (js_or (js_or (prop_opt parsed "message") (prop_opt parsed "msg")) (VStr ""));
  code ← to_str (js_or (prop_opt parsed "code") (VStr ""));
  type ← to_str (js_or (prop_opt parsed "type") (VStr ""));
  Ok (ReturnErrorDraft (trim msg)
        (if status_in_range statusValue then statusValue else num_of_Z 400)
        (trim code) (trim type) (negb (is_false (prop_opt parsed "skip_retry"))) false).

Definition parseReturnErrorDraft (valueText : string) : return_error_draft :=
  let raw := trim valueText in
  if bool_decide (raw = "") then re_defaults
  else
    let plain_text := ReturnErrorDraft raw (num_of_Z 400) "" "" true true in
    match json_parse raw with
    | Some (VObj o) =>
        match return_error_of_object (VObj o) with Ok d => d | Throw _ => plain_text end
    | _ => plain_text
    end.

Definition buildReturnErrorValueText (draft : return_error_draft) : string :=
  let message := trim (message draft) in
  if re_simpleMode draft then message
  else
    let statusCode := statusCode draft in
    let payload := [("message", VStr message);
                    ("status_code", VNum (if status_in_range statusCode then statusCode
                                          else num_of_Z 400))] in
    let code := trim (code draft) in
    let type := trim (type draft) in
    let payload := if bool_decide (code = "") then payload else obj_set "code" (VStr code) payload in
    let payload := if bool_decide (type = "") then payload else obj_set "type" (VStr type) payload in
    let payload := if skipRetry draft then payload
                   else obj_set "skip_retry" (VBool false) payload in
    stringify (VObj payload).

(** ** Sync targets *)

Record sync_target := SyncTarget { st_type : string; st_key : string }.

(** The parts of [s] before and after the first [c]: [indexOf] and [slice]. *)
Fixpoint break_on (c : ascii) (s : string) : option (string * string) :=
  match s with
  | EmptyString => None
  | String a s => if decide (a = c) then Some ("", s)
                  else match break_on c s with
                       | Some (p, r) => Some (String a p, r)
                       | None => None
                       end
  end.

Definition parseSyncTargetSpec (spec : string) : sync_target :=
  let raw := trim spec in
  if bool_decide (raw = "") then SyncTarget "json" ""
  else match break_on ":" raw with
       | None => SyncTarget "json" raw
       | Some (before, after) =>
           let prefix := to_lower (trim before) in
           let key := trim after in
           if bool_decide (prefix = "header") then SyncTarget "header" key
           else SyncTarget "json" key
       end.

Definition buildSyncTargetSpec (type key : string) : string :=
  let normalizedType := if bool_decide (type = "header") then "header" else "json" in
  let normalizedKey := trim key in
  if bool_decide (normalizedKey = "") then "" else normalizedType +:+ ":" +:+ normalizedKey.

(** ** Computations that draw local ids *)

Record prune_draft := PruneDraft {
  pd_simpleMode : bool; typeText : string; pd_logic : string; recursive : bool;
  rules : list condition }.

Definition pd_defaults : prune_draft := PruneDraft true "" "AND" true [].

Section ids.
Context (now : N → Z).

(** The id drawn at seed [n]. *)
Definition local_id (n : N) : string :=
  "param_override_" +:+ pretty (now n) +:+ "_" +:+ pretty n.

Definition nextLocalId : st N string := λ seed, (Ok (local_id seed), (seed + 1)%N).

(** The shared body of [normalizePruneRule] and [normalizeCondition]: a
    missing argument is [{}], [null] throws at the first property read. *)
Definition normalizeCondition (arg : jsval) : st N condition :=
  let arg := if is_undef arg then VObj [] else arg in
  id ← nextLocalId;
  p ← st_lift (prop arg "path");
  let read := prop_opt arg in
  mret (Condition id (str_or_empty p)
         (str_in_or CONDITION_MODE_VALUES (read "mode") "full")
         (toValueText (read "value")) (is_true (read "invert"))
         (is_true (read "pass_missing_key"))).

Definition normalizePruneRule (rule : jsval) : st N condition :=
  normalizeCondition rule.

Definition createDefaultCondition : st N condition := normalizeCondition (VObj []).

Definition normalizeOperation (arg : jsval) : st N operation :=
  let arg := if is_undef arg then VObj [] else arg in
  id ← nextLocalId;
  d ← st_lift (prop arg "description");
  let read := prop_opt arg in
  logic ← st_lift (upper_choice (read "logic") "OR" "AND");
  conditions ← match read "conditions" with
               | VArr l => st_map normalizeCondition l
               | _ => mret []
               end;
  mret (Operation id (str_or_empty d) (str_or_empty (read "path"))
         (str_in_or OPERATION_MODE_VALUES (read "mode") "set")
         (toValueText (read "value")) (is_true (read "keep_origin"))
         (str_or_empty (read "from")) (str_or_empty (read "to"))
         logic conditions).

Definition createDefaultOperation : st N operation :=
  normalizeOperation (VObj [("mode", VStr "set")]).

(** The rules of an object of [path: value] pairs. *)
Definition prune_rules_of_object (o : obj) : st N (list condition) :=
  st_map (λ kv : string * jsval,
    normalizePruneRule (VObj [("path", VStr kv.1); ("mode", VStr "full"); ("value", kv.2)])) o.

(** The [try] body of [parsePruneObjectsDraft] for a parsed plain object. *)
Definition prune_draft_of_object (parsed : jsval) : st N prune_draft :=
  let read := prop_opt parsed in
  where_rules ← match read "where" with
                | VObj o => prune_rules_of_object o
                | _ => mret []
                end;
  condition_rules ← match read "conditions" with
                    | VArr l => st_map normalizePruneRule
                                  (filter (λ item, truthy item && typeof_object item) l)
                    | VObj o => prune_rules_of_object o
                    | _ => mret []
                    end;
  typeText ← match read "type" with
             | VUndef => mret ""
             | v => s ← st_lift (to_str v); mret (trim s)
             end;
  logic ← st_lift (upper_choice (read "logic") "AND" "OR");
  let hasAdvancedFields :=
    negb (is_undef (read "logic")) || negb (is_undef (read "recursive"))
    || negb (is_undef (read "where")) || negb (is_undef (read "conditions")) in
  mret (PruneDraft (negb hasAdvancedFields) typeText logic
         (negb (is_false (read "recursive"))) (where_rules ++ condition_rules)).

Definition parsePruneObjectsDraft (valueText : string) : st N prune_draft :=
  let raw := trim valueText in
  let simple t := PruneDraft true t "AND" true [] in
  if bool_decide (raw = "") then mret pd_defaults
  else
    st_catch
      match json_parse raw with
      | None => st_throw "SyntaxError"
      | Some (VStr s) => mret (simple (trim s))
      | Some (VObj o) => prune_draft_of_object (VObj o)
      | Some parsed => s ← st_lift (to_str (js_nullish parsed (VStr ""))); mret (simple (trim s))
      end
      (λ _, mret (simple raw)).
End ids.

Definition prune_condition_payload (rule : condition) : jsval :=
  let payload := [("path", VStr (trim (c_path rule)));
                  ("mode", VStr (str_in_or CONDITION_MODE_VALUES (VStr (c_mode rule)) "full"))] in
  let valueRaw := trim (c_value_text rule) in
  let payload := if bool_decide (valueRaw = "") then payload
                 else obj_set "value" (parseLooseValue valueRaw) payload in
  let payload := if c_invert rule then obj_set "invert" (VBool true) payload else payload in
  let payload := if c_pass_missing_key rule
                 then obj_set "pass_missing_key" (VBool true) payload else payload in
  VObj payload.

Definition buildPruneObjectsValueText (draft : prune_draft) : string :=
  let typeText := trim (typeText draft) in
  if pd_simpleMode draft then typeText
  else
    let payload : obj := if bool_decide (typeText = "") then [] else [("type", VStr typeText)] in
    let logic := if bool_decide (pd_logic draft = "") then "AND" else pd_logic draft in
    let payload := if bool_decide (to_upper logic = "OR")
                   then obj_set "logic" (VStr "OR") payload else payload in
    let payload := if recursive draft then payload
                   else obj_set "recursive" (VBool false) payload in
    let conditions :=
      prune_condition_payload <$> filter (λ rule, trim (c_path rule) ≠ "") (rules draft) in
    let payload := match conditions with
                   | [] => payload
                   | _ => obj_set "conditions" (VArr conditions) payload
                   end in
    if bool_decide (obj_get payload "type" = None) && bool_decide (obj_get payload "conditions" = None)
    then stringify (VObj [("logic", VStr "AND")])
    else stringify (VObj payload).

(** ** Ids *)

Section id_facts.
Context (now : N → Z).

#[export] Instance local_id_inj : Inj (=) (=) (local_id now).
Proof.
  intros n m E. unfold local_id in E. apply (inj (String.app _)) in E.
  apply (after_last_inj "_") in E; [by apply (inj pretty) in E|..];
    (apply digits_no_char; [done|apply pretty_N_digits]).
Qed.

(** [i] was drawn at a seed in [[s, s')]. *)
Definition drawn (s s' : N) (i : string) : Prop := ∃ k, i = local_id now k ∧ (s ≤ k < s')%N.

Lemma local_id_nonempty n : local_id now n ≠ "".
Proof. done. Qed.

Lemma drawn_mono s0 s s' s1 i : (s0 ≤ s)%N → (s' ≤ s1)%N → drawn s s' i → drawn s0 s1 i.
Proof. intros ?? (k & -> & ?). exists k. split; [done|lia]. Qed.

Lemma drawn_disjoint s s' s'' i j : drawn s s' i → drawn s' s'' j → i ≠ j.
Proof. intros (k & -> & ?) (k' & -> & ?) E%(inj _). lia. Qed.

(** The ids [[local_id s; local_id (s+1); ...]] of [n] draws from [s]. *)
Definition ids_from (s : N) (n : nat) : list string :=
  (λ i, local_id now (s + N.of_nat i)%N) <$> seq 0 n.

Lemma ids_from_S s n : ids_from s (S n) = local_id now s :: ids_from (s + 1) n.
Proof.
  unfold ids_from. cbn [seq fmap list_fmap]. rewrite N.add_0_r. f_equal.
  rewrite <-fmap_S_seq. change (list_fmap nat string) with (@fmap list _ nat string).
  rewrite <-list_fmap_compose. apply list_fmap_ext. intros i x _. cbn. f_equal. lia.
Qed.

Lemma ids_from_drawn s n : Forall (drawn s (s + N.of_nat n)) (ids_from s n).
Proof.
  apply Forall_fmap, Forall_forall. intros i [_ ?]%elem_of_seq. cbn.
  eexists. split; [done|lia].
Qed.

Lemma ids_from_NoDup s n : NoDup (ids_from s n).
Proof.
  unfold ids_from. apply NoDup_fmap_2_strong; [|apply NoDup_seq].
  intros i j _ _ E%(inj _). lia.
Qed.

Lemma str_in_or_elem set v d : d ∈ set → str_in_or set v d ∈ set.
Proof. intros. unfold str_in_or. destruct v; try done. by case_bool_decide. Qed.

Lemma default_modes : "full" ∈ CONDITION_MODE_VALUES ∧ "set" ∈ OPERATION_MODE_VALUES.
Proof. split; apply (bool_decide_unpack _); by vm_compute. Qed.

(** A condition that is not [null] is normalised with one draw. *)
Lemma normalizeCondition_run v s :
  match normalizeCondition now v s with
  | (Ok c, s') => c_id c = local_id now s ∧ s' = (s + 1)%N ∧ c_mode c ∈ CONDITION_MODE_VALUES
  | (Throw _, s') => v = VNull ∧ s' = (s + 1)%N
  end.
Proof.
  pose proof (λ m, str_in_or_elem _ m _ (proj1 default_modes)) as Hm.
  unfold normalizeCondition, mbind, st_bind, nextLocalId, st_lift, mret, st_ret.
  destruct v; cbn [is_undef prop c_id c_mode]; (split_and!; [done..|apply Hm]) || done.
Qed.

Lemma st_map_conditions l s cs s' :
  st_map (normalizeCondition now) l s = (Ok cs, s') →
  c_id <$> cs = ids_from s (length l) ∧ s' = (s + N.of_nat (length l))%N.
Proof.
  revert s cs s'. induction l as [|v l IH]; intros s cs s'; cbn [st_map].
  - intros E. unfold mret, st_ret in E. simplify_eq. split; [done|cbn; lia].
  - intros (c & s1 & H1 & (cs' & s2 & H2 & E)%st_bind_inv)%st_bind_inv.
    unfold mret, st_ret in E. simplify_eq.
    pose proof (normalizeCondition_run v s) as Hr. rewrite H1 in Hr. destruct Hr as (Hid & -> & _).
    apply IH in H2 as [Hcs ->]. cbn [length fmap list_fmap].
    rewrite ids_from_S, Hid. split; [by rewrite <-Hcs|lia].
Qed.

Definition op_ids (op : operation) : list string := id op :: (c_id <$> conditions op).

Lemma normalizeOperation_run v s op s' :
  normalizeOperation now v s = (Ok op, s') →
  op_ids op = ids_from s (length (op_ids op)) ∧ s' = (s + N.of_nat (length (op_ids op)))%N ∧
  mode op ∈ OPERATION_MODE_VALUES.
Proof.
  unfold normalizeOperation. set (arg := if is_undef v then VObj [] else v).
  intros (i & s1 & E1 & H)%st_bind_inv. unfold nextLocalId in E1. simplify_eq.
  apply st_bind_inv in H as (d & s2 & E2 & H). unfold st_lift in E2. simplify_eq.
  apply st_bind_inv in H as (lg & s3 & E3 & H). unfold st_lift in E3. simplify_eq.
  apply st_bind_inv in H as (cs & s4 & E4 & H). unfold mret, st_ret in H. simplify_eq.
  assert (Hc : c_id <$> cs = ids_from (s + 1) (length cs) ∧ s' = (s + 1 + N.of_nat (length cs))%N).
  { destruct (prop_opt arg "conditions");
      try (unfold mret, st_ret in E4; simplify_eq; split; [done|cbn; lia]).
    pose proof (st_map_conditions _ _ _ _ E4) as [Hi ->].
    assert (length cs = length l) as ->; [|done].
    apply (f_equal length) in Hi. unfold ids_from in Hi.
    by rewrite !length_fmap, length_seq in Hi. }
  destruct Hc as [Hc ->]. unfold op_ids. cbn [id conditions length].
  rewrite length_fmap, ids_from_S, Hc. split_and!; [done|lia|].
  apply str_in_or_elem, default_modes.
Qed.
End id_facts.

(** ** Draft round trips *)

#[local] Arguments status_in_range : simpl never.
#[local] Arguments num_of_Z : simpl never.
#[local] Arguments trim : simpl never.

(** What the [return_error] editor keeps of a draft. *)
Definition status_or_400 (n : num) : num := if status_in_range n then n else num_of_Z 400.

Definition normal_draft (d : return_error_draft) : return_error_draft :=
  ReturnErrorDraft (trim (message d)) (status_or_400 (statusCode d))
    (trim (code d)) (trim (type d)) (skipRetry d) false.

Lemma status_or_400_ok n :
  is_double n → num_ok (status_or_400 n) = true ∧ status_in_range (status_or_400 n) = true.
Proof.
  intros Hd. unfold status_or_400. destruct (status_in_range n) eqn:E; [|done].
  split; [|done]. unfold status_in_range in E.
  apply andb_true_iff in E as [[Hi Hl]%andb_true_iff Hh].
  destruct (status_num n Hd Hi Hl Hh) as (z & Hz & ->). by apply num_ok_status.
Qed.

(** The payload of an advanced draft. *)
Definition return_error_payload (d : return_error_draft) : obj :=
  [("message", VStr (trim (message d))); ("status_code", VNum (status_or_400 (statusCode d)))]
  ++ (if bool_decide (trim (code d) = "") then [] else [("code", VStr (trim (code d)))])
  ++ (if bool_decide (trim (type d) = "") then [] else [("type", VStr (trim (type d)))])
  ++ (if skipRetry d then [] else [("skip_retry", VBool false)]).

Lemma build_return_error_payload d :
  re_simpleMode d = false →
  buildReturnErrorValueText d = stringify (VObj (return_error_payload d)).
Proof.
  intros Hs. unfold buildReturnErrorValueText, return_error_payload. rewrite Hs.
  by repeat case_bool_decide; destruct (skipRetry d).
Qed.

Lemma return_error_payload_ok d :
  is_double (statusCode d) → json_ok (VObj (return_error_payload d)) = true.
Proof.
  intros [Hn _]%status_or_400_ok. rewrite json_ok_obj. unfold return_error_payload.
  by repeat case_bool_decide; destruct (skipRetry d); cbn; rewrite Hn.
Qed.

Lemma js_or_str s : js_or (VStr s) (VStr "") = VStr s.
Proof. unfold js_or; cbn. by case_bool_decide; subst. Qed.
Lemma js_or_str_undef s : js_or (js_or (VStr s) VUndef) (VStr "") = VStr s.
Proof. unfold js_or; cbn. by case_bool_decide; subst; cbn; rewrite ?bool_decide_false. Qed.
Lemma js_or_undef v : js_or VUndef v = v.
Proof. done. Qed.

Lemma return_error_of_payload d :
  is_double (statusCode d) →
  return_error_of_object (VObj (return_error_payload d)) = Ok (normal_draft d).
Proof.
  intros [_ Hr]%status_or_400_ok.
  unfold return_error_of_object, return_error_payload, normal_draft.
  assert (He : trim "" = "") by done.
  repeat case_bool_decide; destruct (skipRetry d); cbn [prop_opt]; js_keys;
    cbn [from_option Datatypes.id is_undef negb];
    rewrite ?js_or_str_undef, ?js_or_str, ?js_or_undef; cbn [to_num to_str is_undef negb mbind res_bind];
    rewrite Hr, ?trim_idemp, ?He; cbn; congruence.
Qed.

(** The advanced [return_error] editor loses nothing it shows: the value
    text built from a draft parses back to the draft with its texts trimmed
    and an out-of-range status code replaced by 400. *)
Theorem return_error_roundtrip (d : return_error_draft) :
  re_simpleMode d = false → is_double (statusCode d) →
  parseReturnErrorDraft (buildReturnErrorValueText d) = normal_draft d.
Proof.
  intros Hs Hd. rewrite build_return_error_payload by done.
  pose proof (return_error_payload_ok d Hd) as Hok.
  unfold parseReturnErrorDraft, stringify. cbn zeta.
  rewrite trim_print_obj by (by auto using json_ok_obj_values).
  rewrite json_parse_print by done.
  rewrite return_error_of_payload by done. rewrite bool_decide_false; [done|].
  rewrite print_obj by (by auto using json_ok_obj_values). done.
Qed.

Lemma return_error_roundtrip_witness :
  parseReturnErrorDraft (buildReturnErrorValueText
    (ReturnErrorDraft " no " (num_of_Z 429) "rate_limited" "" false false))
  = ReturnErrorDraft "no" (num_of_Z 429) "rate_limited" "" false false.
Proof.
  rewrite (return_error_roundtrip
    (ReturnErrorDraft " no " (num_of_Z 429) "rate_limited" "" false false));
    [by vm_compute|done|by vm_compute].
Defined.

(** A sync endpoint survives the text form exactly when its key is not
    blank; with a blank key the chosen endpoint type is lost and reads back
    as a [json] endpoint. *)
Theorem sync_target_roundtrip (type key : string) :
  parseSyncTargetSpec (buildSyncTargetSpec type key) =
  if bool_decide (trim key = "") then SyncTarget "json" ""
  else SyncTarget (if bool_decide (type = "header") then "header" else "json") (trim key).
Proof.
  unfold buildSyncTargetSpec. case_bool_decide as Hk; [done|].
  unfold parseSyncTargetSpec.
  set (ty := if bool_decide (type = "header") then "header" else "json").
  assert (Ht : trim (ty +:+ ":" +:+ trim key) = ty +:+ ":" +:+ trim key).
  { change (ty +:+ ":" +:+ trim key) with (ty +:+ (String ":" (trim key))).
    replace (ty +:+ String ":" (trim key)) with ((ty +:+ ":") +:+ trim key)
      by (unfold ty; by case_bool_decide).
    apply trim_plain_prefix; [unfold ty; by case_bool_decide..|apply trim_idemp|done]. }
  rewrite Ht. unfold ty. destruct (bool_decide (type = _)); rewrite bool_decide_false by (intros E; discriminate E).
  - change (break_on ":" ("header" +:+ ":" +:+ trim key)) with (Some ("header", trim key)).
    cbn. by rewrite trim_idemp.
  - change (break_on ":" ("json" +:+ ":" +:+ trim key)) with (Some ("json", trim key)).
    cbn. by rewrite trim_idemp.
Qed.

(** ** [prune_objects] drafts *)

Definition kept_rules (d : prune_draft) : list condition :=
  filter (λ rule, trim (c_path rule) ≠ "") (rules d).

(** A rule as it reads back, under a new id. *)
Definition norm_rule (new_id : string) (c : condition) : condition :=
  Condition new_id (trim (c_path c)) (str_in_or CONDITION_MODE_VALUES (VStr (c_mode c)) "full")
    (if bool_decide (trim (c_value_text c) = "") then ""
     else toValueText (parseLooseValue (trim (c_value_text c))))
    (c_invert c) (c_pass_missing_key c).

Definition upper_logic (d : prune_draft) : string :=
  if bool_decide (to_upper (if bool_decide (pd_logic d = "") then "AND" else pd_logic d) = "OR")
  then "OR" else "AND".

(** The payload of an advanced draft that has a type or a rule. *)
Definition prune_payload (d : prune_draft) : obj :=
  (if bool_decide (trim (typeText d) = "") then [] else [("type", VStr (trim (typeText d)))])
  ++ (if bool_decide (upper_logic d = "OR") then [("logic", VStr "OR")] else [])
  ++ (if recursive d then [] else [("recursive", VBool false)])
  ++ (match kept_rules d with
      | [] => []
      | l => [("conditions", VArr (prune_condition_payload <$> l))]
      end).

Definition rule_value_ok (c : condition) : Prop :=
  json_ok (parseLooseValue (trim (c_value_text c))) = true.

Section prune_facts.
Context (now : N → Z).

Definition renumber : N → list condition → list condition :=
  seeded (λ s c, norm_rule (local_id now s) c) (λ _, 1%N).

Lemma normalize_payload c s :
  normalizePruneRule now (prune_condition_payload c) s
  = (Ok (norm_rule (local_id now s) c), (s + 1)%N).
Proof.
  unfold normalizePruneRule, normalizeCondition, prune_condition_payload, norm_rule.
  assert (Hm : str_in_or CONDITION_MODE_VALUES
    (VStr (str_in_or CONDITION_MODE_VALUES (VStr (c_mode c)) "full")) "full"
    = str_in_or CONDITION_MODE_VALUES (VStr (c_mode c)) "full").
  { unfold str_in_or at 1. rewrite bool_decide_true; [done|].
    apply str_in_or_elem, default_modes. }
  case_bool_decide as Hv; destruct (c_invert c), (c_pass_missing_key c);
    js_obj; cbn [prop_opt prop is_undef]; js_keys;
    unfold mbind, st_bind, nextLocalId, st_lift, mret, st_ret;
    cbn [from_option Datatypes.id str_or_empty is_true]; by rewrite Hm.
Qed.

Lemma st_map_payloads l s :
  st_map (normalizePruneRule now) (prune_condition_payload <$> l) s
  = (Ok (renumber s l), (s + N.of_nat (length l))%N).
Proof.
  rewrite <-total_one. apply st_map_seeded. intros c s' _. apply normalize_payload.
Qed.

Lemma prune_condition_payload_ok c :
  rule_value_ok c → json_ok (prune_condition_payload c) = true.
Proof.
  intros Hv. unfold prune_condition_payload, rule_value_ok in *.
  rewrite json_ok_obj.
  case_bool_decide; destruct (c_invert c), (c_pass_missing_key c);
    js_obj; cbn [forallb snd json_ok]; by rewrite ?Hv.
Qed.

Lemma prune_payload_ok d :
  Forall rule_value_ok (kept_rules d) → json_ok (VObj (prune_payload d)) = true.
Proof.
  intros HF. rewrite json_ok_obj. unfold prune_payload.
  assert (Hc : json_ok (VArr (prune_condition_payload <$> kept_rules d)) = true).
  { rewrite json_ok_arr. apply forallb_forall. intros v.
    rewrite <-list_elem_of_In. intros (c & -> & Hin)%list_elem_of_fmap.
    rewrite Forall_forall in HF. auto using prune_condition_payload_ok. }
  repeat case_bool_decide; destruct (recursive d), (kept_rules d) as [|c l];
    cbn [app forallb snd]; rewrite ?Hc; done.
Qed.

Lemma build_prune_payload d :
  pd_simpleMode d = false → trim (typeText d) ≠ "" ∨ kept_rules d ≠ [] →
  buildPruneObjectsValueText d = stringify (VObj (prune_payload d)).
Proof.
  intros Hs Hne. unfold buildPruneObjectsValueText, prune_payload, upper_logic. rewrite Hs.
  fold (kept_rules d).
  destruct (bool_decide (to_upper _ = "OR")), (bool_decide_reflect (trim (typeText d) = "")),
    (recursive d), (kept_rules d) as [|c l]; (destruct Hne; done) || (js_obj; done).
Qed.

(** Whether the draft that reads back is in simple mode. *)
Definition reads_simple (d : prune_draft) : bool :=
  bool_decide (upper_logic d = "AND") && recursive d && bool_decide (kept_rules d = []).

Lemma upper_logic_cases d : upper_logic d = "OR" ∨ upper_logic d = "AND".
Proof. unfold upper_logic. case_bool_decide; auto. Qed.

Lemma filter_payloads (l : list condition) :
  filter (λ item, truthy item && typeof_object item) (prune_condition_payload <$> l)
  = prune_condition_payload <$> l.
Proof. apply filter_all. intros v (c & -> & _)%list_elem_of_fmap. done. Qed.

Lemma read_payloads c l s :
  st_map (normalizePruneRule now)
    (filter (λ item, truthy item && typeof_object item)
       (prune_condition_payload c :: (prune_condition_payload <$> l))) s
  = (Ok (renumber s (c :: l)), (s + N.of_nat (length (c :: l)))%N).
Proof.
  change (prune_condition_payload c :: (prune_condition_payload <$> l))
    with (prune_condition_payload <$> (c :: l)).
  by rewrite filter_payloads, st_map_payloads.
Qed.

Lemma prune_draft_of_payload d s :
  prune_draft_of_object now (VObj (prune_payload d)) s =
  (Ok (PruneDraft (reads_simple d) (trim (typeText d)) (upper_logic d) (recursive d)
         (renumber s (kept_rules d))), (s + N.of_nat (length (kept_rules d)))%N).
Proof.
  unfold prune_draft_of_object, prune_payload, reads_simple.
  assert (H0 : (s + N.of_nat 0)%N = s) by lia.
  destruct (upper_logic_cases d) as [-> | ->],
    (bool_decide_reflect (trim (typeText d) = "")) as [Ht|Ht],
    (recursive d), (kept_rules d) as [|c l];
    cbn [prop_opt bool_decide]; rewrite ?(bool_decide_true ("OR" = "OR")) by done;
    rewrite ?(bool_decide_false ("AND" = "OR")) by done; js_keys;
    cbn [from_option Datatypes.id]; unfold mbind, st_bind, mret, st_ret, st_lift;
    rewrite ?read_payloads; cbn [to_str length]; rewrite ?H0, ?trim_idemp, ?Ht; done.
Qed.

(** An advanced [prune_objects] draft that names a type or a rule
    reads back from its value text with the same type, logic and recursion,
    its rules with a non-blank path in order under new ids, and in advanced
    mode unless it has no rule, logic AND and recursion on. *)
Theorem prune_draft_roundtrip (d : prune_draft) (s : N) :
  pd_simpleMode d = false → trim (typeText d) ≠ "" ∨ kept_rules d ≠ [] →
  Forall rule_value_ok (kept_rules d) →
  parsePruneObjectsDraft now (buildPruneObjectsValueText d) s =
  (Ok (PruneDraft (reads_simple d) (trim (typeText d)) (upper_logic d) (recursive d)
         (renumber s (kept_rules d))), (s + N.of_nat (length (kept_rules d)))%N).
Proof.
  intros Hs Hne HF. rewrite build_prune_payload by done.
  pose proof (prune_payload_ok d HF) as Hok.
  assert (Hp : prune_payload d ≠ []).
  { unfold prune_payload. destruct Hne; repeat case_bool_decide;
      destruct (recursive d), (kept_rules d); simpl; congruence. }
  unfold parsePruneObjectsDraft, stringify. cbn zeta.
  rewrite trim_print_obj by (by auto using json_ok_obj_values).
  rewrite bool_decide_false by (by rewrite print_obj by auto using json_ok_obj_values).
  rewrite json_parse_print by done. unfold st_catch. by rewrite prune_draft_of_payload.
Qed.

(** An advanced draft with neither a type nor a rule with a non-blank
    path collapses: whatever logic and recursion were chosen and whatever
    blank rules were added, the stored text is the same and reads back with
    logic AND, recursion on and no rule. *)
Theorem prune_draft_collapses (d : prune_draft) (s : N) :
  pd_simpleMode d = false → trim (typeText d) = "" → kept_rules d = [] →
  parsePruneObjectsDraft now (buildPruneObjectsValueText d) s
  = (Ok (PruneDraft false "" "AND" true []), s).
Proof.
  intros Hs Ht Hk.
  assert (buildPruneObjectsValueText d = qtext "{'logic':'AND'}") as ->.
  { unfold buildPruneObjectsValueText. fold (kept_rules d). rewrite Hs, Ht, Hk.
    rewrite (bool_decide_true ("" = "")) by done.
    by destruct (bool_decide (to_upper _ = "OR")), (recursive d). }
  reflexivity.
Qed.
End prune_facts.

Definition sample_rule : condition := Condition "r" " a.b " "prefix" " 7 " true false.

Lemma prune_draft_roundtrip_witness :
  parsePruneObjectsDraft (λ _, 0%Z) (buildPruneObjectsValueText
    (PruneDraft false " x " "or" false [sample_rule; Condition "q" "  " "full" "" false false])) 5%N
  = (Ok (PruneDraft false "x" "OR" false
      [Condition "param_override_0_5" "a.b" "prefix" "7" true false]), 6%N).
Proof.
  rewrite (prune_draft_roundtrip (λ _, 0%Z)
    (PruneDraft false " x " "or" false [sample_rule; Condition "q" "  " "full" "" false false]) 5%N);
    [by vm_compute|done|left; by vm_compute|].
  repeat constructor; by vm_compute.
Defined.

Lemma prune_draft_collapses_witness :
  parsePruneObjectsDraft (λ _, 0%Z) (buildPruneObjectsValueText
    (PruneDraft false "" "OR" false [Condition "q" "" "full" "" false false])) 0%N
  = (Ok (PruneDraft false "" "AND" true []), 0%N).
Proof.
  apply (prune_draft_collapses (λ _, 0%Z)
    (PruneDraft false "" "OR" false [Condition "q" "" "full" "" false false]) 0%N); by vm_compute.
Defined.
