(* ===== verification/ParamOverrideBuild.v ===== *)
(** * Parameter override rules: validation and serialisation

    The rest of the module-level functions of
    [ParamOverrideEditorModal.jsx] and the two builders of the component:
    [parseInitialState] (stored text to editor rows), [validateOperations]
    and [buildOperationsJson] (editor rows to stored text),
    [reorderOperations].  [t] is the i18n lookup, an argument. *)
From Stdlib Require Import Ascii SpecFloat.
From S2P Require Import Prelude JsString JsNumber JsValue Json JsonRoundtrip ParamOverride.

(** [findIndex]. *)
Definition find_index {A} (P : A → Prop) `{∀ x, Decision (P x)} (l : list A) : option nat :=
  fst <$> list_find P l.

(** [arr.splice(i, 0, x)]. *)
Definition insert_at {A} (i : nat) (x : A) (l : list A) : list A := take i l ++ x :: drop i l.

Definition reorderOperations (sourceOperations : list operation)
    (sourceId targetId position : string) : list operation :=
  if bool_decide (sourceId = "") || bool_decide (targetId = "") || bool_decide (sourceId = targetId)
  then sourceOperations
  else match list_find (λ item, id item = sourceId) sourceOperations with
       | None => sourceOperations
       | Some (sourceIndex, moved) =>
           let nextOperations := delete sourceIndex sourceOperations in
           match find_index (λ item, id item = targetId) nextOperations with
           | None => sourceOperations
           | Some insertIndex =>
               let insertIndex := if bool_decide (position = "after") then S insertIndex
                                  else insertIndex in
               insert_at insertIndex moved nextOperations
           end
       end.

(** [OPERATION_MODE_LABEL_MAP[mode] || mode]. *)
Definition modeLabel (mode : string) : string := default mode (obj_get OPERATION_MODE_OPTIONS mode).

Definition first_nonempty (l : list string) : string :=
  default "-" (head (filter (λ s, s ≠ "") l)).

Definition getOperationSummary (op : operation) (index : nat) : string :=
  let md := if bool_decide (mode op = "") then "set" else mode op in
  let path := trim (path op) in
  let from := trim (from op) in
  let to := trim (to op) in
  pretty (S index) +:+ ". " +:+ modeLabel md +:+ " · " +:+
  (if bool_decide (md = "sync_fields") then first_nonempty [from; to]
   else first_nonempty [path; from; to]).

Definition getOperationModeTagColor (mode : string) : string :=
  if includes "header" mode then "cyan"
  else if includes "replace" mode || includes "trim" mode then "violet"
  else if includes "copy" mode || includes "move" mode then "blue"
  else if includes "error" mode || includes "prune" mode then "red"
  else if includes "sync" mode then "green"
  else "grey".

(** ** Initial state *)

(** The part of the editor state the stored value determines. *)
Record initial_state := InitialState {
  i_editMode : string; i_visualMode : string; i_legacyValue : string;
  i_operations : list operation; i_jsonText : string; i_jsonError : string }.

Section ids.
Context (now : N → Z).

(** [ops.length > 0 ? ops.map(normalizeOperation) : [createDefaultOperation()]]. *)
Definition normalize_operations (ops : list jsval) : st N (list operation) :=
  match ops with
  | [] => op ← createDefaultOperation now; mret [op]
  | _ => st_map (normalizeOperation now) ops
  end.

Definition parseInitialState (rawValue : jsval) : st N initial_state :=
  let text := str_or_empty rawValue in
  let trimmed := trim text in
  if bool_decide (trimmed = "") then
    op ← createDefaultOperation now;
    mret (InitialState "visual" "operations" "" [op] "" "")
  else match json_parse trimmed with
  | None =>
      op ← createDefaultOperation now;
      mret (InitialState "json" "operations" "" [op] text "JSON 格式不正确")
  | Some parsed =>
      let pretty := stringify2 parsed in
      match parsed with
      | VObj o =>
          match prop_opt parsed "operations" with
          | VArr ops =>
              operations ← normalize_operations ops;
              mret (InitialState "visual" "operations" "" operations pretty "")
          | _ =>
              op ← createDefaultOperation now;
              mret (InitialState "visual" "legacy" pretty [op] pretty "")
          end
      | _ =>
          op ← createDefaultOperation now;
          mret (InitialState "json" "operations" "" [op] pretty "")
      end
  end.
End ids.

(** ** Blank rows and payloads *)

Definition condition_used (c : condition) : bool :=
  negb (bool_decide (trim (c_path c) = "")) || negb (bool_decide (trim (c_value_text c) = ""))
  || negb (bool_decide (c_mode c = "full")) || c_invert c || c_pass_missing_key c.

Definition isOperationBlank (op : operation) : bool :=
  let hasCondition := existsb condition_used (conditions op) in
  bool_decide (mode op = "set") && bool_decide (trim (path op) = "")
  && bool_decide (trim (from op) = "") && bool_decide (trim (to op) = "")
  && bool_decide (trim (value_text op) = "") && negb (keep_origin op) && negb hasCondition.

Definition buildConditionPayload (c : condition) : option jsval :=
  let path := trim (c_path c) in
  if bool_decide (path = "") then None
  else
    let payload := [("path", VStr path);
                    ("mode", VStr (if bool_decide (c_mode c = "") then "full" else c_mode c));
                    ("value", parseLooseValue (c_value_text c))] in
    let payload := if c_invert c then obj_set "invert" (VBool true) payload else payload in
    let payload := if c_pass_missing_key c
                   then obj_set "pass_missing_key" (VBool true) payload else payload in
    Some (VObj payload).

(** [operation.mode || 'set']. *)
Definition mode_or_set (op : operation) : string :=
  if bool_decide (mode op = "") then "set" else mode op.

(** One element of [payloadOps]. *)
Definition operation_payload (op : operation) : jsval :=
  let mode := mode_or_set op in
  let meta := mode_meta_of mode in
  let descriptionValue := trim (description op) in
  let pathValue := trim (path op) in
  let fromValue := trim (from op) in
  let toValue := trim (to op) in
  let nonempty s := negb (bool_decide (s = "")) in
  let p : obj := [("mode", VStr mode)] in
  let p := set_if (nonempty descriptionValue) "description" (VStr descriptionValue) p in
  let p := set_if (m_path meta) "path" (VStr pathValue) p in
  let p := set_if (m_pathOptional meta && nonempty pathValue) "path" (VStr pathValue) p in
  let p := set_if (m_value meta) "value" (parseLooseValue (value_text op)) p in
  let p := set_if (m_keepOrigin meta && keep_origin op) "keep_origin" (VBool true) p in
  let p := set_if (m_from meta) "from" (VStr fromValue) p in
  let p := set_if (negb (m_to meta) && nonempty toValue) "to" (VStr toValue) p in
  let p := set_if (m_to meta) "to" (VStr toValue) p in
  let p := set_if (m_pathAlias meta && negb (truthy (prop_opt (VObj p) "from")) && nonempty pathValue)
             "from" (VStr pathValue) p in
  let p := set_if (m_pathAlias meta && negb (truthy (prop_opt (VObj p) "to")) && nonempty pathValue)
             "to" (VStr pathValue) p in
  let conditions := omap buildConditionPayload (conditions op) in
  let p := match conditions with
           | [] => p
           | _ => obj_set "logic" (VStr (if bool_decide (logic op = "AND") then "AND" else "OR"))
                    (obj_set "conditions" (VArr conditions) p)
           end in
  VObj p.

Section i18n.
Context (t : string → obj → string).

(** ** Validation *)

(** The [return_error] check; [None] when it passes.  [String(...)] runs
    inside the [try], so a conversion error passes too. *)
Definition check_return_error (raw : string) (line : obj) : option string :=
  if bool_decide (raw = "") then Some (t "第 {{line}} 条操作缺少值" line)
  else match json_parse raw with
       | Some (VObj o) =>
           match to_str (js_or (prop_opt (VObj o) "message") (VStr "")) with
           | Ok m => if bool_decide (trim m = "")
                     then Some (t "第 {{line}} 条 return_error 需要 message 字段" line) else None
           | Throw _ => None
           end
       | _ => None
       end.

Definition nonempty_object (v : jsval) : bool :=
  match v with VObj (_ :: _) => true | _ => false end.

Definition check_prune_objects (raw : string) (line : obj) : option string :=
  if bool_decide (raw = "") then Some (t "第 {{line}} 条 prune_objects 缺少条件" line)
  else match json_parse raw with
       | Some (VObj o) =>
           let type := prop_opt (VObj o) "type" in
           match (if is_undef type then Ok "" else to_str type) with
           | Ok s =>
               let hasType := negb (is_undef type) && negb (bool_decide (trim s = "")) in
               let hasWhere := nonempty_object (prop_opt (VObj o) "where") in
               let conditions := prop_opt (VObj o) "conditions" in
               let hasConditionsArray := match conditions with VArr (_ :: _) => true | _ => false end in
               let hasConditionsObject := nonempty_object conditions in
               if negb hasType && negb hasWhere && negb hasConditionsArray
                  && negb hasConditionsObject
               then Some (t "第 {{line}} 条 prune_objects 需要至少一个匹配条件" line) else None
           | Throw _ => None
           end
       | _ => None
       end.

Definition check_pass_headers (raw : string) (line : obj) : res (option string) :=
  if bool_decide (raw = "") then Ok (Some (t "第 {{line}} 条请求头透传缺少请求头名称" line))
  else headers ← parsePassHeaderNames (parseLooseValue raw);
       Ok (match headers with
           | [] => Some (t "第 {{line}} 条请求头透传格式无效" line)
           | _ => None
           end).

(** The field checks of one operation, in source order. *)
Definition check_fields (op : operation) (line : obj) : option string :=
  let mode := mode_or_set op in
  let meta := mode_meta_of mode in
  let pathValue := trim (path op) in
  let fromValue := trim (from op) in
  let toValue := trim (to op) in
  let missing s := bool_decide (s = "") in
  if m_path meta && missing pathValue then Some (t "第 {{line}} 条操作缺少目标路径" line)
  else if bool_decide (mode ∈ FROM_REQUIRED_MODES) && missing fromValue
          && negb (m_pathAlias meta && negb (missing pathValue))
  then Some (t "第 {{line}} 条操作缺少来源字段" line)
  else if bool_decide (mode ∈ TO_REQUIRED_MODES) && missing toValue
          && negb (m_pathAlias meta && negb (missing pathValue))
  then Some (t "第 {{line}} 条操作缺少目标字段" line)
  else if m_from meta && missing fromValue then Some (t "第 {{line}} 条操作缺少来源字段" line)
  else if m_to meta && missing toValue then Some (t "第 {{line}} 条操作缺少目标字段" line)
  else if bool_decide (mode ∈ VALUE_REQUIRED_MODES) && missing (trim (value_text op))
  then Some (t "第 {{line}} 条操作缺少值" line)
  else None.

(** The message [return]ed for operation number [i], if any. *)
Definition check_operation (i : nat) (op : operation) : res (option string) :=
  let mode := mode_or_set op in
  let line := [("line", VNum (num_of_Z (Z.of_nat i + 1)))] in
  let raw := trim (value_text op) in
  match check_fields op line with
  | Some m => Ok (Some m)
  | None =>
      match (if bool_decide (mode = "return_error") then check_return_error raw line else None) with
      | Some m => Ok (Some m)
      | None =>
          match (if bool_decide (mode = "prune_objects") then check_prune_objects raw line
                 else None) with
          | Some m => Ok (Some m)
          | None => if bool_decide (mode = "pass_headers") then check_pass_headers raw line
                    else Ok None
          end
      end
  end.

Fixpoint validate_from (i : nat) (operations : list operation) : res string :=
  match operations with
  | [] => Ok ""
  | op :: operations =>
      m ← check_operation i op;
      match m with Some m => Ok m | None => validate_from (S i) operations end
  end.

Definition validateOperations (operations : list operation) : res string :=
  validate_from 0 operations.

(** ** Serialisation *)

Definition buildOperationsJson (sourceOperations : list operation) (validate : bool) : res string :=
  let filteredOps := filter (λ item, isOperationBlank item = false) sourceOperations in
  match filteredOps with
  | [] => Ok ""
  | _ =>
      message ← (if validate then validateOperations filteredOps else Ok "");
      if bool_decide (message = "")
      then Ok (stringify2 (VObj [("operations", VArr (operation_payload <$> filteredOps))]))
      else Throw message
  end.

(** The text a [legacy] editor saves. *)
Definition build_legacy_json (legacyValue : string) : res string :=
  let trimmed := trim legacyValue in
  if bool_decide (trimmed = "") then Ok ""
  else match json_parse trimmed with
       | None => Throw (t "参数覆盖必须是合法的 JSON 格式！" [])
       | Some (VObj o) => Ok (stringify2 (VObj o))
       | Some _ => Throw (t "旧格式必须是 JSON 对象" [])
       end.

Definition buildVisualJson (visualMode legacyValue : string) (operations : list operation)
    : res string :=
  if bool_decide (visualMode = "legacy") then build_legacy_json legacyValue
  else buildOperationsJson operations true.
End i18n.

(** ** Reordering *)

Lemma delete_unique ops i src :
  NoDup (id <$> ops) → ops !! i = Some src →
  delete i ops = filter (λ o, id o ≠ id src) ops.
Proof.
  revert i. induction ops as [|o ops IH]; intros i; [done|]. cbn [fmap list_fmap].
  intros [Ho Hn]%NoDup_cons. destruct i as [|i]; simpl; intros Hi.
  - simplify_eq. rewrite filter_cons_False by naive_solver. symmetry. apply filter_all.
    intros x Hx E. apply Ho. rewrite <-E. by apply list_elem_of_fmap_2.
  - rewrite filter_cons_True; [by f_equal; apply IH|].
    intros E. apply Ho. rewrite E. apply list_elem_of_fmap_2. by eapply list_elem_of_lookup_2.
Qed.

Lemma insert_at_app {A} (l1 l2 : list A) x : insert_at (length l1) x (l1 ++ l2) = l1 ++ x :: l2.
Proof. unfold insert_at. by rewrite take_app_length, drop_app_length. Qed.

Lemma find_split ops tgt :
  tgt ∈ ops → ∃ l1 l2 x, ops = l1 ++ x :: l2 ∧ id x = id tgt ∧
    find_index (λ item, id item = id tgt) ops = Some (length l1).
Proof.
  intros Hin. destruct (list_find_elem_of (λ item, id item = id tgt) ops tgt Hin eq_refl)
    as [[i x] Hf].
  pose proof (proj1 (list_find_Some _ _ _ _) Hf) as (Hx & Hid & _).
  exists (take i ops), (drop (S i) ops), x. split_and!; [by rewrite take_drop_middle|done|].
  unfold find_index. rewrite Hf. cbn. f_equal.
  apply lookup_lt_Some in Hx. rewrite length_take. lia.
Qed.

Lemma same_row ops x y : NoDup (id <$> ops) → x ∈ ops → y ∈ ops → id x = id y → x = y.
Proof.
  intros Hnd [i Hi]%list_elem_of_lookup_1 [j Hj]%list_elem_of_lookup_1 E.
  assert (i = j) as <-; [|by simplify_eq].
  eapply NoDup_lookup; [done|..]; rewrite list_lookup_fmap; [by rewrite Hi; cbn; rewrite E|].
  by rewrite Hj.
Qed.

(** With distinct ids, dropping row [src] on another row [tgt] keeps
    every other row in its order and puts [src] right after [tgt] when the
    position is [after], right before it otherwise. *)
Theorem reorder_placement (ops : list operation) (src tgt : operation) (position : string) :
  NoDup (id <$> ops) → src ∈ ops → tgt ∈ ops → id src ≠ id tgt →
  id src ≠ "" → id tgt ≠ "" →
  ∃ l1 l2, filter (λ o, id o ≠ id src) ops = l1 ++ tgt :: l2 ∧
    reorderOperations ops (id src) (id tgt) position
    = if bool_decide (position = "after") then l1 ++ tgt :: src :: l2
      else l1 ++ src :: tgt :: l2.
Proof.
  intros Hnd Hs Ht Hne Hs0 Ht0. unfold reorderOperations.
  rewrite !bool_decide_false by done. cbn [orb].
  destruct (list_find_elem_of (λ item, id item = id src) ops src Hs eq_refl) as [[i x] Hf].
  rewrite Hf. apply list_find_Some in Hf as (Hi & Hid & _).
  assert (x = src) as ->.
  { apply (same_row ops); eauto using list_elem_of_lookup_2. }
  rewrite (delete_unique ops i src) by done.
  set (rest := filter _ ops). assert (Ht' : tgt ∈ rest) by (apply list_elem_of_filter; auto).
  destruct (find_split rest tgt Ht') as (l1 & l2 & y & Hr & Hy & Hfi). rewrite Hfi.
  assert (y = tgt) as ->.
  { assert (Hyr : y ∈ rest) by (rewrite Hr; set_solver).
    apply list_elem_of_filter in Hyr as [_ Hyr]. by apply (same_row ops). }
  exists l1, l2. split; [done|]. rewrite Hr. case_bool_decide.
  - rewrite (cons_middle tgt), app_assoc.
    replace (S (length l1)) with (length (l1 ++ [tgt])) by (rewrite length_app; simpl; lia).
    rewrite insert_at_app, <-app_assoc. done.
  - apply insert_at_app.
Qed.

Lemma insert_at_perm {A} i (x : A) l : insert_at i x l ≡ₚ x :: l.
Proof.
  unfold insert_at. rewrite <-(take_drop i l) at 3. symmetry. apply Permutation_middle.
Qed.

(** Dragging never loses or duplicates a row. *)
Lemma reorder_perm ops s tg position : reorderOperations ops s tg position ≡ₚ ops.
Proof.
  unfold reorderOperations. case_match; [done|].
  destruct (list_find _ ops) as [[i x]|] eqn:E; [|done]. case_match; [|done].
  apply list_find_Some in E as (Hi & _ & _). rewrite insert_at_perm.
  symmetry. by apply delete_Permutation.
Qed.

(** ** What validation accepts *)

(** The modes that do not need a target path. *)
Definition PATHLESS_MODES : list string :=
  ["copy"; "move"; "sync_fields"; "return_error"; "prune_objects"; "pass_headers";
   "copy_header"; "move_header"].

Definition return_error_valid (raw : string) : Prop := ∀ o s,
  json_parse raw = Some (VObj o) → to_str (js_or (prop_opt (VObj o) "message") (VStr "")) = Ok s →
  trim s ≠ "".

Definition nonempty_array (v : jsval) : bool := match v with VArr (_ :: _) => true | _ => false end.

Definition prune_objects_valid (raw : string) : Prop := ∀ o,
  json_parse raw = Some (VObj o) →
  (prop_opt (VObj o) "type" ≠ VUndef ∧ ∀ s, to_str (prop_opt (VObj o) "type") = Ok s → trim s ≠ "")
  ∨ nonempty_object (prop_opt (VObj o) "where") = true
  ∨ nonempty_array (prop_opt (VObj o) "conditions") = true
  ∨ nonempty_object (prop_opt (VObj o) "conditions") = true.

Definition pass_headers_valid (raw : string) : Prop :=
  ∃ h hs, parsePassHeaderNames (parseLooseValue raw) = Ok (h :: hs).

(** What an operation must provide.  The [pathAlias] flag of the header
    modes plays no part: a path does not replace a missing [from] or [to]. *)
Record valid_operation (op : operation) : Prop := ValidOperation {
  v_path : mode_or_set op ∉ PATHLESS_MODES → trim (path op) ≠ "";
  v_from : mode_or_set op ∈ FROM_REQUIRED_MODES → trim (from op) ≠ "";
  v_to : mode_or_set op ∈ TO_REQUIRED_MODES → trim (to op) ≠ "";
  v_value : mode_or_set op ∈ VALUE_REQUIRED_MODES → trim (value_text op) ≠ "";
  v_return_error : mode_or_set op = "return_error" → return_error_valid (trim (value_text op));
  v_prune : mode_or_set op = "prune_objects" → prune_objects_valid (trim (value_text op));
  v_headers : mode_or_set op = "pass_headers" → pass_headers_valid (trim (value_text op)) }.

(** The mode table agrees with the lists of required fields. *)
Lemma mode_meta_required m :
  m_path (mode_meta_of m) = bool_decide (m ∉ PATHLESS_MODES) ∧
  m_from (mode_meta_of m) = bool_decide (m ∈ FROM_REQUIRED_MODES) ∧
  m_to (mode_meta_of m) = bool_decide (m ∈ TO_REQUIRED_MODES).
Proof.
  unfold mode_meta_of, MODE_META. cbn [obj_get].
  repeat (case_decide; [subst; by vm_compute|]). cbn.
  unfold PATHLESS_MODES, FROM_REQUIRED_MODES, TO_REQUIRED_MODES.
  split_and!; symmetry; [apply bool_decide_eq_true|apply bool_decide_eq_false..]; set_solver.
Qed.

Section validation.
Context (t : string → obj → string).

Lemma check_fields_None op line :
  check_fields t op line = None ↔
  (mode_or_set op ∉ PATHLESS_MODES → trim (path op) ≠ "") ∧
  (mode_or_set op ∈ FROM_REQUIRED_MODES → trim (from op) ≠ "") ∧
  (mode_or_set op ∈ TO_REQUIRED_MODES → trim (to op) ≠ "") ∧
  (mode_or_set op ∈ VALUE_REQUIRED_MODES → trim (value_text op) ≠ "").
Proof.
  unfold check_fields. cbn zeta. destruct (mode_meta_required (mode_or_set op)) as (-> & -> & ->).
  generalize (m_pathAlias (mode_meta_of (mode_or_set op))). intros al.
  destruct (bool_decide_reflect (mode_or_set op ∉ PATHLESS_MODES)),
    (bool_decide_reflect (mode_or_set op ∈ FROM_REQUIRED_MODES)),
    (bool_decide_reflect (mode_or_set op ∈ TO_REQUIRED_MODES)),
    (bool_decide_reflect (mode_or_set op ∈ VALUE_REQUIRED_MODES)),
    (bool_decide_reflect (trim (path op) = "")), (bool_decide_reflect (trim (from op) = "")),
    (bool_decide_reflect (trim (to op) = "")), (bool_decide_reflect (trim (value_text op) = "")),
    al; cbn [andb negb];
    (split; [intros E; first [discriminate E|tauto]|intros; first [reflexivity|tauto]]).
Qed.

Lemma check_return_error_None raw line :
  check_return_error t raw line = None ↔ raw ≠ "" ∧ return_error_valid raw.
Proof.
  unfold check_return_error, return_error_valid. case_bool_decide; [naive_solver|].
  destruct (json_parse raw) as [[| | | | | |o]|];
    try (split; [intros _; split; [done|by intros]|done]).
  transitivity (∀ s, to_str (js_or (prop_opt (VObj o) "message") (VStr "")) = Ok s → trim s ≠ "").
  - destruct (to_str _) as [s|e]; [case_bool_decide|]; split; try done; intros Hs; simplify_eq.
    + by destruct (Hs s).
    + by intros s' [= <-].
  - naive_solver.
Qed.

Lemma check_prune_objects_None raw line :
  check_prune_objects t raw line = None ↔ raw ≠ "" ∧ prune_objects_valid raw.
Proof.
  unfold check_prune_objects, prune_objects_valid. fold nonempty_array.
  case_bool_decide; [naive_solver|].
  destruct (json_parse raw) as [[| | | | | |o]|];
    try (split; [intros _; split; [done|by intros]|done]).
  cbn zeta. change (match prop_opt (VObj o) "conditions" with VArr (_ :: _) => true | _ => false end)
    with (nonempty_array (prop_opt (VObj o) "conditions")).
  match goal with |- context [∀ o', Some (VObj o) = Some (VObj o') → @?P o'] =>
    assert ((∀ o', Some (VObj o) = Some (VObj o') → P o') ↔ P o) as -> by naive_solver end.
  generalize (nonempty_object (prop_opt (VObj o) "where")), (prop_opt (VObj o) "conditions").
  intros w c. generalize (prop_opt (VObj o) "type"). intros ty.
  destruct (is_undef ty) eqn:Hu.
  - assert (ty = VUndef) as -> by (by destruct ty).
    destruct w, (nonempty_array c), (nonempty_object c); cbn; naive_solver.
  - assert (ty ≠ VUndef) by (by destruct ty).
    destruct (to_str ty) as [s|e]; [case_bool_decide|];
      destruct w, (nonempty_array c), (nonempty_object c); cbn; naive_solver.
Qed.

Lemma check_operation_None i op : check_operation t i op = Ok None ↔ valid_operation op.
Proof.
  unfold check_operation. cbn zeta. set (line := [("line", _)]).
  destruct (check_fields t op line) as [m|] eqn:Ef.
  { split; [done|]. intros [? ? ? ? _ _ _].
    assert (check_fields t op line = None) by (by apply check_fields_None). congruence. }
  apply check_fields_None in Ef as (H1 & H2 & H3 & H4).
  destruct (bool_decide_reflect (mode_or_set op = "return_error")) as [Em|?].
  { pose proof (check_return_error_None (trim (value_text op)) line) as Hc.
    rewrite Em, (bool_decide_false ("return_error" = "prune_objects")),
      (bool_decide_false ("return_error" = "pass_headers")) by done.
    destruct (check_return_error t _ line) as [m|]; split; try done.
    - intros [_ _ _ Hv Hr _ _]. rewrite Em in Hv.
      assert (Hve : trim (value_text op) ≠ "") by (apply Hv, (bool_decide_unpack _); by vm_compute).
      by destruct (proj2 Hc (conj Hve (Hr Em))).
    - intros _. destruct (proj1 Hc eq_refl) as [_ Hr]. split; auto; by rewrite Em. }
  destruct (bool_decide_reflect (mode_or_set op = "prune_objects")) as [Em|?].
  { pose proof (check_prune_objects_None (trim (value_text op)) line) as Hc.
    rewrite Em, (bool_decide_false ("prune_objects" = "pass_headers")) by done.
    destruct (check_prune_objects t _ line) as [m|]; split; try done.
    - intros [_ _ _ Hv _ Hr _]. rewrite Em in Hv.
      assert (Hve : trim (value_text op) ≠ "") by (apply Hv, (bool_decide_unpack _); by vm_compute).
      by destruct (proj2 Hc (conj Hve (Hr Em))).
    - intros _. destruct (proj1 Hc eq_refl) as [_ Hr]. split; auto; by rewrite Em. }
  case_bool_decide as Em; [|by split].
  assert (Hv : trim (value_text op) ≠ "") by (apply H4; rewrite Em; apply (bool_decide_unpack _); by vm_compute).
  unfold check_pass_headers. rewrite bool_decide_false by done. unfold mbind, res_bind.
  split.
  - destruct (parsePassHeaderNames _) as [[|h hs]|] eqn:E; try done.
    intros _. split; try done. intros _. by exists h, hs.
  - intros [_ _ _ _ _ _ Hh]. destruct (Hh Em) as (h & hs & ->). done.
Qed.

Hypothesis t_nonempty : ∀ k o, t k o ≠ "".

Lemma check_operation_msg i op m : check_operation t i op = Ok (Some m) → m ≠ "".
Proof.
  unfold check_operation, check_fields, check_return_error, check_prune_objects,
    check_pass_headers, mbind, res_bind.
  intros E ->. repeat (case_match; simplify_eq); by eapply t_nonempty.
Qed.

Lemma validate_from_valid i ops :
  validate_from t i ops = Ok "" ↔ Forall valid_operation ops.
Proof.
  revert i. induction ops as [|op ops IH]; intros i; cbn [validate_from]; [done|].
  rewrite Forall_cons, <-(check_operation_None i), <-(IH (S i)).
  unfold mbind, res_bind. destruct (check_operation t i op) as [[m|]|] eqn:E; [|naive_solver..].
  apply check_operation_msg in E. naive_solver.
Qed.

(** C18.  The visual editor accepts a list of operations exactly when each
    operation has the fields and the value its mode needs; a header copy
    that gives a path instead of its source or target is refused although
    the mode declares the path as an alias. *)
Theorem validateOperations_spec (ops : list operation) :
  validateOperations t ops = Ok "" ↔ Forall valid_operation ops.
Proof. apply validate_from_valid. Qed.
End validation.

Definition re_row (i : string) : operation :=
  Operation i "" "" "return_error" "denied" false "" "" "OR" [].

Definition sample_set : operation :=
  Operation "p" "" " model " "set" "gpt" false "" "" "OR" [].

Lemma validateOperations_spec_witness :
  validateOperations (λ _ _, "e") [sample_set] = Ok "" ∧ Forall valid_operation [sample_set].
Proof.
  split; [by vm_compute|].
  apply (validateOperations_spec (λ _ _, "e")); [done|by vm_compute].
Defined.

Lemma reorder_placement_witness :
  ∃ l1 l2, filter (λ o, id o ≠ "p") [sample_set; re_row "q"; re_row "r"] = l1 ++ re_row "r" :: l2 ∧
    reorderOperations [sample_set; re_row "q"; re_row "r"] "p" "r" "after"
    = if bool_decide ("after" = "after") then l1 ++ re_row "r" :: sample_set :: l2
      else l1 ++ sample_set :: re_row "r" :: l2.
Proof.
  apply (reorder_placement [sample_set; re_row "q"; re_row "r"] sample_set (re_row "r") "after");
    first [done | apply (bool_decide_unpack _); by vm_compute].
Defined.
