(* ===== verification/ParamOverrideReload.v ===== *)
(** * Parameter override rules: saving and reopening

    What [parseInitialState] shows for the text [buildOperationsJson]
    stores, and when saving the reopened editor stores the same text. *)
From Stdlib Require Import Ascii SpecFloat.
From S2P Require Import Prelude JsString JsNumber JsValue Json JsonRoundtrip.
From S2P Require Import ParamOverride ParamOverrideBuild.

#[local] Arguments trim : simpl never.

(** ** The rows that come back *)

(** A condition as it reads back. *)
Definition reload_condition (new_id : string) (c : condition) : condition :=
  Condition new_id (trim (c_path c))
    (str_in_or CONDITION_MODE_VALUES (VStr (if bool_decide (c_mode c = "") then "full" else c_mode c))
       "full")
    (toValueText (parseLooseValue (c_value_text c))) (c_invert c) (c_pass_missing_key c).

Definition kept_conditions (op : operation) : list condition :=
  filter (λ c, trim (c_path c) ≠ "") (conditions op).

Definition from_field (op : operation) : string :=
  let meta := mode_meta_of (mode_or_set op) in
  let f := if m_from meta then trim (from op) else "" in
  if m_pathAlias meta && bool_decide (f = "") then trim (path op) else f.

Definition to_field (op : operation) : string :=
  if m_pathAlias (mode_meta_of (mode_or_set op)) && bool_decide (trim (to op) = "")
  then trim (path op) else trim (to op).

Section reload.
Context (now : N → Z).

Definition reload_conditions : N → list condition → list condition :=
  seeded (λ s c, reload_condition (local_id now s) c) (λ _, 1%N).

(** An operation as it reads back when its ids are drawn from seed [s]. *)
Definition reload_operation (s : N) (op : operation) : operation :=
  let meta := mode_meta_of (mode_or_set op) in
  Operation (local_id now s) (trim (description op))
    (if m_path meta || m_pathOptional meta then trim (path op) else "")
    (str_in_or OPERATION_MODE_VALUES (VStr (mode_or_set op)) "set")
    (if m_value meta then toValueText (parseLooseValue (value_text op)) else "")
    (m_keepOrigin meta && keep_origin op) (from_field op) (to_field op)
    (match kept_conditions op with
     | [] => "OR"
     | _ => if bool_decide (logic op = "AND") then "AND" else "OR"
     end)
    (reload_conditions (s + 1) (kept_conditions op)).

Definition draws (op : operation) : N := (1 + N.of_nat (length (kept_conditions op)))%N.

Definition reload_operations : N → list operation → list operation :=
  seeded reload_operation draws.

(** ** Reading one payload *)

(** The payload of a condition with a non-blank path. *)
Definition condition_payload (c : condition) : jsval :=
  VObj (set_if (c_pass_missing_key c) "pass_missing_key" (VBool true)
         (set_if (c_invert c) "invert" (VBool true)
           [("path", VStr (trim (c_path c)));
            ("mode", VStr (if bool_decide (c_mode c = "") then "full" else c_mode c));
            ("value", parseLooseValue (c_value_text c))])).

Lemma build_conditions (l : list condition) :
  omap buildConditionPayload l = condition_payload <$> filter (λ c, trim (c_path c) ≠ "") l.
Proof.
  induction l as [|c l IH]; [done|]. cbn [omap list_omap].
  rewrite filter_cons. unfold buildConditionPayload at 1.
  destruct (bool_decide_reflect (trim (c_path c) = "")) as [E|E].
  - rewrite decide_False by naive_solver. apply IH.
  - rewrite decide_True by done. cbn. f_equal. apply IH.
Qed.

Lemma normalize_condition_payload c s :
  normalizeCondition now (condition_payload c) s
  = (Ok (reload_condition (local_id now s) c), (s + 1)%N).
Proof.
  unfold normalizeCondition, condition_payload, reload_condition, set_if.
  destruct (c_invert c), (c_pass_missing_key c);
    js_obj; cbn [prop_opt prop is_undef]; js_keys;
    unfold mbind, st_bind, nextLocalId, st_lift, mret, st_ret;
    cbn [from_option Datatypes.id str_or_empty is_true]; done.
Qed.

Lemma st_map_condition_payloads l s :
  st_map (normalizeCondition now) (condition_payload <$> l) s
  = (Ok (reload_conditions s l), (s + N.of_nat (length l))%N).
Proof.
  rewrite <-total_one. apply st_map_seeded. intros c s' _. apply normalize_condition_payload.
Qed.

Definition is_cons {A} (l : list A) : bool := match l with [] => false | _ => true end.

(** The [conditions] and [logic] of a payload. *)
Lemma conditions_part (p : obj) (conds : list jsval) l :
  match conds with
  | [] => p
  | _ => obj_set "logic" l (obj_set "conditions" (VArr conds) p)
  end = set_if (is_cons conds) "logic" l (set_if (is_cons conds) "conditions" (VArr conds) p).
Proof. by destruct conds. Qed.

Lemma alias_modes m :
  m_pathAlias (mode_meta_of m) = true → m_from (mode_meta_of m) = true ∧ m_to (mode_meta_of m) = true
    ∧ m_path (mode_meta_of m) = false ∧ m_pathOptional (mode_meta_of m) = false.
Proof.
  unfold mode_meta_of, MODE_META. cbn [obj_get].
  repeat (case_decide; [subst; by vm_compute|]). done.
Qed.

Definition undef_or (b : bool) (v : jsval) : jsval := if b then v else VUndef.

Lemma payload_reads op :
  let meta := mode_meta_of (mode_or_set op) in
  let conds := condition_payload <$> kept_conditions op in
  ∃ o, operation_payload op = VObj o ∧
    prop_opt (VObj o) "mode" = VStr (mode_or_set op) ∧
    str_or_empty (prop_opt (VObj o) "description") = trim (description op) ∧
    str_or_empty (prop_opt (VObj o) "path")
      = (if m_path meta || m_pathOptional meta then trim (path op) else "") ∧
    prop_opt (VObj o) "value" = undef_or (m_value meta) (parseLooseValue (value_text op)) ∧
    is_true (prop_opt (VObj o) "keep_origin") = m_keepOrigin meta && keep_origin op ∧
    str_or_empty (prop_opt (VObj o) "from") = from_field op ∧
    str_or_empty (prop_opt (VObj o) "to") = to_field op ∧
    prop_opt (VObj o) "logic" = undef_or (is_cons conds)
      (VStr (if bool_decide (logic op = "AND") then "AND" else "OR")) ∧
    prop_opt (VObj o) "conditions" = undef_or (is_cons conds) (VArr conds).
Proof.
  cbn zeta. unfold operation_payload. cbn zeta.
  rewrite build_conditions, conditions_part. fold (kept_conditions op).
  unfold from_field, to_field. cbn zeta.
  pose proof (alias_modes (mode_or_set op)) as Ha.
  set (conds := condition_payload <$> kept_conditions op).
  revert Ha. generalize (mode_meta_of (mode_or_set op)). intros [p po v ko f t al] Ha.
  cbn [m_path m_pathOptional m_value m_keepOrigin m_from m_to m_pathAlias] in *.
  eexists. split; [reflexivity|]. cbn [prop_opt].
  generalize (trim (path op)), (trim (from op)), (trim (to op)), (trim (description op)).
  intros sp sf sto sd. unfold undef_or.
  split_and!; js_set_if.
  - done.
  - by destruct (bool_decide_reflect (sd = "")); subst.
  - by destruct p, po, (bool_decide_reflect (sp = "")); subst.
  - by destruct v.
  - by destruct ko, (keep_origin op).
  - destruct al; cbn [andb].
    + destruct Ha as (-> & -> & -> & ->); [done|]. cbn [from_option Datatypes.id truthy].
      by destruct (bool_decide_reflect (sf = "")), (bool_decide_reflect (sp = "")); subst.
    + by destruct f.
  - destruct al; cbn [andb].
    + destruct Ha as (-> & -> & -> & ->); [done|].
      cbn [negb andb from_option Datatypes.id truthy].
      by destruct (bool_decide_reflect (sto = "")), (bool_decide_reflect (sp = "")); subst.
    + by destruct t, (bool_decide_reflect (sto = "")); subst.
  - by destruct (is_cons conds).
  - by destruct (is_cons conds).
Qed.

Lemma normalize_operation_payload op s :
  normalizeOperation now (operation_payload op) s
  = (Ok (reload_operation s op), (s + draws op)%N).
Proof.
  destruct (payload_reads op) as (o & -> & Hm & Hd & Hp & Hv & Hk & Hf & Ht & Hl & Hc).
  unfold normalizeOperation, reload_operation, draws. cbn [is_undef].
  rewrite (st_bind_Ok _ _ _ (local_id now s) (s + 1)%N) by done.
  rewrite (st_bind_Ok _ _ _ (prop_opt (VObj o) "description") (s + 1)%N) by done.
  rewrite Hm, Hp, Hv, Hk, Hf, Ht, Hl, Hc, Hd. clear.
  assert (Hval : toValueText (undef_or (m_value (mode_meta_of (mode_or_set op)))
    (parseLooseValue (value_text op))) = if m_value (mode_meta_of (mode_or_set op))
    then toValueText (parseLooseValue (value_text op)) else "") by (by destruct (m_value _)).
  rewrite Hval. clear Hval.
  destruct (kept_conditions op) as [|c l] eqn:E.
  - unfold mbind, st_bind, st_lift, mret, st_ret. cbn. done.
  - cbn [fmap list_fmap is_cons undef_or].
    rewrite (st_bind_Ok _ _ _ (if bool_decide (logic op = "AND") then "AND" else "OR") (s + 1)%N)
      by (by destruct (bool_decide (logic op = "AND"))).
    rewrite (st_bind_Ok _ _ _ (reload_conditions (s + 1) (c :: l))
      (s + 1 + N.of_nat (length (c :: l)))%N) by (apply (st_map_condition_payloads (c :: l))).
    unfold mret, st_ret. f_equal. lia.
Qed.

(** ** Serialisable rows *)

Definition condition_ok (c : condition) : Prop :=
  json_ok (parseLooseValue (c_value_text c)) = true.
Definition operation_ok (op : operation) : Prop :=
  json_ok (parseLooseValue (value_text op)) = true ∧ Forall condition_ok (conditions op).

Lemma condition_payload_ok c : condition_ok c → json_ok (condition_payload c) = true.
Proof.
  intros Hc. unfold condition_payload, condition_ok in *.
  do 2 (apply json_ok_set_if; [done..|]). rewrite json_ok_obj. cbn [forallb snd json_ok].
  by rewrite Hc.
Qed.

Lemma operation_payload_ok op : operation_ok op → json_ok (operation_payload op) = true.
Proof.
  intros [Hv Hc]. unfold operation_payload. cbn zeta.
  rewrite build_conditions, conditions_part. fold (kept_conditions op).
  assert (Hcs : json_ok (VArr (condition_payload <$> kept_conditions op)) = true).
  { rewrite json_ok_arr. apply forallb_forall. intros v.
    rewrite <-list_elem_of_In. intros (c & -> & [_ Hin]%list_elem_of_filter)%list_elem_of_fmap.
    rewrite Forall_forall in Hc. auto using condition_payload_ok. }
  repeat (apply json_ok_set_if; [done|done|]). done.
Qed.

Definition saved (ops : list operation) : jsval :=
  VObj [("operations", VArr (operation_payload <$> ops))].

Lemma saved_ok ops : Forall operation_ok ops → json_ok (saved ops) = true.
Proof.
  intros HF. unfold saved. rewrite json_ok_obj. cbn [forallb snd].
  rewrite andb_true_r. apply andb_true_intro. split; [done|]. rewrite json_ok_arr.
  apply forallb_forall. intros v. rewrite <-list_elem_of_In.
  intros (op & -> & Hin)%list_elem_of_fmap. rewrite Forall_forall in HF.
  auto using operation_payload_ok.
Qed.

Definition nonblank (ops : list operation) : list operation :=
  filter (λ item, isOperationBlank item = false) ops.

Lemma build_saved t ops validate text :
  nonblank ops ≠ [] → buildOperationsJson t ops validate = Ok text →
  text = stringify2 (saved (nonblank ops)).
Proof.
  intros Hne. unfold buildOperationsJson. fold (nonblank ops). unfold saved.
  destruct (nonblank ops) as [|op l]; [done|].
  intros (m & _ & H)%res_bind_Ok. case_bool_decide; by simplify_eq.
Qed.

(** C9.  What the visual editor stores for a list of operations, blank rows
    left out, reopens as the same operations: trimmed texts, values as text,
    only the fields the mode has, fresh ids; nothing is lost or reordered. *)
Theorem save_reopen t (ops : list operation) (validate : bool) (text : string) (s : N) :
  nonblank ops ≠ [] → Forall operation_ok (nonblank ops) →
  buildOperationsJson t ops validate = Ok text →
  parseInitialState now (VStr text) s =
  (Ok (InitialState "visual" "operations" "" (reload_operations s (nonblank ops)) text ""),
   (s + total draws (nonblank ops))%N).
Proof.
  intros Hne HF ->%build_saved; [|done].
  pose proof (saved_ok _ HF) as Hok. pose proof (json_ok_obj_values _ Hok) as Hval.
  unfold parseInitialState, stringify2, saved in *. cbn zeta. cbn [str_or_empty].
  rewrite trim_print_obj by done.
  rewrite bool_decide_false by (by rewrite print_obj).
  rewrite json_parse_print by done. cbn [prop_opt]. js_keys.
  cbn [from_option Datatypes.id]. unfold normalize_operations.
  destruct (operation_payload <$> nonblank ops) as [|v l] eqn:E;
    [by apply fmap_nil_inv in E|]. rewrite <-E.
  erewrite st_bind_Ok by (apply st_map_seeded; intros; apply normalize_operation_payload).
  done.
Qed.

(** ** Saving again *)

(** A value text that reads back as the value it stands for. *)
Definition stable_text (v : string) : Prop :=
  parseLooseValue (toValueText (parseLooseValue v)) = parseLooseValue v.

Definition stable_condition (c : condition) : Prop :=
  c_mode c ∈ CONDITION_MODE_VALUES ∧ stable_text (c_value_text c).

Record stable_operation (op : operation) : Prop := StableOperation {
  so_mode : mode op ∈ OPERATION_MODE_VALUES;
  so_value : stable_text (value_text op);
  so_conditions : Forall stable_condition (conditions op) }.

Lemma str_in_or_id set s d : s ∈ set → str_in_or set (VStr s) d = s.
Proof. intros. simpl. by rewrite bool_decide_true. Qed.

Lemma no_blank_mode : ("" ∉ CONDITION_MODE_VALUES) ∧ ("" ∉ OPERATION_MODE_VALUES).
Proof. split; apply (bool_decide_unpack _); by vm_compute. Qed.

Lemma condition_payload_again i c :
  stable_condition c → condition_payload (reload_condition i c) = condition_payload c.
Proof.
  intros [Hm Hs]. unfold condition_payload, reload_condition.
  cbn [c_path c_mode c_value_text c_invert c_pass_missing_key].
  pose proof (proj1 no_blank_mode) as Hb.
  assert (c_mode c ≠ "") as Hne by (intros E; by rewrite E in Hm).
  rewrite (bool_decide_false (c_mode c = "")) by done.
  rewrite (str_in_or_id _ (c_mode c)), (bool_decide_false (c_mode c = "")) by done.
  by rewrite trim_idemp, Hs.
Qed.

Lemma conditions_again s l :
  Forall stable_condition l → Forall (λ c, trim (c_path c) ≠ "") l →
  filter (λ c, trim (c_path c) ≠ "") (reload_conditions s l) = reload_conditions s l ∧
  condition_payload <$> reload_conditions s l = condition_payload <$> l.
Proof.
  intros HF. revert s. induction HF as [|c l Hc HF IH]; intros s; [done|].
  intros [Hp HP]%Forall_cons. destruct (IH (s + 1)%N HP) as [IH1 IH2].
  unfold reload_conditions in *. cbn [seeded fmap list_fmap]. split.
  - rewrite filter_cons_True; [by rewrite IH1|]. cbn. by rewrite trim_idemp.
  - f_equal; [by apply condition_payload_again|apply IH2].
Qed.

Lemma reload_mode s op :
  mode op ∈ OPERATION_MODE_VALUES →
  mode_or_set op = mode op ∧ mode (reload_operation s op) = mode op ∧
  mode_or_set (reload_operation s op) = mode op.
Proof.
  intros Hm. pose proof (proj2 no_blank_mode) as Hb.
  assert (mode op ≠ "") as Hne by (intros E; by rewrite E in Hm).
  assert (mode_or_set op = mode op) as E by (unfold mode_or_set; by rewrite bool_decide_false).
  assert (mode (reload_operation s op) = mode op) as E'
    by (unfold reload_operation; cbn [mode]; rewrite E; by apply str_in_or_id).
  split_and!; [done..|]. unfold mode_or_set. by rewrite E', bool_decide_false.
Qed.

(** The [from] and [to] of a valid operation do not come from its path. *)
Lemma valid_fields op :
  valid_operation op → (m_from (mode_meta_of (mode_or_set op)) = true → from_field op = trim (from op))
  ∧ to_field op = trim (to op).
Proof.
  intros Hv. destruct (mode_meta_required (mode_or_set op)) as (_ & Hf & Ht).
  pose proof (alias_modes (mode_or_set op)) as Ha. unfold from_field, to_field. cbn zeta. split.
  - intros E. rewrite E. symmetry in Hf. rewrite E, bool_decide_eq_true in Hf.
    rewrite (bool_decide_false (trim (from op) = "")), andb_false_r by (by apply v_from). done.
  - destruct (m_pathAlias _) eqn:E; [|done]. destruct Ha as (_ & E' & _); [done|].
    symmetry in Ht. rewrite E', bool_decide_eq_true in Ht.
    by rewrite (bool_decide_false (trim (to op) = "")) by (by apply v_to).
Qed.

(** The payload of a valid operation needs no alias. *)
Definition plain_payload (md : string) (op : operation) (conds : list jsval) : jsval :=
  let meta := mode_meta_of md in
  let nonempty s := negb (bool_decide (s = "")) in
  VObj (set_if (is_cons conds) "logic" (VStr (if bool_decide (logic op = "AND") then "AND" else "OR"))
    (set_if (is_cons conds) "conditions" (VArr conds)
    (set_if (m_to meta) "to" (VStr (trim (to op)))
    (set_if (negb (m_to meta) && nonempty (trim (to op))) "to" (VStr (trim (to op)))
    (set_if (m_from meta) "from" (VStr (trim (from op)))
    (set_if (m_keepOrigin meta && keep_origin op) "keep_origin" (VBool true)
    (set_if (m_value meta) "value" (parseLooseValue (value_text op))
    (set_if (m_pathOptional meta && nonempty (trim (path op))) "path" (VStr (trim (path op)))
    (set_if (m_path meta) "path" (VStr (trim (path op)))
    (set_if (nonempty (trim (description op))) "description" (VStr (trim (description op)))
      [("mode", VStr md)])))))))))).

Lemma payload_plain op :
  let meta := mode_meta_of (mode_or_set op) in
  (m_from meta = true → trim (from op) ≠ "") → (m_to meta = true → trim (to op) ≠ "") →
  operation_payload op
  = plain_payload (mode_or_set op) op (condition_payload <$> kept_conditions op).
Proof.
  cbn zeta. intros Hf Ht. unfold operation_payload, plain_payload. cbn zeta.
  rewrite build_conditions, conditions_part. fold (kept_conditions op).
  pose proof (alias_modes (mode_or_set op)) as Ha.
  destruct (m_pathAlias (mode_meta_of (mode_or_set op))); [|done].
  destruct Ha as (Ef & Et & _); [done|]. rewrite Ef, Et in *. cbn [andb negb].
  cbn [prop_opt]. js_set_if. cbn [from_option Datatypes.id truthy].
  rewrite (bool_decide_false (trim (from op) = "")), (bool_decide_false (trim (to op) = "")) by auto.
  done.
Qed.

Lemma kept_reload s op :
  Forall stable_condition (conditions op) →
  kept_conditions (reload_operation s op) = reload_conditions (s + 1) (kept_conditions op) ∧
  condition_payload <$> kept_conditions (reload_operation s op)
  = condition_payload <$> kept_conditions op.
Proof.
  intros Hc.
  assert (Hk : Forall stable_condition (kept_conditions op)).
  { rewrite Forall_forall in *. intros c [_ ?]%list_elem_of_filter. auto. }
  assert (Hp : Forall (λ c, trim (c_path c) ≠ "") (kept_conditions op))
    by (apply Forall_forall; intros c Hin; by apply list_elem_of_filter in Hin as [? _]).
  destruct (conditions_again (s + 1) _ Hk Hp) as [E1 E2].
  unfold kept_conditions at 1 3, reload_operation. cbn [conditions]. by rewrite E1.
Qed.

Lemma payload_again s op :
  valid_operation op → stable_operation op →
  operation_payload (reload_operation s op) = operation_payload op.
Proof.
  intros Hv [Hm Hs Hc]. destruct (reload_mode s op Hm) as (E1 & E2 & E3).
  destruct (mode_meta_required (mode op)) as (_ & Rf & Rt).
  assert (Hf : m_from (mode_meta_of (mode op)) = true → trim (from op) ≠ "").
  { rewrite Rf, bool_decide_eq_true, <-E1. apply v_from, Hv. }
  assert (Ht : m_to (mode_meta_of (mode op)) = true → trim (to op) ≠ "").
  { rewrite Rt, bool_decide_eq_true, <-E1. apply v_to, Hv. }
  destruct (valid_fields op Hv) as [Ff Ft]. rewrite E1 in Ff.
  assert (Rfrom : from (reload_operation s op) = from_field op) by done.
  assert (Rto : to (reload_operation s op) = to_field op) by done.
  destruct (kept_reload s op Hc) as [_ Ek].
  rewrite payload_plain, (payload_plain op); rewrite ?E1, ?E3; try done.
  2: { intros E. rewrite Rfrom, Ff, trim_idemp by done. auto. }
  2: { intros E. rewrite Rto, Ft, trim_idemp. auto. }
  rewrite Ek. unfold plain_payload. cbn zeta. f_equal.
  rewrite Rto, Ft, Rfrom, trim_idemp.
  unfold reload_operation. rewrite E1. cbn [logic path value_text keep_origin description].
  rewrite trim_idemp.
  repeat apply set_if_ext; try done.
  - destruct (kept_conditions op); [done|]. intros _. by destruct (bool_decide (logic op = "AND")).
  - intros E. by rewrite Ff, trim_idemp.
  - by destruct (m_keepOrigin _).
  - intros ->. by rewrite Hs.
  - destruct (m_pathOptional _); [|done]. by rewrite orb_true_r, trim_idemp.
  - intros E. apply andb_true_iff in E as [-> _]. by rewrite orb_true_r, trim_idemp.
  - intros ->. cbn [orb]. by rewrite trim_idemp.
Qed.

(** A valid row is never taken for a blank one. *)
Lemma valid_nonblank op : valid_operation op → isOperationBlank op = false.
Proof.
  intros Hv. unfold isOperationBlank. destruct (bool_decide_reflect (mode op = "set")) as [E|]; [|done].
  assert (trim (path op) ≠ "").
  { apply v_path; [done|]. unfold mode_or_set. rewrite E. apply (bool_decide_unpack _). by vm_compute. }
  by rewrite (bool_decide_false (trim (path op) = "")).
Qed.

Lemma reload_nonblank s op :
  valid_operation op → stable_operation op → isOperationBlank (reload_operation s op) = false.
Proof.
  intros Hv [Hm _ _]. destruct (reload_mode s op Hm) as (E1 & E2 & _).
  unfold isOperationBlank. rewrite E2.
  destruct (bool_decide_reflect (mode op = "set")) as [E|]; [|done].
  assert (trim (path op) ≠ "").
  { apply v_path; [done|]. rewrite E1, E. apply (bool_decide_unpack _). by vm_compute. }
  unfold reload_operation. rewrite E1, E. cbn [path].
  change (m_path (mode_meta_of "set")) with true. cbn [orb]. rewrite trim_idemp.
  by rewrite (bool_decide_false (trim (path op) = "")).
Qed.

(** Reopening a saved list of valid operations and storing it again
    without a change stores the same text, provided every value text is
    stable. *)
Theorem resave_same t (ops : list operation) (s : N) :
  Forall valid_operation ops → Forall stable_operation ops →
  buildOperationsJson t (reload_operations s ops) false = buildOperationsJson t ops false.
Proof.
  intros HV HS. unfold buildOperationsJson. fold (nonblank ops) (nonblank (reload_operations s ops)).
  assert (nonblank ops = ops) as ->.
  { apply filter_all. intros op Hin. rewrite Forall_forall in HV. auto using valid_nonblank. }
  assert (H : nonblank (reload_operations s ops) = reload_operations s ops ∧
    operation_payload <$> reload_operations s ops = operation_payload <$> ops).
  { revert s HS. unfold reload_operations. induction HV as [|op ops Hv HV IH]; intros s; [done|].
    intros [Hs HS]%Forall_cons. destruct (IH (s + draws op)%N HS) as [IH1 IH2].
    cbn [seeded fmap list_fmap]. split.
    - unfold nonblank in *. rewrite filter_cons_True; [by rewrite IH1|by apply reload_nonblank].
    - f_equal; [by apply payload_again|apply IH2]. }
  destruct H as [-> ->]. by destruct ops.
Qed.
End reload.

(** ** Examples *)

Definition two_rows : list operation :=
  [Operation "a" " note " " temperature " "set" " 0.5 " true "" "" "AND"
     [Condition "c" " model " "prefix" "gpt" true false; Condition "d" " " "full" "1" false false];
   Operation "b" "" "" "copy_header" "" false " X-A " "X-B" "OR" []].

Lemma save_reopen_witness :
  parseInitialState (λ _, 0%Z) (VStr (stringify2 (saved two_rows))) 3%N =
  (Ok (InitialState "visual" "operations" ""
        [Operation "param_override_0_3" "note" "temperature" "set" "0.5" true "" "" "AND"
           [Condition "param_override_0_4" "model" "prefix" "gpt" true false];
         Operation "param_override_0_5" "" "" "copy_header" "" false "X-A" "X-B" "OR" []]
        (stringify2 (saved two_rows)) ""), 6%N).
Proof.
  rewrite (save_reopen (λ _, 0%Z) (λ k _, k) two_rows true (stringify2 (saved two_rows)) 3%N);
    [by vm_compute|by vm_compute| |by vm_compute].
  repeat constructor; by vm_compute.
Defined.

Lemma resave_same_witness :
  buildOperationsJson (λ k _, k) (reload_operations (λ _, 0%Z) 3%N two_rows) false
  = Ok (stringify2 (saved two_rows)).
Proof.
  rewrite (resave_same (λ _, 0%Z) (λ k _, k) two_rows 3%N); [by vm_compute|..].
  - apply (validate_from_valid (λ _ _, "e")) with (i := 0); [done|by vm_compute].
  - repeat constructor; by vm_compute.
Defined.

(** A stored string that is itself JSON text changes type: the rule
    that sets [user] to the string ["123"] reopens as the number text [123],
    and storing it again without a change stores the number. *)
Theorem resave_retypes_string :
  let rule v := Operation "a" "" "user" "set" v false "" "" "OR" [] in
  ∃ reopened,
    parseInitialState (λ _, 0%Z) (VStr (stringify2 (saved [rule (qtext "'123'")]))) 0%N
      = (Ok reopened, 1%N) ∧
    buildOperationsJson (λ k _, k) [rule (qtext "'123'")] true
      = Ok (stringify2 (VObj [("operations", VArr [VObj [("mode", VStr "set");
          ("path", VStr "user"); ("value", VStr "123")]])])) ∧
    buildOperationsJson (λ k _, k) (i_operations reopened) true
      = Ok (stringify2 (VObj [("operations", VArr [VObj [("mode", VStr "set");
          ("path", VStr "user"); ("value", VNum (num_of_Z 123))]])])).
Proof.
  exists (InitialState "visual" "operations" ""
    [Operation "param_override_0_0" "" "user" "set" "123" false "" "" "OR" []]
    (stringify2 (saved [Operation "a" "" "user" "set" (qtext "'123'") false "" "" "OR" []])) "").
  cbn zeta. split; [by vm_compute|split; by vm_compute].
Qed.
