(* ===== verification/ParamOverrideTemplates.v ===== *)
(** * Parameter override rules: templates and field texts

    The constant data of [ParamOverrideEditorModal.jsx] and of
    [constants/channel-affinity-template.constants.js]: the template library
    the editor fills or appends, the built-in field guide with its search,
    and the labels that depend on the mode of a rule. *)
From Stdlib Require Import Ascii SpecFloat.
From S2P Require Import Prelude JsString JsNumber JsValue Json ParamOverride.

(** ** Labels and placeholders *)

Definition is_mode (mode : string) (modes : list string) : bool := bool_decide (mode ∈ modes).

Definition getModePathLabel (mode : string) : string :=
  if is_mode mode ["set_header"; "delete_header"] then "请求头名称"
  else if is_mode mode ["prune_objects"] then "目标路径（可选）"
  else "目标字段路径".

Definition getModePathPlaceholder (mode : string) : string :=
  if is_mode mode ["set_header"] then "Authorization"
  else if is_mode mode ["delete_header"] then "X-Debug-Mode"
  else if is_mode mode ["prune_objects"] then "messages"
  else "temperature".

Definition getModeFromLabel (mode : string) : string :=
  if is_mode mode ["replace"] then "匹配文本"
  else if is_mode mode ["regex_replace"] then "正则表达式"
  else if is_mode mode ["copy_header"; "move_header"] then "来源请求头"
  else "来源字段".

Definition getModeFromPlaceholder (mode : string) : string :=
  if is_mode mode ["replace"] then "openai/"
  else if is_mode mode ["regex_replace"] then "^gpt-"
  else if is_mode mode ["copy_header"; "move_header"] then "Authorization"
  else "model".

Definition getModeToLabel (mode : string) : string :=
  if is_mode mode ["replace"; "regex_replace"] then "替换为"
  else if is_mode mode ["copy_header"; "move_header"] then "目标请求头"
  else "目标字段".

Definition getModeToPlaceholder (mode : string) : string :=
  if is_mode mode ["replace"] then "（可留空）"
  else if is_mode mode ["regex_replace"] then "openai/gpt-"
  else if is_mode mode ["copy_header"; "move_header"] then "X-Upstream-Auth"
  else "original_model".

Definition getModeValueLabel (mode : string) : string :=
  if is_mode mode ["set_header"] then "请求头值（支持字符串或 JSON 映射）"
  else if is_mode mode ["pass_headers"] then "透传请求头（支持逗号分隔或 JSON 数组）"
  else if is_mode mode ["trim_prefix"; "trim_suffix"; "ensure_prefix"; "ensure_suffix"]
  then "前后缀文本"
  else if is_mode mode ["prune_objects"] then "清理规则（字符串或 JSON 对象）"
  else "值（支持 JSON 或普通文本）".

Definition getModeValuePlaceholder (mode : string) : string :=
  if is_mode mode ["set_header"] then
    join (String "010"%char "")
      ["纯字符串（整条覆盖）："; "Bearer sk-xxx"; ""; "或使用 JSON 规则："; "{";
       qtext "  'files-api-2025-04-14': null,";
       qtext "  'advanced-tool-use-2025-11-20': 'tool-search-tool-2025-10-19',";
       qtext "  '$append': ['context-1m-2025-08-07']"; "}"]
  else if is_mode mode ["pass_headers"] then "Authorization, X-Request-Id"
  else if is_mode mode ["trim_prefix"; "trim_suffix"; "ensure_prefix"; "ensure_suffix"]
  then "openai/"
  else if is_mode mode ["prune_objects"] then qtext "{'type':'redacted_thinking'}"
  else "0.7".

(** ** Templates *)

Definition str_cond (path mode value : string) : jsval :=
  VObj [("path", VStr path); ("mode", VStr mode); ("value", VStr value)].

Definition LEGACY_TEMPLATE : obj :=
  [("temperature", VNum (num_of_Z 0)); ("max_tokens", VNum (num_of_Z 1000))].

Definition OPERATION_TEMPLATE : list jsval :=
  [VObj [("description", VStr "Set default temperature for openai/* models.");
         ("path", VStr "temperature"); ("mode", VStr "set"); ("value", VNum (str_to_num "0.7"));
         ("conditions", VArr [str_cond "model" "prefix" "openai/"]); ("logic", VStr "AND")]].

Definition HEADER_PASSTHROUGH_TEMPLATE : list jsval :=
  [VObj [("description", VStr "Pass through X-Request-Id header to upstream.");
         ("mode", VStr "pass_headers"); ("value", VArr [VStr "X-Request-Id"]);
         ("keep_origin", VBool true)]].

Definition GEMINI_IMAGE_4K_TEMPLATE : list jsval :=
  [VObj [("description",
          VStr "Set imageSize to 4K when model contains gemini/image and ends with 4k.");
         ("mode", VStr "set"); ("path", VStr "generationConfig.imageConfig.imageSize");
         ("value", VStr "4K");
         ("conditions", VArr [str_cond "original_model" "contains" "gemini";
                              str_cond "original_model" "contains" "image";
                              str_cond "original_model" "suffix" "4k"]);
         ("logic", VStr "AND")]].

Definition AWS_BETA_VALUE : obj :=
  [("advanced-tool-use-2025-11-20", VStr "tool-search-tool-2025-10-19");
   ("bash_20241022", VNull); ("bash_20250124", VNull); ("code-execution-2025-08-25", VNull);
   ("compact-2026-01-12", VStr "compact-2026-01-12");
   ("computer-use-2025-01-24", VStr "computer-use-2025-01-24");
   ("computer-use-2025-11-24", VStr "computer-use-2025-11-24");
   ("context-1m-2025-08-07", VStr "context-1m-2025-08-07");
   ("context-management-2025-06-27", VStr "context-management-2025-06-27");
   ("effort-2025-11-24", VNull); ("fast-mode-2026-02-01", VNull);
   ("files-api-2025-04-14", VNull); ("fine-grained-tool-streaming-2025-05-14", VNull);
   ("interleaved-thinking-2025-05-14", VStr "interleaved-thinking-2025-05-14");
   ("mcp-client-2025-11-20", VNull); ("mcp-client-2025-04-04", VNull);
   ("mcp-servers-2025-12-04", VNull); ("output-128k-2025-02-19", VNull);
   ("structured-output-2024-03-01", VNull); ("prompt-caching-scope-2026-01-05", VNull);
   ("skills-2025-10-02", VNull); ("structured-outputs-2025-11-13", VNull);
   ("text_editor_20241022", VNull); ("text_editor_20250124", VNull);
   ("token-efficient-tools-2025-02-19", VNull);
   ("tool-search-tool-2025-10-19", VStr "tool-search-tool-2025-10-19");
   ("web-fetch-2025-09-10", VNull); ("web-search-2025-03-05", VNull);
   ("oauth-2025-04-20", VNull)].

Definition AWS_BEDROCK_ANTHROPIC_COMPAT_TEMPLATE : list jsval :=
  [VObj [("description",
          VStr "Normalize anthropic-beta header tokens for Bedrock compatibility.");
         ("mode", VStr "set_header"); ("path", VStr "anthropic-beta");
         ("value", VObj AWS_BETA_VALUE)];
   VObj [("description",
          VStr "Remove all tools[*].custom.input_examples before upstream relay.");
         ("mode", VStr "delete"); ("path", VStr "tools.*.custom.input_examples")]].

(** [buildPassHeadersTemplate(headers).operations]. *)
Definition buildPassHeadersTemplate (headers : list string) : list jsval :=
  [VObj [("mode", VStr "pass_headers"); ("value", VArr (VStr <$> headers));
         ("keep_origin", VBool true)]].

Definition CODEX_CLI_HEADER_PASSTHROUGH_HEADERS : list string :=
  ["Originator"; "Session_id"; "User-Agent"; "X-Codex-Beta-Features"; "X-Codex-Turn-Metadata"].

Definition CLAUDE_CLI_HEADER_PASSTHROUGH_HEADERS : list string :=
  ["X-Stainless-Arch"; "X-Stainless-Lang"; "X-Stainless-Os"; "X-Stainless-Package-Version";
   "X-Stainless-Retry-Count"; "X-Stainless-Runtime"; "X-Stainless-Runtime-Version";
   "X-Stainless-Timeout"; "User-Agent"; "X-App"; "Anthropic-Beta";
   "Anthropic-Dangerous-Direct-Browser-Access"; "Anthropic-Version"].

(** What a preset fills in: rules, or an old-format object. *)
Inductive template_payload :=
| Operations (ops : list jsval)
| Legacy (payload : obj).

Record preset := Preset { group : string; label : string; payload : template_payload }.

Definition TEMPLATE_PRESET_CONFIG : list (string * preset) :=
  [("operations_default", Preset "basic" "新格式模板（规则集）" (Operations OPERATION_TEMPLATE));
   ("legacy_default", Preset "basic" "旧格式模板（JSON 对象）" (Legacy LEGACY_TEMPLATE));
   ("pass_headers_auth",
      Preset "scenario" "请求头透传（X-Request-Id）" (Operations HEADER_PASSTHROUGH_TEMPLATE));
   ("gemini_image_4k", Preset "scenario" "Gemini 图片 4K" (Operations GEMINI_IMAGE_4K_TEMPLATE));
   ("claude_cli_headers_passthrough",
      Preset "scenario" "Claude CLI 请求头透传"
        (Operations (buildPassHeadersTemplate CLAUDE_CLI_HEADER_PASSTHROUGH_HEADERS)));
   ("codex_cli_headers_passthrough",
      Preset "scenario" "Codex CLI 请求头透传"
        (Operations (buildPassHeadersTemplate CODEX_CLI_HEADER_PASSTHROUGH_HEADERS)));
   ("aws_bedrock_anthropic_beta_override",
      Preset "scenario" "AWS Bedrock Claude 兼容模板"
        (Operations AWS_BEDROCK_ANTHROPIC_COMPAT_TEMPLATE))].

(** [getSelectedTemplatePreset] for the chosen key. *)
Definition getSelectedTemplatePreset (templatePresetKey : string) : preset :=
  default (Preset "basic" "新格式模板（规则集）" (Operations OPERATION_TEMPLATE))
    (obj_get TEMPLATE_PRESET_CONFIG templatePresetKey).

(** [templatePresetOptions] as (value, label). *)
Definition templatePresetOptions (templateGroupKey : string) : list (string * string) :=
  (λ kp : string * preset, (kp.1, label kp.2)) <$>
    filter (λ kp : string * preset, group kp.2 = templateGroupKey) TEMPLATE_PRESET_CONFIG.

(** ** Field guide *)

Record field := Field { f_key : string; f_label : string; f_tip : string }.

Definition BUILTIN_FIELD_SECTIONS : list (string * list field) :=
  [("常用请求字段",
     [Field "model" "模型名称" "支持多级模型名，例如 openai/gpt-4o-mini";
      Field "temperature" "采样温度" "控制输出随机性";
      Field "max_tokens" "最大输出 Token" "控制输出长度上限";
      Field "messages.-1.content" "最后一条消息内容" "常用于重写用户输入"]);
   ("上下文字段",
     [Field "retry.is_retry" "是否重试" "true 表示重试请求";
      Field "last_error.code" "上次错误码" "配合重试策略使用";
      Field "metadata.conversation_id" "会话 ID" "可用于路由或缓存命中"]);
   ("请求头映射字段",
     [Field "header_override_normalized.authorization" "标准化 Authorization" "统一小写后可稳定匹配";
      Field "header_override_normalized.x_debug_mode" "标准化 X-Debug-Mode"
        "适合灰度 / 调试开关判断"])].

Definition field_matches (keyword : string) (f : field) : bool :=
  includes keyword (to_lower (join " " (filter (λ s, s ≠ "") [f_key f; f_label f; f_tip f]))).

Definition filteredFieldGuideSections (fieldGuideKeyword : string) : list (string * list field) :=
  let keyword := to_lower (trim fieldGuideKeyword) in
  if bool_decide (keyword = "") then BUILTIN_FIELD_SECTIONS
  else filter (λ s : string * list field, s.2 ≠ [])
         ((λ s : string * list field, (s.1, filter (λ f, field_matches keyword f) s.2))
            <$> BUILTIN_FIELD_SECTIONS).

Definition fieldGuideFieldCount (fieldGuideKeyword : string) : nat :=
  sum_list ((λ s : string * list field, length s.2) <$> filteredFieldGuideSections fieldGuideKeyword).
