(* ===== verification/ParamOverrideEditor.v ===== *)
(** * Parameter override rules: the editor

    The [ParamOverrideEditorModal] component: its state hooks as a record,
    one definition per handler and effect, and the module counter
    [localIdSeed].  A handler reads the state of the render it was created
    in, so every read of a definition is a read of its argument; state setters
    are applied in order.  Toasts and [onSave] calls are recorded in
    [effects]; a handler that throws is [Throw].  The functional updaters are
    applied to the state at the call; the one place where the time of that
    application is observable ([duplicateOperation]) takes it as an argument.
    [t] is the i18n lookup, [now] the clock (see [ParamOverride]). *)
From Stdlib Require Import Ascii SpecFloat.
From S2P Require Import Prelude JsString JsNumber JsValue Json JsonRoundtrip.
From S2P Require Import ParamOverride ParamOverrideBuild ParamOverrideReload ParamOverrideTemplates.

(** ** State *)

Inductive effect :=
| ShowError (message : string)
| ShowSuccess (message : string)
| OnSave (result : string).

Record editor := Editor {
  editMode : string;
  visualMode : string;
  legacyValue : string;
  operations : list operation;
  jsonText : string;
  jsonError : string;
  operationSearch : string;
  selectedOperationId : string;
  expandedConditionMap : list (string * list string);
  draggedOperationId : string;
  dragOverOperationId : string;
  dragOverPosition : string;
  templateGroupKey : string;
  templatePresetKey : string;
  headerValueExampleVisible : bool;
  fieldGuideVisible : bool;
  fieldGuideTarget : string;
  fieldGuideKeyword : string;
  localIdSeed : N;
  effects : list effect }.

Definition setEditMode (v : string) (st : editor) : editor :=
  let '(Editor _ b c d e f g h i j k l m n o p q r s t) := st in
  Editor v b c d e f g h i j k l m n o p q r s t.
Definition setVisualMode (v : string) (st : editor) : editor :=
  let '(Editor a _ c d e f g h i j k l m n o p q r s t) := st in
  Editor a v c d e f g h i j k l m n o p q r s t.
Definition setLegacyValue (v : string) (st : editor) : editor :=
  let '(Editor a b _ d e f g h i j k l m n o p q r s t) := st in
  Editor a b v d e f g h i j k l m n o p q r s t.
Definition setOperations (v : list operation) (st : editor) : editor :=
  let '(Editor a b c _ e f g h i j k l m n o p q r s t) := st in
  Editor a b c v e f g h i j k l m n o p q r s t.
Definition setJsonText (v : string) (st : editor) : editor :=
  let '(Editor a b c d _ f g h i j k l m n o p q r s t) := st in
  Editor a b c d v f g h i j k l m n o p q r s t.
Definition setJsonError (v : string) (st : editor) : editor :=
  let '(Editor a b c d e _ g h i j k l m n o p q r s t) := st in
  Editor a b c d e v g h i j k l m n o p q r s t.
Definition setOperationSearch (v : string) (st : editor) : editor :=
  let '(Editor a b c d e f _ h i j k l m n o p q r s t) := st in
  Editor a b c d e f v h i j k l m n o p q r s t.
Definition setSelectedOperationId (v : string) (st : editor) : editor :=
  let '(Editor a b c d e f g _ i j k l m n o p q r s t) := st in
  Editor a b c d e f g v i j k l m n o p q r s t.
Definition setExpandedConditionMap (v : list (string * list string)) (st : editor) : editor :=
  let '(Editor a b c d e f g h _ j k l m n o p q r s t) := st in
  Editor a b c d e f g h v j k l m n o p q r s t.
Definition setDraggedOperationId (v : string) (st : editor) : editor :=
  let '(Editor a b c d e f g h i _ k l m n o p q r s t) := st in
  Editor a b c d e f g h i v k l m n o p q r s t.
Definition setDragOverOperationId (v : string) (st : editor) : editor :=
  let '(Editor a b c d e f g h i j _ l m n o p q r s t) := st in
  Editor a b c d e f g h i j v l m n o p q r s t.
Definition setDragOverPosition (v : string) (st : editor) : editor :=
  let '(Editor a b c d e f g h i j k _ m n o p q r s t) := st in
  Editor a b c d e f g h i j k v m n o p q r s t.
Definition setTemplateGroupKey (v : string) (st : editor) : editor :=
  let '(Editor a b c d e f g h i j k l _ n o p q r s t) := st in
  Editor a b c d e f g h i j k l v n o p q r s t.
Definition setTemplatePresetKey (v : string) (st : editor) : editor :=
  let '(Editor a b c d e f g h i j k l m _ o p q r s t) := st in
  Editor a b c d e f g h i j k l m v o p q r s t.
Definition setHeaderValueExampleVisible (v : bool) (st : editor) : editor :=
  let '(Editor a b c d e f g h i j k l m n _ p q r s t) := st in
  Editor a b c d e f g h i j k l m n v p q r s t.
Definition setFieldGuideVisible (v : bool) (st : editor) : editor :=
  let '(Editor a b c d e f g h i j k l m n o _ q r s t) := st in
  Editor a b c d e f g h i j k l m n o v q r s t.
Definition setFieldGuideTarget (v : string) (st : editor) : editor :=
  let '(Editor a b c d e f g h i j k l m n o p _ r s t) := st in
  Editor a b c d e f g h i j k l m n o p v r s t.
Definition setFieldGuideKeyword (v : string) (st : editor) : editor :=
  let '(Editor a b c d e f g h i j k l m n o p q _ s t) := st in
  Editor a b c d e f g h i j k l m n o p q v s t.
Definition setLocalIdSeed (v : N) (st : editor) : editor :=
  let '(Editor a b c d e f g h i j k l m n o p q r _ t) := st in
  Editor a b c d e f g h i j k l m n o p q r v t.
Definition setEffects (v : list effect) (st : editor) : editor :=
  let '(Editor a b c d e f g h i j k l m n o p q r s _) := st in
  Editor a b c d e f g h i j k l m n o p q r s v.

(** One more toast or callback. *)
Definition emit (x : effect) (e : editor) : editor := setEffects (effects e ++ [x]) e.

Definition showError (m : string) : editor → editor := emit (ShowError m).
Definition showSuccess (m : string) : editor → editor := emit (ShowSuccess m).

(** A handler: state in, state out, or an uncaught exception. *)
Definition handler : Type := st editor unit.

(** Run a computation that draws ids on the module counter. *)
Definition with_seed {A} (m : st N A) : st editor A := λ e,
  let '(r, s) := m (localIdSeed e) in (r, setLocalIdSeed s e).

Definition update (f : editor → editor) : handler := st_modify f.

(** [JSON.parse] succeeds. *)
Definition verifyJSON (s : string) : bool := bool_decide (is_Some (json_parse s)).

(** [operations.find((operation) => operation.id === selectedOperationId)]. *)
Definition find_operation (i : string) (ops : list operation) : option operation :=
  snd <$> list_find (λ op, id op = i) ops.

Definition selectedOperation (e : editor) : option operation :=
  find_operation (selectedOperationId e) (operations e).

(** [operations[0]?.id || '']. *)
Definition first_id (ops : list operation) : string :=
  match ops with op :: _ => id op | [] => "" end.

(** ** Derived values *)

Definition operationCount (e : editor) : nat :=
  length (filter (λ item, isOperationBlank item = false) (operations e)).

Definition searchable (op : operation) : string :=
  to_lower (join " " (filter (λ s, s ≠ "")
    [description op; mode op; path op; from op; to op; value_text op])).

Definition filteredOperations (e : editor) : list operation :=
  let keyword := to_lower (trim (operationSearch e)) in
  if bool_decide (keyword = "") then operations e
  else filter (λ op, includes keyword (searchable op) = true) (operations e).

(** How many operations have each mode, in order of first use. *)
Definition mode_counts (ops : list operation) : list (string * nat) :=
  foldl (λ acc op, obj_set (mode_or_set op) (S (default 0 (obj_get acc (mode_or_set op)))) acc)
    [] ops.

(** The comparison [b[1] - a[1]] of the sort. *)
Definition count_ge (a b : string * nat) : Prop := b.2 ≤ a.2.
#[export] Instance count_ge_dec a b : Decision (count_ge a b).
Proof. unfold count_ge. apply _. Defined.

Definition topOperationModes (e : editor) : list (string * nat) :=
  take 4 (merge_sort count_ge (mode_counts (operations e))).

Definition selectedConditionKeys (e : editor) : list string :=
  default [] (obj_get (expandedConditionMap e) (selectedOperationId e)).

Definition returnErrorDraft (e : editor) : option return_error_draft :=
  match selectedOperation e with
  | Some op => if bool_decide (mode op = "return_error")
               then Some (parseReturnErrorDraft (value_text op)) else None
  | None => None
  end.

Section editor.
Context (now : N → Z) (t : string → obj → string).

Abbreviation tr k := (t k []).

(** The memo that renders the [prune_objects] form: drawing the ids of the
    shown rules moves the counter. *)
Definition pruneObjectsDraft : st editor (option prune_draft) := λ e,
  match selectedOperation e with
  | Some op =>
      if bool_decide (mode op = "prune_objects")
      then (d ← with_seed (parsePruneObjectsDraft now (value_text op)); mret (Some d)) e
      else (Ok None, e)
  | None => (Ok None, e)
  end.

Definition buildVisualJson_of (e : editor) : res string :=
  buildVisualJson t (visualMode e) (legacyValue e) (operations e).

Definition visualValidationError (e : editor) : string :=
  if bool_decide (editMode e = "visual") then
    match buildVisualJson_of e with
    | Ok _ => ""
    | Throw m => if bool_decide (m = "") then tr "参数配置有误" else m
    end
  else "".

(** A later render: [useState([createDefaultOperation()])] evaluates its
    argument again and drops it. *)
Definition rerender (e : editor) : editor := setLocalIdSeed (localIdSeed e + 1)%N e.

(** ** Opening and effects *)

(** The first render: [useState] initial values. *)
Definition mount (seed : N) : res unit * editor :=
  let e0 := Editor "visual" "operations" "" [] "" "" "" "" [] "" "" "before" "basic"
              "operations_default" false false "path" "" seed [] in
  (op ← with_seed (createDefaultOperation now); update (setOperations [op])) e0.

(** The effect that runs when the modal is shown or its value changes. *)
Definition openModal (value : jsval) : handler := λ e,
  (n ← with_seed (parseInitialState now value);
   update (λ e,
     let e := setEditMode (i_editMode n) e in
     let e := setVisualMode (i_visualMode n) e in
     let e := setLegacyValue (i_legacyValue n) e in
     let e := setOperations (i_operations n) e in
     let e := setJsonText (i_jsonText n) e in
     let e := setJsonError (i_jsonError n) e in
     let e := setOperationSearch "" e in
     let e := setSelectedOperationId (first_id (i_operations n)) e in
     let e := setExpandedConditionMap [] e in
     let e := setDraggedOperationId "" e in
     let e := setDragOverOperationId "" e in
     let e := setDragOverPosition "before" e in
     let e := setTemplateGroupKey "basic" e in
     let e := setTemplatePresetKey
                (if bool_decide (i_visualMode n = "legacy") then "legacy_default"
                 else "operations_default") e in
     let e := setHeaderValueExampleVisible false e in
     let e := setFieldGuideVisible false e in
     let e := setFieldGuideTarget "path" e in
     setFieldGuideKeyword "" e)) e.

(** The effect that keeps the selection on an existing row. *)
Definition selectionEffect (e : editor) : editor :=
  match operations e with
  | [] => setSelectedOperationId "" e
  | op :: _ => if existsb (λ item, bool_decide (id item = selectedOperationId e)) (operations e)
               then e else setSelectedOperationId (id op) e
  end.

(** The effect that keeps the preset within the chosen group. *)
Definition presetEffect (e : editor) : editor :=
  match templatePresetOptions (templateGroupKey e) with
  | [] => e
  | o :: os => if existsb (λ item, bool_decide (item.1 = templatePresetKey e)) (o :: os)
               then e else setTemplatePresetKey o.1 e
  end.

(** ** Switching between the two editors *)

Definition switchToJsonMode : handler := λ e,
  if bool_decide (editMode e = "json") then (Ok (), e)
  else match buildVisualJson_of e with
  | Ok text => (Ok (), setEditMode "json" (setJsonError "" (setJsonText text e)))
  | Throw m =>
      let e1 := showError m e in
      let err := if bool_decide (m = "") then tr "参数配置有误" else m in
      if bool_decide (visualMode e = "legacy")
      then (Ok (), setEditMode "json" (setJsonError err (setJsonText (legacyValue e) e1)))
      else match buildOperationsJson t (operations e) false with
           | Ok text => (Ok (), setEditMode "json" (setJsonError err (setJsonText text e1)))
           | Throw m => (Throw m, e1)
           end
  end.

(** The rows, selection and mode of a fresh visual editor. *)
Definition show_visual (vmode legacy : string) (ops : list operation) (e : editor) : editor :=
  let e := setVisualMode vmode e in
  let e := setOperations ops e in
  let e := setSelectedOperationId (first_id ops) e in
  let e := setLegacyValue legacy e in
  let e := setJsonError "" e in
  setEditMode "visual" e.

Definition show_preset (key : string) (e : editor) : editor :=
  setTemplatePresetKey key (setTemplateGroupKey "basic" e).

Definition switchToVisualMode : handler := λ e,
  if bool_decide (editMode e = "visual") then (Ok (), e)
  else
    let trimmed := trim (jsonText e) in
    if bool_decide (trimmed = "") then
      (fallback ← with_seed (createDefaultOperation now);
       update (show_visual "operations" "" [fallback])) e
    else match json_parse trimmed with
    | None => (Ok (), showError (tr "参数覆盖必须是合法的 JSON 格式！") e)
    | Some (VObj o) =>
        match prop_opt (VObj o) "operations" with
        | VArr ops =>
            (nextOperations ← with_seed (normalize_operations now ops);
             update (λ e, show_preset "operations_default"
                            (show_visual "operations" "" nextOperations e))) e
        | _ =>
            (fallback ← with_seed (createDefaultOperation now);
             update (λ e, show_preset "legacy_default"
                            (show_visual "legacy" (stringify2 (VObj o)) [fallback] e))) e
        end
    | Some _ => (Ok (), showError (tr "参数覆盖必须是合法的 JSON 对象") e)
    end.

(** ** Templates *)

Definition fillLegacyTemplate (legacyPayload : obj) : handler :=
  let text := stringify2 (VObj legacyPayload) in
  fallback ← with_seed (createDefaultOperation now);
  update (λ e, setJsonText text (setExpandedConditionMap []
                 (show_visual "legacy" text [fallback] e))).

(** This handler leaves the old-format text as it is. *)
Definition fillOperationsTemplate (operationsPayload : list jsval) : handler :=
  nextOperations ← with_seed (st_map (normalizeOperation now) operationsPayload);
  finalOperations ← match nextOperations with
                    | [] => op ← with_seed (createDefaultOperation now); mret [op]
                    | _ => mret nextOperations
                    end;
  update (λ e,
    setJsonText (stringify2 (VObj [("operations", VArr operationsPayload)]))
      (setExpandedConditionMap []
        (show_visual "operations" (legacyValue e) finalOperations e))).

Definition appendLegacyTemplate (legacyPayload : obj) : handler := λ e,
  let trimmed := trim (legacyValue e) in
  let append (parsedCurrent : obj) : res unit * editor :=
    let text := stringify2 (VObj (obj_spread (obj_of_list legacyPayload) parsedCurrent)) in
    (fallback ← with_seed (createDefaultOperation now);
     update (λ e, setJsonText text (setExpandedConditionMap []
                    (show_visual "legacy" text [fallback] e)))) e in
  if bool_decide (visualMode e = "legacy") && negb (bool_decide (trimmed = "")) then
    match json_parse trimmed with
    | None => (Ok (), showError (tr "当前旧格式 JSON 不合法，无法追加模板") e)
    | Some (VObj o) => append o
    | Some _ => (Ok (), showError (tr "当前旧格式不是 JSON 对象，无法追加模板") e)
    end
  else append [].

Definition appendOperationsTemplate (operationsPayload : list jsval) : handler := λ e,
  (appended ← with_seed (st_map (normalizeOperation now) operationsPayload);
   let existing := if bool_decide (visualMode e = "operations")
                   then filter (λ item, isOperationBlank item = false) (operations e) else [] in
   update (λ e, setJsonText "" (setExpandedConditionMap []
                  (show_visual "operations" "" (existing ++ appended) e)))) e.

Definition fillTemplateFromLibrary : handler := λ e,
  match payload (getSelectedTemplatePreset (templatePresetKey e)) with
  | Legacy p => fillLegacyTemplate p e
  | Operations ops => fillOperationsTemplate ops e
  end.

Definition appendTemplateFromLibrary : handler := λ e,
  match payload (getSelectedTemplatePreset (templatePresetKey e)) with
  | Legacy p => appendLegacyTemplate p e
  | Operations ops => appendOperationsTemplate ops e
  end.

Definition clearValue : handler :=
  fallback ← with_seed (createDefaultOperation now);
  update (λ e,
    let e := setVisualMode "operations" e in
    let e := setLegacyValue "" e in
    let e := setOperations [fallback] e in
    let e := setSelectedOperationId (id fallback) e in
    let e := setExpandedConditionMap [] e in
    let e := setJsonText "" e in
    show_preset "operations_default" (setJsonError "" e)).

Definition resetEditorState : handler :=
  _ ← clearValue; update (setEditMode "visual").

(** ** Rows *)

(** The fields a patch of [updateOperation] sets; no caller patches the id
    or the conditions. *)
Record op_patch := OpPatch {
  p_description : option string; p_path : option string; p_mode : option string;
  p_value_text : option string; p_keep_origin : option bool; p_from : option string;
  p_to : option string; p_logic : option string }.

Definition no_patch : op_patch := OpPatch None None None None None None None None.

(** [{ ...item, ...patch }]. *)
Definition apply_patch (patch : op_patch) (op : operation) : operation :=
  Operation (id op) (default (description op) (p_description patch))
    (default (path op) (p_path patch)) (default (mode op) (p_mode patch))
    (default (value_text op) (p_value_text patch)) (default (keep_origin op) (p_keep_origin patch))
    (default (from op) (p_from patch)) (default (to op) (p_to patch))
    (default (logic op) (p_logic patch)) (conditions op).

Definition patch_value (v : string) : op_patch := OpPatch None None None (Some v) None None None None.
Definition patch_path (v : string) : op_patch := OpPatch None (Some v) None None None None None None.
Definition patch_from (v : string) : op_patch := OpPatch None None None None None (Some v) None None.
Definition patch_to (v : string) : op_patch := OpPatch None None None None None None (Some v) None.

(** [prev.map((item) => item.id === i ? f(item) : item)]. *)
Definition map_id (i : string) (f : operation → operation) (ops : list operation)
    : list operation :=
  (λ op, if bool_decide (id op = i) then f op else op) <$> ops.

Definition updateOperation (operationId : string) (patch : op_patch) (e : editor) : editor :=
  setOperations (map_id operationId (apply_patch patch) (operations e)) e.

Definition applyBuiltinField (fieldKey target : string) (e : editor) : editor :=
  match selectedOperation e with
  | None => showError (tr "请先选择一条规则") e
  | Some op =>
      let mode := mode_or_set op in
      let meta := mode_meta_of mode in
      let is_sync := bool_decide (mode = "sync_fields") in
      let spec := if is_sync then buildSyncTargetSpec "json" fieldKey else fieldKey in
      if bool_decide (target = "path") && (m_path meta || m_pathOptional meta || m_pathAlias meta)
      then updateOperation (id op) (patch_path fieldKey) e
      else if bool_decide (target = "from") && (m_from meta || m_pathAlias meta || is_sync)
      then updateOperation (id op) (patch_from spec) e
      else if bool_decide (target = "to") && (m_to meta || is_sync)
      then updateOperation (id op) (patch_to spec) e
      else showError (tr "当前规则不支持写入到该位置") e
  end.

Definition openFieldGuide (target : string) (e : editor) : editor :=
  setFieldGuideVisible true (setFieldGuideTarget target e).

(** [copy] is the clipboard helper; [ok] is what it resolves to. *)
Definition copyBuiltinField (ok : bool) (fieldKey : string) (e : editor) : editor :=
  if ok then showSuccess (t "已复制字段：{{name}}" [("name", VStr fieldKey)]) e
  else showError (tr "复制失败") e.

Definition formatSelectedOperationValueAsJson (e : editor) : editor :=
  match selectedOperation e with
  | None => e
  | Some op =>
      let raw := trim (value_text op) in
      if bool_decide (raw = "") then e
      else match json_parse raw with
           | None => showError (tr "当前值不是合法 JSON，无法格式化") e
           | Some v => showSuccess (tr "JSON 已格式化")
                         (updateOperation (id op) (patch_value (stringify2 v)) e)
           end
  end.

(** ** Structured values *)

(** [draftPatch] is the function [(draft) => ({ ...draft, ...draftPatch })]. *)
Definition updateReturnErrorDraft (operationId : string)
    (draftPatch : return_error_draft → return_error_draft) (e : editor) : editor :=
  match find_operation operationId (operations e) with
  | None => e
  | Some current =>
      let draft := parseReturnErrorDraft (value_text current) in
      updateOperation operationId (patch_value (buildReturnErrorValueText (draftPatch draft))) e
  end.

(** [updater] may draw ids (it runs inside the handler). *)
Definition updatePruneObjectsDraft (operationId : string)
    (updater : prune_draft → st N prune_draft) : handler := λ e,
  match find_operation operationId (operations e) with
  | None => (Ok (), e)
  | Some current =>
      (nextDraft ← with_seed (draft ← parsePruneObjectsDraft now (value_text current);
                              updater draft);
       update (updateOperation operationId (patch_value (buildPruneObjectsValueText nextDraft)))) e
  end.

Definition with_rules (simple : bool) (rules : list condition) (d : prune_draft) : prune_draft :=
  PruneDraft simple (typeText d) (pd_logic d) (recursive d) rules.

Definition addPruneRule (operationId : string) : handler :=
  updatePruneObjectsDraft operationId (λ draft,
    rule ← normalizePruneRule now (VObj []);
    mret (with_rules false (rules draft ++ [rule]) draft)).

Definition updatePruneRule (operationId ruleId : string) (patch : condition → condition) : handler :=
  updatePruneObjectsDraft operationId (λ draft,
    mret (with_rules (pd_simpleMode draft)
      ((λ rule, if bool_decide (c_id rule = ruleId) then patch rule else rule) <$> rules draft)
      draft)).

Definition removePruneRule (operationId ruleId : string) : handler :=
  updatePruneObjectsDraft operationId (λ draft,
    mret (with_rules (pd_simpleMode draft)
      (filter (λ rule, c_id rule ≠ ruleId) (rules draft)) draft)).

(** ** Adding, moving, removing rows *)

Definition addOperation : handler :=
  created ← with_seed (createDefaultOperation now);
  update (λ e, setSelectedOperationId (id created) (setOperations (operations e ++ [created]) e)).

Definition resetOperationDragState (e : editor) : editor :=
  setDragOverPosition "before" (setDragOverOperationId "" (setDraggedOperationId "" e)).

Definition moveOperation (sourceId targetId position : string) (e : editor) : editor :=
  if bool_decide (sourceId = "") || bool_decide (targetId = "") || bool_decide (sourceId = targetId)
  then e
  else setSelectedOperationId sourceId
         (setOperations (reorderOperations (operations e) sourceId targetId position) e).

Definition handleOperationDragStart (operationId : string) (e : editor) : editor :=
  setSelectedOperationId operationId (setDraggedOperationId operationId e).

(** [lower_half]: the pointer is below the middle of the row. *)
Definition handleOperationDragOver (operationId : string) (lower_half : bool) (e : editor)
    : editor :=
  if bool_decide (draggedOperationId e = "") || bool_decide (draggedOperationId e = operationId)
  then e
  else setDragOverPosition (if lower_half then "after" else "before")
         (setDragOverOperationId operationId e).

(** [transferred]: the text the drag event carries. *)
Definition handleOperationDrop (operationId transferred : string) (e : editor) : editor :=
  let sourceId := if bool_decide (draggedOperationId e = "") then transferred
                  else draggedOperationId e in
  let position := if bool_decide (dragOverOperationId e = operationId) then dragOverPosition e
                  else "before" in
  resetOperationDragState (moveOperation sourceId operationId position e).

(** The object [duplicateOperation] normalises. *)
Definition condition_clone (c : condition) : jsval :=
  VObj [("path", VStr (c_path c)); ("mode", VStr (c_mode c));
        ("value", parseLooseValue (c_value_text c)); ("invert", VBool (c_invert c));
        ("pass_missing_key", VBool (c_pass_missing_key c))].

Definition operation_clone (op : operation) : jsval :=
  VObj [("description", VStr (description op)); ("path", VStr (path op));
        ("mode", VStr (mode op)); ("value", parseLooseValue (value_text op));
        ("keep_origin", VBool (keep_origin op)); ("from", VStr (from op)); ("to", VStr (to op));
        ("logic", VStr (logic op)); ("conditions", VArr (condition_clone <$> conditions op))].

(** [eager]: the updater runs during the call of the setter (no other update
    of the component is pending), so the handler sees the id of the copy. *)
Definition duplicateOperation (eager : bool) (operationId : string) : handler := λ e,
  match list_find (λ item, id item = operationId) (operations e) with
  | None => (Ok (), e)
  | Some (index, source) =>
      (cloned ← with_seed (normalizeOperation now (operation_clone source));
       update (λ e,
         let e := setOperations (insert_at (S index) cloned (operations e)) e in
         if eager then setSelectedOperationId (id cloned) e else e)) e
  end.

Definition removeOperation (operationId : string) : handler := λ e,
  let drop_expanded e :=
    setExpandedConditionMap (obj_delete operationId (expandedConditionMap e)) e in
  if decide (length (operations e) ≤ 1) then
    (op ← with_seed (createDefaultOperation now);
     update (λ e, drop_expanded (setOperations [op] e))) e
  else (Ok (), drop_expanded
                 (setOperations (filter (λ item, id item ≠ operationId) (operations e)) e)).

(** ** Conditions *)

Definition with_conditions (f : list condition → list condition) (op : operation) : operation :=
  Operation (id op) (description op) (path op) (mode op) (value_text op) (keep_origin op)
    (from op) (to op) (logic op) (f (conditions op)).

(** [prev[operationId] || []]. *)
Definition expanded_of (i : string) (m : list (string * list string)) : list string :=
  default [] (obj_get m i).

Definition addCondition (operationId : string) : handler :=
  created ← with_seed (createDefaultCondition now);
  update (λ e,
    let e := setOperations
               (map_id operationId (with_conditions (λ cs, cs ++ [created])) (operations e)) e in
    setExpandedConditionMap
      (obj_define operationId (expanded_of operationId (expandedConditionMap e) ++ [c_id created])
         (expandedConditionMap e)) e).

(** [patch] is [(condition) => ({ ...condition, ...patch })]. *)
Definition updateCondition (operationId conditionId : string) (patch : condition → condition)
    (e : editor) : editor :=
  setOperations
    (map_id operationId
       (with_conditions (λ cs,
          (λ c, if bool_decide (c_id c = conditionId) then patch c else c) <$> cs))
       (operations e)) e.

Definition removeCondition (operationId conditionId : string) (e : editor) : editor :=
  let e := setOperations
             (map_id operationId (with_conditions (filter (λ c, c_id c ≠ conditionId)))
                (operations e)) e in
  setExpandedConditionMap
    (obj_define operationId
       (filter (λ i, i ≠ conditionId) (expanded_of operationId (expandedConditionMap e)))
       (expandedConditionMap e)) e.

Definition set_expanded (operationId : string) (keys : list string) (e : editor) : editor :=
  setExpandedConditionMap (obj_define operationId keys (expandedConditionMap e)) e.

Definition handleConditionCollapseChange (operationId : string) (activeKeys : list string)
    : editor → editor :=
  set_expanded operationId (filter (λ k, k ≠ "") activeKeys).

Definition expandAllSelectedConditions (e : editor) : editor :=
  match selectedOperation e with
  | Some op => if bool_decide (selectedOperationId e = "") then e
               else set_expanded (selectedOperationId e) (c_id <$> conditions op) e
  | None => e
  end.

Definition collapseAllSelectedConditions (e : editor) : editor :=
  if bool_decide (selectedOperationId e = "") then e
  else set_expanded (selectedOperationId e) [] e.

(** ** The JSON text and saving *)

Definition handleJsonChange (nextValue : string) (e : editor) : editor :=
  let e := setJsonText nextValue e in
  let trimmed := trim nextValue in
  if bool_decide (trimmed = "") then setJsonError "" e
  else if verifyJSON trimmed then setJsonError "" e
  else setJsonError (tr "JSON格式错误") e.

Definition formatJson (e : editor) : editor :=
  let trimmed := trim (jsonText e) in
  if bool_decide (trimmed = "") then e
  else match json_parse trimmed with
       | None => showError (tr "参数覆盖必须是合法的 JSON 格式！") e
       | Some v => setJsonError "" (setJsonText (stringify2 v) e)
       end.

(** The [try] body of [handleSave]: the text to save. *)
Definition save_text (e : editor) : res string :=
  if bool_decide (editMode e = "json") then
    let trimmed := trim (jsonText e) in
    if bool_decide (trimmed = "") then Ok ""
    else match json_parse trimmed with
         | None => Throw (tr "参数覆盖必须是合法的 JSON 格式！")
         | Some v => Ok (stringify2 v)
         end
  else buildVisualJson_of e.

Definition handleSave (e : editor) : editor :=
  match save_text e with
  | Ok result => emit (OnSave result) e
  | Throw m => showError m e
  end.

(** ** Events *)

(** The handlers that only move the shown state: the search box, the row
    clicked, the template selectors, the side dialogs, the old-format text. *)
Inductive view_event :=
| Search (s : string) | Select (i : string) | Group (g : string) | PresetKey (k : string)
| ExampleVisible (b : bool) | GuideVisible (b : bool) | GuideTarget (s : string)
| GuideKeyword (s : string) | LegacyText (s : string).

Definition view (v : view_event) : editor → editor :=
  match v with
  | Search s => setOperationSearch s
  | Select i => setSelectedOperationId i
  | Group g => setTemplateGroupKey (if bool_decide (g = "") then "basic" else g)
  | PresetKey k => setTemplatePresetKey (if bool_decide (k = "") then "operations_default" else k)
  | ExampleVisible b => setHeaderValueExampleVisible b
  | GuideVisible b => setFieldGuideVisible b
  | GuideTarget s => setFieldGuideTarget (if bool_decide (s = "") then "path" else s)
  | GuideKeyword s => setFieldGuideKeyword s
  | LegacyText s => setLegacyValue s
  end.

(** What a user of the modal, a render or an effect can do. *)
Inductive step : editor → editor → Prop :=
| step_open v e e' : openModal v e = (Ok (), e') → step e e'
| step_selection e : step e (selectionEffect e)
| step_preset e : step e (presetEffect e)
| step_render e d e' : pruneObjectsDraft e = (Ok d, e') → step e e'
| step_rerender e : step e (rerender e)
| step_view v e : step e (view v e)
| step_to_json e e' : switchToJsonMode e = (Ok (), e') → step e e'
| step_to_visual e e' : switchToVisualMode e = (Ok (), e') → step e e'
| step_fill e e' : fillTemplateFromLibrary e = (Ok (), e') → step e e'
| step_append e e' : appendTemplateFromLibrary e = (Ok (), e') → step e e'
| step_reset e e' : resetEditorState e = (Ok (), e') → step e e'
| step_builtin k tg e : step e (applyBuiltinField k tg e)
| step_copy b k e : step e (copyBuiltinField b k e)
| step_guide tg e : step e (openFieldGuide tg e)
| step_update i p e : step e (updateOperation i p e)
| step_format_value e : step e (formatSelectedOperationValueAsJson e)
| step_return_error i f e : step e (updateReturnErrorDraft i f e)
| step_prune i f e e' :
    updatePruneObjectsDraft i (λ d, mret (f d)) e = (Ok (), e') → step e e'
| step_add_rule i e e' : addPruneRule i e = (Ok (), e') → step e e'
| step_update_rule i r f e e' : updatePruneRule i r f e = (Ok (), e') → step e e'
| step_remove_rule i r e e' : removePruneRule i r e = (Ok (), e') → step e e'
| step_add e e' : addOperation e = (Ok (), e') → step e e'
| step_drag_start i e : step e (handleOperationDragStart i e)
| step_drag_over i b e : step e (handleOperationDragOver i b e)
| step_drop i s e : step e (handleOperationDrop i s e)
| step_drag_end e : step e (resetOperationDragState e)
| step_duplicate b i e e' : duplicateOperation b i e = (Ok (), e') → step e e'
| step_remove i e e' : removeOperation i e = (Ok (), e') → step e e'
| step_add_condition i e e' : addCondition i e = (Ok (), e') → step e e'
| step_update_condition i c f e :
    (∀ x, c_id (f x) = c_id x) → step e (updateCondition i c f e)
| step_remove_condition i c e : step e (removeCondition i c e)
| step_collapse i ks e : step e (handleConditionCollapseChange i ks e)
| step_expand_all e : step e (expandAllSelectedConditions e)
| step_collapse_all e : step e (collapseAllSelectedConditions e)
| step_json s e : step e (handleJsonChange s e)
| step_format e : step e (formatJson e)
| step_save e : step e (handleSave e).

(** States the component can be in after it is first rendered. *)
Inductive reachable : editor → Prop :=
| reach_mount seed e : mount seed = (Ok (), e) → reachable e
| reach_step e e' : reachable e → step e e' → reachable e'.
End editor.
