(* ===== verification/ParamOverrideInvariant.v ===== *)
(** * Parameter override rules: the editor keeps its rows identifiable

    In every reachable state of the editor there is at least one row, and
    the ids of rows and conditions are pairwise distinct and were drawn
    before; the handlers that address a row or a condition by its id depend
    on it. *)
From Stdlib Require Import Ascii SpecFloat.
From S2P Require Import Prelude JsString JsNumber JsValue Json JsonRoundtrip.
From S2P Require Import ParamOverride ParamOverrideBuild ParamOverrideReload ParamOverrideTemplates ParamOverrideEditor.

(** All ids of the rows and of their conditions. *)
Definition all_ids (ops : list operation) : list string := ops ≫= op_ids.

Lemma all_ids_app ops1 ops2 : all_ids (ops1 ++ ops2) = all_ids ops1 ++ all_ids ops2.
Proof. apply bind_app. Qed.

Section ids_ok.
Context (now : N → Z).

Lemma ids_from_app s n m :
  ids_from now s (n + m) = ids_from now s n ++ ids_from now (s + N.of_nat n) m.
Proof.
  revert s. induction n as [|n IH]; intros s.
  - cbn [Nat.add app ids_from seq fmap list_fmap]. by rewrite N.add_0_r.
  - change (S n + m) with (S (n + m)). rewrite !ids_from_S, IH. by replace (s + 1 + N.of_nat n)%N with (s + N.of_nat (S n))%N by lia.
Qed.

(** The rows [ops] with ids drawn one after the other from [s] to [s']. *)
Definition fresh_rows (s : N) (ops : list operation) (s' : N) : Prop :=
  all_ids ops = ids_from now s (length (all_ids ops)) ∧
  s' = (s + N.of_nat (length (all_ids ops)))%N.

Lemma fresh_rows_cons s op s1 ops s' :
  op_ids op = ids_from now s (length (op_ids op)) → s1 = (s + N.of_nat (length (op_ids op)))%N →
  fresh_rows s1 ops s' → fresh_rows s (op :: ops) s'.
Proof.
  intros E -> [E' ->]. unfold fresh_rows, all_ids in *. cbn [mbind list_bind].
  rewrite length_app, ids_from_app, <-E, <-E'. split; [done|lia].
Qed.

Lemma st_map_fresh l s ops s' :
  st_map (normalizeOperation now) l s = (Ok ops, s') → fresh_rows s ops s'.
Proof.
  revert s ops s'. induction l as [|v l IH]; intros s ops s'; cbn [st_map].
  - intros [= <- <-]. split; [done|cbn; lia].
  - intros (op & s1 & H1 & (ops' & s2 & H2 & E)%st_bind_inv)%st_bind_inv.
    unfold mret, st_ret in E. simplify_eq.
    apply normalizeOperation_run in H1 as (Hi & -> & _).
    eapply fresh_rows_cons; [done..|]. by apply IH.
Qed.

Lemma fresh_row s v op s' :
  normalizeOperation now v s = (Ok op, s') → fresh_rows s [op] s'.
Proof.
  intros H. apply (st_map_fresh [v]). cbn [st_map]. erewrite st_bind_Ok by done. done.
Qed.

(** ids are distinct and drawn below seed [s]. *)
Definition ids_ok (s : N) (ops : list operation) : Prop :=
  NoDup (all_ids ops) ∧ Forall (drawn now 0 s) (all_ids ops).

Lemma ids_ok_mono s s' ops : (s ≤ s')%N → ids_ok s ops → ids_ok s' ops.
Proof.
  intros Hs [? HF]. split; [done|]. eapply Forall_impl; [done|].
  intros i Hd. eapply drawn_mono; [..|done]; lia.
Qed.

Lemma ids_ok_sublist s ops ops' :
  all_ids ops' `sublist_of` all_ids ops → ids_ok s ops → ids_ok s ops'.
Proof.
  intros Hs [Hn HF]. split; [by eapply sublist_NoDup|].
  rewrite Forall_forall in *. intros i Hi. apply HF. by eapply elem_of_sublist.
Qed.

Lemma ids_ok_perm s ops ops' : ops' ≡ₚ ops → ids_ok s ops → ids_ok s ops'.
Proof.
  intros Hp [Hn HF]. assert (all_ids ops' ≡ₚ all_ids ops) as E by (by apply bind_Permutation).
  split; by rewrite E.
Qed.

Lemma ids_ok_app s s' ops ops' :
  ids_ok s ops → fresh_rows s ops' s' → ids_ok s' (ops ++ ops').
Proof.
  intros [Hn HF] [E ->]. unfold ids_ok. rewrite all_ids_app.
  pose proof (ids_from_drawn now s (length (all_ids ops'))) as HF'. rewrite <-E in HF'. split.
  - apply NoDup_app. split_and!; [done| |rewrite E; apply ids_from_NoDup].
    intros i Hi Hi'. rewrite Forall_forall in HF, HF'.
    by eapply (drawn_disjoint now 0); [by apply HF|by apply HF'|].
  - apply Forall_app. split; (eapply Forall_impl; [done|]);
      intros i Hd; (eapply drawn_mono; [..|exact Hd]; lia).
Qed.

Lemma ids_ok_fresh s ops s' : fresh_rows s ops s' → ids_ok s' ops.
Proof. apply (ids_ok_app s s' []). split; constructor. Qed.

Lemma ids_ok_ids s ops : ids_ok s ops → NoDup (id <$> ops).
Proof.
  intros [Hn _]. eapply sublist_NoDup; [done|]. clear.
  induction ops as [|op ops IH]; [constructor|]. cbn. apply sublist_skip.
  by apply sublist_inserts_l.
Qed.
End ids_ok.

(** ** Draws only move the counter up *)

Definition grows {A} (m : st N A) : Prop := ∀ s, (s ≤ (m s).2)%N.

Lemma grows_ret {A} (a : A) : grows (mret a).
Proof. intros s. cbn. lia. Qed.
Lemma grows_lift {A} (r : res A) : grows (st_lift r).
Proof. intros s. cbn. lia. Qed.
Lemma grows_throw {A} m : grows (st_throw (A := A) m).
Proof. intros s. cbn. lia. Qed.
Lemma grows_bind {A B} (m : st N A) (f : A → st N B) :
  grows m → (∀ a, grows (f a)) → grows (m ≫= f).
Proof.
  intros Hm Hf s. unfold mbind, st_bind. specialize (Hm s).
  destruct (m s) as [[a|e] s1]; cbn in *; [|done]. specialize (Hf a s1). lia.
Qed.
Lemma grows_catch {A} (m : st N A) h : grows m → (∀ e, grows (h e)) → grows (st_catch m h).
Proof.
  intros Hm Hh s. unfold st_catch. specialize (Hm s).
  destruct (m s) as [[a|e] s1]; cbn in *; [done|]. specialize (Hh e s1). lia.
Qed.
Lemma grows_map {A B} (f : A → st N B) l : (∀ a, grows (f a)) → grows (st_map f l).
Proof.
  intros Hf. induction l; cbn [st_map]; [apply grows_ret|].
  apply grows_bind; [done|]. intros b. apply grows_bind; [done|]. intros bs. apply grows_ret.
Qed.
Lemma grows_nextLocalId now : grows (nextLocalId now).
Proof. intros s. cbn. lia. Qed.

Create HintDb grows discriminated.
#[local] Hint Resolve grows_ret grows_lift grows_throw grows_bind grows_catch grows_map
  grows_nextLocalId : grows.

Lemma grows_condition now v : grows (normalizeCondition now v).
Proof. unfold normalizeCondition. auto 10 with grows. Qed.
#[local] Hint Resolve grows_condition : grows.

Lemma grows_prune_draft now text : grows (parsePruneObjectsDraft now text).
Proof.
  unfold parsePruneObjectsDraft, prune_draft_of_object, prune_rules_of_object, normalizePruneRule.
  cbn zeta. repeat (first [apply grows_ret|apply grows_lift|apply grows_throw|apply grows_bind
    |apply grows_catch|apply grows_map|apply grows_nextLocalId|apply grows_condition
    |match goal with |- ∀ _, grows _ => intros ? end|case_match]).
Qed.

(** ** The invariant *)

Lemma with_seed_inv {A} (m : st N A) e a e' :
  with_seed m e = (Ok a, e') →
  ∃ s, m (localIdSeed e) = (Ok a, s) ∧ e' = setLocalIdSeed s e.
Proof. unfold with_seed. destruct (m (localIdSeed e)) as [r s] eqn:E. naive_solver. Qed.

Section invariant.
Context (now : N → Z) (t : string → obj → string).

Record wf (e : editor) : Prop := Wf {
  wf_nonempty : operations e ≠ [];
  wf_ids : ids_ok now (localIdSeed e) (operations e) }.

(** A handler that keeps the rows and at most draws ids. *)
Lemma wf_same e e' :
  operations e' = operations e → (localIdSeed e ≤ localIdSeed e')%N → wf e → wf e'.
Proof. intros E Hs [Hne Hi]. split; rewrite E; [done|]. by eapply ids_ok_mono. Qed.

Lemma wf_emit x e : wf e → wf (emit x e).
Proof. apply wf_same; by destruct e. Qed.

(** A handler that shows freshly normalised rows. *)
Lemma wf_fresh e' ops s :
  operations e' = ops → ops ≠ [] → fresh_rows now s ops (localIdSeed e') → wf e'.
Proof. intros <- ? Hf. split; [done|]. by eapply ids_ok_fresh. Qed.

(** ** Changing rows in place *)

Lemma all_ids_map_sublist (f : operation → operation) ops :
  (∀ op, op_ids (f op) `sublist_of` op_ids op) →
  all_ids (f <$> ops) `sublist_of` all_ids ops.
Proof. intros Hf. induction ops; [constructor|]. by apply sublist_app. Qed.

Lemma wf_map f e e' :
  (∀ op, op_ids (f op) `sublist_of` op_ids op) →
  operations e' = f <$> operations e → localIdSeed e' = localIdSeed e → wf e → wf e'.
Proof.
  intros Hf E Hs [Hne Hi]. split; rewrite E, ?Hs.
  - by destruct (operations e).
  - eapply ids_ok_sublist; [by apply all_ids_map_sublist|done].
Qed.

Lemma wf_map_id i f e e' :
  (∀ op, op_ids (f op) `sublist_of` op_ids op) →
  operations e' = map_id i f (operations e) → localIdSeed e' = localIdSeed e → wf e → wf e'.
Proof.
  intros Hf E. apply (wf_map (λ op, if bool_decide (id op = i) then f op else op)); [|done].
  intros op. by case_bool_decide.
Qed.

Lemma map_id_cons i f op ops :
  map_id i f (op :: ops) = (if bool_decide (id op = i) then f op else op) :: map_id i f ops.
Proof. done. Qed.
Lemma all_ids_cons op ops : all_ids (op :: ops) = op_ids op ++ all_ids ops.
Proof. done. Qed.

Lemma map_id_absent i f ops : i ∉ (id <$> ops) → map_id i f ops = ops.
Proof.
  induction ops as [|op ops IH]; [done|]. rewrite map_id_cons. cbn. rewrite not_elem_of_cons.
  intros [? ?]. rewrite bool_decide_false by done. by rewrite IH.
Qed.

(** Adding a condition adds its id at most once. *)
Lemma all_ids_add_condition i c ops :
  NoDup (id <$> ops) →
  ∃ new, all_ids (map_id i (with_conditions (λ cs, cs ++ [c])) ops) ≡ₚ new ++ all_ids ops ∧
    (new = [] ∨ new = [c_id c]).
Proof.
  induction ops as [|op ops IH]; [by exists []; auto|]. cbn [fmap list_fmap].
  intros [Hn Hnd]%NoDup_cons. rewrite map_id_cons, !all_ids_cons. case_bool_decide as E.
  - subst i. rewrite map_id_absent by done. exists [c_id c]. split; [|by auto].
    unfold op_ids, with_conditions. cbn [id conditions]. rewrite fmap_app. cbn [app fmap list_fmap].
    solve_Permutation.
  - destruct (IH Hnd) as (new & Hp & Hn'). exists new. split; [|done]. rewrite Hp. solve_Permutation.
Qed.

(** ** Rows that are read from a stored value or a template *)

Lemma default_fresh s op s' :
  createDefaultOperation now s = (Ok op, s') → fresh_rows now s [op] s'.
Proof. apply fresh_row. Qed.

Lemma normalize_operations_fresh l s ops s' :
  normalize_operations now l s = (Ok ops, s') → ops ≠ [] ∧ fresh_rows now s ops s'.
Proof.
  unfold normalize_operations. destruct l as [|v l].
  - intros (op & s1 & H & E)%st_bind_inv. unfold mret, st_ret in E. simplify_eq.
    eauto using default_fresh.
  - intros H. split; [|by eapply st_map_fresh].
    intros ->. cbn [st_map] in H. apply st_bind_inv in H as (? & ? & _ & H).
    apply st_bind_inv in H as (? & ? & _ & H). done.
Qed.

Lemma parseInitialState_fresh v s n s' :
  parseInitialState now v s = (Ok n, s') →
  i_operations n ≠ [] ∧ fresh_rows now s (i_operations n) s'.
Proof.
  assert (Hdef : ∀ s (f : operation → initial_state) n s',
    (op ← createDefaultOperation now; mret (f op)) s = (Ok n, s') →
    (∀ op, i_operations (f op) = [op]) →
    i_operations n ≠ [] ∧ fresh_rows now s (i_operations n) s').
  { clear. intros s f n s' (op & s1 & H & E)%st_bind_inv Hf. unfold mret, st_ret in E. simplify_eq.
    rewrite Hf. eauto using default_fresh. }
  unfold parseInitialState. cbn zeta. case_bool_decide; [intros E; eapply Hdef; [exact E|done]|].
  destruct (json_parse _) as [p|]; [|intros E; eapply Hdef; [exact E|done]].
  destruct p as [| | | | | |o]; try (intros E; eapply Hdef; [exact E|done]).
  destruct (prop_opt (VObj o) "operations"); try (intros E; eapply Hdef; [exact E|done]).
  intros (ops & s1 & Hn & E)%st_bind_inv. unfold mret, st_ret in E. simplify_eq.
  by eapply normalize_operations_fresh.
Qed.

(** A handler that draws rows and then shows them. *)
Lemma wf_show {A} (m : st N A) (rows : A → list operation) (f : A → editor → editor) e e' :
  (a ← with_seed m; update (f a)) e = (Ok (), e') →
  (∀ a s, m (localIdSeed e) = (Ok a, s) → rows a ≠ [] ∧ fresh_rows now (localIdSeed e) (rows a) s) →
  (∀ a e, operations (f a e) = rows a ∧ localIdSeed (f a e) = localIdSeed e) → wf e'.
Proof.
  intros (a & e1 & (s & Hm & ->)%with_seed_inv & E)%st_bind_inv Hrows Hf.
  unfold update, st_modify in E. simplify_eq. destruct (Hrows a s Hm) as [Hne Hfr].
  destruct (Hf a (setLocalIdSeed s e)) as [E1 E2].
  eapply wf_fresh; [exact E1|done|]. rewrite E2. by destruct e.
Qed.

Lemma default_rows s a s' :
  createDefaultOperation now s = (Ok a, s') → [a] ≠ [] ∧ fresh_rows now s [a] s'.
Proof. eauto using default_fresh. Qed.

Lemma show_visual_core m l ops e :
  operations (show_visual m l ops e) = ops ∧ localIdSeed (show_visual m l ops e) = localIdSeed e.
Proof. by destruct e. Qed.

Lemma wf_mount seed e : mount now seed = (Ok (), e) → wf e.
Proof.
  intros H. unfold mount in H. eapply (wf_show _ (λ op, [op])) in H; [done|..].
  - intros ??. apply default_rows.
  - by intros a [].
Qed.

Lemma wf_open v e e' : openModal now v e = (Ok (), e') → wf e'.
Proof.
  intros H. unfold openModal in H. eapply (wf_show _ i_operations) in H; [done|..].
  - intros ??. apply parseInitialState_fresh.
  - by intros a [].
Qed.

Lemma wf_to_visual e e' : switchToVisualMode now t e = (Ok (), e') → wf e → wf e'.
Proof.
  unfold switchToVisualMode. case_bool_decide; [by intros [= <-]|]. cbn zeta.
  case_bool_decide.
  { intros E _. eapply (wf_show _ (λ op, [op])) in E; [done|intros ??; apply default_rows|].
    intros a e0. apply show_visual_core. }
  assert (Herr : ∀ m, (Ok (), showError m e) = (Ok (), e') → wf e → wf e').
  { intros m [= <-]. by apply wf_emit. }
  destruct (json_parse _) as [[| | | | | |o]|]; try apply Herr.
  assert (Hleg : ∀ f : operation → editor → editor,
    (∀ a e, operations (f a e) = [a] ∧ localIdSeed (f a e) = localIdSeed e) →
    (fallback ← with_seed (createDefaultOperation now); update (f fallback)) e = (Ok (), e') →
    wf e → wf e').
  { intros f Hf E _. eapply (wf_show _ (λ op, [op])) in E; [done|intros ??; apply default_rows|done]. }
  destruct (prop_opt (VObj o) "operations");
    try (apply (Hleg (λ a e, show_preset _ (show_visual _ _ [a] e))); by intros a []).
  intros E _. eapply (wf_show _ (λ ops, ops)) in E; [done|..].
  - intros ??. apply normalize_operations_fresh.
  - by intros a [].
Qed.

(** ** Handlers that add, copy or remove rows *)

Lemma wf_prune_update i f e e' :
  (∀ d, grows (f d)) →
  updatePruneObjectsDraft now i f e = (Ok (), e') → wf e → wf e'.
Proof.
  intros Hf. unfold updatePruneObjectsDraft. destruct (find_operation i (operations e));
    [|by intros [= <-]].
  intros (d & e1 & (s & Hm & ->)%with_seed_inv & E)%st_bind_inv He.
  unfold update, st_modify in E. simplify_eq.
  assert (Hs : (localIdSeed e ≤ s)%N).
  { pose proof (grows_bind _ (λ d, f d) (grows_prune_draft now (value_text o)) Hf (localIdSeed e)) as Hg.
    by rewrite Hm in Hg. }
  eapply (wf_map_id i _ (setLocalIdSeed s e)); [|by destruct e..|].
  - by intros op.
  - eapply wf_same; [..|done]; by destruct e.
Qed.

Lemma wf_add e e' : addOperation now e = (Ok (), e') → wf e → wf e'.
Proof.
  intros (op & e1 & (s & Hm & ->)%with_seed_inv & E)%st_bind_inv [Hne Hi].
  unfold update, st_modify in E. simplify_eq. apply default_fresh in Hm.
  destruct e. cbn in *. split; cbn; [by destruct operations|]. by eapply ids_ok_app.
Qed.

Lemma wf_duplicate b i e e' : duplicateOperation now b i e = (Ok (), e') → wf e → wf e'.
Proof.
  unfold duplicateOperation. destruct (list_find _ _) as [[k src]|]; [|by intros [= <-]].
  intros (op & e1 & (s & Hm & ->)%with_seed_inv & E)%st_bind_inv [Hne Hi].
  unfold update, st_modify in E. simplify_eq. apply fresh_row in Hm.
  assert (He : ids_ok now s (insert_at (S k) op (operations e))).
  { eapply ids_ok_perm; [|by eapply ids_ok_app]. rewrite insert_at_perm. apply Permutation_cons_append. }
  destruct e. cbn in *. destruct b; split; cbn; try done;
    unfold insert_at; by destruct (take _ _).
Qed.

Lemma all_ids_filter_sublist (P : operation → Prop) `{∀ x, Decision (P x)} ops :
  all_ids (filter P ops) `sublist_of` all_ids ops.
Proof.
  induction ops as [|op ops IH]; [constructor|]. rewrite filter_cons, all_ids_cons.
  case_decide; [rewrite all_ids_cons; by apply sublist_app|by apply sublist_inserts_l].
Qed.

Lemma filter_id_nonempty i ops :
  NoDup (id <$> ops) → ¬ length ops ≤ 1 → filter (λ item, id item ≠ i) ops ≠ [].
Proof.
  destruct ops as [|o1 [|o2 ops]]; cbn [length fmap list_fmap]; [lia..|].
  intros [Hn _]%NoDup_cons _. rewrite !filter_cons.
  case_decide as H1; [done|]. rewrite decide_True; [done|].
  intros E. apply Hn. rewrite H1, <-E. by left.
Qed.

Lemma wf_remove i e e' : removeOperation now i e = (Ok (), e') → wf e → wf e'.
Proof.
  unfold removeOperation. cbn zeta. case_decide as Hl.
  { intros E _. eapply (wf_show _ (λ op, [op])) in E; [done|intros ??; apply default_rows|].
    by intros a []. }
  intros [= <-] [Hne Hi]. pose proof (ids_ok_ids _ _ _ Hi) as Hn.
  pose proof (filter_id_nonempty i _ Hn Hl) as Hf.
  pose proof (ids_ok_sublist _ _ _ _ (all_ids_filter_sublist (λ item, id item ≠ i) _) Hi) as Hs.
  split; by destruct e.
Qed.

Lemma wf_add_condition i e e' : addCondition now i e = (Ok (), e') → wf e → wf e'.
Proof.
  intros (c & e1 & (s & Hm & ->)%with_seed_inv & E)%st_bind_inv [Hne Hi].
  unfold update, st_modify in E. simplify_eq.
  pose proof (normalizeCondition_run now (VObj []) (localIdSeed e)) as Hr.
  unfold createDefaultCondition in Hm. rewrite Hm in Hr. destruct Hr as (Hc & -> & _).
  pose proof (ids_ok_ids _ _ _ Hi) as Hn.
  destruct (all_ids_add_condition i c _ Hn) as (new & Hp & Hnew).
  assert (Hi' : ids_ok now (localIdSeed e + 1) (operations e)) by (eapply ids_ok_mono; [|done]; lia).
  destruct e. cbn in *. split; cbn; [by destruct operations|]. unfold ids_ok. rewrite Hp.
  destruct Hnew as [-> | ->]; [done|]. destruct Hi as [Hi1 Hi2]. cbn. split.
  - apply NoDup_cons. split; [|done]. rewrite Hc. intros Hin.
    rewrite Forall_forall in Hi2. destruct (Hi2 _ Hin) as (k & E%(inj _) & Hk). lia.
  - apply Forall_cons. split; [|apply Hi']. rewrite Hc. eexists. split; [done|lia].
Qed.

(** ** Templates *)

Lemma preset_nonempty k ops : payload (getSelectedTemplatePreset k) = Operations ops → ops ≠ [].
Proof.
  unfold getSelectedTemplatePreset, TEMPLATE_PRESET_CONFIG. cbn [obj_get].
  repeat (case_decide; [cbn; by intros [= <-]|]). cbn. by intros [= <-].
Qed.

Lemma st_map_nonempty {A B} (f : A → st N B) l s ys s' :
  st_map f l s = (Ok ys, s') → l ≠ [] → ys ≠ [].
Proof.
  destruct l as [|x l]; [done|]. cbn [st_map].
  intros (y & s1 & _ & (zs & s2 & _ & E)%st_bind_inv)%st_bind_inv. unfold mret, st_ret in E.
  by simplify_eq.
Qed.

Lemma wf_fill_legacy p e e' : fillLegacyTemplate now p e = (Ok (), e') → wf e'.
Proof.
  intros E. eapply (wf_show _ (λ op, [op])) in E; [done|intros ??; apply default_rows|].
  by intros a [].
Qed.

Lemma wf_fill_operations ops e e' :
  ops ≠ [] → fillOperationsTemplate now ops e = (Ok (), e') → wf e'.
Proof.
  intros Hne. unfold fillOperationsTemplate.
  intros (rows & e1 & (s & Hm & ->)%with_seed_inv & E)%st_bind_inv.
  pose proof (st_map_nonempty _ _ _ _ _ Hm Hne) as Hr. apply st_map_fresh in Hm.
  destruct rows as [|r rows]; [done|].
  apply st_bind_inv in E as (fin & e2 & E1 & E2). unfold mret, st_ret in E1.
  unfold update, st_modify in E2. simplify_eq.
  apply (wf_fresh _ (r :: rows) (localIdSeed e)); by destruct e.
Qed.

Lemma wf_append_legacy p e e' : appendLegacyTemplate now t p e = (Ok (), e') → wf e → wf e'.
Proof.
  unfold appendLegacyTemplate. cbn zeta.
  assert (Happ : ∀ text e0, (fallback ← with_seed (createDefaultOperation now);
    update (λ e, setJsonText text (setExpandedConditionMap []
                   (show_visual "legacy" text [fallback] e)))) e0 = (Ok (), e') → wf e').
  { intros text e0 E.
    eapply (wf_show _ (λ op, [op])) in E; [done|intros ??; apply default_rows|]. by intros a []. }
  assert (Herr : ∀ m, (Ok (), showError m e) = (Ok (), e') → wf e → wf e').
  { intros m [= <-]. by apply wf_emit. }
  case_match; [|by intros E _; eapply Happ].
  destruct (json_parse _) as [[| | | | | |o]|]; try apply Herr. intros E _; by eapply Happ.
Qed.

Lemma wf_append_operations ops e e' :
  ops ≠ [] → appendOperationsTemplate now ops e = (Ok (), e') → wf e → wf e'.
Proof.
  intros Hne. unfold appendOperationsTemplate.
  intros (rows & e1 & (s & Hm & ->)%with_seed_inv & E)%st_bind_inv [_ Hi].
  pose proof (st_map_nonempty _ _ _ _ _ Hm Hne) as Hr. apply st_map_fresh in Hm.
  unfold update, st_modify in E. simplify_eq.
  set (ex := if bool_decide (visualMode e = "operations") then _ else []).
  assert (Hex : ids_ok now (localIdSeed e) ex).
  { unfold ex. case_bool_decide; [|by split; constructor].
    eapply ids_ok_sublist; [apply all_ids_filter_sublist|done]. }
  pose proof (ids_ok_app _ _ _ _ _ Hex Hm) as Hok.
  destruct (show_visual_core "operations" "" (ex ++ rows) (setLocalIdSeed s e)) as [E1 E2].
  split; cbn [operations].
  - destruct e; cbn in *. by destruct ex.
  - by destruct e.
Qed.

Lemma wf_fill e e' : fillTemplateFromLibrary now e = (Ok (), e') → wf e'.
Proof.
  unfold fillTemplateFromLibrary. destruct (payload _) as [ops|p] eqn:E.
  - apply wf_fill_operations. by eapply preset_nonempty.
  - apply wf_fill_legacy.
Qed.

Lemma wf_append e e' : appendTemplateFromLibrary now t e = (Ok (), e') → wf e → wf e'.
Proof.
  unfold appendTemplateFromLibrary. destruct (payload _) as [ops|p] eqn:E.
  - apply wf_append_operations. by eapply preset_nonempty.
  - apply wf_append_legacy.
Qed.

Lemma wf_reset e e' : resetEditorState now e = (Ok (), e') → wf e'.
Proof.
  unfold resetEditorState. intros ([] & e1 & H & E)%st_bind_inv.
  unfold clearValue in H. eapply (wf_show _ (λ op, [op])) in H;
    [|intros ??; apply default_rows|by intros a []].
  unfold update, st_modify in E. simplify_eq. eapply wf_same; [..|done]; by destruct e1.
Qed.

(** ** Handlers that keep the rows *)

Lemma wf_to_json e e' : switchToJsonMode t e = (Ok (), e') → wf e → wf e'.
Proof.
  unfold switchToJsonMode. intros H. apply wf_same; revert H;
    repeat case_match; intros H'; try done; injection H' as <-; by destruct e.
Qed.

Lemma wf_render e d e' : pruneObjectsDraft now e = (Ok d, e') → wf e → wf e'.
Proof.
  unfold pruneObjectsDraft. destruct (selectedOperation e) as [op|]; [|by intros [= <- <-]].
  case_bool_decide; [|by intros [= <- <-]].
  intros (d' & e1 & (s & Hm & ->)%with_seed_inv & E)%st_bind_inv. unfold mret, st_ret in E.
  injection E as <- <-.
  pose proof (grows_prune_draft now (value_text op) (localIdSeed e)) as Hg.
  rewrite Hm in Hg. apply wf_same; by destruct e.
Qed.

Lemma wf_update i p e : wf e → wf (updateOperation i p e).
Proof. eapply (wf_map_id i (apply_patch p)); [done|by destruct e..]. Qed.
#[local] Hint Resolve wf_update wf_emit : core.

Lemma wf_move s tg p e : wf e → wf (moveOperation s tg p e).
Proof.
  unfold moveOperation. case_match; [done|]. intros [Hne Hi].
  pose proof (reorder_perm (operations e) s tg p) as Hp.
  assert (reorderOperations (operations e) s tg p ≠ []).
  { intros E. rewrite E in Hp. by apply Permutation_nil in Hp. }
  pose proof (ids_ok_perm _ _ _ _ Hp Hi). split; by destruct e.
Qed.

Lemma wf_format_value e : wf e → wf (formatSelectedOperationValueAsJson t e).
Proof.
  unfold formatSelectedOperationValueAsJson, showSuccess, showError. repeat case_match; auto.
Qed.

Lemma wf_builtin k tg e : wf e → wf (applyBuiltinField t k tg e).
Proof. unfold applyBuiltinField, showError. cbn zeta. repeat case_match; auto. Qed.

Lemma wf_return_error i f e : wf e → wf (updateReturnErrorDraft i f e).
Proof. unfold updateReturnErrorDraft. case_match; auto. Qed.

Lemma wf_drop i s e : wf e → wf (handleOperationDrop i s e).
Proof.
  intros He. unfold handleOperationDrop. cbn zeta. set (e1 := moveOperation _ _ _ _).
  apply (wf_same e1); [by destruct e1|by destruct e1|by apply wf_move].
Qed.

Lemma wf_update_condition i c f e :
  (∀ x, c_id (f x) = c_id x) → wf e → wf (updateCondition i c f e).
Proof.
  intros Hf. unfold updateCondition.
  eapply (wf_map_id i (with_conditions _)); [|by destruct e..].
  intros op. unfold op_ids, with_conditions. cbn [id conditions]. apply sublist_skip.
  rewrite <-list_fmap_compose. erewrite list_fmap_ext; [done|].
  intros k x _. cbn. by case_bool_decide.
Qed.

Lemma wf_remove_condition i c e : wf e → wf (removeCondition i c e).
Proof.
  unfold removeCondition. eapply (wf_map_id i (with_conditions _)); [|by destruct e..].
  intros op. unfold op_ids, with_conditions. cbn [id conditions]. apply sublist_skip.
  induction (conditions op) as [|x l IH]; [constructor|]. rewrite filter_cons.
  case_decide; [by apply sublist_skip|by apply sublist_cons].
Qed.

Lemma wf_selection e : wf e → wf (selectionEffect e).
Proof. unfold selectionEffect. repeat case_match; apply wf_same; by destruct e. Qed.
Lemma wf_preset e : wf e → wf (presetEffect e).
Proof. unfold presetEffect. repeat case_match; apply wf_same; by destruct e. Qed.
Lemma wf_expand_all e : wf e → wf (expandAllSelectedConditions e).
Proof. unfold expandAllSelectedConditions. repeat case_match; apply wf_same; by destruct e. Qed.
Lemma wf_collapse_all e : wf e → wf (collapseAllSelectedConditions e).
Proof. unfold collapseAllSelectedConditions. case_match; apply wf_same; by destruct e. Qed.
Lemma wf_drag_over i b e : wf e → wf (handleOperationDragOver i b e).
Proof. unfold handleOperationDragOver. case_match; apply wf_same; by destruct e. Qed.
Lemma wf_json s e : wf e → wf (handleJsonChange t s e).
Proof. unfold handleJsonChange. cbn zeta. repeat case_match; apply wf_same; by destruct e. Qed.
Lemma wf_format e : wf e → wf (formatJson t e).
Proof. unfold formatJson. cbn zeta. repeat case_match; apply wf_same; by destruct e. Qed.
Lemma wf_view v e : wf e → wf (view v e).
Proof. destruct v; apply wf_same; by destruct e. Qed.
Lemma wf_rerender e : wf e → wf (rerender e).
Proof. apply wf_same; [by destruct e|]. destruct e; cbn. lia. Qed.

#[local] Hint Resolve wf_open wf_selection wf_preset wf_render wf_rerender wf_view wf_to_json
  wf_to_visual wf_fill wf_append wf_reset wf_builtin wf_format_value wf_return_error wf_add
  wf_drag_over wf_drop wf_duplicate wf_remove wf_add_condition wf_update_condition
  wf_remove_condition wf_expand_all wf_collapse_all wf_json wf_format : core.

Lemma wf_step e e' : step now t e e' → wf e → wf e'.
Proof.
  destruct 1; eauto; try (apply wf_same; by destruct e).
  - intros He. unfold copyBuiltinField, showSuccess, showError. destruct b; by apply wf_emit.
  - eapply wf_prune_update; [|done]. intros d. apply grows_ret.
  - eapply wf_prune_update; [|done]. intros d.
    apply grows_bind; [apply grows_condition|intros; apply grows_ret].
  - eapply wf_prune_update; [|done]. intros d. apply grows_ret.
  - eapply wf_prune_update; [|done]. intros d. apply grows_ret.
  - intros He. unfold handleSave, showError. case_match; by apply wf_emit.
Qed.

Lemma reachable_wf e : reachable now t e → wf e.
Proof. induction 1; [by eapply wf_mount|by eapply wf_step]. Qed.

Lemma selection_found e : operations e ≠ [] → ∃ op, selectedOperation (selectionEffect e) = Some op.
Proof.
  intros Hne. unfold selectedOperation, find_operation.
  assert (Hin : ∃ op, op ∈ operations (selectionEffect e) ∧
    id op = selectedOperationId (selectionEffect e)).
  { unfold selectionEffect. destruct (operations e) as [|op ops] eqn:E; [done|].
    destruct (existsb _ _) eqn:Ex.
    - apply existsb_exists in Ex as (x & Hx%list_elem_of_In & Hb%bool_decide_eq_true).
      exists x. by rewrite E.
    - exists op. split; [|by destruct e]. destruct e; cbn in *. rewrite E. by left. }
  destruct Hin as (op & Hin & Hid).
  destruct (list_find_elem_of (λ o, id o = selectedOperationId (selectionEffect e)) _ op Hin Hid)
    as [[k x] ->]. by exists x.
Qed.

(** C2.  In every state the editor can reach, whatever the user does, there
    is a row, no two rows or conditions share an id, every id in use was
    drawn from the counter, and the selection effect selects a row that
    exists. *)
Theorem editor_invariant (e : editor) :
  reachable now t e →
  operations e ≠ [] ∧ NoDup (all_ids (operations e)) ∧
  Forall (drawn now 0 (localIdSeed e)) (all_ids (operations e)) ∧
  ∃ op, selectedOperation (selectionEffect e) = Some op.
Proof.
  intros [Hne [Hn Hd]]%reachable_wf. split_and!; [done..|by apply selection_found].
Qed.
End invariant.

Definition mounted : editor :=
  Editor "visual" "operations" "" [Operation "param_override_0_0" "" "" "set" "" false "" "" "OR" []]
    "" "" "" "" [] "" "" "before" "basic" "operations_default" false false "path" "" 1%N [].

Lemma editor_invariant_witness :
  NoDup (all_ids (operations mounted)) ∧ operations mounted ≠ [].
Proof.
  destruct (editor_invariant (λ _, 0%Z) (λ k _, k) mounted) as (H1 & H2 & _).
  - apply (reach_mount _ _ 0%N). by vm_compute.
  - by split.
Defined.
