(* ===== verification/ParamOverrideBehaviour.v ===== *)
(** * Parameter override rules: what the handlers do

    Saving, switching between the visual and the JSON editor, the
    [prune_objects] form and the template library. *)
From Stdlib Require Import Ascii SpecFloat.
From S2P Require Import Prelude JsString JsNumber JsValue Json JsonRoundtrip.
From S2P Require Import ParamOverride ParamOverrideBuild ParamOverrideReload ParamOverrideTemplates ParamOverrideEditor ParamOverrideInvariant.

Section behaviour.
Context (now : N → Z) (t : string → obj → string).

(** ** Saving *)

(** The text the visual editor saves for valid rows. *)
Definition rows_text (ops : list operation) : string :=
  match nonblank ops with [] => "" | l => stringify2 (saved l) end.

Lemma build_valid ops :
  (∀ k o, t k o ≠ "") → Forall valid_operation (nonblank ops) →
  buildOperationsJson t ops true = Ok (rows_text ops).
Proof.
  intros Ht Hv. unfold buildOperationsJson, rows_text. fold (nonblank ops).
  apply (validate_from_valid t Ht 0) in Hv. unfold validateOperations.
  destruct (nonblank ops) as [|op l]; [done|]. rewrite Hv. done.
Qed.

Lemma build_invalid ops :
  (∀ k o, t k o ≠ "") → ¬ Forall valid_operation (nonblank ops) →
  ∃ m, buildOperationsJson t ops true = Throw m.
Proof.
  intros Ht Hv. unfold buildOperationsJson. fold (nonblank ops).
  pose proof (validate_from_valid t Ht 0 (nonblank ops)) as Hs. unfold validateOperations.
  destruct (nonblank ops) as [|op l]; [by destruct Hv|].
  destruct (validate_from t 0 (op :: l)) as [m|m]; [|by exists m].
  exists m. unfold mbind, res_bind. rewrite bool_decide_false; [done|]. intros ->. naive_solver.
Qed.

(** Saving from the visual rule editor calls [onSave] exactly once,
    with the serialised non-blank rules, when every non-blank rule is valid,
    and otherwise shows one error and saves nothing; nothing else changes. *)
Theorem handleSave_rules (e : editor) :
  (∀ k o, t k o ≠ "") → editMode e = "visual" → visualMode e = "operations" →
  (Forall valid_operation (nonblank (operations e)) →
     handleSave t e = emit (OnSave (rows_text (operations e))) e) ∧
  (¬ Forall valid_operation (nonblank (operations e)) →
     ∃ m, handleSave t e = emit (ShowError m) e).
Proof.
  intros Ht He Hv. unfold handleSave, save_text, buildVisualJson_of, buildVisualJson.
  rewrite He, Hv. rewrite !bool_decide_false by done. split; intros HF.
  - by rewrite build_valid.
  - destruct (build_invalid _ Ht HF) as (m & ->). by exists m.
Qed.

(** ** Switching *)

Lemma nonblank_text ops : nonblank ops ≠ [] → rows_text ops = stringify2 (saved (nonblank ops)).
Proof. unfold rows_text. by destruct (nonblank ops). Qed.

Lemma read_saved ops :
  ops ≠ [] → Forall operation_ok ops →
  trim (stringify2 (saved ops)) = stringify2 (saved ops) ∧ stringify2 (saved ops) ≠ "" ∧
  json_parse (stringify2 (saved ops)) = Some (saved ops).
Proof.
  intros Hne HF. pose proof (saved_ok _ HF) as Hok. pose proof (json_ok_obj_values _ Hok) as Hval.
  unfold stringify2, saved in *.
  split_and!; [by rewrite trim_print_obj|by rewrite print_obj|by rewrite json_parse_print].
Qed.

(** Going from the visual rule editor to the JSON editor and back
    brings back the non-blank rules, in order, as they would reopen, selects
    the first one and reports no error. *)
Theorem switch_roundtrip (e : editor) :
  (∀ k o, t k o ≠ "") → editMode e = "visual" → visualMode e = "operations" →
  nonblank (operations e) ≠ [] → Forall valid_operation (nonblank (operations e)) →
  Forall operation_ok (nonblank (operations e)) →
  ∃ e1 e2, switchToJsonMode t e = (Ok (), e1) ∧ switchToVisualMode now t e1 = (Ok (), e2) ∧
    jsonText e1 = rows_text (operations e) ∧
    operations e2 = reload_operations now (localIdSeed e) (nonblank (operations e)) ∧
    selectedOperationId e2 = first_id (operations e2) ∧
    editMode e2 = "visual" ∧ visualMode e2 = "operations" ∧ jsonError e2 = "" ∧
    effects e2 = effects e.
Proof.
  intros Ht He Hv Hne HV HO.
  unfold switchToJsonMode, buildVisualJson_of, buildVisualJson.
  rewrite He, Hv, !bool_decide_false, build_valid by done.
  set (e1 := setEditMode _ _). exists e1.
  assert (E1 : editMode e1 = "json" ∧ jsonText e1 = rows_text (operations e) ∧
    localIdSeed e1 = localIdSeed e ∧ effects e1 = effects e) by (by destruct e).
  clearbody e1. destruct E1 as (Em & Ej & Es & Ee). eexists. split; [reflexivity|].
  destruct (read_saved _ Hne HO) as (R1 & R2 & R3).
  rewrite nonblank_text in * by done.
  unfold switchToVisualMode. rewrite Em, Ej, R1, !bool_decide_false, R3 by done.
  unfold saved at 1. cbn [prop_opt]. js_keys. cbn [from_option Datatypes.id].
  unfold normalize_operations.
  destruct (operation_payload <$> nonblank (operations e)) as [|v l] eqn:E;
    [by apply fmap_nil_inv in E|]. rewrite <-E.
  erewrite st_bind_Ok.
  2: { unfold with_seed. rewrite Es.
       erewrite st_map_seeded by (intros; apply normalize_operation_payload). reflexivity. }
  split; [reflexivity|]. rewrite <-Ee. split; [done|by destruct e1].
Qed.

(** ** The [prune_objects] form *)

Lemma st_map_compose {A B C} (g : A → B) (f : B → st N C) l s :
  st_map (λ x, f (g x)) l s = st_map f (g <$> l) s.
Proof.
  revert s. induction l as [|x l IH]; intros s; [done|]. cbn [fmap list_fmap st_map].
  unfold mbind, st_bind. destruct (f (g x) s) as [[y|m] s1]; [|done]. by rewrite IH.
Qed.

(** Rules whose ids were drawn from [s] to [s']. *)
Definition rules_drawn (s : N) (l : list condition) (s' : N) : Prop :=
  Forall (drawn now s s') (c_id <$> l) ∧ (s ≤ s')%N.

Lemma rules_of_values l s rs s' :
  st_map (normalizePruneRule now) l s = (Ok rs, s') → rules_drawn s rs s'.
Proof.
  intros [E ->]%st_map_conditions. split; [|lia]. rewrite E. apply ids_from_drawn.
Qed.

Lemma rules_of_object o s rs s' :
  prune_rules_of_object now o s = (Ok rs, s') → rules_drawn s rs s'.
Proof.
  unfold prune_rules_of_object.
  rewrite (st_map_compose (λ kv : string * jsval,
    VObj [("path", VStr kv.1); ("mode", VStr "full"); ("value", kv.2)])).
  apply rules_of_values.
Qed.

Lemma no_rules s : rules_drawn s [] s.
Proof. split; [constructor|lia]. Qed.

Lemma rules_drawn_app s l1 s1 l2 s2 :
  rules_drawn s l1 s1 → rules_drawn s1 l2 s2 → rules_drawn s (l1 ++ l2) s2.
Proof.
  intros [H1 ?] [H2 ?]. split; [|lia]. rewrite fmap_app, Forall_app.
  split; (eapply Forall_impl; [done|]); intros i Hd; (eapply drawn_mono; [..|exact Hd]; lia).
Qed.

Lemma prune_object_rules v s d s' :
  prune_draft_of_object now v s = (Ok d, s') → rules_drawn s (rules d) s'.
Proof.
  unfold prune_draft_of_object.
  intros (ws & s1 & Hw & H)%st_bind_inv. apply st_bind_inv in H as (cs & s2 & Hc & H).
  apply st_bind_inv in H as (ty & s3 & Hy & H). apply st_bind_inv in H as (lg & s4 & Hg & H).
  unfold mret, st_ret in H. unfold st_lift in Hg. simplify_eq. cbn [rules].
  assert (s2 = s') as ->.
  { destruct (prop_opt v "type"); unfold mret, st_ret in Hy;
      try (by simplify_eq); apply st_bind_inv in Hy as (x & s5 & Hx & Hy);
      unfold st_lift in Hx; by simplify_eq. }
  apply (rules_drawn_app _ _ s1).
  - destruct (prop_opt v "where"); try (by apply rules_of_object in Hw);
      unfold mret, st_ret in Hw; simplify_eq; apply no_rules.
  - destruct (prop_opt v "conditions");
      try (by apply rules_of_object in Hc); try (by apply rules_of_values in Hc);
      unfold mret, st_ret in Hc; simplify_eq; apply no_rules.
Qed.

Lemma prune_draft_rules text s d s' :
  parsePruneObjectsDraft now text s = (Ok d, s') → Forall (drawn now s s') (c_id <$> rules d).
Proof.
  unfold parsePruneObjectsDraft. cbn zeta. case_bool_decide.
  { unfold mret, st_ret. intros. simplify_eq. constructor. }
  unfold st_catch.
  destruct (json_parse _) as [v|]; [|unfold st_throw, mret, st_ret; intros; simplify_eq; constructor].
  destruct v as [| |b|n|str|l|o].
  7: { destruct (prune_draft_of_object now (VObj o) s) as [[d'|m] s1] eqn:E.
       - intros. simplify_eq. by apply prune_object_rules in E as [? _].
       - unfold mret, st_ret. intros. simplify_eq. constructor. }
  all: unfold mbind, st_bind, st_lift, mret, st_ret; repeat case_match; intros; simplify_eq; constructor.
Qed.

(** No rule of a freshly parsed draft carries an id drawn before. *)
Lemma old_id_absent r s text d s' rule :
  drawn now 0 s r → parsePruneObjectsDraft now text s = (Ok d, s') → rule ∈ rules d →
  c_id rule ≠ r.
Proof.
  intros Hr Hd Hin E. apply prune_draft_rules in Hd. rewrite Forall_forall in Hd.
  eapply (drawn_disjoint now 0 s s'); [exact Hr|apply Hd|].
  - apply list_elem_of_fmap. by exists rule.
  - done.
Qed.

Lemma updatePrune_ext i f g e :
  (∀ text d s', parsePruneObjectsDraft now text (localIdSeed e) = (Ok d, s') → f d s' = g d s') →
  updatePruneObjectsDraft now i f e = updatePruneObjectsDraft now i g e.
Proof.
  intros Hfg. unfold updatePruneObjectsDraft. destruct (find_operation i (operations e)) as [op|];
    [|done].
  unfold mbind at 1 3, st_bind at 1 3, with_seed, mbind, st_bind.
  destruct (parsePruneObjectsDraft now (value_text op) (localIdSeed e)) as [[d|m] s] eqn:E; [|done].
  by rewrite (Hfg _ _ _ E).
Qed.

Lemma with_rules_same d : with_rules (pd_simpleMode d) (rules d) d = d.
Proof. by destruct d. Qed.

Lemma rendered_drawn e d e' rule :
  pruneObjectsDraft now e = (Ok (Some d), e') → rule ∈ rules d →
  drawn now 0 (localIdSeed e') (c_id rule).
Proof.
  unfold pruneObjectsDraft. destruct (selectedOperation e) as [op|]; [|done].
  case_bool_decide; [|done].
  intros (d' & e1 & (s & Hm & ->)%with_seed_inv & E)%st_bind_inv Hin. unfold mret, st_ret in E.
  injection E as <- <-. apply prune_draft_rules in Hm. rewrite Forall_forall in Hm.
  replace (localIdSeed (setLocalIdSeed s e)) with s by (by destruct e).
  assert (Hd : drawn now (localIdSeed e) s (c_id rule)) by (apply Hm, list_elem_of_fmap; eauto).
  eapply drawn_mono; [..|exact Hd]; lia.
Qed.

(** The rule editor of [prune_objects] is inert: editing or removing a
    rule the form shows does what storing the unchanged draft does, because
    the handler parses the value again and gives its rules new ids. *)
Theorem prune_rule_edit_lost (e e' : editor) (d : prune_draft) (rule : condition)
    (i : string) (patch : condition → condition) :
  pruneObjectsDraft now e = (Ok (Some d), e') → rule ∈ rules d →
  updatePruneRule now i (c_id rule) patch e' = updatePruneObjectsDraft now i (λ d, mret d) e' ∧
  removePruneRule now i (c_id rule) e' = updatePruneObjectsDraft now i (λ d, mret d) e'.
Proof.
  intros Hr Hin. pose proof (rendered_drawn _ _ _ _ Hr Hin) as Hd.
  split; apply updatePrune_ext; intros text d' s' Hp.
  - assert ((λ x, if bool_decide (c_id x = c_id rule) then patch x else x) <$> rules d' = rules d') as ->.
    { rewrite <-(list_fmap_id (rules d')) at 2. apply list_fmap_ext. intros k x Hx.
      rewrite bool_decide_false; [done|]. eapply old_id_absent; [done..|].
      by eapply list_elem_of_lookup_2. }
    by rewrite with_rules_same.
  - rewrite filter_all, with_rules_same; [done|]. intros x Hx. by eapply old_id_absent.
Qed.

(** Adding a rule adds nothing: the new rule has no path, so the value
    text is the one of the draft without it. *)
Theorem prune_rule_add_lost (e e1 : editor) (i : string) :
  addPruneRule now i e = (Ok (), e1) →
  ∃ e2, updatePruneObjectsDraft now i (λ d, mret (with_rules false (rules d) d)) e = (Ok (), e2) ∧
    operations e1 = operations e2.
Proof.
  unfold addPruneRule, updatePruneObjectsDraft.
  destruct (find_operation i (operations e)) as [op|]; [|intros [= <-]; eauto].
  intros (d1 & e0 & (s & Hm & ->)%with_seed_inv & E)%st_bind_inv.
  apply st_bind_inv in Hm as (d & s1 & Hp & Hm). apply st_bind_inv in Hm as (r & s2 & Hr & Hm).
  unfold mret, st_ret in Hm. unfold update, st_modify in E. simplify_eq.
  assert (Hblank : c_path r = "").
  { unfold normalizePruneRule, normalizeCondition, mbind, st_bind, nextLocalId, st_lift,
      mret, st_ret in Hr. cbn in Hr. by simplify_eq. }
  assert (Hb : buildPruneObjectsValueText (with_rules false (rules d ++ [r]) d)
    = buildPruneObjectsValueText (with_rules false (rules d) d)).
  { unfold buildPruneObjectsValueText, with_rules. cbn [typeText pd_simpleMode pd_logic recursive rules].
    rewrite filter_app, filter_cons_False; [by rewrite filter_nil, app_nil_r|].
    rewrite Hblank. by intros []. }
  eexists. split.
  - erewrite st_bind_Ok; [reflexivity|]. unfold with_seed, mbind, st_bind. by rewrite Hp.
  - rewrite Hb. by destruct e.
Qed.
End behaviour.

(** ** Examples and the template library *)

Definition key_text (k : string) (_ : obj) : string := "!" +:+ k.
Definition no_clock (_ : N) : Z := 0%Z.

Definition with_rows (ops : list operation) : editor :=
  setSelectedOperationId (first_id ops) (setOperations ops (setLocalIdSeed 9%N mounted)).

Lemma handleSave_rules_witness :
  handleSave key_text (with_rows two_rows)
  = emit (OnSave (stringify2 (saved two_rows))) (with_rows two_rows).
Proof.
  destruct (handleSave_rules key_text (with_rows two_rows)) as [H _]; [done..|].
  apply H. apply (validate_from_valid key_text) with (i := 0); [done|by vm_compute].
Defined.

Lemma switch_roundtrip_witness :
  ∃ e1 e2, switchToJsonMode key_text (with_rows two_rows) = (Ok (), e1) ∧
    switchToVisualMode no_clock key_text e1 = (Ok (), e2) ∧
    operations e2 = reload_operations no_clock 9%N two_rows.
Proof.
  destruct (switch_roundtrip no_clock key_text (with_rows two_rows)) as (e1 & e2 & H1 & H2 & _ & H3 & _);
    [done|done|done|by vm_compute| |repeat constructor; by vm_compute|by exists e1, e2].
  apply (validate_from_valid key_text) with (i := 0); [done|by vm_compute].
Defined.

Definition prune_row : operation :=
  Operation "a" "" "" "prune_objects" (qtext "{'conditions':[{'path':'type','value':'x'}]}")
    false "" "" "OR" [].

Definition prune_rendered : prune_draft :=
  PruneDraft false "" "AND" true [Condition "param_override_0_9" "type" "full" "x" false false].

Lemma prune_rule_edit_lost_witness :
  removePruneRule no_clock "a" "param_override_0_9" (setLocalIdSeed 10%N (with_rows [prune_row]))
  = updatePruneObjectsDraft no_clock "a" (λ d, mret d) (setLocalIdSeed 10%N (with_rows [prune_row])).
Proof.
  refine (proj2 (prune_rule_edit_lost no_clock (with_rows [prune_row])
    (setLocalIdSeed 10%N (with_rows [prune_row])) prune_rendered
    (Condition "param_override_0_9" "type" "full" "x" false false) "a" (λ c, c) _ _)).
  - by vm_compute.
  - by left.
Defined.

Lemma prune_rule_add_lost_witness :
  ∃ e1 e2, addPruneRule no_clock "a" (with_rows [prune_row]) = (Ok (), e1) ∧
    updatePruneObjectsDraft no_clock "a" (λ d, mret (with_rules false (rules d) d))
      (with_rows [prune_row]) = (Ok (), e2) ∧ operations e1 = operations e2.
Proof.
  set (e1 := (addPruneRule no_clock "a" (with_rows [prune_row])).2).
  destruct (prune_rule_add_lost no_clock (with_rows [prune_row]) e1 "a") as (e2 & H1 & H2);
    [by vm_compute|]. exists e1, e2. by split; [vm_compute|].
Defined.

(** Every preset of the template library fills the editor with content
    that saves without an error. *)
Theorem library_templates_save (t : string → obj → string) (k : string) :
  k ∈ TEMPLATE_PRESET_CONFIG.*1 →
  ∃ e text, fillTemplateFromLibrary no_clock (setTemplatePresetKey k mounted) = (Ok (), e) ∧
    effects (handleSave t e) = [OnSave text] ∧ text ≠ "".
Proof.
  set (fill k := fillTemplateFromLibrary no_clock (setTemplatePresetKey k mounted)).
  cut (Forall (λ k, match fill k with
    | (Ok _, e) => match effects (handleSave t e) with [OnSave (String _ _)] => True | _ => False end
    | _ => False end) TEMPLATE_PRESET_CONFIG.*1).
  { rewrite Forall_forall. intros HF Hk%HF. fold (fill k).
    destruct (fill k) as [[[]|] e]; [|done]. exists e.
    destruct (effects _) as [|[| |[]] []]; try done. by eexists. }
  repeat (apply Forall_cons; split; [by vm_compute|]). by apply Forall_nil.
Qed.

Lemma library_templates_save_witness :
  ∃ e text, fillTemplateFromLibrary no_clock (setTemplatePresetKey "gemini_image_4k" mounted)
    = (Ok (), e) ∧ effects (handleSave key_text e) = [OnSave text] ∧ text ≠ "".
Proof.
  apply (library_templates_save key_text "gemini_image_4k").
  apply (bool_decide_unpack _). by vm_compute.
Defined.

(** Rows that normalise, then a [null]. *)
Lemma normalize_null_throws now v s op :
  normalizeOperation now v s = (Ok op, (s + 1)%N) →
  ∃ m, normalize_operations now [v; VNull] s = (Throw m, (s + 2)%N).
Proof.
  intros Hv. eexists. unfold normalize_operations. cbn [st_map].
  erewrite st_bind_Ok by exact Hv. erewrite st_bind_Throw; [reflexivity|].
  erewrite st_bind_Throw; [reflexivity|].
  replace (s + 2)%N with (s + 1 + 1)%N by lia. reflexivity.
Qed.

(** A stored [operations] array that contains [null] cannot be opened:
    reading it throws out of the effect, after the rows before it were
    normalised, and no state of the modal is set. *)
Theorem open_null_operation_throws (now : N → Z) (e : editor) :
  ∃ m, openModal now (VStr (qtext "{'operations':[{'mode':'delete','path':'a'},null]}")) e
    = (Throw m, setLocalIdSeed (localIdSeed e + 2)%N e).
Proof.
  set (row := VObj [("mode", VStr "delete"); ("path", VStr "a")]).
  destruct (normalize_null_throws now row (localIdSeed e)
    (Operation (local_id now (localIdSeed e)) "" "a" "delete" "" false "" "" "OR" []) eq_refl)
    as [m Hm].
  exists m. unfold openModal. apply st_bind_Throw. unfold with_seed, parseInitialState.
  set (v := VObj [("operations", VArr [row; VNull])]).
  assert (json_parse (trim (qtext "{'operations':[{'mode':'delete','path':'a'},null]}")) = Some v)
    as Hp by (by vm_compute).
  cbn zeta. cbn [str_or_empty]. rewrite Hp. rewrite bool_decide_false by (by vm_compute).
  unfold v. cbn [prop_opt]. js_keys. cbn [from_option Datatypes.id].
  erewrite st_bind_Throw by exact Hm. done.
Qed.
