(* ===== verification/Pricing.v ===== *)
(** * Model prices: conversion between stored ratios and price fields

    The module-level functions of
    [web/src/pages/Setting/Ratio/hooks/useModelPricingEditorState.js]: the
    price fields of a model are texts, the stored options are ratios; a
    model is built from the option maps and serialised back to them.  [t] is
    the i18n lookup. *)
From Stdlib Require Import Ascii SpecFloat.
From S2P Require Import Prelude JsString JsNumber JsValue Json.

Definition PAGE_SIZE : nat := 10.

(** ** Numbers and texts *)

(** [NUMERIC_INPUT_REGEX.test(s)]: digits with at most one point, or nothing. *)
Definition numeric_input (s : string) : bool :=
  match (span_digits (chars s)).2 with
  | [] => true
  | c :: r => bool_decide (c = "."%char) && forallb is_digit r
  end.

(** [hasValue] of a JSON value, and of a text. *)
Definition hasValue (value : jsval) : bool :=
  match value with
  | VStr s => negb (bool_decide (s = ""))
  | VNull | VUndef => false
  | VBool b => b
  | _ => true
  end.
Definition has_text (s : string) : bool := hasValue (VStr s).

Definition toNumberOrNull (value : jsval) : res (option num) :=
  if hasValue value then n ← to_num value; Ok (if is_finite n then Some n else None)
  else Ok None.

Definition toNumericString (value : jsval) : res string :=
  n ← toNumberOrNull value; Ok (match n with Some n => num_to_str n | None => "" end).

(** [toNumberOrNull] of a text. *)
Definition text_num (s : string) : option num :=
  if has_text s then (if is_finite (str_to_num s) then Some (str_to_num s) else None) else None.

(** [formatNumber] of a number. *)
Definition formatNumber (n : num) : string :=
  if is_finite n then num_to_str (parse_float (to_fixed n 12)) else "".

(** The result is an object or an array. *)
Definition parseOptionJSON (rawValue : option string) : jsval :=
  match rawValue with
  | Some s => if bool_decide (trim s = "") then VObj []
              else match json_parse s with
                   | Some v => if truthy v && typeof_object v then v else VObj []
                   | None => VObj []
                   end
  | None => VObj []
  end.

Definition ratioToBasePrice (ratio : string) : string :=
  match text_num ratio with
  | None => ""
  | Some n => formatNumber (num_mul n (num_of_Z 2))
  end.

Definition normalizeCompletionRatioMeta (rawMeta : jsval) : res (bool * string) :=
  match rawMeta with
  | VObj _ => r ← toNumericString (prop_opt rawMeta "ratio");
              Ok (truthy (prop_opt rawMeta "locked"), r)
  | _ => Ok (false, "")
  end.

(** ** Models *)

Record raw_ratios := RawRatios {
  modelRatio : string; completionRatio : string; cacheRatio : string;
  createCacheRatio : string; imageRatio : string; audioRatio : string;
  audioCompletionRatio : string }.

Record model := Model {
  name : string; billingMode : string; fixedPrice : string; inputPrice : string;
  completionPrice : string; lockedCompletionRatio : string; completionRatioLocked : bool;
  cachePrice : string; createCachePrice : string; imagePrice : string;
  audioInputPrice : string; audioOutputPrice : string; rawRatios : raw_ratios;
  hasConflict : bool }.

Definition EMPTY_RATIOS : raw_ratios := RawRatios "" "" "" "" "" "" "".
Definition EMPTY_MODEL : model :=
  Model "" "per-token" "" "" "" "" false "" "" "" "" "" EMPTY_RATIOS false.

(** [sourceMaps]: the parsed options by key. *)
Record source_maps := SourceMaps {
  ModelPrice : jsval; ModelRatio : jsval; CompletionRatio : jsval; CompletionRatioMeta : jsval;
  CacheRatio : jsval; CreateCacheRatio : jsval; ImageRatio : jsval; AudioRatio : jsval;
  AudioCompletionRatio : jsval }.

(** [base !== null && hasValue(ratio) ? formatNumber(base * Number(ratio)) : ''] *)
Definition derived_price (base : option num) (ratio : string) : string :=
  match base with
  | Some b => if has_text ratio then formatNumber (num_mul b (str_to_num ratio)) else ""
  | None => ""
  end.

Definition all_ratios (r : raw_ratios) : list string :=
  [modelRatio r; completionRatio r; cacheRatio r; createCacheRatio r; imageRatio r;
   audioRatio r; audioCompletionRatio r].

Definition buildModelState (name : string) (m : source_maps) : res model :=
  modelRatio ← toNumericString (prop_opt (ModelRatio m) name);
  completionRatio ← toNumericString (prop_opt (CompletionRatio m) name);
  meta ← normalizeCompletionRatioMeta (prop_opt (CompletionRatioMeta m) name);
  let locked : bool := fst meta in
  let lockedRatio : string := snd meta in
  cacheRatio ← toNumericString (prop_opt (CacheRatio m) name);
  createCacheRatio ← toNumericString (prop_opt (CreateCacheRatio m) name);
  imageRatio ← toNumericString (prop_opt (ImageRatio m) name);
  audioRatio ← toNumericString (prop_opt (AudioRatio m) name);
  audioCompletionRatio ← toNumericString (prop_opt (AudioCompletionRatio m) name);
  fixedPrice ← toNumericString (prop_opt (ModelPrice m) name);
  let inputPrice := ratioToBasePrice modelRatio in
  let base := text_num inputPrice in
  let audioInputPrice := derived_price base audioRatio in
  let raw := RawRatios modelRatio completionRatio cacheRatio createCacheRatio imageRatio
               audioRatio audioCompletionRatio in
  Ok (Model name (if has_text fixedPrice then "per-request" else "per-token") fixedPrice inputPrice
        (derived_price base (if locked then lockedRatio else completionRatio))
        lockedRatio locked (derived_price base cacheRatio) (derived_price base createCacheRatio)
        (derived_price base imageRatio) audioInputPrice
        (derived_price (text_num audioInputPrice) audioCompletionRatio)
        raw (has_text fixedPrice && existsb has_text (all_ratios raw))).

Definition isBasePricingUnset (m : model) : bool :=
  negb (has_text (fixedPrice m)) && negb (has_text (inputPrice m)).

Definition extra_prices (m : model) : list string :=
  [completionPrice m; cachePrice m; createCachePrice m; imagePrice m; audioInputPrice m;
   audioOutputPrice m].

(** The optional price fields that are shown. *)
Definition buildOptionalFieldToggles (m : model) : list (string * bool) :=
  [("completionPrice", completionRatioLocked m || has_text (completionPrice m));
   ("cachePrice", has_text (cachePrice m)); ("createCachePrice", has_text (createCachePrice m));
   ("imagePrice", has_text (imagePrice m)); ("audioInputPrice", has_text (audioInputPrice m));
   ("audioOutputPrice", has_text (audioOutputPrice m))].

Section i18n.
Context (t : string → obj → string).

Definition getModelWarnings (m : option model) : list string :=
  match m with
  | None => []
  | Some m =>
      let r := rawRatios m in
      (if hasConflict m
       then [t "当前模型同时存在按次价格和倍率配置，保存时会按当前计费方式覆盖。" []] else [])
      ++ (if negb (has_text (inputPrice m))
             && existsb has_text [completionRatio r; cacheRatio r; createCacheRatio r;
                                  imageRatio r; audioRatio r; audioCompletionRatio r]
          then [t "当前模型存在未显式设置输入倍率的扩展倍率；填写输入价格后会自动换算为价格字段。" []]
          else [])
      ++ (if bool_decide (billingMode m = "per-token")
             && existsb has_text (inputPrice m :: extra_prices m) && negb (has_text (inputPrice m))
          then [t "按量计费下需要先填写输入价格，才能保存其它价格项。" []] else [])
      ++ (if bool_decide (billingMode m = "per-token") && has_text (audioOutputPrice m)
             && negb (has_text (audioInputPrice m))
          then [t "填写音频补全价格前，需要先填写音频输入价格。" []] else [])
  end.

Definition buildSummaryText (m : model) : string :=
  if bool_decide (billingMode m = "per-request") && has_text (fixedPrice m)
  then t "按次" [] +:+ " $" +:+ fixedPrice m +:+ " / " +:+ t "次" []
  else if has_text (inputPrice m) then
    let extraCount := length (filter (λ p, has_text p = true) (extra_prices m)) in
    t "输入" [] +:+ " $" +:+ inputPrice m +:+
    (if bool_decide (0 < extraCount) then "，" +:+ t "额外价格项" [] +:+ " " +:+ pretty extraCount
     else "")
  else t "未设置价格" [].

(** ** Serialisation *)

Record serialized := Serialized {
  s_ModelPrice : option num; s_ModelRatio : option num; s_CompletionRatio : option num;
  s_CacheRatio : option num; s_CreateCacheRatio : option num; s_ImageRatio : option num;
  s_AudioRatio : option num; s_AudioCompletionRatio : option num }.

(** [hasValue(s) ? Number(s) : null]. *)
Definition raw_number (s : string) : option num :=
  if has_text s then Some (str_to_num s) else None.

Definition is_zero (n : num) : bool := num_eqb n (num_of_Z 0).

Definition price_ratio (base : num) (price : option num) : option num :=
  (λ p, num_div p base) <$> price.

Definition serializeModel (m : model) : res serialized :=
  if bool_decide (billingMode m = "per-request")
  then Ok (Serialized (raw_number (fixedPrice m)) None None None None None None None)
  else
    let raw := rawRatios m in
    let completion := text_num (completionPrice m) in
    let cache := text_num (cachePrice m) in
    let createCache := text_num (createCachePrice m) in
    let image := text_num (imagePrice m) in
    let audioInput := text_num (audioInputPrice m) in
    let audioOutput := text_num (audioOutputPrice m) in
    let nm := [("name", VStr (name m))] in
    match text_num (inputPrice m) with
    | None =>
        if existsb (λ p : option num, bool_decide (is_Some p))
             [completion; cache; createCache; image; audioInput; audioOutput]
        then Throw (t "模型 {{name}} 缺少输入价格，无法计算补全/缓存/图片/音频价格对应的倍率" nm)
        else Ok (Serialized None (raw_number (modelRatio raw)) (raw_number (completionRatio raw))
                   (raw_number (cacheRatio raw)) (raw_number (createCacheRatio raw))
                   (raw_number (imageRatio raw)) (raw_number (audioRatio raw))
                   (raw_number (audioCompletionRatio raw)))
    | Some base =>
        let ratios audioCompletion :=
          Serialized None (Some (num_div base (num_of_Z 2)))
            (if completionRatioLocked m then raw_number (completionRatio raw)
             else price_ratio base completion)
            (price_ratio base cache) (price_ratio base createCache) (price_ratio base image)
            (price_ratio base audioInput) audioCompletion in
        match audioOutput with
        | None => Ok (ratios None)
        | Some out =>
            match audioInput with
            | Some inp => if is_zero inp
                          then Throw (t "模型 {{name}} 缺少音频输入价格，无法计算音频补全倍率" nm)
                          else Ok (ratios (Some (num_div out inp)))
            | None => Throw (t "模型 {{name}} 缺少音频输入价格，无法计算音频补全倍率" nm)
            end
        end
    end.

(** ** Preview *)

Definition or_blank (s : string) : string := if has_text s then s else t "空" [].
Definition ratio_text (base : num) (price : option num) : string :=
  match price with Some p => formatNumber (num_div p base) | None => t "空" [] end.

(** The rows as (key, value); the label is the key. *)
Definition buildPreviewRows (m : option model) : list (string * string) :=
  match m with
  | None => []
  | Some m =>
      if bool_decide (billingMode m = "per-request")
      then [("ModelPrice", or_blank (fixedPrice m))]
      else
        let raw := rawRatios m in
        match text_num (inputPrice m) with
        | None =>
            [("ModelRatio", or_blank (modelRatio raw));
             ("CompletionRatio", or_blank (completionRatio raw));
             ("CacheRatio", or_blank (cacheRatio raw));
             ("CreateCacheRatio", or_blank (createCacheRatio raw));
             ("ImageRatio", or_blank (imageRatio raw)); ("AudioRatio", or_blank (audioRatio raw));
             ("AudioCompletionRatio", or_blank (audioCompletionRatio raw))]
        | Some base =>
            let audioInput := text_num (audioInputPrice m) in
            [("ModelRatio", formatNumber (num_div base (num_of_Z 2)));
             ("CompletionRatio",
               if completionRatioLocked m
               then (if has_text (lockedCompletionRatio m) then lockedCompletionRatio m
                     else t "空" []) +:+ " (" +:+ t "后端固定" [] +:+ ")"
               else ratio_text base (text_num (completionPrice m)));
             ("CacheRatio", ratio_text base (text_num (cachePrice m)));
             ("CreateCacheRatio", ratio_text base (text_num (createCachePrice m)));
             ("ImageRatio", ratio_text base (text_num (imagePrice m)));
             ("AudioRatio", ratio_text base audioInput);
             ("AudioCompletionRatio",
               match text_num (audioOutputPrice m), audioInput with
               | Some out, Some inp => if is_zero inp then t "空" []
                                       else formatNumber (num_div out inp)
               | _, _ => t "空" []
               end)]
        end
  end.
End i18n.

(** ** Loading and saving *)

(** The finite number an option map holds for a model. *)
Definition stored (v : jsval) : res (option num) := toNumberOrNull v.

(** [Number(String(n))] gives [n] back. *)
Definition reads_back (n : num) : Prop := str_to_num (num_to_str n) = n ∧ num_to_str n ≠ "".

Lemma toNumericString_stored v s :
  toNumericString v = Ok s → ∃ n, stored v = Ok n ∧ s = from_option num_to_str "" n.
Proof.
  unfold toNumericString, stored. intros (n & Hn & [= <-])%res_bind_Ok. exists n.
  split; [done|]. by destruct n.
Qed.

(** A stored number is kept by its text. *)
Lemma raw_number_text n :
  (∀ x, n = Some x → reads_back x) → raw_number (from_option num_to_str "" n) = n.
Proof.
  destruct n as [x|]; [|done]. intros H. destruct (H x eq_refl) as [E Hne]. cbn.
  unfold raw_number, has_text, hasValue. rewrite bool_decide_false by done. cbn. by rewrite E.
Qed.

Lemma derived_none ratio : derived_price None ratio = "".
Proof. done. Qed.

(** Every ratio a source map stores for a model reads back. *)
Definition stored_ok (maps : source_maps) (nm : string) : Prop :=
  Forall (λ mp : jsval, ∀ n, stored (prop_opt mp nm) = Ok (Some n) → reads_back n)
    [ModelPrice maps; ModelRatio maps; CompletionRatio maps; CacheRatio maps;
     CreateCacheRatio maps; ImageRatio maps; AudioRatio maps; AudioCompletionRatio maps].

Section saving.
Context (t : string → obj → string).

(** A model without a usable input price that is loaded and saved
    without a change keeps exactly the ratios that were stored for it. *)
Theorem load_save_unpriced (nm : string) (maps : source_maps) (m : model) :
  buildModelState nm maps = Ok m → stored_ok maps nm →
  billingMode m = "per-token" → text_num (inputPrice m) = None →
  ∃ s, serializeModel t m = Ok s ∧ s_ModelPrice s = None ∧
    stored (prop_opt (ModelRatio maps) nm) = Ok (s_ModelRatio s) ∧
    stored (prop_opt (CompletionRatio maps) nm) = Ok (s_CompletionRatio s) ∧
    stored (prop_opt (CacheRatio maps) nm) = Ok (s_CacheRatio s) ∧
    stored (prop_opt (CreateCacheRatio maps) nm) = Ok (s_CreateCacheRatio s) ∧
    stored (prop_opt (ImageRatio maps) nm) = Ok (s_ImageRatio s) ∧
    stored (prop_opt (AudioRatio maps) nm) = Ok (s_AudioRatio s) ∧
    stored (prop_opt (AudioCompletionRatio maps) nm) = Ok (s_AudioCompletionRatio s).
Proof.
  unfold buildModelState. intros H Hok Hb Hi.
  repeat match type of H with (_ ≫= _) = Ok _ =>
    let s := fresh "s" in let E := fresh "E" in apply res_bind_Ok in H as (s & E & H); cbn beta in H end.
  injection H as <-. cbn [billingMode inputPrice] in *.
  repeat match goal with E : toNumericString _ = Ok _ |- _ =>
    let n := fresh "n" in let Hn := fresh "Hn" in
    apply toNumericString_stored in E as (n & Hn & ->) end.
  unfold stored_ok in Hok. rewrite !Forall_cons in Hok.
  destruct Hok as (_ & H1 & H2 & H3 & H4 & H5 & H6 & H7 & _).
  unfold serializeModel.
  cbn [billingMode inputPrice completionPrice cachePrice createCachePrice imagePrice audioInputPrice
       audioOutputPrice rawRatios modelRatio completionRatio cacheRatio createCacheRatio imageRatio
       audioRatio audioCompletionRatio].
  rewrite Hb, Hi. rewrite !derived_none.
  rewrite bool_decide_false by done. cbn [existsb]. rewrite !bool_decide_false by (by intros []).
  cbn [orb]. eexists. split; [reflexivity|].
  cbn [s_ModelPrice s_ModelRatio s_CompletionRatio s_CacheRatio s_CreateCacheRatio s_ImageRatio
       s_AudioRatio s_AudioCompletionRatio].
  rewrite !raw_number_text by (intros x ->; auto). done.
Qed.

(** What the preview shows for a number to save. *)
Definition preview_cell (n : option num) : string :=
  match n with Some n => formatNumber n | None => t "空" [] end.

Lemma ratio_text_cell base p : ratio_text t base p = preview_cell (price_ratio base p).
Proof. by destruct p. Qed.

(** The preview of a token-priced model with an input price shows,
    formatted, exactly the ratios that saving it stores (a completion ratio
    fixed by the backend is shown as fixed instead). *)
Theorem preview_matches_save (m : model) (s : serialized) (base : num) :
  billingMode m ≠ "per-request" → text_num (inputPrice m) = Some base →
  completionRatioLocked m = false → serializeModel t m = Ok s →
  buildPreviewRows t (Some m) =
    [("ModelRatio", preview_cell (s_ModelRatio s));
     ("CompletionRatio", preview_cell (s_CompletionRatio s));
     ("CacheRatio", preview_cell (s_CacheRatio s));
     ("CreateCacheRatio", preview_cell (s_CreateCacheRatio s));
     ("ImageRatio", preview_cell (s_ImageRatio s)); ("AudioRatio", preview_cell (s_AudioRatio s));
     ("AudioCompletionRatio", preview_cell (s_AudioCompletionRatio s))].
Proof.
  intros Hb Hi Hl. unfold serializeModel, buildPreviewRows. rewrite bool_decide_false, Hi, Hl by done.
  cbn zeta. rewrite !ratio_text_cell.
  destruct (text_num (audioOutputPrice m)) as [out|]; [|by intros [= <-]].
  destruct (text_num (audioInputPrice m)) as [inp|]; [|done].
  destruct (is_zero inp); [done|]. by intros [= <-].
Qed.
End saving.

(** ** Examples *)

Definition no_maps : source_maps :=
  SourceMaps (VObj []) (VObj []) (VObj []) (VObj []) (VObj []) (VObj []) (VObj []) (VObj []) (VObj []).
Definition ratio_maps (ratio completion cache : jsval) : source_maps :=
  SourceMaps (VObj []) (VObj [("m", ratio)]) (VObj [("m", completion)]) (VObj [])
    (VObj [("m", cache)]) (VObj []) (VObj []) (VObj []) (VObj []).

Definition loaded (r : res model) : model := match r with Ok m => m | Throw _ => EMPTY_MODEL end.

Lemma load_save_unpriced_witness :
  ∃ s, serializeModel (λ k _, k)
         (loaded (buildModelState "m" (ratio_maps VUndef (VNum (num_of_Z 3)) VUndef))) = Ok s ∧
    s_CompletionRatio s = Some (num_of_Z 3).
Proof.
  destruct (load_save_unpriced (λ k _, k) "m" (ratio_maps VUndef (VNum (num_of_Z 3)) VUndef)
    (loaded (buildModelState "m" (ratio_maps VUndef (VNum (num_of_Z 3)) VUndef))))
    as (s & H1 & _ & _ & H2 & _); [by vm_compute| |by vm_compute|by vm_compute|].
  - repeat (apply Forall_cons; split; [|]); [..|by apply Forall_nil];
      intros n E; vm_compute in E; simplify_eq; by vm_compute.
  - exists s. split; [done|].
    change (Ok (Some (num_of_Z 3)) = Ok (s_CompletionRatio s)) in H2. by injection H2.
Defined.

Definition priced : model :=
  Model "m" "per-token" "" "5" "15" "" false "0.5" "" "" "" "" EMPTY_RATIOS false.

Lemma preview_matches_save_witness :
  buildPreviewRows (λ k _, k) (Some priced) =
    [("ModelRatio", "2.5"); ("CompletionRatio", "3"); ("CacheRatio", "0.1");
     ("CreateCacheRatio", "空"); ("ImageRatio", "空"); ("AudioRatio", "空");
     ("AudioCompletionRatio", "空")].
Proof.
  rewrite (preview_matches_save (λ k _, k) priced
    (Serialized None (Some (str_to_num "2.5")) (Some (num_of_Z 3)) (Some (str_to_num "0.1"))
       None None None None) (num_of_Z 5)); by vm_compute.
Defined.

(** A free model loses its ratios when it is loaded and saved without a
    change: with input ratio 0 the completion and cache prices are shown as
    0 and serialised as 0/0, which is not a number (and is stored as
    [null]). *)
Theorem load_save_free_model :
  ∃ m s, buildModelState "m" (ratio_maps (VNum (num_of_Z 0)) (VNum (num_of_Z 3))
           (VNum (str_to_num "0.5"))) = Ok m ∧
    completionPrice m = "0" ∧ cachePrice m = "0" ∧ serializeModel (λ k _, k) m = Ok s ∧
    s_CompletionRatio s = Some nan ∧ s_CacheRatio s = Some nan ∧
    stringify (VNum nan) = "null".
Proof.
  exists (loaded (buildModelState "m" (ratio_maps (VNum (num_of_Z 0)) (VNum (num_of_Z 3))
           (VNum (str_to_num "0.5"))))),
    (Serialized None (Some (num_of_Z 0)) (Some nan) (Some nan) None None None None).
  split_and!; by vm_compute.
Qed.
