(* ===== verification/PricingEditor.v ===== *)
(** * Model prices: the editor hook

    [useModelPricingEditorState] of
    [web/src/pages/Setting/Ratio/hooks/useModelPricingEditorState.js]: state
    hooks as a record, one definition per handler and effect.  The props
    [options], [candidateModelNames] and [filterMode] are arguments;
    [name_le a b] is [a.localeCompare(b) <= 0]; toasts and requests are
    recorded in [effects].  [handleSubmit] is split at its [await]: what it
    does before the requests are answered, and what it does with the
    answers. *)
From Stdlib Require Import Ascii SpecFloat.
From S2P Require Import Prelude JsString JsNumber JsValue Json Pricing.

Inductive effect :=
| ShowError (message : string)
| ShowSuccess (message : string)
| Put (key value : string)
| Refresh.

Record editor := Editor {
  models : list model;
  initialVisibleModelNames : list string;
  selectedModelName : string;
  selectedModelNames : list string;
  searchText : string;
  currentPage : nat;
  loading : bool;
  conflictOnly : bool;
  optionalFieldToggles : list (string * list (string * bool));
  effects : list effect }.

Definition setModels (v : list model) (st : editor) : editor :=
  let '(Editor _ b c d e f g h i j) := st in Editor v b c d e f g h i j.
Definition setInitialVisibleModelNames (v : list string) (st : editor) : editor :=
  let '(Editor a _ c d e f g h i j) := st in Editor a v c d e f g h i j.
Definition setSelectedModelName (v : string) (st : editor) : editor :=
  let '(Editor a b _ d e f g h i j) := st in Editor a b v d e f g h i j.
Definition setSelectedModelNames (v : list string) (st : editor) : editor :=
  let '(Editor a b c _ e f g h i j) := st in Editor a b c v e f g h i j.
Definition setSearchText (v : string) (st : editor) : editor :=
  let '(Editor a b c d _ f g h i j) := st in Editor a b c d v f g h i j.
Definition setCurrentPage (v : nat) (st : editor) : editor :=
  let '(Editor a b c d e _ g h i j) := st in Editor a b c d e v g h i j.
Definition setLoading (v : bool) (st : editor) : editor :=
  let '(Editor a b c d e f _ h i j) := st in Editor a b c d e f v h i j.
Definition setConflictOnly (v : bool) (st : editor) : editor :=
  let '(Editor a b c d e f g _ i j) := st in Editor a b c d e f g v i j.
Definition setOptionalFieldToggles (v : list (string * list (string * bool))) (st : editor) : editor :=
  let '(Editor a b c d e f g h _ j) := st in Editor a b c d e f g h v j.
Definition setEffects (v : list effect) (st : editor) : editor :=
  let '(Editor a b c d e f g h i _) := st in Editor a b c d e f g h i v.

Definition emit (x : effect) (e : editor) : editor := setEffects (effects e ++ [x]) e.
Definition showError (m : string) : editor → editor := emit (ShowError m).
Definition showSuccess (m : string) : editor → editor := emit (ShowSuccess m).

(** ** Loading *)

(** The option texts the page receives. *)
Record option_texts := OptionTexts {
  o_ModelPrice : option string; o_ModelRatio : option string; o_CompletionRatio : option string;
  o_CompletionRatioMeta : option string; o_CacheRatio : option string;
  o_CreateCacheRatio : option string; o_ImageRatio : option string; o_AudioRatio : option string;
  o_AudioCompletionRatio : option string }.

Definition source_maps_of (o : option_texts) : source_maps :=
  SourceMaps (parseOptionJSON (o_ModelPrice o)) (parseOptionJSON (o_ModelRatio o))
    (parseOptionJSON (o_CompletionRatio o)) (parseOptionJSON (o_CompletionRatioMeta o))
    (parseOptionJSON (o_CacheRatio o)) (parseOptionJSON (o_CreateCacheRatio o))
    (parseOptionJSON (o_ImageRatio o)) (parseOptionJSON (o_AudioRatio o))
    (parseOptionJSON (o_AudioCompletionRatio o)).

(** The names of [new Set([...])]. *)
Definition model_names (candidateModelNames : list string) (m : source_maps) : list string :=
  let keys v := obj_keys (own_props v) in
  uniq (candidateModelNames ++ keys (ModelPrice m) ++ keys (ModelRatio m)
        ++ keys (CompletionRatio m) ++ keys (CompletionRatioMeta m) ++ keys (CacheRatio m)
        ++ keys (CreateCacheRatio m) ++ keys (ImageRatio m) ++ keys (AudioRatio m)
        ++ keys (AudioCompletionRatio m)).

(** [previous && models.some(...)]. *)
Definition has_model (n : string) (ms : list model) : bool :=
  existsb (λ m, bool_decide (name m = n)) ms.

Definition first_name (ms : list model) : string :=
  match ms with m :: _ => name m | [] => "" end.

Definition unset_filter (filterMode : string) (ms : list model) : list model :=
  if bool_decide (filterMode = "unset")
  then filter (λ m, isBasePricingUnset m = true) ms else ms.

Section hook.
Context (t : string → obj → string) (name_le : string → string → bool).

Abbreviation tr k := (t k []).

Definition model_le (a b : model) : Prop := name_le (name a) (name b) = true.
#[local] Instance model_le_dec a b : Decision (model_le a b).
Proof. unfold model_le. apply _. Defined.

Definition load_models (options : option_texts) (candidateModelNames : list string)
    : res (list model) :=
  let maps := source_maps_of options in
  ms ← res_map (λ n, buildModelState n maps) (model_names candidateModelNames maps);
  Ok (merge_sort model_le ms).

Definition toggles_of (ms : list model) : list (string * list (string * bool)) :=
  foldl (λ acc m, obj_set (name m) (buildOptionalFieldToggles m) acc) [] ms.

(** The effect that runs when the options, the candidates or the filter
    change; an exception of [buildModelState] leaves the effect. *)
Definition loadEffect (options : option_texts) (candidateModelNames : list string)
    (filterMode : string) (e : editor) : res editor :=
  nextModels ← load_models options candidateModelNames;
  Ok (let previous := selectedModelName e in
      let e := setModels nextModels e in
      let e := setInitialVisibleModelNames (name <$> unset_filter filterMode nextModels) e in
      let e := setOptionalFieldToggles (toggles_of nextModels) e in
      setSelectedModelName
        (if negb (bool_decide (previous = "")) && has_model previous nextModels then previous
         else first_name (unset_filter filterMode nextModels)) e).

(** ** Derived lists *)

Definition visibleModels (filterMode : string) (e : editor) : list model :=
  if bool_decide (filterMode = "unset")
  then filter (λ m, name m ∈ initialVisibleModelNames e) (models e) else models e.

Definition filteredModels (filterMode : string) (e : editor) : list model :=
  let keyword := to_lower (trim (searchText e)) in
  filter (λ m, (if bool_decide (keyword = "") then true else includes keyword (to_lower (name m)))
               && (if conflictOnly e then hasConflict m else true) = true)
    (visibleModels filterMode e).

Definition pagedData (filterMode : string) (e : editor) : list model :=
  take PAGE_SIZE (drop ((currentPage e - 1) * PAGE_SIZE) (filteredModels filterMode e)).

Definition find_model (n : string) (ms : list model) : option model :=
  snd <$> list_find (λ m, name m = n) ms.

Definition selectedModel (filterMode : string) (e : editor) : option model :=
  find_model (selectedModelName e) (visibleModels filterMode e).

(** ** Effects on derived state *)

Definition resetPageEffect (e : editor) : editor := setCurrentPage 1 e.

Definition checkedNamesEffect (filterMode : string) (e : editor) : editor :=
  setSelectedModelNames
    (filter (λ n, has_model n (visibleModels filterMode e) = true) (selectedModelNames e)) e.

Definition selectionEffect (filterMode : string) (e : editor) : editor :=
  match visibleModels filterMode e with
  | [] => setSelectedModelName "" e
  | m :: ms => if has_model (selectedModelName e) (m :: ms) then e
               else setSelectedModelName (name m) e
  end.

(** ** Price fields *)

Inductive price_field :=
| FixedPrice | InputPrice | CompletionPrice | CachePrice | CreateCachePrice | ImagePrice
| AudioInputPrice | AudioOutputPrice.
#[local] Instance price_field_eq_dec : EqDecision price_field.
Proof. solve_decision. Defined.

Definition field_key (f : price_field) : string :=
  match f with
  | FixedPrice => "fixedPrice" | InputPrice => "inputPrice" | CompletionPrice => "completionPrice"
  | CachePrice => "cachePrice" | CreateCachePrice => "createCachePrice" | ImagePrice => "imagePrice"
  | AudioInputPrice => "audioInputPrice" | AudioOutputPrice => "audioOutputPrice"
  end.

(** [{ ...model, [field]: value }]. *)
Definition set_price (f : price_field) (v : string) (m : model) : model :=
  let pick g old := if decide (f = g) then v else old in
  Model (name m) (billingMode m) (pick FixedPrice (fixedPrice m)) (pick InputPrice (inputPrice m))
    (pick CompletionPrice (completionPrice m)) (lockedCompletionRatio m) (completionRatioLocked m)
    (pick CachePrice (cachePrice m)) (pick CreateCachePrice (createCachePrice m))
    (pick ImagePrice (imagePrice m)) (pick AudioInputPrice (audioInputPrice m))
    (pick AudioOutputPrice (audioOutputPrice m)) (rawRatios m) (hasConflict m).

Definition set_billing (v : string) (m : model) : model :=
  Model (name m) v (fixedPrice m) (inputPrice m) (completionPrice m) (lockedCompletionRatio m)
    (completionRatioLocked m) (cachePrice m) (createCachePrice m) (imagePrice m)
    (audioInputPrice m) (audioOutputPrice m) (rawRatios m) (hasConflict m).

Definition upsertModel (n : string) (updater : model → model) (e : editor) : editor :=
  setModels ((λ m, if bool_decide (name m = n) then updater m else m) <$> models e) e.

(** The toggles of a model, [prev[modelName] || {}]. *)
Definition toggles_for (n : string) (e : editor) : list (string * bool) :=
  default [] (obj_get (optionalFieldToggles e) n).

Definition isOptionalFieldEnabled (m : option model) (f : price_field) (e : editor) : bool :=
  match m with
  | None => false
  | Some m => match obj_get (toggles_for (name m) e) (field_key f) with
              | Some b => b
              | None => default false (obj_get (buildOptionalFieldToggles m) (field_key f))
              end
  end.

Definition updateOptionalFieldToggle (n : string) (f : price_field) (checked : bool) (e : editor)
    : editor :=
  setOptionalFieldToggles
    (obj_define n (obj_define (field_key f) checked (toggles_for n e)) (optionalFieldToggles e)) e.

Definition handleOptionalFieldToggle (filterMode : string) (f : price_field) (checked : bool)
    (e : editor) : editor :=
  match selectedModel filterMode e with
  | None => e
  | Some sel =>
      let e := updateOptionalFieldToggle (name sel) f checked e in
      if checked then e
      else
        let is_audio := bool_decide (f = AudioInputPrice) in
        let e := upsertModel (name sel) (λ m,
                   let next := set_price f "" m in
                   if is_audio then set_price AudioOutputPrice "" next else next) e in
        if is_audio
        then updateOptionalFieldToggle (name sel) AudioOutputPrice false
               (updateOptionalFieldToggle (name sel) AudioInputPrice false e)
        else e
  end.

(** [!hasValue(price) && hasValue(ratio) ? formatNumber(base * Number(ratio)) : price] *)
Definition fill_price (base : num) (price ratio : string) : string :=
  if negb (has_text price) && has_text ratio then formatNumber (num_mul base (str_to_num ratio))
  else price.

Definition fillDerivedPricesFromBase (m : model) (nextInputPrice : string) : model :=
  match text_num nextInputPrice with
  | None => m
  | Some base =>
      let raw := rawRatios m in
      Model (name m) (billingMode m) (fixedPrice m) (inputPrice m)
        (if completionRatioLocked m && has_text (lockedCompletionRatio m)
         then formatNumber (num_mul base (str_to_num (lockedCompletionRatio m)))
         else fill_price base (completionPrice m) (completionRatio raw))
        (lockedCompletionRatio m) (completionRatioLocked m)
        (fill_price base (cachePrice m) (cacheRatio raw))
        (fill_price base (createCachePrice m) (createCacheRatio raw))
        (fill_price base (imagePrice m) (imageRatio raw))
        (fill_price base (audioInputPrice m) (audioRatio raw))
        (if negb (has_text (audioOutputPrice m)) && has_text (audioRatio raw)
            && has_text (audioCompletionRatio raw)
         then formatNumber (num_mul (num_mul base (str_to_num (audioRatio raw)))
                              (str_to_num (audioCompletionRatio raw)))
         else audioOutputPrice m)
        raw (hasConflict m)
  end.

Definition handleNumericFieldChange (filterMode : string) (f : price_field) (value : string)
    (e : editor) : editor :=
  match selectedModel filterMode e with
  | None => e
  | Some sel =>
      if numeric_input value then
        upsertModel (name sel) (λ m,
          let updated := set_price f value m in
          if bool_decide (f = InputPrice) then fillDerivedPricesFromBase updated value
          else updated) e
      else e
  end.

Definition handleBillingModeChange (filterMode value : string) (e : editor) : editor :=
  match selectedModel filterMode e with
  | None => e
  | Some sel => upsertModel (name sel) (set_billing value) e
  end.

(** ** Adding and deleting models *)

Definition new_model (n : string) : model :=
  Model n "per-token" "" "" "" "" false "" "" "" "" "" EMPTY_RATIOS false.

Definition addModel (modelName : string) (e : editor) : bool * editor :=
  let trimmedName := trim modelName in
  if bool_decide (trimmedName = "") then (false, showError (tr "请输入模型名称") e)
  else if has_model trimmedName (models e) then (false, showError (tr "模型名称已存在") e)
  else
    let nextModel := new_model trimmedName in
    (true,
     let e := setModels (nextModel :: models e) e in
     let e := setOptionalFieldToggles
                (obj_define trimmedName (buildOptionalFieldToggles nextModel)
                   (optionalFieldToggles e)) e in
     setCurrentPage 1 (setSelectedModelName trimmedName e)).

Definition deleteModel (n : string) (e : editor) : editor :=
  let nextModels := filter (λ m, name m ≠ n) (models e) in
  let selected := selectedModelName e in
  let e := setModels nextModels e in
  let e := setOptionalFieldToggles (obj_delete n (optionalFieldToggles e)) e in
  let e := setSelectedModelNames (filter (λ x, x ≠ n) (selectedModelNames e)) e in
  if bool_decide (selected = n) then setSelectedModelName (first_name nextModels) e else e.

(** ** Copying the prices of the selected model *)

(** [nextModel] of a checked model. *)
Definition copy_prices (src m : model) : model :=
  let locked := bool_decide (billingMode src = "per-token") && completionRatioLocked m
                && has_text (inputPrice src) && has_text (lockedCompletionRatio m) in
  Model (name m) (billingMode src) (fixedPrice src) (inputPrice src)
    (if locked then formatNumber (num_mul (str_to_num (inputPrice src))
                                    (str_to_num (lockedCompletionRatio m)))
     else completionPrice src)
    (lockedCompletionRatio m) (completionRatioLocked m) (cachePrice src) (createCachePrice src)
    (imagePrice src) (audioInputPrice src) (audioOutputPrice src) (rawRatios m) (hasConflict m).

(** [Boolean(toggles[key])]. *)
Definition toggle (tg : list (string * bool)) (f : price_field) : bool :=
  default false (obj_get tg (field_key f)).

Definition copy_toggles (src : list (string * bool)) (target : option model)
    : list (string * bool) :=
  [("completionPrice", if from_option completionRatioLocked false target then true
                       else toggle src CompletionPrice);
   ("cachePrice", toggle src CachePrice); ("createCachePrice", toggle src CreateCachePrice);
   ("imagePrice", toggle src ImagePrice); ("audioInputPrice", toggle src AudioInputPrice);
   ("audioOutputPrice", toggle src AudioInputPrice && toggle src AudioOutputPrice)].

Definition applySelectedModelPricing (filterMode : string) (e : editor) : bool * editor :=
  match selectedModel filterMode e with
  | None => (false, showError (tr "请先选择一个作为模板的模型") e)
  | Some src =>
      match selectedModelNames e with
      | [] => (false, showError (tr "请先勾选需要批量设置的模型") e)
      | names =>
          let sourceToggles := toggles_for (name src) e in
          let ms := models e in
          (true,
           let e := setModels ((λ m, if bool_decide (name m ∈ names) then copy_prices src m else m)
                                 <$> ms) e in
           let e := setOptionalFieldToggles
                      (foldl (λ acc n, obj_set n (copy_toggles sourceToggles (find_model n ms)) acc)
                         (optionalFieldToggles e) names) e in
           showSuccess (t "已将模型 {{name}} 的价格配置批量应用到 {{count}} 个模型"
             [("name", VStr (name src));
              ("count", VNum (num_of_Z (Z.of_nat (length names))))]) e)
      end
  end.

(** ** Saving *)

(** [Object.entries(serialized)]. *)
Definition serialized_entries (s : serialized) : list (string * option num) :=
  [("ModelPrice", s_ModelPrice s); ("ModelRatio", s_ModelRatio s);
   ("CompletionRatio", s_CompletionRatio s); ("CacheRatio", s_CacheRatio s);
   ("CreateCacheRatio", s_CreateCacheRatio s); ("ImageRatio", s_ImageRatio s);
   ("AudioRatio", s_AudioRatio s); ("AudioCompletionRatio", s_AudioCompletionRatio s)].

Definition OUTPUT_KEYS : list string :=
  ["ModelPrice"; "ModelRatio"; "CompletionRatio"; "CacheRatio"; "CreateCacheRatio"; "ImageRatio";
   "AudioRatio"; "AudioCompletionRatio"].

Definition empty_output : list (string * obj) := (λ k, (k, [])) <$> OUTPUT_KEYS.

(** [if (value !== null) output[key][model.name] = value]. *)
Definition add_entry (n : string) (output : list (string * obj)) (kv : string * option num)
    : list (string * obj) :=
  match kv.2 with
  | None => output
  | Some v => obj_define kv.1 (obj_set n (VNum v) (default [] (obj_get output kv.1))) output
  end.

Fixpoint build_output (ms : list model) (output : list (string * obj))
    : res (list (string * obj)) :=
  match ms with
  | [] => Ok output
  | m :: ms =>
      s ← serializeModel t m;
      build_output ms (foldl (add_entry (name m)) output (serialized_entries s))
  end.

Definition request_queue (output : list (string * obj)) : list (string * string) :=
  (λ kv : string * obj, (kv.1, stringify2 (VObj kv.2))) <$> output.

Definition emit_puts (queue : list (string * string)) (e : editor) : editor :=
  foldl (λ e kv, emit (Put kv.1 kv.2) e) e queue.

(** [catch] and [finally]. *)
Definition submit_failed (message : string) (e : editor) : editor :=
  setLoading false
    (showError (if bool_decide (message = "") then tr "保存失败，请重试" else message) e).

(** Up to the [await]: the requests that are sent, if all models serialise. *)
Definition submitStart (e : editor) : option (list (string * string)) * editor :=
  let e1 := setLoading true e in
  match build_output (models e) empty_output with
  | Throw m => (None, submit_failed m e1)
  | Ok output => (Some (request_queue output), emit_puts (request_queue output) e1)
  end.

(** The loop over the answers: the error it throws, if any. *)
Fixpoint first_failure (results : list jsval) : res unit :=
  match results with
  | [] => Ok ()
  | r :: results =>
      if truthy (prop_opt (prop_opt r "data") "success") then first_failure results
      else m ← to_str (js_or (prop_opt (prop_opt r "data") "message") (VStr (tr "保存失败，请重试")));
           Throw m
  end.

(** After the [await]: [outcome] is the result of [Promise.all], [refreshed]
    that of [refresh()]. *)
Definition submitEnd (outcome : res (list jsval)) (refreshed : res unit) (e : editor) : editor :=
  match results ← outcome; first_failure results with
  | Throw m => submit_failed m e
  | Ok _ =>
      let e := emit Refresh (showSuccess (tr "保存成功") e) in
      match refreshed with
      | Ok _ => setLoading false e
      | Throw m => submit_failed m e
      end
  end.
End hook.

