(* ===== verification/PricingSave.v ===== *)
(** * Model prices: what the editor stores

    The names of the models stay distinct, the stored maps hold exactly the
    serialised numbers, a save is all or nothing, and the batch copy reaches
    exactly the checked models. *)
From Stdlib Require Import Ascii SpecFloat.
From S2P Require Import Prelude JsString JsNumber JsValue Json Pricing PricingEditor.

Section save.
Context (t : string → obj → string).

(** ** The stored maps *)

(** [output[key][n]]. *)
Definition lookup_output (out : list (string * obj)) (k n : string) : option jsval :=
  obj_get (default [] (obj_get out k)) n.

Lemma lookup_add_entry nm out k v k' n :
  nm ≠ "__proto__" →
  lookup_output (add_entry nm out (k, v)) k' n =
    match v with
    | Some v => if decide (k' = k ∧ n = nm) then Some (VNum v) else lookup_output out k' n
    | None => lookup_output out k' n
    end.
Proof.
  intros Hn. unfold add_entry, lookup_output. destruct v as [v|]; [|done].
  cbn [fst snd]. rewrite obj_get_define. destruct (decide (k' = k)) as [->|Hk]; cbn.
  - unfold obj_set. rewrite decide_False, obj_get_define by done.
    repeat case_decide; naive_solver.
  - rewrite decide_False by naive_solver. done.
Qed.

Lemma lookup_add_entries nm entries out k n :
  nm ≠ "__proto__" → NoDup (obj_keys entries) →
  lookup_output (foldl (add_entry nm) out entries) k n =
    if decide (n = nm) then
      match obj_get entries k with
      | Some (Some v) => Some (VNum v)
      | _ => lookup_output out k n
      end
    else lookup_output out k n.
Proof.
  intros Hn. revert out. induction entries as [|[k0 v0] entries IH]; intros out Hnd; cbn [foldl].
  { by case_decide. }
  apply NoDup_cons in Hnd as [Hk0 Hnd]. rewrite IH, lookup_add_entry by done. cbn [obj_get].
  destruct (decide (n = nm)) as [->|Hnm].
  - destruct (decide (k = k0)) as [->|Hk].
    + rewrite (proj2 (obj_get_None entries k0)) by done.
      destruct v0; [by rewrite decide_True|done].
    + destruct (obj_get entries k) as [[v|]|]; [done|..]; destruct v0; try done;
        by rewrite decide_False by naive_solver.
  - destruct v0; [|done]. by rewrite decide_False by naive_solver.
Qed.

Lemma entries_NoDup s : NoDup (obj_keys (serialized_entries s)).
Proof. apply (bool_decide_unpack _). by vm_compute. Qed.

(** What a list of models stores under [key] for name [n]. *)
Definition stored_value (ms : list model) (k n : string) : option jsval :=
  match find_model n ms with
  | Some m => match serializeModel t m with
              | Ok s => VNum <$> default None (obj_get (serialized_entries s) k)
              | Throw _ => None
              end
  | None => None
  end.

Lemma find_model_cons n m ms :
  find_model n (m :: ms) = if decide (name m = n) then Some m else find_model n ms.
Proof.
  unfold find_model. cbn. case_decide; [done|]. by destruct (list_find _ ms) as [[]|].
Qed.

Lemma find_model_None n ms : n ∉ (name <$> ms) → find_model n ms = None.
Proof.
  induction ms as [|m ms IH]; [done|]. cbn [fmap list_fmap]. rewrite not_elem_of_cons.
  intros [? ?]. rewrite find_model_cons, decide_False by done. by apply IH.
Qed.

Lemma build_output_lookup ms out out' k n :
  NoDup (name <$> ms) → Forall (λ m, name m ≠ "__proto__") ms →
  (∀ k n, n ∈ (name <$> ms) → lookup_output out k n = None) →
  build_output t ms out = Ok out' →
  lookup_output out' k n =
    if decide (n ∈ (name <$> ms)) then stored_value ms k n else lookup_output out k n.
Proof.
  revert out. induction ms as [|m ms IH]; intros out Hnd HF Hout; cbn [build_output].
  { intros [= <-]. by rewrite decide_False by set_solver. }
  intros (s & Hs & Hb)%res_bind_Ok. cbn [fmap list_fmap] in Hnd, Hout.
  apply NoDup_cons in Hnd as [Hm Hnd]. apply Forall_cons in HF as [Hp HF].
  rewrite (IH _ Hnd HF) with (2 := Hb).
  2: { intros k' n' Hn'. rewrite lookup_add_entries by (done || apply entries_NoDup).
       rewrite decide_False by (intros ->; done). apply Hout. by right. }
  rewrite lookup_add_entries by (done || apply entries_NoDup).
  unfold stored_value. rewrite find_model_cons. cbn [fmap list_fmap].
  destruct (decide (n = name m)) as [->|Hn].
  - rewrite !decide_False by done. rewrite !decide_True by (done || by left). rewrite Hs.
    destruct (obj_get (serialized_entries s) k) as [[v|]|]; [done|..]; apply Hout; by left.
  - rewrite (decide_False (P := name m = n)) by done.
    destruct (decide (n ∈ name <$> ms)); [rewrite decide_True by (by right)|
      rewrite decide_False by set_solver]; done.
Qed.

Lemma add_entry_keys nm out kv :
  kv.1 ∈ obj_keys out → obj_keys (add_entry nm out kv) = obj_keys out.
Proof.
  intros Hk. unfold add_entry. destruct kv.2; [|done]. unfold obj_define.
  apply obj_get_is_Some in Hk as [v ->]. apply obj_keys_replace.
Qed.

Lemma add_entries_keys nm entries out :
  Forall (λ kv, kv.1 ∈ obj_keys out) entries →
  obj_keys (foldl (add_entry nm) out entries) = obj_keys out.
Proof.
  revert out. induction entries as [|kv entries IH]; intros out; [done|].
  intros [Hk HF]%Forall_cons. cbn [foldl]. rewrite IH; rewrite ?add_entry_keys; done.
Qed.

Lemma build_output_keys ms out out' :
  obj_keys out = OUTPUT_KEYS → build_output t ms out = Ok out' → obj_keys out' = OUTPUT_KEYS.
Proof.
  revert out. induction ms as [|m ms IH]; intros out Hk; cbn [build_output]; [by intros [= <-]|].
  intros (s & _ & Hb)%res_bind_Ok. eapply IH; [|done]. rewrite add_entries_keys; [done|].
  rewrite Hk. repeat (apply Forall_cons; split; [set_solver|]). by apply Forall_nil.
Qed.

(** C19.  The maps a save sends are the eight option maps, and under each key
    a model has exactly the number its serialisation gives for that key;
    names that are not in the list have none. *)
Theorem saved_maps_exact (ms : list model) (out : list (string * obj)) :
  NoDup (name <$> ms) → Forall (λ m, name m ≠ "__proto__") ms →
  build_output t ms empty_output = Ok out →
  obj_keys out = OUTPUT_KEYS ∧ ∀ k n, lookup_output out k n = stored_value ms k n.
Proof.
  intros Hnd HF Hb. split; [by apply (build_output_keys ms empty_output)|]. intros k n.
  assert (He : ∀ k n, lookup_output empty_output k n = None).
  { intros k' n'. unfold lookup_output, empty_output, OUTPUT_KEYS. cbn.
    by repeat case_decide. }
  rewrite (build_output_lookup ms empty_output out k n) by auto.
  case_decide as Hn; [done|]. rewrite He. unfold stored_value. by rewrite find_model_None.
Qed.

(** ** The submit handler *)

Definition serializes (m : model) : Prop := ∃ s, serializeModel t m = Ok s.

Lemma build_output_total ms out :
  Forall serializes ms → ∃ out', build_output t ms out = Ok out'.
Proof.
  intros HF. revert out. induction HF as [|m ms [s Hs] _ IH]; intros out; [by eexists|].
  cbn [build_output]. rewrite Hs. apply IH.
Qed.

Lemma build_output_fails ms out :
  ¬ Forall serializes ms → ∃ e, build_output t ms out = Throw e.
Proof.
  revert out. induction ms as [|m ms IH]; intros out Hn; [by destruct Hn|]. cbn [build_output].
  destruct (serializeModel t m) as [s|e] eqn:E; [|by exists e]. apply IH.
  intros HF. apply Hn. constructor; [by exists s|done].
Qed.

Lemma emit_puts_effects q e :
  effects (emit_puts q e) = effects e ++ ((λ kv : string * string, Put kv.1 kv.2) <$> q) ∧
  loading (emit_puts q e) = loading e ∧ models (emit_puts q e) = models e.
Proof.
  revert e. induction q as [|kv q IH]; intros e; cbn [emit_puts foldl].
  { by rewrite app_nil_r. }
  destruct (IH (emit (Put kv.1 kv.2) e)) as (H1 & H2 & H3). unfold emit_puts in *.
  rewrite H1, H2, H3. destruct e. cbn. by rewrite <-app_assoc.
Qed.

(** C30.  A save is all or nothing: when every model serialises, the eight
    requests are sent, in the order of the keys, and the page stays loading;
    when one does not, nothing is sent, one error is shown and the page is
    not loading. *)
Theorem submit_all_or_nothing (e : editor) :
  (Forall serializes (models e) →
     ∃ q e', submitStart t e = (Some q, e') ∧ q.*1 = OUTPUT_KEYS ∧ loading e' = true ∧
       effects e' = effects e ++ ((λ kv : string * string, Put kv.1 kv.2) <$> q)) ∧
  (¬ Forall serializes (models e) →
     ∃ m e', submitStart t e = (None, e') ∧ loading e' = false ∧
       effects e' = effects e ++ [ShowError m]).
Proof.
  unfold submitStart. split; intros HF.
  - destruct (build_output_total _ empty_output HF) as [out Hout]. rewrite Hout.
    eexists _, _. split; [reflexivity|]. split.
    + unfold request_queue. rewrite <-list_fmap_compose.
      by apply (build_output_keys (models e) empty_output).
    + destruct (emit_puts_effects (request_queue out) (setLoading true e)) as (-> & -> & _).
      by destruct e.
  - destruct (build_output_fails _ empty_output HF) as [m ->].
    eexists _, _. split; [reflexivity|]. by destruct e.
Qed.

Definition succeeded (r : jsval) : bool := truthy (prop_opt (prop_opt r "data") "success").

Lemma first_failure_Ok results :
  first_failure t results = Ok () ↔ forallb succeeded results = true.
Proof.
  induction results as [|r results IH]; [done|]. cbn. unfold succeeded at 1.
  destruct (truthy _); [done|]. split; [|done]. intros (m & _ & H)%res_bind_Ok. done.
Qed.

(** When the answers arrive the page stops loading whatever happened;
    success is reported and the options are refreshed exactly when the
    requests resolved and every answer reports success. *)
Theorem submit_end_reports (outcome : res (list jsval)) (refreshed : res unit) (e : editor) :
  loading (submitEnd t outcome refreshed e) = false ∧
  (Refresh ∈ effects (submitEnd t outcome refreshed (setEffects [] e)) ↔
   ∃ results, outcome = Ok results ∧ forallb succeeded results = true).
Proof.
  unfold submitEnd, submit_failed. split.
  - repeat case_match; by destruct e.
  - destruct (outcome ≫= first_failure t) as [[]|m] eqn:E.
    + apply res_bind_Ok in E as (results & -> & E). rewrite first_failure_Ok in E. split; [eauto|].
      intros _. destruct refreshed, e; cbn; set_solver.
    + split.
      * intros Hin. exfalso. destruct e; cbn in Hin. set_solver.
      * intros (results & -> & Hs). apply first_failure_Ok in Hs. cbn in E. congruence.
Qed.
End save.

(** ** Names stay distinct *)

Section names.
Context (t : string → obj → string) (name_le : string → string → bool).

Lemma buildModelState_name n maps m : buildModelState n maps = Ok m → name m = n.
Proof.
  unfold buildModelState. intros H.
  repeat (apply res_bind_Ok in H as (? & _ & H); cbn beta zeta in H). by injection H as <-.
Qed.

Lemma load_names options cands ms :
  load_models name_le options cands = Ok ms → NoDup (name <$> ms).
Proof.
  unfold load_models. intros (l & Hl & [= <-])%res_bind_Ok.
  rewrite (merge_sort_Permutation _ l). apply res_map_Ok in Hl.
  assert (name <$> l = model_names cands (source_maps_of options)) as ->.
  { induction Hl as [|n m ns l Hm Hl IH]; [done|]. cbn. f_equal; [|done].
    by apply buildModelState_name in Hm. }
  apply NoDup_uniq.
Qed.

(** What the page can do with the list of models. *)
Inductive step : editor → editor → Prop :=
| step_load o c fm e e' : loadEffect name_le o c fm e = Ok e' → step e e'
| step_page e : step e (resetPageEffect e)
| step_checked fm e : step e (checkedNamesEffect fm e)
| step_selection fm e : step e (selectionEffect fm e)
| step_toggle fm f b e : step e (handleOptionalFieldToggle fm f b e)
| step_numeric fm f v e : step e (handleNumericFieldChange fm f v e)
| step_billing fm v e : step e (handleBillingModeChange fm v e)
| step_add n e : step e (addModel t n e).2
| step_delete n e : step e (deleteModel n e)
| step_apply fm e : step e (applySelectedModelPricing t fm e).2
| step_submit e : step e (submitStart t e).2
| step_answer out r e : step e (submitEnd t out r e)
| step_view e n ns s p c :
    step e (setSelectedModelName n (setSelectedModelNames ns
              (setSearchText s (setCurrentPage p (setConflictOnly c e))))).

Definition initial : editor := Editor [] [] "" [] "" 1 false false [] [].

Inductive reachable : editor → Prop :=
| reach_initial : reachable initial
| reach_step e e' : reachable e → step e e' → reachable e'.

Lemma map_names (f : model → model) (ms : list model) :
  (∀ m, name (f m) = name m) → name <$> (f <$> ms) = name <$> ms.
Proof. intros Hf. rewrite <-list_fmap_compose. apply list_fmap_ext. intros; apply Hf. Qed.

Lemma upsert_names n f e :
  (∀ m, name (f m) = name m) → name <$> models (upsertModel n f e) = name <$> models e.
Proof.
  intros Hf. rewrite <-(map_names (λ m, if bool_decide (name m = n) then f m else m) (models e)).
  - by destruct e.
  - intros m. by case_bool_decide.
Qed.

Lemma fill_name m v : name (fillDerivedPricesFromBase m v) = name m.
Proof. unfold fillDerivedPricesFromBase. by case_match. Qed.

Lemma toggle_models n f b e : models (updateOptionalFieldToggle n f b e) = models e.
Proof. by destruct e. Qed.

(** A step either keeps the list of names or satisfies the invariant. *)
Lemma step_names e e' :
  step e e' → NoDup (name <$> models e) → NoDup (name <$> models e').
Proof.
  intros Hs Hn. destruct Hs as [o c fm e e' H|e|fm e|fm e|fm f b e|fm f v e|fm v e|n e|n e|fm e|e|out r e|];
    try (by destruct e).
  - apply res_bind_Ok in H as (ms & Hms & [= <-]). apply load_names in Hms. by destruct e.
  - unfold selectionEffect. repeat case_match; by destruct e.
  - unfold handleOptionalFieldToggle. destruct (selectedModel fm e) as [sel|]; [|done].
    destruct b; [by rewrite toggle_models|]. case_bool_decide; rewrite ?toggle_models;
      rewrite upsert_names; rewrite ?toggle_models; done.
  - unfold handleNumericFieldChange. destruct (selectedModel fm e) as [sel|]; [|done].
    destruct (numeric_input v); [|done]. rewrite upsert_names; [done|].
    intros m. case_bool_decide; [|done]. by rewrite fill_name.
  - unfold handleBillingModeChange. destruct (selectedModel fm e) as [sel|]; [|done].
    by rewrite upsert_names.
  - unfold addModel. cbn zeta. case_bool_decide; [by destruct e|].
    destruct (has_model (trim n) (models e)) eqn:Hh; [by destruct e|].
    destruct e. cbn in *. apply NoDup_cons. split; [|done].
    intros (m & Hm & Hin)%list_elem_of_fmap. apply not_true_iff_false in Hh. apply Hh.
    apply existsb_exists. exists m. rewrite <-list_elem_of_In. split; [done|].
    by apply bool_decide_eq_true.
  - unfold deleteModel.
    assert (HF : NoDup (name <$> filter (λ m, name m ≠ n) (models e))).
    { eapply sublist_NoDup; [exact Hn|]. apply (fmap_sublist name), sublist_filter. }
    cbn zeta. case_bool_decide; by destruct e.
  - unfold applySelectedModelPricing. destruct (selectedModel fm e) as [src|]; [|by destruct e].
    destruct (selectedModelNames e) as [|x l]; [by destruct e|].
    destruct e. cbn. change (list_fmap model string name) with (@fmap list _ model string name).
    rewrite (map_names (λ m, if bool_decide (name m ∈ x :: l) then copy_prices src m else m));
      [done|]. intros m. by case_bool_decide.
  - unfold submitStart. destruct (build_output t (models e) empty_output) as [out|m]; cbn [snd].
    + destruct (emit_puts_effects (request_queue out) (setLoading true e)) as (_ & _ & ->).
      by destruct e.
    + by destruct e.
  - unfold submitEnd, submit_failed. repeat case_match; by destruct e.
Qed.

(** Whatever is loaded, added, edited, deleted, copied or saved, no two
    models of the editor have the same name. *)
Theorem model_names_distinct (e : editor) :
  reachable e → NoDup (name <$> models e).
Proof. induction 1; [constructor|by eapply step_names]. Qed.
End names.


(** ** Batch copy *)

Section copy.
Context (t : string → obj → string).

Lemma copy_serializes src m s :
  serializeModel t src = Ok s → completionRatioLocked src = false →
  completionRatioLocked m = false →
  billingMode src = "per-request" ∨ is_Some (text_num (inputPrice src)) →
  serializeModel t (copy_prices src m) = Ok s.
Proof.
  intros Hs Hl Hm Hp. unfold serializeModel, copy_prices in *.
  cbn [billingMode fixedPrice inputPrice completionPrice cachePrice createCachePrice imagePrice
       audioInputPrice audioOutputPrice rawRatios completionRatioLocked name] in *.
  rewrite Hm. rewrite Hl in Hs. rewrite !andb_false_r. cbn [andb].
  case_bool_decide; [done|]. destruct Hp as [?|[base Hb]]; [done|]. rewrite Hb in *.
  repeat case_match; simplify_eq; done.
Qed.

(** The batch copy changes exactly the checked models, in place, and
    makes each of them store the same price and ratios as the template
    (where the backend does not fix the completion ratio and the template
    has a price). *)
Theorem batch_copy_prices (fm : string) (e : editor) (src : model) (s : serialized) :
  selectedModel fm e = Some src → selectedModelNames e ≠ [] →
  serializeModel t src = Ok s → completionRatioLocked src = false →
  billingMode src = "per-request" ∨ is_Some (text_num (inputPrice src)) →
  ∃ e', applySelectedModelPricing t fm e = (true, e') ∧
    length (models e') = length (models e) ∧
    ∀ i m, models e !! i = Some m → ∃ m', models e' !! i = Some m' ∧ name m' = name m ∧
      (name m ∉ selectedModelNames e → m' = m) ∧
      (name m ∈ selectedModelNames e → completionRatioLocked m = false →
         serializeModel t m' = Ok s).
Proof.
  intros Hsel Hne Hs Hl Hp. unfold applySelectedModelPricing. rewrite Hsel.
  set (f m := if bool_decide (name m ∈ selectedModelNames e) then copy_prices src m else m).
  destruct (selectedModelNames e) as [|x l] eqn:E; [done|].
  eexists. split; [reflexivity|].
  match goal with |- context [length (models ?e')] =>
    assert (Hm : models e' = f <$> models e) by (by destruct e) end.
  rewrite Hm, length_fmap. split; [done|]. intros i m Hi.
  exists (f m). rewrite list_lookup_fmap, Hi. split; [done|]. unfold f.
  case_bool_decide; split_and!; try done. intros _ Hlm. by apply copy_serializes.
Qed.
End copy.

(** ** Examples *)

Definition one (m : model) : editor := Editor [m] [] (name m) [name m] "" 1 false false [] [].

Lemma saved_maps_exact_witness :
  ∃ out, build_output (λ k _, k) [priced] empty_output = Ok out ∧
    lookup_output out "CompletionRatio" "m" = Some (VNum (num_of_Z 3)).
Proof.
  destruct (build_output_total (λ k _, k) [priced] empty_output) as [out Hout].
  { repeat constructor. eexists. by vm_compute. }
  exists out. split; [done|].
  destruct (saved_maps_exact (λ k _, k) [priced] out) as [_ H]; [..|done|].
  - apply NoDup_singleton.
  - by repeat constructor.
  - rewrite H. by vm_compute.
Defined.

Lemma model_names_distinct_witness :
  NoDup (name <$> models (addModel (λ k _, k) " gpt " (addModel (λ k _, k) "gpt" initial).2).2).
Proof.
  apply (model_names_distinct (λ k _, k) (λ _ _, true)).
  eapply reach_step; [|apply step_add]. eapply reach_step; [|apply step_add]. constructor.
Defined.

Lemma batch_copy_prices_witness :
  ∃ e', applySelectedModelPricing (λ k _, k) "all" (one priced) = (true, e') ∧
    length (models e') = 1.
Proof.
  destruct (batch_copy_prices (λ k _, k) "all" (one priced) priced
    (Serialized None (Some (str_to_num "2.5")) (Some (num_of_Z 3)) (Some (str_to_num "0.1"))
       None None None None)) as (e' & H1 & H2 & _);
    [by vm_compute|done|by vm_compute|done|right; eexists; by vm_compute|].
  by exists e'.
Defined.
