(* ===== verification/PricingFilter.v ===== *)
(** * Filters of the model price list

    [web/src/hooks/model-pricing/usePricingFilterCounts.js]: the filter
    predicate and the five lists from which the filter panels compute the
    number of models behind each of their options. *)
From Stdlib Require Import Ascii SpecFloat.
From S2P Require Import Prelude JsString JsNumber JsValue Json.

(** The fields of a model the filters read; [None] is [undefined] (or
    [null]), an empty text is falsy. *)
Record model := Model {
  model_name : string; description : string; vendor_name : string;
  tags : option string; quota_type : jsval;
  enable_groups : option (list string); supported_endpoint_types : option (list string) }.

Record filters := Filters {
  filterGroup : string; filterQuotaType : jsval; filterEndpointType : string;
  filterVendor : string; filterTag : string; searchValue : string }.

(** [s.split(/[,;|]+/)] up to empty parts, which are dropped afterwards. *)
Definition split_tags (s : string) : list string :=
  concat (split_on "|" <$> concat (split_on ";" <$> split_on "," s)).

Definition normalizeTags (tags : option string) : list string :=
  filter (λ s, s ≠ "") (trim <$> split_tags (to_lower (default "" tags))).

(** [a === b] for the number or text of a quota filter. *)
Definition strict_eq (a b : jsval) : bool :=
  match a, b with
  | VNum x, VNum y => num_eqb x y
  | VStr x, VStr y => bool_decide (x = y)
  | VUndef, VUndef | VNull, VNull => true
  | _, _ => false
  end.

Definition ALL : string := "all".
Definition chosen (s : string) : bool := negb (bool_decide (s = ALL)).

(** One condition per filter, as the source tests them. *)
Definition group_ok (f : filters) (m : model) : bool :=
  match enable_groups m with Some l => bool_decide (filterGroup f ∈ l) | None => false end.
Definition quota_ok (f : filters) (m : model) : bool := strict_eq (quota_type m) (filterQuotaType f).
Definition endpoint_ok (f : filters) (m : model) : bool :=
  match supported_endpoint_types m with
  | Some l => bool_decide (filterEndpointType f ∈ l)
  | None => false
  end.
Definition vendor_ok (f : filters) (m : model) : bool :=
  if bool_decide (filterVendor f = "unknown") then bool_decide (vendor_name m = "")
  else bool_decide (vendor_name m = filterVendor f).
Definition tag_ok (f : filters) (m : model) : bool :=
  bool_decide (to_lower (filterTag f) ∈ normalizeTags (tags m)).
Definition search_ok (f : filters) (m : model) : bool :=
  let term := to_lower (searchValue f) in
  includes term (to_lower (model_name m))
  || (negb (bool_decide (description m = "")) && includes term (to_lower (description m)))
  || includes term (to_lower (default "" (tags m)))
  || (negb (bool_decide (vendor_name m = "")) && includes term (to_lower (vendor_name m))).

Definition matchesFilters (f : filters) (ignore : list string) (m : model) : bool :=
  let active k := negb (bool_decide (k ∈ ignore)) in
  if active "group" && chosen (filterGroup f) && negb (group_ok f m) then false
  else if active "quota" && negb (strict_eq (filterQuotaType f) (VStr ALL)) && negb (quota_ok f m)
  then false
  else if active "endpoint" && chosen (filterEndpointType f) && negb (endpoint_ok f m) then false
  else if active "vendor" && chosen (filterVendor f) && negb (vendor_ok f m) then false
  else if active "tag" && chosen (filterTag f) && negb (tag_ok f m) then false
  else if active "search" && negb (bool_decide (searchValue f = "")) && negb (search_ok f m)
  then false
  else true.

Definition select (f : filters) (ignore : list string) (models : list model) : list model :=
  filter (λ m, matchesFilters f ignore m = true) models.

Definition quotaTypeModels (f : filters) := select f ["quota"].
Definition endpointTypeModels (f : filters) := select f ["endpoint"].
Definition vendorModels (f : filters) := select f ["vendor"].
Definition tagModels (f : filters) := select f ["tag"].
Definition groupCountModels (f : filters) := select f ["group"].

(** ** What the lists are for *)

Definition with_group (v : string) (f : filters) : filters :=
  Filters v (filterQuotaType f) (filterEndpointType f) (filterVendor f) (filterTag f) (searchValue f).
Definition with_quota (v : jsval) (f : filters) : filters :=
  Filters (filterGroup f) v (filterEndpointType f) (filterVendor f) (filterTag f) (searchValue f).
Definition with_endpoint (v : string) (f : filters) : filters :=
  Filters (filterGroup f) (filterQuotaType f) v (filterVendor f) (filterTag f) (searchValue f).
Definition with_vendor (v : string) (f : filters) : filters :=
  Filters (filterGroup f) (filterQuotaType f) (filterEndpointType f) v (filterTag f) (searchValue f).
Definition with_tag (v : string) (f : filters) : filters :=
  Filters (filterGroup f) (filterQuotaType f) (filterEndpointType f) (filterVendor f) v (searchValue f).

Lemma select_refine f g ignore (ok : model → bool) models :
  (∀ m, matchesFilters f [] m = matchesFilters g ignore m && ok m) →
  select f [] models = filter (λ m, ok m = true) (select g ignore models).
Proof.
  intros H. unfold select. rewrite list_filter_filter. apply list_filter_iff. intros m.
  rewrite H, andb_true_iff. tauto.
Qed.

(** A filter lets a model pass when it is ignored, not chosen, or met. *)
Definition pass (ignore : list string) (k : string) (is_chosen ok : bool) : bool :=
  bool_decide (k ∈ ignore) || negb is_chosen || ok.

Lemma matches_pass f ignore m :
  matchesFilters f ignore m =
    pass ignore "group" (chosen (filterGroup f)) (group_ok f m)
    && pass ignore "quota" (negb (strict_eq (filterQuotaType f) (VStr ALL))) (quota_ok f m)
    && pass ignore "endpoint" (chosen (filterEndpointType f)) (endpoint_ok f m)
    && pass ignore "vendor" (chosen (filterVendor f)) (vendor_ok f m)
    && pass ignore "tag" (chosen (filterTag f)) (tag_ok f m)
    && pass ignore "search" (negb (bool_decide (searchValue f = ""))) (search_ok f m).
Proof.
  assert (Hp : ∀ (b c o x : bool), (if negb b && c && negb o then false else x)
    = (b || negb c || o) && x) by (by intros [] [] [] []).
  unfold matchesFilters, pass. rewrite !Hp. rewrite <-!andb_assoc, andb_true_r. done.
Qed.

Lemma pass_all k c o : pass [] k c o = negb c || o.
Proof. done. Qed.
Lemma pass_ignored k c o : pass [k] k c o = true.
Proof. unfold pass. by rewrite bool_decide_true by (by left). Qed.
Lemma pass_other k k' c o : k ≠ k' → pass [k'] k c o = negb c || o.
Proof. intros. unfold pass. by rewrite bool_decide_false by set_solver. Qed.

(** Reorder the six conditions. *)
Ltac panel :=
  apply select_refine; intros m;
  rewrite !matches_pass, !pass_all, pass_ignored, !pass_other by done;
  unfold with_group, with_quota, with_endpoint, with_vendor, with_tag,
    group_ok, quota_ok, endpoint_ok, vendor_ok, tag_ok, search_ok;
  cbn [filterGroup filterQuotaType filterEndpointType filterVendor filterTag searchValue];
  repeat match goal with H : ?x = _ |- context [?x] => rewrite H end;
  cbn [negb orb];
  repeat match goal with |- context [negb ?c || ?o] => destruct (negb c || o) end;
  cbn [negb orb andb]; rewrite ?andb_true_r, ?andb_false_r; done.

(** The list behind each filter panel gives the right counts and is
    independent of the panel's own filter: choosing an option [v] of a panel
    shows exactly the models of its list that carry [v], whatever was chosen
    in that panel before. *)
Theorem panel_counts (f : filters) (models : list model) (v : string) (q : jsval) :
  v ≠ ALL → strict_eq q (VStr ALL) = false →
  select (with_group v f) [] models
    = filter (λ m, group_ok (with_group v f) m = true) (groupCountModels f models) ∧
  select (with_quota q f) [] models
    = filter (λ m, quota_ok (with_quota q f) m = true) (quotaTypeModels f models) ∧
  select (with_endpoint v f) [] models
    = filter (λ m, endpoint_ok (with_endpoint v f) m = true) (endpointTypeModels f models) ∧
  select (with_vendor v f) [] models
    = filter (λ m, vendor_ok (with_vendor v f) m = true) (vendorModels f models) ∧
  select (with_tag v f) [] models
    = filter (λ m, tag_ok (with_tag v f) m = true) (tagModels f models).
Proof.
  intros Hv Hq.
  assert (Hc : chosen v = true) by (unfold chosen; by rewrite bool_decide_false).
  split_and!; panel.
Qed.

Lemma panel_counts_witness :
  let f := Filters ALL (VStr ALL) ALL "openai" ALL "" in
  let ms := [Model "gpt" "" "openai" (Some "a, B") (VNum (num_of_Z 0)) (Some ["vip"]) None;
             Model "o1" "" "" None (VNum (num_of_Z 1)) None None] in
  select (with_vendor "unknown" f) [] ms
  = filter (λ m, vendor_ok (with_vendor "unknown" f) m = true) (vendorModels f ms).
Proof.
  intros f ms.
  refine (proj1 (proj2 (proj2 (proj2 (panel_counts f ms "unknown" (VNum (num_of_Z 0)) _ _))))); done.
Defined.
