(* ===== verification/UpstreamUpdates.v ===== *)
(** * Upstream model updates of channels

    [web/src/hooks/channels/upstreamUpdateUtils.js] and
    [useChannelUpstreamUpdates.jsx]: the lists of detected models, the modal
    that selects among them, and four request handlers, each guarded by an
    in-flight ref.  The handlers are asynchronous: a handler runs up to its
    [await], leaves a continuation in [pending], and the continuation runs
    when the service answers; answers may arrive in any order and between
    any other events.  The service, [refresh] and [t] are arguments. *)
From Stdlib Require Import Ascii SpecFloat.
From S2P Require Import Prelude JsString JsNumber JsValue Json.

(** ** Model lists *)

(** [String(model || '').trim()]. *)
Definition model_text (v : jsval) : res string := s ← to_str (js_or v (VStr "")); Ok (trim s).

Definition normalizeModelList (models : jsval) : res (list string) :=
  match js_or models (VArr []) with
  | VArr l => names ← res_map model_text l; Ok (uniq (filter (λ s, s ≠ "") names))
  | _ => Throw "(models || []).map is not a function"
  end.

(** The settings of a channel: an object, or its JSON text; [None] when it is
    neither. *)
Definition parse_settings (settings : jsval) : option jsval :=
  let parsed := match settings with
                | VArr _ | VObj _ => Some settings
                | VStr s => json_parse s
                | _ => None
                end in
  match parsed with
  | Some v => if truthy v && typeof_object v then Some v else None
  | None => None
  end.

Record update_meta := UpdateMeta {
  enabled : bool; pendingAddModels : list string; pendingRemoveModels : list string }.

Definition parseUpstreamUpdateMeta (settings : jsval) : res update_meta :=
  match parse_settings settings with
  | None => Ok (UpdateMeta false [] [])
  | Some parsed =>
      add ← normalizeModelList (prop_opt parsed "upstream_model_update_last_detected_models");
      rem ← normalizeModelList (prop_opt parsed "upstream_model_update_last_removed_models");
      Ok (UpdateMeta (is_true (prop_opt parsed "upstream_model_update_check_enabled")) add rem)
  end.

Definition getManualIgnoredModelCountFromSettings (settings : jsval) : res nat :=
  match parse_settings settings with
  | None => Ok 0
  | Some parsed =>
      l ← normalizeModelList (prop_opt parsed "upstream_model_update_ignored_models");
      Ok (length l)
  end.

(** ** State *)

Inductive job := Apply | ApplyAll | DetectOne | DetectAll.
#[export] Instance job_eq_dec : EqDecision job.
Proof. solve_decision. Defined.

Inductive effect :=
| ShowInfo (message : string)
| ShowError (message : jsval)
| ShowSuccess (message : string)
| Post (url : string) (body : jsval)
| Refresh.

(** What a handler waits for: the answer to its request (the apply handler
    remembers the models it ignores), or the end of [refresh()]. *)
Inductive continuation :=
| Answer (j : job) (ignored : list string)
| Refreshing (j : job).

Definition job_of (c : continuation) : job := match c with Answer j _ => j | Refreshing j => j end.

Record state := State {
  showUpstreamUpdateModal : bool; upstreamUpdateChannel : jsval;
  upstreamUpdateAddModels : list string; upstreamUpdateRemoveModels : list string;
  upstreamUpdatePreferredTab : string;
  loading : job → bool;   (** the [useState] flags; [DetectOne] has none *)
  inFlight : job → bool;  (** the four [useRef] guards *)
  pending : list continuation; effects : list effect }.

Definition initial : state :=
  State false VNull [] [] "add" (λ _, false) (λ _, false) [] [].

Definition emit (x : effect) (s : state) : state :=
  let '(State a b c d e f g h i) := s in State a b c d e f g h (i ++ [x]).
Definition set_pending (p : list continuation) (s : state) : state :=
  let '(State a b c d e f g _ i) := s in State a b c d e f g p i.
Definition set_modal (v : bool) (ch : jsval) (add rem : list string) (tab : string) (s : state)
    : state :=
  let '(State _ _ _ _ _ f g h i) := s in State v ch add rem tab f g h i.
Definition set_busy (j : job) (b : bool) (s : state) : state :=
  let '(State a b0 c d e f g h i) := s in
  let upd (h : job → bool) k := if decide (k = j) then b else h k in
  State a b0 c d e (if decide (j = DetectOne) then f else upd f) (upd g) h i.

Section hook.
Context (t : string → obj → string).
Abbreviation tr k := (t k []).

(** ** The modal *)

Definition is_nil {A} (l : list A) : bool := match l with [] => true | _ => false end.

Definition openUpstreamUpdateModal (record pendingAdd pendingRemove : jsval) (preferredTab : string)
    (s : state) : res state :=
  add ← normalizeModelList pendingAdd;
  rem ← normalizeModelList pendingRemove;
  Ok (if negb (truthy (prop_opt record "id")) || (is_nil add && is_nil rem)
      then emit (ShowInfo (tr "该渠道暂无可处理的上游模型更新")) s
      else set_modal true record add rem
             (if bool_decide (preferredTab = "remove") then "remove" else "add") s).

Definition closeUpstreamUpdateModal (s : state) : state := set_modal false VNull [] [] "add" s.

(** ** Requests *)

Definition url (j : job) : string :=
  match j with
  | Apply => "/api/channel/upstream_updates/apply"
  | ApplyAll => "/api/channel/upstream_updates/apply_all"
  | DetectOne => "/api/channel/upstream_updates/detect"
  | DetectAll => "/api/channel/upstream_updates/detect_all"
  end.
Definition busy_text (j : job) : string :=
  match j with
  | Apply => "正在处理，请稍候" | ApplyAll => "正在批量处理，请稍候"
  | DetectOne => "正在检测，请稍候" | DetectAll => "正在批量检测，请稍候"
  end.
Definition fail_text (j : job) : string :=
  match j with
  | Apply => "操作失败" | ApplyAll => "批量处理失败"
  | DetectOne => "检测失败" | DetectAll => "批量检测失败"
  end.

(** [finally]. *)
Definition finish (j : job) (s : state) : state := set_busy j false s.

(** [catch (error)], then [finally]; [error] as an object with [message]
    and, for a refused request, [response]. *)
Definition failed (j : job) (error : jsval) (s : state) : state :=
  let m := js_or (js_or (prop_opt (prop_opt (prop_opt error "response") "data") "message")
                    (prop_opt error "message")) (VStr (tr (fail_text j))) in
  finish j (emit (ShowError m) s).

Definition error_of (m : string) : jsval := VObj [("message", VStr m)].

(** Send the request of [j] and wait for its answer. *)
Definition send (j : job) (body : jsval) (ignored : list string) (s : state) : state :=
  let s := emit (Post (url j) body) s in set_pending (pending s ++ [Answer j ignored]) s.

Definition strs (l : list string) : jsval := VArr (VStr <$> l).

(** The body of the apply request. *)
Definition apply_body (channel : jsval) (add ignored rem : list string) : jsval :=
  VObj [("id", prop_opt channel "id"); ("add_models", strs add); ("ignore_models", strs ignored);
        ("remove_models", strs rem)].

Definition ignored_models (shown selected : list string) : list string :=
  filter (λ m, m ∉ selected) shown.

Definition applyUpstreamUpdates (addModels removeModels : jsval) (s : state) : state :=
  if inFlight s Apply then emit (ShowInfo (tr (busy_text Apply))) s
  else if negb (truthy (prop_opt (upstreamUpdateChannel s) "id")) then closeUpstreamUpdateModal s
  else
    let s1 := set_busy Apply true s in
    match (add ← normalizeModelList addModels; rem ← normalizeModelList removeModels;
           Ok (add, rem)) with
    | Throw m => failed Apply (error_of m) s1
    | Ok (add, rem) =>
        let ignored := ignored_models (upstreamUpdateAddModels s) add in
        send Apply (apply_body (upstreamUpdateChannel s) add ignored rem) ignored s1
    end.

Definition detectChannelUpstreamUpdates (channel : jsval) (s : state) : state :=
  if inFlight s DetectOne then emit (ShowInfo (tr (busy_text DetectOne))) s
  else if negb (truthy (prop_opt channel "id")) then s
  else send DetectOne (VObj [("id", prop_opt channel "id")]) [] (set_busy DetectOne true s).

(** The two handlers without an argument. *)
Definition run_all (j : job) (s : state) : state :=
  if inFlight s j then emit (ShowInfo (tr (busy_text j))) s
  else send j (VObj []) [] (set_busy j true s).
Definition applyAllUpstreamUpdates : state → state := run_all ApplyAll.
Definition detectAllUpstreamUpdates : state → state := run_all DetectAll.

(** ** Answers *)

(** [v.length] where [v] may be a string. *)
Definition utf16_length (s : string) : Z :=
  foldr (λ c n, let b := Ascii.N_of_ascii c in
    (if decide (128 ≤ b < 192)%N then n else if decide (240 ≤ b)%N then n + 2 else n + 1)%Z)
    0%Z (chars s).
Definition js_length (v : jsval) : jsval :=
  match v with VStr s => VNum (num_of_Z (utf16_length s)) | _ => prop_opt v "length" end.

(** [v || 0]. *)
Definition or_zero (v : jsval) : jsval := js_or v (VNum (num_of_Z 0)).
Definition nat_val (n : nat) : jsval := VNum (num_of_Z (Z.of_nat n)).

(** The toast of a successful answer; counting may throw. *)
Definition success_text (j : job) (ignored : list string) (data : jsval) : res string :=
  match j with
  | Apply =>
      total ← getManualIgnoredModelCountFromSettings (prop_opt data "settings");
      ign ← normalizeModelList (strs ignored);
      Ok (t "已处理上游模型更新：加入 {{added}} 个，删除 {{removed}} 个，本次忽略 {{ignored}} 个，当前已忽略模型 {{totalIgnored}} 个"
            [("added", or_zero (js_length (prop_opt data "added_models")));
             ("removed", or_zero (js_length (prop_opt data "removed_models")));
             ("ignored", nat_val (length ign)); ("totalIgnored", nat_val total)])
  | DetectOne =>
      Ok (t "检测完成：新增 {{add}} 个，删除 {{remove}} 个"
            [("add", or_zero (js_length (prop_opt data "add_models")));
             ("remove", or_zero (js_length (prop_opt data "remove_models")))])
  | ApplyAll =>
      Ok (t "已批量处理上游模型更新：渠道 {{channels}} 个，加入 {{added}} 个，删除 {{removed}} 个，失败 {{fails}} 个"
            [("channels", or_zero (prop_opt data "processed_channels"));
             ("added", or_zero (prop_opt data "added_models"));
             ("removed", or_zero (prop_opt data "removed_models"));
             ("fails", js_length (js_or (prop_opt data "failed_channel_ids") (VArr [])))])
  | DetectAll =>
      Ok (t "批量检测完成：渠道 {{channels}} 个，新增 {{add}} 个，删除 {{remove}} 个，失败 {{fails}} 个"
            [("channels", or_zero (prop_opt data "processed_channels"));
             ("add", or_zero (prop_opt data "detected_add_models"));
             ("remove", or_zero (prop_opt data "detected_remove_models"));
             ("fails", js_length (js_or (prop_opt data "failed_channel_ids") (VArr [])))])
  end.

(** An answer of the service: a response, or an error. *)
Inductive answer := Resolved (res : jsval) | Rejected (error : jsval).

(** The continuation after the request; [None] when the handler is done,
    [Some] when it goes on to wait for [refresh()]. *)
Definition on_answer (j : job) (ignored : list string) (a : answer) (s : state)
    : option continuation * state :=
  match a with
  | Rejected error => (None, failed j error s)
  | Resolved r =>
      let body := js_or (prop_opt r "data") (VObj []) in
      if truthy (prop_opt body "success") then
        match success_text j ignored (prop_opt body "data") with
        | Throw m => (None, failed j (error_of m) s)
        | Ok text =>
            let s := emit (ShowSuccess text) s in
            let s := if decide (j = Apply) then closeUpstreamUpdateModal s else s in
            (Some (Refreshing j), emit Refresh s)
        end
      else (None, finish j (emit (ShowError (js_or (prop_opt body "message")
                                               (VStr (tr (fail_text j))))) s))
  end.

(** The continuation after [refresh()]. *)
Definition on_refreshed (j : job) (a : answer) (s : state) : state :=
  match a with Resolved _ => finish j s | Rejected error => failed j error s end.

(** Run the continuation number [k]. *)
Definition settle (k : nat) (a : answer) (s : state) : state :=
  match pending s !! k with
  | None => s
  | Some (Answer j ignored) =>
      match on_answer j ignored a s with
      | (None, s') => set_pending (delete k (pending s)) s'
      | (Some c, s') => set_pending (<[k := c]> (pending s)) s'
      end
  | Some (Refreshing j) => set_pending (delete k (pending s)) (on_refreshed j a s)
  end.

(** ** Events *)

Inductive step : state → state → Prop :=
| step_open r a d tab s s' : openUpstreamUpdateModal r a d tab s = Ok s' → step s s'
| step_close s : step s (closeUpstreamUpdateModal s)
| step_apply a r s : step s (applyUpstreamUpdates a r s)
| step_apply_all s : step s (applyAllUpstreamUpdates s)
| step_detect c s : step s (detectChannelUpstreamUpdates c s)
| step_detect_all s : step s (detectAllUpstreamUpdates s)
| step_settle k a s : step s (settle k a s).

Inductive reachable : state → Prop :=
| reach_initial : reachable initial
| reach_step s s' : reachable s → step s s' → reachable s'.
End hook.

(** ** Model lists are normalised *)

Lemma model_text_trimmed v s : model_text v = Ok s → trim s = s.
Proof. unfold model_text. intros (x & _ & [= <-])%res_bind_Ok. apply trim_idemp. Qed.

Lemma model_text_str s : model_text (VStr s) = Ok (trim s).
Proof. unfold model_text, js_or. by destruct s. Qed.

Lemma normalize_strs l :
  Forall (λ s, trim s = s ∧ s ≠ "") l → NoDup l → normalizeModelList (strs l) = Ok l.
Proof.
  intros HF Hnd. unfold normalizeModelList, strs. cbn [js_or truthy].
  assert (res_map model_text (VStr <$> l) = Ok l) as ->.
  { apply res_map_Ok. clear Hnd. induction HF as [|s l [Hs _] _ IH]; cbn; constructor; [|done].
    by rewrite model_text_str, Hs. }
  unfold mbind, res_bind. rewrite filter_all; [by rewrite uniq_NoDup|].
  rewrite Forall_forall in HF. intros s Hs. by apply HF.
Qed.

(** A normalised model list has no duplicates and no blank or padded
    names, contains exactly the non-blank trimmed names of its argument, and
    normalising it again changes nothing. *)
Theorem normalizeModelList_spec (l : list jsval) (r : list string) :
  normalizeModelList (VArr l) = Ok r →
  NoDup r ∧ Forall (λ s, trim s = s ∧ s ≠ "") r ∧
  (∀ s, s ∈ r ↔ s ≠ "" ∧ ∃ v, v ∈ l ∧ model_text v = Ok s) ∧
  normalizeModelList (strs r) = Ok r.
Proof.
  unfold normalizeModelList at 1. cbn [js_or truthy].
  intros (names & Hn%res_map_Ok & [= <-])%res_bind_Ok.
  assert (Hin : ∀ s, s ∈ uniq (filter (λ s, s ≠ "") names) ↔
    s ≠ "" ∧ ∃ v, v ∈ l ∧ model_text v = Ok s).
  { intros s. rewrite elem_of_uniq, list_elem_of_filter. apply and_iff_compat_l.
    induction Hn as [|v n l names Hv _ IH]; [set_solver|].
    rewrite elem_of_cons, IH. setoid_rewrite elem_of_cons. split.
    - intros [->|(v' & ? & ?)]; eauto.
    - intros (v' & [->|Hin] & Hs); [left; congruence|right; eauto]. }
  assert (HF : Forall (λ s, trim s = s ∧ s ≠ "") (uniq (filter (λ s, s ≠ "") names))).
  { apply Forall_forall. intros s (Hs & v & _ & Hv)%Hin. eauto using model_text_trimmed. }
  split_and!; [apply NoDup_uniq|done|done|apply normalize_strs; [done|apply NoDup_uniq]].
Qed.

(** ** At most one request of each kind *)

Definition cnt (j : job) (p : list continuation) : nat :=
  length (filter (λ c, job_of c = j) p).

Lemma cnt_app j p q : cnt j (p ++ q) = cnt j p + cnt j q.
Proof. unfold cnt. by rewrite filter_app, length_app. Qed.

Lemma cnt_cons j c p : cnt j (c :: p) = (if decide (job_of c = j) then 1 else 0) + cnt j p.
Proof. unfold cnt. rewrite filter_cons. by case_decide. Qed.

Lemma cnt_delete j k c p :
  p !! k = Some c → cnt j p = (if decide (job_of c = j) then 1 else 0) + cnt j (delete k p).
Proof.
  intros Hk. rewrite <-cnt_cons. unfold cnt. by rewrite <-(delete_Permutation p k c Hk).
Qed.

Lemma cnt_insert j k c c' p :
  p !! k = Some c → job_of c' = job_of c → cnt j (<[k := c']> p) = cnt j p.
Proof.
  intros Hk Hc. revert k Hk. induction p as [|c0 p IH]; intros [|k] Hk; simplify_eq/=.
  - by rewrite !cnt_cons, Hc.
  - by rewrite !cnt_cons, IH.
Qed.

#[local] Arguments cnt : simpl never.

Record inv (s : state) : Prop := Inv {
  inv_flight : ∀ j, cnt j (pending s) = if inFlight s j then 1 else 0;
  inv_loading : ∀ j, j ≠ DetectOne → loading s j = inFlight s j }.

(** Only the shown data or the toasts differ. *)
Lemma inv_same s s' :
  pending s' = pending s → (∀ j, inFlight s' j = inFlight s j) →
  (∀ j, loading s' j = loading s j) → inv s → inv s'.
Proof. intros Hp Hf Hl [H1 H2]. split; intros j; rewrite ?Hp, ?Hf, ?Hl; auto. Qed.

Lemma inv_emit x s : inv s → inv (emit x s).
Proof. apply inv_same; by destruct s. Qed.
Lemma inv_modal v c a d tab s : inv s → inv (set_modal v c a d tab s).
Proof. apply inv_same; by destruct s. Qed.

Lemma busy_flight j b s k : inFlight (set_busy j b s) k = if decide (k = j) then b else inFlight s k.
Proof. by destruct s. Qed.
Lemma busy_loading j b s k :
  k ≠ DetectOne → loading (set_busy j b s) k = if decide (k = j) then b else loading s k.
Proof. destruct s. cbn. intros. case_decide; [|done]. subst. by rewrite decide_False. Qed.
Lemma pending_busy j b s : pending (set_busy j b s) = pending s.
Proof. by destruct s. Qed.

Lemma inv_send j body ign s : inFlight s j = false → inv s → inv (send j body ign (set_busy j true s)).
Proof.
  intros Hf [H1 H2].
  assert (Hp : pending (send j body ign (set_busy j true s)) = pending s ++ [Answer j ign])
    by (by destruct s).
  assert (Hb : ∀ k, inFlight (send j body ign (set_busy j true s)) k = inFlight (set_busy j true s) k)
    by (by destruct s).
  assert (Hl : ∀ k, loading (send j body ign (set_busy j true s)) k = loading (set_busy j true s) k)
    by (by destruct s).
  split; intros k; rewrite Hb, ?Hl, busy_flight.
  - rewrite Hp, cnt_app, cnt_cons, H1. cbn. unfold cnt. cbn.
    destruct (decide (k = j)) as [->|?]; [by rewrite Hf, decide_True|].
    rewrite decide_False by done. lia.
  - intros Hk. rewrite busy_loading by done. case_decide; auto.
Qed.

(** [finally] runs when the continuation is removed. *)
Lemma inv_finished s s' k c :
  pending s !! k = Some c → inv s →
  (∀ j, inFlight s' j = if decide (j = job_of c) then false else inFlight s j) →
  (∀ j, j ≠ DetectOne → loading s' j = if decide (j = job_of c) then false else loading s j) →
  inv (set_pending (delete k (pending s)) s').
Proof.
  intros Hk [H1 H2] Hf Hl.
  assert (E : pending (set_pending (delete k (pending s)) s') = delete k (pending s)) by (by destruct s').
  split; intros j.
  - rewrite E. pose proof (cnt_delete j k c _ Hk) as Hc. rewrite H1 in Hc.
    replace (inFlight (set_pending (delete k (pending s)) s') j) with (inFlight s' j) by (by destruct s').
    rewrite Hf. destruct (decide (j = job_of c)) as [->|?].
    + rewrite decide_True in Hc by done. destruct (inFlight s _); lia.
    + rewrite decide_False in Hc by done. lia.
  - intros Hj. destruct s'. cbn in *. rewrite Hf, Hl by done. case_decide; auto.
Qed.

Section guards.
Context (t : string → obj → string).

(** What [failed] does to the flags. *)
Lemma failed_flags j err s :
  (∀ k, inFlight (failed t j err s) k = if decide (k = j) then false else inFlight s k) ∧
  (∀ k, k ≠ DetectOne → loading (failed t j err s) k = if decide (k = j) then false else loading s k).
Proof.
  unfold failed, finish. split; intros k; [rewrite busy_flight|intros; rewrite busy_loading by done];
    by destruct s.
Qed.

Lemma finish_flags j s :
  (∀ k, inFlight (finish j s) k = if decide (k = j) then false else inFlight s k) ∧
  (∀ k, k ≠ DetectOne → loading (finish j s) k = if decide (k = j) then false else loading s k).
Proof. split; intros k; [apply busy_flight|apply busy_loading]. Qed.

Lemma inv_settle k a s : inv s → inv (settle t k a s).
Proof.
  intros Hi. unfold settle. destruct (pending s !! k) as [[j ign|j]|] eqn:Hk; [| |done].
  - unfold on_answer. destruct a as [r|err].
    + destruct (truthy _); [destruct (success_text t j ign _) as [text|m]|].
      * destruct Hi as [H1 H2].
        pose proof (λ k', cnt_insert k' k (Answer j ign) (Refreshing j) _ Hk eq_refl) as Hc.
        destruct (decide (j = Apply)); split; intros k'; destruct s; cbn in *; rewrite ?Hc; auto.
      * destruct (failed_flags j (error_of m) s). by eapply inv_finished.
      * destruct (finish_flags j (emit (ShowError (js_or
          (prop_opt (js_or (prop_opt r "data") (VObj [])) "message") (VStr (t (fail_text j) [])))) s))
          as [Hf Hl]. eapply inv_finished; [done..|intros k'; rewrite Hf; by destruct s|].
        intros k' ?; rewrite Hl by done; by destruct s.
    + destruct (failed_flags j err s). by eapply inv_finished.
  - unfold on_refreshed. destruct a as [r|err].
    + destruct (finish_flags j s). by eapply inv_finished.
    + destruct (failed_flags j err s). by eapply inv_finished.
Qed.

Lemma inv_apply a r s : inv s → inv (applyUpstreamUpdates t a r s).
Proof.
  intros Hi. unfold applyUpstreamUpdates. destruct (inFlight s Apply) eqn:Hf; [by apply inv_emit|].
  destruct (negb _); [by apply inv_modal|].
  match goal with |- context [match ?x with Ok _ => _ | Throw _ => _ end] => destruct x as [[add rem]|m] end.
  - by apply inv_send.
  - destruct Hi as [H1 H2].
    destruct (failed_flags Apply (error_of m) (set_busy Apply true s)) as [Hb Hl].
    assert (Hp : pending (failed t Apply (error_of m) (set_busy Apply true s)) = pending s)
      by (by destruct s).
    split; intros k.
    + rewrite Hp, Hb, H1, busy_flight. case_decide; [|done]. subst. by rewrite Hf.
    + intros Hk. rewrite Hl, Hb, busy_flight, busy_loading by done. case_decide; [done|auto].
Qed.

Lemma inv_step s s' : step t s s' → inv s → inv s'.
Proof.
  destruct 1 as [r a d tab s s' H| | | |c s| |]; intros Hi.
  - apply res_bind_Ok in H as (add & _ & H). apply res_bind_Ok in H as (rem & _ & [= <-]).
    case_match; [by apply inv_emit|by apply inv_modal].
  - by apply inv_modal.
  - by apply inv_apply.
  - unfold applyAllUpstreamUpdates, run_all.
    destruct (inFlight s ApplyAll) eqn:E; [by apply inv_emit|by apply inv_send].
  - unfold detectChannelUpstreamUpdates.
    destruct (inFlight s DetectOne) eqn:E; [by apply inv_emit|].
    destruct (negb _); [done|by apply inv_send].
  - unfold detectAllUpstreamUpdates, run_all.
    destruct (inFlight s DetectAll) eqn:E; [by apply inv_emit|by apply inv_send].
  - by apply inv_settle.
Qed.

(** C4.  Under every interleaving of clicks and answers, of each of the four
    kinds of requests at most one is being processed, exactly one when the
    guard of its handler is set; and the loading flag of a kind is on
    exactly while its guard is. *)
Theorem one_request_in_flight (s : state) :
  reachable t s → ∀ j,
  length (filter (λ c, job_of c = j) (pending s)) = (if inFlight s j then 1 else 0) ∧
  (j ≠ DetectOne → loading s j = inFlight s j).
Proof.
  intros Hr j. assert (inv s) as [H1 H2]; [|by split; [apply H1|apply H2]].
  induction Hr; [by split|by eapply inv_step].
Qed.

(** Applying a selection sends one request in which every model shown
    as addable is either added or ignored, never both, and nothing else is
    ignored; the models to add and to remove are the selected ones. *)
Theorem apply_partitions (addModels removeModels : jsval) (add rem : list string) (s : state) :
  inFlight s Apply = false → truthy (prop_opt (upstreamUpdateChannel s) "id") = true →
  normalizeModelList addModels = Ok add → normalizeModelList removeModels = Ok rem →
  ∃ ignored,
    effects (applyUpstreamUpdates t addModels removeModels s)
    = effects s ++ [Post (url Apply) (apply_body (upstreamUpdateChannel s) add ignored rem)] ∧
    (∀ m, m ∈ upstreamUpdateAddModels s → (m ∈ add ∧ (m ∉ ignored)) ∨ ((m ∉ add) ∧ m ∈ ignored)) ∧
    (∀ m, m ∈ ignored → m ∈ upstreamUpdateAddModels s).
Proof.
  intros Hf Hid Ha Hr. unfold applyUpstreamUpdates. rewrite Hf, Hid, Ha, Hr. cbn.
  exists (ignored_models (upstreamUpdateAddModels s) add). split; [by destruct s|].
  unfold ignored_models. setoid_rewrite list_elem_of_filter. split; [|by intros m []].
  intros m Hm. destruct (decide (m ∈ add)); naive_solver.
Qed.
End guards.

Lemma normalizeModelList_spec_witness :
  normalizeModelList (strs ["gpt"; "o1"]) = Ok ["gpt"; "o1"].
Proof.
  refine (proj2 (proj2 (proj2 (normalizeModelList_spec
    [VStr " gpt"; VNull; VStr "o1 "; VStr "gpt"] ["gpt"; "o1"] _)))). by vm_compute.
Defined.

Lemma one_request_in_flight_witness :
  cnt DetectAll (pending (detectAllUpstreamUpdates (λ k _, k)
    (detectAllUpstreamUpdates (λ k _, k) initial))) = 1.
Proof.
  refine (proj1 (one_request_in_flight (λ k _, k) (detectAllUpstreamUpdates (λ k _, k)
    (detectAllUpstreamUpdates (λ k _, k) initial)) _ DetectAll)).
  eapply reach_step; [|apply step_detect_all]. eapply reach_step; [|apply step_detect_all].
  constructor.
Defined.

Definition opened : state :=
  set_modal true (VObj [("id", VNum (num_of_Z 7))]) ["a"; "b"] ["c"] "add" initial.

Lemma apply_partitions_witness :
  ∃ ignored, effects (applyUpstreamUpdates (λ k _, k) (strs ["a"]) (strs []) opened)
    = [Post (url Apply) (apply_body (VObj [("id", VNum (num_of_Z 7))]) ["a"] ignored [])].
Proof.
  destruct (apply_partitions (λ k _, k) (strs ["a"]) (strs []) ["a"] [] opened)
    as (ign & H & _); [by vm_compute..|]. exists ign. apply H.
Defined.
