(* ===== verification/ChannelTags.v ===== *)
(** * Channels and tags

    The list of channels of [web/src/hooks/channels/useChannelsData.jsx]:
    its two forms (plain, and one row per tag with the channels below it),
    the changes of single channels and of tags, and the counts of the type
    tabs.  A channel is the record the server sends, with the fields the code
    computes with; the rest of it is kept as it is. *)
From Stdlib Require Import Ascii SpecFloat.
From S2P Require Import Prelude JsString JsNumber JsValue Json UpstreamUpdates.

(** [tag] is empty for a channel without a tag; priority and weight may be
    [null]. *)
Record channel := Channel {
  c_id : Z; c_type : Z; c_tag : string; c_group : string; c_status : Z;
  c_priority : option Z; c_weight : option Z; c_used_quota : num; c_response_time : num;
  c_settings : jsval; c_rest : obj }.

(** A channel with what [setChannelFormat] adds to it. *)
Record shown := Shown { s_channel : channel; s_key : string; s_meta : update_meta }.

(** A common number of a tag: not yet set ([-1]), a number, or several ([""]). *)
Inductive common := Unset | Common (z : option Z) | Mixed.
#[export] Instance common_eq_dec : EqDecision common.
Proof. solve_decision. Defined.

Record tag_row := TagRow {
  t_tag : string; t_group : string; t_status : option Z;
  t_priority : common; t_weight : common; t_used_quota : num; t_response_time : num;
  t_children : list shown }.

Inductive row := Single (c : shown) | Tagged (r : tag_row).

(** ** [setChannelFormat] *)

(** [-1] is the value of a number that is not set. *)
Definition number (z : option Z) : common := if decide (z = Some (-1)%Z) then Unset else Common z.

Definition merge_number (a : common) (z : option Z) : common :=
  match a with
  | Unset => number z
  | Common y => if decide (y = z) then Common y else Mixed
  | Mixed => Mixed
  end.

(** Add the groups that do not occur in the text yet. *)
Definition merge_group (g new : string) : string :=
  if bool_decide (g = "") then new
  else foldl (λ g item, if includes item g then g else g +:+ "," +:+ item) g (split_on "," new).

Definition new_tag (tag : string) : tag_row :=
  TagRow tag "" None Unset Unset (num_of_Z 0) (num_of_Z 0) [].

Definition add_child (c : shown) (r : tag_row) : tag_row :=
  let ch := s_channel c in
  TagRow (t_tag r) (merge_group (t_group r) (c_group ch))
    (if decide (c_status ch = 1)%Z then Some 1%Z else t_status r)
    (merge_number (t_priority r) (c_priority ch)) (merge_number (t_weight r) (c_weight ch))
    (num_add (t_used_quota r) (c_used_quota ch))
    (num_div (num_add (t_response_time r) (c_response_time ch)) (num_of_Z 2))
    (t_children r ++ [c]).

(** Add a channel to the row of its tag, which is made when it is missing. *)
Fixpoint add_to_tags (c : shown) (rows : list tag_row) : list tag_row :=
  match rows with
  | [] => [add_child c (new_tag (c_tag (s_channel c)))]
  | r :: rows => if decide (t_tag r = c_tag (s_channel c)) then add_child c r :: rows
                 else r :: add_to_tags c rows
  end.

(** The fields the loop adds to a channel. *)
Definition show_channel (c : channel) : res shown :=
  meta ← parseUpstreamUpdateMeta (c_settings c);
  Ok (Shown c (pretty (c_id c)) meta).

Fixpoint tag_loop (cs : list channel) (rows : list tag_row) : res (list tag_row) :=
  match cs with
  | [] => Ok rows
  | c :: cs =>
      s ← show_channel c;
      (** the index of tags is an object literal: an inherited name counts as
          present, and no row is found for it *)
      if decide (c_tag c ∈ inherited)
      then Throw "Cannot read properties of undefined (reading 'priority')"
      else tag_loop cs (add_to_tags s rows)
  end.

Definition setChannelFormat (cs : list channel) (enableTagMode : bool) : res (list row) :=
  if enableTagMode then rows ← tag_loop cs []; Ok (map Tagged rows)
  else shown ← res_map show_channel cs; Ok (map Single shown).

(** ** Changes *)

Definition on_channel (f : channel → channel) (s : shown) : shown :=
  Shown (f (s_channel s)) (s_key s) (s_meta s).

Definition has_id (i : Z) (s : shown) : Prop := c_id (s_channel s) = i.
#[export] Instance has_id_dec i s : Decision (has_id i s).
Proof. unfold has_id. apply _. Defined.

Definition updateChannelProperty (channelId : Z) (updateFn : channel → channel) (rows : list row)
    : list row :=
  let upd s := if decide (has_id channelId s) then on_channel updateFn s else s in
  (λ r, match r with
        | Single s => Single (upd s)
        | Tagged r => Tagged (TagRow (t_tag r) (t_group r) (t_status r) (t_priority r) (t_weight r)
                        (t_used_quota r) (t_response_time r) (upd <$> t_children r))
        end) <$> rows.

Definition with_status (z : Z) (c : channel) : channel :=
  Channel (c_id c) (c_type c) (c_tag c) (c_group c) z (c_priority c) (c_weight c) (c_used_quota c)
    (c_response_time c) (c_settings c) (c_rest c).

(** The rows after a tag is enabled or disabled; a plain row has its own tag. *)
Definition set_tag_status (tag : string) (status : Z) (rows : list row) : list row :=
  (λ r, match r with
        | Single s => if decide (c_tag (s_channel s) = tag) then Single (on_channel (with_status status) s)
                      else r
        | Tagged x =>
            if decide (t_tag x = tag) then
              Tagged (TagRow (t_tag x) (t_group x) (Some status) (t_priority x) (t_weight x)
                        (t_used_quota x) (t_response_time x) (on_channel (with_status status) <$> t_children x))
            else r
        end) <$> rows.

Inductive effect :=
| Post (url : string) (body : jsval) | Put (url : string) (body : jsval) | Delete (url : string)
| ShowSuccess | ShowError (message : jsval).

(** The service's answer: [success], [message] and the status of the changed
    channel; [None] when the request fails, which ends the handler. *)
Record change_reply := ChangeReply { cr_success : bool; cr_message : jsval; cr_status : Z }.

Definition manageTag (tag : string) (enable : bool) (a : option change_reply) (rows : list row)
    : list effect * list row :=
  let sent := Post (if enable then "/api/channel/tag/enabled" else "/api/channel/tag/disabled")
                (VObj [("tag", VStr tag)]) in
  match a with
  | None => ([sent], rows)
  | Some a =>
      if cr_success a then ([sent; ShowSuccess], set_tag_status tag (if enable then 1%Z else 2%Z) rows)
      else ([sent; ShowError (cr_message a)], rows)
  end.

Inductive action :=
| ADelete | AEnable | ADisable | APriority (value : string) | AWeight (value : string) | AEnableAll.

(** [parseInt(value)], not below 0. *)
Definition weight_of (value : string) : num :=
  let w := parse_int value in if num_ltb w (num_of_Z 0) then num_of_Z 0 else w.

(** [record.channel_info] with an empty [multi_key_status_list]; the record
    itself is changed. *)
Definition cleared_info (c : channel) : res jsval :=
  match obj_get (c_rest c) "channel_info" with
  | Some (VObj o) => Ok (VObj (obj_set "multi_key_status_list" (VObj []) o))
  | Some VNull => Throw "Cannot set properties of null (setting 'multi_key_status_list')"
  | None | Some VUndef => Throw "Cannot set properties of undefined (setting 'multi_key_status_list')"
  | Some (VArr l) => Ok (VArr l)      (** the text of an array has no such property *)
  | Some _ => Throw "Cannot create property 'multi_key_status_list' on a primitive value"
  end.

Definition with_rest (o : obj) (c : channel) : channel :=
  Channel (c_id c) (c_type c) (c_tag c) (c_group c) (c_status c) (c_priority c) (c_weight c)
    (c_used_quota c) (c_response_time c) (c_settings c) o.

Definition channel_body (i : Z) (field : string) (v : jsval) : effect :=
  Put "/api/channel/" (VObj [("id", VNum (num_of_Z i)); (field, v)]).

(** The request of [manageChannel], with the change of the record before it;
    [None] when nothing is sent. *)
Definition manage_request (c : channel) (act : action) : res (option effect * (channel → channel)) :=
  let i := c_id c in
  match act with
  | ADelete => Ok (Some (Delete ("/api/channel/" +:+ pretty i +:+ "/")), λ c, c)
  | AEnable => Ok (Some (channel_body i "status" (VNum (num_of_Z 1))), λ c, c)
  | ADisable => Ok (Some (channel_body i "status" (VNum (num_of_Z 2))), λ c, c)
  | APriority "" | AWeight "" => Ok (None, λ c, c)
  | APriority v => Ok (Some (channel_body i "priority" (VNum (parse_int v))), λ c, c)
  | AWeight v => Ok (Some (channel_body i "weight" (VNum (weight_of v))), λ c, c)
  | AEnableAll =>
      info ← cleared_info c;
      Ok (Some (channel_body i "channel_info" info),
          λ c, with_rest (obj_set "channel_info" info (c_rest c)) c)
  end.

Definition is_delete (act : action) : bool := match act with ADelete => true | _ => false end.

(** [c] is the record of a channel of the list. *)
Definition manageChannel (c : channel) (act : action) (a : option change_reply) (rows : list row)
    : res (list effect * list row) :=
  r ← manage_request c act;
  match r with
  | (None, _) => Ok ([], rows)
  | (Some sent, f) =>
      let rows := updateChannelProperty (c_id c) f rows in
      match a with
      | None => Ok ([sent], rows)
      | Some a =>
          if cr_success a then
            Ok ([sent; ShowSuccess],
                if is_delete act then rows
                else updateChannelProperty (c_id c) (with_status (cr_status a)) rows)
          else Ok ([sent; ShowError (cr_message a)], rows)
      end
  end.

(** ** Type counts *)

Definition row_channels (r : row) : list shown :=
  match r with Single s => [s] | Tagged r => t_children r end.

(** The channels of the list, in order. *)
Definition all_channels (rows : list row) : list shown := concat (row_channels <$> rows).

(** Count by type; the object starts with [all], the number of rows. *)
Definition count_type (counts : list (string * Z)) (s : shown) : list (string * Z) :=
  let k := pretty (c_type (s_channel s)) in
  obj_define k (default 0 (obj_get counts k) + 1)%Z counts.

Definition channelTypeCounts (typeCounts : list (string * Z)) (rows : list row) : list (string * Z) :=
  match typeCounts with
  | [] => foldl count_type [("all", Z.of_nat (length rows))] (all_channels rows)
  | _ => typeCounts
  end.

Definition availableTypeKeys (counts : list (string * Z)) : list string :=
  "all" :: (filter (λ kv : string * Z, kv.1 ≠ "all" ∧ (0 < kv.2)%Z) counts).*1.

(** ** Rows of tags *)

Definition tag_of (s : shown) : string := c_tag (s_channel s).

Fixpoint find_tag (rows : list tag_row) (t : string) : option tag_row :=
  match rows with
  | [] => None
  | r :: rows => if decide (t_tag r = t) then Some r else find_tag rows t
  end.

(** The row of a tag that gets these channels, one after the other. *)
Definition grow (r : tag_row) (cs : list shown) : tag_row := foldl (λ r c, add_child c r) r cs.

Lemma find_add c rows t :
  find_tag (add_to_tags c rows) t =
    if decide (t = tag_of c) then Some (add_child c (default (new_tag t) (find_tag rows t)))
    else find_tag rows t.
Proof.
  unfold tag_of. induction rows as [|r rows IH]; cbn.
  - repeat case_decide; simplify_eq; done.
  - destruct (decide (t_tag r = c_tag (s_channel c))) as [E|E]; cbn.
    + repeat case_decide; simplify_eq; try done; congruence.
    + rewrite IH. repeat case_decide; simplify_eq; done.
Qed.

Lemma tags_add c rows :
  t_tag <$> add_to_tags c rows =
    if decide (tag_of c ∈ t_tag <$> rows) then t_tag <$> rows else (t_tag <$> rows) ++ [tag_of c].
Proof.
  unfold tag_of. induction rows as [|r rows IH]; cbn; [done|].
  destruct (decide (t_tag r = c_tag (s_channel c))) as [E|E]; cbn.
  - rewrite decide_True; [done|]. rewrite E. left.
  - rewrite IH. destruct (decide (c_tag (s_channel c) ∈ t_tag <$> rows)).
    + by rewrite decide_True by (by right).
    + rewrite decide_False; [done|]. intros [?|?]%elem_of_cons; congruence.
Qed.

(** The whole loop, when no tag is an inherited name and all settings read. *)
Lemma tag_loop_fold cs ss rows :
  Forall (λ c, c_tag c ∉ inherited) cs → res_map show_channel cs = Ok ss →
  tag_loop cs rows = Ok (foldl (λ rows c, add_to_tags c rows) rows ss).
Proof.
  intros HF Hss%res_map_Ok. revert rows HF. induction Hss as [|c s cs ss Hs _ IH]; intros rows HF; [done|].
  apply Forall_cons in HF as [Hc HF]. cbn. rewrite Hs. unfold mbind, res_bind.
  rewrite decide_False by done. by apply IH.
Qed.

Lemma find_fold ss rows t :
  find_tag (foldl (λ rows c, add_to_tags c rows) rows ss) t =
    match filter (λ s, tag_of s = t) ss with
    | [] => find_tag rows t
    | l => Some (grow (default (new_tag t) (find_tag rows t)) l)
    end.
Proof.
  revert rows. induction ss as [|s ss IH]; intros rows; [done|]. cbn [foldl]. rewrite IH, find_add.
  rewrite filter_cons. destruct (decide (tag_of s = t)) as [<-|Hne].
  - rewrite decide_True by done. cbn. destruct (filter _ ss); done.
  - by rewrite decide_False by done.
Qed.

Lemma tags_fold ss :
  t_tag <$> foldl (λ rows c, add_to_tags c rows) [] ss = uniq (tag_of <$> ss).
Proof.
  enough (∀ rows, NoDup (t_tag <$> rows) → t_tag <$> foldl (λ rows c, add_to_tags c rows) rows ss
    = (t_tag <$> rows) ++ filter (λ t, t ∉ t_tag <$> rows) (uniq (tag_of <$> ss))) as H.
  { rewrite H by constructor. cbn. apply filter_all. set_solver. }
  induction ss as [|s ss IH]; intros rows Hn; [cbn; by rewrite app_nil_r|].
  cbn [foldl fmap list_fmap uniq]. rewrite IH; rewrite tags_add; case_decide as Hd.
  - f_equal. rewrite filter_cons_False by set_solver. rewrite list_filter_filter.
    apply list_filter_iff. set_solver.
  - rewrite <-app_assoc. f_equal. rewrite filter_cons_True by done. cbn [app]. f_equal.
    rewrite list_filter_filter. apply list_filter_iff. set_solver.
  - done.
  - apply NoDup_app. split_and!; [done|set_solver|apply NoDup_singleton].
Qed.

Lemma grow_spec r cs :
  t_tag (grow r cs) = t_tag r ∧ t_children (grow r cs) = t_children r ++ cs ∧
  t_priority (grow r cs) = foldl merge_number (t_priority r) (c_priority ∘ s_channel <$> cs) ∧
  t_status (grow r cs) = (if decide (Exists (λ s, c_status (s_channel s) = 1%Z) cs) then Some 1%Z
                          else t_status r).
Proof.
  unfold grow. revert r. induction cs as [|c cs IH]; intros r; cbn.
  - rewrite app_nil_r, decide_False; [done|]. by intros H%Exists_nil.
  - destruct (IH (add_child c r)) as (-> & -> & -> & ->). cbn. rewrite <-app_assoc. split_and!; [done..|].
    destruct (decide (c_status (s_channel c) = 1%Z)) as [E|E].
    + rewrite (decide_True (P := Exists _ (c :: cs))) by (by left). by case_decide.
    + destruct (decide (Exists _ cs)); [by rewrite decide_True by (by right)|].
      rewrite decide_False; [done|]. by intros [?|?]%Exists_cons.
Qed.

Lemma merge_numbers p ps :
  Forall (λ z, z ≠ Some (-1)%Z) ps → p ≠ Some (-1)%Z →
  ∀ q, foldl merge_number (Common p) ps = Common q ↔ q = p ∧ Forall (λ z, z = p) ps.
Proof.
  intros HF Hp q. induction HF as [|z ps Hz HF IH]; cbn.
  - split; [intros [= ->]; by split; [|constructor]|by intros [-> _]].
  - rewrite Forall_cons. case_decide; simplify_eq; [naive_solver|].
    assert (∀ l, foldl merge_number Mixed l = Mixed) as -> by (intros l; by induction l). naive_solver.
Qed.

Lemma all_add c rows :
  concat (t_children <$> add_to_tags c rows) ≡ₚ c :: concat (t_children <$> rows).
Proof.
  induction rows as [|r rows IH]; cbn; [done|]. case_decide; cbn.
  - rewrite <-app_assoc. cbn. apply Permutation_sym, Permutation_middle.
  - rewrite IH. apply Permutation_sym, Permutation_middle.
Qed.

Lemma all_fold ss rows :
  concat (t_children <$> foldl (λ rows c, add_to_tags c rows) rows ss)
  ≡ₚ concat (t_children <$> rows) ++ ss.
Proof.
  revert rows. induction ss as [|s ss IH]; intros rows; cbn; [by rewrite app_nil_r|].
  rewrite IH, all_add. cbn. apply Permutation_middle.
Qed.

Lemma find_tag_elem rows r : NoDup (t_tag <$> rows) → r ∈ rows → find_tag rows (t_tag r) = Some r.
Proof.
  induction rows as [|x rows IH]; [set_solver|]. cbn. intros [Hx Hn]%NoDup_cons [->|Hr]%elem_of_cons.
  - by rewrite decide_True.
  - rewrite decide_False; [by apply IH|]. intros E. apply Hx. rewrite E. by apply list_elem_of_fmap_2.
Qed.

(** In the tag view every channel is shown exactly once, below the row
    of its tag: the rows are the tags in the order of their first channel,
    the channels of a row are those with its tag in their order, a row is
    shown as enabled exactly when one of its channels is, and it shows a
    common priority exactly when all its channels have it. *)
Theorem tag_rows_spec (cs : list channel) (ss : list shown) :
  Forall (λ c, c_tag c ∉ inherited) cs → Forall (λ c, c_priority c ≠ Some (-1)%Z) cs →
  res_map show_channel cs = Ok ss →
  ∃ rows, setChannelFormat cs true = Ok (Tagged <$> rows) ∧
    all_channels (Tagged <$> rows) ≡ₚ ss ∧
    t_tag <$> rows = uniq (c_tag <$> cs) ∧
    ∀ r, r ∈ rows →
      t_children r = filter (λ s, tag_of s = t_tag r) ss ∧
      (t_status r = Some 1%Z ↔ Exists (λ s, c_status (s_channel s) = 1%Z) (t_children r)) ∧
      ∀ p, t_priority r = Common p ↔ Forall (λ s, c_priority (s_channel s) = p) (t_children r).
Proof.
  intros Hin Hp Hss. set (rows := foldl (λ rows c, add_to_tags c rows) [] ss). exists rows.
  assert (s_channel <$> ss = cs) as Hcs.
  { apply res_map_Ok in Hss. clear -Hss. induction Hss as [|c s cs ss Hs _ IH]; [done|]. cbn.
    f_equal; [|done]. apply res_bind_Ok in Hs as (m & _ & [= <-]). done. }
  assert (Htags : t_tag <$> rows = uniq (c_tag <$> cs)).
  { unfold rows. rewrite tags_fold, <-Hcs. by rewrite <-list_fmap_compose. }
  split_and!.
  - unfold setChannelFormat. by rewrite (tag_loop_fold cs ss) by done.
  - unfold all_channels. rewrite <-list_fmap_compose. apply (all_fold ss []).
  - done.
  - intros r Hr. assert (find_tag rows (t_tag r) = Some r) as Hf.
    { apply find_tag_elem; [rewrite Htags; apply NoDup_uniq|done]. }
    unfold rows in Hf. rewrite find_fold in Hf.
    destruct (filter (λ s, tag_of s = t_tag r) ss) as [|s l] eqn:E; [done|].
    assert (grow (new_tag (t_tag r)) (s :: l) = r) as Hg by (by injection Hf).
    destruct (grow_spec (new_tag (t_tag r)) (s :: l)) as (_ & Hc & Hpr & Hst). rewrite Hg in Hc, Hpr, Hst.
    cbn in Hc. rewrite Hc. split_and!; [done| |].
    + rewrite Hst. cbn. by case_decide.
    + assert (Forall (λ z, z ≠ Some (-1)%Z) (c_priority ∘ s_channel <$> s :: l)) as HF.
      { rewrite <-E. apply Forall_fmap, Forall_forall. intros x [_ Hx]%list_elem_of_filter.
        rewrite Forall_forall in Hp. apply Hp. rewrite <-Hcs. by apply list_elem_of_fmap_2. }
      intros p. rewrite Hpr. apply Forall_cons in HF as [H0 HF]. cbn. unfold number.
      cbn in H0. rewrite decide_False by done. rewrite merge_numbers, Forall_fmap, Forall_cons by done.
      split; [intros [-> ?]; by split|intros [<- ?]; by split].
Qed.

Lemma tag_rows_spec_witness :
  let c i tag p := Channel i 1 tag "default" 1 (Some p) None (num_of_Z 0) (num_of_Z 0) VUndef [] in
  let cs := [c 1%Z "a" 0%Z; c 2%Z "b" 3%Z; c 3%Z "a" 5%Z] in
  ∃ rows, setChannelFormat cs true = Ok (Tagged <$> rows) ∧ t_tag <$> rows = ["a"; "b"].
Proof.
  intros c cs.
  destruct (tag_rows_spec cs [Shown (c 1%Z "a" 0%Z) "1" (UpdateMeta false [] []);
    Shown (c 2%Z "b" 3%Z) "2" (UpdateMeta false [] []); Shown (c 3%Z "a" 5%Z) "3" (UpdateMeta false [] [])])
    as (rows & Hr & _ & Ht & _).
  - apply (bool_decide_unpack _). vm_compute. exact I.
  - apply (bool_decide_unpack _). vm_compute. exact I.
  - vm_compute. reflexivity.
  - exists rows. split; [exact Hr|exact Ht].
Defined.

(** A tag with the name of an inherited property ends the tag view. *)
Lemma inherited_tag_throws :
  let c := Channel 1 1 "constructor" "" 1 None None (num_of_Z 0) (num_of_Z 0) VUndef [] in
  setChannelFormat [c] true = Throw "Cannot read properties of undefined (reading 'priority')".
Proof. vm_compute. done. Qed.

(** A group whose name is part of another name is not shown. *)
Lemma group_part_lost : merge_group "vip2" "vip" = "vip2".
Proof. done. Qed.

(** ** Changes of one channel *)

Lemma updated_channels i f rows :
  all_channels (updateChannelProperty i f rows)
  = (λ s, if decide (has_id i s) then on_channel f s else s) <$> all_channels rows.
Proof.
  unfold all_channels, updateChannelProperty. induction rows as [|r rows IH]; cbn; [done|].
  rewrite fmap_app, IH. f_equal. by destruct r.
Qed.

(** Changing the status of a tag changes the channels below its rows and no
    others. *)
Lemma tag_status_exact tag z rows k s :
  Forall (λ r, match r with Single _ => True | Tagged x => Forall (λ s, tag_of s = t_tag x) (t_children x) end) rows →
  all_channels rows !! k = Some s →
  all_channels (set_tag_status tag z rows) !! k
  = Some (if decide (tag_of s = tag) then on_channel (with_status z) s else s).
Proof.
  intros HF Hk.
  assert (all_channels (set_tag_status tag z rows)
    = (λ s, if decide (tag_of s = tag) then on_channel (with_status z) s else s) <$> all_channels rows) as ->.
  { clear Hk. unfold all_channels, set_tag_status. induction HF as [|r rows Hr _ IH]; cbn; [done|].
    rewrite fmap_app, IH. f_equal. destruct r as [c|x]; cbn.
    - unfold tag_of. by case_decide.
    - case_decide as Hd; cbn; [|symmetry; rewrite <-(list_fmap_id (t_children x)) at 2];
        apply list_fmap_ext; intros i y Hy; rewrite (Forall_lookup_1 _ _ _ _ Hr Hy); by case_decide. }
  by rewrite list_lookup_fmap, Hk.
Qed.

(** A request of the service. *)
Definition is_request (e : effect) : bool :=
  match e with ShowSuccess | ShowError _ => false | _ => true end.

Lemma updated_lookup i f rows k s' :
  all_channels (updateChannelProperty i f rows) !! k = Some s' →
  ∃ s, all_channels rows !! k = Some s ∧ s' = if decide (c_id (s_channel s) = i) then on_channel f s else s.
Proof. rewrite updated_channels, list_lookup_fmap. intros (s & -> & ->)%fmap_Some. by exists s. Qed.

(** The change before a request keeps id and status. *)
Lemma manage_request_change c act e f :
  manage_request c act = Ok (e, f) → ∀ x, c_id (f x) = c_id x ∧ c_status (f x) = c_status x.
Proof.
  unfold manage_request. destruct act as [| | |[|]|[|]|]; intros H x; simplify_eq; try done.
  apply res_bind_Ok in H as (info & _ & [= <- <-]). done.
Qed.

Lemma manage_request_sends c act e f :
  manage_request c act = Ok (Some e, f) → is_request e = true.
Proof.
  unfold manage_request. destruct act as [| | |[|]|[|]|]; intros H; simplify_eq; try done.
  apply res_bind_Ok in H as (info & _ & [= <- <-]). done.
Qed.

(** Managing a channel sends at most one request; when it fails or is
    refused every channel keeps its status, and when it succeeds exactly the
    channels with that id, alone or below a tag, get the answered status,
    except after a deletion, which leaves the list as it was. *)
Theorem manage_exact (c : channel) (act : action) (a : option change_reply) (rows rows' : list row)
    (es : list effect) :
  manageChannel c act a rows = Ok (es, rows') →
  length (filter (λ e, is_request e = true) es) ≤ 1 ∧
  ∀ k s', all_channels rows' !! k = Some s' →
  ∃ s, all_channels rows !! k = Some s ∧ c_id (s_channel s') = c_id (s_channel s) ∧
    c_status (s_channel s')
    = match a, es with
      | Some a, _ :: _ =>
          if cr_success a && negb (is_delete act) && bool_decide (c_id (s_channel s) = c_id c)
          then cr_status a else c_status (s_channel s)
      | _, _ => c_status (s_channel s)
      end.
Proof.
  unfold manageChannel. intros ([[e|] f] & Hr & H)%res_bind_Ok; simplify_eq.
  2: { split; [cbn; lia|]. intros k s' Hk. exists s'. by destruct a. }
  pose proof (manage_request_change _ _ _ _ Hr) as Hf. pose proof (manage_request_sends _ _ _ _ Hr) as He.
  assert (Hlen : ∀ x, is_request x = false → length (filter (λ e, is_request e = true) [e; x]) ≤ 1).
  { intros x Hx. rewrite filter_cons_True, filter_cons_False by (done || by rewrite Hx). done. }
  assert (Hsame : ∀ k s', all_channels (updateChannelProperty (c_id c) f rows) !! k = Some s' →
    ∃ s, all_channels rows !! k = Some s ∧ c_id (s_channel s') = c_id (s_channel s) ∧
      c_status (s_channel s') = c_status (s_channel s)).
  { intros k s' (s & Hs & ->)%updated_lookup. exists s. split; [done|]. case_decide; [apply Hf|done]. }
  destruct a as [a|]; [destruct (cr_success a) eqn:Ha|]; simplify_eq.
  - split; [by apply Hlen|]. intros k s'. cbn. destruct (is_delete act); cbn; [apply Hsame|].
    intros (s1 & (s & Hs & Hid & Hst)%Hsame & ->)%updated_lookup. exists s. split; [done|].
    case_decide; [rewrite bool_decide_true by congruence|rewrite bool_decide_false by congruence]; done.
  - split; [by apply Hlen|]. intros k s' Hk. cbn. by apply Hsame.
  - split; [|by apply Hsame]. rewrite filter_cons_True by done. cbn. lia.
Qed.

Lemma manage_exact_witness :
  let c := Channel 1 1 "" "" 1 None None (num_of_Z 0) (num_of_Z 0) VUndef [] in
  let row := Single (Shown c "1" (UpdateMeta false [] [])) in
  ∃ s, all_channels [row] !! 0 = Some s ∧ c_id c = c_id (s_channel s).
Proof.
  intros c row.
  destruct (manage_exact c ADisable (Some (ChangeReply true VUndef 2)) [row]
    [Single (Shown (with_status 2 c) "1" (UpdateMeta false [] []))]
    [channel_body 1 "status" (VNum (num_of_Z 2)); ShowSuccess]) as [_ H]; [vm_compute; reflexivity|].
  destruct (H 0 (Shown (with_status 2 c) "1" (UpdateMeta false [] [])) eq_refl) as (s & Hs & Hid & _).
  exists s. split; [exact Hs|exact Hid].
Defined.

(** ** Type tabs *)

Lemma count_types_get ss counts k :
  obj_get (foldl count_type counts ss) k =
    match length (filter (λ s, pretty (c_type (s_channel s)) = k) ss) with
    | 0 => obj_get counts k
    | S n => Some (default 0 (obj_get counts k) + Z.of_nat (S n))%Z
    end.
Proof.
  revert counts. induction ss as [|s ss IH]; intros counts; [done|]. cbn [foldl]. rewrite IH, filter_cons.
  unfold count_type. rewrite obj_get_define.
  destruct (decide (pretty (c_type (s_channel s)) = k)) as [<-|Hne].
  - rewrite decide_True by done. cbn [length]. destruct (length _); cbn; f_equal; lia.
  - by rewrite decide_False by done.
Qed.

Lemma pretty_Z_not_all (z : Z) : pretty z ≠ "all".
Proof.
  intros E. destruct z as [|p|p]; [done| |done].
  pose proof (pretty_N_digits (Npos p)) as H. change (pretty (Z.pos p)) with (pretty (Npos p)) in E.
  by rewrite E in H.
Qed.

Lemma count_types_NoDup ss counts :
  NoDup (obj_keys counts) → NoDup (obj_keys (foldl count_type counts ss)).
Proof.
  revert counts. induction ss as [|s ss IH]; intros counts H; [done|]. cbn. apply IH.
  by apply obj_define_NoDup.
Qed.

Lemma elem_of_available counts k :
  NoDup (obj_keys counts) → k ≠ "all" →
  k ∈ availableTypeKeys counts ↔ (0 < default 0 (obj_get counts k))%Z.
Proof.
  intros Hn Hk. unfold availableTypeKeys. rewrite elem_of_cons, list_elem_of_fmap. split.
  - intros [?|([k' v] & -> & [[_ Hv] Hin]%list_elem_of_filter)]; [done|].
    cbn. by rewrite (elem_of_obj_get _ k' v).
  - intros H. right. destruct (obj_get counts k) as [v|] eqn:E; [|by cbn in H].
    exists (k, v). split; [done|]. apply list_elem_of_filter. split; [done|]. by apply obj_get_elem_of.
Qed.

(** Without counts from the server, the tab of a type counts the shown
    channels of that type, below tags included, and the tabs offered are
    [all] and exactly the types that have a channel. *)
Theorem type_tabs (rows : list row) (z : Z) :
  let counts := channelTypeCounts [] rows in
  default 0%Z (obj_get counts (pretty z))
  = Z.of_nat (length (filter (λ s, c_type (s_channel s) = z) (all_channels rows))) ∧
  (pretty z ∈ availableTypeKeys counts ↔ ∃ s, s ∈ all_channels rows ∧ c_type (s_channel s) = z).
Proof.
  cbn zeta. pose proof (pretty_Z_not_all z) as Hall.
  assert (Hc : default 0%Z (obj_get (channelTypeCounts [] rows) (pretty z))
    = Z.of_nat (length (filter (λ s, c_type (s_channel s) = z) (all_channels rows)))).
  { unfold channelTypeCounts. rewrite count_types_get.
    rewrite (list_filter_iff (λ s, pretty (c_type (s_channel s)) = pretty z) (λ s, c_type (s_channel s) = z))
      by (intros s; split; [apply (inj pretty)|by intros ->]).
    cbn [obj_get fst snd]. destruct (length _); cbn; by repeat case_decide. }
  split; [done|]. rewrite elem_of_available, Hc; [|apply count_types_NoDup, NoDup_singleton|done].
  split.
  - destruct (filter _ _) as [|s l] eqn:E; [cbn; lia|]. intros _. exists s.
    assert (s ∈ filter (λ s, c_type (s_channel s) = z) (all_channels rows)) as Hs by (rewrite E; left).
    apply list_elem_of_filter in Hs as [??]. done.
  - intros (s & Hs & Hz). destruct (filter _ _) as [|x l] eqn:E; [|cbn; lia].
    assert (s ∈ filter (λ s, c_type (s_channel s) = z) (all_channels rows)) as H by (by apply list_elem_of_filter).
    rewrite E in H. by apply not_elem_of_nil in H.
Qed.
