(* ===== verification/ChannelLoading.v ===== *)
(** * Loading and searching the channel list

    [loadChannels], [searchChannels] and the handlers that call them in
    [web/src/hooks/channels/useChannelsData.jsx], with the switches of
    [components/table/channels/ChannelsActions.jsx] and the tabs of
    [ChannelsTabs.jsx].  A handler runs up to the [await] of its request and
    leaves its continuation in [pending]; the service answers in any order.
    A load remembers the number it took from [requestCounter]; a search has
    none.  The form values at the time of a handler are arguments, and a
    thrown error is shown where the caller catches it. *)
From Stdlib Require Import Ascii SpecFloat.
From S2P Require Import Prelude JsString JsNumber JsValue Json UpstreamUpdates ChannelTags.

(** The form: [searchKeyword], [searchGroup] and [searchModel]. *)
Record form := Form { searchKeyword : string; searchGroup : string; searchModel : string }.

Definition form_empty (f : form) : bool :=
  bool_decide (searchKeyword f = "") && bool_decide (searchGroup f = "") && bool_decide (searchModel f = "").

(** [getFormValues()]: all empty before the form is mounted. *)
Definition getFormValues (formApi : option form) : form := default (Form "" "" "") formApi.

(** What a request asks for. *)
Record query := Query {
  q_page : num; q_pageSize : num; q_idSort : bool; q_tagMode : bool; q_type : string; q_status : string }.

Inductive request := LoadRequest (reqId : nat) | SearchRequest.

(** What runs after the continuation of a request: nothing, [setLoading(false)]
    of a [loadChannels] that became a search, or the [finally] of a
    [searchChannels] that became a load. *)
Inductive within := Alone | ThenLoaded | FinallySearched.

Record call := Call { c_request : request; c_query : query; c_within : within; c_catch : bool }.

Inductive effect := Get (url : string) | ShowError (error : jsval).

(** An answer: the request failed, the service refused, or a page of
    channels with its total and its counts by type. *)
Inductive answer :=
| Rejected (error : jsval)
| Refused (message : jsval)
| Page (items : list channel) (total : Z) (type_counts : option (list (string * Z))).

Record state := State {
  channels : list row; channelCount : Z; typeCounts : list (string * Z);
  loading : bool; searching : bool; activePage : num;
  pageSize : num; idSort : bool; enableTagMode : bool; activeTypeKey : string; statusFilter : string;
  storage : gmap string string;
  requestCounter : nat; pending : list call; effects : list effect }.

Definition init (st : gmap string string) : state :=
  State [] 0 [] true false (num_of_Z 1) (num_of_Z 10) false false "all"
    (match st !! "channel-status-filter" with None | Some "" => "all" | Some v => v end)
    st 0 [] [].

Definition set_page (rows : list row) (count : Z) (s : state) : state :=
  let '(State _ _ c d e f g h i j k l m n o) := s in State rows count c d e f g h i j k l m n o.
Definition setTypeCounts (x : list (string * Z)) (s : state) : state :=
  let '(State a b _ d e f g h i j k l m n o) := s in State a b x d e f g h i j k l m n o.
Definition setLoading (x : bool) (s : state) : state :=
  let '(State a b c _ e f g h i j k l m n o) := s in State a b c x e f g h i j k l m n o.
Definition setSearching (x : bool) (s : state) : state :=
  let '(State a b c d _ f g h i j k l m n o) := s in State a b c d x f g h i j k l m n o.
Definition setActivePage (x : num) (s : state) : state :=
  let '(State a b c d e _ g h i j k l m n o) := s in State a b c d e x g h i j k l m n o.
Definition setPageSize (x : num) (s : state) : state :=
  let '(State a b c d e f _ h i j k l m n o) := s in State a b c d e f x h i j k l m n o.
Definition setIdSort (x : bool) (s : state) : state :=
  let '(State a b c d e f g _ i j k l m n o) := s in State a b c d e f g x i j k l m n o.
Definition setEnableTagMode (x : bool) (s : state) : state :=
  let '(State a b c d e f g h _ j k l m n o) := s in State a b c d e f g h x j k l m n o.
Definition setActiveTypeKey (x : string) (s : state) : state :=
  let '(State a b c d e f g h i _ k l m n o) := s in State a b c d e f g h i x k l m n o.
Definition setStatusFilter (x : string) (s : state) : state :=
  let '(State a b c d e f g h i j _ l m n o) := s in State a b c d e f g h i j x l m n o.
Definition setItem (key v : string) (s : state) : state :=
  let '(State a b c d e f g h i j k l m n o) := s in State a b c d e f g h i j k (<[key := v]> l) m n o.
Definition next_request (s : state) : state :=
  let '(State a b c d e f g h i j k l m n o) := s in State a b c d e f g h i j k l (S m) n o.
Definition setPending (x : list call) (s : state) : state :=
  let '(State a b c d e f g h i j k l m _ o) := s in State a b c d e f g h i j k l m x o.
Definition emit (x : effect) (s : state) : state :=
  let '(State a b c d e f g h i j k l m n o) := s in State a b c d e f g h i j k l m n (o ++ [x]).

(** ** Requests *)

Definition bool_text (b : bool) : string := if b then "true" else "false".

(** [typeParam] and [statusParam]. *)
Definition filter_params (q : query) : string :=
  (if bool_decide (q_type q = "all") then "" else "&type=" +:+ q_type q) +:+
  (if bool_decide (q_status q = "all") then "" else "&status=" +:+ q_status q).

Definition load_url (q : query) : string :=
  "/api/channel/?p=" +:+ num_to_str (q_page q) +:+ "&page_size=" +:+ num_to_str (q_pageSize q)
  +:+ "&id_sort=" +:+ bool_text (q_idSort q) +:+ "&tag_mode=" +:+ bool_text (q_tagMode q)
  +:+ filter_params q.

Definition search_url (f : form) (q : query) : string :=
  "/api/channel/search?keyword=" +:+ searchKeyword f +:+ "&group=" +:+ searchGroup f
  +:+ "&model=" +:+ searchModel f +:+ "&id_sort=" +:+ bool_text (q_idSort q)
  +:+ "&tag_mode=" +:+ bool_text (q_tagMode q) +:+ "&p=" +:+ num_to_str (q_page q)
  +:+ "&page_size=" +:+ num_to_str (q_pageSize q) +:+ filter_params q.

Definition send (url : string) (c : call) (s : state) : state :=
  emit (Get url) (setPending (pending s ++ [c]) s).

(** The load itself, up to its [await]. *)
Definition load_request (q : query) (w : within) (catch : bool) (s : state) : state :=
  let s := setLoading true (next_request s) in
  send (load_url q) (Call (LoadRequest (requestCounter s)) q w catch) s.

Definition search_request (f : form) (q : query) (w : within) (catch : bool) (s : state) : state :=
  send (search_url f q) (Call SearchRequest q w catch) s.

Definition loadChannels (f : form) (q : query) (catch : bool) (s : state) : state :=
  if form_empty f then load_request q Alone catch s
  else search_request f q ThenLoaded catch (setSearching true (setLoading true s)).

Definition searchChannels (f : form) (q : query) (s : state) : state :=
  let s := setSearching true s in
  if form_empty f then load_request q FinallySearched false s else search_request f q Alone false s.

(** ** Answers *)

(** [{...type_counts, all: sumAll}]. *)
Definition with_sum (counts : list (string * Z)) : list (string * Z) :=
  obj_define "all" (foldl Z.add 0%Z counts.*2) counts.

(** What the two continuations return: a thrown error, if any. *)
Definition outcome : Type := state * option jsval.

Definition show_page (items : list channel) (total : Z) (q : query) (s : state) : outcome :=
  match setChannelFormat items (q_tagMode q) with
  | Ok rows => (set_page rows total s, None)
  | Throw e => (s, Some (VStr e))
  end.

(** The rest of [loadChannels] after its request. *)
Definition load_done (reqId : nat) (q : query) (a : answer) (s : state) : outcome :=
  match a with
  | Rejected e => (s, Some e)
  | _ =>
      if negb (bool_decide (reqId = requestCounter s)) then (s, None)
      else match a with
           | Page items total counts =>
               let s := match counts with Some c => setTypeCounts (with_sum c) s | None => s end in
               match show_page items total q s with
               | (s, None) => (setLoading false s, None)
               | thrown => thrown
               end
           | Refused m => (setLoading false (emit (ShowError m) s), None)
           | Rejected e => (s, Some e)
           end
  end.

(** The rest of [searchChannels] after its request, with its [finally]. *)
Definition search_done (q : query) (a : answer) (s : state) : outcome :=
  let '(s, thrown) :=
    match a with
    | Rejected e => (s, Some e)
    | Refused m => (emit (ShowError m) s, None)
    | Page items total counts =>
        match show_page items total q (setTypeCounts (with_sum (default [] counts)) s) with
        | (s, None) => (setActivePage (q_page q) s, None)
        | thrown => thrown
        end
    end in
  (setSearching false s, thrown).

(** The caller of the function that sent the request. *)
Definition caller_done (w : within) (catch : bool) (o : outcome) : state :=
  let '(s, thrown) := o in
  let s := match w, thrown with
           | Alone, _ => s
           | ThenLoaded, None => setLoading false s
           | ThenLoaded, Some _ => s
           | FinallySearched, _ => setSearching false s
           end in
  match thrown with Some e => if catch then emit (ShowError e) s else s | None => s end.

Definition on_answer (k : nat) (a : answer) (s : state) : state :=
  match pending s !! k with
  | None => s
  | Some c =>
      let s := setPending (delete k (pending s)) s in
      caller_done (c_within c) (c_catch c)
        (match c_request c with
         | LoadRequest reqId => load_done reqId (c_query c) a s
         | SearchRequest => search_done (c_query c) a s
         end)
  end.

(** ** Handlers *)

(** The query of the current state, for a page. *)
Definition current (page : num) (s : state) : query :=
  Query page (pageSize s) (idSort s) (enableTagMode s) (activeTypeKey s) (statusFilter s).

(** Load without a form, search with one. *)
Definition load_or_search (f : form) (q : query) (catch : bool) (s : state) : state :=
  if form_empty f then loadChannels f q catch s else searchChannels f q s.

Definition refresh (f : form) (page : num) (s : state) : state :=
  load_or_search f (current page s) false s.

Definition handlePageChange (f : form) (page : num) (s : state) : state :=
  load_or_search f (current page s) false (setActivePage page s).

Definition handlePageSizeChange (f : form) (size : num) (s : state) : state :=
  let q := current (num_of_Z 1) s in
  load_or_search f (Query (q_page q) size (q_idSort q) (q_tagMode q) (q_type q) (q_status q)) true
    (setActivePage (num_of_Z 1) (setPageSize size (setItem "page-size" (num_to_str size) s))).

(** The effect on mounting; the form is not there yet. *)
Definition mount (s : state) : state :=
  let stored key := bool_decide (storage s !! key = Some "true") in
  let size := parse_int (default "null" (storage s !! "page-size")) in
  let size := if truthy (VNum size) then size else num_of_Z 10 in
  let q := Query (num_of_Z 1) size (stored "id-sort") (stored "enable-tag-mode")
             (activeTypeKey s) (statusFilter s) in
  loadChannels (getFormValues None) q true
    (setEnableTagMode (stored "enable-tag-mode") (setPageSize size (setIdSort (stored "id-sort") s))).

(** The switches and the status filter of the action bar. *)
Definition switchIdSort (f : form) (v : bool) (s : state) : state :=
  let q := current (activePage s) s in
  load_or_search f (Query (q_page q) (q_pageSize q) v (q_tagMode q) (q_type q) (q_status q)) false
    (setIdSort v (setItem "id-sort" (bool_text v) s)).

Definition switchTagMode (f : form) (v : bool) (s : state) : state :=
  loadChannels f (Query (num_of_Z 1) (pageSize s) (idSort s) v (activeTypeKey s) (statusFilter s)) false
    (setActivePage (num_of_Z 1) (setEnableTagMode v (setItem "enable-tag-mode" (bool_text v) s))).

Definition selectStatus (f : form) (v : string) (s : state) : state :=
  loadChannels f (Query (num_of_Z 1) (pageSize s) (idSort s) (enableTagMode s) (activeTypeKey s) v) false
    (setActivePage (num_of_Z 1) (setStatusFilter v (setItem "channel-status-filter" v s))).

(** The type tabs. *)
Definition handleTabChange (f : form) (key : string) (s : state) : state :=
  loadChannels f (Query (num_of_Z 1) (pageSize s) (idSort s) (enableTagMode s) key (statusFilter s)) false
    (setActivePage (num_of_Z 1) (setActiveTypeKey key s)).

(** A click; [Search] is the search button, with the parameters of the state. *)
Inductive click :=
| Mount
| Refresh (page : num) | PageChange (page : num) | PageSizeChange (size : num)
| SwitchIdSort (v : bool) | SwitchTagMode (v : bool) | SelectStatus (v : string) | TabChange (key : string)
| Search.

Inductive event := Click (f : form) (c : click) | Answer (k : nat) (a : answer).

Definition on_click (f : form) (c : click) (s : state) : state :=
  match c with
  | Mount => mount s
  | Refresh page => refresh f page s
  | PageChange page => handlePageChange f page s
  | PageSizeChange size => handlePageSizeChange f size s
  | SwitchIdSort v => switchIdSort f v s
  | SwitchTagMode v => switchTagMode f v s
  | SelectStatus v => selectStatus f v s
  | TabChange key => handleTabChange f key s
  | Search => searchChannels f (current (num_of_Z 1) s) s
  end.

Definition step (s : state) (e : event) : state :=
  match e with Click f c => on_click f c s | Answer k a => on_answer k a s end.

Definition run (s : state) (evs : list event) : state := foldl step s evs.

(** ** Only the latest load is shown *)

(** What an answer may change for the reader of the list. *)
Definition view (s : state) : list row * Z * list (string * Z) * bool :=
  (channels s, channelCount s, typeCounts s, loading s).

Definition is_answer (e : event) : Prop := match e with Answer _ _ => True | Click _ _ => False end.
(** No search is under way. *)
Definition no_search (s : state) : Prop := Forall (λ c, c_request c ≠ SearchRequest) (pending s).

(** A pending load with a number that satisfies [P]. *)
Definition load_with (P : nat → Prop) (c : call) : Prop :=
  c_within c ≠ ThenLoaded ∧ ∃ i, c_request c = LoadRequest i ∧ P i.

Definition request_number (c : call) : nat :=
  match c_request c with LoadRequest i => i | SearchRequest => 0 end.

(** Only loads are pending, with distinct numbers up to the counter. *)
Record loads_only (s : state) : Prop := {
  lo_numbers : Forall (load_with (λ i, i ≤ requestCounter s)) (pending s);
  lo_distinct : NoDup (request_number <$> pending s) }.

(** The latest load has been answered. *)
Definition all_stale (s : state) : Prop := Forall (load_with (λ i, i < requestCounter s)) (pending s).

Ltac by_fields s := destruct s; cbn; try done.

Lemma caller_done_same w catch s thrown :
  w ≠ ThenLoaded →
  let s' := caller_done w catch (s, thrown) in
  view s' = view s ∧ requestCounter s' = requestCounter s ∧ pending s' = pending s.
Proof. by destruct w, thrown, catch; by_fields s. Qed.

(** Every click with an empty form starts exactly one load. *)
Lemma click_loads f c s :
  form_empty f = true →
  requestCounter (on_click f c s) = S (requestCounter s) ∧
  ∃ q w catch, w ≠ ThenLoaded ∧
    pending (on_click f c s) = pending s ++ [Call (LoadRequest (S (requestCounter s))) q w catch].
Proof.
  intros Hf. destruct c; cbn;
    unfold mount, refresh, handlePageChange, handlePageSizeChange, switchIdSort, switchTagMode, selectStatus,
      handleTabChange, load_or_search, loadChannels, searchChannels; rewrite ?Hf;
    by_fields s; (split; [done|]); by repeat eexists.
Qed.

Lemma load_done_frame i q a s :
  let o := load_done i q a s in
  requestCounter o.1 = requestCounter s ∧ pending o.1 = pending s.
Proof.
  unfold load_done, show_page. destruct a as [e|m|items total counts]; [done| |].
  - case_bool_decide; cbn; by_fields s.
  - case_bool_decide; cbn; [|done]. destruct (setChannelFormat items (q_tagMode q)), counts; by_fields s.
Qed.

(** The answer to a pending load. *)
Lemma load_answered k a s c i :
  pending s !! k = Some c → c_request c = LoadRequest i → c_within c ≠ ThenLoaded →
  requestCounter (on_answer k a s) = requestCounter s ∧
  pending (on_answer k a s) = delete k (pending s) ∧
  view (on_answer k a s)
  = view (load_done i (c_query c) a (setPending (delete k (pending s)) s)).1.
Proof.
  intros Hk Hi Hw. unfold on_answer. rewrite Hk, Hi.
  pose proof (load_done_frame i (c_query c) a (setPending (delete k (pending s)) s)) as [Hr Hp].
  destruct (load_done i (c_query c) a _) as [s' thrown]. cbn [fst] in *.
  destruct (caller_done_same (c_within c) (c_catch c) s' thrown) as (-> & -> & ->); [done|].
  rewrite Hr, Hp. by_fields s.
Qed.

Lemma stale_load_done i q a s : i < requestCounter s → load_done i q a s =
  (s, match a with Rejected e => Some e | _ => None end).
Proof. intros Hi. unfold load_done. rewrite bool_decide_false by lia. by destruct a. Qed.

Lemma requestCounter_pending x s : requestCounter (setPending x s) = requestCounter s.
Proof. by_fields s. Qed.
Lemma view_pending x s : view (setPending x s) = view s.
Proof. by_fields s. Qed.

(** Answers to stale loads change nothing that is shown. *)
Lemma stale_answer k a s : all_stale s →
  all_stale (on_answer k a s) ∧ view (on_answer k a s) = view s.
Proof.
  intros Hs. destruct (pending s !! k) as [c|] eqn:Hk.
  - destruct (Forall_lookup_1 _ _ _ _ Hs Hk) as (Hw & i & Hi & Hlt).
    destruct (load_answered k a s c i Hk Hi Hw) as (Hr & Hp & ->). unfold all_stale. rewrite Hr, Hp.
    split; [by apply Forall_delete|].
    rewrite stale_load_done by by rewrite requestCounter_pending. apply view_pending.
  - unfold on_answer. by rewrite Hk.
Qed.

Lemma stale_answers later s : all_stale s → Forall is_answer later →
  view (run s later) = view s.
Proof.
  intros Hs HF. revert s Hs. induction HF as [|e later He _ IH]; intros s Hs; [done|]. cbn.
  destruct e as [|k a]; [done|]. destruct (stale_answer k a s Hs) as [Hs' <-]. by apply IH.
Qed.

Lemma delete_out {A} (l : list A) k : l !! k = None → delete k l = l.
Proof.
  intros Hk%lookup_ge_None. rewrite delete_take_drop, take_ge, drop_ge by lia. apply app_nil_r.
Qed.

Lemma delete_numbers k (l : list call) c : l !! k = Some c → NoDup (request_number <$> l) →
  NoDup (request_number <$> delete k l).
Proof. intros Hk. rewrite (delete_Permutation _ _ _ Hk) at 1. intros [_ Hd]%NoDup_cons. done. Qed.

Lemma loads_only_answer s k a : loads_only s → loads_only (on_answer k a s).
Proof.
  intros [Hn Hd]. destruct (pending s !! k) as [c|] eqn:Hk; [|unfold on_answer; by rewrite Hk].
  destruct (Forall_lookup_1 _ _ _ _ Hn Hk) as (Hw & i & Hi & _).
  destruct (load_answered k a s c i Hk Hi Hw) as (Hr & Hp & _). split; rewrite Hp, ?Hr.
  - by apply Forall_delete.
  - by eapply delete_numbers.
Qed.

(** *** Sessions with searches *)

(** A load that is pending has a number up to the counter, and no two have
    the same. *)
Definition load_number (c : call) : option nat :=
  match c_request c with LoadRequest i => Some i | SearchRequest => None end.

Record calls_numbered (s : state) : Prop := {
  nu_loads : Forall (λ c, match c_request c with
                          | LoadRequest i => i ≤ requestCounter s ∧ c_within c ≠ ThenLoaded
                          | SearchRequest => True
                          end) (pending s);
  nu_distinct : NoDup (omap load_number (pending s)) }.

(** A click starts one load, with the next number, or one search. *)
Lemma click_pending f c s :
  ∃ r q w catch, pending (on_click f c s) = pending s ++ [Call r q w catch] ∧
  (r = LoadRequest (S (requestCounter s)) ∧ w ≠ ThenLoaded ∧ requestCounter (on_click f c s) = S (requestCounter s) ∨
   r = SearchRequest ∧ requestCounter (on_click f c s) = requestCounter s).
Proof.
  destruct c; cbn;
    unfold mount, refresh, handlePageChange, handlePageSizeChange, switchIdSort, switchTagMode, selectStatus,
      handleTabChange, load_or_search, loadChannels, searchChannels; destruct (form_empty f);
    by_fields s; eexists _, _, _, _; (split; [reflexivity|]); first [left; by split_and!|by right].
Qed.

Lemma search_done_frame q a s :
  let o := search_done q a s in
  requestCounter o.1 = requestCounter s ∧ pending o.1 = pending s.
Proof.
  unfold search_done, show_page. destruct a as [e|m|items total counts]; [by_fields s..|].
  destruct (setChannelFormat items (q_tagMode q)); by_fields s.
Qed.

Lemma caller_done_frame w catch s thrown :
  let s' := caller_done w catch (s, thrown) in
  requestCounter s' = requestCounter s ∧ pending s' = pending s.
Proof. by destruct w, thrown, catch; by_fields s. Qed.

Lemma answer_pending k a s :
  requestCounter (on_answer k a s) = requestCounter s ∧ pending (on_answer k a s) = delete k (pending s).
Proof.
  unfold on_answer. destruct (pending s !! k) as [c|] eqn:Hk; [|by rewrite delete_out].
  set (s1 := setPending _ s).
  assert (requestCounter s1 = requestCounter s ∧ pending s1 = delete k (pending s)) as [H1 H2] by (by destruct s).
  set (o := match c_request c with LoadRequest _ => _ | SearchRequest => _ end).
  assert (requestCounter o.1 = requestCounter s1 ∧ pending o.1 = pending s1) as [H3 H4].
  { unfold o. destruct (c_request c); [apply load_done_frame|apply search_done_frame]. }
  destruct o as [s2 thrown]. cbn [fst] in *.
  destruct (caller_done_frame (c_within c) (c_catch c) s2 thrown) as [-> ->]. by rewrite H3, H4.
Qed.

Lemma numbered_step s e : calls_numbered s → calls_numbered (step s e).
Proof.
  intros [Hn Hd]. destruct e as [f c|k a]; cbn.
  - destruct (click_pending f c s) as (r & q & w & catch & Hp & Hr). split; rewrite Hp.
    + apply Forall_app. split; [eapply Forall_impl; [exact Hn|]|].
      * intros x Hx. cbn in Hx |- *. destruct (c_request x); [|done]. destruct Hx as [Hx ?]. split; [|done].
        destruct Hr as [(_ & _ & ->)|(_ & ->)]; lia.
      * destruct Hr as [(-> & ? & ->)|(-> & _)]; by repeat constructor.
    + rewrite omap_app. destruct Hr as [(-> & ? & _)|(-> & _)]; cbn; [|by rewrite app_nil_r].
      apply NoDup_app. split_and!; [done| |apply NoDup_singleton].
      intros i Hi ->%list_elem_of_singleton. apply list_elem_of_omap in Hi as (x & Hin & Hx).
      rewrite Forall_forall in Hn. specialize (Hn x Hin). unfold load_number in Hx.
      destruct (c_request x); simplify_eq. lia.
  - destruct (answer_pending k a s) as [Hr Hp]. split; rewrite Hp, ?Hr; [by apply Forall_delete|].
    destruct (pending s !! k) as [c|] eqn:Hk; [|by rewrite delete_out].
    rewrite (delete_Permutation _ _ _ Hk) in Hd. cbn in Hd.
    destruct (load_number c); [by apply NoDup_cons in Hd as [_ Hd]|done].
Qed.

Lemma numbered_run evs st : calls_numbered (run (init st) evs).
Proof.
  assert (calls_numbered (init st)) as H0 by (split; constructor). revert H0. generalize (init st).
  induction evs as [|e evs IH]; intros s H0; [done|]. cbn. by apply IH, numbered_step.
Qed.

(** Without a search under way only loads are pending. *)
Lemma numbered_loads s : calls_numbered s → no_search s → loads_only s.
Proof.
  intros [Hn Hd] Hs. split.
  - apply Forall_forall. intros c Hc. unfold no_search in Hs. rewrite Forall_forall in Hn, Hs.
    specialize (Hn c Hc). specialize (Hs c Hc). cbn in *.
    destruct (c_request c) as [i|] eqn:E; [|done]. destruct Hn. split; [done|]. by exists i.
  - unfold no_search in Hs. clear Hn. induction (pending s) as [|c l IH]; [constructor|].
    apply Forall_cons in Hs as [Hc Hs]. cbn in Hd |- *. unfold load_number in Hd at 1.
    destruct (c_request c) as [i|] eqn:E; [|done]. apply NoDup_cons in Hd as [Hni Hd].
    apply NoDup_cons. split; [|by apply IH]. unfold request_number at 1. rewrite E.
    intros (x & Hx & Hin)%list_elem_of_fmap. apply Hni, list_elem_of_omap. exists x. split; [done|].
    rewrite Forall_forall in Hs. specialize (Hs x Hin). unfold load_number, request_number in *.
    destruct (c_request x); [by subst|done].
Qed.

(** Answers keep the invariant and the counter. *)
Lemma answers_keep before s : Forall is_answer before → loads_only s →
  loads_only (run s before) ∧ requestCounter (run s before) = requestCounter s.
Proof.
  intros HF. revert s. induction HF as [|e before He _ IH]; intros s Hs; [done|]. cbn.
  destruct e as [|k a]; [done|]. destruct (IH (step s (Answer k a))) as [? Hr]; [by apply loads_only_answer|].
  split; [done|]. etrans; [exact Hr|]. apply answer_pending.
Qed.

(** Once the latest load is answered, only stale ones are pending. *)
Lemma latest_answered k a s l : loads_only s → pending s !! k = Some l →
  c_request l = LoadRequest (requestCounter s) → all_stale (on_answer k a s).
Proof.
  intros [Hn Hd] Hk Hl. destruct (Forall_lookup_1 _ _ _ _ Hn Hk) as (Hw & _).
  destruct (load_answered k a s l _ Hk Hl Hw) as (Hr & Hp & _). unfold all_stale. rewrite Hr, Hp.
  rewrite (delete_Permutation _ _ _ Hk) in Hd. cbn in Hd. apply NoDup_cons in Hd as [Hnot _].
  apply Forall_forall. intros c Hc. apply (Forall_delete _ _ k) in Hn. rewrite Forall_forall in Hn.
  destruct (Hn c Hc) as (Hw' & i & Hi & Hle). split; [done|]. exists i. split; [done|].
  enough (i ≠ requestCounter s) by lia. intros ->. apply Hnot, list_elem_of_fmap. exists c.
  unfold request_number. by rewrite Hi, Hl.
Qed.

Lemma stale_run before s : all_stale s → Forall is_answer before → all_stale (run s before).
Proof.
  intros Hs HF. revert s Hs. induction HF as [|e before He _ IH]; intros s Hs; [done|]. cbn.
  destruct e as [|k a]; [done|]. by apply IH, stale_answer.
Qed.

(** As long as the latest load is not answered, nothing that is shown
    changes. *)
Lemma waiting_view before s k l : loads_only s → Forall is_answer before →
  pending (run s before) !! k = Some l → c_request l = LoadRequest (requestCounter s) →
  view (run s before) = view s.
Proof.
  intros Hs HF. revert s Hs. induction HF as [|e before He HF IH]; intros s Hs; [done|].
  destruct e as [|j a]; [done|]. change (run s (Answer j a :: before)) with (run (on_answer j a s) before).
  intros Hk Hl.
  destruct (answer_pending j a s) as [Hr Hp].
  rewrite (IH (on_answer j a s)); [|by apply loads_only_answer|done|by rewrite Hr].
  destruct (pending s !! j) as [c|] eqn:Hj; [|unfold on_answer; by rewrite Hj].
  destruct (Forall_lookup_1 _ _ _ _ (lo_numbers s Hs) Hj) as (Hw & i & Hi & Hle).
  destruct (decide (i = requestCounter s)) as [->|Hne].
  - exfalso. pose proof (latest_answered j a s c Hs Hj Hi) as Hst. apply (stale_run before) in Hst as Hst'; [|done].
    destruct (Forall_lookup_1 _ _ _ _ Hst' Hk) as (_ & i & Hi' & Hlt). rewrite Hl in Hi'. injection Hi' as <-.
    destruct (answers_keep before (on_answer j a s) HF (loads_only_answer s j a Hs)) as [_ Hrun].
    rewrite Hrun, Hr in Hlt. lia.
  - destruct (load_answered j a s c i Hj Hi Hw) as (_ & _ & ->).
    rewrite stale_load_done by (rewrite requestCounter_pending; lia). apply view_pending.
Qed.

Lemma click_view f c s : form_empty f = true →
  view (on_click f c s) = (channels s, channelCount s, typeCounts s, true).
Proof.
  intros Hf. destruct c; cbn;
    unfold mount, refresh, handlePageChange, handlePageSizeChange, switchIdSort, switchTagMode, selectStatus,
      handleTabChange, load_or_search, loadChannels, searchChannels; rewrite ?Hf; by_fields s.
Qed.

(** C34.  A click that loads the list (the form of the search is empty) while
    no search is under way, whatever happened before and whatever older loads
    are under way.  Until its load is answered, the answers to older loads
    change nothing that is shown, and the list is loading.  Its answer then
    decides, and no answer to an older load changes it any more: a page is
    shown with its total, and loading ends; a refusal leaves the list and
    ends loading; a request that fails leaves the list and leaves it
    loading. *)
Theorem latest_load_wins (st : gmap string string) (evs before after : list event) (f : form) (c : click)
    (l : call) (k : nat) (a : answer) :
  let s0 := run (init st) evs in
  no_search s0 → form_empty f = true → Forall is_answer before → Forall is_answer after →
  let started := step s0 (Click f c) in
  let waiting := run started before in
  last (pending started) = Some l → pending waiting !! k = Some l →
  let s := run waiting (Answer k a :: after) in
  view waiting = (channels s0, channelCount s0, typeCounts s0, true) ∧
  match a with
  | Page items total counts => ∀ rows, setChannelFormat items (q_tagMode (c_query l)) = Ok rows →
      view s = (rows, total, from_option with_sum (typeCounts s0) counts, false)
  | Refused _ => view s = (channels s0, channelCount s0, typeCounts s0, false)
  | Rejected _ => view s = (channels s0, channelCount s0, typeCounts s0, true)
  end.
Proof.
  intros s0 Hns Hf Hb Ha started waiting Hl Hk s.
  destruct (click_loads f c s0 Hf) as (Hr0 & q & w & catch & Hw & Hp).
  assert (loads_only started) as Hlo.
  { apply numbered_loads; [apply numbered_step, numbered_run|]. unfold no_search, started. cbn. rewrite Hp.
    apply Forall_app. split; [done|by repeat constructor]. }
  assert (l = Call (LoadRequest (requestCounter started)) q w catch) as ->.
  { unfold started in *. cbn in *. rewrite Hp, last_snoc in Hl. injection Hl as <-. by rewrite Hr0. }
  destruct (answers_keep before started Hb Hlo) as [Hlo' Hr].
  change (run started before) with waiting in Hlo', Hr.
  assert (view waiting = (channels s0, channelCount s0, typeCounts s0, true)) as Hvw.
  { unfold waiting. erewrite waiting_view; [by apply click_view|done..]. }
  split; [done|].
  assert (view s = view (on_answer k a waiting)) as Hv.
  { apply (stale_answers after (on_answer k _ waiting)); [|done]. eapply latest_answered; [done|exact Hk|]. by rewrite Hr. }
  destruct (load_answered k a waiting _ _ Hk eq_refl Hw) as (_ & _ & Hd).
  rewrite Hv, Hd. clear -Hvw Hr. cbn [c_query]. unfold load_done, show_page.
  rewrite bool_decide_true by (by rewrite requestCounter_pending).
  destruct waiting; unfold view in *; cbn in Hvw. injection Hvw as -> -> -> ->.
  destruct a as [e|m|items total counts]; cbn; [done..|]. intros rows ->. by destruct counts.
Qed.

(** A channel of a type, and a page of one channel. *)
Definition sample (i : Z) : channel :=
  Channel i 1 "" "default" 1 None None (num_of_Z 0) (num_of_Z 0) VUndef [].
Definition page_of (i : Z) : answer := Page [sample i] 1 None.
Definition no_form : form := Form "" "" "".

Lemma latest_load_wins_witness :
  let evs := [Click no_form Mount; Click no_form (PageChange (num_of_Z 2))] in
  let s := run (init ∅) (evs ++ [Click no_form (PageChange (num_of_Z 3))] ++
             [Answer 1 (page_of 2)] ++ [Answer 1 (page_of 3); Answer 0 (page_of 1)]) in
  all_channels (channels s) = [Shown (sample 3) "3" (UpdateMeta false [] [])] ∧ loading s = false.
Proof.
  intros evs s.
  destruct (latest_load_wins ∅ evs [Answer 1 (page_of 2)] [Answer 0 (page_of 1)]
    no_form (PageChange (num_of_Z 3))
    (Call (LoadRequest 3) (Query (num_of_Z 3) (num_of_Z 10) false false "all" "all") Alone false)
    1 (page_of 3)) as [_ H].
  - by repeat constructor.
  - done.
  - by repeat constructor.
  - by repeat constructor.
  - vm_compute. reflexivity.
  - vm_compute. reflexivity.
  - specialize (H [Single (Shown (sample 3) "3" (UpdateMeta false [] []))] ltac:(vm_compute; reflexivity)).
    split; [exact (f_equal (λ v, all_channels v.1.1.1) H)|exact (f_equal snd H)].
Defined.

(** A search takes no number, so the answer of an older load replaces the
    result of a newer search. *)
Lemma stale_load_over_search :
  let found := Form "gpt" "" "" in
  let s := run (init ∅) [Click no_form Mount; Click found Search; Answer 1 (page_of 2); Answer 0 (page_of 1)] in
  s_channel <$> all_channels (channels s) = [sample 1] ∧ searching s = false.
Proof. vm_compute. done. Qed.

(** After a failed load the list is left loading. *)
Lemma failed_channels_keep_loading f c e s :
  form_empty f = true → pending s = [] →
  loading (run s [Click f c; Answer 0 (Rejected e)]) = true.
Proof.
  intros Hf Hs. destruct c; cbn;
    unfold mount, refresh, handlePageChange, handlePageSizeChange, switchIdSort, switchTagMode, selectStatus,
      handleTabChange, load_or_search, loadChannels, searchChannels; rewrite ?Hf;
    destruct s; cbn in Hs; subst; unfold on_answer; cbn; done.
Qed.
