(* ===== verification/ChannelTests.v ===== *)
(** * Testing the models of a channel

    [testChannel], [batchTestModels], [stopBatchTesting], [clearTestResults]
    and [handleCloseModal] of [web/src/hooks/channels/useChannelsData.jsx],
    and the buttons of [components/table/channels/modals/ModelTestModal.jsx]
    that call them.  A batch is a state machine: it waits for the requests of
    its window, or for a timer.  Requests are answered in any order, timers
    fire at any time, and other batches, single tests and clicks come in
    between.  A handler keeps the value of [isBatchTesting] of the render it
    was made in; the stop flag is a ref and always current.  Messages are
    kept as data, without their translated texts. *)
From Stdlib Require Import Ascii SpecFloat.
From S2P Require Import Prelude JsString JsNumber JsValue.

Record test_channel := TestChannel { id : Z; name : string; models : option string }.

Record result := Result { success : bool; message : jsval; time : num; timestamp : Z }.

(** The answer to a test request. *)
Inductive reply := Failed (error_message : jsval) | Reply (success : bool) (message : jsval) (time : num).

Inductive text :=
| Incomplete | NoMatch | Started (count : nat) | Stopped | StoppedByUser | ClosedAndStopped | Cleared
| Window (first last total : nat)
| Passed (name model : string) (time : num)
| NotPassed (model : string) (message : jsval)
| Finished (ok fail total : nat).

(** [Get] carries the number of the batch that sent it, if one did. *)
Inductive effect :=
| Get (batch : option nat) (url : string)
| Show (m : text)
| UpdateResponseTime (channelId : Z) (response_time : num) (now : Z).

(** A test under way; [inBatch] is the [isBatchTesting] its handler sees. *)
Record test := Test { t_channel : test_channel; t_model : string; inBatch : bool }.

(** Where a batch waits: for its window, for the pause of 100 ms between
    windows, for 300 ms before the statistics, for 100 ms before the report. *)
Inductive phase :=
| Testing (flight : list test) | Pausing | Settling | Reporting (ok fail : nat) | Ended.

Record batch := Batch {
  b_channel : test_channel; b_models : list string; b_endpoint : string; b_stream : bool;
  b_inBatch : bool; b_index : nat; b_phase : phase }.

(** The test window: its channel, filter and options. *)
Record modal := Modal {
  showModelTestModal : bool; currentTestChannel : option test_channel; modelSearchKeyword : string;
  selectedModelKeys : list string; modelTablePage : num; selectedEndpointType : string; isStreamTest : bool }.

Record state := State {
  shouldStop : bool; isBatchTesting : bool; testingModels : list string;
  modelTestResults : list (string * result); batches : list batch; singles : list test;
  window : modal; effects : list effect }.

Definition setStop (x : bool) (s : state) : state :=
  let '(State _ b c d e f g h) := s in State x b c d e f g h.
Definition setIsBatchTesting (x : bool) (s : state) : state :=
  let '(State a _ c d e f g h) := s in State a x c d e f g h.
Definition setTestingModels (x : list string) (s : state) : state :=
  let '(State a b _ d e f g h) := s in State a b x d e f g h.
Definition setModelTestResults (x : list (string * result)) (s : state) : state :=
  let '(State a b c _ e f g h) := s in State a b c x e f g h.
Definition setBatches (x : list batch) (s : state) : state :=
  let '(State a b c d _ f g h) := s in State a b c d x f g h.
Definition setSingles (x : list test) (s : state) : state :=
  let '(State a b c d e _ g h) := s in State a b c d e x g h.
Definition setWindow (x : modal) (s : state) : state :=
  let '(State a b c d e f _ h) := s in State a b c d e f x h.
Definition emit (x : effect) (s : state) : state :=
  let '(State a b c d e f g h) := s in State a b c d e f g (h ++ [x]).

(** ** One test *)

Definition testKey (ch : test_channel) (model : string) : string := pretty (id ch) +:+ "-" +:+ model.

Definition test_url (ch : test_channel) (model endpointType : string) (stream : bool) : string :=
  "/api/channel/test/" +:+ pretty (id ch) +:+ "?model=" +:+ model
  +:+ (if bool_decide (endpointType = "") then "" else "&endpoint_type=" +:+ endpointType)
  +:+ (if stream then "&stream=true" else "").

(** [new Set([...prev, model])]. *)
Definition set_add (m : string) (l : list string) : list string :=
  if decide (m ∈ l) then l else l ++ [m].
Definition set_delete (m : string) (l : list string) : list string := filter (λ x, x ≠ m) l.

(** The test is skipped after a stop seen during a batch. *)
Definition skips (t : test) (s : state) : bool := shouldStop s && inBatch t.

(** [testChannel] up to its request; [true] when one was sent. *)
Definition begin_test (by_batch : option nat) (t : test) (endpointType : string) (stream : bool) (s : state)
    : bool * state :=
  if skips t s then (false, s)
  else (true, emit (Get by_batch (test_url (t_channel t) (t_model t) endpointType stream))
                (setTestingModels (set_add (t_model t) (testingModels s)) s)).

Definition record_result (t : test) (r : result) (s : state) : state :=
  setModelTestResults (obj_define (testKey (t_channel t) (t_model t)) r (modelTestResults s)) s.

(** The rest of [testChannel], with its [finally]. *)
Definition finish_test (t : test) (a : reply) (now : Z) (s : state) : state :=
  let s :=
    match a with
    | Failed e =>
        emit (Show (NotPassed (t_model t) (js_or e (VStr "测试失败"))))
          (record_result t (Result false (js_or e (VStr "网络错误")) (num_of_Z 0) now) s)
    | Reply ok m tm =>
        if skips t s then s
        else
          let s := record_result t (Result ok m (if truthy (VNum tm) then tm else num_of_Z 0) now) s in
          if ok then emit (Show (Passed (name (t_channel t)) (t_model t) tm))
                       (emit (UpdateResponseTime (id (t_channel t)) (num_mul tm (num_of_Z 1000)) now) s)
          else emit (Show (NotPassed (t_model t) m)) s
    end in
  setTestingModels (set_delete (t_model t) (testingModels s)) s.

(** The test button of a model: a new test with the values of this render. *)
Definition testChannel (ch : test_channel) (model endpointType : string) (stream : bool) (s : state)
    : state :=
  let t := Test ch model (isBatchTesting s) in
  let '(sent, s) := begin_test None t endpointType stream s in
  if sent then setSingles (singles s ++ [t]) s else s.

(** ** A batch *)

Definition concurrencyLimit : nat := 5.

Definition at_index (i : nat) (b : batch) : batch :=
  Batch (b_channel b) (b_models b) (b_endpoint b) (b_stream b) (b_inBatch b) i (b_phase b).
Definition at_phase (p : phase) (b : batch) : batch :=
  Batch (b_channel b) (b_models b) (b_endpoint b) (b_stream b) (b_inBatch b) (b_index b) p.

Definition batch_slice (b : batch) : list string := take concurrencyLimit (drop (b_index b) (b_models b)).

(** After the loop; [finally] when the batch was stopped. *)
Definition after_loop (b : batch) (s : state) : batch * state :=
  if shouldStop s then (at_phase Ended b, setIsBatchTesting false s) else (at_phase Settling b, s).

(** [batch.map(model => testChannel(...))]: the tests that sent a request. *)
Fixpoint begin_tests (n : nat) (b : batch) (ms : list string) (s : state) : list test * state :=
  match ms with
  | [] => ([], s)
  | m :: ms =>
      let t := Test (b_channel b) m (b_inBatch b) in
      let '(sent, s) := begin_test (Some n) t (b_endpoint b) (b_stream b) s in
      let '(ts, s) := begin_tests n b ms s in
      (if sent then t :: ts else ts, s)
  end.

(** The head of the loop, up to the [await] of the window; [n] is the number
    of the batch. *)
Definition loop_head (n : nat) (b : batch) (s : state) : batch * state :=
  if decide (b_index b < length (b_models b)) then
    if shouldStop s then after_loop b (emit (Show Stopped) s)
    else
      let total := length (b_models b) in
      let s := emit (Show (Window (b_index b + 1) (min (b_index b + concurrencyLimit) total) total)) s in
      let '(ts, s) := begin_tests n b (batch_slice b) s in
      (at_phase (Testing ts) b, s)
  else after_loop b s.

(** The loop after its window has settled, up to the pause. *)
Definition window_done (n : nat) (b : batch) (s : state) : batch * state :=
  if shouldStop s then after_loop b (emit (Show Stopped) s)
  else if decide (b_index b + concurrencyLimit < length (b_models b)) then (at_phase Pausing b, s)
  else loop_head n (at_index (b_index b + concurrencyLimit) b) s.

Definition test_passed (b : batch) (s : state) (m : string) : bool :=
  match obj_get (modelTestResults s) (testKey (b_channel b) m) with Some r => success r | None => false end.

(** The statistics from the results of this moment. *)
Definition statistics (b : batch) (s : state) : nat * nat :=
  (length (filter (λ m, test_passed b s m = true) (b_models b)),
   length (filter (λ m, test_passed b s m = false) (b_models b))).

(** A timer of the batch. *)
Definition on_timer (n : nat) (b : batch) (s : state) : batch * state :=
  match b_phase b with
  | Pausing => loop_head n (at_index (b_index b + concurrencyLimit) b) s
  | Settling =>
      let '(ok, fail) := statistics b s in (at_phase (Reporting ok fail) b, setIsBatchTesting false s)
  | Reporting ok fail => (at_phase Ended b, emit (Show (Finished ok fail (length (b_models b)))) s)
  | Testing _ | Ended => (b, s)
  end.

(** The answer to the [k]-th request of its window. *)
Definition on_reply (n : nat) (b : batch) (k : nat) (a : reply) (now : Z) (s : state) : batch * state :=
  match b_phase b with
  | Testing flight =>
      match flight !! k with
      | None => (b, s)
      | Some t =>
          let s := finish_test t a now s in
          match delete k flight with
          | [] => window_done n b s
          | rest => (at_phase (Testing rest) b, s)
          end
      end
  | _ => (b, s)
  end.

Definition matching_models (keyword : string) (ms : string) : list string :=
  filter (λ m, includes (to_lower keyword) (to_lower m) = true) (split_on "," ms).

Definition clear_results (ch : test_channel) (ms : list string) (rs : list (string * result))
    : list (string * result) :=
  foldl (λ rs m, obj_delete (testKey ch m) rs) rs ms.

(** The batch button; it is disabled while [isBatchTesting]. *)
Definition batchTestModels (s : state) : state :=
  let w := window s in
  match currentTestChannel w with
  | None | Some (TestChannel _ _ None) | Some (TestChannel _ _ (Some "")) => emit (Show Incomplete) s
  | Some (TestChannel _ _ (Some ms) as ch) =>
      match matching_models (modelSearchKeyword w) ms with
      | [] => emit (Show NoMatch) s
      | found =>
          let n := length (batches s) in
          let b := Batch ch found (selectedEndpointType w) (isStreamTest w) (isBatchTesting s) 0 Ended in
          let s := setStop false (setIsBatchTesting true s) in
          let s := setModelTestResults (clear_results ch found (modelTestResults s)) s in
          let '(b, s) := loop_head n b (emit (Show (Started (length found))) s) in
          setBatches (batches s ++ [b]) s
      end
  end.

Definition stopBatchTesting (s : state) : state :=
  emit (Show StoppedByUser) (setTestingModels [] (setIsBatchTesting false (setStop true s))).

Definition clearTestResults (s : state) : state := emit (Show Cleared) (setModelTestResults [] s).

Definition handleCloseModal (s : state) : state :=
  let s := if isBatchTesting s then emit (Show ClosedAndStopped) (setStop true s) else s in
  setWindow (Modal false (currentTestChannel (window s)) "" [] (num_of_Z 1) "" false)
    (setTestingModels [] (setIsBatchTesting false s)).

(** ** Events *)

Inductive event :=
| BatchClick
| TestClick (ch : test_channel) (model endpointType : string) (stream : bool)
| WindowChange (w : modal)
| StopClick | ClearClick | CloseClick
| BatchReply (n k : nat) (a : reply) (now : Z)
| BatchTimer (n : nat)
| SingleReply (k : nat) (a : reply) (now : Z).

(** Let batch [n] make a step. *)
Definition on_batch (n : nat) (f : batch → state → batch * state) (s : state) : state :=
  match batches s !! n with
  | None => s
  | Some b => let '(b, s) := f b s in setBatches (<[n := b]> (batches s)) s
  end.

Definition step (s : state) (e : event) : state :=
  match e with
  | BatchClick => if isBatchTesting s then s else batchTestModels s
  | TestClick ch model ep stream => testChannel ch model ep stream s
  | WindowChange w => setWindow w s
  | StopClick => stopBatchTesting s
  | ClearClick => clearTestResults s
  | CloseClick => handleCloseModal s
  | BatchReply n k a now => on_batch n (λ b, on_reply n b k a now) s
  | BatchTimer n => on_batch n (on_timer n) s
  | SingleReply k a now =>
      match singles s !! k with
      | None => s
      | Some t => finish_test t a now (setSingles (delete k (singles s)) s)
      end
  end.

Definition run (s : state) (evs : list event) : state := foldl step s evs.

Definition start : state :=
  State false false [] [] [] [] (Modal false None "" [] (num_of_Z 1) "" false) [].

(** ** The windows of a batch *)

(** The addresses batch [n] has requested, in order. *)
Definition urls_of (n : nat) (es : list effect) : list string :=
  omap (λ e, match e with
             | Get (Some m) u => if decide (m = n) then Some u else None
             | _ => None
             end) es.

Definition model_url (b : batch) (m : string) : string :=
  test_url (b_channel b) m (b_endpoint b) (b_stream b).

Definition limit_index (b : batch) : nat := b_index b + concurrencyLimit.

(** What is requested and waited for in each phase: [j] models have been
    requested. *)
Definition phase_ok (b : batch) (j : nat) : Prop :=
  match b_phase b with
  | Testing flight =>
      b_index b < length (b_models b) ∧ j = limit_index b ∧ flight ≠ [] ∧
      (t_model <$> flight) `sublist_of` batch_slice b ∧
      Forall (λ t, t_channel t = b_channel b ∧ inBatch t = false) flight
  | Pausing => limit_index b < length (b_models b) ∧ j = limit_index b
  | Settling | Reporting _ _ => length (b_models b) ≤ j
  | Ended => True
  end.

Record batch_ok (n : nat) (b : batch) (es : list effect) : Prop := {
  bo_inBatch : b_inBatch b = false;
  bo_requests : ∃ j, urls_of n es = model_url b <$> take j (b_models b) ∧ phase_ok b j }.

(** How many events a batch may still need. *)
Definition steps_left (b : batch) : nat :=
  match b_phase b with
  | Testing flight => 2 * (length (b_models b) - limit_index b) + 4 + length flight
  | Pausing => 2 * (length (b_models b) - limit_index b) + 4
  | Settling => 2
  | Reporting _ _ => 1
  | Ended => 0
  end.

(** What a step of batch [n] keeps. *)
Record keeps (n : nat) (b : batch) (s : state) (o : batch * state) : Prop := {
  k_batches : batches o.2 = batches s;
  k_stop : shouldStop o.2 = shouldStop s;
  k_models : b_models o.1 = b_models b;
  k_channel : b_channel o.1 = b_channel b;
  k_others m : m ≠ n → urls_of m (effects o.2) = urls_of m (effects s);
  k_ok : batch_ok n o.1 (effects o.2) }.

Lemma urls_emit n s e : (∀ u, e ≠ Get (Some n) u) → urls_of n (effects (emit e s)) = urls_of n (effects s).
Proof.
  intros He. destruct s. cbn. unfold urls_of. rewrite omap_app. cbn.
  destruct e as [[m|] u| |]; cbn; rewrite ?app_nil_r; try done.
  case_decide as Hd; [|by rewrite app_nil_r]. subst. by destruct (He u).
Qed.

Definition batch_test (b : batch) (m : string) : test := Test (b_channel b) m (b_inBatch b).

Lemma begin_tests_spec n b ms s :
  b_inBatch b = false →
  let o := begin_tests n b ms s in
  o.1 = batch_test b <$> ms ∧ batches o.2 = batches s ∧ shouldStop o.2 = shouldStop s ∧
  modelTestResults o.2 = modelTestResults s ∧ isBatchTesting o.2 = isBatchTesting s ∧
  (∀ m, m ≠ n → urls_of m (effects o.2) = urls_of m (effects s)) ∧
  urls_of n (effects o.2) = urls_of n (effects s) ++ (model_url b <$> ms).
Proof.
  intros Hb. revert s. induction ms as [|m ms IH]; intros s; cbn.
  { rewrite app_nil_r. done. }
  unfold begin_test, skips. cbn. rewrite Hb, andb_false_r.
  set (s1 := emit _ _). specialize (IH s1). destruct (begin_tests n b ms s1) as [ts s2]. cbn in *.
  destruct IH as (-> & -> & -> & -> & -> & Ho & Hu). split; [f_equal; unfold batch_test; by rewrite Hb|].
  assert (∀ m', m' ≠ n → urls_of m' (effects s1) = urls_of m' (effects s)) as H1.
  { intros m' Hm'. unfold s1. rewrite urls_emit by congruence. by destruct s. }
  assert (urls_of n (effects s1) = urls_of n (effects s) ++ [model_url b m]) as H2.
  { unfold s1. destruct s. cbn. unfold urls_of. rewrite omap_app. cbn. by rewrite decide_True. }
  subst s1. destruct s. cbn in *. split_and!; try done.
  - intros m' Hm'. rewrite Ho by done. by apply H1.
  - rewrite Hu, H2, <-app_assoc. done.
Qed.

Lemma ended_ok n b es : b_inBatch b = false →
  (∃ j, urls_of n es = model_url b <$> take j (b_models b)) → batch_ok n (at_phase Ended b) es.
Proof. intros Hb [j Hj]. split; [done|]. exists j. done. Qed.

Lemma after_loop_keeps n b s j :
  b_inBatch b = false → urls_of n (effects s) = model_url b <$> take j (b_models b) →
  (shouldStop s = false → length (b_models b) ≤ j) →
  keeps n b s (after_loop b s) ∧ steps_left (after_loop b s).1 ≤ 2.
Proof.
  intros Hb Hu Hj. unfold after_loop. destruct (shouldStop s) eqn:Hs; cbn; (split; [|cbn; lia]).
  - destruct s. split; try done. cbn in *. apply ended_ok; [done|by exists j].
  - split; try done. split; [done|]. exists j. split; [done|]. cbn. by apply Hj.
Qed.

Lemma keeps_emit n b s e o : (∀ m u, e ≠ Get (Some m) u) → keeps n b (emit e s) o → keeps n b s o.
Proof.
  intros He [H1 H2 H3 H4 H5 H6]. split; try done.
  - rewrite H1. by destruct s.
  - rewrite H2. by destruct s.
  - intros m Hm. rewrite H5 by done. by apply urls_emit.
Qed.

Lemma length_slice b : length (batch_slice b) = min concurrencyLimit (length (b_models b) - b_index b).
Proof. unfold batch_slice. by rewrite length_take, length_drop. Qed.

Lemma loop_head_keeps n b s :
  b_inBatch b = false → urls_of n (effects s) = model_url b <$> take (b_index b) (b_models b) →
  keeps n b s (loop_head n b s) ∧
  steps_left (loop_head n b s).1 < 2 * (length (b_models b) - b_index b) + 4.
Proof.
  intros Hb Hu. unfold loop_head. case_decide as Hlt; [destruct (shouldStop s) eqn:Hs|].
  - destruct (after_loop_keeps n b (emit (Show Stopped) s) (b_index b)) as [Hk Hm]; [done| | |].
    + by rewrite urls_emit.
    + destruct s. cbn in *. by rewrite Hs.
    + split; [by eapply keeps_emit; [|exact Hk]|lia].
  - set (s1 := emit _ s).
    assert (urls_of n (effects s1) = urls_of n (effects s)) as H1 by by apply urls_emit.
    destruct (begin_tests_spec n b (batch_slice b) s1 Hb) as (Ht & Hbs & Hst & _ & _ & Ho & Hn).
    destruct (begin_tests n b (batch_slice b) s1) as [ts s2]. cbn [fst snd] in *. subst ts. split.
    + split; try done; cbn.
      * rewrite Hbs. subst s1. by destruct s.
      * rewrite Hst. subst s1. by destruct s.
      * intros m Hm. rewrite Ho by done. by apply urls_emit.
      * split; [done|]. exists (limit_index b). split.
        { rewrite Hn, H1, Hu, <-fmap_app. unfold model_url, limit_index, batch_slice. cbn. f_equal.
          by rewrite take_take_drop. }
        cbn. split_and!; try done.
        -- intros E%(f_equal length). rewrite length_fmap in E. change (length (batch_slice b) = 0) in E.
           rewrite length_slice in E. unfold concurrencyLimit in E. lia.
        -- by rewrite <-list_fmap_compose, list_fmap_id.
        -- apply Forall_fmap, Forall_forall. by intros x _.
    + unfold steps_left, limit_index. cbn [fst at_phase b_phase b_models b_index].
      rewrite length_fmap, length_slice.
      unfold concurrencyLimit. lia.
  - destruct (after_loop_keeps n b s (b_index b)) as [Hk Hm]; [done..|lia|]. split; [done|lia].
Qed.

(** An effect that is no request of a batch. *)
Lemma finish_test_frame t a now s :
  let s' := finish_test t a now s in
  batches s' = batches s ∧ shouldStop s' = shouldStop s ∧ isBatchTesting s' = isBatchTesting s ∧
  ∀ m, urls_of m (effects s') = urls_of m (effects s).
Proof.
  unfold finish_test, record_result. destruct a as [e|ok r tm]; [|destruct (skips t s); [|destruct ok]];
    destruct s; cbn; split_and!; try done; intros m; unfold urls_of; rewrite ?omap_app; cbn;
    by rewrite ?app_nil_r.
Qed.

Lemma window_done_keeps n b s :
  b_inBatch b = false → urls_of n (effects s) = model_url b <$> take (limit_index b) (b_models b) →
  keeps n b s (window_done n b s) ∧
  steps_left (window_done n b s).1 < 2 * (length (b_models b) - limit_index b) + 5.
Proof.
  intros Hb Hu. unfold window_done. destruct (shouldStop s) eqn:Hs; [|case_decide as Hd].
  - destruct (after_loop_keeps n b (emit (Show Stopped) s) (limit_index b)) as [Hk Hm]; [done| | |].
    + by rewrite urls_emit.
    + destruct s. cbn in *. by rewrite Hs.
    + split; [by eapply keeps_emit; [|exact Hk]|lia].
  - split; [|unfold steps_left; cbn; unfold limit_index; cbn; lia].
    split; try done. split; [done|]. exists (limit_index b). done.
  - destruct (loop_head_keeps n (at_index (limit_index b) b) s) as [Hk Hm]; [done..|].
    split; [|cbn in Hm; unfold limit_index in *; cbn in *; lia].
    destruct Hk as [H1 H2 H3 H4 H5 H6]. by split.
Qed.

(** Batch [n] makes progress: a reply to one of its requests or its timer. *)
Definition enabled (b : batch) (k : option nat) : bool :=
  match b_phase b, k with
  | Testing flight, Some k => bool_decide (k < length flight)
  | Pausing, None | Settling, None | Reporting _ _, None => true
  | _, _ => false
  end.

Lemma keeps_refl n b s : batch_ok n b (effects s) → keeps n b s (b, s).
Proof. by split. Qed.

Lemma on_timer_keeps n b s :
  batch_ok n b (effects s) →
  keeps n b s (on_timer n b s) ∧ steps_left (on_timer n b s).1 ≤ steps_left b ∧
  (enabled b None = true → steps_left (on_timer n b s).1 < steps_left b).
Proof.
  intros [Hb (j & Hj & Hp)]. unfold on_timer, enabled, phase_ok in *.
  destruct (b_phase b) as [fl| | |ok fail|] eqn:Hph.
  - split; [|done]. apply keeps_refl. split; [done|]. exists j. unfold phase_ok. by rewrite Hph.
  - destruct Hp as [Hlt ->]. destruct (loop_head_keeps n (at_index (limit_index b) b) s) as [Hk Hm]; [done..|].
    cbn in Hm. unfold steps_left at 2 4. rewrite Hph. unfold limit_index in Hm, Hlt |- *.
    split; [|split; [|intros _]; lia]. destruct Hk as [H1 H2 H3 H4 H5 H6]. by split.
  - unfold steps_left at 2 4. rewrite Hph. cbn. split; [|by split; [|intros _]; cbn; lia].
    destruct s. split; try done. split; [done|]. exists j. done.
  - unfold steps_left at 2 4. rewrite Hph. cbn. split; [|by split; [|intros _]; cbn; lia].
    split; cbn; try done; [by destruct s..| |].
    + intros m Hm. by apply urls_emit.
    + apply ended_ok; [done|]. exists j. by rewrite urls_emit.
  - split; [|done]. apply keeps_refl. split; [done|]. exists j. unfold phase_ok. by rewrite Hph.
Qed.

Lemma keeps_finish n b t a now s o : keeps n b (finish_test t a now s) o → keeps n b s o.
Proof.
  destruct (finish_test_frame t a now s) as (Hb & Hs & _ & Hu). intros [H1 H2 H3 H4 H5 H6].
  split; try congruence. intros m Hm. by rewrite H5, Hu.
Qed.

Lemma on_reply_keeps n b k a now s :
  batch_ok n b (effects s) →
  keeps n b s (on_reply n b k a now s) ∧ steps_left (on_reply n b k a now s).1 ≤ steps_left b ∧
  (enabled b (Some k) = true → steps_left (on_reply n b k a now s).1 < steps_left b).
Proof.
  intros Hok. pose proof Hok as [Hb (j & Hj & Hp)]. unfold on_reply, enabled, phase_ok in *.
  destruct (b_phase b) as [fl| | |ok fail|] eqn:Hph; try (by split; [apply keeps_refl|]).
  destruct (fl !! k) as [t|] eqn:Ht.
  2: { split; [by apply keeps_refl|]. split; [done|]. intros Hlt%bool_decide_eq_true. apply lookup_ge_None in Ht; lia. }
  destruct Hp as (Hi & -> & Hne & Hsub & HF).
  assert (length fl = S (length (delete k fl))) as Hlen.
  { rewrite length_delete by done. apply lookup_lt_Some in Ht. lia. }
  destruct (finish_test_frame t a now s) as (_ & _ & _ & Hu).
  unfold steps_left at 2 4. rewrite Hph.
  destruct (delete k fl) as [|t' rest] eqn:Hd.
  - destruct (window_done_keeps n b (finish_test t a now s)) as [Hk Hm]; [done|by rewrite Hu|].
    split; [by eapply keeps_finish|]. split; [|intros _]; lia.
  - split; [|unfold steps_left; cbn in *; unfold limit_index in *; cbn; split; [|intros _]; lia].
    eapply keeps_finish. split; try done. cbn. split; [done|]. exists (limit_index b). rewrite Hu.
    split; [done|]. unfold phase_ok. cbn [at_phase b_phase]. rewrite <-Hd. split_and!; try done.
    + by rewrite Hd.
    + etrans; [|exact Hsub]. apply fmap_sublist, sublist_delete.
    + by apply Forall_delete.
Qed.

Record inv (s : state) : Prop := {
  inv_batches n b : batches s !! n = Some b → batch_ok n b (effects s);
  inv_later n : length (batches s) ≤ n → urls_of n (effects s) = [] }.

Lemma batch_ok_ext n b es es' : urls_of n es' = urls_of n es → batch_ok n b es → batch_ok n b es'.
Proof. intros E [H1 (j & H2 & H3)]. split; [done|]. exists j. by rewrite E. Qed.

Lemma inv_frame s s' :
  batches s' = batches s → (∀ m, urls_of m (effects s') = urls_of m (effects s)) → inv s → inv s'.
Proof.
  intros Hb Hu [H1 H2]. split; rewrite Hb; [|intros n; rewrite Hu; apply H2].
  intros n b Hn. eapply batch_ok_ext; [apply Hu|by apply H1].
Qed.

Lemma inv_on_batch n f s :
  inv s → (∀ b, batches s !! n = Some b → keeps n b s (f b s)) → inv (on_batch n f s).
Proof.
  intros [H1 H2] Hf. unfold on_batch. destruct (batches s !! n) as [b|] eqn:Hn; [|by split].
  destruct (Hf b eq_refl) as [Hb _ _ _ Ho Hok]. destruct (f b s) as [b' s'] eqn:E. cbn in *.
  assert (effects (setBatches (<[n := b']> (batches s')) s') = effects s') as Ee by by destruct s'.
  assert (batches (setBatches (<[n := b']> (batches s')) s') = <[n := b']> (batches s)) as Eb
    by (rewrite Hb; by destruct s').
  split; rewrite Ee, Eb.
  - intros m x Hm. destruct (decide (m = n)) as [->|Hne].
    + rewrite list_lookup_insert_eq in Hm by (by eapply lookup_lt_Some). by simplify_eq.
    + rewrite list_lookup_insert_ne in Hm by done. eapply batch_ok_ext; [by apply Ho|by apply H1].
  - rewrite length_insert. intros m Hm. apply lookup_lt_Some in Hn. rewrite Ho by lia. by apply H2.
Qed.

Lemma begin_single_frame t ep stream s :
  let o := begin_test None t ep stream s in
  batches o.2 = batches s ∧ ∀ m, urls_of m (effects o.2) = urls_of m (effects s).
Proof.
  unfold begin_test. destruct (skips t s); [done|]. cbn. split; [by destruct s|].
  intros m. rewrite urls_emit by done. by destruct s.
Qed.

Lemma testChannel_frame ch model ep stream s :
  batches (testChannel ch model ep stream s) = batches s ∧
  ∀ m, urls_of m (effects (testChannel ch model ep stream s)) = urls_of m (effects s).
Proof.
  unfold testChannel. destruct (begin_single_frame (Test ch model (isBatchTesting s)) ep stream s) as [H1 H2].
  destruct (begin_test _ _ _ _ s) as [[] s']; cbn in *; [|done]. destruct s'. cbn in *. done.
Qed.

(** The batch that the button starts, or nothing. *)
Lemma batchTestModels_cases s :
  (∃ m, batchTestModels s = emit (Show m) s) ∨
  ∃ ch found s1 b s2, found ≠ [] ∧ shouldStop s1 = false ∧ batches s1 = batches s ∧
    (∀ m, urls_of m (effects s1) = urls_of m (effects s)) ∧
    loop_head (length (batches s))
      (Batch ch found (selectedEndpointType (window s)) (isStreamTest (window s)) (isBatchTesting s) 0 Ended) s1
    = (b, s2) ∧
    batchTestModels s = setBatches (batches s2 ++ [b]) s2.
Proof.
  unfold batchTestModels. destruct (currentTestChannel (window s)) as [[i nm [ms|]]|]; [|by left; eexists..].
  destruct ms as [|c ms]; [by left; eexists|].
  destruct (matching_models _ (String c ms)) as [|m found]; [by left; eexists|].
  right. set (ch := TestChannel i nm (Some (String c ms))). set (s1 := emit (Show (Started _)) _).
  destruct (loop_head _ _ s1) as [b s2] eqn:E. exists ch, (m :: found), s1, b, s2. split_and!; try done.
  - by destruct s.
  - by destruct s.
  - intros x. unfold s1. rewrite urls_emit by done. by destruct s.
Qed.

(** The click starts a batch at the end of the list. *)
Lemma batch_click s : inv s → isBatchTesting s = false →
  inv (batchTestModels s) ∧
  ∀ n b, batches s !! n = Some b → batches (batchTestModels s) !! n = Some b.
Proof.
  intros [H1 H2] Hnot.
  destruct (batchTestModels_cases s) as [[m ->]|(ch & found & s1 & b & s2 & Hf & Hst & Hb1 & Hu1 & E & ->)].
  { split; [|by destruct s]. apply (inv_frame s); [by destruct s|intros; by apply urls_emit|done]. }
  match type of E with loop_head ?n ?b0 _ = _ => destruct (loop_head_keeps n b0 s1) as [[K1 _ _ _ K5 K6] _] end.
  { exact Hnot. } { by rewrite Hu1, H2. } rewrite E in K1, K5, K6. cbn in *.
  assert (effects (setBatches (batches s2 ++ [b]) s2) = effects s2) as Ee by by destruct s2.
  assert (batches (setBatches (batches s2 ++ [b]) s2) = batches s ++ [b]) as Eb
    by (rewrite K1, Hb1; by destruct s2).
  split; [split|]; rewrite ?Ee, Eb.
  - intros n x [Hx|[Hn Hx]]%lookup_app_Some.
    + eapply batch_ok_ext; [|by apply H1]. rewrite K5, Hu1; [done|]. apply lookup_lt_Some in Hx. lia.
    + apply list_lookup_singleton_Some in Hx as [? <-]. by replace n with (length (batches s)) by lia.
  - rewrite length_app. cbn. intros n Hn. rewrite K5, Hu1 by lia. apply H2. lia.
  - intros n x Hx. by apply lookup_app_l_Some.
Qed.

Lemma single_reply_frame k a now s :
  batches (step s (SingleReply k a now)) = batches s ∧
  ∀ m, urls_of m (effects (step s (SingleReply k a now))) = urls_of m (effects s).
Proof.
  cbn. destruct (singles s !! k) as [t|]; [|done].
  destruct (finish_test_frame t a now (setSingles (delete k (singles s)) s)) as (-> & _ & _ & Hu).
  split; [by destruct s|]. intros m. rewrite Hu. by destruct s.
Qed.

Lemma close_frame s :
  batches (handleCloseModal s) = batches s ∧
  ∀ m, urls_of m (effects (handleCloseModal s)) = urls_of m (effects s).
Proof.
  unfold handleCloseModal. destruct (isBatchTesting s); (split; [by destruct s|]); intros m; [|by destruct s].
  transitivity (urls_of m (effects (emit (Show ClosedAndStopped) (setStop true s)))); [by destruct s|].
  rewrite urls_emit by done. by destruct s.
Qed.

Lemma stop_frame s :
  batches (stopBatchTesting s) = batches s ∧
  ∀ m, urls_of m (effects (stopBatchTesting s)) = urls_of m (effects s).
Proof.
  split; [by destruct s|]. intros m. unfold stopBatchTesting. rewrite urls_emit by done. by destruct s.
Qed.

Lemma clear_frame s :
  batches (clearTestResults s) = batches s ∧
  ∀ m, urls_of m (effects (clearTestResults s)) = urls_of m (effects s).
Proof.
  split; [by destruct s|]. intros m. unfold clearTestResults. rewrite urls_emit by done. by destruct s.
Qed.

(** The event a batch makes a step by. *)
Definition own (n : nat) (b : batch) (e : event) : bool :=
  match e with
  | BatchReply m k _ _ => bool_decide (m = n) && enabled b (Some k)
  | BatchTimer m => bool_decide (m = n) && enabled b None
  | _ => false
  end.

(** The events that are steps of batches. *)
Definition batch_step (e : event) : option (nat * (batch → state → batch * state)) :=
  match e with
  | BatchReply n k a now => Some (n, λ b, on_reply n b k a now)
  | BatchTimer n => Some (n, on_timer n)
  | _ => None
  end.

Lemma batch_step_keeps e n f s b : batch_step e = Some (n, f) → batch_ok n b (effects s) →
  step s e = on_batch n f s ∧ keeps n b s (f b s) ∧ steps_left (f b s).1 ≤ steps_left b ∧
  (own n b e = true → steps_left (f b s).1 < steps_left b) ∧ ∀ m x, m ≠ n → own m x e = false.
Proof.
  intros E Hok. destruct e as [| | | | | |m k a now|m|]; try done; cbn in E; simplify_eq.
  - destruct (on_reply_keeps n b k a now s Hok) as (H1 & H2 & H3). cbn. rewrite bool_decide_true by done.
    split_and!; try done. intros m x Hm. by rewrite bool_decide_false.
  - destruct (on_timer_keeps n b s Hok) as (H1 & H2 & H3). cbn. rewrite bool_decide_true by done.
    split_and!; try done. intros m x Hm. by rewrite bool_decide_false.
Qed.

(** One step: the invariant is kept, and a batch keeps its models and has
    fewer steps left when the event is its own. *)
Lemma step_inv s e : inv s → inv (step s e).
Proof.
  intros Hi. destruct (batch_step e) as [[n f]|] eqn:E.
  - assert (step s e = on_batch n f s) as -> by (by destruct e; cbn in E; simplify_eq).
    apply inv_on_batch; [done|]. intros b Hb. eapply batch_step_keeps; [done|]. by apply inv_batches.
  - destruct e; try done.
    + cbn. destruct (isBatchTesting s) eqn:Hb; [done|]. by apply batch_click.
    + destruct (testChannel_frame ch model endpointType stream s). by eapply inv_frame.
    + eapply inv_frame; [..|done]; by destruct s.
    + destruct (stop_frame s). by eapply inv_frame.
    + destruct (clear_frame s). by eapply inv_frame.
    + destruct (close_frame s). by eapply inv_frame.
    + destruct (single_reply_frame k a now s). by eapply inv_frame.
Qed.

Lemma other_batches s e : inv s → batch_step e = None →
  ∀ n b, batches s !! n = Some b → batches (step s e) !! n = Some b.
Proof.
  intros Hi E n b Hb. destruct e; try done.
  - cbn. destruct (isBatchTesting s) eqn:Hnot; [done|]. by apply batch_click.
  - cbn. by rewrite (proj1 (testChannel_frame _ _ _ _ _)).
  - by destruct s.
  - cbn. by rewrite (proj1 (stop_frame _)).
  - cbn. by rewrite (proj1 (clear_frame _)).
  - cbn. by rewrite (proj1 (close_frame _)).
  - by rewrite (proj1 (single_reply_frame _ _ _ _)).
Qed.

Lemma step_batch s e n b : inv s → batches s !! n = Some b →
  ∃ b', batches (step s e) !! n = Some b' ∧ b_models b' = b_models b ∧ b_channel b' = b_channel b ∧
    steps_left b' + (if own n b e then 1 else 0) ≤ steps_left b.
Proof.
  intros Hi Hb. destruct (batch_step e) as [[m f]|] eqn:E.
  - destruct (decide (m = n)) as [->|Hne].
    + destruct (batch_step_keeps e n f s b E) as (-> & Hk & Hle & Hlt & _); [by apply inv_batches|].
      unfold on_batch. rewrite Hb. destruct (f b s) as [b' s'] eqn:Ef. destruct Hk as [K1 _ K3 K4 _ _]. cbn in *.
      exists b'. split_and!; [|done..|].
      * rewrite K1. transitivity (<[n := b']> (batches s) !! n); [by destruct s'|].
        apply list_lookup_insert_eq. by eapply lookup_lt_Some.
      * destruct (own n b e); [specialize (Hlt eq_refl)|]; lia.
    + exists b. destruct (batches s !! m) as [x|] eqn:Hx.
      * destruct (batch_step_keeps e m f s x E) as (-> & [K1 _ _ _ _ _] & _ & _ & Ho); [by apply inv_batches|].
        rewrite Ho by done. split_and!; [|done..|lia]. unfold on_batch. rewrite Hx.
        destruct (f x s) as [x' s'] eqn:Ef. cbn in *. rewrite K1.
        transitivity (<[m := x']> (batches s) !! n); [by destruct s'|]. by rewrite list_lookup_insert_ne.
      * assert (step s e = on_batch m f s) as -> by (by destruct e; cbn in E; simplify_eq).
        unfold on_batch. rewrite Hx. split_and!; [done..|].
        assert (own n b e = false) as -> by (by destruct e; cbn in E; simplify_eq; cbn; rewrite bool_decide_false).
        lia.
  - exists b. split_and!; [by apply other_batches|done..|]. destruct e; try done; cbn; lia.
Qed.

Lemma run_inv evs : inv (run start evs).
Proof.
  assert (inv start) as H0 by by split. revert H0. generalize start.
  induction evs as [|e evs IH]; intros s Hs; [done|]. cbn. by apply IH, step_inv.
Qed.

(** C36.  Under every interleaving of clicks, answers and timers, each batch
    has requested a prefix of its models, each of them once and in order; it
    waits for at most five requests, all of the current window; and when it
    comes to its statistics all its models have been requested. *)
Theorem batch_window (evs : list event) (n : nat) (b : batch) :
  batches (run start evs) !! n = Some b →
  ∃ j, urls_of n (effects (run start evs)) = model_url b <$> take j (b_models b) ∧
    match b_phase b with
    | Testing flight =>
        1 ≤ length flight ≤ 5 ∧ j = b_index b + 5 ∧
        (t_model <$> flight) `sublist_of` take 5 (drop (b_index b) (b_models b))
    | Settling | Reporting _ _ => length (b_models b) ≤ j
    | Pausing | Ended => True
    end.
Proof.
  intros Hb. destruct (inv_batches _ (run_inv evs) _ _ Hb) as [_ (j & Hj & Hp)]. exists j. split; [done|].
  unfold phase_ok in Hp. destruct (b_phase b) as [fl| | | |]; try done.
  destruct Hp as (_ & -> & Hne & Hsub & _). split; [|done].
  pose proof (sublist_length _ _ Hsub) as Hl. rewrite length_fmap, length_slice in Hl.
  unfold concurrencyLimit in Hl. destruct fl; [done|]. cbn [length] in *. lia.
Qed.

(** How many of the events are steps of batch [n]. *)
Fixpoint own_steps (n : nat) (s : state) (evs : list event) : nat :=
  match evs with
  | [] => 0
  | e :: evs =>
      (if from_option (λ b, own n b e) false (batches s !! n) then 1 else 0) + own_steps n (step s e) evs
  end.

Lemma run_batch evs n s b : inv s → batches s !! n = Some b →
  ∃ b', batches (run s evs) !! n = Some b' ∧ b_models b' = b_models b ∧
    steps_left b' + own_steps n s evs ≤ steps_left b.
Proof.
  revert s b. induction evs as [|e evs IH]; intros s b Hi Hb; cbn.
  - exists b. split_and!; [done..|lia].
  - destruct (step_batch s e n b Hi Hb) as (b1 & Hb1 & Hm1 & _ & Hle).
    destruct (IH (step s e) b1) as (b2 & Hb2 & Hm2 & Hle2); [by apply step_inv|done|].
    exists b2. rewrite Hb. cbn. split_and!; [done|congruence|lia].
Qed.

Lemma steps_bound n b es : batch_ok n b es → steps_left b ≤ 2 * length (b_models b) + 4.
Proof.
  intros [_ (j & _ & Hp)]. unfold phase_ok, steps_left in *. destruct (b_phase b) as [fl| | | |]; try lia.
  destruct Hp as (Hi & _ & _ & Hsub & _). pose proof (sublist_length _ _ Hsub) as Hl.
  rewrite length_fmap, length_slice in Hl. unfold limit_index, concurrencyLimit in *. lia.
Qed.

(** C40.  A batch ends: while it has not ended one of its requests or its
    timer is under way, and whatever else happens it makes at most
    [2 * models + 4] steps from any moment on. *)
Theorem batch_ends (evs later : list event) (n : nat) (b : batch) :
  batches (run start evs) !! n = Some b →
  (b_phase b = Ended ∨ ∃ k, enabled b k = true) ∧
  own_steps n (run start evs) later ≤ 2 * length (b_models b) + 4.
Proof.
  intros Hb. pose proof (inv_batches _ (run_inv evs) _ _ Hb) as Hok.
  pose proof (steps_bound _ _ _ Hok) as Hsb.
  destruct (run_batch later n _ b (run_inv evs) Hb) as (b' & Hb' & _ & Hle).
  split; [|lia]. destruct Hok as [_ (j & _ & Hp)]. unfold phase_ok, enabled in *.
  destruct (b_phase b) as [fl| | | |]; [right; exists (Some 0)|right; by exists None..|by left].
  destruct Hp as (_ & _ & Hne & _). apply bool_decide_eq_true. destruct fl; [done|cbn; lia].
Qed.

Definition two_models : modal :=
  Modal true (Some (TestChannel 7 "c" (Some "a,b"))) "" [] (num_of_Z 1) "" false.
Definition passed : reply := Reply true (VStr "") (num_of_Z 1).

(** A batch of two models after the first answer. *)
Definition half_done : list event := [WindowChange two_models; BatchClick; BatchReply 0 0 passed 1].

Lemma batch_window_witness :
  let b := Batch (TestChannel 7 "c" (Some "a,b")) ["a"; "b"] "" false false 0
             (Testing [Test (TestChannel 7 "c" (Some "a,b")) "b" false]) in
  batches (run start half_done) !! 0 = Some b ∧
  ∃ j, urls_of 0 (effects (run start half_done)) = model_url b <$> take j (b_models b) ∧
    1 ≤ 1 ≤ 5 ∧ j = 0 + 5 ∧ ["b"] `sublist_of` take 5 (drop 0 (b_models b)).
Proof.
  intros b. split; [vm_compute; reflexivity|].
  apply (batch_window half_done 0 b). vm_compute. reflexivity.
Defined.

Lemma batch_ends_witness :
  own_steps 0 (run start half_done) [BatchReply 0 0 passed 2; BatchTimer 0; BatchTimer 0] = 3 ∧ 3 ≤ 8.
Proof.
  split; [vm_compute; reflexivity|].
  exact (proj2 (batch_ends half_done [BatchReply 0 0 passed 2; BatchTimer 0; BatchTimer 0] 0
    (Batch (TestChannel 7 "c" (Some "a,b")) ["a"; "b"] "" false false 0
             (Testing [Test (TestChannel 7 "c" (Some "a,b")) "b" false])) ltac:(vm_compute; reflexivity))).
Defined.

(** ** The report of a batch that is not stopped *)

(** No click that stops, restarts or clears. *)
Definition undisturbed (e : event) : bool :=
  match e with BatchClick | StopClick | ClearClick | CloseClick => false | _ => true end.

Definition covered (b : batch) : nat :=
  match b_phase b with Testing _ | Pausing => limit_index b | _ => length (b_models b) end.
Definition waiting (b : batch) : list string :=
  match b_phase b with Testing flight => t_model <$> flight | _ => [] end.

Definition has_result (b : batch) (s : state) (m : string) : Prop :=
  is_Some (obj_get (modelTestResults s) (testKey (b_channel b) m)).

(** Every requested model is waited for or has a result. *)
Definition answered (b : batch) (s : state) : Prop :=
  ∀ m, m ∈ take (covered b) (b_models b) → m ∈ waiting b ∨ has_result b s m.

Lemma loop_head_results n b s : b_inBatch b = false →
  modelTestResults (loop_head n b s).2 = modelTestResults s.
Proof.
  intros Hb. unfold loop_head, after_loop. case_decide; destruct (shouldStop s) eqn:Hs.
  - destruct s. cbn in *. by subst.
  - set (s1 := emit _ s). destruct (begin_tests_spec n b (batch_slice b) s1 Hb) as (_ & _ & _ & Hr & _).
    destruct (begin_tests n b (batch_slice b) s1). cbn [fst snd] in *. rewrite Hr. by destruct s.
  - by destruct s.
  - done.
Qed.

Lemma window_done_results n b s : b_inBatch b = false →
  modelTestResults (window_done n b s).2 = modelTestResults s.
Proof.
  intros Hb. unfold window_done. destruct (shouldStop s) eqn:Hs.
  - destruct s. cbn in *. by subst.
  - case_decide; [done|]. by apply loop_head_results.
Qed.

Lemma loop_head_answered n b s :
  b_inBatch b = false → shouldStop s = false →
  (∀ m, m ∈ take (b_index b) (b_models b) → has_result b s m) →
  answered (loop_head n b s).1 (loop_head n b s).2.
Proof.
  intros Hb Hs Hm. pose proof (loop_head_results n b s Hb) as E. revert E.
  unfold loop_head, after_loop. rewrite Hs. case_decide as Hlt; cbn [fst snd].
  - set (s1 := emit _ s).
    destruct (begin_tests_spec n b (batch_slice b) s1 Hb) as (Ht & _).
    destruct (begin_tests n b (batch_slice b) s1) as [ts s2]. cbn [fst snd] in *. subst ts.
    intros E m Hin. unfold covered, waiting, has_result, limit_index in *. cbn in Hin |- *. rewrite E.
    change (b_index b + 5) with (b_index b + concurrencyLimit) in Hin.
    rewrite <-take_take_drop in Hin. apply elem_of_app in Hin as [Hin|Hin]; [right; by apply Hm|left].
    by rewrite <-list_fmap_compose, list_fmap_id.
  - intros _ m Hin. right. apply Hm. unfold covered in Hin. cbn in Hin.
    rewrite take_ge in Hin by lia. by rewrite take_ge by lia.
Qed.

Lemma finish_test_results t a now s :
  (∀ k, is_Some (obj_get (modelTestResults s) k) → is_Some (obj_get (modelTestResults (finish_test t a now s)) k)) ∧
  (inBatch t = false →
   is_Some (obj_get (modelTestResults (finish_test t a now s)) (testKey (t_channel t) (t_model t)))).
Proof.
  assert (∀ k r, is_Some (obj_get (modelTestResults s) k) →
    is_Some (obj_get (modelTestResults (record_result t r s)) k)) as Hmono.
  { intros k r H. unfold record_result. destruct s. cbn in *. rewrite obj_get_define. by case_decide. }
  assert (∀ r, is_Some (obj_get (modelTestResults (record_result t r s)) (testKey (t_channel t) (t_model t)))) as Hown.
  { intros r. unfold record_result. destruct s. cbn. by rewrite obj_get_define_eq. }
  unfold finish_test, skips. destruct a as [e|ok m tm].
  - set (r := Result _ _ _ _). specialize (Hown r). specialize (λ k, Hmono k r).
    by destruct (record_result t r s).
  - destruct (shouldStop s && inBatch t) eqn:E.
    + split; [by destruct s|]. intros Hi. by rewrite Hi, andb_false_r in E.
    + set (r := Result _ _ _ _). specialize (Hown r). specialize (λ k, Hmono k r).
      destruct (record_result t r s), ok; done.
Qed.

Lemma window_done_answered n b s :
  b_inBatch b = false → shouldStop s = false →
  (∀ m, m ∈ take (limit_index b) (b_models b) → has_result b s m) →
  answered (window_done n b s).1 (window_done n b s).2.
Proof.
  intros Hb Hs Hm. unfold window_done. rewrite Hs. case_decide as Hd.
  - intros m Hin. right. by apply Hm.
  - by apply (loop_head_answered n (at_index (limit_index b) b)).
Qed.

(** A step of batch [n] keeps results. *)
Lemma batch_step_results e n f s b :
  batch_step e = Some (n, f) → b_inBatch b = false →
  ∀ k, is_Some (obj_get (modelTestResults s) k) → is_Some (obj_get (modelTestResults (f b s).2) k).
Proof.
  intros E Hb key Hk. destruct e as [| | | | | |m k a now|m|]; try done; cbn in E; simplify_eq.
  - unfold on_reply. destruct (b_phase b) as [fl| | | |]; try done. destruct (fl !! k) as [t|]; [|done].
    destruct (finish_test_results t a now s) as [Hmono _].
    destruct (delete k fl); [rewrite window_done_results by done|]; by apply Hmono.
  - unfold on_timer. destruct (b_phase b) as [fl| | | |]; try done; [by rewrite loop_head_results|..];
      by destruct s.
Qed.

(** The answer to a request leaves the others waiting. *)
Lemma reply_answered b fl k t a now s m :
  b_phase b = Testing fl → fl !! k = Some t → t_channel t = b_channel b → inBatch t = false →
  m ∈ waiting b ∨ has_result b s m →
  m ∈ t_model <$> delete k fl ∨ has_result b (finish_test t a now s) m.
Proof.
  intros Hph Ht Hch Hin Hm. destruct (finish_test_results t a now s) as [Hmono Hown].
  destruct Hm as [Hm|Hm]; [|right; by apply Hmono].
  unfold waiting in Hm. rewrite Hph in Hm. rewrite (delete_Permutation _ _ _ Ht) in Hm.
  apply elem_of_cons in Hm as [->|Hm]; [right|by left]. unfold has_result. rewrite <-Hch. by apply Hown.
Qed.

Lemma batch_step_answered e n f s b :
  batch_step e = Some (n, f) → batch_ok n b (effects s) → shouldStop s = false →
  answered b s → answered (f b s).1 (f b s).2.
Proof.
  intros E [Hb (j & _ & Hp)] Hs Ha. destruct e as [| | | | | |m k a now|m|]; try done; cbn in E; simplify_eq.
  - unfold on_reply. destruct (b_phase b) as [fl| | | |] eqn:Hph; try done.
    destruct (fl !! k) as [t|] eqn:Ht; [|done]. unfold phase_ok in Hp. rewrite Hph in Hp.
    destruct Hp as (_ & _ & _ & _ & HF). destruct (Forall_lookup_1 _ _ _ _ HF Ht) as [Hch Hin].
    assert (covered b = limit_index b) as Hc by (unfold covered; by rewrite Hph).
    pose proof (λ m Hm, reply_answered b fl k t a now s m Hph Ht Hch Hin (Ha m Hm)) as Hr. rewrite Hc in Hr.
    destruct (finish_test_frame t a now s) as (_ & Hst & _).
    destruct (delete k fl) as [|t' rest]; [|exact Hr].
    apply window_done_answered; [done|by rewrite Hst|]. intros m Hm.
    destruct (Hr m Hm) as [H|]; [|done]. by apply not_elem_of_nil in H.
  - unfold on_timer. destruct (b_phase b) as [fl| | |ok fail|] eqn:Hph; try done.
    + apply (loop_head_answered n (at_index (limit_index b) b)); [done..|]. intros m Hm.
      unfold answered, covered, waiting in Ha. rewrite Hph in Ha.
      destruct (Ha m Hm) as [H|]; [|done]. by apply not_elem_of_nil in H.
    + unfold answered, covered, waiting in Ha. rewrite Hph in Ha. destruct s. cbn in *. exact Ha.
    + unfold answered, covered, waiting in Ha. rewrite Hph in Ha. destruct s. cbn in *. exact Ha.
Qed.

(** Batch [n] is not stopped and all its requests are answered or waited for. *)
Definition tracked (n : nat) (s : state) : Prop :=
  inv s ∧ shouldStop s = false ∧ ∃ b, batches s !! n = Some b ∧ answered b s.

Lemma undisturbed_frame s e : undisturbed e = true → batch_step e = None →
  batches (step s e) = batches s ∧ shouldStop (step s e) = shouldStop s ∧
  ∀ k, is_Some (obj_get (modelTestResults s) k) → is_Some (obj_get (modelTestResults (step s e)) k).
Proof.
  intros Hu E. destruct e; try done.
  - cbn. unfold testChannel, begin_test. destruct (skips _ s); [done|]. by destruct s.
  - by destruct s.
  - cbn. destruct (singles s !! k) as [t|]; [|done]. set (s1 := setSingles _ s).
    destruct (finish_test_frame t a now s1) as (-> & -> & _). destruct (finish_test_results t a now s1) as [Hm _].
    split_and!; [by destruct s..|]. intros key Hk. apply Hm. by destruct s.
Qed.

Lemma tracked_step n s e : undisturbed e = true → tracked n s → tracked n (step s e).
Proof.
  intros Hu (Hi & Hs & b & Hb & Ha). split; [by apply step_inv|].
  destruct (batch_step e) as [[m f]|] eqn:E.
  2: { destruct (undisturbed_frame s e Hu E) as (-> & -> & Hm). split; [done|]. exists b. split; [done|].
       intros x Hx. destruct (Ha x Hx) as [?|?]; [by left|right; by apply Hm]. }
  assert (step s e = on_batch m f s) as -> by (by destruct e; cbn in E; simplify_eq).
  unfold on_batch. destruct (batches s !! m) as [x|] eqn:Hx; [|by eauto].
  pose proof (inv_batches _ Hi _ _ Hx) as Hok.
  destruct (batch_step_keeps e m f s x E Hok) as (_ & [K1 K2 _ _ _ _] & _).
  pose proof (batch_step_results e m f s x E (bo_inBatch _ _ _ Hok)) as Hr.
  pose proof (batch_step_answered e m f s x E Hok Hs) as Han.
  destruct (f x s) as [x' s'] eqn:Ef. cbn [fst snd] in *. rewrite K1.
  set (s2 := setBatches _ s'). assert (shouldStop s2 = shouldStop s') as E1 by by destruct s'.
  assert (batches s2 = <[m := x']> (batches s)) as E2 by by destruct s'.
  assert (∀ y, answered y s' → answered y s2) as E3 by (subst s2; intros y Hy; by destruct s').
  rewrite E1, E2, K2. split; [done|]. destruct (decide (m = n)) as [->|Hne].
  - simplify_eq. exists x'. rewrite list_lookup_insert_eq by (by eapply lookup_lt_Some). split; [done|].
    by apply E3, Han.
  - exists b. rewrite list_lookup_insert_ne by done. split; [done|]. apply E3.
    intros y Hy. destruct (Ha y Hy) as [?|?]; [by left|right; by apply Hr].
Qed.

Lemma tracked_run n evs s : Forall (λ e, undisturbed e = true) evs → tracked n s → tracked n (run s evs).
Proof.
  intros HF. revert s. induction HF as [|e evs He _ IH]; intros s Hs; [done|]. by apply IH, tracked_step.
Qed.

Lemma batches_stay evs s : Forall (λ e, undisturbed e = true) evs → inv s →
  length (batches (run s evs)) = length (batches s).
Proof.
  intros HF. revert s. induction HF as [|e evs He _ IH]; intros s Hi; [done|].
  etrans; [by apply IH, step_inv|]. destruct (batch_step e) as [[m f]|] eqn:E.
  2: { by destruct (undisturbed_frame s e He E) as (-> & _). }
  assert (step s e = on_batch m f s) as -> by (by destruct e; cbn in E; simplify_eq).
  unfold on_batch. destruct (batches s !! m) as [x|] eqn:Hx; [|done].
  destruct (batch_step_keeps e m f s x E) as (_ & [K1 _ _ _ _ _] & _); [by apply inv_batches|].
  destruct (f x s) as [x' s']. cbn [fst snd] in *. rewrite K1.
  transitivity (length (<[m := x']> (batches s))); [by destruct s'|apply length_insert].
Qed.

Lemma count_split {A} (p : A → bool) l :
  length (filter (λ x, p x = true) l) + length (filter (λ x, p x = false) l) = length l.
Proof.
  induction l as [|x l IH]; [done|]. rewrite !filter_cons.
  destruct (p x); repeat case_decide; try done; cbn [length]; rewrite <-IH; lia.
Qed.

(** A click starts a tracked batch. *)
Lemma click_tracked s b : inv s → isBatchTesting s = false →
  batches (step s BatchClick) !! length (batches s) = Some b → tracked (length (batches s)) (step s BatchClick).
Proof.
  intros Hi Hnot Hb. split; [by apply step_inv|]. revert Hb. cbn. rewrite Hnot.
  destruct (batchTestModels_cases s) as [[m ->]|(ch & found & s1 & b' & s2 & Hf & Hst & Hb1 & Hu1 & E & ->)].
  { intros Hb%lookup_lt_Some. destruct s. cbn in Hb. lia. }
  intros _. match type of E with loop_head ?n ?b0 _ = _ =>
    destruct (loop_head_keeps n b0 s1) as [[K1 K2 _ _ _ _] _]; [done|by rewrite Hu1, inv_later by done|];
    pose proof (loop_head_answered n b0 s1 Hnot Hst) as Han end.
  rewrite E in K1, K2, Han. cbn [fst snd] in *. set (s3 := setBatches _ s2).
  assert (shouldStop s3 = shouldStop s2 ∧ batches s3 = batches s2 ++ [b']) as [-> ->] by by destruct s2.
  split; [by rewrite K2|]. exists b'. rewrite K1, Hb1. split; [by apply list_lookup_middle|].
  assert (answered b' s2) as Ha; [|by destruct s2]. apply Han. intros m Hm. by apply not_elem_of_nil in Hm.
Qed.

(** When a batch that was neither stopped nor disturbed by a restart or
    by clearing comes to its report, every model has the result of an
    answer: none is counted as failed for want of one, and the numbers add
    up to the number of models. *)
Theorem report_complete (evs later : list event) (b : batch) :
  let s0 := run start evs in
  let n := length (batches s0) in
  let s := run s0 (BatchClick :: later) in
  isBatchTesting s0 = false → Forall (λ e, undisturbed e = true) later →
  batches s !! n = Some b → b_phase b = Settling →
  let '(ok, fail) := statistics b s in
  b_phase <$> batches (step s (BatchTimer n)) !! n = Some (Reporting ok fail) ∧
  ok + fail = length (b_models b) ∧ ∀ m, m ∈ b_models b → has_result b s m.
Proof.
  intros s0 n s Hnot HF Hb Hph.
  assert (tracked n s) as (Hi & _ & b' & Hb' & Ha).
  { apply (tracked_run n later (step s0 BatchClick)); [done|].
    assert (∃ b1, batches (step s0 BatchClick) !! n = Some b1) as [b1 Hb1].
    { apply lookup_lt_is_Some. rewrite <-(batches_stay later); [by eapply lookup_lt_Some|done|].
      apply step_inv, run_inv. }
    by eapply click_tracked; [apply run_inv|..]. }
  assert (b' = b) as -> by congruence.
  destruct (statistics b s) as [ok fail] eqn:Est. split_and!.
  - change (step s (BatchTimer n)) with (on_batch n (on_timer n) s).
    unfold on_batch. rewrite Hb. unfold on_timer. rewrite Hph, Est.
    assert (n < length (batches s)) by by eapply lookup_lt_Some. clearbody s. destruct s. cbn in *.
    by rewrite list_lookup_insert_eq.
  - unfold statistics in Est. injection Est as <- <-. apply count_split.
  - intros m Hm. unfold answered, covered, waiting in Ha. rewrite Hph, take_ge in Ha by done.
    destruct (Ha m Hm) as [H|]; [by apply not_elem_of_nil in H|done].
Qed.

Lemma report_complete_witness :
  let s := run start (half_done ++ [BatchReply 0 0 (Failed (VStr "x")) 2]) in
  b_phase <$> batches (step s (BatchTimer 0)) !! 0 = Some (Reporting 1 1).
Proof.
  intros s.
  apply (report_complete [WindowChange two_models] [BatchReply 0 0 passed 1; BatchReply 0 0 (Failed (VStr "x")) 2]
    (Batch (TestChannel 7 "c" (Some "a,b")) ["a"; "b"] "" false false 5 Settling)).
  - reflexivity.
  - by repeat constructor.
  - vm_compute. reflexivity.
  - reflexivity.
Defined.

(** ** Stopping *)

(** The handler of a batch was made before [isBatchTesting] was set, so its
    tests never see the stop: an answer that arrives after it is recorded. *)
Lemma stop_not_seen :
  let s := run start [WindowChange two_models; BatchClick; CloseClick; BatchReply 0 0 passed 1] in
  shouldStop s = true ∧ test_passed (Batch (TestChannel 7 "c" None) [] "" false false 0 Ended) s "a" = true.
Proof. vm_compute. done. Qed.

Definition seven_models : modal :=
  Modal true (Some (TestChannel 7 "c" (Some "a,b,c,d,e,f,g"))) "" [] (num_of_Z 1) "" false.

Definition in_flight (b : batch) : nat := length (waiting b).

(** A restart clears the stop flag of the first batch as well: both go on,
    with ten requests under way. *)
Lemma restart_resumes :
  let answers n := [BatchReply n 0 passed 1; BatchReply n 0 passed 1; BatchReply n 0 passed 1;
                    BatchReply n 0 passed 1; BatchReply n 0 passed 1] in
  let restart := [WindowChange seven_models; BatchClick; CloseClick; WindowChange seven_models; BatchClick] in
  sum_list (in_flight <$> batches (run start restart)) = 10 ∧
  in_flight <$> batches (run start (restart ++ answers 0 ++ [BatchTimer 0])) = [2; 5].
Proof. vm_compute. done. Qed.
