(* ===== verification/ApiClient.v ===== *)
(** * The HTTP client

    [web/src/helpers/api.js], with [showError] and the user id of
    [helpers/utils.jsx]: the axios instances and their replacement by
    [updateAPI], the sharing of identical GET requests that are in flight,
    the global error handler, the payloads of the playground, the start of
    the OAuth logins and the cache of channel models.

    [API] is a variable that holds the current instance.  A GET returns a
    promise, here the number of a request; several calls may hold the same
    one.  axios and the service are the environment: requests are settled by
    events, in any order. *)
From Stdlib Require Import Ascii SpecFloat.
From S2P Require Import Prelude JsString JsNumber JsValue Json.

(** ** Errors *)

Inductive notice :=
| ToastError (text : string)
| ToastInfo (text : string)
| RemoveItem (key : string)
| Redirect (href : string).

Definition is_num (z : Z) (v : jsval) : bool :=
  match v with VNum n => num_eqb n (num_of_Z z) | _ => false end.

Definition showError (error : jsval) : res (list notice) :=
  message ← prop error "message";
  let toast v := text ← to_str v; Ok [ToastError ("错误：" +:+ text)] in
  if truthy message then
    if is_str "AxiosError" (prop_opt error "name") then
      status ← prop (prop_opt error "response") "status";
      if is_num 401 status then Ok [RemoveItem "user"; Redirect "/login?expired=true"]
      else if is_num 429 status then Ok [ToastError "错误：请求次数过多，请稍后再试！"]
      else if is_num 500 status then Ok [ToastError "错误：服务器内部错误，请联系管理员！"]
      else if is_num 405 status then Ok [ToastInfo "本站仅作演示之用，无服务端！"]
      else toast message
    else toast message
  else toast error.

(** The error handler of the first instance: what is shown, and the error the
    promise is rejected with. *)
Definition response_error (error : jsval) : list notice * jsval :=
  if truthy (prop_opt (prop_opt error "config") "skipErrorHandler") then ([], error)
  else match showError error with
       | Ok ns => (ns, error)
       | Throw m => ([], VObj [("name", VStr "TypeError"); ("message", VStr m)])
       end.

Definition getUserIdFromLocalStorage (user : option string) : res jsval :=
  match user with
  | None | Some "" => Ok (VNum (num_of_Z (-1)))
  | Some user => match json_parse user with
                 | None => Throw "Unexpected token in JSON"
                 | Some user => prop user "id"
                 end
  end.

(** ** Instances *)

Record axios_instance := Instance {
  userHeader : jsval;              (** the [New-API-User] header *)
  intercepts : bool;               (** the error handler is installed *)
  inFlightGetRequests : gmap string nat }.

(** A request on the network; its number is its position in [requests].
    [r_key] is the key it is shared under, if it is. *)
Record request := Request {
  r_inst : nat; r_url : string; r_config : jsval; r_key : option string; settled : bool }.

(** A call of [API.get] and the promise it got. *)
Record call := Call { c_inst : nat; c_url : string; c_config : jsval; c_promise : nat }.

Record client := Client {
  instances : list axios_instance; API : nat; requests : list request; calls : list call }.

(** The key of a call with a [config] object, or none ([undefined]); no caller
    passes [null], of which [config.params] would throw. *)
Definition genKey (url : string) (config : jsval) : string :=
  let params := if truthy (prop_opt config "params")
                then stringify (prop_opt config "params") else "{}" in
  url +:+ "?" +:+ params.

Definition set_flight (m : gmap string nat) (i : axios_instance) : axios_instance :=
  Instance (userHeader i) (intercepts i) m.

(** [originalGet]: a new request of instance [i]. *)
Definition originalGet (i : nat) (url : string) (config : jsval) (key : option string) (c : client)
    : nat * client :=
  (length (requests c),
   Client (instances c) (API c) (requests c ++ [Request i url config key false]) (calls c)).

(** The [get] that [patchAPIInstance] installs. *)
Definition patched_get (i : nat) (inst : axios_instance) (url : string) (config : jsval) (c : client)
    : nat * client :=
  if truthy (prop_opt config "disableDuplicate") then originalGet i url config None c
  else
    let key := genKey url config in
    match inFlightGetRequests inst !! key with
    | Some p => (p, c)
    | None =>
        let '(p, c) := originalGet i url config (Some key) c in
        (p, Client (<[i := set_flight (<[key := p]> (inFlightGetRequests inst)) inst]> (instances c))
              (API c) (requests c) (calls c))
    end.

(** [API.get(url, config)]. *)
Definition api_get (url : string) (config : jsval) (c : client) : client :=
  match instances c !! API c with
  | None => c
  | Some inst =>
      let '(p, c') := patched_get (API c) inst url config c in
      Client (instances c') (API c') (requests c') (calls c ++ [Call (API c) url config p])
  end.

(** The request [p] is answered or fails; [finally] removes its key. *)
Definition settle (p : nat) (c : client) : client :=
  match requests c !! p with
  | Some (Request i url config key false) =>
      let requests' := <[p := Request i url config key true]> (requests c) in
      match key, instances c !! i with
      | Some key, Some inst =>
          Client (<[i := set_flight (delete key (inFlightGetRequests inst)) inst]> (instances c))
            (API c) requests' (calls c)
      | _, _ => Client (instances c) (API c) requests' (calls c)
      end
  | _ => c
  end.

(** [updateAPI()] for the user record in the storage. *)
Definition updateAPI (user : option string) (c : client) : res client :=
  id ← getUserIdFromLocalStorage user;
  Ok (Client (instances c ++ [Instance id false ∅]) (length (instances c)) (requests c) (calls c)).

(** The module's first instance, with the error handler. *)
Definition start (id : jsval) : client := Client [Instance id true ∅] 0 [] [].

Inductive step : client → client → Prop :=
| step_get url config c : step c (api_get url config c)
| step_settle p c : step c (settle p c)
| step_update user c c' : updateAPI user c = Ok c' → step c c'.

Inductive reachable (id : jsval) : client → Prop :=
| reach_start : reachable id (start id)
| reach_step c c' : reachable id c → step c c' → reachable id c'.

(** What happens when request [p] fails with [error]: the handler belongs to
    the instance that sent it. *)
Definition on_reject (p : nat) (error : jsval) (c : client) : list notice * jsval :=
  match requests c !! p with
  | Some r => match instances c !! r_inst r with
              | Some inst => if intercepts inst then response_error error else ([], error)
              | None => ([], error)
              end
  | None => ([], error)
  end.

(** ** Invariant of the shared requests *)

(** The promise shared under [key] in instance [i]. *)
Definition flight (c : client) (i : nat) (key : string) : option nat :=
  instances c !! i ≫= λ inst, inFlightGetRequests inst !! key.

(** The key two calls may share a request under. *)
Definition call_key (config : jsval) (url : string) : option string :=
  if truthy (prop_opt config "disableDuplicate") then None else Some (genKey url config).

Record inv (c : client) : Prop := {
  inv_api : API c < length (instances c);
  inv_inst p r : requests c !! p = Some r → r_inst r < length (instances c);
  inv_key p r : requests c !! p = Some r → r_key r = call_key (r_config r) (r_url r);
  (** the map holds exactly the unsettled shared requests *)
  inv_flight i key p :
    flight c i key = Some p ↔
    ∃ r, requests c !! p = Some r ∧ r_inst r = i ∧ r_key r = Some key ∧ settled r = false;
  (** every call holds a request of its own instance and key *)
  inv_call k x : calls c !! k = Some x →
    ∃ r, requests c !! c_promise x = Some r ∧ r_inst r = c_inst x ∧
         r_key r = call_key (c_config x) (c_url x) }.

Lemma inv_start id : inv (start id).
Proof.
  split; cbn; try done; try lia.
  intros i key p. unfold flight. cbn. split; [|by intros (? & ? & _)].
  destruct i; cbn; [|done]. by rewrite lookup_empty.
Qed.

Lemma flight_insert c i inst m api rs cs j key :
  instances c !! i = Some inst →
  flight (Client (<[i := set_flight m inst]> (instances c)) api rs cs) j key
  = if decide (j = i) then m !! key else flight c j key.
Proof.
  intros Hi. unfold flight. cbn. case_decide; subst.
  - rewrite list_lookup_insert_eq by by eapply lookup_lt_Some. done.
  - by rewrite list_lookup_insert_ne.
Qed.

Lemma lookup_snoc {A} (l : list A) x k y :
  (l ++ [x]) !! k = Some y ↔ l !! k = Some y ∨ (k = length l ∧ y = x).
Proof.
  rewrite lookup_app_Some. rewrite list_lookup_singleton_Some. split.
  - intros [?|(? & ? & ?)]; [auto|right; split; [lia|done]].
  - intros [?|[-> ->]]; [auto|right; split; [lia|split; [lia|done]]].
Qed.

(** Sending a request that is not shared, and calling it. *)
Lemma client_inv_send c url config key :
  inv c → key = call_key config url →
  (∀ k, key = Some k → flight c (API c) k = None) →
  let p := length (requests c) in
  ∀ insts, length insts = length (instances c) →
  (∀ i k, insts !! i ≫= (λ inst, inFlightGetRequests inst !! k)
          = if decide (i = API c ∧ key = Some k) then Some p else flight c i k) →
  inv (Client insts (API c) (requests c ++ [Request (API c) url config key false])
         (calls c ++ [Call (API c) url config p])).
Proof.
  intros [Ha Hi Hk Hf Hc] -> Hnew p insts Hl Hfl. split; cbn.
  - by rewrite Hl.
  - intros q r [Hq|[-> ->]]%lookup_snoc; rewrite Hl; [by eapply Hi|done].
  - intros q r [Hq|[-> ->]]%lookup_snoc; [by eapply Hk|done].
  - intros i k q. unfold flight at 1. cbn. rewrite Hfl. setoid_rewrite lookup_snoc. case_decide as Hd.
    + destruct Hd as [-> Hk']. split.
      * intros [= <-]. eexists. split; [right; done|done].
      * intros (r & [Hq|[-> _]] & Hri & Hrk & Hs); [|done].
        specialize (Hnew _ Hk'). assert (flight c (API c) k = Some q) by (apply Hf; eauto). congruence.
    + rewrite Hf. split; [intros (r & ? & ?); eauto|].
      intros (r & [Hq|[-> ->]] & Hri & Hrk & Hs); [eauto|]. cbn in *. by destruct Hd.
  - intros k x [Hx|[-> ->]]%lookup_snoc; cbn.
    + destruct (Hc _ _ Hx) as (r & Hr & ?). exists r. split; [|done]. apply lookup_snoc. by left.
    + eexists. rewrite lookup_snoc. split; [by right|done].
Qed.

Lemma inv_get url config c : inv c → inv (api_get url config c).
Proof.
  intros Hv. pose proof Hv as [Ha Hi Hk Hf Hc]. unfold api_get.
  destruct (instances c !! API c) as [inst|] eqn:E; [|done]. unfold patched_get, originalGet.
  destruct (truthy (prop_opt config "disableDuplicate")) eqn:Ed; cbn.
  - apply client_inv_send; [done|by unfold call_key; rewrite Ed|done|done|].
    intros i k. rewrite decide_False by naive_solver. done.
  - assert (Hkey : call_key config url = Some (genKey url config)) by (unfold call_key; by rewrite Ed).
    assert (flight c (API c) (genKey url config) = inFlightGetRequests inst !! genKey url config) as Hfl
      by (unfold flight; by rewrite E).
    destruct (inFlightGetRequests inst !! genKey url config) as [p|] eqn:Ep; cbn.
    + split; cbn; try done. intros k x [Hx|[-> ->]]%lookup_snoc; [by eapply Hc|]. cbn.
      apply Hf in Hfl as (r & ? & ? & Hrk & _). exists r. by rewrite Hkey.
    + apply client_inv_send; [done|done|naive_solver|by rewrite length_insert|].
      intros i k. change (_ ≫= _) with (flight (Client (<[API c := set_flight
        (<[genKey url config := length (requests c)]> (inFlightGetRequests inst)) inst]> (instances c)) 0 [] []) i k).
      rewrite flight_insert by done. destruct (decide (i = API c)) as [->|].
      * rewrite lookup_insert. destruct (decide (genKey url config = k)) as [->|];
          [by rewrite decide_True|]. rewrite decide_False by naive_solver.
        unfold flight. by rewrite E.
      * by rewrite decide_False by naive_solver.
Qed.

Lemma lookup_settle (rs : list request) p i url config key q r :
  rs !! p = Some (Request i url config key false) →
  <[p := Request i url config key true]> rs !! q = Some r ↔
  (q = p ∧ r = Request i url config key true) ∨ (q ≠ p ∧ rs !! q = Some r).
Proof.
  intros Hp. apply lookup_lt_Some in Hp. destruct (decide (q = p)) as [->|].
  - rewrite list_lookup_insert_eq by done. naive_solver.
  - rewrite list_lookup_insert_ne by done. naive_solver.
Qed.

Lemma client_inv_settle p c : inv c → inv (settle p c).
Proof.
  intros Hv. pose proof Hv as [Ha Hi Hk Hf Hc]. unfold settle.
  destruct (requests c !! p) as [[i url config key []]|] eqn:Ep; try done.
  set (rs := <[p := Request i url config key true]> (requests c)).
  assert (Hrs : ∀ q r, rs !! q = Some r ↔
    (q = p ∧ r = Request i url config key true) ∨ (q ≠ p ∧ requests c !! q = Some r))
    by (intros; by apply lookup_settle).
  destruct (lookup_lt_is_Some_2 (instances c) i) as [inst Einst]; [by eapply (Hi _ _ Ep)|].
  set (c' := match key, instances c !! i with Some _, Some _ => _ | _, _ => _ end).
  assert (requests c' = rs ∧ calls c' = calls c ∧ API c' = API c ∧
          length (instances c') = length (instances c)) as (E1 & E2 & E3 & E4).
  { unfold c'. rewrite Einst. destruct key; cbn; by rewrite ?length_insert. }
  split; rewrite ?E1, ?E2, ?E3, ?E4; try done.
  - intros q r [[-> ->]|[_ Hq]]%Hrs; [by apply (Hi _ _ Ep)|by eapply Hi].
  - intros q r [[-> ->]|[_ Hq]]%Hrs; [by apply (Hk _ _ Ep)|by eapply Hk].
  - intros j k q.
    assert (flight c' j k = if decide (j = i ∧ key = Some k) then None else flight c j k) as ->.
    { unfold c'. rewrite Einst. destruct key as [key|]; [|by rewrite decide_False by naive_solver].
      rewrite flight_insert by done. destruct (decide (j = i)) as [->|];
        [|by rewrite decide_False by naive_solver].
      rewrite lookup_delete. destruct (decide (key = k)) as [->|]; [by rewrite decide_True|].
      rewrite decide_False by naive_solver. unfold flight. by rewrite Einst. }
    setoid_rewrite Hrs. case_decide as Hd.
    + destruct Hd as [-> ->]. split; [done|]. intros (r & [[-> ->]|[Hne Hq]] & Hri & Hrk & Hs); [done|].
      assert (flight c i k = Some q) by (apply Hf; eauto).
      assert (flight c i k = Some p) by (apply Hf; eauto). congruence.
    + rewrite Hf. split.
      * intros (r & Hq & ? & ? & ?). exists r. split; [|done]. right. split; [|done].
        intros ->. rewrite Ep in Hq. injection Hq as <-. cbn in *. naive_solver.
      * intros (r & [[-> ->]|[Hne Hq]] & ? & ? & ?); [done|eauto].
  - intros k x Hx. destruct (Hc _ _ Hx) as (r & Hr & Hri & Hrk). setoid_rewrite Hrs.
    destruct (decide (c_promise x = p)) as [Epx|]; [|eauto 6].
    rewrite Epx, Ep in Hr. injection Hr as <-. eauto 6.
Qed.

Lemma inv_update user c c' : updateAPI user c = Ok c' → inv c → inv c'.
Proof.
  intros (id & _ & [= <-])%res_bind_Ok [Ha Hi Hk Hf Hc].
  split; cbn; rewrite ?length_app; cbn; try done; try lia.
  - intros p r Hp. specialize (Hi _ _ Hp). lia.
  - intros i k p. rewrite <-Hf. unfold flight. cbn.
    destruct (decide (i < length (instances c))) as [|Hl]; [by rewrite lookup_app_l|].
    rewrite lookup_app_r by lia. rewrite (lookup_ge_None_2 (instances c)) by lia.
    destruct (i - length (instances c)); cbn; [by rewrite lookup_empty|done].
Qed.

Lemma reachable_inv id c : reachable id c → inv c.
Proof.
  induction 1 as [|c c' _ IH Hs]; [apply inv_start|].
  destruct Hs; [by apply inv_get|by apply client_inv_settle|by eapply inv_update].
Qed.

(** The promise of a new call is a request that is still on the network. *)
Lemma get_fresh url config c :
  inv c → ∃ x r, calls (api_get url config c) = calls c ++ [x] ∧ c_inst x = API c ∧
    call_key (c_config x) (c_url x) = call_key config url ∧
    requests (api_get url config c) !! c_promise x = Some r ∧ settled r = false.
Proof.
  intros [Ha Hi Hk Hf Hc]. unfold api_get.
  destruct (lookup_lt_is_Some_2 _ _ Ha) as [inst E]. rewrite E. unfold patched_get, originalGet.
  destruct (truthy _); [|destruct (inFlightGetRequests inst !! _) as [p|] eqn:Ep]; cbn.
  - eexists _, _. split_and!; [done|done|done|by rewrite list_lookup_middle|done].
  - assert (flight c (API c) (genKey url config) = Some p) as (r & Hp & _ & _ & Hs)%Hf
      by (unfold flight; by rewrite E). by eexists _, r.
  - eexists _, _. split_and!; [done|done|done|by rewrite list_lookup_middle|done].
Qed.

(** A new call keeps the requests that exist and the current instance. *)
Lemma get_keeps url config c :
  API (api_get url config c) = API c ∧ requests c `prefix_of` requests (api_get url config c).
Proof.
  unfold api_get, patched_get, originalGet. destruct (instances c !! API c) as [inst|]; [|done].
  destruct (truthy _); [|destruct (inFlightGetRequests inst !! _)]; cbn;
    (split; [done|]); first [by eexists|done].
Qed.

(** Identical GET requests are shared and never mixed up: of each
    instance and key at most one request is on the network; every call holds
    a request that its own instance sent, hence with the same user header,
    and, when sharing is on, under its own key; the promise a call gets was
    not yet settled, so its answer is not older than the call. *)
Theorem shared_requests (id : jsval) (c : client) :
  reachable id c →
  (∀ p q r r', requests c !! p = Some r → requests c !! q = Some r' →
     settled r = false → settled r' = false → r_inst r = r_inst r' →
     is_Some (r_key r) → r_key r = r_key r' → p = q) ∧
  (∀ k x, calls c !! k = Some x → ∃ r, requests c !! c_promise x = Some r ∧
     r_inst r = c_inst x ∧ r_key r = call_key (c_config x) (c_url x)) ∧
  (∀ url config, ∃ x r, calls (api_get url config c) = calls c ++ [x] ∧ c_inst x = API c ∧
     requests (api_get url config c) !! c_promise x = Some r ∧ settled r = false).
Proof.
  intros Hr%reachable_inv. pose proof Hr as [Ha Hi Hk Hf Hc]. split_and!; [|done|].
  - intros p q r r' Hp Hq Hs Hs' Hi' [key Hkey] Hk'.
    assert (flight c (r_inst r) key = Some p) by (apply Hf; eauto).
    assert (flight c (r_inst r) key = Some q) by (apply Hf; exists r'; by rewrite <-Hi', <-Hk').
    congruence.
  - intros url config. destruct (get_fresh url config c Hr) as (x & r & ? & ? & _ & ? & ?). eauto 10.
Qed.

(** ** Refinement

    What the client promises its callers, without maps and promises: each
    call belongs to the identity that was current when it was made; an
    answer of the service completes calls of one identity and, under
    sharing, of one key; nothing else changes a call. *)

Record spec_call := SpecCall { sc_inst : nat; sc_key : option string; sc_done : bool }.
Record service := Service { identity : nat; spec_calls : list spec_call }.

Definition complete (x : spec_call) : spec_call := SpecCall (sc_inst x) (sc_key x) true.

Inductive spec_step : service → service → Prop :=
| spec_get i key xs : spec_step (Service i xs) (Service i (xs ++ [SpecCall i key false]))
| spec_answer i j key xs ys :
    Forall2 (λ x y, y = x ∨ (sc_inst x = j ∧ sc_key x = key ∧ y = complete x)) xs ys →
    spec_step (Service i xs) (Service i ys)
| spec_identity i j xs : spec_step (Service i xs) (Service j xs).

Definition is_settled (rs : list request) (p : nat) : bool :=
  match rs !! p with Some r => settled r | None => false end.
Definition abs_call (rs : list request) (x : call) : spec_call :=
  SpecCall (c_inst x) (call_key (c_config x) (c_url x)) (is_settled rs (c_promise x)).
Definition abs (c : client) : service := Service (API c) (abs_call (requests c) <$> calls c).

Lemma abs_call_prefix rs rs' x :
  rs `prefix_of` rs' → is_Some (rs !! c_promise x) → abs_call rs' x = abs_call rs x.
Proof.
  intros Hp [r Hr]. unfold abs_call, is_settled. by rewrite (prefix_lookup_Some _ _ _ _ Hr Hp), Hr.
Qed.

Definition mark (r : request) : request :=
  Request (r_inst r) (r_url r) (r_config r) (r_key r) true.

Lemma settle_calls p c :
  API (settle p c) = API c ∧ calls (settle p c) = calls c ∧
  ∀ q, requests (settle p c) !! q = if decide (q = p) then mark <$> requests c !! p
                                    else requests c !! q.
Proof.
  assert (∀ (b : bool) (i : nat) (url : string) (config : jsval) (key : option string) q,
    requests c !! p = Some (Request i url config key b) →
    <[p := Request i url config key true]> (requests c) !! q
    = if decide (q = p) then mark <$> requests c !! p else requests c !! q) as H.
  { intros b i url config key q E. case_decide; subst.
    - rewrite E, list_lookup_insert_eq by by eapply lookup_lt_Some. done.
    - by rewrite list_lookup_insert_ne. }
  unfold settle. destruct (requests c !! p) as [[i url config key []]|] eqn:E.
  - split_and!; [done|done|]. intros q. by case_decide; subst; rewrite ?E.
  - pose proof (λ q, H _ _ _ _ _ q eq_refl). destruct key, (instances c !! i); done.
  - split_and!; [done|done|]. intros q. by case_decide; subst; rewrite ?E.
Qed.

Lemma settle_length p c : length (requests (settle p c)) = length (requests c).
Proof.
  unfold settle. destruct (requests c !! p) as [[i url config key []]|]; try done.
  destruct key, (instances c !! i); apply length_insert.
Qed.

Lemma is_settled_settle p q c :
  is_settled (requests (settle p c)) q =
  is_settled (requests c) q || bool_decide (q = p ∧ p < length (requests c)).
Proof.
  destruct (settle_calls p c) as (_ & _ & H). unfold is_settled. rewrite H.
  destruct (decide (q = p)) as [->|]; [|by rewrite bool_decide_false, orb_false_r by naive_solver].
  destruct (requests c !! p) as [r|] eqn:E; cbn.
  - apply lookup_lt_Some in E. rewrite bool_decide_true by done. by rewrite orb_true_r.
  - apply lookup_ge_None in E. rewrite bool_decide_false; [done|]. lia.
Qed.

(** C35.  The client refines this specification: every event of the client,
    with its instances, shared promises and maps, is an event of the
    specification on the calls it has made. *)
Theorem client_refines_service (id : jsval) (c c' : client) :
  reachable id c → step c c' → spec_step (abs c) (abs c').
Proof.
  intros Hr%reachable_inv Hs. destruct Hs as [url config c|p c|user c c' Hu].
  - destruct (get_fresh url config c Hr) as (x & r & Hx & Hi & Hk & Hp & Hset).
    destruct (get_keeps url config c) as [HA Hpre]. unfold abs. rewrite HA, Hx, fmap_app.
    assert (abs_call (requests (api_get url config c)) <$> calls c
            = abs_call (requests c) <$> calls c) as ->.
    { apply list_fmap_ext. intros k y (r' & Hr' & _)%(inv_call c Hr). by apply abs_call_prefix. }
    assert (abs_call (requests (api_get url config c)) x
            = SpecCall (API c) (call_key config url) false) as Hnew
      by (unfold abs_call, is_settled; by rewrite Hp, Hset, Hi, Hk).
    cbn. rewrite Hnew. constructor.
  - destruct (settle_calls p c) as (HA & HC & _). unfold abs. rewrite HA, HC.
    destruct (requests c !! p) as [r|] eqn:Ep.
    + apply (spec_answer _ (r_inst r) (r_key r)). apply Forall2_fmap, Forall_Forall2_diag, Forall_forall.
      intros x [k Hx]%list_elem_of_lookup. destruct (inv_call c Hr k x Hx) as (r' & Hr' & Hi & Hk).
      unfold abs_call, complete. rewrite is_settled_settle. cbn. case_bool_decide as Hd; [|by rewrite orb_false_r; left].
      destruct Hd as [Hpx _]. rewrite Hpx in Hr'. simplify_eq. rewrite orb_true_r. right. done.
    + apply (spec_answer _ 0 None). apply Forall2_fmap, Forall_Forall2_diag, Forall_forall.
      intros x _. left. unfold abs_call. rewrite is_settled_settle, bool_decide_false, orb_false_r; [done|].
      intros [_ Hl]. apply lookup_ge_None in Ep. lia.
  - apply res_bind_Ok in Hu as (id' & _ & [= <-]). apply spec_identity.
Qed.

(** C39.  Nothing is lost: when the network has settled every request that is
    under way, every call has its answer, and no instance keeps a key of a
    finished request. *)
Theorem all_settled (id : jsval) (c : client) :
  reachable id c →
  let c' := foldr settle c (seq 0 (length (requests c))) in
  reachable id c' ∧ Forall (λ x, sc_done x = true) (spec_calls (abs c')) ∧
  ∀ i inst, instances c' !! i = Some inst → inFlightGetRequests inst = ∅.
Proof.
  intros Hr c'.
  assert (∀ ps, reachable id (foldr settle c ps) ∧
    length (requests (foldr settle c ps)) = length (requests c) ∧
    ∀ q, q ∈ ps → q < length (requests c) → is_settled (requests (foldr settle c ps)) q = true) as H.
  { induction ps as [|p ps (IH1 & IH2 & IH3)]; cbn; [split_and!; [done|done|set_solver]|].
    split_and!; [eapply reach_step; [done|constructor]|by rewrite settle_length|].
    intros q [->|Hq]%elem_of_cons Hl; rewrite is_settled_settle.
    - rewrite bool_decide_true by (rewrite IH2; done). by rewrite orb_true_r.
    - by rewrite IH3. }
  destruct (H (seq 0 (length (requests c)))) as (H1 & H2 & H3). fold c' in H1, H2, H3.
  pose proof (reachable_inv _ _ H1) as Hv. split_and!; [done| |].
  - apply Forall_fmap, Forall_forall. intros x [k Hx]%list_elem_of_lookup. cbn.
    destruct (inv_call c' Hv k x Hx) as (r & Hr' & _). apply lookup_lt_Some in Hr'.
    apply H3; [apply elem_of_seq; lia|lia].
  - intros i inst Hi. apply map_empty. intros key. apply eq_None_not_Some. intros [p Hp].
    assert (flight c' i key = Some p) as (r & Hr' & _ & _ & Hs)%(inv_flight c' Hv)
      by (unfold flight; by rewrite Hi).
    pose proof (lookup_lt_Some _ _ _ Hr') as Hl.
    assert (is_settled (requests c') p = true) as Hset by (apply H3; [apply elem_of_seq; lia|lia]).
    unfold is_settled in Hset. rewrite Hr' in Hset. congruence.
Qed.

(** ** The error handler *)

(** Only the first instance has the error handler: once [updateAPI] has run,
    a failing request shows nothing, and an expired session (401) neither
    clears the user nor goes to the login page. *)
Lemma updated_instance_silent user c c' url config error :
  inv c → updateAPI user c = Ok c' →
  ∃ x, calls (api_get url config c') = calls c' ++ [x] ∧
       on_reject (c_promise x) error (api_get url config c') = ([], error).
Proof.
  intros Hv Hu. pose proof (inv_update _ _ _ Hu Hv) as Hv'.
  destruct (get_fresh url config c' Hv') as (x & r & Hx & Hi & _ & Hp & _). exists x. split; [done|].
  pose proof (inv_get url config c' Hv') as Hg.
  assert (r_inst r = API c') as Hri.
  { destruct (inv_call _ Hg (length (calls c')) x) as (r' & Hr' & Hi' & _);
      [rewrite Hx; by rewrite list_lookup_middle|]. congruence. }
  unfold on_reject. rewrite Hp, Hri. apply res_bind_Ok in Hu as (id & _ & [= <-]). cbn.
  unfold api_get. cbn. rewrite list_lookup_middle by done. unfold patched_get, originalGet. cbn.
  rewrite lookup_empty. destruct (truthy _); cbn; [by rewrite list_lookup_middle|].
  rewrite list_lookup_insert_eq; [done|]. rewrite length_app. cbn. lia.
Qed.

(** A network failure has no response: reading its status throws inside the
    handler, which shows nothing and replaces the error by a [TypeError]. *)
Lemma network_error_lost :
  response_error (VObj [("name", VStr "AxiosError"); ("message", VStr "Network Error")])
  = ([], VObj [("name", VStr "TypeError");
               ("message", VStr "Cannot read properties of undefined (reading 'status')")]).
Proof. by vm_compute. Qed.

(** ** Witnesses *)

(** Two calls for the same address, one for another user afterwards. *)
Definition some_client : client :=
  let c := api_get "/api/status" VUndef (api_get "/api/status" VUndef (start (VNum (num_of_Z 1)))) in
  match updateAPI None c with Ok c => api_get "/api/status" VUndef c | Throw _ => c end.

Lemma some_client_reached : reachable (VNum (num_of_Z 1)) some_client.
Proof.
  unfold some_client. destruct (updateAPI None _) as [c|] eqn:E; [|done].
  eapply reach_step; [|apply step_get]. eapply reach_step; [|exact (step_update _ _ _ E)].
  do 2 (eapply reach_step; [|apply step_get]). constructor.
Qed.

Example some_client_requests : (c_promise <$> calls some_client) = [0; 0; 1].
Proof. by vm_compute. Qed.

Lemma shared_requests_witness :
  ∃ r, requests some_client !! 0 = Some r ∧ r_inst r = 0 ∧ r_key r = Some "/api/status?{}".
Proof.
  exact (proj1 (proj2 (shared_requests _ some_client some_client_reached)) 1
    (Call 0 "/api/status" VUndef 0) eq_refl).
Defined.

Lemma client_refines_service_witness : spec_step (abs some_client) (abs (settle 0 some_client)).
Proof.
  apply (client_refines_service (VNum (num_of_Z 1))); [apply some_client_reached|constructor].
Defined.

Lemma all_settled_witness :
  Forall (λ x, sc_done x = true) (spec_calls (abs (foldr settle some_client (seq 0 2)))).
Proof. exact (proj1 (proj2 (all_settled _ some_client some_client_reached))). Defined.
