(* ===== verification/ApiHelpers.v ===== *)
(** * Payloads, logins and caches over the HTTP client

    The rest of [web/src/helpers/api.js], with [isValidMessage] and
    [formatMessageForAPI] of [helpers/utils.jsx]: the payload of a chat
    request, the options of models and groups, the start of the OAuth logins
    and the cache of channel models.  A login is a program of effects; the
    answers of the service, [localStorage] and the page's origin are
    arguments, and so is [url_with], the browser's [URL] with its
    [searchParams]. *)
From Stdlib Require Import Ascii SpecFloat.
From S2P Require Import Prelude JsString JsNumber JsValue Json ApiClient.

(** ** Chat payloads *)

Definition isValidMessage (m : jsval) : bool :=
  truthy m && truthy (prop_opt m "role")
  && (truthy (prop_opt m "content") || is_str "" (prop_opt m "content")).

Definition formatMessageForAPI (m : jsval) : jsval :=
  if truthy m then VObj [("role", prop_opt m "role"); ("content", prop_opt m "content")] else VNull.

(** The keys of [parameterMappings], each mapped to itself. *)
Definition parameterMappings : list string :=
  ["temperature"; "top_p"; "max_tokens"; "frequency_penalty"; "presence_penalty"; "seed"].

Definition has_value (v : jsval) : bool := negb (is_nullish v).

(** The loop over the parameters. *)
Definition add_parameters (inputs parameterEnabled : jsval) (payload : obj) : obj :=
  foldl (λ payload key,
           set_if (truthy (prop_opt parameterEnabled key) && has_value (prop_opt inputs key))
             key (prop_opt inputs key) payload) payload parameterMappings.

Definition system_message (systemPrompt : jsval) : res (list jsval) :=
  if truthy systemPrompt then
    match systemPrompt with
    | VStr s => Ok (if bool_decide (trim s = "") then []
                    else [VObj [("role", VStr "system"); ("content", VStr (trim s))]])
    | _ => Throw "systemPrompt.trim is not a function"
    end
  else Ok [].

Definition buildApiPayload (messages : list jsval) (systemPrompt inputs parameterEnabled : jsval)
    : res obj :=
  let processedMessages :=
    filter (λ m, truthy m = true)
      (formatMessageForAPI <$> filter (λ m, isValidMessage m = true) messages) in
  system ← system_message systemPrompt;
  Ok (add_parameters inputs parameterEnabled
        [("model", prop_opt inputs "model"); ("group", prop_opt inputs "group");
         ("messages", VArr (system ++ processedMessages)); ("stream", prop_opt inputs "stream")]).

(** [now] is [new Date().toISOString()]; [response] is [null] when absent. *)
Definition handleApiError (now : string) (error response : jsval) : res obj :=
  message ← prop error "message";
  let info := [("error", js_or message (VStr "未知错误")); ("timestamp", VStr now);
               ("stack", prop_opt error "stack")] in
  let info := set_if (truthy response) "statusText" (prop_opt response "statusText")
                (set_if (truthy response) "status" (prop_opt response "status") info) in
  match message with
  | VStr m => Ok (if includes "HTTP error" m then obj_set "details" (VStr "服务器返回了错误状态码") info
                  else if includes "Failed to fetch" m
                  then obj_set "details" (VStr "网络连接失败或服务器无响应") info else info)
  | _ => Throw "Cannot read properties of undefined (reading 'includes')"
  end.

(** ** Models and groups *)

Record model_option := ModelOption { label : string; value : string }.

Definition processModelsData (data : list string) (currentModel : string)
    : list model_option * option string :=
  let modelOptions := (λ m, ModelOption m m) <$> data in
  let hasCurrentModel := existsb (λ o, bool_decide (value o = currentModel)) modelOptions in
  (modelOptions,
   if hasCurrentModel && bool_decide (0 < length modelOptions) then Some currentModel
   else value <$> head modelOptions).

(** The first [n] UTF-16 code units of a text; a pair that is cut leaves its
    first half, as three bytes. *)
Fixpoint utf16_take (n : nat) (l : list ascii) : list ascii :=
  match n, l with
  | 0, _ | _, [] => []
  | S n', a :: l1 =>
      if (N_of_ascii a <? 128)%N then a :: utf16_take n' l1
      else match l1 with
           | b :: l2 =>
               if (N_of_ascii a <? 224)%N then a :: b :: utf16_take n' l2
               else match l2 with
                    | c :: l3 =>
                        if (N_of_ascii a <? 240)%N then a :: b :: c :: utf16_take n' l3
                        else match l3 with
                             | d :: l4 =>
                                 match n' with
                                 | S n'' => a :: b :: c :: d :: utf16_take n'' l4
                                 | 0 =>
                                     let z := Z.of_N ((N_of_ascii a mod 8) * 262144
                                       + (N_of_ascii b mod 64) * 4096 + (N_of_ascii c mod 64) * 64
                                       + N_of_ascii d mod 64)%N in
                                     utf8 (55296 + (z - 65536) / 1024)
                                 end
                             | [] => l
                             end
                    | [] => l
                    end
           | [] => l
           end
  end.

Definition utf16_len (l : list ascii) : nat :=
  foldr (λ c n, let b := N_of_ascii c in
    if decide (128 ≤ b < 192)%N then n else if decide (240 ≤ b)%N then n + 2 else n + 1) 0 l.

Record group_info := GroupInfo { desc : string; ratio : jsval }.
Record group_option := GroupOption {
  g_label : string; g_value : string; g_ratio : jsval; fullLabel : option string }.

Definition short_desc (s : string) : string :=
  if bool_decide (20 < utf16_len (chars s)) then of_chars (utf16_take 20 (chars s)) +:+ "..." else s.

Definition group_option_of (e : string * group_info) : group_option :=
  GroupOption (short_desc (desc e.2)) e.1 (ratio e.2) (Some (desc e.2)).

(** Move the first option of the user's group to the front. *)
Definition front_group (userGroup : string) (l : list group_option) : list group_option :=
  match list_find (λ g, g_value g = userGroup) l with
  | Some (i, g) => g :: delete i l
  | None => l
  end.

Definition processGroupsData (data : list (string * group_info)) (userGroup : string)
    : list group_option :=
  match group_option_of <$> data with
  | [] => [GroupOption "用户分组" "" (VNum (num_of_Z 1)) None]
  | groupOptions => if bool_decide (userGroup = "") then groupOptions else front_group userGroup groupOptions
  end.

(** ** OAuth logins *)

Inductive effect :=
| Get (url : string)
| ShowError (error : jsval)
| RemoveUser
| UpdateAPI
| Open (url : string)
| Goto (url : string).

Section oauth.
Context (url_with : string → list (string * string) → res string).
Context (origin : string) (aff : option string).

(** [ans] is the outcome of the request. *)
Definition getOAuthState (ans : res jsval) : list effect * res jsval :=
  let path := match aff with
              | None | Some "" => "/api/oauth/state"
              | Some a => "/api/oauth/state?aff=" +:+ a
              end in
  match ans with
  | Throw e => ([Get path], Throw e)
  | Ok r =>
      match prop (prop_opt r "data") "success" with
      | Throw e => ([Get path], Throw e)
      | Ok success =>
          if truthy success then ([Get path], Ok (prop_opt (prop_opt r "data") "data"))
          else let message := prop_opt (prop_opt r "data") "message" in
               match showError message with
               | Ok _ => ([Get path; ShowError message], Ok (VStr ""))
               | Throw e => ([Get path], Throw e)
               end
      end
  end.

Definition prepareOAuthState (shouldLogout : bool) (ans : res jsval) : list effect * res jsval :=
  let '(es, r) := getOAuthState ans in
  ((if shouldLogout then [Get "/api/user/logout"; RemoveUser; UpdateAPI] else []) ++ es, r).

(** [const state = await prepareOAuthState(options); if (!state) return; ...]. *)
Definition with_state (shouldLogout : bool) (ans : res jsval)
    (k : jsval → list effect * res unit) : list effect * res unit :=
  match prepareOAuthState shouldLogout ans with
  | (es, Throw e) => (es, Throw e)
  | (es, Ok state) => if truthy state then let '(es', r) := k state in (es ++ es', r) else (es, Ok ())
  end.

(** [window.open(...)] of a text that may throw while it is built. *)
Definition open_text (text : res string) : list effect * res unit :=
  match text with Ok u => ([Open u], Ok ()) | Throw e => ([], Throw e) end.

Definition onDiscordOAuthClicked (client_id : string) (shouldLogout : bool) (ans : res jsval) :=
  with_state shouldLogout ans (λ state, open_text (s ← to_str state;
    Ok ("https://discord.com/oauth2/authorize?client_id=" +:+ client_id +:+ "&redirect_uri=" +:+ origin
        +:+ "/oauth/discord&response_type=code&scope=identify+openid&state=" +:+ s))).

Definition onOIDCClicked (auth_url client_id : string) (openInNewTab shouldLogout : bool)
    (ans : res jsval) :=
  with_state shouldLogout ans (λ state,
    match (s ← to_str state;
           url_with auth_url [("client_id", client_id); ("redirect_uri", origin +:+ "/oauth/oidc");
                              ("response_type", "code"); ("scope", "openid profile email"); ("state", s)])
    with
    | Ok u => ([if openInNewTab then Open u else Goto u], Ok ())
    | Throw e => ([], Throw e)
    end).

Definition onGitHubOAuthClicked (github_client_id : string) (shouldLogout : bool) (ans : res jsval) :=
  with_state shouldLogout ans (λ state, open_text (s ← to_str state;
    Ok ("https://github.com/login/oauth/authorize?client_id=" +:+ github_client_id +:+ "&state=" +:+ s
        +:+ "&scope=user:email"))).

Definition onLinuxDOOAuthClicked (linuxdo_client_id : string) (shouldLogout : bool) (ans : res jsval) :=
  with_state shouldLogout ans (λ state, open_text (s ← to_str state;
    Ok ("https://connect.linux.do/oauth2/authorize?response_type=code&client_id=" +:+ linuxdo_client_id
        +:+ "&state=" +:+ s))).

Record provider := Provider {
  slug : string; p_client_id : string; authorization_endpoint : string; scopes : string }.

(** The [try] block turns exceptions into a message. *)
Definition onCustomOAuthClicked (p : provider) (shouldLogout : bool) (ans : res jsval) :=
  with_state shouldLogout ans (λ state,
    if starts_with "http://" (authorization_endpoint p)
       || starts_with "https://" (authorization_endpoint p) then
      match (s ← to_str state;
             url_with (authorization_endpoint p)
               [("client_id", p_client_id p); ("redirect_uri", origin +:+ "/oauth/" +:+ slug p);
                ("response_type", "code");
                ("scope", if bool_decide (scopes p = "") then "openid profile email" else scopes p);
                ("state", s)]) with
      | Ok u => ([Open u], Ok ())
      | Throw e => ([ShowError (VStr ("OAuth 登录失败：" +:+ (if bool_decide (e = "") then "未知错误" else e)))],
                    Ok ())
      end
    else ([ShowError (VStr "OAuth 配置错误：授权端点必须是完整的 URL（以 http:// 或 https:// 开头）")], Ok ())).
End oauth.

(** ** Channel models *)

(** The module variable [channelModels] and the stored text. *)
Record cache := Cache { channelModels : option jsval; stored : option string }.

(** [ans] is the outcome of [API.get('/api/models')]. *)
Definition loadChannelModels (ans : res jsval) (c : cache) : res cache :=
  r ← ans;
  success ← prop (prop_opt r "data") "success";
  if truthy success then
    let data := prop_opt (prop_opt r "data") "data" in
    Ok (if is_undef data then Cache None (Some "undefined")
        else Cache (Some data) (Some (stringify data)))
  else Ok c.

(** [type in v]. *)
Definition has_prop (v : jsval) (key : string) : res bool :=
  match v with
  | VObj o => Ok (bool_decide (key ∈ obj_keys o))
  | VArr l => Ok (bool_decide (key ∈ obj_keys (index_props l) ∨ key = "length"))
  | _ => Throw ("Cannot use 'in' operator to search for '" +:+ key +:+ "'")
  end.

Definition getChannelModels (type : string) (c : cache) : res (jsval * cache) :=
  let from_storage : res (jsval * cache) :=
    match stored c with
    | None | Some "" => Ok (VArr [], c)
    | Some models =>
        match json_parse models with
        | None => Throw "Unexpected token in JSON"
        | Some v =>
            let c := Cache (Some v) (stored c) in
            b ← has_prop v type;
            Ok (if b : bool then prop_opt v type else VArr [], c)
        end
    end in
  match channelModels c with
  | None => from_storage
  | Some v =>
      b ← has_prop v type;
      if b : bool then Ok (if truthy (prop_opt v type) then prop_opt v type else VArr [], c)
      else from_storage
  end.

(** ** Payload laws *)

Lemma add_parameters_get inputs enabled payload k :
  obj_get (add_parameters inputs enabled payload) k =
    if decide (k ∈ parameterMappings) then
      if truthy (prop_opt enabled k) && has_value (prop_opt inputs k)
      then Some (prop_opt inputs k) else obj_get payload k
    else obj_get payload k.
Proof.
  unfold add_parameters.
  assert ("__proto__" ∉ parameterMappings) as Hp by (apply (bool_decide_unpack _); by vm_compute).
  assert (NoDup parameterMappings) as Hn by (apply (bool_decide_unpack _); by vm_compute).
  revert Hp Hn payload. induction parameterMappings as [|k0 ks IH]; intros Hp Hn payload; cbn [foldl]; [done|].
  apply NoDup_cons in Hn as [H0 Hn]. rewrite IH by set_solver.
  assert (obj_get (set_if (truthy (prop_opt enabled k0) && has_value (prop_opt inputs k0)) k0
    (prop_opt inputs k0) payload) k = if decide (k = k0) then
      if truthy (prop_opt enabled k0) && has_value (prop_opt inputs k0)
      then Some (prop_opt inputs k0) else obj_get payload k else obj_get payload k) as ->.
  { unfold set_if. destruct (truthy (prop_opt enabled k0) && has_value (prop_opt inputs k0)) eqn:E;
      [|by destruct (decide (k = k0))]. rewrite obj_get_set.
    assert (k0 ≠ "__proto__") by set_solver. repeat case_decide; naive_solver. }
  destruct (decide (k = k0)) as [->|]; [rewrite decide_False, decide_True by set_solver; done|].
  destruct (decide (k ∈ ks)); [by rewrite decide_True by set_solver|by rewrite decide_False by set_solver].
Qed.

(** A chat request carries the conversation and nothing but the enabled
    parameters: the messages are the trimmed system prompt, if there is one,
    followed by the valid messages in order, each reduced to role and
    content; a sampling parameter is present exactly when it is enabled and
    has a value; the other fields are those of the inputs. *)
Theorem payload_spec (messages : list jsval) (prompt : string) (inputs enabled : jsval) :
  ∃ payload,
    buildApiPayload messages (VStr prompt) inputs enabled = Ok payload ∧
    obj_get payload "messages" = Some (VArr
      ((if bool_decide (trim prompt = "") then []
        else [VObj [("role", VStr "system"); ("content", VStr (trim prompt))]])
       ++ ((λ m, VObj [("role", prop_opt m "role"); ("content", prop_opt m "content")])
           <$> filter (λ m, isValidMessage m = true) messages))) ∧
    (∀ k, k ∈ ["model"; "group"; "stream"] → obj_get payload k = Some (prop_opt inputs k)) ∧
    (∀ k, k ∈ parameterMappings → obj_get payload k =
       if truthy (prop_opt enabled k) && has_value (prop_opt inputs k)
       then Some (prop_opt inputs k) else None).
Proof.
  unfold buildApiPayload.
  assert (system_message (VStr prompt) = Ok (if bool_decide (trim prompt = "") then []
        else [VObj [("role", VStr "system"); ("content", VStr (trim prompt))]])) as ->.
  { unfold system_message. destruct prompt as [|c x]; [by vm_compute|done]. }
  assert (filter (λ m, truthy m = true) (formatMessageForAPI <$> filter (λ m, isValidMessage m = true) messages)
    = (λ m, VObj [("role", prop_opt m "role"); ("content", prop_opt m "content")])
      <$> filter (λ m, isValidMessage m = true) messages) as ->.
  { induction messages as [|m ms IH]; [done|]. rewrite filter_cons. case_decide as Hm; [|done].
    cbn [fmap list_fmap]. unfold formatMessageForAPI at 1.
    assert (truthy m = true) as -> by (unfold isValidMessage in Hm; by destruct (truthy m)).
    rewrite filter_cons_True by done. by f_equal. }
  eexists. split; [done|]. split_and!.
  - rewrite add_parameters_get, decide_False; [done|]. apply (bool_decide_unpack _); by vm_compute.
  - intros k Hk. rewrite add_parameters_get, decide_False.
    + repeat (apply elem_of_cons in Hk as [->|Hk]; [done|]). set_solver.
    + unfold parameterMappings. set_solver.
  - intros k Hk. rewrite add_parameters_get, decide_True by done.
    assert (∀ a b c d : jsval, obj_get [("model", a); ("group", b); ("messages", c); ("stream", d)] k = None) as H.
    { intros. unfold parameterMappings in Hk. cbn. repeat case_decide; set_solver. }
    by rewrite H.
Qed.

(** ** Groups *)

Lemma front_group_perm g l : front_group g l ≡ₚ l.
Proof.
  unfold front_group. destruct (list_find _ _) as [[i x]|] eqn:E; [|done].
  apply list_find_Some in E as (Hi & _). by rewrite <-delete_Permutation.
Qed.

(** The group selector offers every group of the server exactly once,
    the user's own group first when it is among them, and is never empty. *)
Theorem groups_offered (data : list (string * group_info)) (userGroup : string) :
  let l := processGroupsData data userGroup in
  l ≠ [] ∧
  (data ≠ [] → l ≡ₚ group_option_of <$> data ∧
   (userGroup ≠ "" → userGroup ∈ data.*1 → g_value <$> head l = Some userGroup)).
Proof.
  cbn zeta. unfold processGroupsData. destruct data as [|e data]; [by split|].
  cbn [fmap list_fmap]. set (os := group_option_of e :: _).
  assert ((if bool_decide (userGroup = "") then os else front_group userGroup os) ≡ₚ os) as Hp
    by (case_bool_decide; [done|apply front_group_perm]).
  split; [intros E; rewrite E in Hp; by apply Permutation_nil_l in Hp|].
  intros _. split; [done|]. intros Hu Hin. rewrite bool_decide_false by done. unfold front_group.
  destruct (list_find _ os) as [[i x]|] eqn:E; [by apply list_find_Some in E as (_ & <- & _)|].
  apply list_find_None in E. rewrite Forall_forall in E.
  change (e.1 :: data.*1) with ((e :: data).*1) in Hin.
  apply list_elem_of_fmap in Hin as (e' & -> & He'). destruct (E (group_option_of e')); [|done].
  unfold os. change (group_option_of e :: (group_option_of <$> data)) with (group_option_of <$> (e :: data)).
  by apply list_elem_of_fmap_2.
Qed.

(** ** Logins carry the state of the server *)

Inductive login :=
| Discord (client_id : string)
| OIDC (auth_url client_id : string) (openInNewTab : bool)
| GitHub (client_id : string)
| LinuxDO (client_id : string)
| Custom (p : provider).

Section logins.
Context (url_with : string → list (string * string) → res string).
Context (origin : string) (aff : option string).

Definition start_login (l : login) : bool → res jsval → list effect * res unit :=
  match l with
  | Discord i => onDiscordOAuthClicked origin aff i
  | OIDC u i b => onOIDCClicked url_with origin aff u i b
  | GitHub i => onGitHubOAuthClicked aff i
  | LinuxDO i => onLinuxDOOAuthClicked aff i
  | Custom p => onCustomOAuthClicked url_with origin aff p
  end.

(** The address of the login page for the state [s]. *)
Definition login_url (l : login) (s : string) : res string :=
  match l with
  | Discord i => Ok ("https://discord.com/oauth2/authorize?client_id=" +:+ i +:+ "&redirect_uri="
      +:+ origin +:+ "/oauth/discord&response_type=code&scope=identify+openid&state=" +:+ s)
  | OIDC u i _ => url_with u [("client_id", i); ("redirect_uri", origin +:+ "/oauth/oidc");
      ("response_type", "code"); ("scope", "openid profile email"); ("state", s)]
  | GitHub i => Ok ("https://github.com/login/oauth/authorize?client_id=" +:+ i +:+ "&state=" +:+ s
      +:+ "&scope=user:email")
  | LinuxDO i => Ok ("https://connect.linux.do/oauth2/authorize?response_type=code&client_id=" +:+ i
      +:+ "&state=" +:+ s)
  | Custom p => url_with (authorization_endpoint p)
      [("client_id", p_client_id p); ("redirect_uri", origin +:+ "/oauth/" +:+ slug p);
       ("response_type", "code");
       ("scope", if bool_decide (scopes p = "") then "openid profile email" else scopes p); ("state", s)]
  end.

Definition opens (u : string) (es : list effect) : Prop := Open u ∈ es ∨ Goto u ∈ es.

Lemma opens_app u es es' : opens u (es ++ es') ↔ opens u es ∨ opens u es'.
Proof. unfold opens. rewrite !elem_of_app. naive_solver. Qed.

Lemma prepare_quiet lo ans u : ¬ opens u (prepareOAuthState aff lo ans).1.
Proof.
  unfold prepareOAuthState, getOAuthState, opens.
  destruct ans as [r|]; [destruct (prop _ _) as [x|]; [destruct (truthy x);
    [|destruct (showError _)]|]|]; destruct lo; cbn; set_solver.
Qed.

Lemma with_state_opens lo ans k u :
  opens u (with_state aff lo ans k).1 →
  ∃ state, (prepareOAuthState aff lo ans).2 = Ok state ∧ truthy state = true ∧ opens u (k state).1.
Proof.
  unfold with_state. pose proof (prepare_quiet lo ans u) as Hq.
  destruct (prepareOAuthState aff lo ans) as [es [state|e]]; cbn in *; [|done].
  destruct (truthy state) eqn:E; [|done]. destruct (k state) as [es' r] eqn:Ek. cbn.
  rewrite opens_app. intros [?|Ho]; [done|]. exists state. by rewrite Ek.
Qed.

Lemma prop_Ok v k x : prop v k = Ok x → x = prop_opt v k.
Proof. unfold prop. destruct v; congruence. Qed.

(** A state comes from a successful answer. *)
Lemma prepared_state lo ans state :
  (prepareOAuthState aff lo ans).2 = Ok state → truthy state = true →
  ∃ r, ans = Ok r ∧ truthy (prop_opt (prop_opt r "data") "success") = true ∧
       state = prop_opt (prop_opt r "data") "data".
Proof.
  unfold prepareOAuthState, getOAuthState. destruct ans as [r|]; [|by destruct aff as [[]|]].
  destruct (prop _ _) as [x|] eqn:E; [|done].
  assert (x = prop_opt (prop_opt r "data") "success") as -> by by apply prop_Ok.
  destruct (truthy (prop_opt (prop_opt r "data") "success")) eqn:Es; cbn.
  - intros [= <-] _. eauto.
  - destruct (showError _); cbn; [|done]. by intros [= <-].
Qed.

(** No login page is opened without a state token of the server: an
    address opened by any of the five logins is the provider's address for
    a non-empty state that the server returned in a successful answer to the
    state request. *)
Theorem login_needs_state (l : login) (shouldLogout : bool) (ans : res jsval) (u : string) :
  opens u (start_login l shouldLogout ans).1 →
  ∃ r s, ans = Ok r ∧ truthy (prop_opt (prop_opt r "data") "success") = true ∧
    truthy (prop_opt (prop_opt r "data") "data") = true ∧
    to_str (prop_opt (prop_opt r "data") "data") = Ok s ∧ login_url l s = Ok u.
Proof.
  intros H. assert (∃ state s, (prepareOAuthState aff shouldLogout ans).2 = Ok state ∧
    truthy state = true ∧ to_str state = Ok s ∧ login_url l s = Ok u) as (state & s & Hp & Ht & Hs & Hu).
  { destruct l; cbn in H; apply with_state_opens in H as (state & Hp & Ht & Ho); exists state;
      (destruct (to_str state) as [s|e] eqn:Es; [exists s; split_and!; try done|]); revert Ho;
      unfold opens; cbn; rewrite ?Es; unfold mbind, res_bind; cbn;
      repeat case_match; cbn; set_solver. }
  destruct (prepared_state _ _ _ Hp Ht) as (r & -> & Hr & ->). eauto 10.
Qed.
End logins.

Definition state_answer : res jsval :=
  Ok (VObj [("data", VObj [("success", VBool true); ("data", VStr "xyz")])]).

Lemma login_needs_state_witness :
  ∃ s, login_url (λ _ _, Throw "") "https://api" (GitHub "id") s
       = Ok "https://github.com/login/oauth/authorize?client_id=id&state=xyz&scope=user:email".
Proof.
  destruct (login_needs_state (λ _ _, Throw "") "https://api" None (GitHub "id") true state_answer
    "https://github.com/login/oauth/authorize?client_id=id&state=xyz&scope=user:email")
    as (r & s & _ & _ & _ & _ & H).
  - left. vm_compute. repeat (first [by left|right]).
  - exists s. exact H.
Defined.

(** An error without a message makes the error handler itself fail. *)
Lemma handleApiError_no_message now : ∃ m, handleApiError now (VObj []) VNull = Throw m.
Proof. by eexists. Qed.
