(* ===== verification/Dates.v ===== *)
(** * Dates as the tables show and read them

    [timestamp2string], [timestamp2string1] and [isDataCrossYear] of
    [web/src/helpers/utils.jsx], over the calendar of ECMA-262: a date is a
    number of milliseconds since 1970 ([None] for an invalid date), its
    fields are read in local time.  The time zone is an argument: [toLocal]
    is the offset in force at an instant, [ofLocal] the offset used for a
    local time.  [date_parse] is [Date.parse] on the texts [timestamp2string]
    writes; other texts are read by the argument [legacy_parse], since the
    standard leaves them to the engine. *)
From Stdlib Require Import Ascii SpecFloat.
From S2P Require Import Prelude JsString JsNumber JsValue.
Local Open Scope Z_scope.

(** ** The calendar *)

Definition msPerDay : Z := 86400000.

(** Days from 1970-01-01 to the first day of year [y]. *)
Definition day_from_year (y : Z) : Z :=
  365 * (y - 1970) + (y - 1969) / 4 - (y - 1901) / 100 + (y - 1601) / 400.

Definition leap (y : Z) : bool :=
  (y mod 4 =? 0) && (negb (y mod 100 =? 0) || (y mod 400 =? 0)).

(** The year of day number [d]: an estimate by the mean length of a year,
    corrected by at most one. *)
Definition year_of_day (d : Z) : Z :=
  let y := 1970 + d * 400 / 146097 in
  if d <? day_from_year y then y - 1
  else if day_from_year (y + 1) <=? d then y + 1 else y.

Definition month_lengths (y : Z) : list Z :=
  [31; if leap y then 29 else 28; 31; 30; 31; 30; 31; 31; 30; 31; 30; 31].

(** Month (from [m] on) and day (from 0) of the [d]th day of these months. *)
Fixpoint find_month (lens : list Z) (m d : Z) : Z * Z :=
  match lens with
  | [] => (m, d)
  | n :: lens => if d <? n then (m, d) else find_month lens (m + 1) (d - n)
  end.

Definition sumZ (l : list Z) : Z := foldr Z.add 0 l.

(** Local fields: [getFullYear], [getMonth], [getDate], [getHours],
    [getMinutes], [getSeconds]. *)
Record fields := Fields {
  year : Z; month : Z; date : Z; hours : Z; minutes : Z; seconds : Z }.

Definition fields_of (local : Z) : fields :=
  let d := local / msPerDay in
  let r := local mod msPerDay in
  let y := year_of_day d in
  let '(m, dd) := find_month (month_lengths y) 0 (d - day_from_year y) in
  Fields y m (dd + 1) (r / 3600000) (r / 60000 mod 60) (r / 1000 mod 60).

(** The local time of such fields. *)
Definition local_of (f : fields) : Z :=
  (day_from_year (year f) + sumZ (take (Z.to_nat (month f)) (month_lengths (year f)))
   + (date f - 1)) * msPerDay
  + hours f * 3600000 + minutes f * 60000 + seconds f * 1000.

(** ** Dates *)

Section zone.
Context (toLocal ofLocal : Z → Z).
Context (legacy_parse : string → option Z).

(** [new Date(x)]: an integer number of milliseconds within 8.64e15. *)
Definition new_date (x : num) : option Z :=
  let t := num_to_Z x in
  if is_finite x && (Z.abs t <=? 8640000000000000) then Some t else None.

Definition local_fields (d : option Z) : option fields :=
  (λ ms, fields_of (ms + toLocal ms)) <$> d.

(** [date.getX().toString()]; the fields of an invalid date are [NaN]. *)
Definition field_str (f : fields → Z) (d : option fields) : string :=
  match d with Some x => pretty (f x) | None => "NaN" end.

(** [if (s.length === 1) s = '0' + s]. *)
Definition pad (s : string) : string :=
  if decide (String.length s = 1%nat) then "0" +:+ s else s.

Definition date2string (d : option fields) : string :=
  field_str year d +:+ "-" +:+ pad (field_str (λ f, month f + 1) d) +:+ "-" +:+ pad (field_str date d)
  +:+ " " +:+ pad (field_str hours d) +:+ ":" +:+ pad (field_str minutes d) +:+ ":"
  +:+ pad (field_str seconds d).

Definition timestamp2string (timestamp : num) : string :=
  date2string (local_fields (new_date (num_mul timestamp (num_of_Z 1000)))).

Definition day_str (showYear : bool) (d : option fields) : string :=
  let md := pad (field_str (λ f, month f + 1) d) +:+ "-" +:+ pad (field_str date d) in
  if showYear then field_str year d +:+ "-" +:+ md else md.

Definition timestamp2string1 (timestamp : num) (dataExportDefaultTime : string) (showYear : bool)
    : string :=
  let ms := num_mul timestamp (num_of_Z 1000) in
  let d := local_fields (new_date ms) in
  let str := day_str showYear d in
  if bool_decide (dataExportDefaultTime = "hour") then
    str +:+ " " +:+ pad (field_str hours d) +:+ ":00"
  else if bool_decide (dataExportDefaultTime = "week") then
    let nextWeek := local_fields (new_date (num_add ms (num_of_Z (6 * 24 * 60 * 60 * 1000)))) in
    str +:+ " - " +:+ day_str showYear nextWeek
  else str.

(** The years of the timestamps; an invalid date has the year [NaN]. *)
Definition isDataCrossYear (timestamps : list num) : bool :=
  let years := uniq ((λ ts, year <$> local_fields (new_date (num_mul ts (num_of_Z 1000))))
                     <$> timestamps) in
  bool_decide (1 < length years)%nat.

(** ** [Date.parse] *)

Definition digits (l : list ascii) : option Z :=
  if forallb is_digit l then Some (digits_to_Z l) else None.

(** The six numbers of a text [YYYY-MM-DD hh:mm:ss]. *)
Definition scan_date (s : string) : option fields :=
  match chars s with
  | [y1; y2; y3; y4; "-"; m1; m2; "-"; d1; d2; " "; h1; h2; ":"; i1; i2; ":"; s1; s2]%char =>
      y ← digits [y1; y2; y3; y4]; m ← digits [m1; m2]; d ← digits [d1; d2];
      h ← digits [h1; h2]; i ← digits [i1; i2]; s ← digits [s1; s2];
      Some (Fields y (m - 1) d h i s)
  | _ => None
  end.

Definition valid_fields (f : fields) : bool :=
  match month_lengths (year f) !! Z.to_nat (month f) with
  | Some n => (0 <=? month f) && (1 <=? date f) && (date f <=? n)
              && (hours f <? 24) && (minutes f <? 60) && (seconds f <? 60)
  | None => false
  end.

Definition parse_ms (s : string) : option Z :=
  match scan_date s with
  | Some f => if valid_fields f then let l := local_of f in Some (l - ofLocal l)
              else legacy_parse s
  | None => legacy_parse s
  end.

Definition date_parse (s : string) : num :=
  match parse_ms s with Some ms => num_of_Z ms | None => nan end.
End zone.

(** ** Calendar laws *)

Lemma day_from_year_step y :
  day_from_year (y + 1) = day_from_year y + (if leap y then 366 else 365).
Proof.
  unfold day_from_year, leap.
  destruct (Z.eqb_spec (y mod 4) 0), (Z.eqb_spec (y mod 100) 0), (Z.eqb_spec (y mod 400) 0);
    cbn [andb orb negb]; Z.to_euclidean_division_equations; lia.
Qed.

Lemma year_of_day_spec d :
  day_from_year (year_of_day d) ≤ d < day_from_year (year_of_day d + 1).
Proof.
  unfold year_of_day.
  destruct (Z.ltb_spec d (day_from_year (1970 + d * 400 / 146097)));
    [|destruct (Z.leb_spec (day_from_year (1970 + d * 400 / 146097 + 1)) d)];
    unfold day_from_year in *; Z.to_euclidean_division_equations; lia.
Qed.

Lemma find_month_spec lens m d m' d' :
  find_month lens m d = (m', d') → 0 ≤ d < sumZ lens →
  ∃ i n, m' = m + Z.of_nat i ∧ lens !! i = Some n ∧ 0 ≤ d' < n ∧ sumZ (take i lens) + d' = d.
Proof.
  revert m d. induction lens as [|n lens IH]; intros m d; cbn [find_month]; [cbn; lia|].
  destruct (Z.ltb_spec d n); intros H0 Hd.
  - injection H0 as <- <-. exists 0%nat, n. cbn. repeat split; auto; lia.
  - change (sumZ (n :: lens)) with (n + sumZ lens) in Hd.
    destruct (IH _ _ H0) as (i & k & -> & Hl & Hd' & Hs); [lia|].
    exists (S i), k. cbn [lookup list_lookup take sumZ foldr]. fold (sumZ (take i lens)). repeat split; auto; lia.
Qed.

Lemma sum_month_lengths y : sumZ (month_lengths y) = if leap y then 366 else 365.
Proof. unfold month_lengths. by destruct (leap y). Qed.

Lemma month_lengths_bounds y i n : month_lengths y !! i = Some n → (i < 12)%nat ∧ 28 ≤ n ≤ 31.
Proof.
  unfold month_lengths. intros H.
  do 12 (destruct i as [|i]; [cbn in H; injection H as <-; destruct (leap y); lia|]). done.
Qed.

(** The local fields are a calendar date, and give the local time back up to
    the milliseconds. *)
Lemma fields_of_spec l :
  valid_fields (fields_of l) = true ∧ local_of (fields_of l) = l - l mod 1000 ∧
  0 ≤ month (fields_of l) < 12 ∧ 1 ≤ date (fields_of l) ≤ 31 ∧ 0 ≤ hours (fields_of l) < 24 ∧
  0 ≤ minutes (fields_of l) < 60 ∧ 0 ≤ seconds (fields_of l) < 60.
Proof.
  unfold fields_of. set (d := l / msPerDay). set (r := l mod msPerDay).
  pose proof (year_of_day_spec d) as Hy. set (y := year_of_day d) in *.
  destruct (find_month _ _ _) as [m dd] eqn:E.
  apply find_month_spec in E as (i & n & -> & Hl & Hdd & Hs);
    [|rewrite sum_month_lengths; rewrite day_from_year_step in Hy; lia].
  destruct (month_lengths_bounds _ _ _ Hl) as [Hi Hn].
  assert (l = d * msPerDay + r ∧ 0 ≤ r < msPerDay) as [Hdr Hr]
    by (unfold d, r, msPerDay; Z.to_euclidean_division_equations; lia).
  unfold msPerDay in *. unfold valid_fields, local_of. cbn [year month date hours minutes seconds].
  rewrite Z.add_0_l, Nat2Z.id, Hl.
  assert (l mod 1000 = r mod 1000) as -> by (Z.to_euclidean_division_equations; lia).
  clearbody r. clear Hy. unfold msPerDay.
  repeat split; try lia; Z.to_euclidean_division_equations; lia.
Qed.

(** ** The text of a date reads back *)

(** A decidable property of a range of integers, checked by evaluation. *)
Lemma seqZ_check (P : Z → bool) m n :
  forallb P (seqZ m n) = true → ∀ z, m ≤ z < m + n → P z = true.
Proof. intros H z Hz. rewrite forallb_forall in H. apply H, list_elem_of_In, elem_of_seqZ. lia. Qed.

Definition two_digits (z : Z) : bool :=
  match chars (pad (pretty z)) with
  | [a; b] => bool_decide (digits [a; b] = Some z) | _ => false end.
Definition four_digits (z : Z) : bool :=
  match chars (pretty z) with
  | [a; b; c; d] => bool_decide (digits [a; b; c; d] = Some z) | _ => false end.

Lemma two_digits_table : forallb two_digits (seqZ 0 60) = true.
Proof. vm_compute. reflexivity. Qed.
Lemma four_digits_table : forallb four_digits (seqZ 1000 9000) = true.
Proof. vm_compute. reflexivity. Qed.

Lemma pad_digits z : 0 ≤ z < 60 →
  ∃ a b, chars (pad (pretty z)) = [a; b] ∧ digits [a; b] = Some z.
Proof.
  intros Hz. pose proof (seqZ_check _ _ _ two_digits_table z Hz) as H. unfold two_digits in H.
  destruct (chars (pad (pretty z))) as [|a [|b []]]; try done.
  exists a, b. split; [done|]. by apply bool_decide_eq_true in H.
Qed.

Lemma year_digits z : 1000 ≤ z < 10000 →
  ∃ a b c d, chars (pretty z) = [a; b; c; d] ∧ digits [a; b; c; d] = Some z.
Proof.
  intros Hz. pose proof (seqZ_check _ _ _ four_digits_table z Hz) as H. unfold four_digits in H.
  destruct (chars (pretty z)) as [|a [|b [|c [|d []]]]]; try done.
  exists a, b, c, d. split; [done|]. by apply bool_decide_eq_true in H.
Qed.

Lemma scan_date_string f :
  1000 ≤ year f < 10000 → 0 ≤ month f < 12 → 1 ≤ date f ≤ 31 → 0 ≤ hours f < 24 →
  0 ≤ minutes f < 60 → 0 ≤ seconds f < 60 → scan_date (date2string (Some f)) = Some f.
Proof.
  destruct f as [y m d h i s]; cbn. intros Hy Hm Hd Hh Hi Hs.
  destruct (year_digits y Hy) as (y1 & y2 & y3 & y4 & Ey & Vy).
  destruct (pad_digits (m + 1)) as (m1 & m2 & Em & Vm); [lia|].
  destruct (pad_digits d) as (d1 & d2 & Ed & Vd); [lia|].
  destruct (pad_digits h) as (h1 & h2 & Eh & Vh); [lia|].
  destruct (pad_digits i) as (i1 & i2 & Ei & Vi); [lia|].
  destruct (pad_digits s) as (s1 & s2 & Es & Vs); [lia|].
  unfold scan_date, date2string, field_str. cbn [year month date hours minutes seconds].
  rewrite !chars_app, Ey, Em, Ed, Eh, Ei, Es. cbn [app String.list_ascii_of_string].
  rewrite Vy, Vm, Vd, Vh, Vi, Vs. cbn. by replace (m + 1 - 1) with m by lia.
Qed.

(** What the tables write of a date with a four-digit year,
    [Date.parse] reads as that date without its milliseconds, provided the
    zone's offset at the local time is the one at the instant (no clock
    change in between). *)
Theorem date_text_roundtrip (toLocal ofLocal : Z → Z) (legacy : string → option Z) (ms : Z) :
  let local := ms + toLocal ms in
  1000 ≤ year (fields_of local) < 10000 →
  ofLocal (local - local mod 1000) = toLocal ms →
  parse_ms ofLocal legacy (date2string (local_fields toLocal (Some ms)))
  = Some (ms - local mod 1000).
Proof.
  intros local Hy Hz. destruct (fields_of_spec local) as (Hv & Hl & ? & ? & ? & ? & ?).
  unfold parse_ms, local_fields. cbn [fmap option_fmap option_map]. fold local.
  rewrite scan_date_string, Hv, Hl, Hz by done. f_equal. unfold local. lia.
Qed.

Lemma date_text_roundtrip_witness :
  parse_ms (λ _, 28800000) (λ _, None)
    (date2string (local_fields (λ _, 28800000) (Some 1709229599123))) = Some 1709229599000.
Proof.
  refine (date_text_roundtrip (λ _, 28800000) (λ _, 28800000) (λ _, None) 1709229599123 _ _);
    [by vm_compute|done].
Defined.
