(* ===== verification/LogTables.v ===== *)
(** * The task and drawing log tables

    [web/src/hooks/task-logs/useTaskLogsData.js] and
    [web/src/hooks/mj-logs/useMjLogsData.js]: paging, filters, visible
    columns and previews of the two log tables.  The hooks are one program
    over different constants, so the operations are written once over a
    record [table] of these constants, [task_table] and [mj_table] are its
    two values, and [LogTable] states the laws of the constants the theorems
    need.  [localStorage] is a map from keys to texts; a session starts by
    mounting the hook on the storage the previous one left.  A request runs
    up to its [await]; its continuation waits in [pending] and runs when the
    service answers, in any order.  The role is that of the user record in
    the storage, fixed while the hook is mounted; the form values, the clock
    and the time zone are arguments. *)
From Stdlib Require Import Ascii SpecFloat.
From S2P Require Import Prelude JsString JsNumber JsValue Json JsonRoundtrip ApiClient Dates.

(** [isAdmin()] of [helpers/utils.jsx]. *)
Definition isAdmin (storage : gmap string string) : res bool :=
  match storage !! "user" with
  | None | Some "" => Ok false
  | Some user =>
      match json_parse user with
      | None => Throw "Unexpected token in JSON"
      | Some user => role ← prop user "role"; n ← to_num role; Ok (num_leb (num_of_Z 10) n)
      end
  end.

Definition ITEMS_PER_PAGE : jsval := VNum (num_of_Z 10).

(** ** The constants of a table *)

Record table := Table {
  COLUMN_KEYS : list string;
  adminOnly : list string;          (** the columns only an administrator sees *)
  defaults : bool → obj;            (** [getDefaultColumnVisibility], by [isAdminUser] *)
  STORAGE_KEY : bool → string;
  pageSizeKey : string;
  idField : string;                 (** the form field and parameter of the task id *)
  adminUrl : string; selfUrl : string;
  startsLoading : bool;
  hasBanner : bool;
  defaultStart : Z → num;           (** from the clock, what [timestamp2string] gets *)
  sentTime : num → num;             (** from [Date.parse] to the request *)
  selectorHides : list string }.    (** columns the selector hides from users *)

(** ** State *)

Record modal := Modal { visible : bool; content : jsval }.

Inductive effect :=
| Get (url : string)
| ShowError (message : jsval)
| ShowSuccess (message : string)
| ModalError (title content : string).

(** A request under way: a page of logs, with the page size its handler
    saw, or the data of a user. *)
Inductive call := LoadCall (pageSize : jsval) | UserCall.

Record state := State {
  logs : list jsval; loading : bool;
  activePage : jsval; logCount : jsval; pageSize : jsval;
  showBanner : bool; visibleColumns : obj; showColumnSelector : bool;
  modals : gmap string modal;
  storage : gmap string string; pending : list call; effects : list effect }.

Definition set_page (l : list jsval) (count page size : jsval) (s : state) : state :=
  let '(State _ b _ _ _ f g h i j k e) := s in State l b page count size f g h i j k e.
Definition setLoading (b : bool) (s : state) : state :=
  let '(State a _ c d e f g h i j k l) := s in State a b c d e f g h i j k l.
Definition setPageSize (v : jsval) (s : state) : state :=
  let '(State a b c d _ f g h i j k l) := s in State a b c d v f g h i j k l.
Definition setShowBanner (x : bool) (s : state) : state :=
  let '(State a b c d e _ g h i j k l) := s in State a b c d e x g h i j k l.
Definition setVisibleColumns (o : obj) (s : state) : state :=
  let '(State a b c d e f _ h i j k l) := s in State a b c d e f o h i j k l.
Definition setShowColumnSelector (x : bool) (s : state) : state :=
  let '(State a b c d e f g _ i j k l) := s in State a b c d e f g x i j k l.
Definition setModal (n : string) (m : modal) (s : state) : state :=
  let '(State a b c d e f g h i j k l) := s in State a b c d e f g h (<[n := m]> i) j k l.
Definition setItem (key text : string) (s : state) : state :=
  let '(State a b c d e f g h i j k l) := s in State a b c d e f g h i (<[key := text]> j) k l.
Definition setPending (p : list call) (s : state) : state :=
  let '(State a b c d e f g h i j _ l) := s in State a b c d e f g h i j p l.
Definition emit (x : effect) (s : state) : state :=
  let '(State a b c d e f g h i j k l) := s in State a b c d e f g h i j k (l ++ [x]).

Section hook.
Context (T : table) (isAdminUser : bool).
Context (toLocal ofLocal : Z → Z) (legacy_parse : string → option Z).
Context (t : string → obj → string).

(** The state of a freshly mounted hook. *)
Definition fresh (st : gmap string string) : state :=
  State [] (startsLoading T) (VNum (num_of_Z 1)) (VNum (num_of_Z 0)) ITEMS_PER_PAGE
    false [] false ∅ st [] [].

(** ** Columns *)

Definition save_columns (o : obj) (s : state) : state :=
  setItem (STORAGE_KEY T isAdminUser) (stringify (VObj o)) s.

(** The effect that persists the visible columns after a render. *)
Definition persist (s : state) : state :=
  match visibleColumns s with [] => s | o => save_columns o s end.

Definition initDefaultColumns (s : state) : state :=
  let d := defaults T isAdminUser in save_columns d (setVisibleColumns d s).

Definition merged_columns (parsed : jsval) : obj :=
  let merged := obj_spread (defaults T isAdminUser) (spread_props parsed) in
  if isAdminUser then merged
  else foldl (λ o key, obj_set key (VBool false) o) merged (adminOnly T).

(** The effect that loads the saved columns. *)
Definition loadColumns (s : state) : state :=
  match storage s !! STORAGE_KEY T isAdminUser with
  | None | Some "" => initDefaultColumns s
  | Some savedColumns =>
      match json_parse savedColumns with
      | Some parsed => setVisibleColumns (merged_columns parsed) s
      | None => initDefaultColumns s
      end
  end.

(** The handlers that change the columns, with the effect that follows. *)
Definition handleColumnVisibilityChange (columnKey : string) (checked : bool) (s : state) : state :=
  persist (setVisibleColumns (obj_define columnKey (VBool checked) (visibleColumns s)) s).

Definition handleSelectAll (checked : bool) (s : state) : state :=
  persist (setVisibleColumns
    (foldl (λ o key, obj_set key
              (VBool (if bool_decide (key ∈ adminOnly T) && negb isAdminUser then false else checked)) o)
       [] (COLUMN_KEYS T)) s).

Definition resetColumns (s : state) : state := persist (initDefaultColumns s).

(** [visibleColumns[key]], as the table filters by it. *)
Definition column_shown (s : state) (key : string) : bool :=
  truthy (prop_opt (VObj (visibleColumns s)) key).

(** ** Filters *)

Record form_values := FormValues {
  channel_id : jsval; task_id : jsval; start_timestamp : jsval; end_timestamp : jsval }.

(** [now.getTime() / 1000 + 3600]. *)
Definition defaultEnd (now : Z) : num :=
  num_add (num_div (num_of_Z now) (num_of_Z 1000)) (num_of_Z 3600).

(** [form] is [formApi.getValues()], absent while there is no form.  A chosen
    date is represented by its text. *)
Definition getFormValues (now : Z) (form : option jsval) : form_values :=
  let formValues := default (VObj []) form in
  let field k := js_or (prop_opt formValues k) (VStr "") in
  let '(s, e) := match prop_opt formValues "dateRange" with
                 | VArr [s; e] => (s, e)
                 | _ => (VStr (timestamp2string toLocal (defaultStart T now)),
                         VStr (timestamp2string toLocal (defaultEnd now)))
                 end in
  FormValues (field "channel_id") (field (idField T)) s e.

(** ** Pages *)

Definition enrichLog (log : jsval) : res jsval :=
  created ← prop log "created_at";
  n ← to_num created;
  id ← prop log "id";
  key ← to_str id;
  Ok (VObj (obj_define "key" (VStr key)
       (obj_define "timestamp2string" (VStr (timestamp2string toLocal n))
          (obj_spread [] (spread_props log))))).

Definition enrichLogs (items : jsval) : res (list jsval) :=
  match items with
  | VArr l => res_map enrichLog l
  | _ => Throw "items.map is not a function"
  end.

(** [closure] is the page size the handler saw when it was called. *)
Definition syncPageData (payload closure : jsval) (s : state) : res state :=
  its ← prop payload "items";
  items ← enrichLogs (js_or its (VArr []));
  Ok (set_page items (js_or (prop_opt payload "total") (VNum (num_of_Z 0)))
        (js_or (prop_opt payload "page") (VNum (num_of_Z 1)))
        (js_or (prop_opt payload "page_size") closure) s).

Definition sent_date (v : jsval) : res string :=
  s ← to_str v; Ok (num_to_str (sentTime T (date_parse ofLocal legacy_parse s))).

Definition logs_url (now : Z) (form : option jsval) (page size : jsval) : res string :=
  let fv := getFormValues now form in
  from ← sent_date (start_timestamp fv);
  until ← sent_date (end_timestamp fv);
  p ← to_str page; n ← to_str size; id ← to_str (task_id fv);
  channel ← (if isAdminUser then c ← to_str (channel_id fv); Ok ("&channel_id=" +:+ c) else Ok "");
  Ok ((if isAdminUser then adminUrl T else selfUrl T) +:+ "?p=" +:+ p +:+ "&page_size=" +:+ n
      +:+ channel +:+ "&" +:+ idField T +:+ "=" +:+ id
      +:+ "&start_timestamp=" +:+ from +:+ "&end_timestamp=" +:+ until).

(** [loadLogs(page, size)] up to its [await]; an exception leaves the promise
    rejected and the state as it is then. *)
Definition loadLogs (now : Z) (form : option jsval) (page size : jsval) (s : state) : state :=
  let s1 := setLoading true s in
  match logs_url now form page size with
  | Throw _ => s1
  | Ok url => let s2 := emit (Get url) s1 in setPending (pending s2 ++ [LoadCall (pageSize s)]) s2
  end.

Definition handlePageChange (now : Z) (form : option jsval) (page : jsval) (s : state) : state :=
  loadLogs now form page (pageSize s) s.

Definition handlePageSizeChange (now : Z) (form : option jsval) (size : num) (s : state) : state :=
  loadLogs now form (VNum (num_of_Z 1)) (VNum size) (setItem (pageSizeKey T) (num_to_str size) s).

Definition refresh (now : Z) (form : option jsval) (s : state) : state :=
  loadLogs now form (VNum (num_of_Z 1)) (pageSize s) s.

(** [parseInt(localStorage.getItem(key)) || ITEMS_PER_PAGE]. *)
Definition savedPageSize (st : gmap string string) : jsval :=
  js_or (VNum (parse_int (default "null" (st !! pageSizeKey T)))) ITEMS_PER_PAGE.

(** The effect that loads the first page; the handler it calls is the one of
    the first render, whose page size is the initial one. *)
Definition loadFirstPage (now : Z) (s : state) : state :=
  let localPageSize := savedPageSize (storage s) in
  setPageSize localPageSize (loadLogs now None (VNum (num_of_Z 1)) localPageSize s).

Definition checkBanner (s : state) : state :=
  if hasBanner T && negb (bool_decide (storage s !! "mj_notify_enabled" = Some "true"))
  then setShowBanner true s else s.

(** Mounting: the effects in their order, then the persisting effect of the
    second render. *)
Definition mount (now : Z) (st : gmap string string) : state :=
  persist (loadFirstPage now (checkBanner (loadColumns (fresh st)))).

(** ** Previews, the clipboard and users *)

Definition openModal (name : string) (c : jsval) (s : state) : state := setModal name (Modal true c) s.
Definition openContentModal : jsval → state → state := openModal "content".
Definition openVideoModal : jsval → state → state := openModal "video".
Definition openAudioModal : jsval → state → state := openModal "audio".
Definition openImageModal : jsval → state → state := openModal "image".
(** [setIsModalOpen(false)] and the like: the content stays. *)
Definition closeModal (name : string) (s : state) : state :=
  setModal name (Modal false (default VUndef (content <$> modals s !! name))) s.

(** [copied] is the outcome of [copy(text)]. *)
Definition copyText (copied : bool) (text : string) (s : state) : state :=
  emit (if copied then ShowSuccess (t "已复制：" [] +:+ text)
        else ModalError (t "无法复制到剪贴板，请手动复制" []) text) s.

Definition showUserInfoFunc (userId : jsval) (s : state) : state :=
  if negb isAdminUser then s
  else match to_str userId with
       | Throw _ => s
       | Ok id => let s := emit (Get ("/api/user/" +:+ id)) s in
                  setPending (pending s ++ [UserCall]) s
       end.

(** ** Answers *)

Inductive answer := Resolved (res : jsval) | Rejected.

(** [showError(message)], then [k]; it throws for a missing message. *)
Definition refused (message : jsval) (k : state → state) (s : state) : state :=
  match showError message with Ok _ => k (emit (ShowError message) s) | Throw _ => s end.

(** The rest of [loadLogs] and [showUserInfoFunc]; an exception ends the
    handler where it occurs. *)
Definition on_answer (c : call) (a : answer) (s : state) : state :=
  match a with
  | Rejected => s
  | Resolved r =>
      match prop (prop_opt r "data") "success" with
      | Throw _ => s
      | Ok success =>
          let message := prop_opt (prop_opt r "data") "message" in
          let data := prop_opt (prop_opt r "data") "data" in
          match c with
          | LoadCall closure =>
              if truthy success then
                match syncPageData data closure s with
                | Ok s => setLoading false s
                | Throw _ => s
                end
              else refused message (setLoading false) s
          | UserCall =>
              if truthy success then openModal "user" data s else refused message (λ s, s) s
          end
      end
  end.

(** Answer the request number [k]. *)
Definition settle (k : nat) (a : answer) (s : state) : state :=
  match pending s !! k with
  | None => s
  | Some c => on_answer c a (setPending (delete k (pending s)) s)
  end.

(** ** Events *)

(** The checkboxes of the column selector. *)
Definition selectable (key : string) : Prop :=
  key ∈ COLUMN_KEYS T ∧ (isAdminUser = true ∨ key ∉ selectorHides T).

Inductive step : state → state → Prop :=
| step_toggle key b s : selectable key → step s (handleColumnVisibilityChange key b s)
| step_all b s : step s (handleSelectAll b s)
| step_reset s : step s (resetColumns s)
| step_selector b s : step s (setShowColumnSelector b s)
| step_page now form p s : step s (handlePageChange now form p s)
| step_size now form n s : step s (handlePageSizeChange now form n s)
| step_refresh now form s : step s (refresh now form s)
| step_modal n c s : step s (openModal n c s)
| step_close n s : step s (closeModal n s)
| step_copy b x s : step s (copyText b x s)
| step_user u s : step s (showUserInfoFunc u s)
| step_settle k a s : step s (settle k a s).
End hook.

(** ** The two tables *)

Section tables.
Context (toLocal ofLocal : Z → Z).

(** [new Date(now.getFullYear(), now.getMonth(), now.getDate())]. *)
Definition zeroNow (now : Z) : Z :=
  let f := fields_of (now + toLocal now) in
  let l := local_of (Fields (year f) (month f) (date f) 0 0 0) in
  (l - ofLocal l)%Z.

Definition task_columns : list string :=
  ["submit_time"; "finish_time"; "duration"; "channel"; "username"; "platform"; "type"; "task_id";
   "task_status"; "progress"; "fail_reason"; "result_url"].

Definition task_defaults (isAdminUser : bool) : obj :=
  [("submit_time", VBool true); ("finish_time", VBool true); ("duration", VBool true);
   ("channel", VBool isAdminUser); ("username", VBool isAdminUser); ("platform", VBool true);
   ("type", VBool true); ("task_id", VBool true); ("task_status", VBool true);
   ("progress", VBool true); ("fail_reason", VBool true); ("result_url", VBool true)].

Definition task_table : table := {|
  COLUMN_KEYS := task_columns;
  adminOnly := ["channel"; "username"];
  defaults := task_defaults;
  STORAGE_KEY := λ a, if a then "task-logs-table-columns-admin" else "task-logs-table-columns-user";
  pageSizeKey := "task-page-size";
  idField := "task_id";
  adminUrl := "/api/task/"; selfUrl := "/api/task/self";
  startsLoading := false; hasBanner := false;
  defaultStart := λ now, num_div (num_of_Z (zeroNow now)) (num_of_Z 1000);
  sentTime := λ ms, parse_int (num_to_str (num_div ms (num_of_Z 1000)));
  selectorHides := ["channel"] |}.

Definition mj_columns : list string :=
  ["submit_time"; "duration"; "channel"; "type"; "task_id"; "submit_result"; "task_status";
   "progress"; "image"; "prompt"; "prompt_en"; "fail_reason"].

Definition mj_defaults (isAdminUser : bool) : obj :=
  [("submit_time", VBool true); ("duration", VBool true); ("channel", VBool isAdminUser);
   ("type", VBool true); ("task_id", VBool true); ("submit_result", VBool isAdminUser);
   ("task_status", VBool true); ("progress", VBool true); ("image", VBool true);
   ("prompt", VBool true); ("prompt_en", VBool true); ("fail_reason", VBool true)].

Definition mj_table : table := {|
  COLUMN_KEYS := mj_columns;
  adminOnly := ["channel"; "submit_result"];
  defaults := mj_defaults;
  STORAGE_KEY := λ a, if a then "mj-logs-table-columns-admin" else "mj-logs-table-columns-user";
  pageSizeKey := "mj-page-size";
  idField := "mj_id";
  adminUrl := "/api/mj/"; selfUrl := "/api/mj/self/";
  startsLoading := true; hasBanner := true;
  defaultStart := λ now, num_add (num_div (num_of_Z now) (num_of_Z 1000)) (num_of_Z (-2592000));
  sentTime := λ ms, ms;
  selectorHides := ["channel"; "submit_result"] |}.
End tables.

(** The operations of the drawing log hook. *)
Section mj.
Context (isAdminUser : bool) (toLocal ofLocal : Z → Z) (legacy_parse : string → option Z).

Definition mj_loadColumns : state → state := loadColumns mj_table isAdminUser.
Definition mj_checkBanner : state → state := checkBanner mj_table.
Definition mj_initDefaultColumns : state → state := initDefaultColumns mj_table isAdminUser.
Definition mj_handleColumnVisibilityChange : string → bool → state → state :=
  handleColumnVisibilityChange mj_table isAdminUser.
Definition mj_handleSelectAll : bool → state → state := handleSelectAll mj_table isAdminUser.
Definition mj_persist : state → state := persist mj_table isAdminUser.
Definition mj_getFormValues : Z → option jsval → form_values := getFormValues mj_table toLocal.
Definition mj_enrichLogs : jsval → res (list jsval) := enrichLogs toLocal.
Definition mj_syncPageData : jsval → jsval → state → res state := syncPageData toLocal.
Definition mj_loadLogs : Z → option jsval → jsval → jsval → state → state :=
  loadLogs mj_table isAdminUser toLocal ofLocal legacy_parse.
Definition mj_handlePageSizeChange : Z → option jsval → num → state → state :=
  handlePageSizeChange mj_table isAdminUser toLocal ofLocal legacy_parse.
Definition mj_loadFirstPage : Z → state → state :=
  loadFirstPage mj_table isAdminUser toLocal ofLocal legacy_parse.
End mj.

(** ** Laws of the constants *)

Class LogTable (T : table) : Prop := {
  keys_json : keys_ok [] (COLUMN_KEYS T) = true;
  keys_nonempty : COLUMN_KEYS T ≠ [];
  keys_no_proto : "__proto__" ∉ COLUMN_KEYS T;
  admin_keys : ∀ k, k ∈ adminOnly T → k ∈ COLUMN_KEYS T;
  defaults_by_role : ∀ a, defaults T a =
    (λ k, (k, VBool (if bool_decide (k ∈ adminOnly T) then a else true))) <$> COLUMN_KEYS T;
  role_keys : STORAGE_KEY T true ≠ STORAGE_KEY T false;
  size_key : ∀ a, pageSizeKey T ≠ STORAGE_KEY T a }.

(** The column selector of the table hides every column of administrators. *)
Class SelectorGuards (T : table) : Prop :=
  selector_hides : ∀ k, k ∈ adminOnly T → k ∈ selectorHides T.

#[export] Instance task_log_table toLocal ofLocal : LogTable (task_table toLocal ofLocal).
Proof.
  split; [by vm_compute|done|by apply (bool_decide_unpack _); vm_compute| |by intros []|done|by intros []].
  intros k. cbn. set_solver.
Qed.
#[export] Instance mj_log_table : LogTable mj_table.
Proof.
  split; [by vm_compute|done|by apply (bool_decide_unpack _); vm_compute| |by intros []|done|by intros []].
  intros k. cbn. set_solver.
Qed.
#[export] Instance mj_selector_guards : SelectorGuards mj_table.
Proof. intros k. cbn. set_solver. Qed.

(** ** Columns as functions *)

Section columns.
Context (T : table) `{!LogTable T}.

(** The object that shows column [k] iff [f k]. *)
Definition columns (f : string → bool) : obj := (λ k, (k, VBool (f k))) <$> COLUMN_KEYS T.

Lemma columns_keys f : obj_keys (columns f) = COLUMN_KEYS T.
Proof. unfold obj_keys, columns. rewrite <-list_fmap_compose. apply list_fmap_id. Qed.

Lemma columns_nonempty f : columns f ≠ [].
Proof. unfold columns. pose proof keys_nonempty. by destruct (COLUMN_KEYS T). Qed.

Lemma columns_json f : json_ok (VObj (columns f)) = true.
Proof.
  rewrite json_ok_obj, columns_keys, keys_json. apply forallb_forall.
  by intros [k v] (k' & [= -> ->] & _)%list_elem_of_In%list_elem_of_fmap.
Qed.

Lemma columns_get f k :
  obj_get (columns f) k = if decide (k ∈ COLUMN_KEYS T) then Some (VBool (f k)) else None.
Proof.
  unfold columns. clear. induction (COLUMN_KEYS T) as [|k0 ks IH]; cbn; [done|].
  repeat case_decide; set_solver.
Qed.

Definition default_shown (isAdminUser : bool) (k : string) : bool :=
  if bool_decide (k ∈ adminOnly T) then isAdminUser else true.

Lemma defaults_columns a : defaults T a = columns (default_shown a).
Proof. apply defaults_by_role. Qed.

Lemma columns_ext f g : (∀ k, k ∈ COLUMN_KEYS T → f k = g k) → columns f = columns g.
Proof. intros H. apply list_fmap_ext. intros i k Hk%list_elem_of_lookup_2. by rewrite H. Qed.

Lemma keys_NoDup : NoDup (COLUMN_KEYS T).
Proof.
  assert (∀ pre ks, keys_ok pre ks = true → NoDup ks ∧ ∀ k, k ∈ pre → k ∉ ks) as H.
  { intros pre ks. revert pre. induction ks as [|k ks IH]; intros pre; cbn; [set_solver by constructor|].
    unfold key_after. intros [[Hk%bool_decide_eq_true _]%andb_true_iff (Hn & Hi)%IH]%andb_true_iff.
    split; [|set_solver]. constructor; [|done]. apply Hi. set_solver. }
  by apply (H []), keys_json.
Qed.

Definition with_column (k : string) (b : bool) (f : string → bool) : string → bool :=
  λ k', if decide (k' = k) then b else f k'.

Lemma columns_define f k b :
  k ∈ COLUMN_KEYS T → obj_define k (VBool b) (columns f) = columns (with_column k b f).
Proof.
  intros Hk. unfold obj_define. rewrite columns_get, decide_True by done.
  unfold columns, with_column. pose proof keys_NoDup as Hn. revert Hk Hn. clear.
  induction (COLUMN_KEYS T) as [|k0 ks IH]; cbn [fmap list_fmap obj_replace]; [set_solver|].
  intros Hk [H0 Hn]%NoDup_cons. destruct (decide (k = k0)) as [->|Hne].
  - rewrite decide_True by done. f_equal. apply list_fmap_ext. intros i k Hi%list_elem_of_lookup_2.
    rewrite decide_False; [done|]. by intros ->.
  - rewrite (decide_False (P := k0 = k)) by done. f_equal. apply IH; [set_solver|done].
Qed.

Lemma columns_set f k b :
  k ∈ COLUMN_KEYS T → obj_set k (VBool b) (columns f) = columns (with_column k b f).
Proof.
  intros Hk. unfold obj_set. rewrite decide_False; [by apply columns_define|].
  intros ->. by destruct keys_no_proto.
Qed.

(** Assigning [g k] to every column [k] of a list. *)
Lemma columns_set_all f g ks :
  (∀ k, k ∈ ks → k ∈ COLUMN_KEYS T) →
  foldl (λ o k, obj_set k (VBool (g k)) o) (columns f) ks
  = columns (λ k, if decide (k ∈ ks) then g k else f k).
Proof.
  revert f. induction ks as [|k ks IH]; intros f Hks; cbn [foldl].
  - apply columns_ext. intros k _. by rewrite decide_False by set_solver.
  - rewrite columns_set, IH by set_solver. apply columns_ext. intros k' _.
    unfold with_column. repeat case_decide; set_solver.
Qed.

(** The object that is built column by column. *)
Lemma columns_build g :
  foldl (λ o k, obj_set k (VBool (g k)) o) [] (COLUMN_KEYS T) = columns g.
Proof.
  pose proof keys_no_proto as Hp. pose proof keys_json as Hk. unfold columns.
  assert (∀ pre ks, keys_ok (obj_keys pre) ks = true → "__proto__" ∉ ks →
    foldl (λ o k, obj_set k (VBool (g k)) o) pre ks = pre ++ ((λ k, (k, VBool (g k))) <$> ks)) as H.
  { intros pre ks. revert pre. induction ks as [|k ks IH]; intros pre; cbn [foldl keys_ok fmap list_fmap].
    - by rewrite app_nil_r.
    - intros [Ha Hr]%andb_true_iff Hn. unfold obj_set at 2. rewrite decide_False by set_solver.
      rewrite obj_define_after by done. rewrite IH; [by rewrite <-app_assoc| |set_solver].
      unfold obj_keys in *. by rewrite fmap_app. }
  by apply (H []).
Qed.

Lemma columns_spread f g : obj_spread (columns f) (columns g) = columns g.
Proof.
  transitivity (columns (λ k, if decide (k ∈ COLUMN_KEYS T) then g k else f k));
    [|apply columns_ext; intros k Hk; by rewrite decide_True].
  rewrite <-columns_set_all by done. unfold obj_spread, columns.
  pose proof keys_no_proto as Hp. generalize ((λ k, (k, VBool (f k))) <$> COLUMN_KEYS T).
  induction (COLUMN_KEYS T) as [|k ks IH]; intros o; cbn [foldl fmap list_fmap fst snd]; [done|].
  rewrite IH by set_solver. unfold obj_set at 3. by rewrite decide_False by set_solver.
Qed.
End columns.

(** ** Sessions *)

Section sessions.
Context (T : table) `{!LogTable T} (isAdminUser : bool).
Context (toLocal ofLocal : Z → Z) (legacy : string → option Z) (t : string → obj → string).
Abbreviation mount := (mount T isAdminUser toLocal ofLocal legacy).
Abbreviation step := (step T isAdminUser toLocal ofLocal legacy t).

(** The states of a session that starts on the storage [st]. *)
Inductive session (st : gmap string string) : state → Prop :=
| session_mount now : session st (mount now st)
| session_step s s' : session st s → step s s' → session st s'.

(** A property of all states of a session. *)
Lemma session_invariant (P : state → Prop) st :
  (∀ now, P (mount now st)) → (∀ s s', step s s' → P s → P s') → ∀ s, session st s → P s.
Proof. intros Hm Hs s H. induction H; eauto. Qed.

(** What an operation leaves of the columns and the storage. *)
Definition same_columns (s s' : state) : Prop :=
  visibleColumns s' = visibleColumns s ∧
  ∀ k, k ≠ pageSizeKey T → storage s' !! k = storage s !! k.

Lemma same_columns_load now form p n s :
  same_columns s (loadLogs T isAdminUser toLocal ofLocal legacy now form p n s).
Proof. unfold loadLogs. by destruct (logs_url _ _ _ _ _ _ _ _ _), s. Qed.

Lemma refused_state m k s : refused m k s = s ∨ refused m k s = k (emit (ShowError m) s).
Proof. unfold refused. destruct (showError m); auto. Qed.

Lemma same_columns_answer c a s : same_columns s (on_answer toLocal c a s).
Proof.
  unfold on_answer. destruct a as [r|]; [|done]. destruct (prop _ _) as [x|]; [|done].
  destruct c as [closure|], (truthy x).
  - unfold syncPageData. destruct (prop _ _) as [y|]; [|done].
    unfold mbind, res_bind. destruct (enrichLogs _ _); by destruct s.
  - edestruct refused_state as [->| ->]; by destruct s.
  - by destruct s.
  - edestruct refused_state as [->| ->]; by destruct s.
Qed.

(** Every event but the three on columns keeps columns and their storage. *)
Lemma step_cases s s' :
  step s s' →
  (∃ k b, selectable T isAdminUser k ∧ s' = handleColumnVisibilityChange T isAdminUser k b s) ∨
  (∃ b, s' = handleSelectAll T isAdminUser b s) ∨ s' = resetColumns T isAdminUser s ∨
  same_columns s s'.
Proof.
  destruct 1; eauto 6; do 3 right; try apply same_columns_load; try by destruct s.
  - unfold handlePageSizeChange.
    destruct (same_columns_load now form (VNum (num_of_Z 1)) (VNum n)
      (setItem (pageSizeKey T) (num_to_str n) s)) as [Hv Hs].
    split; [rewrite Hv; by destruct s|]. intros k Hk. rewrite Hs by done. destruct s; cbn.
    by rewrite lookup_insert_ne.
  - unfold showUserInfoFunc. destruct (negb _); [done|]. by destruct (to_str u), s.
  - unfold settle. destruct (pending s !! k); [|done].
    destruct (same_columns_answer c a (setPending (delete k (pending s)) s)) as [Hv Hs].
    split; [rewrite Hv; by destruct s|]. intros k' Hk. rewrite Hs by done. by destruct s.
Qed.

Lemma persist_columns f s :
  visibleColumns s = columns T f → persist T isAdminUser s = save_columns T isAdminUser (columns T f) s.
Proof. intros H. unfold persist. rewrite H. by destruct (columns T f) eqn:E; [apply columns_nonempty in E|]. Qed.

(** ** The columns survive *)

(** The visible columns are known columns, and the storage holds them. *)
Definition saved_columns (s : state) : Prop := ∃ f, visibleColumns s = columns T f ∧
  storage s !! STORAGE_KEY T isAdminUser = Some (stringify (VObj (columns T f))).

Lemma saved_persist f s :
  visibleColumns s = columns T f → saved_columns (persist T isAdminUser s).
Proof.
  intros H. exists f. rewrite (persist_columns _ _ H). destruct s; cbn in *.
  by rewrite lookup_insert_eq.
Qed.

Lemma saved_step s s' : step s s' → saved_columns s → saved_columns s'.
Proof.
  intros [(k & b & [Hk _] & ->)|[(b & ->)|[->|[Hv Hs]]]]%step_cases (f & Hf & Hst).
  - eapply saved_persist. destruct s; cbn in *. by rewrite Hf, columns_define.
  - eapply saved_persist. destruct s; cbn. by rewrite columns_build.
  - eapply saved_persist. destruct s; cbn. by apply defaults_columns.
  - exists f. rewrite Hv, Hs; [done|]. apply not_eq_sym, size_key.
Qed.

(** The storage a session may start on: no saved columns, or columns that an
    earlier session saved. *)
Definition stored_ok (st : gmap string string) : Prop :=
  match st !! STORAGE_KEY T isAdminUser with
  | None => True
  | Some text => ∃ f, text = stringify (VObj (columns T f))
  end.

Definition role_filter (f : string → bool) : string → bool :=
  λ k, if decide (k ∈ adminOnly T) then isAdminUser && f k else f k.

Lemma merged_columns_saved f : merged_columns T isAdminUser (VObj (columns T f)) = columns T (role_filter f).
Proof.
  unfold merged_columns, role_filter. cbn [spread_props own_props].
  rewrite defaults_columns, columns_spread by done. destruct isAdminUser; [apply columns_ext; intros; by case_decide|].
  rewrite (columns_set_all T f (λ _, false)) by apply admin_keys. apply columns_ext.
  intros; by case_decide.
Qed.

Lemma stringify_columns f : ∃ c x, stringify (VObj (columns T f)) = String c x.
Proof.
  pose proof (json_parse_stringify _ (columns_json T f)) as H.
  destruct (stringify _); [by vm_compute in H|eauto].
Qed.

Lemma mount_columns_kept now s :
  visibleColumns (persist T isAdminUser
    (loadFirstPage T isAdminUser toLocal ofLocal legacy now (checkBanner T s))) = visibleColumns s ∧
  ∀ k, k ≠ STORAGE_KEY T isAdminUser → storage (persist T isAdminUser
    (loadFirstPage T isAdminUser toLocal ofLocal legacy now (checkBanner T s))) !! k = storage s !! k.
Proof.
  set (b := checkBanner T s). assert (visibleColumns b = visibleColumns s ∧ storage b = storage s) as [<- <-].
  { unfold b, checkBanner. by destruct (_ && _), s. }
  unfold loadFirstPage, loadLogs. destruct (logs_url _ _ _ _ _ _ _ _ _), b as [? ? ? ? ? ? v];
    unfold persist; cbn; destruct v; cbn; split; try done; intros; by rewrite lookup_insert_ne.
Qed.

Lemma mount_saved now st f :
  st !! STORAGE_KEY T isAdminUser = Some (stringify (VObj (columns T f))) →
  visibleColumns (mount now st) = columns T (role_filter f).
Proof.
  intros H. unfold LogTables.mount. destruct (mount_columns_kept now (loadColumns T isAdminUser (fresh T st))) as [-> _].
  unfold loadColumns. cbn [storage fresh]. rewrite H.
  pose proof (json_parse_stringify _ (columns_json T f)) as Hp.
  destruct (stringify_columns f) as (c & x & E). rewrite E in *. rewrite Hp. cbn.
  apply merged_columns_saved.
Qed.

Lemma mount_columns now st : stored_ok st → ∃ f, visibleColumns (mount now st) = columns T f.
Proof.
  unfold stored_ok. destruct (st !! _) as [x|] eqn:E; [intros [f ->]; eauto using mount_saved|].
  intros _. exists (default_shown T isAdminUser).
  unfold LogTables.mount. destruct (mount_columns_kept now (loadColumns T isAdminUser (fresh T st))) as [-> _].
  unfold loadColumns. cbn [storage fresh]. rewrite E. cbn. by apply defaults_columns.
Qed.

Lemma session_saved st s : stored_ok st → session st s → saved_columns s.
Proof.
  intros Hst. apply session_invariant; [|by apply saved_step].
  intros now. destruct (mount_columns now st Hst) as [f Hf].
  unfold LogTables.mount in *. eapply saved_persist. revert Hf. unfold persist.
  destruct (visibleColumns (loadFirstPage _ _ _ _ _ _ _)) eqn:E; [by rewrite E|].
  unfold save_columns. intros <-. rewrite <-E. by destruct (loadFirstPage _ _ _ _ _ _ _).
Qed.

Lemma column_shown_columns f s k :
  visibleColumns s = columns T f → k ∈ COLUMN_KEYS T → column_shown s k = f k.
Proof.
  intros H Hk. unfold column_shown. rewrite H. cbn. by rewrite columns_get, decide_True.
Qed.

(** The columns a user has chosen survive: whatever happens in a session
    that starts on an empty or previously saved storage, a new session on
    the storage it leaves shows every column that was shown, except that a
    user who is not an administrator never gets a column of administrators
    back. *)
Theorem columns_survive (now : Z) (st : gmap string string) (s : state) (k : string) :
  stored_ok st → session st s → k ∈ COLUMN_KEYS T →
  column_shown (mount now (storage s)) k =
    (if bool_decide (k ∈ adminOnly T) then isAdminUser && column_shown s k else column_shown s k).
Proof.
  intros Hst Hs Hk. destruct (session_saved _ _ Hst Hs) as (f & Hf & Hsaved).
  rewrite (column_shown_columns _ _ _ (mount_saved now _ _ Hsaved) Hk).
  rewrite (column_shown_columns _ _ _ Hf Hk). unfold role_filter.
  by repeat case_decide; repeat case_bool_decide.
Qed.

(** ** The roles do not touch each other's columns *)

Lemma other_role_key : STORAGE_KEY T (negb isAdminUser) ≠ STORAGE_KEY T isAdminUser.
Proof. pose proof role_keys. destruct isAdminUser; cbn; congruence. Qed.

Lemma loadColumns_other st k :
  k ≠ STORAGE_KEY T isAdminUser → storage (loadColumns T isAdminUser (fresh T st)) !! k = st !! k.
Proof.
  intros Hk. unfold loadColumns, initDefaultColumns, save_columns. cbn [storage fresh].
  repeat case_match; try done; cbn; by rewrite lookup_insert_ne.
Qed.

Lemma persist_other o s k :
  k ≠ STORAGE_KEY T isAdminUser →
  storage (persist T isAdminUser (setVisibleColumns o s)) !! k = storage s !! k.
Proof.
  intros Hk. unfold persist, save_columns. destruct s; cbn. destruct o; cbn; [done|].
  by rewrite lookup_insert_ne.
Qed.

(** A session changes nothing in the storage but the columns of its own
    role and the page size: the columns of the other role, the user record
    and everything else stay as they were. *)
Theorem storage_footprint (st : gmap string string) (s : state) (k : string) :
  session st s → k ≠ STORAGE_KEY T isAdminUser → k ≠ pageSizeKey T →
  storage s !! k = st !! k.
Proof.
  intros Hs Hk Hp. revert s Hs. apply session_invariant.
  - intros now. unfold LogTables.mount.
    destruct (mount_columns_kept now (loadColumns T isAdminUser (fresh T st))) as [_ ->];
      [by apply loadColumns_other|done].
  - intros s s' [(k' & b & _ & ->)|[(b & ->)|[->|[_ H]]]]%step_cases <-;
      [by apply persist_other..| |by apply H].
    unfold resetColumns, initDefaultColumns, save_columns. unfold persist.
    destruct s; cbn. destruct (defaults T isAdminUser); cbn; by rewrite !lookup_insert_ne.
Qed.

(** ** Requests of users *)

(** Every request goes to the user's own endpoint. *)
Definition self_only (s : state) : Prop :=
  ∀ url, Get url ∈ effects s → starts_with (selfUrl T +:+ "?p=") url = true.

Lemma prefix_app a b c : String.prefix (a +:+ b) (a +:+ c) = String.prefix b c.
Proof. induction a as [|x a IH]; simpl; [done|]. destruct (Ascii.ascii_dec x x); [done|congruence]. Qed.

Lemma prefix_self p c : String.prefix p (p +:+ c) = true.
Proof. induction p as [|x p IH]; simpl; [by destruct c|]. by destruct (Ascii.ascii_dec x x). Qed.

(** An operation that sends nothing. *)
Definition quiet (s s' : state) : Prop := ∀ url, Get url ∈ effects s' → Get url ∈ effects s.

Lemma quiet_emit x s : (∀ url, x ≠ Get url) → quiet s (emit x s).
Proof.
  intros Hx url. destruct s; cbn. rewrite elem_of_app, list_elem_of_singleton. intros [H|H]; [done|].
  by destruct (Hx url).
Qed.

Lemma quiet_persist s : quiet s (persist T isAdminUser s).
Proof. unfold persist, save_columns. intros url. destruct s as [? ? ? ? ? ? []]; done. Qed.

Lemma quiet_answer c a s : quiet s (on_answer toLocal c a s).
Proof.
  unfold on_answer. destruct a as [r|]; [|by intros ?]. destruct (prop _ _) as [x|]; [|by intros ?].
  destruct c, (truthy x).
  - unfold syncPageData. destruct (prop _ _) as [y|]; [|by intros ?].
    unfold mbind, res_bind. destruct (enrichLogs _ _), s; by intros ?.
  - edestruct refused_state as [->| ->]; [by intros ?|].
    intros url H. apply (quiet_emit (ShowError (prop_opt (prop_opt r "data") "message")) s); [done|].
    by destruct s.
  - destruct s; by intros ?.
  - edestruct refused_state as [->| ->]; [by intros ?|]. by apply quiet_emit.
Qed.

Lemma quiet_self s s' : quiet s s' → self_only s → self_only s'.
Proof. intros Hq Hs url H. by apply Hs, Hq. Qed.

Lemma self_load now form p n s :
  isAdminUser = false → self_only s →
  self_only (loadLogs T isAdminUser toLocal ofLocal legacy now form p n s).
Proof.
  intros Ha Hs. unfold loadLogs. destruct (logs_url _ _ _ _ _ _ _ _ _) as [u|] eqn:E; [|by destruct s].
  intros url. destruct s; cbn in *. rewrite elem_of_app, list_elem_of_singleton.
  intros [H|[= ->]]; [by apply Hs|].
  unfold logs_url in E. rewrite Ha in E.
  repeat (apply res_bind_Ok in E as (? & _ & E)). injection E as <-.
  unfold starts_with. rewrite prefix_app. apply prefix_self.
Qed.

Lemma self_step s s' : isAdminUser = false → step s s' → self_only s → self_only s'.
Proof.
  intros Ha Hst Hs. destruct Hst; try (by apply self_load); try (by destruct s).
  - eapply quiet_self; [apply quiet_persist|]. by destruct s.
  - eapply quiet_self; [apply quiet_persist|]. by destruct s.
  - eapply quiet_self; [apply quiet_persist|]. by destruct s.
  - apply self_load; [done|]. by destruct s.
  - eapply quiet_self; [apply quiet_emit|done]. by destruct b.
  - unfold showUserInfoFunc. by rewrite Ha.
  - unfold settle. destruct (pending s !! k); [|done].
    eapply quiet_self; [apply quiet_answer|]. by destruct s.
Qed.

(** C37.  A user who is not an administrator only asks for his own logs: in
    every session, under all orders of events and answers, every request
    goes to the table's own-logs endpoint; the endpoints of administrators,
    for all logs and for the data of users, are never called. *)
Theorem user_requests_self (st : gmap string string) (s : state) (url : string) :
  isAdminUser = false → session st s → Get url ∈ effects s →
  starts_with (selfUrl T +:+ "?p=") url = true.
Proof.
  intros Ha Hs. revert url. change (self_only s). revert s Hs. apply session_invariant.
  - intros now. eapply quiet_self; [apply quiet_persist|]. unfold loadFirstPage.
    enough (self_only (loadLogs T isAdminUser toLocal ofLocal legacy now None (VNum (num_of_Z 1))
      (savedPageSize T (storage (checkBanner T (loadColumns T isAdminUser (fresh T st)))))
      (checkBanner T (loadColumns T isAdminUser (fresh T st))))) as H
      by (revert H; by destruct (loadLogs _ _ _ _ _ _ _ _ _ _)).
    apply self_load; [done|]. intros url. unfold checkBanner, loadColumns.
    repeat case_match; cbn; set_solver.
  - intros s s'. by apply self_step.
Qed.

(** ** Columns of administrators *)

Definition admin_hidden (o : obj) : Prop := ∀ k, k ∈ adminOnly T → obj_get o k = Some (VBool false).

Lemma hidden_columns f : (∀ k, k ∈ adminOnly T → f k = false) → admin_hidden (columns T f).
Proof. intros H k Hk. rewrite columns_get, decide_True by by apply admin_keys. by rewrite H. Qed.

Lemma hidden_merged v : isAdminUser = false → admin_hidden (merged_columns T isAdminUser v).
Proof.
  intros Ha k. unfold merged_columns. rewrite Ha. generalize (obj_spread (defaults T false) (spread_props v)).
  pose proof keys_no_proto as Hp. pose proof admin_keys as Hk0. revert Hk0.
  induction (adminOnly T) as [|k0 ks IH] using rev_ind; intros Hk0 o; [set_solver|].
  rewrite foldl_app. cbn [foldl]. intros Hk. rewrite obj_get_set.
  destruct (decide (k = k0)) as [->|Hne].
  - rewrite decide_True; [done|]. split; [done|]. intros ->. apply Hp, Hk0. set_solver.
  - rewrite decide_False by naive_solver. apply IH; set_solver.
Qed.

Lemma hidden_step `{!SelectorGuards T} s s' :
  isAdminUser = false → step s s' → admin_hidden (visibleColumns s) → admin_hidden (visibleColumns s').
Proof.
  intros Ha Hs H.
  assert (Hp : ∀ s, visibleColumns (persist T isAdminUser s) = visibleColumns s)
    by (intros u; unfold persist, save_columns; by destruct u as [? ? ? ? ? ? []]).
  apply step_cases in Hs as [(k & b & [_ Hk] & ->)|[(b & ->)|[->|[-> _]]]]; [| | |done].
  - unfold handleColumnVisibilityChange. rewrite Hp. destruct s; cbn in *. intros k' Hk'.
    rewrite obj_get_define_ne; [by apply H|]. intros <-. apply selector_hides in Hk'.
    destruct Hk; [congruence|done].
  - unfold handleSelectAll. rewrite Hp. destruct s; cbn. rewrite columns_build by done.
    apply hidden_columns. intros k Hk. rewrite Ha, bool_decide_true; done.
  - unfold resetColumns. rewrite Hp. destruct s; cbn. rewrite defaults_columns by done.
    apply hidden_columns. intros k Hk. unfold default_shown. by rewrite bool_decide_true.
Qed.

(** Where the column selector hides them, the columns of administrators
    stay invisible to everyone else: in every session of a user, on any
    storage content whatever, none of them is ever shown. *)
Theorem admin_columns_hidden `{!SelectorGuards T} (st : gmap string string) (s : state) (k : string) :
  isAdminUser = false → session st s → k ∈ adminOnly T → column_shown s k = false.
Proof.
  intros Ha Hs Hk. cut (admin_hidden (visibleColumns s)).
  { intros H. unfold column_shown. cbn. by rewrite H. }
  revert s Hs. apply session_invariant; [|intros; by eapply hidden_step].
  intros now. unfold LogTables.mount.
  destruct (mount_columns_kept now (loadColumns T isAdminUser (fresh T st))) as [-> _].
  unfold loadColumns, initDefaultColumns.
  assert (admin_hidden (defaults T isAdminUser)) as Hd.
  { rewrite defaults_columns by done. apply hidden_columns. intros k' Hk'. unfold default_shown.
    by rewrite bool_decide_true. }
  repeat case_match; try done. by apply hidden_merged.
Qed.

(** ** The page size survives *)

(** A page size chosen among the options of the table is the one the next
    session starts with. *)
Lemma page_size_survives now now' form n s :
  n ∈ [10; 20; 50; 100]%Z →
  pageSize (mount now' (storage (handlePageSizeChange T isAdminUser toLocal ofLocal legacy now form
                                   (num_of_Z n) s))) = VNum (num_of_Z n).
Proof.
  intros Hn. set (st := storage _). assert (st !! pageSizeKey T = Some (num_to_str (num_of_Z n))) as Hst.
  { unfold st, handlePageSizeChange, loadLogs. destruct (logs_url _ _ _ _ _ _ _ _ _), s; cbn;
      by rewrite lookup_insert_eq. }
  assert (storage (loadColumns T isAdminUser (fresh T st)) !! pageSizeKey T
          = Some (num_to_str (num_of_Z n))) as Hl.
  { rewrite loadColumns_other; [done|apply size_key]. }
  unfold LogTables.mount. set (u := loadColumns _ _ _) in *.
  assert (storage (checkBanner T u) = storage u) as Hb by (unfold checkBanner; by destruct (_ && _), u).
  assert (savedPageSize T (storage (checkBanner T u)) = VNum (num_of_Z n)) as Hn'.
  { unfold savedPageSize. rewrite Hb, Hl.
    repeat (apply elem_of_cons in Hn as [->|Hn]; [by vm_compute|]). set_solver. }
  unfold loadFirstPage. rewrite Hn'.
  unfold persist, save_columns. set (v := loadLogs _ _ _ _ _ _ _ _ _ _).
  destruct v as [? ? ? ? ? ? []]; done.
Qed.

(** ** The loading flag *)

(** Answering a request for a page with a page or a refusal ends the loading
    state; when the request itself fails, or the answer has no data, the
    flag stays as it is: the table keeps its spinner. *)
Lemma answer_loading closure a s :
  loading (on_answer toLocal (LoadCall closure) a s) =
    match a with
    | Rejected => loading s
    | Resolved r =>
        match prop (prop_opt r "data") "success" with
        | Throw _ => loading s
        | Ok success =>
            if truthy success
            then loading s && negb (is_ok (syncPageData toLocal
                   (prop_opt (prop_opt r "data") "data") closure s))
            else loading s && negb (is_ok (showError (prop_opt (prop_opt r "data") "message")))
        end
    end.
Proof.
  unfold on_answer. destruct a as [r|]; [|done]. destruct (prop _ _) as [x|]; [|done].
  destruct (truthy x).
  - destruct (syncPageData _ _ _ _) as [[]|]; cbn; by rewrite ?andb_true_r, ?andb_false_r.
  - unfold refused. destruct (showError _), s; cbn; by rewrite ?andb_true_r, ?andb_false_r.
Qed.
End sessions.

(** ** Examples *)

Abbreviation utc := (λ _ : Z, 0%Z).
Abbreviation no_legacy := (λ _ : string, @None Z).

(** The first request of a user on 2024-03-05, 12:00:00 UTC: today's logs. *)
Example task_first_request :
  effects (mount (task_table utc utc) false utc utc no_legacy 1709640000000 ∅)
  = [Get "/api/task/self?p=1&page_size=10&task_id=&start_timestamp=1709596800&end_timestamp=1709643600"].
Proof. by vm_compute. Qed.

Example mj_first_request :
  effects (mount mj_table true utc utc no_legacy 1709640000000 ∅)
  = [Get "/api/mj/?p=1&page_size=10&channel_id=&mj_id=&start_timestamp=1707048000000&end_timestamp=1709643600000"].
Proof. by vm_compute. Qed.

(** The column selector of the task table leaves [username] to users, who
    can show this column of administrators for the rest of the session. *)
Lemma task_username_selectable :
  let T := task_table utc utc in
  selectable T false "username" ∧ "username" ∈ adminOnly T ∧
  column_shown (handleColumnVisibilityChange T false "username" true
    (mount T false utc utc no_legacy 1709640000000 ∅)) "username" = true.
Proof. split_and!; [split; [|right]; cbn; set_solver|cbn; set_solver|by vm_compute]. Qed.

(** A request that fails leaves the table loading. *)
Lemma failed_load_keeps_loading :
  let s := mount (task_table utc utc) false utc utc no_legacy 1709640000000 ∅ in
  loading (settle utc 0 Rejected s) = true ∧ pending (settle utc 0 Rejected s) = [].
Proof. by vm_compute. Qed.

(** ** Witnesses *)

(** A user opens the task table, hides [type] and sees an error. *)
Definition some_session : state :=
  settle utc 0 Rejected
    (handleColumnVisibilityChange (task_table utc utc) false "type" false
       (mount (task_table utc utc) false utc utc no_legacy 1709640000000 ∅)).

Lemma some_session_reached :
  session (task_table utc utc) false utc utc no_legacy (λ k _, k) ∅ some_session.
Proof.
  eapply session_step; [|apply step_settle]. eapply session_step; [apply session_mount|].
  apply step_toggle. split; [|right]; cbn; set_solver.
Qed.

Lemma columns_survive_witness :
  column_shown (mount (task_table utc utc) false utc utc no_legacy 0 (storage some_session)) "type"
  = false.
Proof.
  rewrite (columns_survive (task_table utc utc) false utc utc no_legacy (λ k _, k) 0 ∅ some_session "type");
    [by vm_compute|done|apply some_session_reached|cbn; set_solver].
Defined.

Lemma storage_footprint_witness :
  storage some_session !! "task-logs-table-columns-admin" = None.
Proof.
  exact (storage_footprint (task_table utc utc) false utc utc no_legacy (λ k _, k) ∅ some_session
    "task-logs-table-columns-admin" some_session_reached ltac:(done) ltac:(done)).
Defined.

Lemma user_requests_self_witness :
  starts_with "/api/task/self?p="
    "/api/task/self?p=1&page_size=10&task_id=&start_timestamp=1709596800&end_timestamp=1709643600" = true.
Proof.
  apply (user_requests_self (task_table utc utc) false utc utc no_legacy (λ k _, k) ∅ some_session);
    [done|apply some_session_reached|].
  change (effects some_session) with (effects (mount (task_table utc utc) false utc utc no_legacy
    1709640000000 ∅)).
  rewrite task_first_request. by left.
Defined.

Lemma admin_columns_hidden_witness :
  column_shown (mount mj_table false utc utc no_legacy 0
    {["mj-logs-table-columns-user" := qtext "{'channel':true}"]}) "channel" = false.
Proof.
  apply (admin_columns_hidden mj_table false utc utc no_legacy (λ k _, k)
    {["mj-logs-table-columns-user" := qtext "{'channel':true}"]});
    [done|apply session_mount|cbn; set_solver].
Defined.
