(* ===== verification/Passkey.v ===== *)
(** * Passkey conversions

    [web/src/helpers/passkey.js]: the conversions between the JSON of the
    server, where binary data is base64url text, and the objects of the
    browser's credential API, where it is an [ArrayBuffer].  A buffer and a
    binary string (one code unit per byte) are lists of bytes; how the
    browser represents a buffer inside an object is the argument
    [array_buffer].  [btoa] and [atob] are the encoder and the forgiving
    decoder of the web platform. *)
From Stdlib Require Import Ascii SpecFloat ZifyNat.
From S2P Require Import Prelude JsString JsNumber JsValue.
Local Open Scope N_scope.

Abbreviation bytes := (list ascii).
Abbreviation code := N_of_ascii.

(** ** [btoa] and [atob] *)

Definition char64 (n : N) : ascii :=
  ascii_of_N (if n <? 26 then 65 + n else if n <? 52 then 71 + n else if n <? 62 then n - 4
              else if n =? 62 then 43 else 47).

Definition val64 (c : ascii) : option N :=
  let n := code c in
  if (65 <=? n) && (n <=? 90) then Some (n - 65)
  else if (97 <=? n) && (n <=? 122) then Some (n - 71)
  else if (48 <=? n) && (n <=? 57) then Some (n + 4)
  else if n =? 43 then Some 62 else if n =? 47 then Some 63 else None.

(** The digits of some bytes, without padding. *)
Fixpoint digits64 (l : bytes) : list N :=
  match l with
  | a :: b :: c :: r =>
      code a / 4 :: (code a mod 4) * 16 + code b / 16 :: (code b mod 16) * 4 + code c / 64
      :: code c mod 64 :: digits64 r
  | [a; b] => [code a / 4; (code a mod 4) * 16 + code b / 16; (code b mod 16) * 4]
  | [a] => [code a / 4; (code a mod 4) * 16]
  | [] => []
  end.

Definition padding (n : nat) : list ascii := replicate ((4 - n `mod` 4) `mod` 4)%nat "="%char.

Definition btoa (l : bytes) : list ascii :=
  (char64 <$> digits64 l) ++ padding (length (digits64 l)).

(** The bytes of some digits; left-over bits are dropped, a single left-over
    digit is an error. *)
Fixpoint undigits64 (l : list N) : option bytes :=
  match l with
  | a :: b :: c :: d :: r =>
      rest ← undigits64 r;
      Some (ascii_of_N (a * 4 + b / 16) :: ascii_of_N ((b mod 16) * 16 + c / 4)
            :: ascii_of_N ((c mod 4) * 64 + d) :: rest)
  | [a; b; c] => Some [ascii_of_N (a * 4 + b / 16); ascii_of_N ((b mod 16) * 16 + c / 4)]
  | [a; b] => Some [ascii_of_N (a * 4 + b / 16)]
  | [_] => None
  | [] => Some []
  end.

Definition is_space (c : ascii) : bool := bool_decide (code c ∈ [9; 10; 12; 13; 32]).

(** Remove one or two [=] at the end of a text whose length divides by 4. *)
Definition strip_padding (l : list ascii) : list ascii :=
  if decide (length l `mod` 4 = 0)%nat then
    match reverse l with
    | "="%char :: "="%char :: r => reverse r
    | "="%char :: r => reverse r
    | _ => l
    end
  else l.

Definition atob (text : list ascii) : res bytes :=
  let l := strip_padding (filter (λ c, is_space c = false) text) in
  match mapM val64 l with
  | None => Throw "The string to be decoded is not correctly encoded."
  | Some ds => match undigits64 ds with
               | Some b => Ok b
               | None => Throw "The string to be decoded is not correctly encoded."
               end
  end.

(** ** The conversions *)

Definition replace_char (c d : ascii) (l : list ascii) : list ascii :=
  (λ x, if decide (x = c) then d else x) <$> l.

(** [.replace(/=+$/g, '')]. *)
Fixpoint drop_while_eq (l : list ascii) : list ascii :=
  match l with "="%char :: l => drop_while_eq l | _ => l end.
Definition strip_equals (l : list ascii) : list ascii := reverse (drop_while_eq (reverse l)).

(** [base64UrlToBuffer(base64url)] of a text. *)
Definition base64url_bytes (s : string) : res bytes :=
  match s with
  | "" => Ok []
  | _ => let l := chars s in
         atob (replace_char "_" "/" (replace_char "-" "+" (l ++ padding (length l))))
  end.

(** A value that is not a text is converted by the concatenation with the
    padding, which is empty unless the value has a length. *)
Definition base64UrlToBuffer (v : jsval) : res bytes :=
  if negb (truthy v) then Ok []
  else match v with
       | VStr s => base64url_bytes s
       | _ => s ← to_str v;
              let pad := match v with VArr l => padding (length l) | _ => [] end in
              atob (replace_char "_" "/" (replace_char "-" "+" (chars s ++ pad)))
       end.

(** [bufferToBase64Url(buffer)]; [None] is a missing buffer. *)
Definition bufferToBase64Url (buffer : option bytes) : string :=
  match buffer with
  | None => ""
  | Some b => of_chars (strip_equals (replace_char "/" "_" (replace_char "+" "-" (btoa b))))
  end.

(** ** Options of the server *)

Section browser.
Context (array_buffer : bytes → jsval).

Definition to_buffer (v : jsval) : res jsval := b ← base64UrlToBuffer v; Ok (array_buffer b).

Definition public_key_options (payload : jsval) : jsval :=
  js_or (js_or (js_or (prop_opt payload "publicKey") (prop_opt payload "PublicKey"))
           (prop_opt payload "response")) (prop_opt payload "Response").

(** [{ ...item, id: base64UrlToBuffer(item.id) }]. *)
Definition with_id (item : jsval) : res jsval :=
  id ← prop item "id";
  b ← to_buffer id;
  Ok (VObj (obj_define "id" b (obj_spread [] (spread_props item)))).

(** [if (Array.isArray(v)) publicKey[key] = v.map(...)]. *)
Definition convert_ids (key : string) (options : jsval) (publicKey : obj) : res obj :=
  match prop_opt options key with
  | VArr l => items ← res_map with_id l; Ok (obj_set key (VArr items) publicKey)
  | _ => Ok publicKey
  end.

Definition prepareCredentialCreationOptions (payload : jsval) : res jsval :=
  let options := public_key_options payload in
  if negb (truthy options) then Throw "无法从服务端响应中解析 Passkey 注册参数"
  else
    challenge ← to_buffer (prop_opt options "challenge");
    id ← to_buffer (prop_opt (prop_opt options "user") "id");
    let user := VObj (obj_define "id" id (obj_spread [] (spread_props (prop_opt options "user")))) in
    let publicKey := obj_define "user" user
                       (obj_define "challenge" challenge (obj_spread [] (spread_props options))) in
    publicKey ← convert_ids "excludeCredentials" options publicKey;
    Ok (VObj (match prop_opt options "attestationFormats" with
              | VArr [] => obj_delete "attestationFormats" publicKey
              | _ => publicKey
              end)).

Definition prepareCredentialRequestOptions (payload : jsval) : res jsval :=
  let options := public_key_options payload in
  if negb (truthy options) then Throw "无法从服务端响应中解析 Passkey 登录参数"
  else
    challenge ← to_buffer (prop_opt options "challenge");
    let publicKey := obj_define "challenge" challenge (obj_spread [] (spread_props options)) in
    publicKey ← convert_ids "allowCredentials" options publicKey;
    Ok (VObj publicKey).
End browser.

(** ** Credentials of the browser *)

(** What the handlers read of a [PublicKeyCredential]; [extensions] is the
    result of [getClientExtensionResults], absent when there is no such
    method or it returns nothing, [transports] that of [getTransports]. *)
Record credential := Credential {
  cred_id : jsval; rawId : option bytes; cred_type : jsval; attachment : jsval;
  clientDataJSON : option bytes;
  attestationObject : option bytes; transports : option jsval;
  authenticatorData : option bytes; signature : option bytes; userHandle : option bytes;
  extensions : option jsval }.

Definition b64 (b : option bytes) : jsval := VStr (bufferToBase64Url b).

Definition credential_result (c : credential) (response : obj) : jsval :=
  VObj [("id", cred_id c); ("rawId", b64 (rawId c)); ("type", cred_type c);
        ("authenticatorAttachment", attachment c); ("response", VObj response);
        ("clientExtensionResults", default (VObj []) (extensions c))].

Definition buildRegistrationResult (c : option credential) : jsval :=
  match c with
  | None => VNull
  | Some c => credential_result c
      [("attestationObject", b64 (attestationObject c)); ("clientDataJSON", b64 (clientDataJSON c));
       ("transports", default VUndef (transports c))]
  end.

Definition buildAssertionResult (a : option credential) : jsval :=
  match a with
  | None => VNull
  | Some a => credential_result a
      [("authenticatorData", b64 (authenticatorData a)); ("clientDataJSON", b64 (clientDataJSON a));
       ("signature", b64 (signature a));
       ("userHandle", match userHandle a with Some h => b64 (Some h) | None => VNull end)]
  end.

(** ** Support *)

(** The two methods of [window.PublicKeyCredential], absent or with the
    outcome of their promise. *)
Record passkey_api := PasskeyApi {
  isConditionalMediationAvailable : option (res bool);
  isUserVerifyingPlatformAuthenticatorAvailable : option (res bool) }.

Definition isPasskeySupported (api : option passkey_api) : bool :=
  match api with
  | None => false
  | Some api =>
      match isConditionalMediationAvailable api with
      | Some (Ok true) => true
      | _ => match isUserVerifyingPlatformAuthenticatorAvailable api with
             | Some (Ok available) => available
             | Some (Throw _) => false
             | None => true
             end
      end
  end.

(** ** Round trip *)

Lemma code_lt (c : ascii) : code c < 256.
Proof. apply N_ascii_bounded. Qed.

(** A base64 character decodes to its digit, and is none of the characters
    the conversions treat specially. *)
Definition char64_ok (n : N) : bool :=
  let c := char64 n in
  bool_decide (val64 c = Some n) && negb (is_space c)
  && bool_decide (c ≠ "="%char ∧ c ≠ "-"%char ∧ c ≠ "_"%char).

Lemma char64_spec n : n < 64 → char64_ok n = true.
Proof.
  intros Hn. assert (forallb char64_ok (N.of_nat <$> seq 0 64) = true) as H by by vm_compute.
  rewrite forallb_forall in H. apply H, list_elem_of_In, list_elem_of_fmap.
  exists (N.to_nat n). split; [lia|]. apply elem_of_seq. lia.
Qed.

(** Induction by groups of three bytes. *)
Lemma triples_ind (P : bytes → Prop) :
  P [] → (∀ a, P [a]) → (∀ a b, P [a; b]) → (∀ a b c r, P r → P (a :: b :: c :: r)) → ∀ l, P l.
Proof.
  intros H0 H1 H2 H3. fix IH 1. intros [|a [|b [|c r]]]; [done|apply H1|apply H2|apply H3, IH].
Qed.

Ltac code_bounds :=
  repeat match goal with
  | c : ascii |- _ => lazymatch goal with
                      | _ : code c < 256 |- _ => fail
                      | _ => pose proof (code_lt c)
                      end
  end;
  zify; Z.to_euclidean_division_equations; lia.

Lemma digits64_lt l : Forall (λ n, n < 64) (digits64 l).
Proof.
  induction l using triples_ind; cbn [digits64]; rewrite ?Forall_cons, ?Forall_nil;
    split_and?; try done; code_bounds.
Qed.

Lemma ascii_of_code n c : n = code c → ascii_of_N n = c.
Proof. intros ->. apply ascii_N_embedding. Qed.

(** Decoding the digits of some bytes gives the bytes. *)
Lemma undigits_digits l : undigits64 (digits64 l) = Some l.
Proof.
  induction l as [|a|a b|a b c r IH] using triples_ind; cbn [digits64 undigits64]; [done| | |].
  - repeat f_equal; apply ascii_of_code; code_bounds.
  - repeat f_equal; apply ascii_of_code; code_bounds.
  - rewrite IH. cbn. repeat f_equal; apply ascii_of_code; code_bounds.
Qed.

(** A full group never leaves one digit over. *)
Lemma digits64_length l : (length (digits64 l) `mod` 4 ≠ 1)%nat.
Proof.
  induction l as [|a|a b|a b c r IH] using triples_ind; cbn [digits64 length]; [done..|].
  zify; Z.to_euclidean_division_equations; lia.
Qed.

Definition encoded (l : bytes) : list ascii := char64 <$> digits64 l.

Lemma encoded_ok l :
  Forall (λ c, c ≠ "="%char ∧ c ≠ "-"%char ∧ c ≠ "_"%char ∧ is_space c = false) (encoded l).
Proof.
  unfold encoded. apply Forall_fmap. eapply Forall_impl; [apply digits64_lt|]. intros n Hn.
  apply char64_spec in Hn. unfold char64_ok in Hn. cbn.
  apply andb_true_iff in Hn as [[_ Hs]%andb_true_iff (? & ? & ?)%bool_decide_eq_true].
  apply negb_true_iff in Hs. done.
Qed.

Lemma mapM_encoded l : mapM val64 (encoded l) = Some (digits64 l).
Proof.
  unfold encoded. apply mapM_Some. pose proof (digits64_lt l) as H.
  induction H as [|n ds Hn _ IH]; cbn; constructor; [|done].
  apply char64_spec in Hn. unfold char64_ok in Hn.
  by apply andb_true_iff in Hn as [[?%bool_decide_eq_true _]%andb_true_iff _].
Qed.

(** The padding is at most two characters long. *)
Lemma encoded_padding l :
  padding (length (encoded l)) = [] ∨ padding (length (encoded l)) = ["="%char]
  ∨ padding (length (encoded l)) = ["="; "="]%char.
Proof.
  pose proof (digits64_length l) as H. unfold encoded, padding. rewrite length_fmap.
  assert (∃ k, (4 - length (digits64 l) `mod` 4) `mod` 4 = k ∧ k ≤ 2)%nat as (k & -> & Hk).
  { eexists. split; [done|]. zify; Z.to_euclidean_division_equations; lia. }
  destruct k as [|[|[|]]]; cbn; auto. lia.
Qed.

Lemma padded_length n : ((n + length (padding n)) `mod` 4 = 0)%nat.
Proof.
  unfold padding. rewrite length_replicate. zify; Z.to_euclidean_division_equations; lia.
Qed.

Lemma last_not_equals (l : list ascii) x r :
  Forall (λ c, c ≠ "="%char) l → reverse l = x :: r → x ≠ "="%char.
Proof.
  intros H E. apply Forall_reverse in H. rewrite E in H. by apply Forall_cons in H as [? _].
Qed.

Lemma drop_while_eq_id l : (∀ r, l ≠ "="%char :: r) → drop_while_eq l = l.
Proof.
  intros H. destruct l as [|[[] [] [] [] [] [] [] []] r]; try done. by destruct (H r).
Qed.

Lemma strip_equals_padding l n : Forall (λ c, c ≠ "="%char) l → strip_equals (l ++ padding n) = l.
Proof.
  intros H. unfold strip_equals, padding. rewrite reverse_app, reverse_replicate.
  set (k := (_ `mod` 4)%nat). clearbody k. induction k as [|k IH]; [|done]. cbn [replicate app].
  rewrite drop_while_eq_id, reverse_involutive; [done|]. intros r E.
  by eapply last_not_equals in E.
Qed.

Lemma strip_padding_padded l :
  strip_padding (encoded l ++ padding (length (encoded l))) = encoded l.
Proof.
  unfold strip_padding. rewrite length_app, decide_True by apply padded_length.
  assert (Forall (λ c, c ≠ "="%char) (encoded l)) as H
    by (eapply Forall_impl; [apply encoded_ok|]; naive_solver).
  destruct (encoded_padding l) as [Ep|[Ep|Ep]]; rewrite Ep, ?app_nil_r, ?reverse_app; cbn [reverse rev_append app].
  - destruct (reverse (encoded l)) as [|x r] eqn:E; [done|]. pose proof (last_not_equals _ _ _ H E).
    by destruct x as [[] [] [] [] [] [] [] []].
  - destruct (reverse (encoded l)) as [|x r] eqn:E.
    + apply (f_equal reverse) in E. by rewrite reverse_involutive in E.
    + pose proof (last_not_equals _ _ _ H E).
      rewrite <-(reverse_involutive (encoded l)), E. by destruct x as [[] [] [] [] [] [] [] []].
  - apply reverse_involutive.
Qed.

Lemma replace_char_app c d l k : replace_char c d (l ++ k) = replace_char c d l ++ replace_char c d k.
Proof. apply fmap_app. Qed.

Lemma replace_char_padding c d n : c ≠ "="%char → replace_char c d (padding n) = padding n.
Proof.
  intros Hc. unfold replace_char, padding. rewrite fmap_replicate. by rewrite decide_False.
Qed.

(** The url alphabet. *)
Definition to_url (c : ascii) : ascii :=
  if decide (c = "+"%char) then "-"%char else if decide (c = "/"%char) then "_"%char else c.

Lemma replace_to_url l :
  replace_char "/" "_" (replace_char "+" "-" l) = to_url <$> l.
Proof.
  unfold replace_char. rewrite <-list_fmap_compose. apply list_fmap_ext. intros i c _. cbn.
  unfold to_url. repeat case_decide; simplify_eq; done.
Qed.

Lemma replace_of_url l :
  Forall (λ c, c ≠ "-"%char ∧ c ≠ "_"%char) l →
  replace_char "_" "/" (replace_char "-" "+" (to_url <$> l)) = l.
Proof.
  unfold replace_char. induction 1 as [|c l [H1 H2] _ IH]; cbn; [done|]. rewrite IH. f_equal.
  unfold to_url. repeat case_decide; simplify_eq; done.
Qed.

Lemma to_url_equals c : c ≠ "="%char → to_url c ≠ "="%char.
Proof. unfold to_url. repeat case_decide; done. Qed.

Lemma atob_btoa l : atob (btoa l) = Ok l.
Proof.
  unfold atob, btoa. fold (encoded l). rewrite <-(length_fmap char64). fold (encoded l).
  rewrite filter_all.
  - by rewrite strip_padding_padded, mapM_encoded, undigits_digits.
  - intros c [Hc|Hc]%elem_of_app.
    + pose proof (encoded_ok l) as H. rewrite Forall_forall in H. by apply H.
    + unfold padding in Hc. apply elem_of_replicate in Hc as [-> _]. done.
Qed.

Lemma to_url_encoded l :
  bufferToBase64Url (Some l) = of_chars (to_url <$> encoded l).
Proof.
  unfold bufferToBase64Url, btoa. fold (encoded l).
  rewrite !replace_char_app, !replace_char_padding, replace_to_url by done.
  rewrite strip_equals_padding; [done|].
  apply Forall_fmap. eapply Forall_impl; [apply encoded_ok|]. intros c (? & _). by apply to_url_equals.
Qed.

Lemma encoded_nil l : encoded l = [] → l = [].
Proof. by destruct l as [|a [|b [|c l]]]. Qed.

Lemma base64url_read l : base64url_bytes (of_chars (to_url <$> encoded l)) = Ok l.
Proof.
  unfold base64url_bytes. destruct (of_chars _) as [|c s] eqn:E.
  - apply (f_equal chars) in E. rewrite chars_of_chars in E. cbn in E.
    apply fmap_nil_inv, encoded_nil in E. by subst.
  - rewrite <-E, chars_of_chars, !replace_char_app, length_fmap, !replace_char_padding by done.
    rewrite replace_of_url by (eapply Forall_impl; [apply encoded_ok|]; naive_solver).
    rewrite <-(atob_btoa l). unfold btoa. fold (encoded l). by rewrite <-(length_fmap char64).
Qed.

Lemma base64UrlToBuffer_text s : base64UrlToBuffer (VStr s) = base64url_bytes s.
Proof. unfold base64UrlToBuffer. by destruct s. Qed.

(** C38.  Binary data survives the transport as text: every buffer, whatever
    its bytes and its length, is read back from its base64url text. *)
Theorem base64url_roundtrip (b : bytes) :
  base64UrlToBuffer (VStr (bufferToBase64Url (Some b))) = Ok b.
Proof. rewrite base64UrlToBuffer_text, to_url_encoded. apply base64url_read. Qed.

(** The text uses only the characters of the url alphabet. *)
Lemma base64url_alphabet b c :
  c ∈ chars (bufferToBase64Url (Some b)) → c ≠ "+"%char ∧ c ≠ "/"%char ∧ c ≠ "="%char.
Proof.
  rewrite to_url_encoded, chars_of_chars. intros (c' & -> & Hc)%list_elem_of_fmap.
  pose proof (encoded_ok b) as H. rewrite Forall_forall in H. destruct (H _ Hc) as (? & _).
  unfold to_url. repeat case_decide; simplify_eq; done.
Qed.

Section prepared.
Context (array_buffer : bytes → jsval).

Lemma with_id_ok item o b :
  item = VObj o → obj_get o "id" = Some (VStr (bufferToBase64Url (Some b))) →
  with_id array_buffer item = Ok (VObj (obj_define "id" (array_buffer b) (obj_spread [] o))).
Proof.
  intros -> Hid. unfold with_id, prop, prop_opt. rewrite Hid. unfold mbind, res_bind. cbn [from_option id].
  unfold to_buffer. by rewrite base64UrlToBuffer_text, to_url_encoded, base64url_read.
Qed.

(** The login options handed to the browser are those of the server:
    with options [o] whose challenge is the text of [challenge], the
    prepared object has that challenge as a buffer and every other property
    of [o] but the credential list unchanged; each listed credential keeps
    its properties and gets the bytes of its id. *)
Theorem request_options_faithful (o : obj) (challenge : bytes) (creds : list (obj * bytes))
    (payload : jsval) :
  NoDup (obj_keys o) →
  public_key_options payload = VObj o →
  obj_get o "challenge" = Some (VStr (bufferToBase64Url (Some challenge))) →
  obj_get o "allowCredentials" = Some (VArr (VObj <$> creds.*1)) →
  Forall (λ c, NoDup (obj_keys c.1) ∧
               obj_get c.1 "id" = Some (VStr (bufferToBase64Url (Some c.2)))) creds →
  ∃ publicKey items,
    prepareCredentialRequestOptions array_buffer payload = Ok (VObj publicKey) ∧
    obj_get publicKey "challenge" = Some (array_buffer challenge) ∧
    obj_get publicKey "allowCredentials" = Some (VArr (VObj <$> items)) ∧
    Forall2 (λ item c, obj_get item "id" = Some (array_buffer c.2) ∧
                       ∀ k, k ≠ "id" → obj_get item k = obj_get c.1 k) items creds ∧
    ∀ k, k ≠ "challenge" → k ≠ "allowCredentials" → obj_get publicKey k = obj_get o k.
Proof.
  intros Hn Hp Hc Ha HF. unfold prepareCredentialRequestOptions. rewrite Hp. cbn [truthy negb].
  unfold to_buffer, convert_ids. cbn [prop_opt]. rewrite Hc, Ha. cbn [from_option id].
  rewrite base64UrlToBuffer_text, to_url_encoded, base64url_read. unfold mbind, res_bind.
  set (f := λ c : obj * bytes, obj_define "id" (array_buffer c.2) (obj_spread [] c.1)).
  assert (res_map (with_id array_buffer) (VObj <$> creds.*1) = Ok (VObj <$> (f <$> creds))) as ->.
  { apply res_map_Ok. clear Ha. induction HF as [|c cs [? ?] _ IH]; cbn; [done|].
    constructor; [by apply with_id_ok|done]. }
  eexists _, (f <$> creds). split; [done|]. repeat split.
  - rewrite obj_get_set, decide_False by naive_solver. by rewrite obj_get_define_eq.
  - rewrite obj_get_set, decide_True by done. done.
  - apply Forall2_fmap_l, Forall_Forall2_diag. eapply Forall_impl; [exact HF|].
    intros c [Hd _]. unfold f. split; [apply obj_get_define_eq|]. intros k Hk.
    rewrite obj_get_define_ne, obj_get_spread by done. by destruct (obj_get c.1 k).
  - intros k H1 H2. rewrite obj_get_set, decide_False by naive_solver.
    rewrite obj_get_define_ne by done. cbn [spread_props own_props]. rewrite obj_get_spread by done.
    by destruct (obj_get o k).
Qed.
End prepared.

Example base64url_example :
  bufferToBase64Url (Some (chars "hi>?")) = "aGk-Pw" ∧ base64UrlToBuffer (VStr "aGk-Pw") = Ok (chars "hi>?").
Proof. by vm_compute. Qed.

Lemma request_options_faithful_witness :
  ∃ publicKey items,
    prepareCredentialRequestOptions (λ b, VStr (of_chars b))
      (VObj [("publicKey", VObj [("challenge", VStr "aGk-Pw"); ("timeout", VNum (num_of_Z 5));
         ("allowCredentials", VArr [VObj [("id", VStr "aGk"); ("type", VStr "public-key")]])])])
    = Ok (VObj publicKey) ∧ obj_get publicKey "challenge" = Some (VStr "hi>?") ∧
    obj_get publicKey "allowCredentials" = Some (VArr (VObj <$> items)).
Proof.
  destruct (request_options_faithful (λ b, VStr (of_chars b))
    [("challenge", VStr "aGk-Pw"); ("timeout", VNum (num_of_Z 5));
     ("allowCredentials", VArr [VObj [("id", VStr "aGk"); ("type", VStr "public-key")]])]
    (chars "hi>?") [([("id", VStr "aGk"); ("type", VStr "public-key")], chars "hi")]
    (VObj [("publicKey", VObj [("challenge", VStr "aGk-Pw"); ("timeout", VNum (num_of_Z 5));
         ("allowCredentials", VArr [VObj [("id", VStr "aGk"); ("type", VStr "public-key")]])])]))
    as (pk & items & H1 & H2 & H3 & _).
  - apply (bool_decide_unpack _). by vm_compute.
  - done.
  - by vm_compute.
  - done.
  - repeat constructor; try (by vm_compute); apply (bool_decide_unpack _); by vm_compute.
  - exists pk, items. done.
Defined.
