(* ===== verification/JsonEditor.v ===== *)
(** * The JSON editor

    [web/src/components/common/ui/JSONEditor.jsx]: an object edited as a list
    of key/value pairs (keys may repeat while they are edited) or as text.
    The state is that of the component and its [value] property; the parent
    is controlled: what [onChange] reports becomes the next [value], and the
    two effects on [value] run when it differs from the last one.  The
    counter of [generateUniqueId] is part of the state; the text of a JSON
    syntax error is the argument [syntax_error]. *)
From Stdlib Require Import Ascii SpecFloat.
From S2P Require Import Prelude JsString JsNumber JsValue Json JsonRoundtrip JsonKeys.

Record pair := Pair { id : string; key : string; val : jsval }.
Inductive edit_mode := Visual | Manual.
#[export] Instance edit_mode_eq_dec : EqDecision edit_mode.
Proof. solve_decision. Defined.

Record editor := Editor {
  value : jsval; keyValuePairs : list pair; manualText : string; editMode : edit_mode;
  jsonError : string; counter : N; changes : list string }.

Definition setValue (v : jsval) (e : editor) : editor :=
  Editor v (keyValuePairs e) (manualText e) (editMode e) (jsonError e) (counter e) (changes e).
Definition setPairs (ps : list pair) (n : N) (e : editor) : editor :=
  Editor (value e) ps (manualText e) (editMode e) (jsonError e) n (changes e).
Definition setManualText (s : string) (e : editor) : editor :=
  Editor (value e) (keyValuePairs e) s (editMode e) (jsonError e) (counter e) (changes e).
Definition setEditMode (m : edit_mode) (e : editor) : editor :=
  Editor (value e) (keyValuePairs e) (manualText e) m (jsonError e) (counter e) (changes e).
Definition setJsonError (s : string) (e : editor) : editor :=
  Editor (value e) (keyValuePairs e) (manualText e) (editMode e) s (counter e) (changes e).

(** ** Conversions *)

(** [`kv_${n}`]. *)
Definition kv (n : N) : string := "kv_" +:+ pretty n.

(** The pairs of some entries: the id of the pair at the same position is
    kept when its key is the same; [n] is the counter. *)
Fixpoint entries_to_pairs (entries : obj) (prev : list pair) (n : N) : list pair * N :=
  match entries with
  | [] => ([], n)
  | (k, v) :: entries =>
      let '(i, n) := match head prev with
                     | Some p => if decide (key p = k) then (id p, n) else (kv n, n + 1)%N
                     | None => (kv n, n + 1)%N
                     end in
      let '(ps, n) := entries_to_pairs entries (tail prev) n in
      (Pair i k v :: ps, n)
  end.

Definition objectToKeyValueArray (v : jsval) (prev : list pair) (n : N) : list pair * N :=
  match v with
  | VObj _ | VArr _ => entries_to_pairs (own_props v) prev n
  | _ => ([], n)
  end.

Definition keyValueArrayToObject (ps : list pair) : obj :=
  foldl (λ o p, set_if (negb (bool_decide (key p = ""))) (key p) (val p) o) [] ps.

(** The loop over the pairs: the keys seen, and the repeated ones.  Counts are
    kept in an object literal, so an inherited key is never counted. *)
Fixpoint duplicates_loop (ps : list pair) (seen dup : list string) : list string :=
  match ps with
  | [] => dup
  | p :: ps =>
      if decide (key p = "" ∨ key p ∈ inherited) then duplicates_loop ps seen dup
      else if decide (key p ∈ seen)
      then duplicates_loop ps seen (if decide (key p ∈ dup) then dup else dup ++ [key p])
      else duplicates_loop ps (seen ++ [key p]) dup
  end.
Definition duplicateKeys (ps : list pair) : list string := duplicates_loop ps [] [].

(** The text reported for an object. *)
Definition object_text (o : obj) : string :=
  match o with [] => "" | _ => stringify2 (VObj o) end.

Section component.
Context (syntax_error : string → string).

Definition parse (s : string) : res jsval :=
  match json_parse s with Some v => Ok v | None => Throw (syntax_error s) end.

(** The object a [value] stands for. *)
Definition value_object (v : jsval) : res jsval :=
  match v with
  | VStr s => if bool_decide (trim s = "") then Ok (VObj []) else parse s
  | VObj _ | VArr _ => Ok v
  | _ => Ok (VObj [])
  end.

Definition value_text (v : jsval) : string :=
  match v with VStr s => s | VObj _ | VArr _ => stringify2 v | _ => "" end.

(** ** Initial state *)

(** [Object.keys(parsed).length]; [None] when it throws. *)
Definition key_count (v : jsval) : option nat :=
  match v with VUndef | VNull => None | _ => Some (length (spread_props v)) end.

Definition initial_mode (v : jsval) : edit_mode :=
  match v with
  | VStr s =>
      if bool_decide (trim s = "") then Visual
      else match json_parse s with
           | Some parsed => match key_count parsed with
                            | Some n => if decide (10 < n) then Manual else Visual
                            | None => Manual
                            end
           | None => Manual
           end
  | _ => Visual
  end.

Definition initial_pairs (v : jsval) (n : N) : list pair * N :=
  match v with
  | VStr s => if bool_decide (trim s = "") then ([], n)
              else match json_parse s with
                   | Some parsed => objectToKeyValueArray parsed [] n
                   | None => ([], n)
                   end
  | _ => objectToKeyValueArray v [] n
  end.

(** ** Effects *)

(** The effect that follows a change of [value]. *)
Definition syncPairs (e : editor) : editor :=
  match value_object (value e) with
  | Throw m => setJsonError m e
  | Ok parsed =>
      let currentObj := keyValueArrayToObject (keyValuePairs e) in
      let e := if bool_decide (stringify parsed = stringify (VObj currentObj)) then e
               else let '(ps, n) := objectToKeyValueArray parsed (keyValuePairs e) (counter e) in
                    setPairs ps n e in
      setJsonError "" e
  end.

(** The effect that follows a change of [value] or of the mode. *)
Definition syncText (e : editor) : editor :=
  if decide (editMode e = Manual) then e else setManualText (value_text (value e)) e.

Definition mount (v : jsval) (n : N) : editor :=
  let '(ps, n) := initial_pairs v n in
  syncText (syncPairs (Editor v ps (value_text v) (initial_mode v) "" n [])).

(** The parent passes a new [value]. *)
Definition receive (v : jsval) (e : editor) : editor :=
  match value e, v with
  | VStr s, VStr s' => if decide (s = s') then e else syncText (syncPairs (setValue v e))
  | _, _ => syncText (syncPairs (setValue v e))
  end.

(** [onChange(text)] and the render that follows. *)
Definition onChange (text : string) (e : editor) : editor :=
  receive (VStr text)
    (Editor (value e) (keyValuePairs e) (manualText e) (editMode e) (jsonError e) (counter e)
       (changes e ++ [text])).

(** ** Handlers *)

Definition handleVisualChange (newPairs : list pair) (n : N) (e : editor) : editor :=
  onChange (object_text (keyValueArrayToObject newPairs)) (setJsonError "" (setPairs newPairs n e)).

Definition handleManualChange (newValue : string) (e : editor) : editor :=
  let e := setManualText newValue e in
  if bool_decide (trim newValue = "") then onChange "" (setJsonError "" (setPairs [] (counter e) e))
  else match parse newValue with
       | Ok parsed =>
           let '(ps, n) := objectToKeyValueArray parsed (keyValuePairs e) (counter e) in
           onChange newValue (setJsonError "" (setPairs ps n e))
       | Throw m => setJsonError m e
       end.

(** Leaving the text mode: the object of the text, or of [value]. *)
Definition toggleEditMode (e : editor) : editor :=
  match editMode e with
  | Visual => setEditMode Manual (setManualText (object_text (keyValueArrayToObject (keyValuePairs e))) e)
  | Manual =>
      match (if bool_decide (trim (manualText e) = "") then value_object (value e)
             else parse (manualText e)) with
      | Ok parsed =>
          let '(ps, n) := objectToKeyValueArray parsed (keyValuePairs e) (counter e) in
          syncText (setEditMode Visual (setJsonError "" (setPairs ps n e)))
      | Throw m => setJsonError m e
      end
  end.

(** The tabs: leaving the visual mode does not touch the text. *)
Definition changeTab (m : edit_mode) (e : editor) : editor :=
  match m, editMode e with
  | Manual, Visual => setEditMode Manual e
  | Visual, Manual => toggleEditMode e
  | _, _ => e
  end.

(** The [while] loop of [addKeyValue]. *)
Definition field (n : N) : string := "field_" +:+ pretty n.
Fixpoint next_key (fuel : nat) (existing : list string) (n : N) : option string :=
  match fuel with
  | 0 => None
  | S fuel => if decide (field n ∈ existing) then next_key fuel existing (n + 1) else Some (field n)
  end.

Definition addKeyValue (e : editor) : editor :=
  let existingKeys := key <$> keyValuePairs e in
  match next_key (S (length existingKeys)) existingKeys 1 with
  | Some newKey =>
      handleVisualChange (keyValuePairs e ++ [Pair (kv (counter e)) newKey (VStr "")])
        (counter e + 1) e
  | None => e
  end.

Definition removeKeyValue (i : string) (e : editor) : editor :=
  handleVisualChange (filter (λ p, id p ≠ i) (keyValuePairs e)) (counter e) e.

Definition updateKey (i newKey : string) (e : editor) : editor :=
  handleVisualChange
    ((λ p, if decide (id p = i) then Pair (id p) newKey (val p) else p) <$> keyValuePairs e) (counter e) e.

Definition updateValue (i : string) (newValue : jsval) (e : editor) : editor :=
  handleVisualChange
    ((λ p, if decide (id p = i) then Pair (id p) (key p) newValue else p) <$> keyValuePairs e)
    (counter e) e.

(** [templateValue] is the [template] property, when it is set. *)
Definition fillTemplate (templateValue : jsval) (e : editor) : editor :=
  if truthy templateValue then
    let text := stringify2 templateValue in
    let '(ps, n) := objectToKeyValueArray templateValue (keyValuePairs e) (counter e) in
    onChange text (setJsonError "" (setPairs ps n (setManualText text e)))
  else e.

(** ** Value inputs *)

(** A nested value, typed as JSON; invalid text is ignored. *)
Definition nestedInput (i txt : string) (e : editor) : editor :=
  if bool_decide (trim txt = "") then updateValue i (VObj []) e
  else match json_parse txt with Some v => updateValue i v e | None => e end.

(** The conversion of a typed text. *)
Definition convertInput (newValue : string) : jsval :=
  if bool_decide (newValue = "true") then VBool true
  else if bool_decide (newValue = "false") then VBool false
  else let n := str_to_num newValue in
       if num_eqb n n && negb (bool_decide (newValue = "")) && is_integer n then VNum n
       else VStr newValue.

Definition textInput (i newValue : string) (e : editor) : editor :=
  updateValue i (convertInput newValue) e.

(** The default region of the region editor: the first pair named so. *)
Definition defaultPair (ps : list pair) : option pair :=
  snd <$> list_find (λ p, key p = "default") ps.

Definition defaultRegionInput (v : string) (e : editor) : editor :=
  match defaultPair (keyValuePairs e) with
  | Some p => updateValue (id p) (VStr v) e
  | None => handleVisualChange (keyValuePairs e ++ [Pair (kv (counter e)) "default" (VStr v)])
              (counter e + 1) e
  end.
End component.

(** ** The new key *)

Lemma field_inj n m : field n = field m → n = m.
Proof. unfold field. intros H. by simplify_eq. Qed.

Lemma next_key_Some fuel existing n k :
  next_key fuel existing n = Some k →
  ∃ i, i < fuel ∧ k = field (n + N.of_nat i) ∧ (k ∉ existing) ∧
       ∀ j, j < i → field (n + N.of_nat j) ∈ existing.
Proof.
  revert n. induction fuel as [|fuel IH]; intros n; cbn; [done|]. case_decide as Hd.
  - intros (i & Hi & -> & Hk & Hj)%IH. exists (S i).
    replace (n + N.of_nat (S i))%N with (n + 1 + N.of_nat i)%N by lia. split_and!; [lia|done|done|].
    intros [|j] Hlt; [by rewrite N.add_0_r|].
    replace (n + N.of_nat (S j))%N with (n + 1 + N.of_nat j)%N by lia. apply Hj. lia.
  - intros [= <-]. exists 0. rewrite N.add_0_r. split_and!; [lia|done|done|lia].
Qed.

Lemma next_key_None fuel existing n :
  next_key fuel existing n = None → ∀ i, i < fuel → field (n + N.of_nat i) ∈ existing.
Proof.
  revert n. induction fuel as [|fuel IH]; intros n; cbn; [lia|]. case_decide as Hd; [|done].
  intros H [|i] Hi; [by rewrite N.add_0_r|].
  replace (n + N.of_nat (S i))%N with (n + 1 + N.of_nat i)%N by lia. apply IH; [done|lia].
Qed.

(** The loop needs at most one more round than there are keys: that many
    different names cannot all be taken. *)
Lemma next_key_total existing n : is_Some (next_key (S (length existing)) existing n).
Proof.
  destruct (next_key _ _ _) as [k|] eqn:E; [by eexists|]. exfalso.
  pose proof (next_key_None _ _ _ E) as H.
  set (names := (λ i, field (n + N.of_nat i)) <$> seq 0 (S (length existing))).
  assert (NoDup names) as Hn.
  { unfold names. apply NoDup_fmap_2_strong; [|apply NoDup_seq].
    intros i j _ _ Hij%field_inj. lia. }
  assert (names ⊆+ existing) as Hs%submseteq_length.
  { apply NoDup_submseteq; [done|]. intros k (i & -> & Hi%elem_of_seq)%list_elem_of_fmap. apply H. lia. }
  unfold names in Hs. rewrite length_fmap, length_seq in Hs. lia.
Qed.

(** Adding a pair always ends and gives it a fresh name: the search
    stops within one round more than there are pairs, at the first
    [field_n] that no pair uses. *)
Theorem new_key_found (existing : list string) :
  ∃ n, n ≤ length existing ∧
    next_key (S (length existing)) existing 1 = Some (field (1 + N.of_nat n)) ∧
    (field (1 + N.of_nat n) ∉ existing) ∧ ∀ m, m < n → field (1 + N.of_nat m) ∈ existing.
Proof.
  destruct (next_key_total existing 1) as [k Hk]. pose proof Hk as Hk'.
  apply next_key_Some in Hk' as (i & Hi & -> & ? & ?). exists i. split_and!; try done. lia.
Qed.

(** ** Duplicate keys *)

#[local] Opaque inherited.
#[local] Typeclasses Opaque inherited.
Lemma duplicates_loop_spec ps seen dup k :
  NoDup dup → (∀ x, x ∈ dup → x ∈ seen) → (∀ x, x ∈ seen → x ≠ "" ∧ (x ∉ inherited)) →
  NoDup (duplicates_loop ps seen dup) ∧
  (k ∈ duplicates_loop ps seen dup ↔
   k ∈ dup ∨ (k ≠ "" ∧ (k ∉ inherited) ∧
     2 ≤ length (filter (λ p, key p = k) ps) + (if decide (k ∈ seen) then 1 else 0))).
Proof.
  revert seen dup. induction ps as [|p ps IH]; intros seen dup Hd Hsub Hok; cbn [duplicates_loop].
  - split; [done|]. cbn. case_decide; naive_solver lia.
  - rewrite filter_cons. destruct (decide (key p = "" ∨ key p ∈ inherited)) as [Hbad|Hgood].
    + destruct (IH seen dup Hd Hsub Hok) as [? ->]. split; [done|].
      destruct (decide (key p = k)) as [<-|]; naive_solver.
    + apply Decidable.not_or in Hgood as [Hne Hin]. destruct (decide (key p ∈ seen)) as [Hs|Hs].
      * set (dup' := if decide (key p ∈ dup) then dup else dup ++ [key p]).
        assert (NoDup dup' ∧ (∀ x, x ∈ dup' ↔ x ∈ dup ∨ x = key p)) as [Hd' He].
        { unfold dup'. case_decide; [naive_solver|]. split; [|set_solver].
          apply NoDup_app. split_and!; [done|set_solver|apply NoDup_singleton]. }
        destruct (IH seen dup' Hd') as [? ->]; [set_solver|done|]. split; [done|]. rewrite He.
        destruct (decide (key p = k)) as [<-|].
        -- rewrite (decide_True (P := key p ∈ seen)) by done. cbn. split; [|by intros; left; right].
           intros _. right. split_and!; [done|done|lia].
        -- naive_solver.
      * destruct (IH (seen ++ [key p]) dup Hd) as [? ->]; [set_solver by eauto| |].
        { intros x [Hx|Hx]%elem_of_app; [by apply Hok|apply list_elem_of_singleton in Hx as ->; done]. }
        split; [done|].
        destruct (decide (key p = k)) as [<-|Hk].
        -- rewrite decide_True, decide_False by set_solver. cbn.
           split; (intros [?|(? & ? & ?)]; [by left|right; split_and!; [done|done|lia]]).
        -- destruct (decide (k ∈ seen)); [rewrite decide_True by set_solver; done|].
           by rewrite decide_False by set_solver.
Qed.

(** The warning names exactly the keys that two or more pairs share,
    each once, except the empty key and the names every object inherits. *)
Theorem duplicateKeys_exact (ps : list pair) :
  NoDup (duplicateKeys ps) ∧
  ∀ k, k ∈ duplicateKeys ps ↔
    k ≠ "" ∧ (k ∉ inherited) ∧ 2 ≤ length (filter (λ p, key p = k) ps).
Proof.
  assert (H : ∀ k, NoDup (duplicateKeys ps) ∧ (k ∈ duplicateKeys ps ↔
    k ∈ [] ∨ (k ≠ "" ∧ (k ∉ inherited) ∧
     2 ≤ length (filter (λ p, key p = k) ps) + (if decide (k ∈ []) then 1 else 0)))).
  { intros k. apply duplicates_loop_spec; [constructor|set_solver|set_solver]. }
  split; [apply (H "")|]. intros k. destruct (H k) as [_ ->].
  rewrite decide_False by set_solver. rewrite Nat.add_0_r. set_solver.
Qed.

(** ** The object of the pairs *)

Lemma toObject_snoc ps p :
  keyValueArrayToObject (ps ++ [p])
  = set_if (negb (bool_decide (key p = ""))) (key p) (val p) (keyValueArrayToObject ps).
Proof. unfold keyValueArrayToObject. by rewrite foldl_app. Qed.

(** Of several pairs with one key the last one counts. *)
Lemma toObject_get ps k :
  obj_get (keyValueArrayToObject ps) k =
    if decide (k = "" ∨ k = "__proto__") then None else val <$> last (filter (λ p, key p = k) ps).
Proof.
  induction ps as [|p ps IH] using rev_ind; [by destruct (decide (k = "" ∨ k = "__proto__"))|].
  rewrite toObject_snoc, filter_app, filter_cons, filter_nil. unfold set_if.
  destruct (decide (key p = "")) as [Ep|Ep].
  - rewrite bool_decide_true by done. cbn [negb]. rewrite IH. destruct (decide (key p = k)) as [<-|].
    + rewrite !decide_True by auto. done.
    + by rewrite app_nil_r.
  - rewrite bool_decide_false by done. cbn [negb]. rewrite obj_get_set, IH.
    destruct (decide (key p = k)) as [<-|Hk].
    + rewrite last_snoc. repeat case_decide; naive_solver.
    + rewrite app_nil_r, (decide_False (P := k = key p ∧ _)) by naive_solver. done.
Qed.

Definition pairs_json (ps : list pair) : Prop := Forall (λ p, json_ok (val p) = true) ps.

Lemma toObject_json ps : pairs_json ps → json_ok (VObj (keyValueArrayToObject ps)) = true.
Proof.
  unfold pairs_json. induction ps as [|p ps IH] using rev_ind; [done|].
  rewrite Forall_app, Forall_singleton. intros [H Hp]. rewrite toObject_snoc. unfold set_if, obj_set.
  destruct (negb _); [|by apply IH]. case_decide; [by apply IH|]. by apply obj_define_json, IH.
Qed.

Lemma object_text_trim o :
  o ≠ [] → json_ok (VObj o) = true → bool_decide (trim (object_text o) = "") = false.
Proof.
  intros Ho Hj. apply bool_decide_eq_false. unfold object_text. destruct o as [|kv o]; [done|].
  unfold stringify2. rewrite trim_print_obj by (done || by apply json_ok_obj_values).
  rewrite print_obj by (done || by apply json_ok_obj_values). done.
Qed.

Section laws.
Context (syntax_error : string → string).
Abbreviation value_object := (value_object syntax_error).
Abbreviation handleVisualChange := (handleVisualChange syntax_error).
Abbreviation onChange := (onChange syntax_error).
Abbreviation syncPairs := (syncPairs syntax_error).

(** The reported text stands for the object. *)
Lemma value_object_text o : json_ok (VObj o) = true → value_object (VStr (object_text o)) = Ok (VObj o).
Proof.
  intros Ho. unfold JsonEditor.value_object. destruct o as [|kv o]; [done|].
  rewrite object_text_trim by done. cbn beta iota. unfold parse, object_text. by rewrite json_parse_stringify2.
Qed.

(** Reporting a text keeps the pairs whose object it is. *)
Lemma sync_keeps e text ps :
  pairs_json ps → value e = VStr text → text = object_text (keyValueArrayToObject ps) →
  keyValuePairs e = ps →
  keyValuePairs (syncPairs e) = ps ∧ jsonError (syncPairs e) = "".
Proof.
  intros Hj Hv -> Hp. unfold JsonEditor.syncPairs.
  rewrite Hv, value_object_text by by apply toObject_json. rewrite Hp, bool_decide_true by done.
  done.
Qed.

Lemma syncText_same e :
  keyValuePairs (syncText e) = keyValuePairs e ∧ jsonError (syncText e) = jsonError e ∧
  value (syncText e) = value e ∧ changes (syncText e) = changes e ∧
  editMode (syncText e) = editMode e ∧ counter (syncText e) = counter e.
Proof. unfold syncText. by destruct (decide (editMode e = Manual)). Qed.

Lemma syncPairs_same e :
  value (syncPairs e) = value e ∧ changes (syncPairs e) = changes e ∧
  editMode (syncPairs e) = editMode e ∧ manualText (syncPairs e) = manualText e.
Proof.
  unfold JsonEditor.syncPairs. destruct (value_object (value e)); [|done].
  destruct (bool_decide _); [done|]. by destruct (objectToKeyValueArray _ _ _).
Qed.

(** What a reported text leaves behind, once the parent has passed it back. *)
Lemma receive_text text e :
  (editMode e = Visual → manualText e = value_text (value e)) →
  value (receive syntax_error (VStr text) e) = VStr text ∧
  changes (receive syntax_error (VStr text) e) = changes e ∧
  editMode (receive syntax_error (VStr text) e) = editMode e ∧
  (editMode e = Visual → manualText (receive syntax_error (VStr text) e) = text).
Proof.
  intros Hm. set (e1 := setValue (VStr text) e).
  assert (value (syncText (syncPairs e1)) = VStr text ∧ changes (syncText (syncPairs e1)) = changes e ∧
    editMode (syncText (syncPairs e1)) = editMode e ∧
    (editMode e = Visual → manualText (syncText (syncPairs e1)) = text)) as H.
  { destruct (syncText_same (syncPairs e1)) as (_ & _ & -> & -> & -> & _).
    destruct (syncPairs_same e1) as (Ev & -> & Em & _). rewrite Ev, Em. split_and!; [done..|].
    intros HV. unfold syncText. rewrite Em, Ev. rewrite decide_False; [done|]. cbn. by rewrite HV. }
  unfold receive. destruct (value e) as [| | | |s| |] eqn:E; try exact H.
  destruct (decide (s = text)) as [->|]; [|exact H]. split_and!; try done.
Qed.

Lemma receive_keeps text ps e :
  pairs_json ps → keyValuePairs e = ps → jsonError e = "" →
  text = object_text (keyValueArrayToObject ps) →
  keyValuePairs (receive syntax_error (VStr text) e) = ps ∧
  jsonError (receive syntax_error (VStr text) e) = "".
Proof.
  intros Hj Hp He Ht. set (e1 := setValue (VStr text) e).
  assert (keyValuePairs (syncText (syncPairs e1)) = ps ∧ jsonError (syncText (syncPairs e1)) = "") as H.
  { destruct (syncText_same (syncPairs e1)) as (-> & -> & _). by apply (sync_keeps e1 text). }
  unfold receive. destruct (value e) as [| | | |s| |]; try exact H.
  by destruct (decide (s = text)) as [->|].
Qed.

(** What the form shows is what is saved: after every change in the
    visual mode (adding, removing or editing a pair) the parent holds a text
    that stands for the object of the shown pairs, the last of several pairs
    with one key counting; the shown pairs themselves, repeated and empty
    keys included, are not disturbed by the value coming back, and there is
    no error. *)
Theorem visual_change_saved (ps : list pair) (n : N) (e : editor) :
  pairs_json ps →
  let e' := handleVisualChange ps n e in
  keyValuePairs e' = ps ∧ jsonError e' = "" ∧
  ∃ text o, value e' = VStr text ∧ last (changes e') = Some text ∧
    value_object (VStr text) = Ok (VObj o) ∧
    ∀ k, k ≠ "" → k ≠ "__proto__" → obj_get o k = val <$> last (filter (λ p, key p = k) ps).
Proof.
  intros Hj. unfold JsonEditor.handleVisualChange, JsonEditor.onChange.
  set (e1 := Editor _ _ _ _ _ _ _). cbn zeta.
  destruct (receive_keeps (object_text (keyValueArrayToObject ps)) ps e1 Hj) as [-> ->]; try done.
  split_and!; [done..|]. exists (object_text (keyValueArrayToObject ps)), (keyValueArrayToObject ps).
  set (text := object_text (keyValueArrayToObject ps)).
  assert (value (receive syntax_error (VStr text) e1) = VStr text ∧
          changes (receive syntax_error (VStr text) e1) = changes e ++ [text]) as [-> ->].
  { unfold receive. destruct (value e1) as [| | | |s| |] eqn:E;
      try (destruct (decide (s = text)) as [->|]; [done|]);
      destruct (syncText_same (syncPairs (setValue (VStr text) e1))) as (_ & _ & -> & -> & _);
      by destruct (syncPairs_same (setValue (VStr text) e1)) as (-> & -> & _). }
  split_and!; [done|apply last_snoc|apply value_object_text, toObject_json, Hj|].
  intros k Hk Hp. rewrite toObject_get, decide_False by naive_solver. done.
Qed.

(** ** Identity of the pairs *)

Lemma kv_inj n m : kv n = kv m → n = m.
Proof. unfold kv. intros H. by simplify_eq. Qed.

(** Ids are distinct and were all produced by the counter. *)
Definition ids_ok (ps : list pair) (n : N) : Prop :=
  NoDup (id <$> ps) ∧ ∀ p, p ∈ ps → ∃ m, (m < n)%N ∧ id p = kv m.

Lemma pair_ids_mono ps ps' n : (id <$> ps') `sublist_of` (id <$> ps) → ids_ok ps n → ids_ok ps' n.
Proof.
  intros Hs [Hn Hk]. split; [by eapply sublist_NoDup|]. intros p Hp.
  assert (id p ∈ id <$> ps) as (p' & -> & Hp')%list_elem_of_fmap.
  { eapply elem_of_submseteq; [|by apply sublist_submseteq]. by apply list_elem_of_fmap_2. }
  by apply Hk.
Qed.

Lemma ids_ok_snoc ps k v n : ids_ok ps n → ids_ok (ps ++ [Pair (kv n) k v]) (n + 1).
Proof.
  intros [Hn Hk]. split.
  - rewrite fmap_app. apply NoDup_app. split_and!; [done| |apply NoDup_singleton].
    intros i (p & -> & Hp)%list_elem_of_fmap [E|[]%not_elem_of_nil]%elem_of_cons.
    destruct (Hk p Hp) as (m & Hm & E'). cbn in E. rewrite E' in E. apply kv_inj in E. lia.
  - intros p [Hp| ->%list_elem_of_singleton]%elem_of_app; cbn.
    + destruct (Hk p Hp) as (m & ? & ?). exists m. split; [lia|done].
    + exists n. split; [lia|done].
Qed.

(** The ids of new pairs: previous ones, or numbers of the counter. *)
Definition ids_from (prev ps : list pair) (n n' : N) : Prop :=
  NoDup (id <$> ps) ∧ ∀ p, p ∈ ps → id p ∈ id <$> prev ∨ ∃ m, (n ≤ m < n')%N ∧ id p = kv m.

Lemma ids_from_new prev ps k v n n' :
  ids_ok prev n → (n < n')%N → ids_from prev ps (n + 1) n' →
  ids_from prev (Pair (kv n) k v :: ps) n n'.
Proof.
  intros [_ Hk] Hle [Hn Hp]. split.
  - cbn. constructor; [|done]. intros (p & Ep & Hin)%list_elem_of_fmap.
    destruct (Hp p Hin) as [H|(m & Hm & Em)]; [|rewrite Em in Ep; apply kv_inj in Ep; lia].
    rewrite <-Ep in H. apply list_elem_of_fmap in H as (p' & Ep' & Hp').
    destruct (Hk p' Hp') as (m & ? & Em). rewrite <-Ep' in Em. apply kv_inj in Em. lia.
  - intros p [->|Hin]%elem_of_cons; [right; exists n; cbn; split; [lia|done]|].
    destruct (Hp p Hin) as [?|(m & ? & ?)]; [by left|]. right. exists m. split; [lia|done].
Qed.

Lemma ids_from_reuse prev q ps k v n n' :
  ids_ok (q :: prev) n → ids_from prev ps n n' → ids_from (q :: prev) (Pair (id q) k v :: ps) n n'.
Proof.
  intros [[Hq _]%NoDup_cons Hk] [Hn Hp]. split.
  - cbn. constructor; [|done]. intros (p & Ep & Hin)%list_elem_of_fmap.
    destruct (Hp p Hin) as [H|(m & Hm & Em)]; [by rewrite <-Ep in H|].
    destruct (Hk q) as (m' & ? & Em'); [by left|]. rewrite Em', Em in Ep. apply kv_inj in Ep. lia.
  - intros p [->|Hin]%elem_of_cons; [left; by left|].
    destruct (Hp p Hin) as [?|?]; [left; by right|by right].
Qed.

Lemma ids_ok_tail q prev n : ids_ok (q :: prev) n → ids_ok prev n.
Proof. intros H. eapply pair_ids_mono; [|exact H]. by apply sublist_cons. Qed.

Lemma ids_ok_later prev n m : (n ≤ m)%N → ids_ok prev n → ids_ok prev m.
Proof.
  intros Hle [Hn Hk]. split; [done|]. intros p Hp. destruct (Hk p Hp) as (i & ? & ?).
  exists i. split; [lia|done].
Qed.

Lemma ids_from_cons prev q ps n n' : ids_from prev ps n n' → ids_from (q :: prev) ps n n'.
Proof.
  intros [Hn Hp]. split; [done|]. intros p Hin.
  destruct (Hp p Hin) as [?|?]; [left; by right|by right].
Qed.

Lemma entries_ids entries prev n ps n' :
  entries_to_pairs entries prev n = (ps, n') → ids_ok prev n → (n ≤ n')%N ∧ ids_from prev ps n n'.
Proof.
  revert prev n ps n'. induction entries as [|[k v] entries IH]; intros prev n ps n'; cbn.
  - intros [= <- <-] _. split; [done|]. split; [constructor|set_solver].
  - intros H Hok. destruct prev as [|q prev]; cbn in H; [|destruct (decide (key q = k))].
    + destruct (entries_to_pairs entries [] (n + 1)) as [ps1 n1] eqn:E. simplify_eq.
      destruct (IH _ _ _ _ E) as [Hle Hf]; [by eapply ids_ok_later; [|done]; lia|].
      split; [lia|]. apply ids_from_new; [done|lia|done].
    + destruct (entries_to_pairs entries prev n) as [ps1 n1] eqn:E. simplify_eq.
      destruct (IH _ _ _ _ E) as [Hle Hf]; [by eapply ids_ok_tail|].
      split; [lia|]. by apply ids_from_reuse.
    + destruct (entries_to_pairs entries prev (n + 1)) as [ps1 n1] eqn:E. simplify_eq.
      apply ids_ok_tail in Hok. destruct (IH _ _ _ _ E) as [Hle Hf];
        [by eapply ids_ok_later; [|done]; lia|].
      split; [lia|]. apply ids_from_cons, ids_from_new; [done|lia|done].
Qed.

Lemma pairs_of_object v prev n :
  ids_ok prev n → ids_ok (objectToKeyValueArray v prev n).1 (objectToKeyValueArray v prev n).2.
Proof.
  intros Hok. assert (∀ entries, ids_ok (entries_to_pairs entries prev n).1 (entries_to_pairs entries prev n).2) as H.
  { intros entries. destruct (entries_to_pairs entries prev n) as [ps n'] eqn:E.
    destruct (entries_ids _ _ _ _ _ E Hok) as [Hle [Hn Hp]]. cbn. split; [done|].
    intros p Hin. destruct (Hp p Hin) as [(q & -> & Hq)%list_elem_of_fmap|(m & ? & ?)]; [|exists m; split; [lia|done]].
    destruct Hok as [_ Hk]. destruct (Hk q Hq) as (m & ? & ?). exists m. split; [lia|done]. }
  unfold objectToKeyValueArray. destruct v; cbn; try apply H; (split; [constructor|set_solver]).
Qed.

(** ** Events *)

Inductive step : editor → editor → Prop :=
| step_add e : step e (addKeyValue syntax_error e)
| step_remove i e : step e (removeKeyValue syntax_error i e)
| step_key i k e : step e (updateKey syntax_error i k e)
| step_value i v e : step e (updateValue syntax_error i v e)
| step_nested i txt e : step e (nestedInput syntax_error i txt e)
| step_text i txt e : step e (textInput syntax_error i txt e)
| step_region v e : step e (defaultRegionInput syntax_error v e)
| step_manual txt e : editMode e = Manual → step e (handleManualChange syntax_error txt e)
| step_toggle e : step e (toggleEditMode syntax_error e)
| step_tab m e : step e (changeTab syntax_error m e)
| step_template v e : step e (fillTemplate syntax_error v e)
| step_receive v e : step e (receive syntax_error v e).

Inductive reachable : editor → Prop :=
| reach_mount v n : reachable (mount syntax_error v n)
| reach_step e e' : reachable e → step e e' → reachable e'.

(** Pairs with identity; in the visual mode the text follows the value. *)
Definition wf (e : editor) : Prop :=
  ids_ok (keyValuePairs e) (counter e) ∧ (editMode e = Visual → manualText e = value_text (value e)).

Lemma ids_sync e :
  ids_ok (keyValuePairs e) (counter e) → ids_ok (keyValuePairs (syncPairs e)) (counter (syncPairs e)).
Proof.
  intros H. unfold JsonEditor.syncPairs. destruct (value_object (value e)); [|done].
  destruct (bool_decide _); [done|]. pose proof (pairs_of_object a _ _ H) as Hp.
  by destruct (objectToKeyValueArray _ _ _).
Qed.

Lemma wf_syncText e : ids_ok (keyValuePairs e) (counter e) → wf (syncText e).
Proof.
  intros H. destruct (syncText_same e) as (Hp & _ & Hv & _ & Hm & Hc). split.
  - by rewrite Hp, Hc.
  - rewrite Hm, Hv. intros HV. unfold syncText. by rewrite decide_False by (rewrite HV; done).
Qed.

Lemma wf_receive v e : wf e → wf (receive syntax_error v e).
Proof.
  intros Hw. pose proof Hw as [Hi _].
  assert (wf (syncText (syncPairs (setValue v e)))) as H by (by apply wf_syncText, ids_sync).
  unfold receive. destruct (value e), v; try exact H. by destruct (decide _).
Qed.

Lemma wf_onChange text e :
  ids_ok (keyValuePairs e) (counter e) →
  (value e = VStr text → editMode e = Visual → manualText e = text) → wf (onChange text e).
Proof.
  intros Hi Hm. unfold JsonEditor.onChange. set (e1 := Editor _ _ _ _ _ _ _).
  assert (wf (syncText (syncPairs (setValue (VStr text) e1)))) as H by (by apply wf_syncText, ids_sync).
  unfold receive. destruct (value e1) as [| | | |s| |] eqn:E; try exact H.
  case_decide; [|exact H]. subst. split; [done|]. cbn in *. intros HV. rewrite E. by apply Hm.
Qed.

Lemma wf_visual ps n e : wf e → ids_ok ps n → wf (handleVisualChange ps n e).
Proof.
  intros [Hi Hm] Hps. apply wf_onChange; [done|]. cbn. intros Hv HV. rewrite Hm by done. by rewrite Hv.
Qed.

Lemma ids_map (f : pair → pair) ps n :
  (∀ p, id (f p) = id p) → ids_ok ps n → ids_ok (f <$> ps) n.
Proof.
  intros Hf. apply pair_ids_mono. rewrite <-list_fmap_compose.
  rewrite (list_fmap_ext (id ∘ f) id ps); [done|]. intros i p _. apply Hf.
Qed.

Lemma wf_updateValue i v e : wf e → wf (updateValue syntax_error i v e).
Proof.
  intros H. apply wf_visual; [done|]. apply ids_map; [|apply H]. intros p. by destruct (decide _).
Qed.

Lemma wf_toggle e : wf e → wf (toggleEditMode syntax_error e).
Proof.
  intros [Hi Hm]. unfold toggleEditMode. destruct (editMode e) eqn:E; [by split|].
  destruct (if bool_decide _ then _ else _) as [v|m]; [|by split; cbn; [|congruence]].
  pose proof (pairs_of_object v _ _ Hi) as Hp. destruct (objectToKeyValueArray _ _ _).
  by apply wf_syncText.
Qed.

Lemma wf_manual txt e : editMode e = Manual → wf e → wf (handleManualChange syntax_error txt e).
Proof.
  intros HM [Hi Hm]. unfold handleManualChange. destruct (bool_decide _).
  - apply wf_onChange; [split; [constructor|set_solver]|cbn; congruence].
  - destruct (parse syntax_error txt) as [v|m]; [|split; cbn; [done|congruence]].
    pose proof (pairs_of_object v _ _ Hi) as Hp. cbn. destruct (objectToKeyValueArray _ _ _).
    apply wf_onChange; [done|cbn; congruence].
Qed.

Lemma pairs_wf_step e e' : step e e' → wf e → wf e'.
Proof.
  intros Hs Hw. pose proof Hw as [Hi Hm].
  destruct Hs; [| | | | | | |by apply wf_manual|by apply wf_toggle| | |by apply wf_receive].
  - unfold addKeyValue. destruct (next_key _ _ _); [|done]. apply wf_visual; [done|].
    by apply ids_ok_snoc.
  - apply wf_visual; [done|]. eapply pair_ids_mono; [|done]. apply fmap_sublist, sublist_filter.
  - apply wf_visual; [done|]. apply ids_map; [|done]. intros p. by destruct (decide _).
  - by apply wf_updateValue.
  - unfold nestedInput. destruct (bool_decide _); [by apply wf_updateValue|].
    destruct (json_parse txt); [by apply wf_updateValue|done].
  - by apply wf_updateValue.
  - unfold defaultRegionInput. destruct (defaultPair _); [by apply wf_updateValue|].
    apply wf_visual; [done|]. by apply ids_ok_snoc.
  - unfold changeTab. destruct m, (editMode e); [done|by apply wf_toggle|by split|done].
  - unfold fillTemplate. destruct (truthy v); [|done].
    pose proof (pairs_of_object v _ _ Hi) as Hp. destruct (objectToKeyValueArray _ _ _).
    by apply wf_onChange.
Qed.

Lemma pairs_wf_mount v n : wf (mount syntax_error v n).
Proof.
  unfold mount. assert (ids_ok [] n) as H0 by (split; [constructor|set_solver]).
  assert (ids_ok (initial_pairs v n).1 (initial_pairs v n).2) as H.
  { unfold initial_pairs. destruct v; try (by apply pairs_of_object).
    destruct (bool_decide _); [done|]. destruct (json_parse _); [by apply pairs_of_object|done]. }
  destruct (initial_pairs v n). by apply wf_syncText, ids_sync.
Qed.

(** Every pair keeps its identity: in every state of the editor, after
    any sequence of edits in both modes and of values from outside, the ids
    of the pairs are distinct and were handed out by the counter, so an edit
    by id changes one pair; and in the visual mode the text buffer is the
    text of the current value. *)
Theorem json_editor_invariant (e : editor) :
  reachable e →
  NoDup (id <$> keyValuePairs e) ∧
  (∀ p, p ∈ keyValuePairs e → ∃ m, (m < counter e)%N ∧ id p = kv m) ∧
  (editMode e = Visual → manualText e = value_text (value e)).
Proof.
  intros Hr. assert (wf e) as [[? ?] ?]; [|done].
  induction Hr as [v n|e e' _ IH Hs]; [apply pairs_wf_mount|by eapply pairs_wf_step].
Qed.

(** ** Switching between the modes *)

Lemma entries_object entries prev n ps n' :
  entries_to_pairs entries prev n = (ps, n') → (λ p, (key p, val p)) <$> ps = entries.
Proof.
  revert prev n ps n'. induction entries as [|[k v] entries IH]; intros prev n ps n'; cbn.
  - by intros [= <- <-].
  - destruct (match head prev with Some _ => _ | None => _ end) as [i m].
    destruct (entries_to_pairs entries (tail prev) m) as [ps1 n1] eqn:E. intros [= <- <-]. cbn.
    f_equal. by eapply IH.
Qed.

Lemma toObject_entries ps :
  (∀ p, p ∈ ps → key p ≠ "" ∧ key p ≠ "__proto__") →
  keyValueArrayToObject ps = obj_spread [] ((λ p, (key p, val p)) <$> ps).
Proof.
  unfold keyValueArrayToObject, obj_spread. generalize (@nil (string * jsval)) as o.
  induction ps as [|p ps IH]; intros o H; [done|]. cbn. rewrite IH by set_solver.
  destruct (H p) as [H1 H2]; [left|]. unfold set_if, obj_set.
  rewrite bool_decide_false by done. cbn. by rewrite decide_False.
Qed.

Lemma toObject_keys ps k : k ∈ obj_keys (keyValueArrayToObject ps) → k ≠ "" ∧ k ≠ "__proto__".
Proof.
  intros [v Hv]%obj_get_is_Some. rewrite toObject_get in Hv. case_decide; [done|naive_solver].
Qed.

(** The pairs made from the object of some pairs have the same object. *)
Lemma toObject_reload ps prev n :
  pairs_json ps →
  keyValueArrayToObject (entries_to_pairs (keyValueArrayToObject ps) prev n).1
  = keyValueArrayToObject ps.
Proof.
  intros Hj. destruct (entries_to_pairs _ prev n) as [ps' n'] eqn:E.
  pose proof (entries_object _ _ _ _ _ E) as Ho. cbn. rewrite toObject_entries, Ho.
  - apply obj_spread_ok. pose proof (toObject_json ps Hj) as H. rewrite json_ok_obj in H.
    by apply andb_true_iff in H as [? _].
  - intros p Hp. apply (toObject_keys ps). rewrite <-Ho. unfold obj_keys.
    rewrite <-list_fmap_compose. by apply (list_elem_of_fmap_2 (fst ∘ (λ p, (key p, val p)))).
Qed.

(** Looking at the text changes nothing: after a visual change, going
    to the text mode and back shows pairs for the same object, without an
    error, and reports nothing; pairs with a repeated key are reduced to the
    one that counts. *)
Theorem tab_roundtrip (ps : list pair) (n : N) (e : editor) :
  reachable e → editMode e = Visual → pairs_json ps → ids_ok ps n →
  let e1 := handleVisualChange ps n e in
  let e2 := changeTab syntax_error Visual (changeTab syntax_error Manual e1) in
  keyValueArrayToObject (keyValuePairs e2) = keyValueArrayToObject ps ∧
  NoDup (key <$> keyValuePairs e2) ∧
  editMode e2 = Visual ∧ jsonError e2 = "" ∧ value e2 = value e1 ∧ changes e2 = changes e1.
Proof.
  intros Hr HV Hj Hids e1. assert (wf e) as [Hi Hm].
  { clear -Hr. induction Hr as [v m|e e' _ IH Hs]; [apply pairs_wf_mount|by eapply pairs_wf_step]. }
  set (o := keyValueArrayToObject ps).
  assert (keyValuePairs e1 = ps ∧ value e1 = VStr (object_text o) ∧ editMode e1 = Visual ∧
          manualText e1 = object_text o ∧ jsonError e1 = "") as (Hp & Hv & HV1 & Ht & He).
  { unfold e1, JsonEditor.handleVisualChange, JsonEditor.onChange. fold o.
    set (e0 := Editor _ _ _ _ _ _ _).
    destruct (receive_text (object_text o) e0) as (Ev & _ & Em & Et); [done|]. rewrite Ev, Em, Et by done.
    destruct (receive_keeps (object_text o) ps e0 Hj) as [-> ->]; done. }
  unfold changeTab. rewrite HV1. cbn [editMode setEditMode]. unfold toggleEditMode.
  cbn [editMode setEditMode manualText value]. rewrite Ht, Hv.
  assert ((if bool_decide (trim (object_text o) = "") then value_object (VStr (object_text o))
           else parse syntax_error (object_text o)) = Ok (VObj o)) as ->.
  { pose proof (value_object_text o (toObject_json ps Hj)) as H. unfold JsonEditor.value_object in *.
    by destruct (bool_decide _). }
  cbn [objectToKeyValueArray own_props setEditMode keyValuePairs counter]. rewrite Hp.
  pose proof (toObject_reload ps ps (counter e1) Hj) as Hre. fold o in Hre.
  destruct (entries_to_pairs o ps (counter e1)) as [ps' n'] eqn:E.
  set (e2 := syncText _). destruct (syncText_same (setEditMode Visual (setJsonError "" (setPairs ps' n' (setEditMode Manual e1)))))
    as (Hp2 & He2 & Hv2 & Hc2 & Hm2 & _). fold e2 in Hp2, He2, Hv2, Hc2, Hm2.
  rewrite Hp2, He2, Hv2, Hc2, Hm2. cbn. split_and!; try done.
  assert (key <$> ps' = obj_keys o) as ->.
  { unfold obj_keys. rewrite <-(entries_object _ _ _ _ _ E). by rewrite <-list_fmap_compose. }
  pose proof (toObject_json ps Hj) as H. rewrite json_ok_obj in H. apply andb_true_iff in H as [H _].
  by apply keys_ok_NoDup.
Qed.
End laws.

(** ** Examples and witnesses *)

Definition two_a : list pair :=
  [Pair "kv_0" "a" (VBool true); Pair "kv_1" "a" (VStr "x"); Pair "kv_2" "" VNull].

Lemma visual_change_saved_witness :
  keyValuePairs (handleVisualChange (λ s, s) two_a 3 (mount (λ s, s) (VStr "") 0)) = two_a.
Proof.
  refine (proj1 (visual_change_saved (λ s, s) two_a 3 (mount (λ s, s) (VStr "") 0) _)).
  by repeat constructor.
Defined.

Example two_a_text :
  value (handleVisualChange (λ s, s) two_a 3 (mount (λ s, s) (VStr "") 0))
  = VStr (stringify2 (VObj [("a", VStr "x")])).
Proof. by vm_compute. Qed.

Lemma json_editor_invariant_witness :
  NoDup (id <$> keyValuePairs (addKeyValue (λ s, s) (mount (λ s, s) (VStr (qtext "{'field_1':1}")) 5))).
Proof.
  refine (proj1 (json_editor_invariant (λ s, s) _ _)).
  eapply reach_step; [apply reach_mount|apply step_add].
Defined.

Lemma tab_roundtrip_witness :
  let e := mount (λ s, s) (VStr "") 3 in
  keyValueArrayToObject (keyValuePairs (changeTab (λ s, s) Visual (changeTab (λ s, s) Manual
    (handleVisualChange (λ s, s) two_a 3 e)))) = [("a", VStr "x")].
Proof.
  refine (proj1 (tab_roundtrip (λ s, s) two_a 3 (mount (λ s, s) (VStr "") 3) _ _ _ _)).
  - apply reach_mount.
  - done.
  - by repeat constructor.
  - split; [apply (bool_decide_unpack _); by vm_compute|].
    intros p Hp. repeat (apply elem_of_cons in Hp as [->|Hp];
      [first [by exists 0%N|by exists 1%N|by exists 2%N]|]). by apply not_elem_of_nil in Hp.
Defined.

(** A key that is empty is shown as a pair but dropped by the next visual
    change of any other pair. *)
Lemma empty_key_lost :
  let e := mount (λ s, s) (VStr (qtext "{'':1,'a':2}")) 0 in
  (key <$> keyValuePairs e) = [""; "a"] ∧
  value (updateValue (λ s, s) "kv_1" (VStr "x") e) = VStr (stringify2 (VObj [("a", VStr "x")])).
Proof. by vm_compute. Qed.

(** Typing a blank into a value field enters the number 0. *)
Lemma blank_becomes_zero : convertInput " " = VNum (num_of_Z 0).
Proof. by vm_compute. Qed.

(** When a second pair is renamed to [default], the default region field
    edits the first of them, while the saved object takes the last. *)
Lemma default_region_shadowed :
  let e := mount (λ s, s) (VStr (qtext "{'default':'us','m':'eu'}")) 0 in
  let e := defaultRegionInput (λ s, s) "asia" (updateKey (λ s, s) "kv_1" "default" e) in
  (val <$> defaultPair (keyValuePairs e)) = Some (VStr "asia") ∧
  value e = VStr (stringify2 (VObj [("default", VStr "eu")])).
Proof. by vm_compute. Qed.
