(* ===== verification/Sidebar.v ===== *)
(** * Side bar, permissions and navigation

    [web/src/hooks/common/useSidebar.js]: the admin configuration merged
    with the defaults, the user configuration, what is shown, and the
    synchronisation of the mounted instances; [useUserPermissions.js]; and
    the header links of [useNavigation.js].  A configuration is the list of
    its sections, each an object. *)
From Stdlib Require Import Ascii SpecFloat.
From S2P Require Import Prelude JsString JsNumber JsValue Json.

Module Sidebar.

Definition config : Type := list (string * obj).

Definition flags (ks : list string) : obj := (λ k, (k, VBool true)) <$> ks.

Definition DEFAULT_ADMIN_CONFIG : config :=
  [("chat", flags ["enabled"; "chat"]);
   ("console", flags ["enabled"; "detail"; "token"; "playground"; "log"; "midjourney"; "task"]);
   ("personal", flags ["enabled"; "topup"; "personal"]);
   ("admin", flags ["enabled"; "channel"; "models"; "model-verify"; "deployment"; "redemption";
                    "user"; "subscription"; "setting"])].

(** One entry of the saved configuration. *)
Definition merge_section (merged : config) (kv : string * jsval) : config :=
  if truthy kv.2 && typeof_object kv.2
  then obj_set kv.1 (obj_spread (default [] (obj_get merged kv.1)) (own_props kv.2)) merged
  else merged.

Definition mergeAdminConfig (savedConfig : jsval) : config :=
  if truthy savedConfig && typeof_object savedConfig
  then foldl merge_section DEFAULT_ADMIN_CONFIG (own_props savedConfig)
  else DEFAULT_ADMIN_CONFIG.

(** [SidebarModulesAdmin]: the text of the status, if it is not empty. *)
Definition adminConfig (text : option string) : config :=
  match text with
  | Some s => if bool_decide (s = "") then mergeAdminConfig VNull
              else match json_parse s with
                   | Some v => mergeAdminConfig v
                   | None => mergeAdminConfig VNull
                   end
  | None => mergeAdminConfig VNull
  end.

(** [section.enabled] is truthy. *)
Definition enabled (section : obj) : bool := truthy (prop_opt (VObj section) "enabled").

Definition default_section (section : obj) : obj :=
  set_all (λ k v, if negb (bool_decide (k = "enabled")) && truthy v then Some (VBool true) else None)
    [("enabled", VBool true)] section.

(** The configuration of a user who has none. *)
Definition default_user_config (admin : config) : jsval :=
  VObj (set_all (λ _ section, if enabled section then Some (VObj (default_section section)) else None)
          [] admin).

(** ** What is shown *)

(** [userSection ? userSection[key] !== false : true]. *)
Definition user_allows (userSection : jsval) (key : string) : bool :=
  if truthy userSection then negb (is_false (prop_opt userSection key)) else true.

(** [adminAllowed && userAllowed && sectionEnabled]. *)
Definition module_value (adminAllowed : jsval) (userAllowed sectionEnabled : bool) : jsval :=
  if truthy adminAllowed then VBool (userAllowed && sectionEnabled) else adminAllowed.

Definition final_section (adminSection : obj) (userSection : jsval) : obj :=
  if enabled adminSection then
    let sectionEnabled := user_allows userSection "enabled" in
    set_all (λ key adminAllowed,
      if bool_decide (key = "enabled") then None
      else Some (module_value adminAllowed (user_allows userSection key) sectionEnabled))
      [("enabled", VBool sectionEnabled)] adminSection
  else [("enabled", VBool false)].

Definition finalConfig (admin : config) (userConfig : jsval) : config :=
  if truthy userConfig
  then set_all (λ key section, Some (final_section section (prop_opt userConfig key))) [] admin
  else [].

(** [finalConfig[sectionKey]?.[key]]. *)
Definition shown (fc : config) (sectionKey key : string) : jsval :=
  match obj_get fc sectionKey with
  | Some section => prop_opt (VObj section) key
  | None => VUndef
  end.

(** [moduleKey] empty stands for the default [null]. *)
Definition isModuleVisible (fc : config) (sectionKey moduleKey : string) : bool :=
  is_true (shown fc sectionKey (if bool_decide (moduleKey = "") then "enabled" else moduleKey)).

Definition getVisibleModules (fc : config) (sectionKey : string) : list string :=
  match obj_get fc sectionKey with
  | Some section =>
      if enabled section
      then filter (λ key, key ≠ "enabled" ∧ is_true (prop_opt (VObj section) key) = true)
             (obj_keys section)
      else []
  | None => []
  end.

Definition hasSectionVisibleModules (fc : config) (sectionKey : string) : bool :=
  match obj_get fc sectionKey with
  | Some section =>
      enabled section &&
      existsb (λ key, negb (bool_decide (key = "enabled")) && is_true (prop_opt (VObj section) key))
        (obj_keys section)
  | None => false
  end.

(** ** Instances *)

Record instance := Instance { userConfig : jsval; loading : bool; hasLoadedOnce : bool }.

Definition mounted : instance := Instance VNull true false.

(** The [try] body on an answer of [/api/user/self]; an error of the request
    is [Throw]. *)
Definition fetched (response : res jsval) : res (option jsval) :=
  r ← response;
  data ← prop r "data";
  success ← prop data "success";
  if truthy success then
    inner ← prop data "data";
    modules ← prop inner "sidebar_modules";
    match modules with
    | VStr s => if bool_decide (s = "") then Ok None
                else match json_parse s with
                     | Some v => Ok (Some v)
                     | None => Throw "SyntaxError"
                     end
    | v => Ok (if truthy v then Some v else None)
    end
  else Ok None.

Definition user_config_of (admin : config) (response : res jsval) : jsval :=
  match fetched response with
  | Ok (Some v) => v
  | Ok None | Throw _ => default_user_config admin
  end.

(** [loadUserConfig({ withLoading })], from the call to its [finally]. *)
Definition loadUserConfig (admin : config) (withLoading : option bool) (response : res jsval)
    (i : instance) : instance :=
  let shouldShowLoader := default (negb (hasLoadedOnce i)) withLoading in
  Instance (user_config_of admin response) (if shouldShowLoader then false else loading i) true.

(** [handleRefresh] of instance [k] for the event of instance [src]. *)
Definition handleRefresh (admin : config) (response : res jsval) (src k : nat) (i : instance)
    : instance :=
  if bool_decide (src = k) then i
  else match admin with
       | [] => i
       | _ => loadUserConfig admin (Some false) response i
       end.

(** [refreshUserConfig] of instance [src]: it reloads without a loader, then
    the event reaches every instance; [responses k] answers instance [k]. *)
Definition refreshUserConfig (admin : config) (responses : nat → res jsval) (src : nat)
    (insts : list instance) : list instance :=
  let insts := match admin with
               | [] => insts
               | _ => alter (loadUserConfig admin (Some false) (responses src)) src insts
               end in
  imap (λ k, handleRefresh admin (responses k) src k) insts.
(** ** Well-formed configurations *)

Record config_ok (c : config) : Prop := ConfigOk {
  ok_keys : NoDup (obj_keys c);
  ok_proto : obj_get c "__proto__" = None;
  ok_sections : ∀ k section, obj_get c k = Some section → NoDup (obj_keys section) }.

Lemma default_ok : config_ok DEFAULT_ADMIN_CONFIG.
Proof.
  split; [apply (bool_decide_unpack _); by vm_compute|done|].
  intros k section Hk%obj_get_elem_of. cut (Forall (λ kv : string * obj, NoDup (obj_keys kv.2))
    DEFAULT_ADMIN_CONFIG); [rewrite Forall_forall; intros HF; by apply (HF (k, section))|].
  apply (bool_decide_unpack _). by vm_compute.
Qed.

Lemma merge_section_ok c kv : config_ok c → config_ok (merge_section c kv).
Proof.
  intros [Hk Hp Hs]. unfold merge_section. destruct (_ && _); [|done]. split.
  - by apply obj_set_NoDup.
  - rewrite obj_get_set. case_decide as Hd; [by destruct Hd; congruence|done].
  - intros k section. rewrite obj_get_set. case_decide as Hd; [|apply Hs].
    intros [= <-]. apply obj_spread_NoDup. destruct Hd as [<- _].
    destruct (obj_get c k) eqn:E; [by eapply Hs|constructor].
Qed.

Lemma mergeAdminConfig_ok v : config_ok (mergeAdminConfig v).
Proof.
  unfold mergeAdminConfig. destruct (_ && _); [|apply default_ok].
  generalize default_ok. generalize DEFAULT_ADMIN_CONFIG.
  induction (own_props v) as [|kv l IH]; intros c Hc; [done|]. apply IH. by apply merge_section_ok.
Qed.

Lemma adminConfig_ok text : config_ok (adminConfig text).
Proof. unfold adminConfig. repeat case_match; apply mergeAdminConfig_ok. Qed.

(** ** Reading the shown configuration *)

Lemma final_section_get section us m :
  NoDup (obj_keys section) → m ≠ "enabled" → m ≠ "__proto__" →
  obj_get (final_section section us) m =
    if enabled section then
      (λ a, module_value a (user_allows us m) (user_allows us "enabled")) <$> obj_get section m
    else None.
Proof.
  intros Hn He Hp. unfold final_section. destruct (enabled section).
  - rewrite set_all_get by done. cbn [obj_get].
    destruct (obj_get section m); cbn; [|by rewrite decide_False by done].
    by rewrite (decide_False (P := m = "__proto__")), bool_decide_false by done.
  - cbn. by rewrite decide_False by done.
Qed.

Lemma finalConfig_get admin user s :
  config_ok admin →
  obj_get (finalConfig admin user) s =
    if truthy user then (λ sec, final_section sec (prop_opt user s)) <$> obj_get admin s else None.
Proof.
  intros [Hk Hp _]. unfold finalConfig. destruct (truthy user); [|done].
  rewrite set_all_get by done. destruct (obj_get admin s) eqn:E; [|done]. cbn.
  rewrite decide_False; [done|]. intros ->. congruence.
Qed.

Lemma module_value_true a u e : is_true (module_value a u e) = truthy a && u && e.
Proof. unfold module_value. destruct a as [| |[]|n|s|l|o], u, e; cbn; try done; by case_match. Qed.

Definition ordinary (m : string) : Prop := m ∉ [""; "enabled"; "__proto__"].

Lemma module_visible admin user s m :
  config_ok admin → ordinary m →
  isModuleVisible (finalConfig admin user) s m = true ↔
    truthy user = true ∧ ∃ section, obj_get admin s = Some section ∧ enabled section = true ∧
      truthy (prop_opt (VObj section) m) = true ∧
      user_allows (prop_opt user s) "enabled" = true ∧ user_allows (prop_opt user s) m = true.
Proof.
  intros Hok Hm. unfold isModuleVisible, shown. unfold ordinary in Hm.
  rewrite bool_decide_false by set_solver. rewrite finalConfig_get by done.
  destruct (truthy user); [|naive_solver].
  destruct (obj_get admin s) as [section|] eqn:E; cbn [fmap option_fmap option_map]; [|naive_solver].
  cbn [prop_opt]. rewrite final_section_get by (set_solver || by eapply ok_sections).
  transitivity (enabled section = true ∧ truthy (default VUndef (obj_get section m)) = true ∧
    user_allows (prop_opt user s) "enabled" = true ∧ user_allows (prop_opt user s) m = true);
    [|naive_solver].
  destruct (enabled section); [|naive_solver].
  destruct (obj_get section m) as [a|]; cbn [fmap option_fmap option_map from_option Datatypes.id];
    [|naive_solver].
  rewrite module_value_true, !andb_true_iff. naive_solver.
Qed.

(** A module of the side bar is shown exactly when the admin
    configuration (saved text over defaults) has its section enabled and the
    module allowed, and a user configuration is loaded that hides neither
    the section nor the module: users can only hide what admins allow. *)
Theorem module_visible_iff (text : option string) (user : jsval) (s m : string) :
  ordinary m →
  isModuleVisible (finalConfig (adminConfig text) user) s m = true ↔
    truthy user = true ∧ ∃ section, obj_get (adminConfig text) s = Some section ∧
      enabled section = true ∧ truthy (prop_opt (VObj section) m) = true ∧
      user_allows (prop_opt user s) "enabled" = true ∧ user_allows (prop_opt user s) m = true.
Proof. apply module_visible, adminConfig_ok. Qed.
Lemma module_visible_iff_witness :
  isModuleVisible (finalConfig (adminConfig None) (VObj [("chat", VObj [("chat", VBool false)])]))
    "console" "log" = true.
Proof.
  apply (module_visible_iff None (VObj [("chat", VObj [("chat", VBool false)])]) "console" "log").
  - apply (bool_decide_unpack _). by vm_compute.
  - split; [done|]. eexists. split; [by vm_compute|]. by vm_compute.
Defined.

(** ** Users without a configuration *)

Lemma default_section_allows section k :
  NoDup (obj_keys section) → user_allows (VObj (default_section section)) k = true.
Proof.
  intros Hn. unfold user_allows, default_section. cbn [truthy prop_opt].
  rewrite set_all_get by done. cbn [obj_get].
  repeat (case_match || case_decide); simplify_eq; done.
Qed.

Lemma default_config_allows admin s k :
  config_ok admin → user_allows (prop_opt (default_user_config admin) s) k = true.
Proof.
  intros [Hk Hp Hs]. unfold default_user_config. cbn [prop_opt]. rewrite set_all_get by done.
  destruct (obj_get admin s) as [section|] eqn:E; cbn; [|done].
  case_decide; [done|]. destruct (enabled section); [|done].
  apply default_section_allows. by eapply Hs.
Qed.

(** When the server has no usable configuration of the user (none
    saved, an error answer, unreadable text, a network error), the user sees
    exactly what the admin configuration allows. *)
Theorem default_user_sees_admin (text : option string) (response : res jsval) (s m : string) :
  ordinary m → (∀ v, fetched response ≠ Ok (Some v)) →
  isModuleVisible (finalConfig (adminConfig text) (user_config_of (adminConfig text) response)) s m
    = true ↔
  ∃ section, obj_get (adminConfig text) s = Some section ∧ enabled section = true ∧
    truthy (prop_opt (VObj section) m) = true.
Proof.
  intros Hm Hf.
  assert (user_config_of (adminConfig text) response = default_user_config (adminConfig text)) as ->.
  { unfold user_config_of. destruct (fetched response) as [[v|]|]; [by destruct (Hf v)|done..]. }
  pose proof (adminConfig_ok text) as Hok. rewrite module_visible by done.
  setoid_rewrite default_config_allows; [|done..]. naive_solver.
Qed.

Lemma default_user_sees_admin_witness :
  isModuleVisible (finalConfig (adminConfig None) (user_config_of (adminConfig None) (Throw "network")))
    "admin" "models" = true.
Proof.
  apply (default_user_sees_admin None (Throw "network") "admin" "models").
  - apply (bool_decide_unpack _). by vm_compute.
  - done.
  - eexists. split; [by vm_compute|]. by vm_compute.
Defined.

(** ** Merging the saved admin configuration *)

(** [config[s]?.[m]]. *)
Definition config_value (c : config) (s m : string) : option jsval :=
  match obj_get c s with Some section => obj_get section m | None => None end.

Lemma merge_section_value c kv s m :
  NoDup (obj_keys (own_props kv.2)) →
  config_value (merge_section c kv) s m =
    if decide (s = kv.1 ∧ kv.1 ≠ "__proto__") then
      if truthy kv.2 && typeof_object kv.2 then
        match obj_get (own_props kv.2) m with Some v => Some v | None => config_value c s m end
      else config_value c s m
    else config_value c s m.
Proof.
  intros Hn. unfold merge_section, config_value. destruct (_ && _); [|by case_decide].
  rewrite obj_get_set. case_decide as Hd; [|done]. rewrite obj_get_spread by done.
  destruct Hd as [-> _]. by destruct (obj_get c kv.1).
Qed.

(** The saved admin configuration overrides the defaults entry by entry:
    a module keeps its default unless the saved section is an object that
    mentions it, so modules added to the program later are enabled. *)
Theorem merged_config_value (o : obj) (s m : string) :
  NoDup (obj_keys o) → Forall (λ kv, NoDup (obj_keys (own_props kv.2))) o → s ≠ "__proto__" →
  config_value (mergeAdminConfig (VObj o)) s m =
    match obj_get o s with
    | Some sec => if truthy sec && typeof_object sec then
                    match obj_get (own_props sec) m with
                    | Some v => Some v
                    | None => config_value DEFAULT_ADMIN_CONFIG s m
                    end
                  else config_value DEFAULT_ADMIN_CONFIG s m
    | None => config_value DEFAULT_ADMIN_CONFIG s m
    end.
Proof.
  intros Hn HF Hs. unfold mergeAdminConfig. cbn [truthy typeof_object andb own_props].
  generalize DEFAULT_ADMIN_CONFIG. revert Hn HF.
  induction o as [|[k v] o IH]; intros Hn HF c; [done|].
  cbn [obj_keys fmap list_fmap fst] in Hn. apply NoDup_cons in Hn as [Hk Hn].
  apply Forall_cons in HF as [Hv HF]. cbn [foldl obj_get]. rewrite IH by done.
  pose proof (merge_section_value c (k, v) s m Hv) as E. cbn [fst snd] in E. rewrite E.
  destruct (decide (s = k)) as [->|Hne].
  - rewrite (proj2 (obj_get_None o k)) by done. by rewrite decide_True.
  - by rewrite decide_False by naive_solver.
Qed.

Lemma merged_config_value_witness :
  config_value (mergeAdminConfig (VObj [("console", VObj [("log", VBool false)]); ("chat", VNull)]))
    "console" "log" = Some (VBool false).
Proof.
  rewrite (merged_config_value [("console", VObj [("log", VBool false)]); ("chat", VNull)]
    "console" "log"); [by vm_compute|..|done];
    apply (bool_decide_unpack _); by vm_compute.
Defined.

(** ** Refresh *)

Lemma adminConfig_nonempty text : adminConfig text ≠ [].
Proof.
  assert (Hm : ∀ v, mergeAdminConfig v ≠ []).
  { intros v. unfold mergeAdminConfig. destruct (_ && _); [|done].
    assert (Hd : DEFAULT_ADMIN_CONFIG ≠ []) by done. revert Hd. generalize DEFAULT_ADMIN_CONFIG.
    induction (own_props v) as [|kv l IH]; intros c Hc; [done|]. apply IH.
    unfold merge_section. destruct (_ && _); [|done]. unfold obj_set. case_decide; [done|].
    unfold obj_define. repeat case_match; destruct c as [|[k0 v0] c]; try done.
    - cbn. by case_decide.
    - cbn. repeat case_match; done. }
  unfold adminConfig. repeat case_match; apply Hm.
Qed.

(** One refresh brings every mounted instance to the configuration the
    server reports, without showing a loader. *)
Theorem refresh_reaches_all (text : option string) (responses : nat → res jsval) (src : nat)
    (insts : list instance) (k : nat) (i : instance) :
  insts !! k = Some i →
  refreshUserConfig (adminConfig text) responses src insts !! k
  = Some (Instance (user_config_of (adminConfig text) (responses k)) (loading i) true).
Proof.
  intros Hk. unfold refreshUserConfig. pose proof (adminConfig_nonempty text) as Hne.
  destruct (adminConfig text) as [|c0 c]; [done|]. rewrite list_lookup_imap.
  unfold handleRefresh. destruct (decide (src = k)) as [->|Hne'].
  - rewrite list_lookup_alter_eq, Hk. cbn. by rewrite bool_decide_true.
  - rewrite list_lookup_alter_ne, Hk by done. cbn. by rewrite bool_decide_false.
Qed.

Lemma refresh_reaches_all_witness :
  refreshUserConfig (adminConfig None) (λ _, Throw "network") 0 [mounted; mounted] !! 1
  = Some (Instance (default_user_config (adminConfig None)) true true).
Proof.
  rewrite (refresh_reaches_all None (λ _, Throw "network") 0 [mounted; mounted] 1 mounted);
    done.
Defined.
End Sidebar.

Module Permissions.

(** [permissions?.sidebar_modules], when truthy. *)
Definition sidebar_modules (permissions : jsval) : option jsval :=
  let m := prop_opt permissions "sidebar_modules" in if truthy m then Some m else None.

Definition hasSidebarSettingsPermission (permissions : jsval) : bool :=
  is_true (prop_opt permissions "sidebar_settings").

Definition isSidebarSectionAllowed (permissions : jsval) (sectionKey : string) : bool :=
  match sidebar_modules permissions with
  | None => true
  | Some m => negb (is_false (prop_opt m sectionKey))
  end.

Definition isSidebarModuleAllowed (permissions : jsval) (sectionKey moduleKey : string) : bool :=
  match sidebar_modules permissions with
  | None => true
  | Some m =>
      let sectionPerms := prop_opt m sectionKey in
      if is_false sectionPerms then false
      else if truthy sectionPerms && is_false (prop_opt sectionPerms moduleKey) then false
      else true
  end.

Definition getAllowedSidebarSections (permissions : jsval) : list string :=
  match sidebar_modules permissions with
  | None => []
  | Some m => filter (λ k, isSidebarSectionAllowed permissions k = true) (obj_keys (own_props m))
  end.

Definition getAllowedSidebarModules (permissions : jsval) (sectionKey : string) : list string :=
  match sidebar_modules permissions with
  | None => []
  | Some m =>
      let sectionPerms := prop_opt m sectionKey in
      if is_false sectionPerms then []
      else if truthy sectionPerms && typeof_object sectionPerms
      then filter (λ k, k ≠ "enabled" ∧ is_true (prop_opt sectionPerms k) = true)
             (obj_keys (own_props sectionPerms))
      else []
  end.

(** [loadPermissions], from the call to its [finally]. *)
Record state := State { permissions : jsval; loading : bool; error : jsval }.

Definition answered (response : res jsval) : res (option jsval * jsval) :=
  r ← response;
  data ← prop r "data";
  success ← prop data "success";
  if truthy success then
    inner ← prop data "data";
    p ← prop inner "permissions";
    Ok (Some p, VNull)
  else
    m ← prop data "message";
    Ok (None, js_or m (VStr "获取权限失败")).

Definition loadPermissions (response : res jsval) (s : state) : state :=
  match answered response with
  | Ok (Some p, _) => State p false VNull
  | Ok (None, m) => State (permissions s) false m
  | Throw _ => State (permissions s) false (VStr "网络错误，请重试")
  end.

(** The listed sections are the allowed ones, and every listed module is
    allowed. *)
Lemma allowed_lists p s m :
  (∀ ms, sidebar_modules p = Some ms →
     (s ∈ getAllowedSidebarSections p ↔
      s ∈ obj_keys (own_props ms) ∧ isSidebarSectionAllowed p s = true)) ∧
  (m ∈ getAllowedSidebarModules p s → isSidebarModuleAllowed p s m = true).
Proof.
  unfold getAllowedSidebarSections, getAllowedSidebarModules, isSidebarModuleAllowed. split.
  - intros ms ->. rewrite list_elem_of_filter. naive_solver.
  - destruct (sidebar_modules p) as [ms|]; [|done].
    destruct (is_false (prop_opt ms s)); [set_solver|].
    destruct (truthy (prop_opt ms s)), (typeof_object (prop_opt ms s)); cbn [andb]; try set_solver.
    rewrite list_elem_of_filter. intros [[_ Ht] _].
    destruct (prop_opt (prop_opt ms s) m) as [| |[]| | | |]; done.
Qed.
End Permissions.

Module Navigation.

Record link := Link { text : string; itemKey : string; to : string; isExternal : bool }.

Definition defaultModules : jsval :=
  VObj [("home", VBool true); ("console", VBool true); ("pricing", VBool true);
        ("docs", VBool true); ("about", VBool true)].

Section nav.
Context (t : string → obj → string).

(** [docsLink] empty stands for no link. *)
Definition allLinks (docsLink : string) : list link :=
  [Link (t "首页" []) "home" "/" false; Link (t "控制台" []) "console" "/console" false;
   Link (t "模型广场" []) "pricing" "/pricing" false]
  ++ (if bool_decide (docsLink = "") then [] else [Link (t "文档" []) "docs" docsLink true])
  ++ [Link (t "关于" []) "about" "/about" false].

(** [typeof null] is ['object'], so a [null] pricing entry throws. *)
Definition link_shown (modules : jsval) (docsLink : string) (l : link) : res bool :=
  if bool_decide (itemKey l = "docs")
  then Ok (negb (bool_decide (docsLink = "")) && truthy (prop_opt modules "docs"))
  else if bool_decide (itemKey l = "pricing") then
    let pricing := prop_opt modules "pricing" in
    if typeof_object pricing then (v ← prop pricing "enabled"; Ok (truthy v))
    else Ok (truthy pricing)
  else Ok (is_true (prop_opt modules (itemKey l))).

Fixpoint res_filter {A} (f : A → res bool) (l : list A) : res (list A) :=
  match l with
  | [] => Ok []
  | x :: l => b ← f x; r ← res_filter f l; Ok (if (b : bool) then x :: r else r)
  end.

Definition mainNavLinks (docsLink : string) (headerNavModules : jsval) : res (list link) :=
  let modules := if truthy headerNavModules then headerNavModules else defaultModules in
  res_filter (link_shown modules docsLink) (allLinks docsLink).

Lemma res_filter_sublist {A} (f : A → res bool) l r :
  res_filter f l = Ok r → r `sublist_of` l ∧ ∀ x, x ∈ r → f x = Ok true.
Proof.
  revert r. induction l as [|x l IH]; intros r; cbn [res_filter]; [intros [= <-]; split; [done|set_solver]|].
  intros (b & Hb & (r' & Hr & [= <-])%res_bind_Ok)%res_bind_Ok. destruct (IH r' Hr) as [Hs Hx].
  destruct b; split; [by apply sublist_skip|set_solver|by apply sublist_cons|done].
Qed.

(** The shown links keep the order of the menu; the documentation link is
    shown only when there is one and it is not switched off. *)
Lemma nav_links docsLink hm ls :
  mainNavLinks docsLink hm = Ok ls →
  ls `sublist_of` allLinks docsLink ∧
  ∀ l, l ∈ ls → itemKey l = "docs" → docsLink ≠ "" ∧ (truthy hm = true → truthy (prop_opt hm "docs") = true).
Proof.
  unfold mainNavLinks. intros [Hs Hx]%res_filter_sublist. split; [done|].
  intros l Hl Hd. apply Hx in Hl. unfold link_shown in Hl. rewrite bool_decide_true in Hl by done.
  injection Hl as [H1 H2]%andb_true_iff. split.
  - intros ->. done.
  - intros Ht. by rewrite Ht in H2.
Qed.

(** A [pricing] entry that is [null] makes the header throw. *)
Lemma nav_null_pricing docsLink :
  ∃ m, mainNavLinks docsLink (VObj [("home", VBool true); ("pricing", VNull)]) = Throw m.
Proof. eexists. reflexivity. Qed.
End nav.
End Navigation.
