(* ===== verification/SecureVerification.v ===== *)
(** * Secure verification

    [web/src/services/secureVerification.js],
    [web/src/helpers/secureApiCall.js] and
    [web/src/hooks/common/useSecureVerification.jsx]: a sensitive API call is
    tried, and when the service asks for a verification it is repeated after
    the user passed a second factor.  The outside (server,
    browser credentials, the business call itself) answers requests; its
    answer may depend on all earlier requests ([world]), and the log of
    requests is the state of the computations, so that the order of calls
    can be stated.  The conversions of [helpers/passkey.js] between JSON and
    browser objects are the arguments [prepare] and [build]; the callbacks
    of the hook are recorded and do not throw. *)
From Stdlib Require Import Ascii SpecFloat.
From S2P Require Import Prelude JsString JsNumber JsValue Json.

(** ** Calls to the outside *)

Inductive request :=
| Get (url : string)
| Post (url : string) (body : jsval)
| PutReq (url : string) (body : jsval)
| DeleteReq (url : string) (body : jsval)
| PasskeySupported
| Credentials (publicKey : jsval)   (** [navigator.credentials.get] *)
| Business (k : nat).               (** a call given to [startVerification] *)

(** A value, or a thrown error object. *)
Inductive outcome (A : Type) := Done (a : A) | Error (error : jsval).
Arguments Done {A} a.
Arguments Error {A} error.

Definition io (A : Type) : Type := list request → outcome A * list request.
#[export] Instance io_ret : MRet io := λ A a log, (Done a, log).
#[export] Instance io_bind : MBind io := λ A B f m log,
  match m log with
  | (Done a, log') => f a log'
  | (Error e, log') => (Error e, log')
  end.

Definition io_throw {A} (e : jsval) : io A := λ log, (Error e, log).
Definition io_catch {A} (m : io A) (h : jsval → io A) : io A := λ log,
  match m log with
  | (Done a, log') => (Done a, log')
  | (Error e, log') => h e log'
  end.

(** [new Error(message)]; a message that has no string form raises a
    [TypeError] instead. *)
Definition new_error (message : jsval) : jsval :=
  match to_str message with
  | Ok m => VObj [("name", VStr "Error"); ("message", VStr m)]
  | Throw m => VObj [("name", VStr "TypeError"); ("message", VStr m)]
  end.
Definition error_text (m : string) : jsval := new_error (VStr m).

(** An expression that may throw a [TypeError]. *)
Definition io_lift {A} (r : res A) : io A := λ log,
  match r with
  | Ok a => (Done a, log)
  | Throw m => (Error (VObj [("name", VStr "TypeError"); ("message", VStr m)]), log)
  end.

(** [response.data?.success]. *)
Definition response_ok (r : jsval) : bool := truthy (prop_opt (prop_opt r "data") "success").
(** [response.data?.message || d]. *)
Definition response_message (r : jsval) (d : string) : jsval :=
  js_or (prop_opt (prop_opt r "data") "message") (VStr d).

Record methods := Methods { has2FA : bool; hasPasskey : bool; passkeySupported : bool }.
Definition no_methods : methods := Methods false false false.

Section service.
Context (world : list request → request → outcome jsval).
Context (prepare : jsval → res jsval) (build : jsval → jsval).

Definition call (r : request) : io jsval := λ log, (world log r, log ++ [r]).

(** [Promise.all] of three calls: all are issued, then the first error, if
    any, is thrown. *)
Definition all3 (a b c : request) : io (jsval * jsval * jsval) := λ log,
  let log' := log ++ [a; b; c] in
  match world log a, world (log ++ [a]) b, world (log ++ [a; b]) c with
  | Done x, Done y, Done z => (Done (x, y, z), log')
  | Error e, _, _ | Done _, Error e, _ | Done _, Done _, Error e => (Error e, log')
  end.

(** [data?.success && data?.data?.enabled === true]. *)
Definition method_enabled (r : jsval) : bool :=
  response_ok r && is_true (prop_opt (prop_opt (prop_opt r "data") "data") "enabled").

Definition checkAvailableVerificationMethods : io methods :=
  io_catch
    (rs ← all3 (Get "/api/user/2fa/status") (Get "/api/user/passkey") PasskeySupported;
     mret (Methods (method_enabled rs.1.1) (method_enabled rs.1.2) (truthy rs.2)))
    (λ _, mret no_methods).

(** [if (!response.data?.success) throw new Error(...)]. *)
Definition require_success (r : jsval) (d : string) : io unit :=
  if response_ok r then mret () else io_throw (new_error (response_message r d)).

Definition verify_url : string := "/api/verify".
Definition verify_2fa_body (code : string) : jsval :=
  VObj [("method", VStr "2fa"); ("code", VStr (trim code))].
Definition verify_passkey_body : jsval := VObj [("method", VStr "passkey")].

Definition verify2FA (code : string) : io unit :=
  if bool_decide (trim code = "") then io_throw (error_text "请输入验证码或备用码")
  else r ← call (Post verify_url (verify_2fa_body code)); require_success r "验证失败".

Definition passkey_steps : io unit :=
  begin ← call (Post "/api/user/passkey/verify/begin" VUndef);
  _ ← require_success begin "开始验证失败";
  inner ← io_lift (prop (prop_opt begin "data") "data");
  options ← io_lift (prop inner "options");
  publicKey ← io_lift (prepare options);
  credential ← call (Credentials publicKey);
  _ ← (if truthy credential then mret () else io_throw (error_text "Passkey 验证被取消"));
  fin ← call (Post "/api/user/passkey/verify/finish" (build credential));
  _ ← require_success fin "验证失败";
  r ← call (Post verify_url verify_passkey_body);
  require_success r "验证失败".

Definition is_named (error : jsval) (n : string) : bool :=
  match prop_opt error "name" with VStr s => bool_decide (s = n) | _ => false end.

Definition verifyPasskey : io unit :=
  io_catch passkey_steps (λ error,
    if is_named error "NotAllowedError" then io_throw (error_text "Passkey 验证被取消或超时")
    else if is_named error "InvalidStateError" then io_throw (error_text "Passkey 验证状态无效")
    else io_throw error).

(** [method] is [None] for [undefined] (or [null]). *)
Definition verify (method : option string) (code : string) : io unit :=
  match method with
  | Some m =>
      if bool_decide (m = "2fa") then verify2FA code
      else if bool_decide (m = "passkey") then verifyPasskey
      else io_throw (error_text ("不支持的验证方式: " +:+ m))
  | None => io_throw (error_text "不支持的验证方式: undefined")
  end.

(** ** [createApiCalls] *)

Definition viewChannelKey (channelId : string) : io jsval :=
  r ← call (Post ("/api/channel/" +:+ channelId +:+ "/key") (VObj [])); io_lift (prop r "data").

Definition custom (url method : string) (data : jsval) : io jsval :=
  let m := to_upper method in
  r ← (if bool_decide (m = "GET") then call (Get url)
       else if bool_decide (m = "POST") then call (Post url data)
       else if bool_decide (m = "PUT") then call (PutReq url data)
       else if bool_decide (m = "DELETE") then call (DeleteReq url data)
       else io_throw (error_text ("不支持的HTTP方法: " +:+ method)));
  io_lift (prop r "data").
End service.

(** ** [secureApiCall.js] *)

Definition VERIFICATION_CODES : list string :=
  ["VERIFICATION_REQUIRED"; "VERIFICATION_EXPIRED"; "VERIFICATION_INVALID"].

Definition isVerificationRequiredError (error : jsval) : bool :=
  let response := prop_opt error "response" in
  if truthy response then
    let data := prop_opt response "data" in
    (match prop_opt response "status" with VNum n => num_eqb n (num_of_Z 403) | _ => false end)
    && truthy data
    && (match prop_opt data "code" with VStr c => bool_decide (c ∈ VERIFICATION_CODES) | _ => false end)
  else false.

(** [extractVerificationInfo] as (code, message); [required] is always true. *)
Definition extractVerificationInfo (error : jsval) : jsval * jsval :=
  let data := js_or (prop_opt (prop_opt error "response") "data") (VObj []) in
  (prop_opt data "code", js_or (prop_opt data "message") (VStr "需要安全验证")).

(** ** The hook *)

Inductive effect :=
| ShowError (message : jsval)
| ShowSuccess (message : string)
| OnSuccess (result : jsval) (method : option string)
| OnError (error : jsval).

Record state := State {
  verificationMethods : methods; isModalVisible : bool;
  method : option string; loading : bool; code : string; apiCall : option nat;
  effects : list effect }.

Definition initial : state := State no_methods false None false "" None [].

Definition emit (x : effect) (s : state) : state :=
  let '(State a b c d e f g) := s in State a b c d e f (g ++ [x]).
Definition set_methods (m : methods) (s : state) : state :=
  let '(State _ b c d e f g) := s in State m b c d e f g.
Definition set_loading (v : bool) (s : state) : state :=
  let '(State a b c _ e f g) := s in State a b c v e f g.

Definition resetState (s : state) : state :=
  let '(State a _ _ _ _ _ g) := s in State a false None false "" None g.
Definition setVerificationCode (v : string) (s : state) : state :=
  let '(State a b c d _ f g) := s in State a b c d v f g.
Definition switchVerificationMethod (m : option string) (s : state) : state :=
  let '(State a b _ d _ f g) := s in State a b m d "" f g.
Definition cancelVerification : state → state := resetState.

Definition canUseMethod (ms : methods) (m : string) : bool :=
  if bool_decide (m = "2fa") then has2FA ms
  else if bool_decide (m = "passkey") then hasPasskey ms && passkeySupported ms
  else false.

Definition getRecommendedMethod (ms : methods) : option string :=
  if hasPasskey ms && passkeySupported ms then Some "passkey"
  else if has2FA ms then Some "2fa" else None.

Section hook.
Context (world : list request → request → outcome jsval).
Context (prepare : jsval → res jsval) (build : jsval → jsval).
Context (t : string → obj → string).
Context (successMessage : string) (autoReset : bool).

(** [startVerification] once the available methods [ms] are known;
    [preferredMethod] empty means none.  The result says whether the dialog
    was opened. *)
Definition startVerification (k : nat) (preferredMethod : string) (ms : methods) (s : state)
    : bool * state :=
  let s := set_methods ms s in
  if negb (has2FA ms) && negb (hasPasskey ms) then
    let m := t "您需要先启用两步验证或 Passkey 才能执行此操作" [] in
    (false, emit (OnError (error_text m)) (emit (ShowError (VStr m)) s))
  else
    let defaultMethod := if bool_decide (preferredMethod = "") then getRecommendedMethod ms
                         else Some preferredMethod in
    let '(State a _ _ d e _ g) := s in (true, State a true defaultMethod d e (Some k) g).

(** The requests of [executeVerification]: the second factor, then the
    business call. *)
Definition verified_call (k : nat) (m : option string) (code : string) : io jsval :=
  _ ← verify world prepare build m code; call world (Business k).

(** What [executeVerification] does to the state when the requests are over. *)
Definition after_verification (m : option string) (r : outcome jsval) (s : state) : state :=
  match r with
  | Done result =>
      let s := if bool_decide (successMessage = "") then s else emit (ShowSuccess successMessage) s in
      let s := emit (OnSuccess result m) s in
      set_loading false (if autoReset then resetState s else s)
  | Error error =>
      let s := emit (ShowError (js_or (prop_opt error "message") (VStr (t "验证失败，请重试" [])))) s in
      set_loading false (emit (OnError error) s)
  end.

(** [executeVerification(method, code)]; [during] is what other handlers do
    to the state while the requests are under way. *)
Definition executeVerification (m : option string) (code : string) (during : state → state)
    (s : state) (log : list request) : state * list request :=
  match apiCall s with
  | None => (emit (ShowError (VStr (t "验证配置错误" []))) s, log)
  | Some k =>
      let '(r, log') := verified_call k m code log in
      (after_verification m r (during (set_loading true s)), log')
  end.

(** [withVerification(apiCall)]: the call is tried first; a refusal that asks
    for verification opens the dialog and gives [null], any other error is
    passed on. *)
Definition withVerification (k : nat) (preferredMethod : string) (s : state) (log : list request)
    : outcome jsval * state * list request :=
  match call world (Business k) log with
  | (Done v, log) => (Done v, s, log)
  | (Error e, log) =>
      if isVerificationRequiredError e then
        match checkAvailableVerificationMethods world log with
        | (Done ms, log) => (Done VNull, (startVerification k preferredMethod ms s).2, log)
        | (Error e, log) => (Error e, s, log)
        end
      else (Error e, s, log)
  end.
End hook.

(** ** Order of calls *)

Definition is_business (r : request) : bool := match r with Business _ => true | _ => false end.

(** A computation that only appends requests to the log, none of them a
    business call. *)
Definition quiet {A} (m : io A) : Prop := ∀ log,
  ∃ new, (m log).2 = log ++ new ∧ forallb (λ r, negb (is_business r)) new = true.

Lemma quiet_ret {A} (a : A) : quiet (mret a).
Proof. intros log. exists []. by rewrite app_nil_r. Qed.
Lemma quiet_throw {A} e : quiet (io_throw (A := A) e).
Proof. intros log. exists []. by rewrite app_nil_r. Qed.
Lemma quiet_lift {A} (r : res A) : quiet (io_lift r).
Proof. intros log. exists []. rewrite app_nil_r. by destruct r. Qed.
Lemma quiet_call world r : is_business r = false → quiet (call world r).
Proof. intros Hr log. exists [r]. cbn. by rewrite Hr. Qed.
Lemma quiet_bind {A B} (m : io A) (f : A → io B) : quiet m → (∀ a, quiet (f a)) → quiet (m ≫= f).
Proof.
  intros Hm Hf log. unfold mbind, io_bind. destruct (Hm log) as (n1 & E1 & H1).
  destruct (m log) as [[a|e] l1]; cbn in *; [|by exists n1]. destruct (Hf a l1) as (n2 & E2 & H2).
  exists (n1 ++ n2). rewrite E2, E1, app_assoc. split; [done|]. by rewrite forallb_app, H1, H2.
Qed.
Lemma quiet_catch {A} (m : io A) h : quiet m → (∀ e, quiet (h e)) → quiet (io_catch m h).
Proof.
  intros Hm Hh log. unfold io_catch. destruct (Hm log) as (n1 & E1 & H1).
  destruct (m log) as [[a|e] l1]; cbn in *; [by exists n1|]. destruct (Hh e l1) as (n2 & E2 & H2).
  exists (n1 ++ n2). rewrite E2, E1, app_assoc. split; [done|]. by rewrite forallb_app, H1, H2.
Qed.
Lemma quiet_require r d : quiet (require_success r d).
Proof. unfold require_success. destruct (response_ok r); [apply quiet_ret|apply quiet_throw]. Qed.

Lemma io_bind_Done {A B} (m : io A) (f : A → io B) log b log' :
  (m ≫= f) log = (Done b, log') → ∃ a l1, m log = (Done a, l1) ∧ f a l1 = (Done b, log').
Proof. unfold mbind, io_bind. destruct (m log) as [[a|e] l1]; naive_solver. Qed.

(** Decompose quiet computations. *)
Ltac quiet_tac :=
  repeat first
    [ apply quiet_ret | apply quiet_throw | apply quiet_lift | apply quiet_require
    | apply quiet_call; reflexivity | apply quiet_bind | apply quiet_catch
    | match goal with |- ∀ _, quiet _ => intros ? end
    | match goal with |- quiet (if ?b then _ else _) => destruct b end ].

Section order.
Context (world : list request → request → outcome jsval).
Context (prepare : jsval → res jsval) (build : jsval → jsval).

Lemma quiet_verify m c : quiet (verify world prepare build m c).
Proof.
  unfold verify, verify2FA, verifyPasskey. destruct m; quiet_tac.
Qed.

(** The last request of a computation that succeeds was a successful
    [/api/verify] with body [body]. *)
Definition ends_verified (m : io unit) (body : jsval) : Prop := ∀ log log',
  m log = (Done (), log') →
  ∃ pre ans, log' = log ++ pre ++ [Post verify_url body] ∧
    forallb (λ r, negb (is_business r)) pre = true ∧
    world (log ++ pre) (Post verify_url body) = Done ans ∧ response_ok ans = true.

Lemma ends_call body d :
  ends_verified (r ← call world (Post verify_url body); require_success r d) body.
Proof.
  intros log log' (ans & l1 & Hc & Hr)%io_bind_Done. unfold call in Hc. injection Hc as Hw <-.
  unfold require_success in Hr. destruct (response_ok ans) eqn:Ho; [|done].
  unfold mret, io_ret in Hr. injection Hr as <-. exists [], ans. by rewrite app_nil_r.
Qed.

Lemma ends_bind {A} (m : io A) f body :
  quiet m → (∀ a, ends_verified (f a) body) → ends_verified (m ≫= f) body.
Proof.
  intros Hq Hf log log' (a & l1 & Hm & Ha)%io_bind_Done.
  destruct (Hq log) as (n1 & E1 & H1). rewrite Hm in E1. cbn in E1. subst l1.
  destruct (Hf a _ _ Ha) as (pre & ans & -> & Hp & Hw & Ho).
  exists (n1 ++ pre), ans. rewrite <-!app_assoc in *. split; [done|]. split; [|done].
  by rewrite forallb_app, H1, Hp.
Qed.

Lemma ends_steps : ends_verified (passkey_steps world prepare build) verify_passkey_body.
Proof.
  unfold passkey_steps. do 9 (apply ends_bind; [quiet_tac|intros ?]). apply ends_call.
Qed.

(** A verification that succeeds is one of the two methods, with its body. *)
Lemma verify_succeeds m c log log' :
  verify world prepare build m c log = (Done (), log') →
  ∃ pre body ans, log' = log ++ pre ++ [Post verify_url body] ∧
    forallb (λ r, negb (is_business r)) pre = true ∧
    world (log ++ pre) (Post verify_url body) = Done ans ∧ response_ok ans = true ∧
    (m = Some "2fa" ∧ trim c ≠ "" ∧ body = verify_2fa_body c
     ∨ m = Some "passkey" ∧ body = verify_passkey_body).
Proof.
  unfold verify. destruct m as [m|]; [|done]. case_bool_decide; [|case_bool_decide; [|done]]; subst.
  - unfold verify2FA. case_bool_decide; [done|]. intros Hv%ends_call.
    destruct Hv as (pre & ans & ? & ? & ? & ?). exists pre, (verify_2fa_body c), ans. auto 10.
  - unfold verifyPasskey, io_catch.
    destruct (passkey_steps world prepare build log) as [[[]|e] l1] eqn:E.
    + intros [= <-]. apply ends_steps in E as (pre & ans & ? & ? & ? & ?).
      exists pre, verify_passkey_body, ans. auto 10.
    + repeat case_match; done.
Qed.

(** The requests of one verification: the sensitive call comes last, directly
    after an accepted factor of the chosen method, or not at all. *)
Lemma verified_call_spec (k : nat) (m : option string) (c : string) (log : list request) :
  let '(r, log') := verified_call world prepare build k m c log in
  (∃ pre body ans,
     log' = log ++ pre ++ [Post verify_url body; Business k] ∧
     forallb (λ r, negb (is_business r)) pre = true ∧
     world (log ++ pre) (Post verify_url body) = Done ans ∧ response_ok ans = true ∧
     (m = Some "2fa" ∧ trim c ≠ "" ∧ body = verify_2fa_body c
      ∨ m = Some "passkey" ∧ body = verify_passkey_body)) ∨
  (∃ new err, log' = log ++ new ∧ forallb (λ r, negb (is_business r)) new = true ∧ r = Error err).
Proof.
  unfold verified_call, mbind, io_bind.
  destruct (verify world prepare build m c log) as [[[]|e] l1] eqn:E.
  - left. apply verify_succeeds in E as (pre & body & ans & -> & H).
    exists pre, body, ans. by rewrite <-!app_assoc.
  - right. destruct (quiet_verify m c log) as (new & Hn & Hb). rewrite E in Hn. cbn in Hn. eauto.
Qed.

Lemma quiet_check : quiet (checkAvailableVerificationMethods world).
Proof.
  unfold checkAvailableVerificationMethods. apply quiet_catch; [|quiet_tac].
  apply quiet_bind; [|quiet_tac]. intros log. unfold all3.
  eexists. split; [by repeat case_match|done].
Qed.

Lemma check_done log : ∃ ms log', checkAvailableVerificationMethods world log = (Done ms, log').
Proof.
  unfold checkAvailableVerificationMethods, io_catch. case_match. case_match; eauto.
Qed.
End order.

(** ** Sessions *)

(** What the user does in the dialog. *)
Inductive input := Cancel | Switch (m : option string) | Type_ (code : string).

Definition on_input (s : state) (u : input) : state :=
  match u with
  | Cancel => cancelVerification s
  | Switch m => switchVerificationMethod m s
  | Type_ c => setVerificationCode c s
  end.

(** The uses of the hook: the check when it is mounted, the wrapper, a start
    by hand, the button of the dialog with what is done in it meanwhile, and
    the rest of the dialog. *)
Inductive act :=
| Mount
| With (k : nat) (preferredMethod : string)
| Start (k : nat) (preferredMethod : string)
| Execute (m : option string) (code : string) (meanwhile : list input)
| Input (u : input).

Section session.
Context (world : list request → request → outcome jsval).
Context (prepare : jsval → res jsval) (build : jsval → jsval).
Context (t : string → obj → string) (successMessage : string) (autoReset : bool).

(** [checkVerificationMethods], then [next] with the methods. *)
Definition methods_checked (next : methods → state → state) (s : state) (log : list request) : state * list request :=
  match checkAvailableVerificationMethods world log with
  | (Done ms, log) => (next ms s, log)
  | (Error _, log) => (s, log)
  end.

Definition perform (x : state * list request) (a : act) : state * list request :=
  let '(s, log) := x in
  match a with
  | Mount => methods_checked set_methods s log
  | With k p => let '(_, s, log) := withVerification world t k p s log in (s, log)
  | Start k p => methods_checked (λ ms s, (startVerification t k p ms s).2) s log
  | Execute m c us =>
      executeVerification world prepare build t successMessage autoReset m c (λ s, foldl on_input s us) s log
  | Input u => (on_input s u, log)
  end.

Definition session (acts : list act) : state * list request := foldl perform (initial, []) acts.

Lemma session_snoc acts a : session (acts ++ [a]) = perform (session acts) a.
Proof. unfold session. by rewrite foldl_app. Qed.

(** *** The call that the dialog holds *)

(** The page asked for the call [k]: it was refused for lack of a
    verification, or the page started one by hand. *)
Definition asked (k : nat) (acts : list act) : Prop :=
  ∃ acts1 p acts2, acts = acts1 ++ Start k p :: acts2 ∨
    acts = acts1 ++ With k p :: acts2 ∧
    ∃ e, world (session acts1).2 (Business k) = Error e ∧ isVerificationRequiredError e = true.

Lemma asked_snoc k acts a : asked k acts → asked k (acts ++ [a]).
Proof.
  intros (acts1 & p & acts2 & H). exists acts1, p, (acts2 ++ [a]).
  destruct H as [->|[-> He]]; [left|right]; rewrite <-app_assoc; done.
Qed.

Lemma apiCall_input s u k : apiCall (on_input s u) = Some k → apiCall s = Some k.
Proof. by destruct u, s. Qed.

Lemma apiCall_inputs us s k : apiCall (foldl on_input s us) = Some k → apiCall s = Some k.
Proof. revert s. induction us as [|u us IH]; [done|]. intros s H%IH. by eapply apiCall_input. Qed.

Lemma apiCall_start k p ms s k' :
  apiCall (startVerification t k p ms s).2 = Some k' → k' = k ∨ apiCall s = Some k'.
Proof.
  unfold startVerification. destruct (negb _ && negb _), s; cbn; [by right|]. intros [= ->]. by left.
Qed.

Lemma apiCall_after m r s k : apiCall (after_verification t successMessage autoReset m r s) = Some k →
  apiCall s = Some k.
Proof. unfold after_verification. destruct r, s; [destruct (bool_decide _), autoReset|]; done. Qed.

Lemma apiCall_with k p s log k' :
  apiCall (withVerification world t k p s log).1.2 = Some k' →
  apiCall s = Some k' ∨ k' = k ∧ ∃ e, world log (Business k) = Error e ∧ isVerificationRequiredError e = true.
Proof.
  unfold withVerification, call. destruct (world log (Business k)) as [v|e]; [by left|].
  destruct (isVerificationRequiredError e) eqn:He; [|by left].
  destruct (check_done world (log ++ [Business k])) as (ms & log' & ->). cbn.
  intros [->|?]%apiCall_start; [right; eauto|by left].
Qed.

Lemma apiCall_execute m c us s log k :
  apiCall (executeVerification world prepare build t successMessage autoReset m c
             (λ s, foldl on_input s us) s log).1 = Some k → apiCall s = Some k.
Proof.
  unfold executeVerification. destruct (apiCall s) as [k0|] eqn:E; [|destruct s; cbn in *; congruence].
  destruct (verified_call _ _ _ _ _ _ _) as [r log']. cbn. intros H%apiCall_after%apiCall_inputs.
  destruct s; cbn in *; congruence.
Qed.

Lemma apiCall_asked acts k : apiCall (session acts).1 = Some k → asked k acts.
Proof.
  induction acts as [|a acts IH] using rev_ind; [done|]. rewrite session_snoc.
  destruct (session acts) as [s log] eqn:Es. cbn [fst] in IH. intros H.
  destruct a as [|k0 p|k0 p|m c us|u]; cbn [perform] in H.
  - unfold methods_checked in H. destruct (check_done world log) as (ms & log' & E). rewrite E in H.
    apply asked_snoc, IH. by destruct s.
  - pose proof (apiCall_with k0 p s log k) as Hw.
    destruct (withVerification world t k0 p s log) as [[v s'] log']. cbn in H, Hw.
    destruct (Hw H) as [?|[-> He]]; [by apply asked_snoc, IH|].
    exists acts, p, []. right. split; [done|]. by rewrite Es.
  - unfold methods_checked in H. destruct (check_done world log) as (ms & log' & E). rewrite E in H. cbn in H.
    apply apiCall_start in H as [->|?]; [|by apply asked_snoc, IH]. exists acts, p, []. by left.
  - apply asked_snoc, IH. by eapply apiCall_execute.
  - apply asked_snoc, IH. by eapply apiCall_input.
Qed.

(** *** The sensitive calls *)

(** A sensitive call [k] after the requests [pre] is the attempt of the
    wrapper, or follows a factor that was just accepted in the dialog. *)
Definition justified (acts : list act) (pre : list request) (k : nat) : Prop :=
  (∃ acts1 p acts2, acts = acts1 ++ With k p :: acts2 ∧ pre = (session acts1).2) ∨
  (∃ acts1 m c us acts2 pre' body ans,
     acts = acts1 ++ Execute m c us :: acts2 ∧ asked k acts1 ∧
     pre = pre' ++ [Post verify_url body] ∧ (session acts1).2 `prefix_of` pre' ∧
     world pre' (Post verify_url body) = Done ans ∧ response_ok ans = true ∧
     (m = Some "2fa" ∧ trim c ≠ "" ∧ body = verify_2fa_body c
      ∨ m = Some "passkey" ∧ body = verify_passkey_body)).

Lemma justified_snoc acts a pre k : justified acts pre k → justified (acts ++ [a]) pre k.
Proof.
  intros [(acts1 & p & acts2 & -> & H)|(acts1 & m & c & us & acts2 & pre' & body & ans & -> & H)].
  - left. exists acts1, p, (acts2 ++ [a]). by rewrite <-app_assoc.
  - right. exists acts1, m, c, us, (acts2 ++ [a]), pre', body, ans. by rewrite <-app_assoc.
Qed.

Lemma split_app {A} (l1 l2 pre post : list A) x : l1 ++ l2 = pre ++ x :: post →
  (∃ post', l1 = pre ++ x :: post') ∨ (∃ pre', pre = l1 ++ pre' ∧ l2 = pre' ++ x :: post).
Proof.
  intros [(k & -> & E)|(k & -> & E)]%app_eq_inv; [|right; eauto].
  destruct k as [|y k]; cbn in *; [right; exists []; by rewrite !app_nil_r|].
  injection E as <- _. left. eauto.
Qed.

Lemma no_business new pre k post : forallb (λ r, negb (is_business r)) new = true → new = pre ++ Business k :: post → False.
Proof. intros H ->. rewrite forallb_app in H. cbn in H. by rewrite andb_false_r in H. Qed.

(** The requests of one use of the hook. *)
Lemma perform_log acts a :
  ∃ new, (perform (session acts) a).2 = (session acts).2 ++ new ∧
    ∀ pre k post, new = pre ++ Business k :: post → justified (acts ++ [a]) ((session acts).2 ++ pre) k.
Proof.
  destruct (session acts) as [s log] eqn:Es. cbn [snd].
  assert (∀ next, ∃ new, (methods_checked next s log).2 = log ++ new ∧ forallb (λ r, negb (is_business r)) new = true) as Hc.
  { intros next. unfold methods_checked. destruct (quiet_check world log) as (new & E & H).
    destruct (checkAvailableVerificationMethods world log) as [[] log']; cbn in *; eauto. }
  destruct a as [|k p|k p|m c us|u]; cbn [perform].
  - destruct (Hc set_methods) as (new & E & H). exists new. split; [done|]. intros ??? E0. by destruct (no_business _ _ _ _ H E0).
  - unfold withVerification, call. destruct (quiet_check world (log ++ [Business k])) as (new & E & H).
    assert (∃ new', forallb (λ r, negb (is_business r)) new' = true ∧
      (perform (s, log) (With k p)).2 = log ++ Business k :: new') as (new' & Hn & E').
    { cbn [perform]. unfold withVerification, call. destruct (world log (Business k)); [by exists []|].
      destruct (isVerificationRequiredError _); [|by exists []].
      destruct (checkAvailableVerificationMethods world _) as [[] log']; cbn in *; subst;
        exists new; by rewrite <-app_assoc. }
    exists (Business k :: new'). split; [exact E'|]. intros pre k' post Ep. left.
    destruct pre as [|r pre]; injection Ep as <- Ep; [|by destruct (no_business _ _ _ _ Hn Ep)].
    exists acts, p, []. by rewrite app_nil_r, Es.
  - destruct (Hc (λ ms s, (startVerification t k p ms s).2)) as (new & E & H). exists new. split; [done|].
    intros ??? E0. by destruct (no_business _ _ _ _ H E0).
  - unfold executeVerification. destruct (apiCall s) as [k|] eqn:Ek.
    2: { exists []. rewrite app_nil_r. split; [done|]. by intros [] ?? [=]. }
    pose proof (verified_call_spec world prepare build k m c log) as H.
    destruct (verified_call world prepare build k m c log) as [r log']. cbn [snd].
    destruct H as [(pre & body & ans & -> & Hp & Hw & Ho & Hm)|(new & err & -> & Hn & _)].
    + exists (pre ++ [Post verify_url body; Business k]). split; [done|].
      intros q k' post E. assert (q = pre ++ [Post verify_url body] ∧ k' = k) as [-> ->].
      { apply split_app in E as [(? & E)|(q' & -> & E)]; [by destruct (no_business _ _ _ _ Hp E)|].
        destruct q' as [|x [|y q']]; [discriminate E| |by destruct q'].
        by injection E as <- <- _. }
      right. exists acts, m, c, us, [], (log ++ pre), body, ans. rewrite Es, <-app_assoc.
      split_and!; [done| |done|by eexists|done..]. apply apiCall_asked. by rewrite Es.
    + exists new. split; [done|]. intros ??? E0. by destruct (no_business _ _ _ _ Hn E0).
  - exists []. rewrite app_nil_r. split; [done|]. by intros [] ?? [=].
Qed.

(** C1.  In every session of the hook, each sensitive request is one of two.
    It is the attempt the page makes through [withVerification], which calls
    first and unverified and leaves the decision to the service; or it comes
    directly after a [/api/verify] request that the service answered with
    success, for the method chosen in the dialog (a code that is not blank, or
    a passkey), and repeats a call that the service refused for lack of a
    verification or for which the page started one.  A verification that
    fails, and everything else that is done with the hook, makes no sensitive
    request. *)
Theorem business_after_verify (acts : list act) (pre post : list request) (k : nat) :
  (session acts).2 = pre ++ Business k :: post → justified acts pre k.
Proof.
  revert pre post. induction acts as [|a acts IH] using rev_ind; [by intros [] ?|].
  intros pre post. rewrite session_snoc. destruct (perform_log acts a) as (new & -> & Hnew).
  intros [(post' & E)|(pre' & -> & E)]%split_app; [by eapply justified_snoc, IH|]. by eapply Hnew.
Qed.
End session.

(** ** The dialog *)

Section dialog.
Context (world : list request → request → outcome jsval).
Context (prepare : jsval → res jsval) (build : jsval → jsval).
Context (t : string → obj → string) (successMessage : string) (autoReset : bool).

(** However the requests end and whatever happens to the dialog
    meanwhile, it is not left loading; after a success with automatic reset
    it is closed and forgets the call, and after a failure the error is
    reported to the user and to the caller while the call is kept for another
    attempt. *)
Theorem execution_leaves_dialog (m : option string) (c : string) (during : state → state)
    (s : state) (log : list request) (k : nat) :
  apiCall s = Some k →
  let '(r, log') := verified_call world prepare build k m c log in
  ∃ s', executeVerification world prepare build t successMessage autoReset m c during s log
        = (s', log') ∧ loading s' = false ∧
    match r with
    | Done result =>
        OnSuccess result m ∈ effects s' ∧
        (autoReset = true → isModalVisible s' = false ∧ apiCall s' = None ∧ code s' = "")
    | Error error =>
        (∃ text, effects s' = effects (during (set_loading true s)) ++ [ShowError text; OnError error])
        ∧ apiCall s' = apiCall (during (set_loading true s))
        ∧ isModalVisible s' = isModalVisible (during (set_loading true s))
    end.
Proof.
  intros Hk. unfold executeVerification. rewrite Hk.
  destruct (verified_call world prepare build k m c log) as [[result|error] log'].
  - eexists. split; [reflexivity|]. unfold after_verification.
    generalize (during (set_loading true s)). intros [a b d l e f g].
    destruct (bool_decide _), autoReset; cbn; (split; [done|]; split; [set_solver|done]).
  - eexists. split; [reflexivity|]. unfold after_verification.
    generalize (during (set_loading true s)). intros [a b d l e f g]. cbn.
    split_and!; [done| |done..]. eexists. by rewrite <-app_assoc.
Qed.

(** Starting a verification opens the dialog exactly when the user has
    a second factor.  Without a preferred method the chosen one can be used,
    except for a user whose only factor is a passkey on a browser that does
    not support passkeys: the dialog opens without a method, and executing it
    fails before any request. *)
Theorem start_chooses_method (k : nat) (ms : methods) (s : state) :
  let '(opened, s') := startVerification t k "" ms s in
  opened = has2FA ms || hasPasskey ms ∧
  (opened = true → isModalVisible s' = true ∧ apiCall s' = Some k ∧
     match method s' with
     | Some m => canUseMethod (verificationMethods s') m = true
     | None => has2FA ms = false ∧ hasPasskey ms = true ∧ passkeySupported ms = false ∧
               ∀ c log, ∃ err, verified_call world prepare build k (method s') c log = (Error err, log)
     end).
Proof.
  unfold startVerification, getRecommendedMethod.
  destruct ms as [[] [] []], s; cbn; split_and!; try done; intros _; split_and!; try done.
  rewrite bool_decide_true by done. split_and!; [done..|]. intros c log. by eexists.
Qed.
End dialog.

Definition accepts (_ : list request) (_ : request) : outcome jsval :=
  Done (VObj [("data", VObj [("success", VBool true)])]).
Definition ready : state := State (Methods true false false) true (Some "2fa") false "1" (Some 4) [].

Lemma execution_leaves_dialog_witness :
  ∃ s', executeVerification accepts (λ v, Ok v) (λ v, v) (λ k _, k) "" true (Some "2fa") " 12 "
          (λ s, s) ready [] = (s', [Post verify_url (verify_2fa_body " 12 "); Business 4]) ∧
    loading s' = false ∧ isModalVisible s' = false.
Proof.
  destruct (execution_leaves_dialog accepts (λ v, Ok v) (λ v, v) (λ k _, k) "" true (Some "2fa")
    " 12 " (λ s, s) ready [] 4 eq_refl) as (s' & H1 & H2 & _ & H3).
  exists s'. destruct (H3 eq_refl) as [H4 _]. by split_and!.
Defined.

(** A service that refuses the call until a factor was accepted. *)
Definition guarded (log : list request) (r : request) : outcome jsval :=
  match r with
  | Business _ =>
      if existsb (λ r, match r with Post _ _ => true | _ => false end) log
      then Done (VStr "secret")
      else Error (VObj [("response", VObj [("status", VNum (num_of_Z 403));
                                           ("data", VObj [("code", VStr "VERIFICATION_REQUIRED")])])])
  | Get _ => Done (VObj [("data", VObj [("success", VBool true); ("data", VObj [("enabled", VBool true)])])])
  | _ => Done (VObj [("data", VObj [("success", VBool true)])])
  end.

Definition guarded_acts : list act := [Mount; With 4 ""; Execute (Some "2fa") " 12 " [Type_ "3"]].

Lemma business_after_verify_witness :
  ∃ acts1 m c us acts2 pre' body ans,
    guarded_acts = acts1 ++ Execute m c us :: acts2 ∧
    asked guarded (λ v, Ok v) (λ v, v) (λ k _, k) "" true 4 acts1 ∧
    guarded pre' (Post verify_url body) = Done ans ∧ response_ok ans = true.
Proof.
  set (ss := session guarded (λ v, Ok v) (λ v, v) (λ k _, k) "" true).
  set (first := (ss [Mount]).2 ++ [Business 4; Get "/api/user/2fa/status"; Get "/api/user/passkey"; PasskeySupported]).
  assert ((ss guarded_acts).2 = (first ++ [Post verify_url (verify_2fa_body " 12 ")]) ++ Business 4 :: []) as E
    by (vm_compute; reflexivity).
  destruct (business_after_verify guarded (λ v, Ok v) (λ v, v) (λ k _, k) "" true guarded_acts _ _ _ E)
    as [(acts1 & p & acts2 & Ea & Ep)|(acts1 & m & c & us & acts2 & pre' & body & ans & Ea & Hk & _ & _ & Hw & Ho & _)].
  - exfalso. destruct acts1 as [|a1 [|a2 [|a3 [|? ?]]]]; cbn in Ea; try discriminate Ea.
    injection Ea as <- _ _. vm_compute in Ep. discriminate Ep.
  - by exists acts1, m, c, us, acts2, pre', body, ans.
Defined.
