(* ===== verification/ExactIntegers.v ===== *)
(** * Sums of integers in binary64

    JavaScript adds doubles; for non-negative integers below [2^53] nothing is
    rounded.  This file proves it for the arithmetic of the Standard Library
    ([SpecFloat]) and carries it over to sums of lists. *)
From Stdlib Require Import SpecFloat.
From S2P Require Import Prelude JsNumber.
Local Open Scope Z_scope.

Lemma digits2_log2 p : Z.pos (digits2_pos p) = Z.log2 (Z.pos p) + 1.
Proof. rewrite digits2_pos_size. destruct p; cbn; lia. Qed.

Lemma iter_pos_nat {A} (f : A → A) p x : SpecFloat.iter_pos f p x = Nat.iter (Pos.to_nat p) f x.
Proof.
  revert x. induction p as [p IH|p IH|]; intros x; cbn [SpecFloat.iter_pos].
  - rewrite !IH, Pos2Nat.inj_xI. replace (S (2 * Pos.to_nat p)) with (Pos.to_nat p + (Pos.to_nat p + 1))%nat by lia.
    by rewrite !Nat.iter_add.
  - rewrite !IH, Pos2Nat.inj_xO. replace (2 * Pos.to_nat p)%nat with (Pos.to_nat p + Pos.to_nat p)%nat by lia.
    by rewrite Nat.iter_add.
  - done.
Qed.

(** Shifting out zeros is exact. *)
Lemma shr_zeros n m : 0 < m →
  Nat.iter n shr_1 (Build_shr_record (m * 2 ^ Z.of_nat n) false false) = Build_shr_record m false false.
Proof.
  revert m. induction n as [|n IH]; intros m Hm; [cbn; f_equal; lia|]. rewrite Nat.iter_succ.
  replace (m * 2 ^ Z.of_nat (S n)) with (m * 2 * 2 ^ Z.of_nat n) by (rewrite Nat2Z.inj_succ, Z.pow_succ_r; lia).
  rewrite IH by lia. destruct m as [|p|p]; [lia| |lia]. rewrite Z.mul_comm. done.
Qed.

Lemma shl_zeros d m : Z.pos (Pos.iter xO m d) = Z.pos m * 2 ^ Z.pos d.
Proof.
  induction d as [|d IH] using Pos.peano_ind; [cbn; lia|].
  rewrite Pos.iter_succ, Pos2Z.inj_xO, IH, Pos2Z.inj_succ, Z.pow_succ_r by lia. lia.
Qed.

(** A mantissa of 53 bits is left alone. *)
Lemma round_canonical s m e : 2 ^ 52 ≤ Z.pos m < 2 ^ 53 → -1074 ≤ e ≤ 971 →
  binary_round_aux 53 1024 s (Z.pos m) e loc_Exact = S754_finite s m e.
Proof.
  intros Hm He. assert (Z.log2 (Z.pos m) = 52) as Hl by (apply Z.log2_unique; lia).
  assert (shr_fexp 53 1024 (Z.pos m) e loc_Exact = (Build_shr_record (Z.pos m) false false, e)) as Hs.
  { unfold shr_fexp, fexp, SpecFloat.emin. change (Zdigits2 (Z.pos m)) with (Z.pos (digits2_pos m)).
    rewrite digits2_log2, Hl. replace (Z.max _ _ - e) with 0 by lia. done. }
  unfold binary_round_aux. rewrite Hs. cbn [loc_of_shr_record round_nearest_even shr_m]. rewrite Hs. cbn [shr_m].
  destruct (Z.leb_spec e (1024 - 53)); [done|lia].
Qed.

(** Rounding a mantissa whose value has 53 bits. *)
Lemma round_exact s p e m e' :
  2 ^ 52 ≤ Z.pos m < 2 ^ 53 → -1074 ≤ e' ≤ 971 →
  (e' ≤ e ∧ Z.pos m = Z.pos p * 2 ^ (e - e')) ∨ (e < e' ∧ Z.pos p = Z.pos m * 2 ^ (e' - e)) →
  binary_round 53 1024 s p e = S754_finite s m e'.
Proof.
  intros Hm He' Hpm. assert (Z.log2 (Z.pos m) = 52) as Hl by (apply Z.log2_unique; lia).
  assert (fexp 53 1024 (Z.pos (digits2_pos p) + e) = e') as Hf.
  { unfold fexp, SpecFloat.emin. rewrite digits2_log2. destruct Hpm as [[Hle Hm']|[Hlt Hp]].
    - rewrite Hm', Z.log2_mul_pow2 in Hl by lia. lia.
    - rewrite Hp, Z.log2_mul_pow2 by lia. lia. }
  unfold binary_round. rewrite Hf. destruct Hpm as [[Hle Hm']|[Hlt Hp]].
  - assert (shl_align p e e' = (m, e')) as ->; [|by apply round_canonical].
    unfold shl_align. destruct (e' - e) as [|d|d] eqn:E; [|lia|].
    + assert (e = e') as -> by lia. rewrite Z.sub_diag in Hm'. f_equal. lia.
    + f_equal. apply (inj Z.pos). rewrite shl_zeros, Hm'. do 2 f_equal. lia.
  - assert (shl_align p e e' = (p, e)) as ->.
    { unfold shl_align. destruct (e' - e) eqn:E; [done|done|lia]. }
    unfold binary_round_aux.
    assert (shr_fexp 53 1024 (Z.pos p) e loc_Exact = (Build_shr_record (Z.pos m) false false, e')) as ->.
    { unfold shr_fexp. change (Zdigits2 (Z.pos p)) with (Z.pos (digits2_pos p)). rewrite Hf. unfold shr.
      destruct (e' - e) as [|d|d] eqn:E; [lia| |lia]. rewrite iter_pos_nat. cbn [shr_record_of_loc].
      rewrite Hp, <-(positive_nat_Z d), shr_zeros by lia. f_equal. lia. }
    cbn [loc_of_shr_record round_nearest_even shr_m].
    pose proof (round_canonical s m e' Hm He') as Hr. unfold binary_round_aux in Hr.
    assert (shr_fexp 53 1024 (Z.pos m) e' loc_Exact = (Build_shr_record (Z.pos m) false false, e')) as Hs.
    { unfold shr_fexp, fexp, SpecFloat.emin. change (Zdigits2 (Z.pos m)) with (Z.pos (digits2_pos m)).
      rewrite digits2_log2, Hl. replace (Z.max _ _ - e') with 0 by lia. done. }
    rewrite Hs in Hr. cbn [loc_of_shr_record round_nearest_even shr_m] in Hr. by rewrite Hs in *.
Qed.

(** The mantissa of an integer. *)
Definition mant (z : Z) : Z := z * 2 ^ (52 - Z.log2 z).

Lemma mant_bounds z : 0 < z < 2 ^ 53 → 2 ^ 52 ≤ mant z < 2 ^ 53 ∧ 0 ≤ Z.log2 z ≤ 52.
Proof.
  intros Hz. pose proof (Z.log2_spec z) as [H1 H2]; [lia|].
  assert (0 ≤ Z.log2 z ≤ 52) as Hl.
  { split; [apply Z.log2_nonneg|]. apply Z.lt_succ_r. apply Z.log2_lt_pow2; lia. }
  split; [|done]. unfold mant.
  assert (2 ^ 52 = 2 ^ Z.log2 z * 2 ^ (52 - Z.log2 z)) as H52 by (rewrite <-Z.pow_add_r by lia; f_equal; lia).
  assert (2 ^ 53 = 2 ^ Z.succ (Z.log2 z) * 2 ^ (52 - Z.log2 z)) as H53 by (rewrite <-Z.pow_add_r by lia; f_equal; lia).
  rewrite H53. assert (0 < 2 ^ (52 - Z.log2 z)) by (apply Z.pow_pos_nonneg; lia). rewrite H52. split; nia.
Qed.

(** Every way to write an integer as a scaled mantissa is rounded to it. *)
Lemma normalize_integer z k : 0 < z < 2 ^ 53 → 0 ≤ k →
  binary_normalize 53 1024 (z * 2 ^ k) (- k) false
  = S754_finite false (Z.to_pos (mant z)) (Z.log2 z - 52).
Proof.
  intros Hz Hk. destruct (mant_bounds z Hz) as [Hm Hl]. assert (0 < 2 ^ k) by (apply Z.pow_pos_nonneg; lia).
  destruct (z * 2 ^ k) as [|p|p] eqn:E; [nia| |nia]. cbn [binary_normalize].
  apply round_exact; rewrite ?Z2Pos.id by lia; [done|lia|].
  destruct (Z_le_gt_dec (Z.log2 z - 52) (- k)) as [Hle|Hgt].
  - left. split; [done|]. rewrite <-E. unfold mant. rewrite <-Z.mul_assoc, <-Z.pow_add_r by lia. do 2 f_equal. lia.
  - right. split; [lia|]. rewrite <-E. unfold mant. rewrite <-Z.mul_assoc, <-Z.pow_add_r by lia. do 2 f_equal. lia.
Qed.

Lemma num_of_Z_pos z : 0 < z < 2 ^ 53 →
  num_of_Z z = S754_finite false (Z.to_pos (mant z)) (Z.log2 z - 52).
Proof. intros Hz. rewrite <-(normalize_integer z 0) by lia. unfold num_of_Z. f_equal; lia. Qed.

Lemma align_integer z ez : 0 < z < 2 ^ 53 → ez ≤ Z.log2 z - 52 →
  Z.pos (shl_align (Z.to_pos (mant z)) (Z.log2 z - 52) ez).1 = z * 2 ^ (- ez).
Proof.
  intros Hz He. destruct (mant_bounds z Hz) as [Hm Hl]. unfold shl_align.
  destruct (ez - (Z.log2 z - 52)) as [|d|d] eqn:E; [|lia|].
  - cbn. rewrite Z2Pos.id by lia. unfold mant. do 2 f_equal. lia.
  - cbn. rewrite shl_zeros, Z2Pos.id by lia. unfold mant. rewrite <-Z.mul_assoc, <-Z.pow_add_r by lia.
    do 2 f_equal. lia.
Qed.

(** The sum of two integers is exact. *)
Lemma num_add_exact a b : 0 ≤ a → 0 ≤ b → a + b < 2 ^ 53 →
  num_add (num_of_Z a) (num_of_Z b) = num_of_Z (a + b).
Proof.
  intros Ha Hb Hab. destruct (decide (a = 0)) as [->|Ha0].
  { destruct (decide (b = 0)) as [->|Hb0]; [done|]. rewrite Z.add_0_l, (num_of_Z_pos b) by lia. done. }
  destruct (decide (b = 0)) as [->|Hb0].
  { rewrite Z.add_0_r, (num_of_Z_pos a) by lia. done. }
  rewrite !num_of_Z_pos by lia. unfold num_add, SFadd.
  destruct (mant_bounds a) as [_ Hla]; [lia|]. destruct (mant_bounds b) as [_ Hlb]; [lia|].
  set (ez := Z.min _ _). assert (ez ≤ 0 ∧ ez ≤ Z.log2 a - 52 ∧ ez ≤ Z.log2 b - 52) as (H0 & H1 & H2) by lia.
  cbn [cond_Zopp]. rewrite !align_integer by lia. rewrite <-Z.mul_add_distr_r.
  rewrite <-(Z.opp_involutive ez) at 2. apply normalize_integer; lia.
Qed.

(** ** Sums *)

Definition sum_Z (l : list Z) : Z := foldr Z.add 0 l.

Lemma sum_Z_nonneg l : Forall (λ z, 0 ≤ z) l → 0 ≤ sum_Z l.
Proof. induction 1; unfold sum_Z in *; cbn; lia. Qed.

Lemma sum_Z_app l1 l2 : sum_Z (l1 ++ l2) = sum_Z l1 + sum_Z l2.
Proof.
  induction l1 as [|x l1 IH]; [done|]. change (x + sum_Z (l1 ++ l2) = x + sum_Z l1 + sum_Z l2). lia.
Qed.

Lemma sum_Z_perm l1 l2 : l1 ≡ₚ l2 → sum_Z l1 = sum_Z l2.
Proof. induction 1; unfold sum_Z in *; cbn in *; lia. Qed.

(** JavaScript's running sum of non-negative integers is their sum, as
    long as the total stays below [2^53]. *)
Lemma sum_exact l a : 0 ≤ a → Forall (λ z, 0 ≤ z) l → a + sum_Z l < 2 ^ 53 →
  foldl (λ acc z, num_add acc (num_of_Z z)) (num_of_Z a) l = num_of_Z (a + sum_Z l).
Proof.
  intros Ha Hl. revert a Ha. induction Hl as [|z l Hz Hl IH]; intros a Ha Hs.
  - by rewrite Z.add_0_r.
  - change (sum_Z (z :: l)) with (z + sum_Z l) in *. cbn. pose proof (sum_Z_nonneg l Hl). rewrite num_add_exact by lia.
    rewrite IH by lia. f_equal. lia.
Qed.

(** Integers are equal as doubles only when they are equal. *)
Lemma num_eqb_integers a b : 0 ≤ a < 2 ^ 53 → 0 ≤ b < 2 ^ 53 → num_eqb (num_of_Z a) (num_of_Z b) = bool_decide (a = b).
Proof.
  intros Ha Hb. destruct (decide (a = 0)) as [->|Ha0], (decide (b = 0)) as [->|Hb0].
  - done.
  - rewrite (num_of_Z_pos b), bool_decide_false by lia. done.
  - rewrite (num_of_Z_pos a), bool_decide_false by lia. done.
  - rewrite (num_of_Z_pos a), (num_of_Z_pos b) by lia. unfold num_eqb, SFeqb. cbn [SFcompare].
    destruct (Z.compare_spec (Z.log2 a - 52) (Z.log2 b - 52)) as [El|El|El];
      [|rewrite bool_decide_false by (intros ->; lia); done..].
    match goal with |- context [Pos.compare_cont Eq ?x ?y] => change (Pos.compare_cont Eq x y) with (x ?= y)%positive end.
    rewrite Pos2Z.inj_compare. destruct (mant_bounds a) as [Hma _], (mant_bounds b) as [Hmb _]; [lia..|].
    rewrite !Z2Pos.id by lia. assert (Z.log2 a = Z.log2 b) as E by lia. unfold mant in *. rewrite E in *.
    assert (0 < 2 ^ (52 - Z.log2 b)) by (apply Z.pow_pos_nonneg; [lia|]; pose proof (mant_bounds b); lia).
    destruct (Z.compare_spec (a * 2 ^ (52 - Z.log2 b)) (b * 2 ^ (52 - Z.log2 b))) as [Em|Em|Em].
    + rewrite bool_decide_true; [done|nia].
    + rewrite bool_decide_false; [done|nia].
    + rewrite bool_decide_false; [done|nia].
Qed.
