(* ===== verification/ChannelForm.v ===== *)
(** * The channel form: loading and editing

    [web/src/components/table/channels/modals/EditChannelModal.jsx]: how a
    stored channel becomes the values of the form ([loadChannel]) and the
    handlers that change them.  The values are a JavaScript object ([inputs]);
    the form library gets the same values and is an outside store, so what is
    handed to it is an effect.  [ChannelFormSubmit] models [submit].  Toasts
    keep the key and the arguments of their translation. *)
From Stdlib Require Import Ascii SpecFloat.
From S2P Require Import Prelude JsString JsNumber JsValue Json.

(** ** Small conversions *)

(** A string method called on a value. *)
Definition text_of (v : jsval) : res string :=
  match v with
  | VStr s => Ok s
  | VUndef => Throw "Cannot read properties of undefined"
  | VNull => Throw "Cannot read properties of null"
  | _ => Throw "is not a function"
  end.

(** [(v || '').trim()]. *)
Definition trimmed_or_empty (v : jsval) : res string := s ← text_of (js_or v (VStr "")); Ok (trim s).

(** [!v || v.trim() === '']. *)
Definition blank (v : jsval) : res bool :=
  if truthy v then s ← text_of v; Ok (bool_decide (trim s = "")) else Ok true.

Definition get (o : obj) (k : string) : jsval := default VUndef (obj_get o k).

Definition is_num (z : Z) (v : jsval) : bool :=
  match v with VNum n => num_eqb n (num_of_Z z) | _ => false end.

(** [s.slice(0, s.length - 1)] of a text that ends in an ASCII character. *)
Definition drop_last_char (s : string) : string := of_chars (removelast (chars s)).

(** [Array.from(new Set(l.map(m => (m || '').trim())))]. *)
Definition normalized_models (l : list jsval) : res (list string) :=
  names ← res_map trimmed_or_empty l; Ok (uniq names).

(** [l.map(model => (model || '').trim()).filter(Boolean)]. *)
Definition nonblank_models (l : list jsval) : res (list string) :=
  names ← res_map trimmed_or_empty l; Ok (filter (λ s, s ≠ "") names).

Definition strs (l : list string) : jsval := VArr (VStr <$> l).

(** ** Initial values *)

Definition zero : jsval := VNum (num_of_Z 0).
Definition one : jsval := VNum (num_of_Z 1).

Definition originInputs : obj :=
  [("name", VStr ""); ("type", one); ("key", VStr ""); ("openai_organization", VStr "");
   ("max_input_tokens", zero); ("base_url", VStr ""); ("other", VStr ""); ("model_mapping", VStr "");
   ("param_override", VStr ""); ("status_code_mapping", VStr ""); ("models", VArr []);
   ("auto_ban", one); ("auto_verify", zero); ("verify_model", VStr ""); ("test_model", VStr "");
   ("groups", VArr [VStr "default"]); ("priority", zero); ("weight", zero); ("tag", VStr "");
   ("multi_key_mode", VStr "random"); ("force_format", VBool false); ("thinking_to_content", VBool false);
   ("proxy", VStr ""); ("pass_through_body_enabled", VBool false); ("system_prompt", VStr "");
   ("system_prompt_override", VBool false); ("settings", VStr ""); ("vertex_key_type", VStr "json");
   ("aws_key_type", VStr "ak_sk"); ("is_enterprise_account", VBool false);
   ("allow_service_tier", VBool false); ("disable_store", VBool false);
   ("allow_safety_identifier", VBool false); ("allow_include_obfuscation", VBool false);
   ("allow_inference_geo", VBool false); ("claude_beta_query", VBool false);
   ("upstream_model_update_check_enabled", VBool false);
   ("upstream_model_update_auto_sync_enabled", VBool false);
   ("upstream_model_update_last_check_time", zero);
   ("upstream_model_update_last_detected_models", VArr []);
   ("upstream_model_update_ignored_models", VStr "")].

(** ** Loading *)

(** [text === '' ? [] : text.split(',')]. *)
Definition comma_list (v : jsval) : res (list string) :=
  match v with VStr "" => Ok [] | _ => s ← text_of v; Ok (split_on "," s) end.

Definition assign (kvs : obj) (o : obj) : obj := foldl (λ o kv, obj_set kv.1 kv.2 o) o kvs.

(** The fields of [setting], read from its parsed text. *)
Definition setting_fields (parsed : jsval) : obj :=
  let f k d := (k, js_or (prop_opt parsed k) d) in
  [f "force_format" (VBool false); f "thinking_to_content" (VBool false); f "proxy" (VStr "");
   f "pass_through_body_enabled" (VBool false); f "system_prompt" (VStr "");
   f "system_prompt_override" (VBool false)].

(** [JSON.parse(text)]; a value that is no text is converted first. *)
Definition parse_text (v : jsval) : option jsval :=
  match to_str v with Ok s => json_parse s | Throw _ => None end.

(** The [setting] block: a parse error, a [null] and a missing text all give
    the defaults. *)
Definition load_setting (data : obj) : obj :=
  let parsed := if truthy (get data "setting")
                then match parse_text (get data "setting") with Some v => v | None => VUndef end
                else VUndef in
  assign (setting_fields parsed) data.

(** [Array.isArray(v) ? v.join(',') : '']. *)
Definition joined_models (v : jsval) : res jsval :=
  match v with VArr _ => s ← to_str v; Ok (VStr s) | _ => Ok (VStr "") end.

(** [Number(v) || 0]. *)
Definition number_or_zero (v : jsval) : res jsval := n ← to_num v; Ok (js_or (VNum n) zero).

Definition upstream_fields (parsed : jsval) : res obj :=
  let p k := prop_opt parsed k in
  time ← number_or_zero (p "upstream_model_update_last_check_time");
  ignored ← joined_models (p "upstream_model_update_ignored_models");
  Ok [("upstream_model_update_check_enabled", VBool (is_true (p "upstream_model_update_check_enabled")));
      ("upstream_model_update_auto_sync_enabled",
       VBool (is_true (p "upstream_model_update_auto_sync_enabled")));
      ("upstream_model_update_last_check_time", time);
      ("upstream_model_update_last_detected_models",
       match p "upstream_model_update_last_detected_models" with VArr l => VArr l | _ => VArr [] end);
      ("upstream_model_update_ignored_models", ignored)].

(** The fields of [settings], read from its parsed text. *)
Definition settings_fields (parsed : jsval) : res obj :=
  let f k d := (k, js_or (prop_opt parsed k) d) in
  let flag k := f k (VBool false) in
  upstream ← upstream_fields parsed;
  Ok ([f "azure_responses_version" (VStr ""); f "vertex_key_type" (VStr "json");
       f "aws_key_type" (VStr "ak_sk");
       ("is_enterprise_account", VBool (is_true (prop_opt parsed "openrouter_enterprise")));
       flag "allow_service_tier"; flag "disable_store"; flag "allow_safety_identifier";
       flag "allow_include_obfuscation"; flag "allow_inference_geo"; flag "claude_beta_query"] ++ upstream).

Definition settings_defaults : obj :=
  [("vertex_key_type", VStr "json"); ("aws_key_type", VStr "ak_sk"); ("is_enterprise_account", VBool false);
   ("allow_service_tier", VBool false); ("disable_store", VBool false);
   ("allow_safety_identifier", VBool false); ("allow_include_obfuscation", VBool false);
   ("allow_inference_geo", VBool false); ("claude_beta_query", VBool false);
   ("upstream_model_update_check_enabled", VBool false);
   ("upstream_model_update_auto_sync_enabled", VBool false);
   ("upstream_model_update_last_check_time", zero);
   ("upstream_model_update_last_detected_models", VArr []);
   ("upstream_model_update_ignored_models", VStr "")].

(** What the [catch] assigns: fields read before the error are overwritten
    (the order of the keys apart). *)
Definition settings_failed : obj :=
  ("azure_responses_version", VStr "") :: ("region", VStr "") :: settings_defaults.

(** The [settings] block; reading a property of [null] throws inside it. *)
Definition load_settings (data : obj) : obj :=
  if truthy (get data "settings") then
    match parse_text (get data "settings") with
    | None | Some VNull => assign settings_failed data
    | Some parsed =>
        match settings_fields parsed with
        | Ok fields => assign fields data
        | Throw _ => assign settings_failed data
        end
    end
  else assign settings_defaults data.

Definition ark_url : string := "https://ark.cn-beijing.volces.com".

(** A channel of type 45 without address gets the default one. *)
Definition load_base_url (data : obj) : obj :=
  let u := get data "base_url" in
  let missing := negb (truthy u) || match u with VStr s => bool_decide (trim s = "") | _ => false end in
  set_if (is_num 45 (get data "type") && missing) "base_url" (VStr ark_url) data.

(** [JSON.stringify(JSON.parse(v), null, 2)]. *)
Definition reformat (v : jsval) : res jsval :=
  s ← to_str v;
  match json_parse s with
  | Some parsed => Ok (VStr (stringify2 parsed))
  | None => Throw "Unexpected token in JSON"
  end.

(** The multi-key part: is it a multi-key channel, and its mode. *)
Definition multi_key (data : obj) : bool * jsval :=
  let info := js_or (get data "channel_info") (VObj []) in
  (is_true (prop_opt info "is_multi_key"), js_or (prop_opt info "multi_key_mode") (VStr "random")).

(** [data] as the form gets it. *)
Definition load_data (data : obj) : res obj :=
  models ← comma_list (get data "models");
  let data := obj_set "models" (strs models) data in
  groups ← comma_list (get data "group");
  let data := obj_set "groups" (strs groups) data in
  data ← (if is_str "" (get data "model_mapping") then Ok data
          else m ← reformat (get data "model_mapping"); Ok (obj_set "model_mapping" m data));
  let data := set_if (multi_key data).1 "multi_key_mode" (multi_key data).2 data in
  Ok (load_base_url (load_settings (load_setting data))).

(** The metadata of a channel that is managed by a deployment. *)
Definition load_ionet (data : obj) : option jsval :=
  if truthy (get data "other_info") then
    match parse_text (get data "other_info") with
    | Some m => if truthy m && typeof_object m && is_str "ionet" (prop_opt m "source") then Some m else None
    | None => None
    end
  else None.

(** ** State *)

Inductive effect :=
| ShowInfo (key : string) (args : obj)
| ShowError (key : string) (args : obj)
| ShowErrorValue (message : jsval)
| ShowSuccess (key : string) (args : obj)
| FormSet (name : string) (value : jsval)     (** [formApi.setValue] *)
| FormSetAll (values : obj)                   (** [formApi.setValues] *)
| ConfirmV1 (name : string) (value : jsval)   (** the warning about a [/v1] suffix *)
| Copy (text : string)
| Get (url : string).

(** A file of the key upload: its name and, if it is there, its text. *)
Record file := File { f_name : string; f_text : option (res string) }.

Record modal := Modal {
  channelId : option string;     (** [None] when a channel is created *)
  inputs : obj; channelSettings : obj;
  batch : bool; multiToSingle : bool; multiKeyMode : jsval; isMultiKeyChannel : bool; keyMode : string;
  autoBan : bool; isEnterpriseAccount : jsval; useManualInput : bool;
  vertexKeys : list jsval; vertexFileList : list file;
  isIonetChannel : bool; ionetMetadata : option jsval;
  initialModels : list string; initialModelMapping : jsval; initialStatusCodeMapping : jsval;
  basicModels : jsval; customModel : string;
  loading : bool; effects : list effect }.

Definition isEdit (m : modal) : bool := bool_decide (channelId m ≠ None).

Definition setInputs (f : obj → obj) (m : modal) : modal :=
  let '(Modal a b c d e g h i j k l n o p q r s t u v w x) := m in
  Modal a (f b) c d e g h i j k l n o p q r s t u v w x.
Definition setChannelSettings (y : obj) (m : modal) : modal :=
  let '(Modal a b c d e g h i j k l n o p q r s t u v w x) := m in
  Modal a b y d e g h i j k l n o p q r s t u v w x.
(** [setBatch], [setMultiToSingle] and [setMultiKeyMode]. *)
Definition setBatchMode (y : bool) (z : bool) (md : jsval) (m : modal) : modal :=
  let '(Modal a b c d e g h i j k l n o p q r s t u v w x) := m in
  Modal a b c y z md h i j k l n o p q r s t u v w x.
Definition setIsMultiKeyChannel (y : bool) (m : modal) : modal :=
  let '(Modal a b c d e g h i j k l n o p q r s t u v w x) := m in
  Modal a b c d e g y i j k l n o p q r s t u v w x.
Definition setKeyMode (y : string) (m : modal) : modal :=
  let '(Modal a b c d e g h i j k l n o p q r s t u v w x) := m in
  Modal a b c d e g h y j k l n o p q r s t u v w x.
Definition setAutoBan (y : bool) (m : modal) : modal :=
  let '(Modal a b c d e g h i j k l n o p q r s t u v w x) := m in
  Modal a b c d e g h i y k l n o p q r s t u v w x.
Definition setIsEnterpriseAccount (y : jsval) (m : modal) : modal :=
  let '(Modal a b c d e g h i j k l n o p q r s t u v w x) := m in
  Modal a b c d e g h i j y l n o p q r s t u v w x.
Definition setUseManualInput (y : bool) (m : modal) : modal :=
  let '(Modal a b c d e g h i j k l n o p q r s t u v w x) := m in
  Modal a b c d e g h i j k y n o p q r s t u v w x.
Definition setVertex (y : list jsval) (z : list file) (m : modal) : modal :=
  let '(Modal a b c d e g h i j k l n o p q r s t u v w x) := m in
  Modal a b c d e g h i j k l y z p q r s t u v w x.
Definition setIonet (y : option jsval) (m : modal) : modal :=
  let '(Modal a b c d e g h i j k l n o p q r s t u v w x) := m in
  Modal a b c d e g h i j k l n o (bool_decide (y ≠ None)) y r s t u v w x.
(** The three refs with the loaded configuration. *)
Definition setInitial (y : list string) (z z' : jsval) (m : modal) : modal :=
  let '(Modal a b c d e g h i j k l n o p q r s t u v w x) := m in
  Modal a b c d e g h i j k l n o p q y z z' u v w x.
Definition setBasicModels (y : jsval) (m : modal) : modal :=
  let '(Modal a b c d e g h i j k l n o p q r s t u v w x) := m in
  Modal a b c d e g h i j k l n o p q r s t y v w x.
Definition setCustomModel (y : string) (m : modal) : modal :=
  let '(Modal a b c d e g h i j k l n o p q r s t u v w x) := m in
  Modal a b c d e g h i j k l n o p q r s t u y w x.
Definition setLoading (y : bool) (m : modal) : modal :=
  let '(Modal a b c d e g h i j k l n o p q r s t u v w x) := m in
  Modal a b c d e g h i j k l n o p q r s t u v y x.
Definition emit (y : effect) (m : modal) : modal :=
  let '(Modal a b c d e g h i j k l n o p q r s t u v w x) := m in
  Modal a b c d e g h i j k l n o p q r s t u v w (x ++ [y]).

(** [setInputs(inputs => ({...inputs, [name]: value}))]. *)
Definition setInput (name : string) (value : jsval) : modal → modal := setInputs (obj_define name value).

Section form.
(** The cached models of a channel type ([helpers/api.js]). *)
Context (getChannelModels : jsval → jsval).

Inductive load_reply := Rejected | Refused (message : jsval) | Loaded (data : obj).

(** The part of [loadChannel] after a successful answer. *)
Definition show_channel (loaded : obj) (data : obj) (m : modal) : res modal :=
  let '(multi, mode) := multi_key loaded in
  names ← nonblank_models (match get data "models" with VArr l => l | _ => [] end);
  let m := setIsMultiKeyChannel multi m in
  let m := setBatchMode multi multi (if multi then mode else multiKeyMode m) m in
  let m := emit (FormSetAll data) (setInputs (λ _, data) m) in
  let m := setAutoBan (negb (is_num 0 (get data "auto_ban"))) m in
  let m := setIsEnterpriseAccount (js_or (get data "is_enterprise_account") (VBool false)) m in
  let m := setBasicModels (getChannelModels (get data "type")) m in
  let kept k := (k, get data k) in
  let m := setChannelSettings
    [kept "force_format"; kept "thinking_to_content"; kept "proxy"; kept "pass_through_body_enabled";
     kept "system_prompt";
     ("system_prompt_override", js_or (get data "system_prompt_override") (VBool false))] m in
  let m := setInitial names (js_or (get data "model_mapping") (VStr ""))
             (js_or (get data "status_code_mapping") (VStr "")) m in
  Ok (setIonet (load_ionet data) m).

(** [loadChannel]; an uncaught error leaves the form loading. *)
Definition loadChannel (r : load_reply) (m : modal) : res modal :=
  let m := emit (Get ("/api/channel/" +:+ default "" (channelId m))) (setLoading true m) in
  match r with
  | Rejected => Throw "Request failed"
  | Refused message => Ok (setLoading false (emit (ShowErrorValue message) m))
  | Loaded loaded =>
      data ← load_data loaded;
      m ← show_channel loaded data m;
      Ok (setLoading false m)
  end.

(** ** Changing values *)

(** The models of a type, and whether the address is set. *)
Definition models_of_type (value : jsval) : jsval :=
  if is_num 2 value then
    strs ["mj_imagine"; "mj_variation"; "mj_reroll"; "mj_blend"; "mj_upscale"; "mj_describe"; "mj_uploads"]
  else if is_num 5 value then
    strs ["swap_face"; "mj_imagine"; "mj_video"; "mj_edits"; "mj_variation"; "mj_reroll"; "mj_blend";
          "mj_upscale"; "mj_describe"; "mj_zoom"; "mj_shorten"; "mj_modal"; "mj_inpaint"; "mj_custom_zoom";
          "mj_high_variation"; "mj_low_variation"; "mj_pan"; "mj_uploads"]
  else if is_num 36 value then strs ["suno_music"; "suno_lyrics"]
  else getChannelModels value.

(** [inputs.models.length === 0]. *)
Definition no_models (o : obj) : res bool :=
  n ← prop (get o "models") "length"; Ok (is_num 0 n).

(** What follows a change of the type. *)
Definition change_type (value : jsval) (none : bool) (m : modal) : modal :=
  let localModels := models_of_type value in
  let m := if is_num 45 value then setInput "base_url" (VStr ark_url) m else m in
  let m := if none then setInput "models" localModels m else m in
  let m := setUseManualInput false (setBasicModels localModels m) in
  if is_num 57 value then
    setInput "vertex_files" (VArr [])
      (emit (FormSet "vertex_files" (VArr []))
        (setVertex [] [] (setBatchMode false false (VStr "random") m)))
  else m.

Definition locked (m : modal) (name : string) : bool :=
  isIonetChannel m && isEdit m && bool_decide (name ∈ ["type"; "key"; "base_url"]).

(** The value of [models] is trimmed and without duplicates. *)
Definition clean_models (name : string) (value : jsval) : res jsval :=
  match value with
  | VArr l => if bool_decide (name = "models") then names ← normalized_models l; Ok (strs names) else Ok value
  | _ => Ok value
  end.

Definition warns_v1 (name : string) (value : jsval) : res bool :=
  if bool_decide (name = "base_url") then u ← text_of value; Ok (ends_with "/v1" u) else Ok false.

Definition handleInputChange (name : string) (value : jsval) (m : modal) : res modal :=
  if locked m name then Ok m
  else
    let m := emit (FormSet name value) m in
    value ← clean_models name value;
    v1 ← warns_v1 name value;
    if (v1 : bool) then Ok (emit (ConfirmV1 name value) m)
    else
      let m' := setInput name value m in
      if bool_decide (name = "type") then none ← no_models (inputs m); Ok (change_type value none m')
      else Ok m'.

(** The warning is confirmed. *)
Definition confirmV1 (name : string) (value : jsval) (m : modal) : modal := setInput name value m.

Definition handleChannelSettingsChange (key : string) (value : jsval) (m : modal) : res modal :=
  let newSettings := obj_define key value (channelSettings m) in
  let m := setInput key value (emit (FormSet key value) (setChannelSettings newSettings m)) in
  handleInputChange "setting" (VStr (stringify (VObj newSettings))) m.

(** [settings[key] = value] on the parsed settings. *)
Definition set_setting (key : string) (value : jsval) (settings : jsval) : res jsval :=
  match settings with
  | VObj o => Ok (VObj (obj_set key value o))
  | VArr l => Ok (VArr l)      (** the text of an array has no such property *)
  | _ => Throw "Cannot create property"
  end.

(** [if (v) try { settings = JSON.parse(v) } catch {}]. *)
Definition parsed_settings (v : jsval) : jsval :=
  if truthy v then default (VObj []) (parse_text v) else VObj [].

Definition handleChannelOtherSettingsChange (key : string) (value : jsval) (m : modal) : res modal :=
  let old := get (inputs m) "settings" in
  let m := setInput key value (emit (FormSet key value)
             (setChannelSettings (obj_define key value (channelSettings m)) m)) in
  settings ← set_setting key value (parsed_settings old);
  handleInputChange "settings" (VStr (stringify settings)) m.

(** [(inputs?.[name] ?? '').trim()], reprinted with indentation. *)
Definition formatJsonField (fieldName : string) (m : modal) : res modal :=
  raw ← text_of (js_nullish (get (inputs m) fieldName) (VStr ""));
  let rawValue := trim raw in
  if bool_decide (rawValue = "") then Ok m
  else match json_parse rawValue with
       | Some parsed => handleInputChange fieldName (VStr (stringify2 parsed)) m
       | None => Ok (emit (ShowError "JSON格式错误" []) m)
       end.

(** ** The parameter override field *)

(** The trimmed text of [param_override]. *)
Definition override_text (m : modal) : string :=
  match get (inputs m) "param_override" with VStr s => trim s | _ => "" end.

(** The label of the field and its preview. *)
Inductive override_meta := Unchanged | Malformed (raw : string)
| NewFormat (rules : nat) (preview : string) | OldFormat (keys : nat) (preview : string)
| CustomJson (preview : string).

Definition paramOverrideMeta (m : modal) : override_meta :=
  let raw := override_text m in
  if bool_decide (raw = "") then Unchanged
  else match json_parse raw with
       | None => Malformed raw
       | Some parsed =>
           let pretty := stringify2 parsed in
           match parsed with
           | VObj o => match obj_get o "operations" with
                       | Some (VArr l) => NewFormat (length l) pretty
                       | _ => OldFormat (length o) pretty
                       end
           | _ => CustomJson pretty
           end
       end.

Definition copyParamOverrideJson (m : modal) : modal :=
  let raw := override_text m in
  if bool_decide (raw = "") then emit (ShowInfo "暂无可复制 JSON" []) m
  else emit (Copy (match json_parse raw with Some v => stringify2 v | None => raw end)) m.

(** [None] when the text is no JSON, which is thrown. *)
Definition parseParamOverrideInput (m : modal) : option jsval :=
  let raw := override_text m in if bool_decide (raw = "") then Some VNull else json_parse raw.

Definition LEGACY_TEMPLATE : obj := [("temperature", zero)].
Definition OPERATIONS_TEMPLATE : list jsval :=
  [VObj [("path", VStr "temperature"); ("mode", VStr "set"); ("value", VNum (num_of_dec false 7 (-1)));
         ("conditions", VArr [VObj [("path", VStr "model"); ("mode", VStr "prefix"); ("value", VStr "openai/")]]);
         ("logic", VStr "AND")]].

(** The object a template gives: it replaces the text ([fill]) or is added to
    the current one. *)
Definition template_result (legacy fill : bool) (current : jsval) : obj :=
  let operations := match current with
                    | VObj o => match obj_get o "operations" with Some (VArr l) => Some l | _ => None end
                    | _ => None
                    end in
  if legacy then
    if fill then LEGACY_TEMPLATE
    else obj_spread LEGACY_TEMPLATE
           (match current, operations with VObj o, None => o | _, _ => [] end)
  else [("operations", VArr (if fill then OPERATIONS_TEMPLATE
                             else default [] operations ++ OPERATIONS_TEMPLATE))].

Definition applyParamOverrideTemplate (legacy fill : bool) (m : modal) : res modal :=
  match parseParamOverrideInput m with
  | None => Ok (emit (ShowError "当前参数覆盖不是合法的 JSON" []) m)
  | Some current =>
      handleInputChange "param_override" (VStr (stringify2 (VObj (template_result legacy fill current)))) m
  end.

Definition clearParamOverride : modal → res modal := handleInputChange "param_override" (VStr "").

(** ** Keys *)

(** The trimmed, non-empty lines, each once, in order. *)
Definition unique_lines (text : string) : list string :=
  uniq (filter (λ s, s ≠ "") (trim <$> split_on NL text)).

(** [formKey] is what the form holds for [key]. *)
Definition deduplicateKeys (formKey : jsval) (m : modal) : res modal :=
  currentKey ← text_of (js_or (js_or formKey (get (inputs m) "key")) (VStr ""));
  if bool_decide (trim currentKey = "") then Ok (emit (ShowInfo "请先输入密钥" []) m)
  else
    let before := length (split_on NL currentKey) in
    let keys := unique_lines currentKey in
    let text := VStr (join (String NL "") keys) in
    m ← handleInputChange "key" text (emit (FormSet "key" text) m);
    Ok (if decide (before = length keys) then emit (ShowInfo "未发现重复密钥" []) m
        else emit (ShowSuccess "去重完成：去重前 {{before}} 个密钥，去重后 {{after}} 个密钥"
               [("before", VNum (num_of_Z (Z.of_nat before)));
                ("after", VNum (num_of_Z (Z.of_nat (length keys))))]) m).

(** Read the uploaded files: the parsed keys with their files, and the names
    of the files that are no JSON, each once. *)
Fixpoint read_files (files : list file) : list (jsval * file) * list string :=
  match files with
  | [] => ([], [])
  | f :: files =>
      let '(good, bad) := read_files files in
      match f_text f with
      | None => (good, bad)
      | Some text =>
          match text with
          | Ok txt => match json_parse txt with
                      | Some key => ((key, f) :: good, bad)
                      | None => (good, f_name f :: filter (λ n, n ≠ f_name f) bad)
                      end
          | Throw _ => (good, f_name f :: filter (λ n, n ≠ f_name f) bad)
          end
      end
  end.

(** Without batch only the last valid file is kept.  In the inputs a file is
    represented by its name; [submit] drops the field. *)
Definition kept_files (isBatch : bool) (good : list (jsval * file)) : list (jsval * file) :=
  if isBatch then good else match last good with Some x => [x] | None => [] end.

Definition handleVertexUploadChange (files : list file) (m : modal) : modal :=
  let '(good, bad) := read_files files in
  let kept := kept_files (batch m) good in
  let names := strs (f_name <$> kept.*2) in
  let m := setInput "vertex_files" names (emit (FormSet "vertex_files" names) (setVertex kept.*1 kept.*2 m)) in
  match bad with
  | [] => m
  | _ => emit (ShowError "以下文件解析失败，已忽略：{{list}}" [("list", VStr (join ", " bad))]) m
  end.

(** The batch check box of a new channel, without the question asked when
    several files would be dropped. *)
Definition toggleBatch (checked : bool) (m : modal) : res modal :=
  if checked then
    let m := setUseManualInput false (setBatchMode true (multiToSingle m) (multiKeyMode m) m) in
    if is_num 41 (get (inputs m) "type")
    then handleInputChange "key" (VStr "") (emit (FormSet "key" (VStr "")) m)
    else Ok m
  else Ok (setBatchMode false false (VStr "random") m).

(** The question: keep the first file only. *)
Definition confirmSingleFile (m : modal) : modal :=
  let first := VArr (VStr ∘ f_name <$> take 1 (vertexFileList m)) in
  let m := setVertex (filter (λ v, truthy v = true) (take 1 (vertexKeys m))) (take 1 (vertexFileList m)) m in
  setBatchMode false false (VStr "random")
    (setInput "vertex_files" first (emit (FormSet "vertex_files" first) m)).

(** ** Models *)

(** The models a mapping redirects to: [redirectModelList]. *)
Definition redirectModelList (m : modal) : list string :=
  match get (inputs m) "model_mapping" with
  | VStr mapping =>
      let trimmed := trim mapping in
      if bool_decide (trimmed = "") then []
      else match json_parse trimmed with
           | Some (VObj o) =>
               uniq (filter (λ s, s ≠ "") (omap (λ v, match v with VStr s => Some (trim s) | _ => None end) o.*2))
           | _ => []
           end
  | _ => []
  end.

(** Add the names that are not there yet. *)
Definition add_names (names : list string) (models : list jsval) : list jsval * list string :=
  foldl (λ '(models, added) model,
      if bool_decide (model ≠ "") && negb (existsb (λ v, is_str model v) models)
      then (models ++ [VStr model], added ++ [model]) else (models, added))
    (models, []) names.

Definition addCustomModels (m : modal) : res modal :=
  if bool_decide (trim (customModel m) = "") then Ok m
  else
    match get (inputs m) "models" with
    | VArr models =>
        let '(models, added) := add_names (trim <$> split_on "," (customModel m)) models in
        m ← handleInputChange "models" (VArr models) (setCustomModel "" m);
        Ok (match added with
            | [] => emit (ShowInfo "未发现新增模型" []) m
            | _ => emit (ShowSuccess "已新增 {{count}} 个模型：{{list}}"
                     [("count", VNum (num_of_Z (Z.of_nat (length added)))); ("list", VStr (join ", " added))]) m
            end)
    | _ => Throw "inputs.models is not iterable"
    end.

(** ** Closing *)

(** [resetModalState], without the form's own reset and the key display. *)
Definition resetModalState (m : modal) : modal :=
  let m := setChannelSettings
    [("force_format", VBool false); ("thinking_to_content", VBool false); ("proxy", VStr "");
     ("pass_through_body_enabled", VBool false); ("system_prompt", VStr "");
     ("system_prompt_override", VBool false)] m in
  let m := emit (FormSet "key_mode" VUndef) (setIsEnterpriseAccount (VBool false) (setKeyMode "append" m)) in
  setInputs (λ _, originInputs) m.
End form.
