(* ===== verification/ChannelFormSubmit.v ===== *)
(** * The channel form: submitting

    [submit] of [web/src/components/table/channels/modals/EditChannelModal.jsx]:
    the checks, the two questions (models of the mapping that are not in the
    list, risky status code redirects), the settings and the request.  Each
    check either goes on, returns after a toast, or throws; the answers of
    the user and of the service are arguments. *)
From Stdlib Require Import Ascii SpecFloat.
From S2P Require Import Prelude JsString JsNumber JsValue Json StatusCodes ChannelForm.

(** ** Checks *)

(** A step of [submit]: it goes on, returns (perhaps after a toast), or
    throws an error nobody catches. *)
Inductive chk (A : Type) := Go (a : A) | Return (toast : option effect) | Crash (message : string).
Arguments Go {A} a.
Arguments Return {A} toast.
Arguments Crash {A} message.

#[export] Instance chk_ret : MRet chk := λ A a, Go a.
#[export] Instance chk_bind : MBind chk := λ A B f m,
  match m with Go a => f a | Return t => Return t | Crash e => Crash e end.

Definition lift {A} (r : res A) : chk A := match r with Ok a => Go a | Throw e => Crash e end.
Definition refuse {A} (key : string) : chk A := Return (Some (ShowInfo key [])).
Definition refuse_error {A} (key : string) (args : obj) : chk A := Return (Some (ShowError key args)).
Definition require (b : bool) (key : string) : chk unit := if b then Go () else refuse key.

Definition has_type (z : Z) (o : obj) : bool := is_num z (get o "type").

(** The key of a Codex channel: a JSON object with both credentials. *)
Definition codex_key (rawKey : string) : chk jsval :=
  match json_parse rawKey with
  | None => refuse "密钥必须是合法的 JSON 格式！"
  | Some (VObj o) =>
      match to_str (js_or (get o "access_token") (VStr "")), to_str (js_or (get o "account_id") (VStr "")) with
      | Ok token, Ok account =>
          _ ← require (negb (bool_decide (trim token = ""))) "密钥 JSON 必须包含 access_token";
          _ ← require (negb (bool_decide (trim account = ""))) "密钥 JSON 必须包含 account_id";
          Go (VStr (stringify (VObj o)))
      | _, _ => refuse "密钥必须是合法的 JSON 格式！"
      end
  | Some _ => refuse "密钥必须是 JSON 对象"
  end.

(** Type 57. *)
Definition check_codex (m : modal) (o : obj) : chk obj :=
  if has_type 57 o then
    _ ← require (negb (batch m)) "Codex 渠道不支持批量创建";
    rawKey ← lift (trimmed_or_empty (get o "key"));
    if bool_decide (rawKey = "") then
      _ ← require (isEdit m) "请输入密钥！"; Go o
    else k ← codex_key rawKey; Go (obj_set "key" k o)
  else Go o.

(** The keys of the uploaded files, read again when they are not there. *)
Definition uploaded_keys (m : modal) : chk (list jsval) :=
  match vertexKeys m with
  | [] =>
      let read f := match f_text f with
                    | None => Ok VNull
                    | Some text => txt ← text;
                                   match json_parse txt with
                                   | Some v => Ok v
                                   | None => Throw "Unexpected token in JSON"
                                   end
                    end in
      match res_map read (vertexFileList m) with
      | Ok keys => Go (filter (λ v, truthy v = true) keys)
      | Throw e => refuse_error "解析密钥文件失败: {{msg}}" [("msg", VStr e)]
      end
  | keys => Go keys
  end.

(** Type 41: a text key, a JSON text, or uploaded files. *)
Definition check_vertex (m : modal) (o : obj) : chk obj :=
  if has_type 41 o then
    if is_str "api_key" (js_or (get o "vertex_key_type") (VStr "json")) then
      if isEdit m then Go o
      else b ← lift (blank (get o "key")); _ ← require (negb b) "请输入密钥！"; Go o
    else if useManualInput m then
      b ← lift (blank (get o "key"));
      if (b : bool) then _ ← require (isEdit m) "请输入密钥！"; Go o
      else match parse_text (get o "key") with
           | Some v => Go (obj_set "key" (VStr (stringify v)) o)
           | None => refuse_error "密钥格式无效，请输入有效的 JSON 格式密钥" []
           end
    else
      keys ← uploaded_keys m;
      match keys with
      | [] => if isEdit m then Go (obj_delete "key" o) else refuse "请上传密钥文件！"
      | k :: _ => Go (obj_set "key" (VStr (stringify (if batch m then VArr keys else k))) o)
      end
  else Go o.

(** A blank key of a stored channel is not sent. *)
Definition check_key (m : modal) (o : obj) : chk obj :=
  if isEdit m then
    b ← lift (blank (get o "key"));
    Go (obj_delete "vertex_files" (if (b : bool) then obj_delete "key" o else o))
  else Go (obj_delete "vertex_files" o).

(** Name, key, models and address. *)
Definition check_fields (m : modal) (o : obj) : chk (list jsval) :=
  _ ← require (isEdit m || (truthy (get o "name") && truthy (get o "key"))) "请填写渠道名称和渠道密钥！";
  match get o "models" with
  | VArr (x :: l) =>
      _ ← (if has_type 45 o then b ← lift (blank (get o "base_url")); require (negb b) "请输入API地址！"
           else Go ());
      Go (x :: l)
  | _ => refuse "请至少选择一个模型！"
  end.

(** The parsed mapping, if there is one. *)
Definition check_mapping (o : obj) : chk jsval :=
  match get o "model_mapping" with
  | VStr s =>
      if bool_decide (trim s = "") then Go VNull
      else match json_parse s with
           | Some v => Go v
           | None => refuse "模型映射必须是合法的 JSON 格式！"
           end
  | _ => Go VNull
  end.

(** The keys of the mapping that are no models of the list. *)
Definition missing_models (mapping : jsval) (models : list string) : list string :=
  match mapping with
  | VObj o => filter (λ k, k ≠ "" ∧ k ∉ models) (trim <$> obj_keys o)
  | _ => []
  end.

(** Models or mapping differ from those that were loaded. *)
Definition hasModelConfigChanged (m : modal) (models : list string) (mapping : jsval) : res bool :=
  if negb (isEdit m) then Ok true
  else if negb (bool_decide (models = initialModels m)) then Ok true
  else
    now ← trimmed_or_empty mapping;
    before ← trimmed_or_empty (initialModelMapping m);
    Ok (negb (bool_decide (now = before))).

Inductive choice := Cancel | SubmitAnyway | AddModels.

(** ** The settings *)

(** [channelExtraSettings]. *)
Definition channelExtraSettings (o : obj) : obj :=
  let f k d := (k, js_or (get o k) d) in
  [f "force_format" (VBool false); f "thinking_to_content" (VBool false); f "proxy" (VStr "");
   f "pass_through_body_enabled" (VBool false); f "system_prompt" (VStr "");
   f "system_prompt_override" (VBool false)].

Definition flag (o : obj) (k : string) : jsval := VBool (is_true (get o k)).

(** The keys that depend on the type of the channel. *)
Definition type_settings (o s : obj) : obj :=
  let s := set_if (has_type 20 o) "openrouter_enterprise" (flag o "is_enterprise_account") s in
  let s := set_if (has_type 33 o) "aws_key_type" (js_or (get o "aws_key_type") (VStr "ak_sk")) s in
  let s := if has_type 41 o then obj_set "vertex_key_type" (js_or (get o "vertex_key_type") (VStr "json")) s
           else obj_delete "vertex_key_type" s in
  let s := set_if (has_type 1 o || has_type 14 o) "allow_service_tier" (flag o "allow_service_tier") s in
  let s := set_if (has_type 1 o) "disable_store" (flag o "disable_store") s in
  let s := set_if (has_type 1 o) "allow_safety_identifier" (flag o "allow_safety_identifier") s in
  let s := set_if (has_type 1 o) "allow_include_obfuscation" (flag o "allow_include_obfuscation") s in
  let s := set_if (has_type 14 o) "allow_inference_geo" (flag o "allow_inference_geo") s in
  set_if (has_type 14 o) "claude_beta_query" (flag o "claude_beta_query") s.

(** The ignored models of the text, trimmed and without duplicates. *)
Definition ignored_models (v : jsval) : res (list string) :=
  s ← to_str (js_or v (VStr ""));
  Ok (uniq (filter (λ s, s ≠ "") (trim <$> split_on "," s))).

(** The keys of the upstream model updates. *)
Definition upstream_settings (o : obj) (ignored : list string) (s : obj) : obj :=
  let check := is_true (get o "upstream_model_update_check_enabled") in
  let s := obj_set "upstream_model_update_check_enabled" (VBool check) s in
  let s := obj_set "upstream_model_update_auto_sync_enabled"
             (VBool (check && is_true (get o "upstream_model_update_auto_sync_enabled"))) s in
  let s := obj_set "upstream_model_update_ignored_models" (strs ignored) s in
  let s := set_if (negb (is_array (get s "upstream_model_update_last_detected_models")) || negb check)
             "upstream_model_update_last_detected_models" (VArr []) s in
  set_if (match get s "upstream_model_update_last_check_time" with VNum _ => false | _ => true end)
    "upstream_model_update_last_check_time" zero s.

(** The value whose text is sent as [settings]; assigning a property of a
    primitive value or of [null] throws. *)
Definition build_settings (o : obj) : res jsval :=
  ignored ← ignored_models (get o "upstream_model_update_ignored_models");
  match parsed_settings (get o "settings") with
  | VObj s => Ok (VObj (upstream_settings o ignored (type_settings o s)))
  | VArr l => Ok (VArr l)
  | _ => Throw "Cannot create property"
  end.

(** The fields of the form that are no fields of a channel. *)
Definition internal_fields : list string :=
  ["force_format"; "thinking_to_content"; "proxy"; "pass_through_body_enabled"; "system_prompt";
   "system_prompt_override"; "is_enterprise_account"; "vertex_key_type"; "aws_key_type";
   "allow_service_tier"; "disable_store"; "allow_safety_identifier"; "allow_include_obfuscation";
   "allow_inference_geo"; "claude_beta_query"; "upstream_model_update_check_enabled";
   "upstream_model_update_auto_sync_enabled"; "upstream_model_update_last_check_time";
   "upstream_model_update_last_detected_models"; "upstream_model_update_ignored_models"].

Definition delete_all (ks : list string) (o : obj) : obj := foldl (λ o k, obj_delete k o) o ks.

Definition bit (v : jsval) : jsval := if truthy v then one else zero.

(** A slash at the end of the address is dropped. *)
Definition strip_slash (v : jsval) : res jsval :=
  if truthy v then
    s ← text_of v; Ok (if ends_with "/" s then VStr (drop_last_char s) else v)
  else Ok v.

(** [(groups || []).join(',')]. *)
Definition joined_groups (v : jsval) : res jsval :=
  match js_or v (VArr []) with
  | VArr l => s ← to_str (VArr l); Ok (VStr s)
  | _ => Throw "join is not a function"
  end.

(** Address and version before the settings are written. *)
Definition prepare_fields (base : jsval) (o : obj) : obj :=
  let o := set_if (truthy (get o "base_url")) "base_url" base o in
  set_if (has_type 18 o && is_str "" (get o "other")) "other" (VStr "v2.1") o.

(** The settings written, the internal fields deleted, the lists joined. *)
Definition channel_fields (o : obj) (settings : jsval) (models : list string) (group : jsval) : obj :=
  assign [("auto_ban", bit (get o "auto_ban")); ("auto_verify", bit (get o "auto_verify"));
          ("models", VStr (join "," models)); ("group", group)]
    (delete_all internal_fields
      (assign [("setting", VStr (stringify (VObj (channelExtraSettings o))));
               ("settings", VStr (stringify settings))] o)).

(** The channel that is sent, for the final list of models. *)
Definition build_channel (o : obj) (models : list string) : res obj :=
  base ← strip_slash (get o "base_url");
  let o := prepare_fields base o in
  settings ← build_settings o;
  group ← joined_groups (get o "groups");
  Ok (channel_fields o settings models group).

(** ** [submit] *)

(** What [submit] does in order. *)
Inductive action :=
| Toast (e : effect)
| AskMissing (models : list string)
| AskRisk (redirects : list string)
| InputModels (models : list string)     (** [handleInputChange('models', ...)] *)
| Put (url : string) (body : obj)
| Post (url : string) (body : obj)
| ResetInputs | Refresh | Close
| Uncaught (message : string).

Inductive reply := NoReply | Reply (success : bool) (message : jsval).

(** The answers of the user and of the service. *)
Record answers := Answers { on_missing : list string → choice; on_risk : list string → bool; on_send : reply }.

Definition mode_text (m : modal) : string :=
  if batch m then if multiToSingle m then "multi_to_single" else "batch" else "single".

Definition request_of (m : modal) (o : obj) : action :=
  match channelId m with
  | Some i =>
      Put "/api/channel/"
        (obj_define "key_mode" (if isMultiKeyChannel m then VStr (keyMode m) else VUndef)
          (obj_define "id" (VNum (parse_int i)) o))
  | None =>
      Post "/api/channel/"
        [("mode", VStr (mode_text m));
         ("multi_key_mode", if bool_decide (mode_text m = "multi_to_single") then multiKeyMode m else VUndef);
         ("channel", VObj o)]
  end.

Definition after_reply (m : modal) (r : reply) : list action :=
  match r with
  | NoReply => [Uncaught "Request failed"]
  | Reply false message => [Toast (ShowErrorValue message)]
  | Reply true _ =>
      (if isEdit m then [Toast (ShowSuccess "渠道更新成功！" [])]
       else [Toast (ShowSuccess "渠道创建成功！" []); ResetInputs]) ++ [Refresh; Close]
  end.

(** The checks before the first question: the values, the models, the
    mapping. *)
Definition check_inputs (m : modal) (formValues : obj) : chk (obj * list string * jsval) :=
  let o := obj_set "param_override" (get (inputs m) "param_override") formValues in
  o ← check_codex m o;
  o ← check_vertex m o;
  o ← check_key m o;
  models ← check_fields m o;
  mapping ← check_mapping o;
  names ← lift (nonblank_models models);
  Go (o, names, mapping).

(** Run a check, and go on with its result. *)
Definition run_chk {A} (c : chk A) (k : A → list action) : list action :=
  match c with
  | Go a => k a
  | Return t => match t with Some e => [Toast e] | None => [] end
  | Crash e => [Uncaught e]
  end.

(** From the status codes on. *)
Definition send_channel (m : modal) (a : answers) (o : obj) (models : list string) : list action :=
  let codes := get o "status_code_mapping" in
  run_chk (lift (Guard.collectInvalidStatusCodeEntries codes)) (λ invalid,
    match invalid with
    | _ :: _ => [Toast (ShowError "状态码复写包含无效的状态码" [("list", VStr (join ", " invalid))])]
    | [] =>
        let request := run_chk (lift (build_channel o models))
                         (λ o, request_of m o :: after_reply m (on_send a)) in
        match Guard.collectNewDisallowedStatusCodeRedirects (initialStatusCodeMapping m) codes with
        | [] => request
        | risky => AskRisk risky :: if on_risk a risky then request else []
        end
    end).

Definition submit (m : modal) (formValues : obj) (a : answers) : list action :=
  run_chk (check_inputs m formValues) (λ '(o, models, mapping),
    match missing_models mapping models with
    | [] => send_channel m a o models
    | missing =>
        run_chk (lift (hasModelConfigChanged m models (get o "model_mapping"))) (λ changed,
          if (changed : bool) then
            AskMissing missing ::
            match on_missing a missing with
            | Cancel => []
            | SubmitAnyway => send_channel m a o models
            | AddModels =>
                let models := uniq (models ++ missing) in
                InputModels models :: send_channel m a o models
            end
          else send_channel m a o models)
    end).

(** ** Fields of objects *)

Lemma get_define o k v k' : get (obj_define k v o) k' = if decide (k' = k) then v else get o k'.
Proof. unfold get. rewrite obj_get_define. by case_decide. Qed.

Lemma get_set o k v k' : k ≠ "__proto__" → get (obj_set k v o) k' = if decide (k' = k) then v else get o k'.
Proof. intros Hk. unfold obj_set. rewrite decide_False by done. apply get_define. Qed.

Lemma get_set_if b o k v k' : k ≠ "__proto__" →
  get (set_if b k v o) k' = if decide (b = true ∧ k' = k) then v else get o k'.
Proof.
  intros Hk. unfold set_if. destruct b.
  - rewrite get_set by done. repeat case_decide; naive_solver.
  - rewrite decide_False by naive_solver. done.
Qed.

Lemma get_delete o k k' : get (obj_delete k o) k' = if decide (k' = k) then VUndef else get o k'.
Proof. unfold get. rewrite obj_get_delete. by case_decide. Qed.

Lemma get_delete_all ks o k : get (delete_all ks o) k = if decide (k ∈ ks) then VUndef else get o k.
Proof.
  revert o. induction ks as [|x ks IH]; intros o; [by rewrite decide_False by set_solver|].
  change (delete_all (x :: ks) o) with (delete_all ks (obj_delete x o)).
  rewrite IH, get_delete. repeat case_decide; set_solver.
Qed.

Lemma get_assign kvs o k : "__proto__" ∉ kvs.*1 → NoDup kvs.*1 →
  get (assign kvs o) k = default (get o k) (obj_get kvs k).
Proof.
  revert o. induction kvs as [|[k0 v0] kvs IH]; intros o Hp Hn; [done|].
  change (assign ((k0, v0) :: kvs) o) with (assign kvs (obj_set k0 v0 o)). cbn in Hp, Hn |- *.
  apply not_elem_of_cons in Hp as [Hp0 Hp]. apply NoDup_cons in Hn as [Hk0 Hn].
  rewrite IH, get_set by done. case_decide; [|done]. subst.
  assert (obj_get kvs k0 = None) as -> by (by apply obj_get_None). done.
Qed.

(** ** What is sent *)

(** The type of a channel [c] as it is sent, for the values [f] of the form.
    The text of [settings] is that of an object, with the two switches of the
    upstream updates as the form shows them (no synchronisation without the
    check), unless the form held the text of an array, which is sent as it
    is.  The settings of their own are nowhere else in the channel. *)
Record channel_typed (f c : obj) : Prop := {
  ct_models : ∃ s, get c "models" = VStr s;
  ct_group : ∃ s, get c "group" = VStr s;
  ct_auto_ban : get c "auto_ban" = VNum (num_of_Z (if truthy (get f "auto_ban") then 1 else 0));
  ct_auto_verify : get c "auto_verify" = VNum (num_of_Z (if truthy (get f "auto_verify") then 1 else 0));
  ct_setting : ∃ o, get c "setting" = VStr (stringify (VObj o)) ∧
    obj_keys o = ["force_format"; "thinking_to_content"; "proxy"; "pass_through_body_enabled";
                  "system_prompt"; "system_prompt_override"] ∧
    ∀ k, k ∈ obj_keys o → get o k = get f k ∨
      truthy (get f k) = false ∧ (get o k = VBool false ∨ get o k = VStr "");
  ct_settings : ∃ v, get c "settings" = VStr (stringify v) ∧
    ((∃ s, v = VObj s ∧
        get s "upstream_model_update_check_enabled"
          = VBool (is_true (get f "upstream_model_update_check_enabled")) ∧
        get s "upstream_model_update_auto_sync_enabled"
          = VBool (is_true (get f "upstream_model_update_check_enabled")
                   && is_true (get f "upstream_model_update_auto_sync_enabled"))) ∨
     ∃ l, v = VArr l ∧ parse_text (get f "settings") = Some (VArr l));
  ct_absent : Forall (λ k, get c k = VUndef)
    ["force_format"; "thinking_to_content"; "proxy"; "pass_through_body_enabled"; "system_prompt";
     "system_prompt_override"; "is_enterprise_account"; "vertex_key_type"; "aws_key_type";
     "allow_service_tier"; "disable_store"; "allow_safety_identifier"; "allow_include_obfuscation";
     "allow_inference_geo"; "claude_beta_query"; "upstream_model_update_check_enabled";
     "upstream_model_update_auto_sync_enabled"; "upstream_model_update_last_check_time";
     "upstream_model_update_last_detected_models"; "upstream_model_update_ignored_models"; "vertex_files"] }.

Lemma bit_value v : bit v = VNum (num_of_Z (if truthy v then 1 else 0)).
Proof. unfold bit, one, zero. by destruct (truthy v). Qed.

Lemma js_or_setting v d : d = VBool false ∨ d = VStr "" →
  js_or v d = v ∨ truthy v = false ∧ (js_or v d = VBool false ∨ js_or v d = VStr "").
Proof. unfold js_or. destruct (truthy v); auto. Qed.

Lemma get_set_other o k v k' : k ≠ "__proto__" → k' ≠ k → get (obj_set k v o) k' = get o k'.
Proof. intros. by rewrite get_set, decide_False. Qed.

Lemma get_set_same o k v : k ≠ "__proto__" → get (obj_set k v o) k = v.
Proof. intros. by rewrite get_set, decide_True. Qed.

Lemma get_set_if_other b o k v k' : k ≠ "__proto__" → k' ≠ k → get (set_if b k v o) k' = get o k'.
Proof. intros. unfold set_if. destruct b; [by apply get_set_other|done]. Qed.

(** The switches of the upstream updates. *)
Lemma upstream_switches o ignored s :
  get (upstream_settings o ignored s) "upstream_model_update_check_enabled"
    = VBool (is_true (get o "upstream_model_update_check_enabled")) ∧
  get (upstream_settings o ignored s) "upstream_model_update_auto_sync_enabled"
    = VBool (is_true (get o "upstream_model_update_check_enabled")
             && is_true (get o "upstream_model_update_auto_sync_enabled")).
Proof.
  unfold upstream_settings. split; rewrite 2!get_set_if_other, get_set_other by done.
  - rewrite get_set_other by done. by apply get_set_same.
  - by apply get_set_same.
Qed.

Lemma build_settings_object o v : build_settings o = Ok v →
  (∃ s, v = VObj s ∧
     get s "upstream_model_update_check_enabled"
       = VBool (is_true (get o "upstream_model_update_check_enabled")) ∧
     get s "upstream_model_update_auto_sync_enabled"
       = VBool (is_true (get o "upstream_model_update_check_enabled")
                && is_true (get o "upstream_model_update_auto_sync_enabled"))) ∨
  ∃ l, v = VArr l ∧ parse_text (get o "settings") = Some (VArr l).
Proof.
  unfold build_settings. intros (ig & _ & H)%res_bind_Ok.
  destruct (parsed_settings _) as [| | | | |l|s] eqn:E; simplify_eq.
  - right. exists l. split; [done|]. unfold parsed_settings in E. destruct (truthy _); [|done].
    destruct (parse_text _); cbn in E; by simplify_eq.
  - left. eexists. split; [done|]. apply upstream_switches.
Qed.

Lemma joined_groups_text v g : joined_groups v = Ok g → ∃ s, g = VStr s.
Proof.
  unfold joined_groups. destruct (js_or _ _); try done. intros (s & _ & [= <-])%res_bind_Ok. by exists s.
Qed.

(** The fields of the channel that is sent. *)
Definition sent_fields (o : obj) (settings : jsval) (models : list string) (group : jsval) : obj :=
  [("auto_ban", bit (get o "auto_ban")); ("auto_verify", bit (get o "auto_verify"));
   ("models", VStr (join "," models)); ("group", group);
   ("setting", VStr (stringify (VObj (channelExtraSettings o)))); ("settings", VStr (stringify settings))].

Lemma get_channel_fields o settings models group k :
  get (channel_fields o settings models group) k
  = if decide (k ∈ internal_fields) then VUndef
    else default (get o k) (obj_get (sent_fields o settings models group) k).
Proof.
  unfold channel_fields. rewrite get_assign, get_delete_all, get_assign;
    [|by apply (bool_decide_eq_true_1 _)..].
  assert (Forall (λ k, k ∉ ["auto_ban"; "auto_verify"; "models"; "group"]) internal_fields) as Hd
    by (by apply (bool_decide_eq_true_1 _)).
  case_decide as Hk.
  - rewrite Forall_forall in Hd. specialize (Hd k Hk). cbn. rewrite !decide_False by set_solver. done.
  - cbn. by repeat case_decide.
Qed.

(** ** Requests *)

Definition is_request (x : action) : bool := match x with Put _ _ | Post _ _ => true | _ => false end.

Lemma chk_bind_Go {A B} (m : chk A) (f : A → chk B) b :
  m ≫= f = Go b ↔ ∃ a, m = Go a ∧ f a = Go b.
Proof. unfold mbind, chk_bind. destruct m; naive_solver. Qed.

Lemma lift_Go {A} (r : res A) a : lift r = Go a ↔ r = Ok a.
Proof. destruct r; cbn; naive_solver. Qed.

Lemma require_Go b key u : require b key = Go u ↔ b = true.
Proof. destruct u, b; cbn; naive_solver. Qed.

Lemma after_reply_quiet m r : Forall (λ x, is_request x = false) (after_reply m r).
Proof. destruct r as [|[] msg]; cbn; [|destruct (isEdit m)|]; by repeat constructor. Qed.

Lemma request_of_request m c : is_request (request_of m c) = true.
Proof. unfold request_of. by destruct (channelId m). Qed.

(** When [send_channel] makes a request. *)
Lemma send_channel_cases m a o models :
  Forall (λ x, is_request x = false) (send_channel m a o models) ∨
  ∃ c, build_channel o models = Ok c ∧
    Guard.collectInvalidStatusCodeEntries (get o "status_code_mapping") = Ok [] ∧
    let risky := Guard.collectNewDisallowedStatusCodeRedirects
                   (initialStatusCodeMapping m) (get o "status_code_mapping") in
    let rest := request_of m c :: after_reply m (on_send a) in
    (risky = [] ∧ send_channel m a o models = rest) ∨
    (on_risk a risky = true ∧ send_channel m a o models = AskRisk risky :: rest).
Proof.
  unfold send_channel.
  destruct (Guard.collectInvalidStatusCodeEntries _) as [[|i invalid]|e]; cbn [lift run_chk];
    [|left; by repeat constructor..].
  set (risky := Guard.collectNewDisallowedStatusCodeRedirects _ _).
  destruct (build_channel o models) as [c|e] eqn:Hc; cbn [lift run_chk].
  - destruct risky as [|x rs] eqn:Er; [right; exists c; split_and!; [done..|]; by left|].
    destruct (on_risk a (x :: rs)) eqn:Ea; [|left; by repeat constructor].
    right. exists c. split_and!; [done..|]. by right.
  - left. destruct risky as [|x rs]; [by repeat constructor|]. destruct (on_risk a _); by repeat constructor.
Qed.

(** When [submit] makes a request: first at most the question about missing
    models, then [send_channel]. *)
Lemma submit_cases m f a :
  Forall (λ x, is_request x = false) (submit m f a) ∨
  ∃ o names mapping models pre, check_inputs m f = Go (o, names, mapping) ∧
    submit m f a = pre ++ send_channel m a o models ∧
    (pre = [] ∧ models = names ∨
     ∃ missing, missing = missing_models mapping names ∧ missing ≠ [] ∧
       (pre = [AskMissing missing] ∧ models = names ∧ on_missing a missing = SubmitAnyway ∨
        models = uniq (names ++ missing) ∧ pre = [AskMissing missing; InputModels models] ∧
        on_missing a missing = AddModels)).
Proof.
  unfold submit. destruct (check_inputs m f) as [[[o names] mapping]|[t|]|e]; cbn;
    [|left; by repeat constructor..].
  destruct (missing_models mapping names) as [|x missing] eqn:Em.
  { right. exists o, names, mapping, names, []. split_and!; [done..|]. by left. }
  destruct (hasModelConfigChanged m names (get o "model_mapping")) as [[]|e]; cbn;
    [|right; exists o, names, mapping, names, []; split_and!; [done..|]; by left|left; by repeat constructor].
  destruct (on_missing a (x :: missing)) eqn:Ea.
  - left. by repeat constructor.
  - right. exists o, names, mapping, names, [AskMissing (x :: missing)]. split_and!; [done..|].
    right. exists (x :: missing). rewrite Em. split_and!; [done..|]. by left.
  - right. exists o, names, mapping, (uniq (names ++ x :: missing)),
      [AskMissing (x :: missing); InputModels (uniq (names ++ x :: missing))].
    split_and!; [done..|]. right. exists (x :: missing). rewrite Em. split_and!; [done..|]. by right.
Qed.

(** The only element with a property. *)
Lemma only_split {A} (p : A → bool) l1 x l2 l1' y l2' :
  l1 ++ x :: l2 = l1' ++ y :: l2' → p x = true →
  Forall (λ z, p z = false) l1' → Forall (λ z, p z = false) l2' →
  l1 = l1' ∧ x = y ∧ l2 = l2'.
Proof.
  revert l1'. induction l1 as [|z l1 IH]; intros [|z' l1'] E Hx H1 H2; injection E as -> E.
  - done.
  - apply Forall_cons in H1 as [? _]. congruence.
  - rewrite <-E in H2. apply Forall_app in H2 as [_ [? _]%Forall_cons]. congruence.
  - apply Forall_cons in H1 as [_ H1]. destruct (IH l1' E Hx H1 H2) as (-> & -> & ->). done.
Qed.

(** What is asked before the models are sent. *)
Definition asked (a : answers) (names : list string) (mapping : jsval) (models : list string)
    (pre : list action) : Prop :=
  Forall (λ x, is_request x = false) pre ∧
  (models = names ∨ models = uniq (names ++ missing_models mapping names)) ∧
  (∀ l, AskRisk l ∉ pre) ∧
  ∀ l, AskMissing l ∈ pre → l = missing_models mapping names ∧ on_missing a l ≠ Cancel ∧
    (on_missing a l = AddModels → models = uniq (names ++ l)).

Lemma asked_nothing a names mapping : asked a names mapping names [].
Proof. split_and!; [constructor|by left|set_solver|set_solver]. Qed.

Lemma asked_anyway a names mapping :
  on_missing a (missing_models mapping names) = SubmitAnyway →
  asked a names mapping names [AskMissing (missing_models mapping names)].
Proof.
  intros Ha. split_and!; [by repeat constructor|by left|set_solver|].
  intros l [= ->]%list_elem_of_singleton. rewrite Ha. done.
Qed.

Lemma asked_added a names mapping :
  let l := missing_models mapping names in
  on_missing a l = AddModels →
  asked a names mapping (uniq (names ++ l)) [AskMissing l; InputModels (uniq (names ++ l))].
Proof.
  intros l Ha. split_and!; [by repeat constructor|by right|set_solver|].
  intros l' [[= ->]|[[=]|[]%not_elem_of_nil]%elem_of_cons]%elem_of_cons. fold l. by rewrite Ha.
Qed.

(** A request splits [submit] at [request_of]. *)
Lemma submit_split m f a pre r post :
  submit m f a = pre ++ r :: post → is_request r = true →
  ∃ o names mapping models c q, check_inputs m f = Go (o, names, mapping) ∧
    build_channel o models = Ok c ∧ r = request_of m c ∧ post = after_reply m (on_send a) ∧
    asked a names mapping models q ∧
    Guard.collectInvalidStatusCodeEntries (get o "status_code_mapping") = Ok [] ∧
    let risky := Guard.collectNewDisallowedStatusCodeRedirects
                    (initialStatusCodeMapping m) (get o "status_code_mapping") in
    risky = [] ∧ pre = q ∨ on_risk a risky = true ∧ pre = q ++ [AskRisk risky].
Proof.
  intros E Hr.
  destruct (submit_cases m f a) as [H|(o & names & mapping & models & q & Hc & Es & Hq)].
  { rewrite E in H. apply Forall_app in H as [_ [H _]%Forall_cons]. congruence. }
  assert (asked a names mapping models q) as Hask.
  { destruct Hq as [[-> ->]|(l & -> & Hl & [(-> & -> & Ha)|(-> & -> & Ha)])].
    - apply asked_nothing.
    - by apply asked_anyway.
    - by apply asked_added. }
  exists o, names, mapping, models.
  destruct (send_channel_cases m a o models) as [H|(c & Hb & Hi & H)].
  { rewrite Es in E. destruct Hask as [Hq1 _].
    assert (Forall (λ x, is_request x = false) (pre ++ r :: post)) as HF by (rewrite <-E; by apply Forall_app).
    apply Forall_app in HF as [_ [? _]%Forall_cons]. congruence. }
  exists c, q. pose proof (after_reply_quiet m (on_send a)) as Hquiet.
  destruct H as [[Hrisk Hs]|[Hrisk Hs]]; rewrite Hs in Es; rewrite Es in E; symmetry in E.
  - destruct (only_split is_request _ _ _ _ _ _ E) as (-> & -> & ->); [done|apply Hask|done|].
    split_and!; try done. by left.
  - rewrite (cons_middle (AskRisk _)), app_assoc in E.
    destruct (only_split is_request _ _ _ _ _ _ E) as (-> & -> & ->); [done| |done|].
    + apply Forall_app. split; [apply Hask|by repeat constructor].
    + split_and!; try done. by right.
Qed.

(** The fields [build_channel] writes. *)
Definition written_fields : list string :=
  internal_fields ++ ["auto_ban"; "auto_verify"; "models"; "group"; "setting"; "settings"; "base_url"; "other"].

Lemma prepare_fields_get base o k : k ≠ "base_url" → k ≠ "other" → get (prepare_fields base o) k = get o k.
Proof.
  intros H1 H2. unfold prepare_fields. rewrite !get_set_if by done. by rewrite !decide_False by naive_solver.
Qed.

Lemma build_channel_get o models c k :
  build_channel o models = Ok c → k ∉ written_fields → get c k = get o k.
Proof.
  unfold build_channel, written_fields. intros (base & _ & H)%res_bind_Ok Hk.
  apply res_bind_Ok in H as (v & _ & H). apply res_bind_Ok in H as (g & _ & [= <-]).
  apply not_elem_of_app in Hk as [Hk1 Hk2]. rewrite !not_elem_of_cons in Hk2.
  rewrite get_channel_fields, decide_False by done. destruct Hk2 as (?&?&?&?&?&?&?&?&_).
  unfold sent_fields. cbn [obj_get]. rewrite !decide_False by done. cbn. by apply prepare_fields_get.
Qed.

(** The settings that [build_channel] moves are those of the form. *)
Lemma channelExtraSettings_of o f :
  (∀ k, k ∉ ["param_override"; "key"; "vertex_files"; "base_url"; "other"] → get o k = get f k) →
  ∀ k, k ∈ obj_keys (channelExtraSettings o) → get (channelExtraSettings o) k = get f k ∨
    truthy (get f k) = false ∧
    (get (channelExtraSettings o) k = VBool false ∨ get (channelExtraSettings o) k = VStr "").
Proof.
  intros Hf k Hk. rewrite <-(Hf k).
  2: { revert k Hk. apply Forall_forall. by apply (bool_decide_eq_true_1 _). }
  change (obj_keys _) with ["force_format"; "thinking_to_content"; "proxy"; "pass_through_body_enabled";
                  "system_prompt"; "system_prompt_override"] in Hk.
  repeat (apply elem_of_cons in Hk as [->|Hk]; [match goal with |- _ = ?v ∨ _ =>
    first [exact (js_or_setting v (VBool false) (or_introl eq_refl))
          |exact (js_or_setting v (VStr "") (or_intror eq_refl))] end|]).
  by apply not_elem_of_nil in Hk.
Qed.

Lemma build_channel_typed o f models c :
  build_channel o models = Ok c → get o "vertex_files" = VUndef →
  (∀ k, k ∉ ["param_override"; "key"; "vertex_files"] → get o k = get f k) → channel_typed f c.
Proof.
  intros Hb Hv Hf. pose proof (build_channel_get _ _ _ "vertex_files" Hb) as Hvf.
  unfold build_channel in Hb. apply res_bind_Ok in Hb as (base & Hbase & H).
  assert (∀ k, k ∉ ["param_override"; "key"; "vertex_files"; "base_url"; "other"] →
    get (prepare_fields base o) k = get f k) as Hp.
  { intros k Hk. rewrite prepare_fields_get by set_solver. apply Hf. set_solver. }
  apply res_bind_Ok in H as (v & Hs%build_settings_object & H).
  apply res_bind_Ok in H as (g & [gs ->]%joined_groups_text & [= <-]).
  rewrite !Hp in Hs by (by apply (bool_decide_eq_false_1 _)).
  split; rewrite ?get_channel_fields; try (rewrite decide_False by (by apply (bool_decide_eq_false_1 _))).
  - eexists. reflexivity.
  - eexists. reflexivity.
  - rewrite <-Hp by (by apply (bool_decide_eq_false_1 _)). exact (bit_value _).
  - rewrite <-Hp by (by apply (bool_decide_eq_false_1 _)). exact (bit_value _).
  - eexists. split_and!; [reflexivity..|]. by apply channelExtraSettings_of.
  - eexists. split; [reflexivity|done].
  - apply Forall_forall. intros k Hk. destruct (decide (k = "vertex_files")) as [->|Hne].
    { rewrite Hvf by (by apply (bool_decide_eq_false_1 _)). done. }
    rewrite get_channel_fields, decide_True; [done|]. revert k Hk Hne.
    assert (Forall (λ k, k ≠ "vertex_files" → k ∈ internal_fields) (internal_fields ++ ["vertex_files"])) as HF.
    { apply Forall_app. split; [by apply Forall_forall|by constructor]. }
    intros k. exact (proj1 (Forall_forall _ _) HF k).
Qed.

(** C3.  The form sends at most one request, and only a checked and confirmed
    one: every entry of the status code mapping it sends is valid; when the
    mapping introduces risky redirects, the user was asked about exactly
    these and agreed; and a question about models missing in the list was
    not answered with cancel. *)
Theorem submit_confirmed (m : modal) (f : obj) (a : answers) (pre post : list action) (r : action) :
  submit m f a = pre ++ r :: post → is_request r = true →
  Forall (λ x, is_request x = false) (pre ++ post) ∧
  ∃ c, r = request_of m c ∧
    let codes := get c "status_code_mapping" in
    let risky := Guard.collectNewDisallowedStatusCodeRedirects (initialStatusCodeMapping m) codes in
    Guard.collectInvalidStatusCodeEntries codes = Ok [] ∧
    (risky = [] ∨ AskRisk risky ∈ pre ∧ on_risk a risky = true) ∧
    ∀ l, AskMissing l ∈ pre → on_missing a l ≠ Cancel.
Proof.
  intros E Hr. destruct (submit_split _ _ _ _ _ _ E Hr)
    as (o & names & mapping & models & c & q & _ & Hb & -> & -> & (Hq1 & _ & _ & Hq4) & Hi & Hrisk).
  assert (get c "status_code_mapping" = get o "status_code_mapping") as Ec.
  { eapply build_channel_get; [exact Hb|]. by apply (bool_decide_eq_false_1 _). }
  split.
  - apply Forall_app. split; [|apply after_reply_quiet].
    destruct Hrisk as [[_ ->]|[_ ->]]; [done|]. apply Forall_app. split; [done|by repeat constructor].
  - exists c. split; [done|]. cbn zeta. rewrite Ec. split_and!; [done| |].
    + destruct Hrisk as [[H _]|[H ->]]; [by left|right]. split; [set_solver|done].
    + intros l Hl. apply Hq4. destruct Hrisk as [[_ ->]|[_ ->]]; [done|].
      apply elem_of_app in Hl as [?|[=]%list_elem_of_singleton]; done.
Qed.

(** ** Keys *)

(** A key that is worth sending. *)
Definition nonblank_text (v : jsval) : Prop := ∃ s, v = VStr s ∧ trim s ≠ "".

Lemma blank_spec v b : blank v = Ok b → if b then True else nonblank_text v.
Proof.
  unfold blank. destruct (truthy v); [|by intros [= <-]]. intros (s & Hs & [= <-])%res_bind_Ok.
  case_bool_decide; [done|]. destruct v; cbn in Hs; simplify_eq. by eexists.
Qed.

Lemma check_key_spec m o o' : check_key m o = Go o' →
  (isEdit m = true → get o' "key" = VUndef ∨ nonblank_text (get o' "key")) ∧ get o' "vertex_files" = VUndef.
Proof.
  unfold check_key. destruct (isEdit m).
  - intros (b & Hb%lift_Go & [= <-])%chk_bind_Go. apply blank_spec in Hb.
    split; [intros _|by rewrite get_delete, decide_True]. rewrite get_delete, decide_False by done.
    destruct b; [left; by rewrite get_delete, decide_True|by right].
  - intros [= <-]. split; [done|by rewrite get_delete, decide_True].
Qed.

Lemma check_inputs_key m f o names mapping : check_inputs m f = Go (o, names, mapping) →
  (isEdit m = true → get o "key" = VUndef ∨ nonblank_text (get o "key")) ∧
  (isEdit m = false → truthy (get o "name") = true ∧ truthy (get o "key") = true).
Proof.
  unfold check_inputs. intros (o1 & _ & H)%chk_bind_Go. apply chk_bind_Go in H as (o2 & _ & H).
  apply chk_bind_Go in H as (o3 & Hk & H). apply chk_bind_Go in H as (ms & Hf & H).
  apply chk_bind_Go in H as (mp & _ & H). apply chk_bind_Go in H as (ns & _ & [= -> -> ->]).
  apply check_key_spec in Hk as [Hk _]. split; [done|]. intros He. unfold check_fields in Hf.
  apply chk_bind_Go in Hf as (u & Hu%require_Go & _). rewrite He in Hu. cbn in Hu. by apply andb_true_iff in Hu.
Qed.

(** The fields the checks leave alone. *)
Lemma check_inputs_get m f o names mapping : check_inputs m f = Go (o, names, mapping) →
  get o "vertex_files" = VUndef ∧
  ∀ k, k ∉ ["param_override"; "key"; "vertex_files"] → get o k = get f k.
Proof.
  unfold check_inputs. intros (o1 & H1 & H)%chk_bind_Go. apply chk_bind_Go in H as (o2 & H2 & H).
  apply chk_bind_Go in H as (o3 & H3 & H). apply chk_bind_Go in H as (ms & _ & H).
  apply chk_bind_Go in H as (mp & _ & H). apply chk_bind_Go in H as (ns & _ & [= -> -> ->]).
  split; [by apply check_key_spec in H3 as [_ ?]|]. intros k Hk. rewrite !not_elem_of_cons in Hk. destruct Hk as (?&?&?&_).
  assert (get o k = get o2 k) as ->.
  { unfold check_key in H3. destruct (isEdit m); [apply chk_bind_Go in H3 as (b & _ & [= <-])|injection H3 as <-];
      [destruct b|]; by rewrite !get_delete, !decide_False. }
  assert (get o2 k = get o1 k) as ->.
  { unfold check_vertex in H2. repeat (case_match || (apply chk_bind_Go in H2 as (? & ? & H2)) || done);
      simplify_eq; by rewrite ?get_set, ?get_delete, ?decide_False. }
  unfold check_codex in H1. repeat (case_match || (apply chk_bind_Go in H1 as (? & ? & H1)));
    simplify_eq; by rewrite ?get_set, ?decide_False.
Qed.

(** C26.  A stored key is never overwritten by a blank one, and no channel is
    created without name and key: what is sent for an existing channel has no
    key, or one that is not blank. *)
Theorem key_not_lost (m : modal) (f : obj) (a : answers) (pre post : list action) (r : action) :
  submit m f a = pre ++ r :: post → is_request r = true →
  ∃ c, r = request_of m c ∧
    (isEdit m = true → get c "key" = VUndef ∨ nonblank_text (get c "key")) ∧
    (isEdit m = false → truthy (get c "name") = true ∧ truthy (get c "key") = true).
Proof.
  intros E Hr. destruct (submit_split _ _ _ _ _ _ E Hr)
    as (o & names & mapping & models & c & q & Hc & Hb & -> & _). exists c. split; [done|].
  assert (∀ k, k ∉ written_fields → get c k = get o k) as Hg by (intros k; by eapply build_channel_get).
  rewrite (Hg "key"), (Hg "name"); [|by apply (bool_decide_eq_false_1 _)..].
  by eapply check_inputs_key.
Qed.

(** C29.  Every channel that is sent has the shape the service expects:
    models and group are texts; the two switches are 1 or 0 as the form shows
    them; [setting] is the text of an object with exactly its six keys, each
    with the value of the form or an empty default; [settings] is the text of
    an object whose upstream switches are those of the form (a text of an
    array in the form is sent as that array); and none of the twenty settings
    that were moved into these texts, nor the uploaded files, is a field of
    the channel. *)
Theorem sent_channel_typed (m : modal) (f : obj) (a : answers) (r : action) :
  r ∈ submit m f a → is_request r = true → ∃ c, r = request_of m c ∧ channel_typed f c.
Proof.
  intros (pre & post & E)%list_elem_of_split Hr. destruct (submit_split _ _ _ _ _ _ E Hr)
    as (o & names & mapping & models & c & q & Hc & Hb & -> & _). exists c. split; [done|].
  apply check_inputs_get in Hc as [? ?]. by eapply build_channel_typed.
Qed.

(** ** Examples *)

(** The form of a new channel, and of the stored channel 7. *)
Definition new_form : modal :=
  Modal None originInputs [] false false (VStr "random") false "append" true (VBool false) false [] [] false None
    [] (VStr "") (VStr "") (VArr []) "" false [].
Definition edit_form : modal :=
  Modal (Some "7") originInputs [] false false (VStr "random") false "append" true (VBool false) false [] [] false
    None [] (VStr "") (VStr "") (VArr []) "" false [].

(** A mapping with a model that is not in the list, and a risky redirect. *)
Definition sample_values : obj :=
  assign [("name", VStr "c"); ("key", VStr "sk"); ("models", strs ["gpt-4o"]);
          ("model_mapping", VStr (qtext "{'gpt-4':'gpt-4o'}"));
          ("status_code_mapping", VStr (qtext "{'504':'500'}"))] originInputs.
Definition sample_answers : answers := Answers (λ _, AddModels) (λ _, true) (Reply true VNull).

Definition sample_channel (m : modal) (f : obj) (models : list string) : obj :=
  match check_inputs m f with
  | Go (o, _, _) => match build_channel o models with Ok c => c | Throw _ => [] end
  | _ => []
  end.

Lemma submit_confirmed_witness :
  let c := sample_channel new_form sample_values ["gpt-4o"; "gpt-4"] in
  let pre := [AskMissing ["gpt-4"]; InputModels ["gpt-4o"; "gpt-4"]; AskRisk ["504 -> 500"]] in
  submit new_form sample_values sample_answers = pre ++ request_of new_form c :: after_reply new_form (Reply true VNull)
  ∧ Forall (λ x, is_request x = false) (pre ++ after_reply new_form (Reply true VNull)).
Proof.
  intros c pre.
  assert (submit new_form sample_values sample_answers
    = pre ++ request_of new_form c :: after_reply new_form (Reply true VNull)) as E by (vm_compute; reflexivity).
  split; [exact E|]. exact (proj1 (submit_confirmed new_form sample_values sample_answers pre _ _ E eq_refl)).
Defined.

(** A stored channel whose key field holds blanks only. *)
Definition blank_key_values : obj := assign [("key", VStr "  "); ("models", strs ["m"])] originInputs.

Lemma key_not_lost_witness :
  let c := sample_channel edit_form blank_key_values ["m"] in
  ∃ c', request_of edit_form c = request_of edit_form c' ∧
    (isEdit edit_form = true → get c' "key" = VUndef ∨ nonblank_text (get c' "key")) ∧
    (isEdit edit_form = false → truthy (get c' "name") = true ∧ truthy (get c' "key") = true).
Proof.
  intros c.
  assert (submit edit_form blank_key_values sample_answers
    = [] ++ request_of edit_form c :: after_reply edit_form (Reply true VNull)) as E by (vm_compute; reflexivity).
  exact (key_not_lost edit_form blank_key_values sample_answers [] _ _ E eq_refl).
Defined.

Lemma sent_channel_typed_witness :
  let r := request_of new_form (sample_channel new_form sample_values ["gpt-4o"; "gpt-4"]) in
  ∃ c, r = request_of new_form c ∧ channel_typed sample_values c.
Proof.
  intros r. apply (sent_channel_typed new_form sample_values sample_answers r); [|reflexivity].
  assert (submit new_form sample_values sample_answers
    = [AskMissing ["gpt-4"]; InputModels ["gpt-4o"; "gpt-4"]; AskRisk ["504 -> 500"]]
      ++ r :: after_reply new_form (Reply true VNull)) as E by (vm_compute; reflexivity).
  rewrite E. apply elem_of_app. right. apply elem_of_cons. left. reflexivity.
Defined.
