(* ===== verification/ChannelFormReload.v ===== *)
(** * The channel form: reopening and submitting

    What happens when a stored channel is opened in the form and submitted
    without a change: [loadChannel] followed by [submit]. *)
From Stdlib Require Import Ascii SpecFloat.
From S2P Require Import Prelude JsString JsNumber JsValue Json JsonRoundtrip StatusCodes ChannelForm ChannelFormSubmit.

(** ** The settings *)

Definition upstream_keys : list string :=
  ["upstream_model_update_check_enabled"; "upstream_model_update_auto_sync_enabled";
   "upstream_model_update_ignored_models"; "upstream_model_update_last_detected_models";
   "upstream_model_update_last_check_time"].

(** The keys of [settings] the form writes for a type of channel. *)
Definition managed_keys (o : obj) : list string :=
  "vertex_key_type" ::
  (if has_type 20 o then ["openrouter_enterprise"] else []) ++
  (if has_type 33 o then ["aws_key_type"] else []) ++
  (if has_type 1 o || has_type 14 o then ["allow_service_tier"] else []) ++
  (if has_type 1 o then ["disable_store"; "allow_safety_identifier"; "allow_include_obfuscation"] else []) ++
  (if has_type 14 o then ["allow_inference_geo"; "claude_beta_query"] else []) ++ upstream_keys.

(** Two objects related field by field, except for some fields. *)
Definition related (P : jsval → jsval → Prop) (E : list string) (o' o : obj) : Prop :=
  ∀ k, k ∉ E → P (get o' k) (get o k).

Section related.
Context (P : jsval → jsval → Prop) (E : list string).

Lemma related_set_if b k v o' o : k ≠ "__proto__" →
  (b = true → k ∉ E → P v (get o k)) → related P E o' o → related P E (set_if b k v o') o.
Proof.
  intros Hk Hv H k' Hk'. rewrite get_set_if by done. case_decide as Hd; [|by apply H].
  destruct Hd as [-> ->]. by apply Hv.
Qed.

Lemma related_set k v o' o : k ≠ "__proto__" →
  (k ∉ E → P v (get o k)) → related P E o' o → related P E (obj_set k v o') o.
Proof. intros Hk Hv. apply (related_set_if true); auto. Qed.

Lemma related_delete k o' o : k ∈ E → related P E o' o → related P E (obj_delete k o') o.
Proof. intros Hk H k' Hk'. rewrite get_delete, decide_False by set_solver. by apply H. Qed.
End related.

Lemma related_refl P `{!Reflexive P} E o : related P E o o.
Proof. intros k _. reflexivity. Qed.

(** Membership in a list with conditional parts. *)
Ltac in_list :=
  lazymatch goal with
  | |- ?k ∈ ?k :: _ => left
  | |- _ ∈ _ :: _ => right; in_list
  | |- _ ∈ _ ++ _ => apply elem_of_app; first [left; in_list | right; in_list]
  end.
Ltac managed := first
  [ apply related_set_if; [done|intros Hb Hk; destruct Hk; unfold managed_keys, upstream_keys; rewrite ?Hb; cbv iota; in_list|]
  | apply related_set; [done|intros Hk; destruct Hk; unfold managed_keys, upstream_keys; in_list|]
  | apply related_delete; [unfold managed_keys; in_list|] ].

Lemma related_trans P `{!Transitive P} E o1 o2 o3 :
  related P E o1 o2 → related P E o2 o3 → related P E o1 o3.
Proof. intros H1 H2 k Hk. etrans; [by apply H1|by apply H2]. Qed.

Lemma upstream_frame o ignored s : related eq (managed_keys o) (upstream_settings o ignored s) s.
Proof. unfold upstream_settings. repeat managed. apply related_refl, _. Qed.

Lemma type_frame o s : related eq (managed_keys o) (type_settings o s) s.
Proof.
  unfold type_settings. repeat managed. destruct (has_type 41 o); repeat managed; apply related_refl, _.
Qed.

(** The form changes only its own keys of [settings]. *)
Lemma settings_frame o ignored s :
  related eq (managed_keys o) (upstream_settings o ignored (type_settings o s)) s.
Proof. eapply related_trans; [apply _|apply upstream_frame|apply type_frame]. Qed.

(** Keys of [settings] that are no flags, and the synchronisation, which is
    switched off together with the check. *)
Definition loose_keys : list string :=
  ["vertex_key_type"; "aws_key_type"; "upstream_model_update_auto_sync_enabled";
   "upstream_model_update_ignored_models";
   "upstream_model_update_last_detected_models"; "upstream_model_update_last_check_time"].

Definition same_flag (x y : jsval) : Prop := is_true x = is_true y.
#[local] Instance same_flag_preorder : PreOrder same_flag.
Proof. split; [by intros x|]. intros x y z. unfold same_flag. congruence. Qed.

(** The flags of the form values [o] are those of the settings [s]. *)
Record flags_read (o s : obj) : Prop := {
  fr_enterprise : same_flag (get o "is_enterprise_account") (get s "openrouter_enterprise");
  fr_flags : Forall (λ k, same_flag (get o k) (get s k))
    ["allow_service_tier"; "disable_store"; "allow_safety_identifier"; "allow_include_obfuscation";
     "allow_inference_geo"; "claude_beta_query"; "upstream_model_update_check_enabled";
     "upstream_model_update_auto_sync_enabled"] }.

Lemma flag_true o k : is_true (flag o k) = is_true (get o k).
Proof. unfold flag. by destruct (is_true (get o k)). Qed.

(** The other flags, through the changes of the form. *)
Ltac kept_flag H :=
  unfold same_flag; rewrite ?flag_true;
  lazymatch type of H with Forall _ _ => rewrite Forall_forall in H; apply H; in_list | _ => exact H end.

Lemma type_flags o s : flags_read o s → related same_flag loose_keys (type_settings o s) s.
Proof.
  intros [He Hf]. unfold type_settings.
  repeat (apply related_set_if; [done|intros _ Hk; first [kept_flag Hf|kept_flag He|destruct Hk; unfold loose_keys; in_list]|]).
  destruct (has_type 41 o);
    [apply related_set; [done|intros Hk; destruct Hk; unfold loose_keys; in_list|]
    |apply related_delete; [unfold loose_keys; in_list|]];
  repeat (apply related_set_if; [done|intros _ Hk; first [kept_flag Hf|kept_flag He|destruct Hk; unfold loose_keys; in_list]|]);
  apply related_refl, _.
Qed.

Lemma upstream_flags o ignored s0 s :
  flags_read o s → related same_flag loose_keys s0 s →
  related same_flag loose_keys (upstream_settings o ignored s0) s.
Proof.
  intros [_ Hf] H. unfold upstream_settings.
  assert (same_flag (get o "upstream_model_update_check_enabled") (get s "upstream_model_update_check_enabled")) as Hc.
  { rewrite Forall_forall in Hf. apply Hf; in_list. }
  unfold same_flag in Hc.
  do 2 (apply related_set_if; [done|intros _ Hk; destruct Hk; unfold loose_keys; in_list|]).
  do 2 (apply related_set; [done|intros Hk; destruct Hk; unfold loose_keys; in_list|]).
  apply related_set; [done|intros _|done].
  unfold same_flag. cbn. rewrite Hc. by destruct (is_true (get s "upstream_model_update_check_enabled")).
Qed.

Lemma upstream_sync o ignored s0 s : flags_read o s →
  get (upstream_settings o ignored s0) "upstream_model_update_auto_sync_enabled"
  = VBool (is_true (get s "upstream_model_update_check_enabled")
           && is_true (get s "upstream_model_update_auto_sync_enabled")).
Proof.
  intros [_ Hf]. destruct (upstream_switches o ignored s0) as [_ ->].
  rewrite Forall_forall in Hf.
  assert (same_flag (get o "upstream_model_update_check_enabled") (get s "upstream_model_update_check_enabled")) as ->
    by (apply Hf; in_list).
  assert (same_flag (get o "upstream_model_update_auto_sync_enabled") (get s "upstream_model_update_auto_sync_enabled")) as ->
    by (apply Hf; in_list). done.
Qed.

(** ** Loading a stored channel *)

(** A channel as the service answers it: [s1] is its [setting] and [s] its
    [settings], both texts of objects, and the list of ignored models in the
    latter can be shown.  There is a model; the model mapping is blank or
    JSON; the entries of the status code mapping are valid; the key is not
    told; and a Codex channel (type 57) has one key. *)
Record stored (d s1 s : obj) : Prop := {
  st_models : ∃ t, get d "models" = VStr t ∧ t ≠ "";
  st_group : ∃ t, get d "group" = VStr t;
  st_mapping : ∃ t, get d "model_mapping" = VStr t ∧ (t = "" ∨ ∃ v, json_parse t = Some v ∧ json_ok v = true);
  st_key : truthy (get d "key") = false;
  st_codex : has_type 57 d = true → (multi_key d).1 = false;
  st_url : ∃ u, get d "base_url" = VStr u;
  st_codes : Guard.collectInvalidStatusCodeEntries (get d "status_code_mapping") = Ok [];
  st_setting : ∃ t, get d "setting" = VStr t ∧ json_parse t = Some (VObj s1);
  st_settings : ∃ t, get d "settings" = VStr t ∧ json_parse t = Some (VObj s);
  st_readable : is_ok (settings_fields (VObj s)) = true }.

(** The text of a field. *)
Definition text_in (d : obj) (k : string) : string := match get d k with VStr t => t | _ => "" end.

(** The mapping as the form shows it, with indentation. *)
Definition shown_mapping (d : obj) : string :=
  let t := text_in d "model_mapping" in
  match json_parse t with Some v => stringify2 v | None => t end.

(** The address: type 45 has a default. *)
Definition shown_url (d : obj) : string :=
  let u := text_in d "base_url" in if has_type 45 d && bool_decide (trim u = "") then ark_url else u.

(** The names of the models without blanks. *)
Definition names_of (parts : list string) : list string := filter (λ x, x ≠ "") (trim <$> parts).

Lemma join_split_on c s : join (String c "") (split_on c s) = s.
Proof.
  induction s as [|a s IH]; [done|]. cbn [split_on]. destruct (decide (a = c)) as [->|Hne].
  - rewrite <-IH at 2. destruct (split_on c s) eqn:E; [by destruct (split_on_nonempty c s)|done].
  - destruct (split_on c s) as [|p ps] eqn:E; [by destruct (split_on_nonempty c s)|].
    rewrite <-IH. by destruct ps.
Qed.

Lemma comma_list_join t l : comma_list (VStr t) = Ok l → join "," l = t.
Proof.
  unfold comma_list. destruct t as [|c t]; intros [= <-]; [done|]. exact (join_split_on "," (String c t)).
Qed.

Lemma comma_list_text t : ∃ l, comma_list (VStr t) = Ok l ∧ join "," l = t ∧
  l = match t with "" => [] | _ => split_on "," t end.
Proof.
  assert (∃ l, comma_list (VStr t) = Ok l) as [l Hl] by (destruct t; by eexists).
  exists l. split_and!; [done|by apply comma_list_join|]. destruct t; by injection Hl.
Qed.

Lemma parse_empty : json_parse "" = None.
Proof. done. Qed.

Lemma parse_text_truthy t v : json_parse t = Some v → truthy (VStr t) = true ∧ parse_text (VStr t) = Some v.
Proof.
  intros H. split; [|done]. cbn. rewrite bool_decide_false; [done|]. intros ->. by rewrite parse_empty in H.
Qed.

(** The fields loading writes. *)
Definition loaded_fields (d s1 : obj) (parts groups : list string) (fields : obj) : obj :=
  fields ++ setting_fields (VObj s1) ++
  (if (multi_key d).1 then [("multi_key_mode", (multi_key d).2)] else []) ++
  [("groups", strs groups); ("models", strs parts); ("model_mapping", VStr (shown_mapping d));
   ("base_url", VStr (shown_url d))].

Definition settings_keys : list string :=
  ["azure_responses_version"; "vertex_key_type"; "aws_key_type"; "is_enterprise_account"; "allow_service_tier";
   "disable_store"; "allow_safety_identifier"; "allow_include_obfuscation"; "allow_inference_geo";
   "claude_beta_query"; "upstream_model_update_check_enabled"; "upstream_model_update_auto_sync_enabled";
   "upstream_model_update_last_check_time"; "upstream_model_update_last_detected_models";
   "upstream_model_update_ignored_models"].

Lemma settings_fields_keys p fields : settings_fields p = Ok fields → fields.*1 = settings_keys.
Proof.
  unfold settings_fields, upstream_fields. intros (u & Hu & [= <-])%res_bind_Ok.
  apply res_bind_Ok in Hu as (x & _ & Hu). apply res_bind_Ok in Hu as (y & _ & [= <-]). done.
Qed.

Definition loaded_keys : list string :=
  settings_keys ++ ["force_format"; "thinking_to_content"; "proxy"; "pass_through_body_enabled"; "system_prompt";
    "system_prompt_override"; "multi_key_mode"; "groups"; "models"; "model_mapping"; "base_url"].

Lemma loaded_setting k s1 : k ∈ obj_keys (setting_fields (VObj s1)) → k ∈ loaded_keys.
Proof.
  assert (Forall (λ k, k ∈ loaded_keys) (obj_keys (setting_fields VUndef))) as HF by (by apply (bool_decide_eq_true_1 _)).
  rewrite Forall_forall in HF. apply HF.
Qed.

Lemma loaded_others k : k ∈ ["multi_key_mode"; "groups"; "models"; "model_mapping"] → k ∈ loaded_keys.
Proof.
  assert (Forall (λ k, k ∈ loaded_keys) ["multi_key_mode"; "groups"; "models"; "model_mapping"]) as HF
    by (by apply (bool_decide_eq_true_1 _)).
  rewrite Forall_forall in HF. apply HF.
Qed.

Lemma loaded_fields_frame d s1 s parts groups fields k :
  settings_fields (VObj s) = Ok fields → k ∉ loaded_keys →
  obj_get (loaded_fields d s1 parts groups fields) k = None.
Proof.
  intros Hf%settings_fields_keys Hk. apply obj_get_None. unfold loaded_fields, obj_keys, loaded_keys in *.
  rewrite !fmap_app, Hf. intros Hin. apply Hk.
  assert (∀ ks, Forall (λ k, k ∈ loaded_keys) ks → k ∈ ks → k ∈ loaded_keys) as Hsub.
  { intros ks HF Hx. rewrite Forall_forall in HF. by apply HF. }
  destruct (multi_key d).1; (eapply Hsub; [|exact Hin]);
    apply (bool_decide_eq_true_1 _); vm_compute; reflexivity.
Qed.

(** The mapping text is shown with indentation. *)
Lemma load_mapping d0 d s1 s :
  stored d s1 s → get d0 "model_mapping" = get d "model_mapping" →
  ∃ d1, (if is_str "" (get d0 "model_mapping") then Ok d0
         else m ← reformat (get d0 "model_mapping"); Ok (obj_set "model_mapping" m d0)) = Ok d1 ∧
    ∀ k, get d1 k = if decide (k = "model_mapping") then VStr (shown_mapping d) else get d0 k.
Proof.
  intros Hd E. destruct (st_mapping _ _ _ Hd) as (t & H & Ht). unfold shown_mapping, text_in. rewrite H, E, H.
  destruct Ht as [->|(v & Hv & _)].
  - exists d0. split; [done|]. intros k. case_decide; [subst; by rewrite E, H|done].
  - rewrite Hv. cbn [is_str]. rewrite bool_decide_false by (intros ?; by subst).
    unfold reformat. cbn [to_str mbind res_bind]. rewrite Hv. cbn [mbind res_bind].
    exists (obj_set "model_mapping" (VStr (stringify2 v)) d0). split; [done|]. intros k. by rewrite get_set by done.
Qed.

(** The address is shown with its default. *)
Lemma loaded_url d0 d s1 s :
  stored d s1 s → get d0 "base_url" = get d "base_url" → get d0 "type" = get d "type" →
  ∀ k, get (load_base_url d0) k = if decide (k = "base_url") then VStr (shown_url d) else get d0 k.
Proof.
  intros Hd E Ety k. destruct (st_url _ _ _ Hd) as (u & Hu). unfold load_base_url, shown_url, text_in, has_type.
  rewrite E, Ety, Hu. rewrite get_set_if by done.
  assert (negb (truthy (VStr u)) || bool_decide (trim u = "") = bool_decide (trim u = "")) as ->.
  { cbn. repeat case_bool_decide; subst; done. }
  destruct (is_num 45 (get d "type") && bool_decide (trim u = "")).
  - repeat case_decide; naive_solver.
  - rewrite decide_False by naive_solver. case_decide; [by subst; rewrite E, Hu|done].
Qed.

Lemma load_stored d s1 s : stored d s1 s →
  ∃ v parts groups fields, load_data d = Ok v ∧ settings_fields (VObj s) = Ok fields ∧
    (∃ t, get d "models" = VStr t ∧ parts = split_on "," t ∧ t ≠ "") ∧
    (∃ t, get d "group" = VStr t ∧ join "," groups = t) ∧
    ∀ k, get v k = default (get d k) (obj_get (loaded_fields d s1 parts groups fields) k).
Proof.
  intros Hd. destruct (st_models _ _ _ Hd) as (t & Ht & Htne). destruct (st_group _ _ _ Hd) as (g & Hg).
  destruct (comma_list_text t) as (parts & Hp & _ & Hp').
  destruct (comma_list_text g) as (groups & Hgr & Hgj & _).
  destruct (st_setting _ _ _ Hd) as (t1 & Ht1 & [Htr1 Hpt1]%parse_text_truthy).
  destruct (st_settings _ _ _ Hd) as (t2 & Ht2 & [Htr2 Hpt2]%parse_text_truthy).
  pose proof (st_readable _ _ _ Hd) as Hread.
  destruct (settings_fields (VObj s)) as [fields|] eqn:Hfields; [|done].
  assert (parts = split_on "," t) as Hsp by (destruct t; done).
  unfold load_data. rewrite Ht, Hp. cbn [mbind res_bind].
  rewrite get_set, decide_False, Hg, Hgr by done. cbn [mbind res_bind].
  set (d2 := obj_set "groups" _ _).
  assert (Hd2 : ∀ k, get d2 k = default (get d k) (obj_get [("groups", strs groups); ("models", strs parts)] k)).
  { intros k. subst d2. rewrite !get_set by done. cbn. by repeat case_decide. }
  destruct (load_mapping d2 d s1 s Hd) as (d3 & -> & Hd3); [by rewrite Hd2|]. cbn [mbind res_bind].
  assert (multi_key d3 = multi_key d) as ->.
  { unfold multi_key. by rewrite Hd3, decide_False, Hd2. }
  set (d4 := set_if _ _ _ d3).
  assert (Hd4 : ∀ k, get d4 k = default (get d k) (obj_get
    ((if (multi_key d).1 then [("multi_key_mode", (multi_key d).2)] else []) ++
     [("groups", strs groups); ("models", strs parts); ("model_mapping", VStr (shown_mapping d))]) k)).
  { intros k. subst d4. rewrite get_set_if, Hd3, Hd2 by done. destruct (multi_key d).1; cbn [app].
    - cbn [obj_get]. repeat case_decide; naive_solver.
    - rewrite decide_False by naive_solver. cbn [obj_get]. repeat case_decide; naive_solver. }
  assert (Hd4' : ∀ k, k ∉ ["multi_key_mode"; "groups"; "models"; "model_mapping"] → get d4 k = get d k).
  { intros k Hk. rewrite Hd4. destruct (multi_key d).1; cbn; by rewrite !decide_False by set_solver. }
  unfold load_setting. rewrite Hd4', Ht1, Htr1, Hpt1 by (by apply (bool_decide_eq_false_1 _)).
  set (d5 := assign _ d4).
  assert (Hd5 : ∀ k, get d5 k = default (get d4 k) (obj_get (setting_fields (VObj s1)) k)).
  { intros k. apply get_assign; by apply (bool_decide_eq_true_1 _). }
  unfold load_settings. rewrite Hd5. cbn [setting_fields obj_get].
  rewrite !decide_False by done. cbn [default]. rewrite Hd4', Ht2, Htr2, Hpt2, Hfields by (by apply (bool_decide_eq_false_1 _)).
  set (d6 := assign _ d5). pose proof (settings_fields_keys _ _ Hfields) as Hkeys.
  assert (Hd6 : ∀ k, get d6 k = default (get d5 k) (obj_get fields k)).
  { intros k. apply get_assign; rewrite Hkeys; by apply (bool_decide_eq_true_1 _). }
  assert (Hfr : ∀ k, k ∉ loaded_keys → get d6 k = get d k).
  { intros k Hk. rewrite Hd6, Hd5, Hd4'.
    - assert (obj_get fields k = None) as ->.
      { apply obj_get_None. unfold obj_keys. rewrite Hkeys. intros Hin. apply Hk, elem_of_app. by left. }
      assert (obj_get (setting_fields (VObj s1)) k = None) as ->; [|done].
      apply obj_get_None. intros Hin. by eapply Hk, loaded_setting.
    - intros Hin. apply Hk. by apply loaded_others. }
  assert (Hurl : obj_get fields "base_url" = None).
  { apply obj_get_None. unfold obj_keys. rewrite Hkeys. by apply (bool_decide_eq_false_1 _). }
  exists (load_base_url d6), parts, groups, fields. split_and!; [done|done|by exists t|by exists g|].
  intros k. rewrite (loaded_url d6 d s1 s Hd).
  - unfold loaded_fields. rewrite !obj_get_app. case_decide as Hk.
    + subst k. rewrite Hurl. by destruct (multi_key d).1.
    + rewrite Hd6, Hd5, Hd4. destruct (obj_get fields k); [done|]. cbn [default].
      destruct (obj_get (setting_fields _) k); [done|]. cbn [default].
      destruct (multi_key d).1; cbn [app obj_get]; by repeat case_decide.
  - rewrite Hd6, Hurl, Hd5. cbn [default setting_fields obj_get]. rewrite !decide_False by done. cbn [default].
    apply Hd4'. by apply (bool_decide_eq_false_1 _).
  - apply Hfr. by apply (bool_decide_eq_false_1 _).
Qed.

(** ** Submitting it unchanged *)

Section reload.
Context (getChannelModels : jsval → jsval).

Lemma show_channel_state d v m0 m :
  show_channel getChannelModels d v m0 = Ok m →
  ∃ names, nonblank_models (match get v "models" with VArr l => l | _ => [] end) = Ok names ∧
    inputs m = v ∧ channelId m = channelId m0 ∧ useManualInput m = useManualInput m0 ∧
    vertexKeys m = vertexKeys m0 ∧ vertexFileList m = vertexFileList m0 ∧ initialModels m = names ∧
    initialModelMapping m = js_or (get v "model_mapping") (VStr "") ∧
    initialStatusCodeMapping m = js_or (get v "status_code_mapping") (VStr "") ∧ batch m = (multi_key d).1.
Proof.
  unfold show_channel. destruct (multi_key d) as [multi mode]. intros (names & Hn & [= <-])%res_bind_Ok.
  exists names. split; [done|]. by destruct m0.
Qed.

Lemma nonblank_models_parts l : nonblank_models (VStr <$> l) = Ok (names_of l).
Proof.
  unfold nonblank_models.
  assert (res_map trimmed_or_empty (VStr <$> l) = Ok (trim <$> l)) as ->; [|done].
  induction l as [|p l IH]; [done|]. cbn.
  assert (trimmed_or_empty (VStr p) = Ok (trim p)) as ->.
  { unfold trimmed_or_empty, js_or. cbn. by case_bool_decide; subst. }
  cbn. change (list_fmap _ _ VStr l) with (VStr <$> l). by rewrite IH.
Qed.

(** Nothing is risky in a mapping that was loaded. *)
Lemma collectNew_loaded v :
  Guard.collectNewDisallowedStatusCodeRedirects (js_or v (VStr "")) v = [].
Proof.
  unfold Guard.collectNewDisallowedStatusCodeRedirects. case_bool_decide as Hb; [done|].
  assert (js_or v (VStr "") = v) as ->.
  { unfold js_or. destruct (truthy v) eqn:E; [done|]. destruct Hb.
    destruct v as [| |b|n|t| |]; try done. cbn in E. by case_bool_decide; subst. }
  apply elem_of_nil_inv. intros x. rewrite list_elem_of_filter, elem_of_uniq. tauto.
Qed.

Lemma to_str_strs l : to_str (strs l) = Ok (join "," l).
Proof.
  unfold strs. cbn. change (list_fmap _ _ VStr l) with (VStr <$> l).
  enough (∀ l, (fix go (l : list jsval) := match l with
      | [] => Ok []
      | x :: l => p ← (match x with VUndef | VNull => Ok "" | _ => to_str x end); ps ← go l; Ok (p :: ps)
      end) (VStr <$> l) = Ok l) as -> by done.
  clear l. intros l. induction l as [|x l IH]; [done|]. cbn in *. by rewrite IH.
Qed.

Lemma same_flag_or x : same_flag (js_or x (VBool false)) x.
Proof. unfold same_flag, js_or. by destruct x as [| |[]|n|t| |]; cbn; try done; case_match. Qed.

Lemma same_flag_bool x : same_flag (VBool (is_true x)) x.
Proof. unfold same_flag. by destruct x as [| |[]|n|t| |]. Qed.

(** The flags of the form are those of the stored settings. *)
Lemma fields_flags s fields :
  settings_fields (VObj s) = Ok fields → flags_read fields s.
Proof.
  intros Hf. unfold settings_fields, upstream_fields in Hf. apply res_bind_Ok in Hf as (u & Hu & [= <-]).
  apply res_bind_Ok in Hu as (x & _ & Hu). apply res_bind_Ok in Hu as (y & _ & [= <-]). split.
  - exact (same_flag_bool (get s "openrouter_enterprise")).
  - repeat (apply Forall_cons; split); [first [exact (same_flag_or (get s _))|exact (same_flag_bool (get s _))]..|].
    by apply Forall_nil.
Qed.

Lemma flags_read_ext o fields s :
  (∀ k, k ∈ settings_keys → get o k = get fields k) → flags_read fields s → flags_read o s.
Proof.
  intros Heq [H1 H2]. split; [|clear H1].
  - rewrite Heq; [done|]. unfold settings_keys. in_list.
  - repeat (apply Forall_cons in H2 as [? H2]; apply Forall_cons; split;
      [rewrite Heq by (unfold settings_keys; in_list); done|]). by apply Forall_nil.
Qed.

(** The checks pass for the loaded values, and the key is dropped. *)
Lemma check_loaded m v x l parts mapping :
  isEdit m = true → useManualInput m = false → vertexKeys m = [] → vertexFileList m = [] → inputs m = v →
  truthy (get v "key") = false → (has_type 57 v = true → batch m = false) →
  get v "models" = VArr (x :: l) → nonblank_models (x :: l) = Ok parts →
  (has_type 45 v = true → blank (get v "base_url") = Ok false) → check_mapping v = Go mapping →
  ∃ o, check_inputs m v = Go (o, parts, mapping) ∧ get o "key" = VUndef ∧
    ∀ k, k ∉ ["key"; "vertex_files"] → get o k = get v k.
Proof.
  intros He Hman Hvk Hvf Hin Hkey H57 Hmod Hnames H45 Hmap.
  set (o1 := obj_set "param_override" (get (inputs m) "param_override") v).
  assert (H1 : ∀ k, get o1 k = get v k).
  { intros k. subst o1. rewrite get_set, Hin by done. by case_decide; subst. }
  assert (∃ o2, check_vertex m o1 = Go o2 ∧ truthy (get o2 "key") = false ∧ ∀ k, k ≠ "key" → get o2 k = get v k)
    as (o2 & Hv2 & Hk2 & H2).
  { unfold check_vertex. destruct (has_type 41 o1); [|by exists o1; rewrite H1].
    destruct (is_str "api_key" _); [rewrite He; by exists o1; rewrite H1|].
    rewrite Hman. unfold uploaded_keys. rewrite Hvk, Hvf. cbn. rewrite He. exists (obj_delete "key" o1).
    split_and!; [done|by rewrite get_delete, decide_True|]. intros k Hk. by rewrite get_delete, decide_False, H1. }
  exists (obj_delete "vertex_files" (obj_delete "key" o2)). split_and!.
  2: { rewrite get_delete, decide_False, get_delete, decide_True by done. done. }
  2: { intros k Hk. rewrite !get_delete, !decide_False by set_solver. apply H2. set_solver. }
  unfold check_inputs. change (obj_set "param_override" _ v) with o1.
  assert (check_codex m o1 = Go o1) as ->.
  { unfold check_codex, has_type in *. rewrite !H1. destruct (is_num 57 (get v "type")); [|done]. rewrite H57 by done.
    cbn [negb require mbind chk_bind]. unfold trimmed_or_empty, js_or. rewrite Hkey. cbn. by rewrite He. }
  cbn [mbind chk_bind]. rewrite Hv2. cbn [mbind chk_bind].
  assert (check_key m o2 = Go (obj_delete "vertex_files" (obj_delete "key" o2))) as ->.
  { unfold check_key, blank. by rewrite He, Hk2. }
  cbn [mbind chk_bind]. set (o3 := obj_delete "vertex_files" _).
  assert (H3 : ∀ k, k ∉ ["key"; "vertex_files"] → get o3 k = get v k).
  { intros k Hk. subst o3. rewrite !get_delete, !decide_False by set_solver. apply H2. set_solver. }
  assert (check_fields m o3 = Go (x :: l)) as ->.
  { unfold check_fields. rewrite He. cbn [require orb mbind chk_bind]. rewrite H3, Hmod by set_solver.
    unfold has_type in *. rewrite !H3 by set_solver. destruct (is_num 45 _); [|done]. by rewrite H45. }
  cbn [mbind chk_bind]. unfold check_mapping in *. rewrite H3 by set_solver. rewrite Hmap.
  cbn [mbind chk_bind]. by rewrite Hnames.
Qed.

(** The address without a slash at its end. *)
Definition without_slash (u : string) : string := if ends_with "/" u then drop_last_char u else u.

(** The channel built from the loaded values. *)
Lemma build_loaded o s names groups u ig :
  get o "base_url" = VStr u → parsed_settings (get o "settings") = VObj s →
  get o "upstream_model_update_ignored_models" = VStr ig → get o "groups" = strs groups →
  ∃ o' ignored,
    (∀ k, get o' k = if decide (k = "base_url") then VStr (without_slash u)
                     else if decide (k = "other" ∧ has_type 18 o && is_str "" (get o "other") = true) then VStr "v2.1"
                     else get o k) ∧
    build_channel o names
    = Ok (channel_fields o' (VObj (upstream_settings o' ignored (type_settings o' s))) names
            (VStr (join "," groups))).
Proof.
  intros Hu Hs Hig Hg. unfold build_channel.
  assert (strip_slash (get o "base_url") = Ok (VStr (without_slash u))) as ->.
  { rewrite Hu. unfold strip_slash, without_slash. cbn [truthy]. case_bool_decide; [by subst|]. cbn. by case_match. }
  cbn [mbind res_bind]. set (o' := prepare_fields (VStr (without_slash u)) o).
  assert (H' : ∀ k, get o' k = if decide (k = "base_url") then VStr (without_slash u)
      else if decide (k = "other" ∧ has_type 18 o && is_str "" (get o "other") = true) then VStr "v2.1" else get o k).
  { intros k. unfold o', prepare_fields. set (o1 := set_if _ _ _ o).
    assert (H1 : ∀ k, get o1 k = if decide (k = "base_url") then VStr (without_slash u) else get o k).
    { intros k'. unfold o1. rewrite get_set_if, Hu by done. cbn [truthy]. case_bool_decide as Hne; cbn [negb].
      - rewrite decide_False by naive_solver. case_decide; [by subst; rewrite Hu|done].
      - repeat case_decide; naive_solver. }
    unfold has_type. rewrite get_set_if, !H1, !(decide_False (P := _ = "base_url")) by done.
    fold (has_type 18 o). repeat case_decide; naive_solver. }
  exists o', (uniq (filter (λ s, s ≠ "") (trim <$> split_on "," ig))). split; [done|].
  unfold build_settings, ignored_models.
  rewrite !H', !(decide_False (P := _ = "base_url")), !(decide_False (P := _ ∧ _)), Hig, Hs, Hg by naive_solver.
  assert (to_str (js_or (VStr ig) (VStr "")) = Ok ig) as ->.
  { unfold js_or. cbn. by case_bool_decide; subst. }
  cbn [mbind res_bind]. unfold joined_groups, js_or. cbn [truthy strs].
  change (VArr (VStr <$> groups)) with (strs groups). by rewrite to_str_strs.
Qed.

Lemma js_or_twice x d : js_or (js_or x d) d = js_or x d.
Proof. unfold js_or. destruct (truthy x) eqn:E; [by rewrite E|]. by destruct (truthy d). Qed.

Lemma has_type_ext o o' z : get o' "type" = get o "type" → has_type z o' = has_type z o.
Proof. unfold has_type. by intros ->. Qed.

Lemma managed_keys_ext o o' : get o' "type" = get o "type" → managed_keys o' = managed_keys o.
Proof. intros H. unfold managed_keys. by rewrite !(has_type_ext o o') by done. Qed.

(** The values of the form after loading. *)
Lemma loaded_get d s1 s v parts groups fields k :
  settings_fields (VObj s) = Ok fields →
  (∀ k, get v k = default (get d k) (obj_get (loaded_fields d s1 parts groups fields) k)) →
  (k ∉ loaded_keys → get v k = get d k) ∧ (k ∈ settings_keys → get v k = get fields k) ∧
  (get v "models" = strs parts ∧ get v "groups" = strs groups ∧
   get v "model_mapping" = VStr (shown_mapping d) ∧ get v "base_url" = VStr (shown_url d)) ∧
  (k ∈ obj_keys (setting_fields VUndef) → get v k = get (setting_fields (VObj s1)) k).
Proof.
  intros Hf Hv. pose proof (settings_fields_keys _ _ Hf) as Hkeys.
  assert (Hnone : ∀ k, k ∉ settings_keys → obj_get fields k = None).
  { intros k' Hk'. apply obj_get_None. unfold obj_keys. by rewrite Hkeys. }
  assert (Hrest : ∀ k, k ∉ settings_keys → get v k = default (get d k) (obj_get (setting_fields (VObj s1) ++
    (if (multi_key d).1 then [("multi_key_mode", (multi_key d).2)] else []) ++
    [("groups", strs groups); ("models", strs parts); ("model_mapping", VStr (shown_mapping d));
     ("base_url", VStr (shown_url d))]) k)).
  { intros k' Hk'. rewrite Hv. unfold loaded_fields. by rewrite obj_get_app, Hnone. }
  split_and!.
  - intros Hk. rewrite Hv, (loaded_fields_frame d s1 s); done.
  - intros Hk. rewrite Hv. unfold loaded_fields, get. rewrite obj_get_app.
    destruct (obj_get fields k) as [x|] eqn:E; [done|]. apply obj_get_None in E. unfold obj_keys in E.
    by rewrite Hkeys in E.
  - rewrite Hrest by (by apply (bool_decide_eq_false_1 _)). by destruct (multi_key d) as [[] ?].
  - rewrite Hrest by (by apply (bool_decide_eq_false_1 _)). by destruct (multi_key d) as [[] ?].
  - rewrite Hrest by (by apply (bool_decide_eq_false_1 _)). by destruct (multi_key d) as [[] ?].
  - rewrite Hrest by (by apply (bool_decide_eq_false_1 _)). by destruct (multi_key d) as [[] ?].
  - intros Hk. assert (k ∉ settings_keys) as Hk'.
    { intros Hin. assert (Forall (λ k, k ∉ settings_keys) (obj_keys (setting_fields VUndef))) as HF
        by (by apply (bool_decide_eq_true_1 _)). rewrite Forall_forall in HF. by apply (HF k). }
    rewrite Hrest, obj_get_app by done. unfold get.
    destruct (obj_get (setting_fields (VObj s1)) k) eqn:E; [done|]. by apply obj_get_None in E.
Qed.

(** Loading a stored channel succeeds. *)
Lemma load_channel_stored d s1 s m0 :
  stored d s1 s →
  ∃ m v parts groups fields, loadChannel getChannelModels (Loaded d) m0 = Ok m ∧
    settings_fields (VObj s) = Ok fields ∧
    parts = split_on "," (text_in d "models") ∧
    get d "group" = VStr (join "," groups) ∧
    (∀ k, get v k = default (get d k) (obj_get (loaded_fields d s1 parts groups fields) k)) ∧
    inputs m = v ∧ channelId m = channelId m0 ∧ useManualInput m = useManualInput m0 ∧
    vertexKeys m = vertexKeys m0 ∧ vertexFileList m = vertexFileList m0 ∧ initialModels m = names_of parts ∧
    initialModelMapping m = js_or (get v "model_mapping") (VStr "") ∧
    initialStatusCodeMapping m = js_or (get v "status_code_mapping") (VStr "") ∧ batch m = (multi_key d).1.
Proof.
  intros Hd. destruct (load_stored _ _ _ Hd)
    as (v & parts & groups & fields & Hload & Hf & (t & Ht & Hparts & _) & (g & Hg & Hgj) & Hv).
  pose proof (nonblank_models_parts parts) as Hnb.
  destruct (loaded_get d s1 s v parts groups fields "models" Hf Hv) as (_ & _ & (Hm & _) & _).
  unfold loadChannel. rewrite Hload. cbn [mbind res_bind]. set (m1 := emit _ _).
  destruct (show_channel getChannelModels d v m1) as [m|e] eqn:Hs.
  2: { unfold show_channel in Hs. rewrite Hm in Hs. cbn [strs] in Hs. rewrite Hnb in Hs.
       by destruct (multi_key d). }
  apply show_channel_state in Hs as (names & Hn & H1 & H2 & H3 & H4 & H5 & H6 & H7 & H8 & H9).
  rewrite Hm in Hn. cbn [strs] in Hn. rewrite Hnb in Hn. simplify_eq.
  exists (setLoading false m), (inputs m), (split_on "," t), groups, fields. cbn [mbind res_bind].
  split_and!; try done; [unfold text_in; by rewrite Ht|..]; by destruct m, m0.
Qed.

(** The stored mapping is accepted. *)
Lemma check_mapping_stored d s1 s o :
  stored d s1 s → get o "model_mapping" = VStr (shown_mapping d) → ∃ mapping, check_mapping o = Go mapping.
Proof.
  intros Hd E. unfold check_mapping. rewrite E. unfold shown_mapping, text_in.
  destruct (st_mapping _ _ _ Hd) as (t & -> & [->|(x & -> & Hx)]).
  - by exists VNull.
  - case_bool_decide; [by exists VNull|]. rewrite json_parse_stringify2 by done. by exists x.
Qed.

(** Models and mapping that were loaded are unchanged. *)
Lemma unchanged_config m v : initialModelMapping m = js_or v (VStr "") →
  (∃ s, v = VStr s) → isEdit m = true → hasModelConfigChanged m (initialModels m) v = Ok false.
Proof.
  intros Hi [s ->] He. unfold hasModelConfigChanged. rewrite He, Hi, bool_decide_true by done. cbn [negb].
  assert (trimmed_or_empty (js_or (VStr s) (VStr "")) = trimmed_or_empty (VStr s)) as ->.
  { unfold trimmed_or_empty. by rewrite js_or_twice. }
  assert (trimmed_or_empty (VStr s) = Ok (trim s)) as ->.
  { unfold trimmed_or_empty, js_or. cbn [truthy]. by case_bool_decide; subst. }
  cbn. by rewrite bool_decide_true.
Qed.

Lemma extra_settings_loaded o s1 :
  (∀ k, k ∈ obj_keys (setting_fields VUndef) → get o k = get (setting_fields (VObj s1)) k) →
  channelExtraSettings o = setting_fields (VObj s1).
Proof.
  intros H. unfold channelExtraSettings.
  rewrite !H by (unfold setting_fields, obj_keys; cbn; in_list).
  repeat (apply (f_equal2 cons); [exact (f_equal (pair _) (js_or_twice (prop_opt (VObj s1) _) _))|]). done.
Qed.

(** Fields that are not compared by [reload_submit]. *)
Definition converted_fields : list string :=
  internal_fields ++ ["key"; "vertex_files"; "groups"; "setting"; "settings"; "auto_verify";
    "azure_responses_version"; "multi_key_mode"].

(** What is sent for the stored channel [d]: [c] with the settings [s'].  The
    names of the models lose their blanks, the mapping is indented, the
    address gets its default (type 45) and loses a slash at its end, a blank
    version of type 18 becomes v2.1, the ban is 1 or 0; every other field is
    the stored one.  The [setting] has the stored values; the [settings]
    differ at most in keys the form manages, with the same flags, where the
    synchronisation is on only together with the check; no key is sent. *)
Record resent (d s1 s c s' : obj) : Prop := {
  rs_fields : related eq (["models"; "model_mapping"; "base_url"; "other"; "auto_ban"] ++ converted_fields) c d;
  rs_models : get c "models" = VStr (join "," (names_of (split_on "," (text_in d "models"))));
  rs_mapping : get c "model_mapping" = VStr (shown_mapping d);
  rs_url : get c "base_url" = VStr (without_slash (shown_url d));
  rs_version : get c "other" = if has_type 18 d && is_str "" (get d "other") then VStr "v2.1" else get d "other";
  rs_ban : get c "auto_ban" = bit (get d "auto_ban");
  rs_key : get c "key" = VUndef;
  rs_setting : get c "setting" = VStr (stringify (VObj (setting_fields (VObj s1))));
  rs_settings : get c "settings" = VStr (stringify (VObj s'));
  rs_other : related eq (managed_keys d) s' s;
  rs_flags : related same_flag loose_keys s' s;
  rs_sync : get s' "upstream_model_update_auto_sync_enabled"
            = VBool (is_true (get s "upstream_model_update_check_enabled")
                     && is_true (get s "upstream_model_update_auto_sync_enabled")) }.

Lemma ignored_text s fields : settings_fields (VObj s) = Ok fields →
  ∃ ig, get fields "upstream_model_update_ignored_models" = VStr ig.
Proof.
  intros Hf. unfold settings_fields, upstream_fields in Hf. apply res_bind_Ok in Hf as (u & Hu & [= <-]).
  apply res_bind_Ok in Hu as (x & _ & Hu). apply res_bind_Ok in Hu as (y & Hy & [= <-]).
  enough (∃ ig, y = VStr ig) as [ig ->] by (by exists ig). unfold joined_models in Hy.
  destruct (prop_opt (VObj s) _); simplify_eq; try by eexists. apply res_bind_Ok in Hy as (t & _ & [= <-]). by exists t.
Qed.

Lemma settings_not_url k : k ∈ settings_keys → k ∉ ["base_url"; "other"].
Proof.
  assert (Forall (λ k, k ∉ ["base_url"; "other"]) settings_keys) as HF by (by apply (bool_decide_eq_true_1 _)).
  rewrite Forall_forall in HF. apply HF.
Qed.

Lemma setting_not_url k : k ∈ obj_keys (setting_fields VUndef) → k ∉ ["base_url"; "other"].
Proof.
  assert (Forall (λ k, k ∉ ["base_url"; "other"]) (obj_keys (setting_fields VUndef))) as HF
    by (by apply (bool_decide_eq_true_1 _)).
  rewrite Forall_forall in HF. apply HF.
Qed.

(** What loading writes is compared apart. *)
Lemma loaded_converted k : k ∈ loaded_keys ++ ["key"; "vertex_files"] →
  k ∈ ["models"; "model_mapping"; "base_url"; "other"; "auto_ban"] ++ converted_fields.
Proof.
  assert (Forall (λ k, k ∈ ["models"; "model_mapping"; "base_url"; "other"; "auto_ban"] ++ converted_fields)
    (loaded_keys ++ ["key"; "vertex_files"])) as HF by (by apply (bool_decide_eq_true_1 _)).
  rewrite Forall_forall in HF. apply HF.
Qed.

Section built.
Context (d s1 s v : obj) (parts groups : list string) (fields o : obj).
Hypothesis Hd : stored d s1 s.
Hypothesis Hf : settings_fields (VObj s) = Ok fields.
Hypothesis Hv : ∀ k, get v k = default (get d k) (obj_get (loaded_fields d s1 parts groups fields) k).
Hypothesis Ho : ∀ k, k ∉ ["key"; "vertex_files"] → get o k = get v k.

Lemma built_get k : k ∉ loaded_keys → k ∉ ["key"; "vertex_files"] → get o k = get d k.
Proof. intros H1 H2. rewrite Ho by done. by apply (loaded_get d s1 s v parts groups fields k Hf Hv). Qed.

Lemma built_settings k : k ∈ settings_keys → get o k = get fields k.
Proof.
  intros Hk. rewrite Ho; [by apply (loaded_get d s1 s v parts groups fields k Hf Hv)|].
  intros Hin. assert (Forall (λ k, k ∉ settings_keys) ["key"; "vertex_files"]) as HF
    by (by apply (bool_decide_eq_true_1 _)). rewrite Forall_forall in HF. by apply (HF k).
Qed.

Lemma built_setting k : k ∈ obj_keys (setting_fields VUndef) → get o k = get (setting_fields (VObj s1)) k.
Proof.
  intros Hk. rewrite Ho; [by apply (loaded_get d s1 s v parts groups fields k Hf Hv)|].
  intros Hin. assert (Forall (λ k, k ∉ obj_keys (setting_fields VUndef)) ["key"; "vertex_files"]) as HF
    by (by apply (bool_decide_eq_true_1 _)). rewrite Forall_forall in HF. by apply (HF k).
Qed.

(** Fields of the channel that is sent, in terms of the values [o']. *)
Lemma sent_get o' settings names k : k ∉ converted_fields →
  get (channel_fields o' settings names (VStr (join "," groups))) k
  = if decide (k = "auto_ban") then bit (get o' k)
    else if decide (k = "models") then VStr (join "," names)
    else if decide (k = "group") then VStr (join "," groups) else get o' k.
Proof.
  intros Hk. unfold converted_fields in Hk. apply not_elem_of_app in Hk as [Hk1 Hk2].
  rewrite get_channel_fields, decide_False by done. rewrite !not_elem_of_cons in Hk2.
  destruct Hk2 as (?&?&?&?&?&?&?&?&_). unfold sent_fields. cbn [obj_get].
  by repeat case_decide; subst.
Qed.

Lemma built_channel :
  parts = split_on "," (text_in d "models") → get d "group" = VStr (join "," groups) → get o "key" = VUndef →
  ∃ c s', build_channel o (names_of parts) = Ok c ∧ resent d s1 s c s'.
Proof.
  intros Hparts Hg Hkey. destruct (loaded_get d s1 s v parts groups fields "type" Hf Hv) as (_ & _ & (_ & Hgr & Hmp & Hur) & _).
  destruct (st_settings _ _ _ Hd) as (ts & Hts & Hps). destruct (ignored_text s fields Hf) as [ig Hig].
  assert (Htype : get o "type" = get d "type") by (apply built_get; by apply (bool_decide_eq_false_1 _)).
  assert (Hother : get o "other" = get d "other") by (apply built_get; by apply (bool_decide_eq_false_1 _)).
  destruct (build_loaded o s (names_of parts) groups (shown_url d) ig) as (o' & ignored & Ho' & Hb).
  - rewrite Ho by (by apply (bool_decide_eq_false_1 _)). done.
  - rewrite built_get, Hts by (by apply (bool_decide_eq_false_1 _)). unfold parsed_settings.
    destruct (parse_text_truthy _ _ Hps) as [-> ->]. done.
  - rewrite built_settings; [done|]. by apply (bool_decide_eq_true_1 _).
  - rewrite Ho by (by apply (bool_decide_eq_false_1 _)). done.
  - rewrite (has_type_ext d o), Hother in Ho' by done.
    assert (Hk' : ∀ k, k ∉ ["base_url"; "other"] → get o' k = get o k).
    { intros k Hk. rewrite Ho', !decide_False by set_solver. done. }
    set (s' := upstream_settings o' ignored (type_settings o' s)) in Hb.
    exists (channel_fields o' (VObj s') (names_of parts) (VStr (join "," groups))), s'. split; [done|].
    assert (flags_read o' s) as Hflags.
    { apply (flags_read_ext _ fields); [|by apply fields_flags].
      intros k Hk. rewrite Hk'; [by apply built_settings|]. by eapply settings_not_url. }
    assert (get o' "type" = get d "type") as Htype' by (by rewrite Hk' by (by apply (bool_decide_eq_false_1 _))).
    split.
    + intros k [Hk1 Hk]%not_elem_of_app. rewrite sent_get by done. rewrite !not_elem_of_cons in Hk1.
      destruct Hk1 as (?&?&?&?&?&_). rewrite !decide_False by done. destruct (decide (k = "group")) as [->|]; [by rewrite Hg|].
      rewrite Hk' by set_solver. assert (k ∉ loaded_keys ++ ["key"; "vertex_files"]) as [? ?]%not_elem_of_app.
      { intros Hin%loaded_converted. set_solver. }
      by apply built_get.
    + rewrite sent_get, decide_False, decide_True by (done || by apply (bool_decide_eq_false_1 _)). by rewrite Hparts.
    + rewrite sent_get, !decide_False by (done || by apply (bool_decide_eq_false_1 _)).
      rewrite Hk', Ho by (by apply (bool_decide_eq_false_1 _)). done.
    + rewrite sent_get, !decide_False by (done || by apply (bool_decide_eq_false_1 _)). rewrite Ho'.
      by rewrite decide_True.
    + rewrite sent_get, !decide_False by (done || by apply (bool_decide_eq_false_1 _)). rewrite Ho'.
      rewrite decide_False by done. destruct (has_type 18 d && is_str "" (get d "other")).
      * by rewrite decide_True.
      * by rewrite decide_False by naive_solver.
    + rewrite sent_get, decide_True by (done || by apply (bool_decide_eq_false_1 _)).
      rewrite Hk', built_get by (by apply (bool_decide_eq_false_1 _)). done.
    + rewrite get_channel_fields, decide_False by (by apply (bool_decide_eq_false_1 _)). cbn.
      rewrite Hk' by (by apply (bool_decide_eq_false_1 _)). done.
    + rewrite get_channel_fields, decide_False by (by apply (bool_decide_eq_false_1 _)). cbn [sent_fields obj_get].
      rewrite !decide_False, decide_True by done. rewrite (extra_settings_loaded o' s1); [done|].
      intros k Hk. rewrite Hk'; [by apply built_setting|]. by eapply setting_not_url.
    + rewrite get_channel_fields, decide_False by (by apply (bool_decide_eq_false_1 _)). done.
    + rewrite <-(managed_keys_ext d o') by done. apply settings_frame.
    + apply upstream_flags; [done|]. by apply type_flags.
    + by apply upstream_sync.
Qed.
End built.

Lemma shown_url_filled d : has_type 45 d = true → blank (VStr (shown_url d)) = Ok false.
Proof.
  intros H45. unfold shown_url. rewrite H45. cbn [andb]. set (u := text_in d "base_url").
  destruct (bool_decide (trim u = "")) eqn:E; [by vm_compute|]. apply bool_decide_eq_false in E.
  unfold blank. cbn [truthy]. rewrite bool_decide_false by (intros E0; by rewrite E0 in E).
  cbn. by rewrite bool_decide_false.
Qed.

(** Nothing is asked about values that were just loaded. *)
Lemma submit_loaded m v a o parts mapping c :
  check_inputs m v = Go (o, parts, mapping) → isEdit m = true → initialModels m = parts →
  (∃ s, get o "model_mapping" = VStr s) → initialModelMapping m = js_or (get o "model_mapping") (VStr "") →
  initialStatusCodeMapping m = js_or (get o "status_code_mapping") (VStr "") →
  Guard.collectInvalidStatusCodeEntries (get o "status_code_mapping") = Ok [] →
  build_channel o parts = Ok c →
  submit m v a = request_of m c :: after_reply m (on_send a).
Proof.
  intros Hc He Hp Hms Hm Hs Hcodes Hb.
  assert (send_channel m a o parts = request_of m c :: after_reply m (on_send a)) as Hsend.
  { unfold send_channel. rewrite Hcodes. cbn [lift run_chk]. by rewrite Hs, collectNew_loaded, Hb. }
  unfold submit. rewrite Hc. cbn [run_chk]. destruct (missing_models mapping parts); [done|].
  rewrite <-Hp, (unchanged_config m (get o "model_mapping")) by done. cbn [lift run_chk]. by rewrite Hp.
Qed.

(** C16.  Opening a stored channel and submitting it unchanged sends the
    channel back: nothing is asked, exactly one request is made, and it
    carries the stored channel up to the corrections the form makes (see
    [resent]): names of models without blanks, an indented mapping, an address
    with the default of its type and without a slash at the end, the version
    of a type 18 channel, the ban as 1 or 0.  Every other field is the stored
    one, the key is left alone, the [setting] has the stored values, and the
    [settings] keep every key the form does not manage and every flag it does;
    only the synchronisation is dropped when the check is off.  The channel
    is one the service answers (see [stored]): it has a model, its mapping is
    blank or JSON, its status codes are valid, both settings are texts of
    objects, its key is not told, and a Codex channel has one key; the form
    has no uploaded key files. *)
Theorem reload_submit (d s1 s : obj) (m0 : modal) (a : answers) :
  stored d s1 s → isEdit m0 = true → useManualInput m0 = false → vertexKeys m0 = [] → vertexFileList m0 = [] →
  ∃ m c s', loadChannel getChannelModels (Loaded d) m0 = Ok m ∧
    submit m (inputs m) a = request_of m c :: after_reply m (on_send a) ∧ resent d s1 s c s'.
Proof.
  intros Hd He Hman Hvk Hvf. destruct (load_channel_stored d s1 s m0 Hd)
    as (m & v & parts & groups & fields & Hload & Hf & Hparts & Hg & Hv & Hin & Hid & Hum & Hk & Hl & Hinit & Him & His & Hbat).
  assert (Hget : ∀ k, k ∉ loaded_keys → get v k = get d k).
  { intros k Hk'. by apply (loaded_get d s1 s v parts groups fields k Hf Hv). }
  destruct (loaded_get d s1 s v parts groups fields "models" Hf Hv) as (_ & _ & (Hmodels & _ & Hmp & Hur) & _).
  assert (Htype : get v "type" = get d "type") by (apply Hget; by apply (bool_decide_eq_false_1 _)).
  destruct (check_mapping_stored d s1 s v Hd) as [mapping Hmap]; [done|].
  assert (∃ x l, VStr <$> parts = x :: l) as (x & l & Hxl).
  { rewrite Hparts. destruct (split_on "," (text_in d "models")) eqn:E; [by destruct (split_on_nonempty _ _ E)|]. cbn. eauto. }
  assert (isEdit m = true) as He' by (unfold isEdit in *; by rewrite Hid).
  pose proof (nonblank_models_parts parts) as Hnb.
  unfold strs in Hmodels. rewrite Hxl in Hmodels, Hnb.
  destruct (check_loaded m v x l (names_of parts) mapping) as (o & Hc & Hkey & Ho); try congruence.
  - rewrite Hget by (by apply (bool_decide_eq_false_1 _)). apply Hd.
  - rewrite (has_type_ext d v) by done. rewrite Hbat. apply Hd.
  - rewrite (has_type_ext d v), Hur by done. intros H45. by apply shown_url_filled.
  - destruct (built_channel d s1 s v parts groups fields o Hd Hf Hv Ho) as (c & s' & Hb & Hres); try done.
    exists m, c, s'. split_and!; [done| |done]. rewrite Hin.
    apply (submit_loaded m v a o (names_of parts) mapping c); try done.
    + rewrite Ho by (by apply (bool_decide_eq_false_1 _)). rewrite Hmp. eauto.
    + by rewrite Him, Ho by (by apply (bool_decide_eq_false_1 _)).
    + by rewrite His, Ho by (by apply (bool_decide_eq_false_1 _)).
    + rewrite Ho, Hget by (by apply (bool_decide_eq_false_1 _)). apply Hd.
Qed.
End reload.

(** ** Example *)

(** An OpenAI channel with a flag, an unknown setting and a proxy. *)
Definition sample_setting : obj := [("proxy", VStr "socks5://p")].
Definition sample_settings : obj := [("disable_store", VBool true); ("custom", VStr "x")].
Definition sample_stored : obj :=
  [("id", VNum (num_of_Z 7)); ("type", one); ("name", VStr "c"); ("key", VStr ""); ("models", VStr "gpt-4o,gpt-4");
   ("group", VStr "default,vip"); ("base_url", VStr "https://x.io/"); ("other", VStr "");
   ("model_mapping", VStr (qtext "{'a':'b'}")); ("status_code_mapping", VStr ""); ("auto_ban", one);
   ("setting", VStr (qtext "{'proxy':'socks5://p'}"));
   ("settings", VStr (qtext "{'disable_store':true,'custom':'x'}"))].

Lemma sample_stored_ok : stored sample_stored sample_setting sample_settings.
Proof.
  split.
  - by eexists.
  - by eexists.
  - eexists. split; [reflexivity|]. right. exists (VObj [("a", VStr "b")]). split; vm_compute; reflexivity.
  - reflexivity.
  - intros H. vm_compute in H. discriminate.
  - by eexists.
  - vm_compute. reflexivity.
  - eexists. split; [reflexivity|]. vm_compute. reflexivity.
  - eexists. split; [reflexivity|]. vm_compute. reflexivity.
  - vm_compute. reflexivity.
Qed.

Lemma reload_submit_witness :
  ∃ m c s', loadChannel (λ _, VArr []) (Loaded sample_stored) edit_form = Ok m ∧
    submit m (inputs m) sample_answers = request_of m c :: after_reply m (on_send sample_answers) ∧
    resent sample_stored sample_setting sample_settings c s'.
Proof.
  exact (reload_submit (λ _, VArr []) sample_stored sample_setting sample_settings edit_form sample_answers
    sample_stored_ok eq_refl eq_refl eq_refl eq_refl).
Defined.
