(* ===== verification/Render.v ===== *)
(** * Numbers, amounts and colours on the screen

    The formatting helpers of [web/src/helpers/render.jsx]: numbers with a
    unit, quota and money in the chosen currency, and the colours of models
    and texts.  The local storage is an argument; numbers are binary64, an
    argument that is [undefined] is [NaN]. *)
From Stdlib Require Import Ascii SpecFloat.
From S2P Require Import Prelude JsString JsNumber JsValue Json.
Local Open Scope Z_scope.

Definition num_gtb (a b : num) : bool := num_ltb b a.
Definition num_sub (a b : num) : num := num_add a (num_opp b).
Definition is_nan (n : num) : bool := match n with S754_nan => true | _ => false end.

(** ** Colours *)

(** The UTF-16 code units of a text, from its UTF-8 bytes. *)
Fixpoint utf16 (s : list ascii) : list Z :=
  let low c := Z.of_N (N_of_ascii c) mod 64 in
  match s with
  | [] => []
  | c :: s1 =>
      let b := Z.of_N (N_of_ascii c) in
      if b <? 128 then b :: utf16 s1
      else match s1 with
           | [] => []
           | c1 :: s2 =>
               if b <? 224 then (b mod 32 * 64 + low c1) :: utf16 s2
               else match s2 with
                    | [] => []
                    | c2 :: s3 =>
                        if b <? 240 then (b mod 16 * 4096 + low c1 * 64 + low c2) :: utf16 s3
                        else match s3 with
                             | [] => []
                             | c3 :: s4 =>
                                 let p := b mod 8 * 262144 + low c1 * 4096 + low c2 * 64 + low c3 - 65536 in
                                 (55296 + p / 1024) :: (56320 + p mod 1024) :: utf16 s4
                             end
                    end
           end
  end.

(** Two's complement wrap-around of the bit operations. *)
Definition int32 (z : Z) : Z := (z + 2 ^ 31) mod 2 ^ 32 - 2 ^ 31.

(** One round of the hash: [hash = (hash << 5) - hash + unit; hash & hash]. *)
Definition hash_step (hash unit : Z) : Z := int32 (int32 (Z.shiftl hash 5) - hash + unit).

Definition baseColors : list string :=
  ["#2e3a48"; "#3a4d5e"; "#4a5c6e"; "#6b7f8f"; "#8fa0ae"; "#7a919f"; "#9db0bc"; "#b3c2cc"; "#c2d0d8"; "#587082"].
Definition extendedColors : list string :=
  ["#1c2630"; "#d0dce4"; "#3a4d5e"; "#c2d0d8"; "#6b7f8f"; "#b3c2cc"; "#4a5c6e"; "#9db0bc"; "#2e3a48"; "#8fa0ae";
   "#587082"; "#e0e8ed"; "#7a919f"; "#ccd8e0"; "#354858"; "#85a0a8"; "#4a6575"; "#b8cad2"; "#6580a0"; "#dce6ec"].
Definition colors : list string :=
  ["amber"; "blue"; "cyan"; "green"; "grey"; "indigo"; "light-blue"; "lime"; "orange"; "pink"; "purple"; "red";
   "teal"; "violet"; "yellow"].

Definition modelColorMap : list (string * string) :=
  [("dall-e", "#587082"); ("dall-e-3", "#4a5c6e"); ("gpt-3.5-turbo", "#8fa0ae"); ("gpt-3.5-turbo-0613", "#7a919f");
   ("gpt-3.5-turbo-1106", "#85a0a8"); ("gpt-3.5-turbo-16k", "#9db0bc"); ("gpt-3.5-turbo-16k-0613", "#b3c2cc");
   ("gpt-3.5-turbo-instruct", "#c2d0d8"); ("gpt-4", "#3a4d5e"); ("gpt-4-0613", "#4a6575");
   ("gpt-4-1106-preview", "#354858"); ("gpt-4-0125-preview", "#2e3a48"); ("gpt-4-turbo-preview", "#2e4050");
   ("gpt-4-32k", "#587082"); ("gpt-4-32k-0613", "#4a5c6e"); ("gpt-4-all", "#1c2630"); ("gpt-4-gizmo-*", "#1e3040");
   ("gpt-4-vision-preview", "#152530"); ("text-ada-001", "#d0dce4"); ("text-babbage-001", "#ccd8e0");
   ("text-curie-001", "#b8b8cc"); ("text-davinci-003", "#9db0bc"); ("text-davinci-edit-001", "#8fa0ae");
   ("text-embedding-ada-002", "#e0e0ec"); ("text-embedding-v1", "#eaeaf2"); ("text-moderation-latest", "#c2d0d8");
   ("text-moderation-stable", "#b3c2cc"); ("tts-1", "#6e6e80"); ("tts-1-1106", "#75758a"); ("tts-1-hd", "#7a919f");
   ("tts-1-hd-1106", "#85a0a8"); ("whisper-1", "#ededf5"); ("claude-3-opus-20240229", "#2e3a48");
   ("claude-3-sonnet-20240229", "#4a5c6e"); ("claude-3-haiku-20240307", "#7a919f")].

(** [None] would be [undefined]. *)
Definition modelToColor (modelName : string) : option string :=
  match obj_get modelColorMap modelName with
  | Some c => Some c
  | None =>
      let units := utf16 (chars modelName) in
      let hash := Z.abs (foldl hash_step 0 units) in
      let palette := if 10 <? Z.of_nat (length units) then extendedColors else baseColors in
      palette !! Z.to_nat (hash mod Z.of_nat (length palette))
  end.

Definition stringToColor (str : string) : option string :=
  colors !! Z.to_nat (foldr Z.add 0 (utf16 (chars str)) mod Z.of_nat (length colors)).

(** ** Numbers *)

(** [renderNumber]: small numbers are returned as they are. *)
Definition renderNumber (n : num) : jsval :=
  let scaled d unit := VStr (to_fixed (num_div n (num_of_Z d)) 1 +:+ unit) in
  if num_leb (num_of_Z 1000000000) n then scaled 1000000000 "B"
  else if num_leb (num_of_Z 1000000) n then scaled 1000000 "M"
  else if num_leb (num_of_Z 10000) n then scaled 1000 "k"
  else VNum n.

(** [renderNumberWithPoint] of a number: a long whole part is shortened; the
    text compared with 100000 is the fixed one. *)
Definition renderNumberWithPoint (n : num) : string :=
  let text := to_fixed n 2 in
  if num_leb (num_of_Z 100000) (str_to_num text) then
    let parts := split_on "." text in
    let whole := chars (default "" (head parts)) in
    let decimal := match parts with _ :: d :: _ => "." +:+ d | _ => "" end in
    of_chars (take 2 whole) +:+ ".." +:+ of_chars (drop (length whole - 2) whole) +:+ decimal
  else text.

(** ** Currency *)

Section storage.
Context (storage : gmap string string).

(** [localStorage.getItem('quota_display_type') || 'USD']. *)
Definition getQuotaDisplayType : string :=
  match storage !! "quota_display_type" with Some "" | None => "USD" | Some s => s end.

(** [parseFloat(localStorage.getItem('quota_per_unit'))]; a missing item reads
    as [NaN]. *)
Definition getQuotaPerUnit : num :=
  match storage !! "quota_per_unit" with Some s => parse_float s | None => nan end.

(** [JSON.parse(localStorage.getItem('status'))] inside a [try]; [None] when
    there is none or it is no JSON. *)
Definition status : option jsval :=
  match storage !! "status" with Some "" | None => None | Some s => json_parse s end.

Definition renderUnitWithQuota (quota : string) : num := num_mul getQuotaPerUnit (parse_float quota).

Definition getQuotaWithUnit (quota : num) (digits : nat) : string :=
  to_fixed (num_div quota getQuotaPerUnit) digits.

(** The symbol of the custom currency, with its default. *)
Definition custom_symbol : jsval :=
  match status with
  | Some s => js_or (prop_opt s "custom_currency_symbol") (VStr "¤")
  | None => VStr "¤"
  end.

Record currency := Currency { symbol : jsval; rate : jsval; type : string }.

Definition getCurrencyConfig : currency :=
  let ty := getQuotaDisplayType in
  let one := VNum (num_of_Z 1) in
  if decide (ty = "CNY") then
    Currency (VStr "¥")
      (match status with Some s => js_or (prop_opt s "usd_exchange_rate") (VNum (num_of_Z 7)) | None => one end) ty
  else if decide (ty = "CUSTOM") then
    match status with
    | Some s => Currency custom_symbol (js_or (prop_opt s "custom_currency_exchange_rate") one) ty
    | None => Currency (VStr "$") one ty
    end
  else Currency (VStr "$") one ty.

(** [symbol + text]. *)
Definition with_symbol (sym : jsval) (text : string) : res string := s ← to_str sym; Ok (s +:+ text).

(** [amount * rate]. *)
Definition times_rate (amount : num) (rate : jsval) : res num := r ← to_num rate; Ok (num_mul amount r).

Definition convertUSDToCurrency (usdAmount : num) (digits : nat) : res string :=
  let c := getCurrencyConfig in
  v ← times_rate usdAmount (rate c); with_symbol (symbol c) (to_fixed v digits).

(** [renderQuotaNumberWithDigit]: [0] for what is no number. *)
Definition renderQuotaNumberWithDigit (v : jsval) (digits : nat) : res jsval :=
  match v with
  | VNum n =>
      if is_nan n then Ok (VNum (num_of_Z 0))
      else
        let text := to_fixed n digits in
        let ty := getQuotaDisplayType in
        if decide (ty = "CNY") then Ok (VStr ("¥" +:+ text))
        else if decide (ty = "USD") then Ok (VStr ("$" +:+ text))
        else if decide (ty = "CUSTOM") then s ← with_symbol custom_symbol text; Ok (VStr s)
        else Ok (VStr text)
  | _ => Ok (VNum (num_of_Z 0))
  end.

(** [renderQuotaWithAmount] of a number. *)
Definition renderQuotaWithAmount (amount : num) : res jsval :=
  let ty := getQuotaDisplayType in
  let text := num_to_str amount in
  if decide (ty = "TOKENS") then Ok (renderNumber (renderUnitWithQuota text))
  else if decide (ty = "CNY") then Ok (VStr ("¥" +:+ text))
  else if decide (ty = "CUSTOM") then s ← with_symbol custom_symbol text; Ok (VStr s)
  else Ok (VStr ("$" +:+ text)).

(** [Math.pow(10, -digits)], correctly rounded. *)
Definition min_value (digits : nat) : num := num_of_dec false 1 (- Z.of_nat digits).

(** The symbol and the exchange rate [renderQuota] uses; in dollars the
    amount is not multiplied. *)
Definition quota_currency : jsval * option jsval :=
  let ty := getQuotaDisplayType in
  let one := VNum (num_of_Z 1) in
  let field k := match status with Some s => js_or (prop_opt s k) one | None => one end in
  if decide (ty = "CNY") then (VStr "¥", Some (field "usd_exchange_rate"))
  else if decide (ty = "CUSTOM") then (custom_symbol, Some (field "custom_currency_exchange_rate"))
  else (VStr "$", None).

(** The amount as text: a positive amount that rounds to zero is shown as the
    smallest one. *)
Definition quota_text (quota value : num) (digits : nat) : string :=
  let fixedResult := to_fixed value digits in
  if num_eqb (parse_float fixedResult) (num_of_Z 0) && num_gtb quota (num_of_Z 0) && num_gtb value (num_of_Z 0)
  then to_fixed (min_value digits) digits else fixedResult.

(** The amount [renderQuota] shows. *)
Definition quota_value (quota : num) : res num :=
  let resultUSD := num_div quota getQuotaPerUnit in
  match quota_currency.2 with Some r => times_rate resultUSD r | None => Ok resultUSD end.

Definition renderQuota (quota : num) (digits : nat) : res jsval :=
  if decide (getQuotaDisplayType = "TOKENS") then Ok (renderNumber quota)
  else
    value ← quota_value quota;
    s ← with_symbol quota_currency.1 (quota_text quota value digits); Ok (VStr s).
End storage.

(** ** Properties *)

(** An amount that is not zero is not shown as zero: for a positive
    quota of positive value the text after the symbol reads as a number other
    than zero, however few digits are shown (up to twenty). *)
Theorem quota_not_shown_as_zero (storage : gmap string string) (quota value : num) (digits : nat) (s : string) :
  getQuotaDisplayType storage ≠ "TOKENS" → quota_value storage quota = Ok value →
  to_str (quota_currency storage).1 = Ok s →
  num_ltb (num_of_Z 0) quota = true → num_ltb (num_of_Z 0) value = true → (digits ≤ 20)%nat →
  ∃ text, renderQuota storage quota digits = Ok (VStr (s +:+ text)) ∧
    num_eqb (parse_float text) (num_of_Z 0) = false.
Proof.
  intros Ht Hv Hs Hq Hp Hd. exists (quota_text quota value digits). split.
  - unfold renderQuota, with_symbol. rewrite decide_False by done. rewrite Hv. cbn. by rewrite Hs.
  - unfold quota_text, num_gtb. rewrite Hq, Hp, !andb_true_r.
    destruct (num_eqb (parse_float (to_fixed value digits)) (num_of_Z 0)) eqn:E; [|done].
    assert (forallb (λ d, negb (num_eqb (parse_float (to_fixed (min_value d) d)) (num_of_Z 0))) (seq 0 21) = true) as H
      by (vm_compute; reflexivity).
    rewrite forallb_forall in H. apply negb_true_iff, H, list_elem_of_In, elem_of_seq. lia.
Qed.

Lemma quota_not_shown_as_zero_witness :
  let st : gmap string string := {["quota_per_unit" := "500000"]} in
  ∃ text, renderQuota st (num_of_Z 1) 2 = Ok (VStr ("$" +:+ text)) ∧ num_eqb (parse_float text) (num_of_Z 0) = false.
Proof.
  intros st.
  apply (quota_not_shown_as_zero st (num_of_Z 1) (num_div (num_of_Z 1) (num_of_Z 500000)) 2 "$").
  - intros H. vm_compute in H. discriminate H.
  - vm_compute. reflexivity.
  - vm_compute. reflexivity.
  - vm_compute. reflexivity.
  - vm_compute. reflexivity.
  - lia.
Defined.

Lemma int32_range z : - 2 ^ 31 ≤ int32 z < 2 ^ 31.
Proof. unfold int32. pose proof (Z.mod_pos_bound (z + 2 ^ 31) (2 ^ 32)). lia. Qed.

Lemma hash_range l h : - 2 ^ 31 ≤ h < 2 ^ 31 → - 2 ^ 31 ≤ foldl hash_step h l < 2 ^ 31.
Proof. revert h. induction l as [|u l IH]; intros h Hh; [done|]. cbn. apply IH, int32_range. Qed.

Lemma pick_some {A} (l : list A) z : l ≠ [] → is_Some (l !! Z.to_nat (z mod Z.of_nat (length l))).
Proof.
  intros Hl. apply lookup_lt_is_Some. assert (0 < Z.of_nat (length l)) by (destruct l; [done|cbn; lia]).
  pose proof (Z.mod_pos_bound z (Z.of_nat (length l))). lia.
Qed.

(** Every name has a colour: the hash of a name, with its shifts and
    sums wrapped to 32 bits, stays a 32-bit integer, and the index computed
    from it is inside the palette, for models and for texts. *)
Theorem colour_in_palette (name : string) :
  - 2 ^ 31 ≤ foldl hash_step 0 (utf16 (chars name)) < 2 ^ 31 ∧
  (∃ c, modelToColor name = Some c ∧ c ∈ modelColorMap.*2 ++ baseColors ++ extendedColors) ∧
  (∃ c, stringToColor name = Some c ∧ c ∈ colors).
Proof.
  split; [by apply hash_range|split].
  - unfold modelToColor. destruct (obj_get modelColorMap name) as [c|] eqn:E.
    + exists c. split; [done|]. apply elem_of_app. left. apply list_elem_of_fmap. exists (name, c).
      split; [done|by apply obj_get_elem_of].
    + destruct (_ <? _).
      * assert (is_Some _) as [c Hc] by (apply (pick_some extendedColors (Z.abs (foldl hash_step 0 (utf16 (chars name))))); done).
        exists c. split; [done|]. rewrite !elem_of_app. right. right. by eapply list_elem_of_lookup_2.
      * assert (is_Some _) as [c Hc] by (apply (pick_some baseColors (Z.abs (foldl hash_step 0 (utf16 (chars name))))); done).
        exists c. split; [done|]. rewrite !elem_of_app. right. left. by eapply list_elem_of_lookup_2.
  - assert (is_Some _) as [c Hc] by (apply (pick_some colors (foldr Z.add 0 (utf16 (chars name)))); done).
    exists c. split; [done|]. by eapply list_elem_of_lookup_2.
Qed.

(** Without an exchange rate in the status, a dollar is seven yuan as a price
    and one yuan as a quota. *)
Lemma default_rates_differ :
  let st : gmap string string :=
    {["quota_display_type" := "CNY"; "status" := "{}"; "quota_per_unit" := "500000"]} in
  convertUSDToCurrency st (num_of_Z 1) 2 = Ok "¥7.00" ∧
  renderQuota st (num_of_Z 500000) 2 = Ok (VStr "¥1.00").
Proof. vm_compute. done. Qed.
