(* ===== verification/RenderPrice.v ===== *)
(** * Prices of log entries

    The price texts of [web/src/helpers/render.jsx]: what a request cost and
    how, for ordinary, audio and Claude models, as an article of paragraphs or
    a one-line summary.  Translations [t] are an argument, which gets the key
    and the values; [storage] is the local storage.  An argument the caller
    leaves out has the default of the source. *)
From Stdlib Require Import Ascii SpecFloat.
From S2P Require Import Prelude JsString JsNumber JsValue Json Render.
Local Open Scope Z_scope.

Definition Nz (z : Z) : num := num_of_Z z.
Definition gt0 (n : num) : bool := num_gtb n (Nz 0).
Definition num_max0 (n : num) : num := if is_nan n then nan else if gt0 n then n else Nz 0.

(** [n / 1000000] and [n / 1000]. *)
Definition per_million (n : num) : num := num_div n (Nz 1000000).
Definition per_thousand (n : num) : num := num_div n (Nz 1000).
Definition product (l : list num) (n : num) : num := foldl num_mul n l.
Definition sum (l : list num) (n : num) : num := foldl num_add n l.

(** [Number(value)] is finite: rounded; otherwise zero. *)
Definition formatRatioValue (n : num) (digits : nat) : num :=
  if is_finite n then str_to_num (to_fixed n digits) else Nz 0.

Definition isValidGroupRatio (n : num) : bool := is_finite n && negb (num_eqb n (Nz (-1))).

(** What is shown: paragraphs, or one text. *)
Inductive shown := Article (paragraphs : list string) | Text (s : string).

Section price.
Context (t : string → obj → string) (storage : gmap string string).

(** [getEffectiveRatio]: the ratio and its label. *)
Definition getEffectiveRatio (groupRatio user_group_ratio : num) : num * string :=
  if isValidGroupRatio user_group_ratio then (user_group_ratio, t "专属倍率" [])
  else (groupRatio, t "分组倍率" []).

Definition fixed_price (modelPrice : num) : bool := negb (num_eqb modelPrice (Nz (-1))).

Inductive mode := price_mode | ratio_mode.

Definition resolveBillingDisplayMode (displayMode : string) (modelPrice : num) : mode :=
  if fixed_price modelPrice then price_mode
  else if decide (getQuotaDisplayType storage = "TOKENS") then ratio_mode
  else if decide (displayMode = "ratio") then ratio_mode else price_mode.

Definition isPriceDisplayMode (displayMode : string) (modelPrice : num) : bool :=
  match resolveBillingDisplayMode displayMode modelPrice with price_mode => true | ratio_mode => false end.

Definition shouldUseRatioBillingProcess (modelPrice : num) : bool :=
  num_eqb modelPrice (Nz (-1)) && bool_decide (getQuotaDisplayType storage = "TOKENS").

Definition sym : jsval := symbol (getCurrencyConfig storage).
Definition rate_num : res num := to_num (rate (getCurrencyConfig storage)).

(** [(product).toFixed(6)]. *)
Definition fixed6 (n : num) : jsval := VStr (to_fixed n 6).

Definition formatCompactDisplayPrice (usdAmount : num) (r : num) : res string :=
  s ← to_str sym; Ok (s +:+ num_to_str (str_to_num (to_fixed (num_mul usdAmount r) 6))).

(** [parts.filter(Boolean).join('，')]. *)
Definition joinBillingSummary (parts : list string) : string := join "，" (filter (λ s, s ≠ "") parts).

(** [appendPricePart]: the part, if the condition holds. *)
Definition part (condition : bool) (s : string) : list string := if condition then [s] else [].

Definition getGroupRatioText (groupRatio user_group_ratio : num) : string :=
  let '(r, label) := getEffectiveRatio groupRatio user_group_ratio in
  t "{{ratioType}} {{ratio}}" [("ratioType", VStr label); ("ratio", VNum r)].

(** [Number(usdAmount || 0)] rounded; [0] for [NaN]. *)
Definition renderDisplayAmountFromUsd (usdAmount : num) : res jsval :=
  let n := if is_nan usdAmount then Nz 0 else usdAmount in
  renderQuotaWithAmount storage (str_to_num (to_fixed n 6)).

Definition disclaimer : string := t "仅供参考，以实际扣费为准" [].

(** ** Summaries *)

Record simple := Simple {
  s_modelRatio : num; s_modelPrice : num; s_groupRatio : num; s_user_group_ratio : num;
  s_cacheTokens : num; s_cacheRatio : num; s_cacheCreationTokens : num; s_cacheCreationRatio : num;
  s_cacheCreationTokens5m : num; s_cacheCreationRatio5m : num;
  s_cacheCreationTokens1h : num; s_cacheCreationRatio1h : num;
  s_image : bool; s_imageRatio : num; s_isSystemPromptOverride : bool; s_displayMode : string }.

Definition LFCR : string := String NL (String (byte 13) "").

Definition system_prompt_note (a : simple) : string :=
  if s_isSystemPromptOverride a then LFCR +:+ t "系统提示覆盖" [] else "".

(** The parts of the price summary after the input price. *)
Definition simple_price_parts (a : simple) (r : num) : res (list string) :=
  let split := gt0 (s_cacheCreationTokens5m a) || gt0 (s_cacheCreationTokens1h a) in
  let base := num_mul (s_modelRatio a) (Nz 2) in
  let item key ratio := p ← formatCompactDisplayPrice (num_mul base ratio) r; Ok (t key [("price", VStr p)]) in
  let opt b key ratio := if (b : bool) then s ← item key ratio; Ok [s] else Ok [] in
  input ← formatCompactDisplayPrice base r;
  p1 ← opt (negb (num_eqb (s_cacheTokens a) (Nz 0))) "缓存读取 {{price}}" (s_cacheRatio a);
  p2 ← opt (split && gt0 (s_cacheCreationTokens5m a)) "5m缓存创建 {{price}}" (s_cacheCreationRatio5m a);
  p3 ← opt (split && gt0 (s_cacheCreationTokens1h a)) "1h缓存创建 {{price}}" (s_cacheCreationRatio1h a);
  p4 ← opt (negb split && negb (num_eqb (s_cacheCreationTokens a) (Nz 0))) "缓存创建 {{price}}"
         (s_cacheCreationRatio a);
  p5 ← opt (s_image a) "图片输入 {{price}}" (s_imageRatio a);
  Ok (t "输入 {{price}} / 1M tokens" [("price", VStr input)] :: p1 ++ p2 ++ p3 ++ p4 ++ p5).

(** The key of the ratio summary, built from its parts; a part is translated
    before the values are put in. *)
Definition simple_ratio_key (a : simple) : string :=
  let split := gt0 (s_cacheCreationTokens5m a) || gt0 (s_cacheCreationTokens1h a) in
  let five := split && gt0 (s_cacheCreationTokens5m a) in
  let hour := split && gt0 (s_cacheCreationTokens1h a) in
  join " * "
    ([t "模型: {{ratio}}" []] ++
     part (negb (num_eqb (s_cacheTokens a) (Nz 0))) (t "缓存: {{cacheRatio}}" []) ++
     (if split then
        if five && hour then [t "缓存创建: 5m {{cacheCreationRatio5m}} / 1h {{cacheCreationRatio1h}}" []]
        else if five then [t "缓存创建: 5m {{cacheCreationRatio5m}}" []]
        else part hour (t "缓存创建: 1h {{cacheCreationRatio1h}}" [])
      else part (negb (num_eqb (s_cacheCreationTokens a) (Nz 0))) (t "缓存创建: {{cacheCreationRatio}}" [])) ++
     part (s_image a) (t "图片输入: {{imageRatio}}" []) ++ ["{{ratioType}}: {{groupRatio}}"]).

Definition renderPriceSimpleCore (a : simple) : res string :=
  let '(ratio, label) := getEffectiveRatio (s_groupRatio a) (s_user_group_ratio a) in
  let group := getGroupRatioText (s_groupRatio a) (s_user_group_ratio a) in
  if fixed_price (s_modelPrice a) then
    r ← rate_num;
    let price := fixed6 (num_mul (s_modelPrice a) r) in
    if isPriceDisplayMode (s_displayMode a) (s_modelPrice a) then
      Ok (joinBillingSummary [t "模型价格：{{symbol}}{{price}} / 次" [("symbol", sym); ("price", price)]; group])
    else Ok (t "价格：{{symbol}}{{price}} * {{ratioType}}：{{ratio}}"
               [("symbol", sym); ("price", price); ("ratioType", VStr label); ("ratio", VNum ratio)])
  else if isPriceDisplayMode (s_displayMode a) (s_modelPrice a) then
    r ← rate_num; parts ← simple_price_parts a r;
    Ok (joinBillingSummary (parts ++ [group]) +:+ system_prompt_note a)
  else
    Ok (t (simple_ratio_key a)
          [("ratio", VNum (s_modelRatio a)); ("ratioType", VStr label); ("groupRatio", VNum ratio);
           ("cacheRatio", VNum (s_cacheRatio a)); ("cacheCreationRatio", VNum (s_cacheCreationRatio a));
           ("cacheCreationRatio5m", VNum (s_cacheCreationRatio5m a));
           ("cacheCreationRatio1h", VNum (s_cacheCreationRatio1h a)); ("imageRatio", VNum (s_imageRatio a))]
        +:+ system_prompt_note a).

Record log := Log {
  l_modelRatio : num; l_completionRatio : num; l_modelPrice : num; l_groupRatio : num; l_user_group_ratio : num;
  l_cacheRatio : num; l_image : bool; l_imageRatio : num; l_webSearch : bool; l_webSearchCallCount : num;
  l_fileSearch : bool; l_fileSearchCallCount : num; l_displayMode : string }.

Definition renderLogContent (a : log) : res string :=
  let '(ratio, label) := getEffectiveRatio (l_groupRatio a) (l_user_group_ratio a) in
  let group := getGroupRatioText (l_groupRatio a) (l_user_group_ratio a) in
  let base := num_mul (l_modelRatio a) (Nz 2) in
  let who := [("ratioType", VStr label); ("ratio", VNum ratio)] in
  let ratios := [("modelRatio", VNum (l_modelRatio a)); ("cacheRatio", VNum (l_cacheRatio a));
                 ("completionRatio", VNum (l_completionRatio a))] in
  if isPriceDisplayMode (l_displayMode a) (l_modelPrice a) then
    r ← rate_num;
    let priced key l := t key [("symbol", sym); ("price", fixed6 (product (l ++ [r]) base))] in
    if fixed_price (l_modelPrice a) then
      Ok (joinBillingSummary
            [t "模型价格 {{symbol}}{{price}} / 次" [("symbol", sym); ("price", fixed6 (num_mul (l_modelPrice a) r))]; group])
    else
      Ok (joinBillingSummary
            ([priced "输入价格 {{symbol}}{{price}} / 1M tokens" [];
              priced "补全价格 {{symbol}}{{price}} / 1M tokens" [l_completionRatio a]] ++
             part (negb (num_eqb (l_cacheRatio a) (Nz 1)))
               (priced "缓存读取价格 {{symbol}}{{price}} / 1M tokens" [l_cacheRatio a]) ++
             part (l_image a) (priced "图片输入价格 {{symbol}}{{price}} / 1M tokens" [l_imageRatio a]) ++
             part (l_webSearch a) (t "Web 搜索调用 {{webSearchCallCount}} 次"
                                     [("webSearchCallCount", VNum (l_webSearchCallCount a))]) ++
             part (l_fileSearch a) (t "文件搜索调用 {{fileSearchCallCount}} 次"
                                      [("fileSearchCallCount", VNum (l_fileSearchCallCount a))]) ++
             [group]))
  else if fixed_price (l_modelPrice a) then
    r ← rate_num;
    Ok (t "模型价格 {{symbol}}{{price}}，{{ratioType}} {{ratio}}"
          ([("symbol", sym); ("price", fixed6 (num_mul (l_modelPrice a) r))] ++ who))
  else if l_image a then
    Ok (t "模型倍率 {{modelRatio}}，缓存倍率 {{cacheRatio}}，输出倍率 {{completionRatio}}，图片输入倍率 {{imageRatio}}，{{ratioType}} {{ratio}}"
          (ratios ++ [("imageRatio", VNum (l_imageRatio a))] ++ who))
  else if l_webSearch a then
    Ok (t "模型倍率 {{modelRatio}}，缓存倍率 {{cacheRatio}}，输出倍率 {{completionRatio}}，{{ratioType}} {{ratio}}，Web 搜索调用 {{webSearchCallCount}} 次"
          (ratios ++ who ++ [("webSearchCallCount", VNum (l_webSearchCallCount a))]))
  else Ok (t "模型倍率 {{modelRatio}}，缓存倍率 {{cacheRatio}}，输出倍率 {{completionRatio}}，{{ratioType}} {{ratio}}"
             (ratios ++ who)).

Record claude_log := ClaudeLog {
  k_modelRatio : num; k_completionRatio : num; k_modelPrice : num; k_groupRatio : num; k_user_group_ratio : num;
  k_cacheRatio : num; k_cacheCreationRatio : num; k_cacheCreationTokens5m : num; k_cacheCreationRatio5m : num;
  k_cacheCreationTokens1h : num; k_cacheCreationRatio1h : num; k_displayMode : string }.

(** The ratio of the cache creation; an empty translation is replaced. *)
Definition cache_creation_part (a : claude_log) : string :=
  let five := gt0 (k_cacheCreationTokens5m a) in
  let hour := gt0 (k_cacheCreationTokens1h a) in
  let v5 := ("cacheCreationRatio5m", VNum (k_cacheCreationRatio5m a)) in
  let v1 := ("cacheCreationRatio1h", VNum (k_cacheCreationRatio1h a)) in
  let split :=
    if five && hour then t "缓存创建倍率 5m {{cacheCreationRatio5m}} / 1h {{cacheCreationRatio1h}}" [v5; v1]
    else if five then t "缓存创建倍率 5m {{cacheCreationRatio5m}}" [v5]
    else if hour then t "缓存创建倍率 1h {{cacheCreationRatio1h}}" [v1]
    else "" in
  if decide (split = "")
  then t "缓存创建倍率 {{cacheCreationRatio}}" [("cacheCreationRatio", VNum (k_cacheCreationRatio a))]
  else split.

Definition renderClaudeLogContent (a : claude_log) : res string :=
  let '(ratio, label) := getEffectiveRatio (k_groupRatio a) (k_user_group_ratio a) in
  let group := getGroupRatioText ratio (k_user_group_ratio a) in
  let base := num_mul (k_modelRatio a) (Nz 2) in
  let split := gt0 (k_cacheCreationTokens5m a) || gt0 (k_cacheCreationTokens1h a) in
  if isPriceDisplayMode (k_displayMode a) (k_modelPrice a) then
    r ← rate_num;
    let priced key l := t key [("symbol", sym); ("price", fixed6 (product (l ++ [r]) base))] in
    if fixed_price (k_modelPrice a) then
      Ok (joinBillingSummary
            [t "模型价格 {{symbol}}{{price}} / 次" [("symbol", sym); ("price", fixed6 (num_mul (k_modelPrice a) r))]; group])
    else
      Ok (joinBillingSummary
            ([priced "输入价格 {{symbol}}{{price}} / 1M tokens" [];
              priced "补全价格 {{symbol}}{{price}} / 1M tokens" [k_completionRatio a];
              priced "缓存读取价格 {{symbol}}{{price}} / 1M tokens" [k_cacheRatio a]] ++
             part (split && gt0 (k_cacheCreationTokens5m a))
               (priced "5m缓存创建价格 {{symbol}}{{price}} / 1M tokens" [k_cacheCreationRatio5m a]) ++
             part (split && gt0 (k_cacheCreationTokens1h a))
               (priced "1h缓存创建价格 {{symbol}}{{price}} / 1M tokens" [k_cacheCreationRatio1h a]) ++
             part (negb split) (priced "缓存创建价格 {{symbol}}{{price}} / 1M tokens" [k_cacheCreationRatio a]) ++
             [group]))
  else if fixed_price (k_modelPrice a) then
    r ← rate_num;
    Ok (t "模型价格 {{symbol}}{{price}}，{{ratioType}} {{ratio}}"
          [("symbol", sym); ("price", fixed6 (num_mul (k_modelPrice a) r)); ("ratioType", VStr label);
           ("ratio", VNum ratio)])
  else
    Ok (join "，"
          [t "模型倍率 {{modelRatio}}" [("modelRatio", VNum (k_modelRatio a))];
           t "输出倍率 {{completionRatio}}" [("completionRatio", VNum (k_completionRatio a))];
           t "缓存倍率 {{cacheRatio}}" [("cacheRatio", VNum (k_cacheRatio a))];
           cache_creation_part a;
           t "{{ratioType}} {{ratio}}" [("ratioType", VStr label); ("ratio", VNum ratio)]]).

(** ** Articles *)

(** The article of a model with a fixed price. *)
Definition fixed_price_article (modelPrice ratio : num) (label : string) (r : num) : list string :=
  let price := fixed6 (num_mul modelPrice r) in
  [t "模型价格：{{symbol}}{{price}} / 次" [("symbol", sym); ("price", price)];
   t "模型价格 {{symbol}}{{price}} / 次 * {{ratioType}} {{ratio}} = {{symbol}}{{total}}"
     [("symbol", sym); ("price", price); ("ratioType", VStr label); ("ratio", VNum ratio);
      ("total", fixed6 (product [ratio; r] modelPrice))];
   disclaimer].

(** The text after the ratio process was chosen for a fixed price. *)
Definition fixed_price_text (modelPrice ratio : num) (label : string) (r : num) : string :=
  t "模型价格：{{symbol}}{{price}} * {{ratioType}}：{{ratio}} = {{symbol}}{{total}}"
    [("symbol", sym); ("price", fixed6 (num_mul modelPrice r)); ("ratio", VNum ratio);
     ("total", fixed6 (product [ratio; r] modelPrice)); ("ratioType", VStr label)].

Record model_price := ModelPrice {
  inputTokens : num; completionTokens : num; modelRatio : num; modelPrice : num; completionRatio : option num;
  groupRatio : num; user_group_ratio : num; cacheTokens : num; cacheRatio : num;
  image : bool; imageRatio : num; imageOutputTokens : num;
  webSearch : bool; webSearchCallCount : num; webSearchPrice : num;
  fileSearch : bool; fileSearchCallCount : num; fileSearchPrice : num;
  audioInputSeperatePrice : bool; audioInputTokens : num; audioInputPrice : num;
  imageGenerationCall : bool; imageGenerationCallPrice : num }.

(** The price in dollars, as the price article computes it. *)
Definition model_total (a : model_price) (ratio : num) : num :=
  let inputRatioPrice := num_mul (modelRatio a) (Nz 2) in
  let completionRatioPrice := num_mul inputRatioPrice (default (Nz 0) (completionRatio a)) in
  let cached := num_add (num_sub (inputTokens a) (cacheTokens a)) (num_mul (cacheTokens a) (cacheRatio a)) in
  let effective :=
    if image a && gt0 (imageOutputTokens a)
    then num_add (num_sub (inputTokens a) (imageOutputTokens a)) (num_mul (imageOutputTokens a) (imageRatio a))
    else cached in
  let effective := if gt0 (audioInputTokens a) then num_sub effective (audioInputTokens a) else effective in
  sum [product [audioInputPrice a; ratio] (per_million (audioInputTokens a));
       product [completionRatioPrice; ratio] (per_million (completionTokens a));
       product [webSearchPrice a; ratio] (per_thousand (webSearchCallCount a));
       product [fileSearchPrice a; ratio] (per_thousand (fileSearchCallCount a));
       num_mul (imageGenerationCallPrice a) ratio]
    (product [inputRatioPrice; ratio] (per_million effective)).

(** The input part of the calculation. *)
Definition input_desc (a : model_price) (r : num) : string :=
  let inputRatioPrice := num_mul (modelRatio a) (Nz 2) in
  let price := ("price", fixed6 (num_mul inputRatioPrice r)) in
  if image a && gt0 (imageOutputTokens a) then
    t "(输入 {{nonImageInput}} tokens + 图片输入 {{imageInput}} tokens / 1M tokens * {{symbol}}{{price}}"
      [("nonImageInput", VNum (num_sub (inputTokens a) (imageOutputTokens a)));
       ("imageInput", VNum (imageOutputTokens a)); ("symbol", sym); price]
  else if gt0 (cacheTokens a) then
    t "(输入 {{nonCacheInput}} tokens / 1M tokens * {{symbol}}{{price}} + 缓存 {{cacheInput}} tokens / 1M tokens * {{symbol}}{{cachePrice}}"
      [("nonCacheInput", VNum (num_sub (inputTokens a) (cacheTokens a))); ("cacheInput", VNum (cacheTokens a));
       ("symbol", sym); price; ("cachePrice", fixed6 (product [cacheRatio a; r] inputRatioPrice))]
  else if audioInputSeperatePrice a && gt0 (audioInputTokens a) then
    t "(输入 {{nonAudioInput}} tokens / 1M tokens * {{symbol}}{{price}} + 音频输入 {{audioInput}} tokens / 1M tokens * {{symbol}}{{audioPrice}}"
      [("nonAudioInput", VNum (num_sub (inputTokens a) (audioInputTokens a)));
       ("audioInput", VNum (audioInputTokens a)); ("symbol", sym); price;
       ("audioPrice", fixed6 (num_mul (audioInputPrice a) r))]
  else t "(输入 {{input}} tokens / 1M tokens * {{symbol}}{{price}}"
         [("input", VNum (inputTokens a)); ("symbol", sym); price].

(** The services after it. *)
Definition extra_services (a : model_price) (ratio : num) (label : string) (r : num) : string :=
  let who := [("ratio", VNum ratio); ("ratioType", VStr label)] in
  let priced n := [("symbol", sym); ("price", fixed6 (num_mul n r))] in
  let opt (b : bool) s := if b then s else "" in
  join ""
    [opt (webSearch a && gt0 (webSearchCallCount a))
       (t " + Web搜索 {{count}}次 / 1K 次 * {{symbol}}{{price}} * {{ratioType}} {{ratio}}"
          (("count", VNum (webSearchCallCount a)) :: priced (webSearchPrice a) ++ who));
     opt (fileSearch a && gt0 (fileSearchCallCount a))
       (t " + 文件搜索 {{count}}次 / 1K 次 * {{symbol}}{{price}} * {{ratioType}} {{ratio}}"
          (("count", VNum (fileSearchCallCount a)) :: priced (fileSearchPrice a) ++ who));
     opt (imageGenerationCall a && gt0 (imageGenerationCallPrice a))
       (t " + 图片生成调用 {{symbol}}{{price}} / 1次 * {{ratioType}} {{ratio}}"
          (priced (imageGenerationCallPrice a) ++ who))].

(** The price article of a model. *)
Definition price_article (a : model_price) (ratio : num) (label : string) (r : num) : res (list string) :=
  let inputRatioPrice := num_mul (modelRatio a) (Nz 2) in
  let completionRatioPrice := num_mul inputRatioPrice (default (Nz 0) (completionRatio a)) in
  let priced key k n := t key [("symbol", sym); (k, fixed6 (num_mul n r))] in
  audioPrice ←
    (if audioInputSeperatePrice a then
       s ← to_str sym;
       Ok ("，" +:+ t "音频输入价格" [] +:+ " " +:+ s +:+ to_fixed (num_mul (audioInputPrice a) r) 6 +:+ " / 1M tokens")
     else Ok "");
  let outputDesc :=
    t "输出 {{completion}} tokens / 1M tokens * {{symbol}}{{compPrice}}) * {{ratioType}} {{ratio}}"
      [("completion", VNum (completionTokens a)); ("symbol", sym);
       ("compPrice", fixed6 (num_mul completionRatioPrice r)); ("ratio", VNum ratio); ("ratioType", VStr label)] in
  Ok ([t "输入价格：{{symbol}}{{price}} / 1M tokens{{audioPrice}}"
         [("symbol", sym); ("price", fixed6 (num_mul inputRatioPrice r)); ("audioPrice", VStr audioPrice)];
       priced "补全价格：{{symbol}}{{total}} / 1M tokens" "total" completionRatioPrice] ++
      part (gt0 (cacheTokens a))
        (priced "缓存读取价格：{{symbol}}{{total}} / 1M tokens" "total" (num_mul inputRatioPrice (cacheRatio a))) ++
      part (image a && gt0 (imageOutputTokens a))
        (priced "图片输入价格：{{symbol}}{{total}} / 1M tokens" "total" (num_mul inputRatioPrice (imageRatio a))) ++
      part (webSearch a && gt0 (webSearchCallCount a))
        (priced "Web搜索价格：{{symbol}}{{price}} / 1K 次" "price" (webSearchPrice a)) ++
      part (fileSearch a && gt0 (fileSearchCallCount a))
        (priced "文件搜索价格：{{symbol}}{{price}} / 1K 次" "price" (fileSearchPrice a)) ++
      part (imageGenerationCall a && gt0 (imageGenerationCallPrice a))
        (priced "图片生成调用：{{symbol}}{{price}} / 1次" "price" (imageGenerationCallPrice a)) ++
      [t "{{inputDesc}} + {{outputDesc}}{{extraServices}} = {{symbol}}{{total}}"
         [("inputDesc", VStr (input_desc a r)); ("outputDesc", VStr outputDesc);
          ("extraServices", VStr (extra_services a ratio label r)); ("symbol", sym);
          ("total", fixed6 (num_mul (model_total a ratio) r))];
       disclaimer]).
End price.
