(* ===== verification/RenderArticle.v ===== *)
(** * Prices of log entries: articles

    The rest of the price texts of [web/src/helpers/render.jsx]: the articles
    by ratio, shown when amounts are counted in tokens, and the articles of
    audio and Claude models. *)
From Stdlib Require Import Ascii SpecFloat.
From S2P Require Import Prelude JsString JsNumber JsValue Json Render RenderPrice.
Local Open Scope Z_scope.

Section article.
Context (t : string → obj → string) (storage : gmap string string).
Let sym : jsval := sym storage.

Definition amount_of (n : num) : res (string * jsval) :=
  v ← renderDisplayAmountFromUsd storage n; Ok ("amount", v).

(** A paragraph with an amount: key, values and amount in dollars. *)
Definition amount_paragraph (key : string) (vars : obj) (n : num) : res string :=
  amount ← amount_of n; Ok (t key (vars ++ [amount])).

(** Paragraphs that are shown under a condition. *)
Definition paragraphs (l : list (bool * res string)) : res (list string) :=
  parts ← res_map (λ '(b, p), if (b : bool) then s ← p; Ok [s] else Ok []) l; Ok (concat parts).

(** ** Ordinary models *)

(** What the ratio article adds up. *)
Definition ratio_amounts (a : model_price) (ratio : num) : list num :=
  let inputRatioPrice := num_mul (modelRatio a) (Nz 2) in
  let completionRatioValue := formatRatioValue (default (Nz 0) (completionRatio a)) 6 in
  let textInputTokens := num_max0 (num_sub (num_sub (inputTokens a) (cacheTokens a)) (audioInputTokens a)) in
  let imageInputTokens := if image a && gt0 (imageOutputTokens a) then imageOutputTokens a else Nz 0 in
  [product [inputRatioPrice; ratio] (per_million textInputTokens);
   product [inputRatioPrice; formatRatioValue (cacheRatio a) 6; ratio] (per_million (cacheTokens a));
   product [inputRatioPrice; formatRatioValue (imageRatio a) 6; ratio] (per_million imageInputTokens);
   product [audioInputPrice a; ratio] (per_million (audioInputTokens a));
   product [num_mul inputRatioPrice completionRatioValue; ratio] (per_million (completionTokens a));
   product [webSearchPrice a; ratio] (per_thousand (webSearchCallCount a));
   product [fileSearchPrice a; ratio] (per_thousand (fileSearchCallCount a));
   num_mul (imageGenerationCallPrice a) ratio].

Definition ratio_total (a : model_price) (ratio : num) : num :=
  match ratio_amounts a ratio with x :: l => sum l x | [] => Nz 0 end.

Definition ratio_article (a : model_price) (ratio : num) (label : string) : res (list string) :=
  let inputRatioPrice := num_mul (modelRatio a) (Nz 2) in
  let modelRatioValue := VNum (formatRatioValue (modelRatio a) 6) in
  let completionRatioValue := VNum (formatRatioValue (default (Nz 0) (completionRatio a)) 6) in
  let cacheRatioValue := VNum (formatRatioValue (cacheRatio a) 6) in
  let imageRatioValue := VNum (formatRatioValue (imageRatio a) 6) in
  let audioRatioValue :=
    if audioInputSeperatePrice a && gt0 (audioInputPrice a)
    then Some (formatRatioValue (num_div (audioInputPrice a) inputRatioPrice) 6) else None in
  let textInputTokens := num_max0 (num_sub (num_sub (inputTokens a) (cacheTokens a)) (audioInputTokens a)) in
  let imageInputTokens := if image a && gt0 (imageOutputTokens a) then imageOutputTokens a else Nz 0 in
  let who := [("ratioType", VStr label); ("ratio", VNum ratio)] in
  let tokens n := [("tokens", VNum n); ("modelRatio", modelRatioValue)] in
  let count n price := p ← renderDisplayAmountFromUsd storage price; Ok [("count", VNum n); ("price", p)] in
  let header :=
    joinBillingSummary
      ([t "模型倍率 {{modelRatio}}" [("modelRatio", modelRatioValue)];
        t "补全倍率 {{completionRatio}}" [("completionRatio", completionRatioValue)]] ++
       part (gt0 (cacheTokens a)) (t "缓存倍率 {{cacheRatio}}" [("cacheRatio", cacheRatioValue)]) ++
       part (gt0 imageInputTokens) (t "图片倍率 {{imageRatio}}" [("imageRatio", imageRatioValue)]) ++
       match audioRatioValue with
       | Some v => [t "音频倍率 {{audioRatio}}" [("audioRatio", VNum v)]]
       | None => []
       end ++
       [t "{{ratioType}} {{ratio}}" who]) in
  match ratio_amounts a ratio with
  | [textAmount; cacheAmount; imageAmount; audioAmount; completionAmount; webAmount; fileAmount; generationAmount] =>
      paragraphs
        [(true, Ok header);
         (gt0 textInputTokens, amount_paragraph
            "普通输入：{{tokens}} / 1M * 模型倍率 {{modelRatio}} * {{ratioType}} {{ratio}} = {{amount}}"
            (tokens textInputTokens ++ who) textAmount);
         (gt0 (cacheTokens a), amount_paragraph
            "缓存输入：{{tokens}} / 1M * 模型倍率 {{modelRatio}} * 缓存倍率 {{cacheRatio}} * {{ratioType}} {{ratio}} = {{amount}}"
            (tokens (cacheTokens a) ++ [("cacheRatio", cacheRatioValue)] ++ who) cacheAmount);
         (gt0 imageInputTokens, amount_paragraph
            "图片输入：{{tokens}} / 1M * 模型倍率 {{modelRatio}} * 图片倍率 {{imageRatio}} * {{ratioType}} {{ratio}} = {{amount}}"
            (tokens imageInputTokens ++ [("imageRatio", imageRatioValue)] ++ who) imageAmount);
         (gt0 (audioInputTokens a) && bool_decide (audioRatioValue ≠ None), amount_paragraph
            "音频输入：{{tokens}} / 1M * 模型倍率 {{modelRatio}} * 音频倍率 {{audioRatio}} * {{ratioType}} {{ratio}} = {{amount}}"
            (tokens (audioInputTokens a) ++ [("audioRatio", VNum (default (Nz 0) audioRatioValue))] ++ who) audioAmount);
         (true, amount_paragraph
            "输出：{{tokens}} / 1M * 模型倍率 {{modelRatio}} * 补全倍率 {{completionRatio}} * {{ratioType}} {{ratio}} = {{amount}}"
            (tokens (completionTokens a) ++ [("completionRatio", completionRatioValue)] ++ who) completionAmount);
         (webSearch a && gt0 (webSearchCallCount a),
            c ← count (webSearchCallCount a) (webSearchPrice a);
            amount_paragraph "Web 搜索：{{count}} / 1K * 单价 {{price}} * {{ratioType}} {{ratio}} = {{amount}}"
              (c ++ who) webAmount);
         (fileSearch a && gt0 (fileSearchCallCount a),
            c ← count (fileSearchCallCount a) (fileSearchPrice a);
            amount_paragraph "文件搜索：{{count}} / 1K * 单价 {{price}} * {{ratioType}} {{ratio}} = {{amount}}"
              (c ++ who) fileAmount);
         (imageGenerationCall a && gt0 (imageGenerationCallPrice a),
            p ← renderDisplayAmountFromUsd storage (imageGenerationCallPrice a);
            amount_paragraph "图片生成：1 次 * 单价 {{price}} * {{ratioType}} {{ratio}} = {{amount}}"
              ([("price", p)] ++ who) generationAmount);
         (true, total ← renderDisplayAmountFromUsd storage (ratio_total a ratio);
                Ok (t "合计：{{total}}" [("total", total)]));
         (true, Ok (disclaimer t))]
  | _ => Ok []
  end.

Definition renderModelPrice (a : model_price) : res shown :=
  let '(ratio, label) := getEffectiveRatio t (groupRatio a) (user_group_ratio a) in
  if negb (shouldUseRatioBillingProcess storage (modelPrice a)) then
    r ← rate_num storage;
    if fixed_price (modelPrice a) then Ok (Article (fixed_price_article t storage (modelPrice a) ratio label r))
    else ps ← price_article t storage a ratio label r; Ok (Article ps)
  else if fixed_price (modelPrice a) then
    r ← rate_num storage; Ok (Text (fixed_price_text t storage (modelPrice a) ratio label r))
  else ps ← ratio_article a ratio label; Ok (Article ps).

(** ** Audio models *)

Record audio_price := AudioPrice {
  a_inputTokens : num; a_completionTokens : num; a_modelRatio : num; a_modelPrice : num;
  a_completionRatio : option num; a_audioInputTokens : num; a_audioCompletionTokens : num;
  a_audioRatio : num; a_audioCompletionRatio : num; a_groupRatio : num; a_user_group_ratio : num;
  a_cacheTokens : num; a_cacheRatio : num }.

(** Text and audio price for the ratios used. *)
Definition audio_amounts (a : audio_price) (ratio completion cache audio audioCompletion : num) : num * num :=
  let inputRatioPrice := num_mul (a_modelRatio a) (Nz 2) in
  let effective := num_add (num_sub (a_inputTokens a) (a_cacheTokens a)) (num_mul (a_cacheTokens a) cache) in
  (num_add (product [inputRatioPrice; ratio] (per_million effective))
           (product [num_mul inputRatioPrice completion; ratio] (per_million (a_completionTokens a))),
   num_add (product [inputRatioPrice; audio; ratio] (per_million (a_audioInputTokens a)))
           (product [inputRatioPrice; audio; audioCompletion; ratio] (per_million (a_audioCompletionTokens a)))).

(** [parseFloat(audioRatio).toFixed(6)] is multiplied as the number it
    denotes. *)
Definition audio_price_article (a : audio_price) (ratio : num) (label : string) (r : num) : list string :=
  let audioRatio := str_to_num (to_fixed (parse_float (num_to_str (a_audioRatio a))) 6) in
  let completion := default (Nz 0) (a_completionRatio a) in
  let inputRatioPrice := num_mul (a_modelRatio a) (Nz 2) in
  let completionRatioPrice := num_mul inputRatioPrice completion in
  let '(textPrice, audioPrice) := audio_amounts a ratio completion (a_cacheRatio a) audioRatio (a_audioCompletionRatio a) in
  let priced key n := t key [("symbol", sym); ("price", fixed6 n)] in
  [priced "输入价格：{{symbol}}{{price}} / 1M tokens" (num_mul inputRatioPrice r);
   priced "补全价格：{{symbol}}{{price}} / 1M tokens" (num_mul completionRatioPrice r)] ++
  part (gt0 (a_cacheTokens a))
    (priced "缓存读取价格：{{symbol}}{{price}} / 1M tokens" (product [a_cacheRatio a; r] inputRatioPrice)) ++
  [priced "音频输入价格：{{symbol}}{{price}} / 1M tokens" (product [audioRatio; r] inputRatioPrice);
   priced "音频补全价格：{{symbol}}{{price}} / 1M tokens"
     (product [audioRatio; a_audioCompletionRatio a; r] inputRatioPrice);
   t "文字提示 {{input}} tokens / 1M tokens * {{symbol}}{{textInputPrice}} + 文字补全 {{completion}} tokens / 1M tokens * {{symbol}}{{textCompPrice}} + 音频提示 {{audioInput}} tokens / 1M tokens * {{symbol}}{{audioInputPrice}} + 音频补全 {{audioCompletion}} tokens / 1M tokens * {{symbol}}{{audioCompPrice}} * {{ratioType}} {{ratio}} = {{symbol}}{{total}}"
     [("input", VNum (a_inputTokens a)); ("completion", VNum (a_completionTokens a));
      ("audioInput", VNum (a_audioInputTokens a)); ("audioCompletion", VNum (a_audioCompletionTokens a));
      ("textInputPrice", fixed6 (num_mul inputRatioPrice r)); ("textCompPrice", fixed6 (num_mul completionRatioPrice r));
      ("audioInputPrice", fixed6 (product [inputRatioPrice; r] audioRatio));
      ("audioCompPrice", fixed6 (product [a_audioCompletionRatio a; inputRatioPrice; r] audioRatio));
      ("ratioType", VStr label); ("ratio", VNum ratio); ("symbol", sym);
      ("total", fixed6 (num_mul (num_add textPrice audioPrice) r))];
   disclaimer t].

Definition audio_ratio_article (a : audio_price) (ratio : num) (label : string) : res (list string) :=
  let completion := formatRatioValue (default (Nz 0) (a_completionRatio a)) 6 in
  let cache := formatRatioValue (a_cacheRatio a) 6 in
  let audio := formatRatioValue (a_audioRatio a) 6 in
  let audioCompletion := formatRatioValue (a_audioCompletionRatio a) 6 in
  let inputRatioPrice := num_mul (a_modelRatio a) (Nz 2) in
  let '(textPrice, audioPrice) := audio_amounts a ratio completion cache audio audioCompletion in
  let modelRatioValue := ("modelRatio", VNum (formatRatioValue (a_modelRatio a) 6)) in
  let who := [("ratioType", VStr label); ("ratio", VNum ratio)] in
  let plain := num_max0 (num_sub (a_inputTokens a) (a_cacheTokens a)) in
  let tokens n := [("tokens", VNum n); modelRatioValue] in
  paragraphs
    [(true, Ok (t "模型倍率 {{modelRatio}}，补全倍率 {{completionRatio}}，音频倍率 {{audioRatio}}，音频补全倍率 {{audioCompletionRatio}}，{{cachePart}}{{ratioType}} {{ratio}}"
        ([modelRatioValue; ("completionRatio", VNum completion); ("audioRatio", VNum audio);
          ("audioCompletionRatio", VNum audioCompletion);
          ("cachePart", VStr (if gt0 (a_cacheTokens a)
                              then t "缓存倍率" [] +:+ " " +:+ num_to_str cache +:+ "，" else ""))] ++ who)));
     (true, amount_paragraph "普通输入：{{tokens}} / 1M * 模型倍率 {{modelRatio}} * {{ratioType}} {{ratio}} = {{amount}}"
        (tokens plain ++ who) (product [inputRatioPrice; ratio] (per_million plain)));
     (gt0 (a_cacheTokens a), amount_paragraph
        "缓存输入：{{tokens}} / 1M * 模型倍率 {{modelRatio}} * 缓存倍率 {{cacheRatio}} * {{ratioType}} {{ratio}} = {{amount}}"
        (tokens (a_cacheTokens a) ++ [("cacheRatio", VNum cache)] ++ who)
        (product [inputRatioPrice; cache; ratio] (per_million (a_cacheTokens a))));
     (true, amount_paragraph
        "文字输出：{{tokens}} / 1M * 模型倍率 {{modelRatio}} * 补全倍率 {{completionRatio}} * {{ratioType}} {{ratio}} = {{amount}}"
        (tokens (a_completionTokens a) ++ [("completionRatio", VNum completion)] ++ who)
        (product [inputRatioPrice; completion; ratio] (per_million (a_completionTokens a))));
     (true, amount_paragraph
        "音频输入：{{tokens}} / 1M * 模型倍率 {{modelRatio}} * 音频倍率 {{audioRatio}} * {{ratioType}} {{ratio}} = {{amount}}"
        (tokens (a_audioInputTokens a) ++ [("audioRatio", VNum audio)] ++ who)
        (product [inputRatioPrice; audio; ratio] (per_million (a_audioInputTokens a))));
     (true, amount_paragraph
        "音频输出：{{tokens}} / 1M * 模型倍率 {{modelRatio}} * 音频倍率 {{audioRatio}} * 音频补全倍率 {{audioCompletionRatio}} * {{ratioType}} {{ratio}} = {{amount}}"
        (tokens (a_audioCompletionTokens a) ++
         [("audioRatio", VNum audio); ("audioCompletionRatio", VNum audioCompletion)] ++ who)
        (product [inputRatioPrice; audio; audioCompletion; ratio] (per_million (a_audioCompletionTokens a))));
     (true, text ← renderDisplayAmountFromUsd storage textPrice;
            audio ← renderDisplayAmountFromUsd storage audioPrice;
            total ← renderDisplayAmountFromUsd storage (num_add textPrice audioPrice);
            Ok (t "合计：文字部分 {{textTotal}} + 音频部分 {{audioTotal}} = {{total}}"
                  [("textTotal", text); ("audioTotal", audio); ("total", total)]));
     (true, Ok (disclaimer t))].

Definition renderAudioModelPrice (a : audio_price) : res shown :=
  let '(ratio, label) := getEffectiveRatio t (a_groupRatio a) (a_user_group_ratio a) in
  if negb (shouldUseRatioBillingProcess storage (a_modelPrice a)) then
    r ← rate_num storage;
    if fixed_price (a_modelPrice a) then Ok (Article (fixed_price_article t storage (a_modelPrice a) ratio label r))
    else Ok (Article (audio_price_article a ratio label r))
  else if fixed_price (a_modelPrice a) then
    r ← rate_num storage; Ok (Text (fixed_price_text t storage (a_modelPrice a) ratio label r))
  else ps ← audio_ratio_article a ratio label; Ok (Article ps).

(** ** Claude models *)

Record claude_price := ClaudePrice {
  c_inputTokens : num; c_completionTokens : num; c_modelRatio : num; c_modelPrice : num;
  c_completionRatio : option num; c_groupRatio : num; c_user_group_ratio : num;
  c_cacheTokens : num; c_cacheRatio : num; c_cacheCreationTokens : num; c_cacheCreationRatio : num;
  c_cacheCreationTokens5m : num; c_cacheCreationRatio5m : num;
  c_cacheCreationTokens1h : num; c_cacheCreationRatio1h : num }.

Definition hasSplitCacheCreation (a : claude_price) : bool :=
  gt0 (c_cacheCreationTokens5m a) || gt0 (c_cacheCreationTokens1h a).

(** The price for the ratios used: read cache, legacy, five minutes, one hour. *)
Definition claude_total (a : claude_price) (ratio completion cache creation five hour : num) : num :=
  let inputRatioPrice := num_mul (c_modelRatio a) (Nz 2) in
  let legacy := if hasSplitCacheCreation a then Nz 0 else c_cacheCreationTokens a in
  let effective := sum [num_mul (c_cacheTokens a) cache; num_mul legacy creation;
                        num_mul (c_cacheCreationTokens5m a) five; num_mul (c_cacheCreationTokens1h a) hour]
                     (c_inputTokens a) in
  num_add (product [inputRatioPrice; ratio] (per_million effective))
          (product [num_mul inputRatioPrice completion; ratio] (per_million (c_completionTokens a))).

(** The lines of the article that exist under a condition: shown or not, and
    the part of the cache. *)
Definition show_cache (a : claude_price) : bool := gt0 (c_cacheTokens a).
Definition show_legacy (a : claude_price) : bool := negb (hasSplitCacheCreation a) && gt0 (c_cacheCreationTokens a).
Definition show_5m (a : claude_price) : bool := hasSplitCacheCreation a && gt0 (c_cacheCreationTokens5m a).
Definition show_1h (a : claude_price) : bool := hasSplitCacheCreation a && gt0 (c_cacheCreationTokens1h a).

Definition claude_price_article (a : claude_price) (ratio : num) (label : string) (r : num) : list string :=
  let completion := default (Nz 0) (c_completionRatio a) in
  let inputRatioPrice := num_mul (c_modelRatio a) (Nz 2) in
  let unit k := fixed6 (product [k; r] inputRatioPrice) in
  let priced key k := t key [("symbol", sym); ("price", unit k)] in
  let segment key k v n := t key [(k, VNum n); ("symbol", sym); ("price", v)] in
  let breakdown :=
    join " + "
      ([segment "提示 {{input}} tokens / 1M tokens * {{symbol}}{{price}}" "input"
          (fixed6 (num_mul inputRatioPrice r)) (c_inputTokens a)] ++
       part (show_cache a) (segment "缓存 {{tokens}} tokens / 1M tokens * {{symbol}}{{price}}" "tokens"
          (unit (c_cacheRatio a)) (c_cacheTokens a)) ++
       part (show_legacy a) (segment "缓存创建 {{tokens}} tokens / 1M tokens * {{symbol}}{{price}}" "tokens"
          (unit (c_cacheCreationRatio a)) (c_cacheCreationTokens a)) ++
       part (show_5m a) (segment "5m缓存创建 {{tokens}} tokens / 1M tokens * {{symbol}}{{price}}" "tokens"
          (unit (c_cacheCreationRatio5m a)) (c_cacheCreationTokens5m a)) ++
       part (show_1h a) (segment "1h缓存创建 {{tokens}} tokens / 1M tokens * {{symbol}}{{price}}" "tokens"
          (unit (c_cacheCreationRatio1h a)) (c_cacheCreationTokens1h a)) ++
       [segment "补全 {{completion}} tokens / 1M tokens * {{symbol}}{{price}}" "completion" (unit completion)
          (c_completionTokens a)]) in
  [t "输入价格：{{symbol}}{{price}} / 1M tokens" [("symbol", sym); ("price", fixed6 (num_mul inputRatioPrice r))];
   priced "补全价格：{{symbol}}{{price}} / 1M tokens" completion] ++
  part (show_cache a) (priced "缓存读取价格：{{symbol}}{{price}} / 1M tokens" (c_cacheRatio a)) ++
  part (show_legacy a) (priced "缓存创建价格：{{symbol}}{{price}} / 1M tokens" (c_cacheCreationRatio a)) ++
  part (show_5m a) (priced "5m缓存创建价格：{{symbol}}{{price}} / 1M tokens" (c_cacheCreationRatio5m a)) ++
  part (show_1h a) (priced "1h缓存创建价格：{{symbol}}{{price}} / 1M tokens" (c_cacheCreationRatio1h a)) ++
  [t "{{breakdown}} * {{ratioType}} {{ratio}} = {{symbol}}{{total}}"
     [("breakdown", VStr breakdown); ("ratioType", VStr label); ("ratio", VNum ratio); ("symbol", sym);
      ("total", fixed6 (num_mul (claude_total a ratio completion (c_cacheRatio a) (c_cacheCreationRatio a)
                                   (c_cacheCreationRatio5m a) (c_cacheCreationRatio1h a)) r))];
   disclaimer t].

Definition claude_ratio_article (a : claude_price) (ratio : num) (label : string) : res (list string) :=
  let completion := formatRatioValue (default (Nz 0) (c_completionRatio a)) 6 in
  let cache := formatRatioValue (c_cacheRatio a) 6 in
  let creation := formatRatioValue (c_cacheCreationRatio a) 6 in
  let five := formatRatioValue (c_cacheCreationRatio5m a) 6 in
  let hour := formatRatioValue (c_cacheCreationRatio1h a) 6 in
  let inputRatioPrice := num_mul (c_modelRatio a) (Nz 2) in
  let modelRatioValue := ("modelRatio", VNum (formatRatioValue (c_modelRatio a) 6)) in
  let who := [("ratioType", VStr label); ("ratio", VNum ratio)] in
  let line key n name k :=
    amount_paragraph key ([("tokens", VNum n); modelRatioValue; (name, VNum k)] ++ who)
      (product [inputRatioPrice; k; ratio] (per_million n)) in
  paragraphs
    [(true, Ok (t "模型倍率 {{modelRatio}}，输出倍率 {{completionRatio}}，缓存倍率 {{cacheRatio}}，{{ratioType}} {{ratio}}"
        ([modelRatioValue; ("completionRatio", VNum completion); ("cacheRatio", VNum cache)] ++ who)));
     (true, Ok (if hasSplitCacheCreation a
        then t "缓存创建倍率 5m {{cacheCreationRatio5m}} / 1h {{cacheCreationRatio1h}}"
               [("cacheCreationRatio5m", VNum five); ("cacheCreationRatio1h", VNum hour)]
        else t "缓存创建倍率 {{cacheCreationRatio}}" [("cacheCreationRatio", VNum creation)]));
     (true, amount_paragraph "普通输入：{{tokens}} / 1M * 模型倍率 {{modelRatio}} * {{ratioType}} {{ratio}} = {{amount}}"
        ([("tokens", VNum (c_inputTokens a)); modelRatioValue] ++ who)
        (product [inputRatioPrice; ratio] (per_million (c_inputTokens a))));
     (show_cache a, line
        "缓存读取：{{tokens}} / 1M * 模型倍率 {{modelRatio}} * 缓存倍率 {{cacheRatio}} * {{ratioType}} {{ratio}} = {{amount}}"
        (c_cacheTokens a) "cacheRatio" cache);
     (show_legacy a, line
        "缓存创建：{{tokens}} / 1M * 模型倍率 {{modelRatio}} * 缓存创建倍率 {{cacheCreationRatio}} * {{ratioType}} {{ratio}} = {{amount}}"
        (c_cacheCreationTokens a) "cacheCreationRatio" creation);
     (show_5m a, line
        "5m缓存创建：{{tokens}} / 1M * 模型倍率 {{modelRatio}} * 5m缓存创建倍率 {{cacheCreationRatio5m}} * {{ratioType}} {{ratio}} = {{amount}}"
        (c_cacheCreationTokens5m a) "cacheCreationRatio5m" five);
     (show_1h a, line
        "1h缓存创建：{{tokens}} / 1M * 模型倍率 {{modelRatio}} * 1h缓存创建倍率 {{cacheCreationRatio1h}} * {{ratioType}} {{ratio}} = {{amount}}"
        (c_cacheCreationTokens1h a) "cacheCreationRatio1h" hour);
     (true, Ok (t "补全 {{completion}} tokens * 输出倍率 {{completionRatio}}"
        [("completion", VNum (c_completionTokens a)); ("completionRatio", VNum completion)]));
     (true, line
        "输出：{{tokens}} / 1M * 模型倍率 {{modelRatio}} * 输出倍率 {{completionRatio}} * {{ratioType}} {{ratio}} = {{amount}}"
        (c_completionTokens a) "completionRatio" completion);
     (true, total ← renderDisplayAmountFromUsd storage (claude_total a ratio completion cache creation five hour);
            Ok (t "合计：{{total}}" [("total", total)]));
     (true, Ok (disclaimer t))].

Definition renderClaudeModelPrice (a : claude_price) : res shown :=
  let '(ratio, label) := getEffectiveRatio t (c_groupRatio a) (c_user_group_ratio a) in
  if negb (shouldUseRatioBillingProcess storage (c_modelPrice a)) then
    r ← rate_num storage;
    if fixed_price (c_modelPrice a) then Ok (Article (fixed_price_article t storage (c_modelPrice a) ratio label r))
    else Ok (Article (claude_price_article a ratio label r))
  else if fixed_price (c_modelPrice a) then
    r ← rate_num storage; Ok (Text (fixed_price_text t storage (c_modelPrice a) ratio label r))
  else ps ← claude_ratio_article a ratio label; Ok (Article ps).

(** ** Properties *)

Lemma ratio_process_not_fixed p : fixed_price p = true → shouldUseRatioBillingProcess storage p = false.
Proof. unfold fixed_price, shouldUseRatioBillingProcess. destruct (num_eqb p (Nz (-1))); done. Qed.

Lemma price_mode_fixed d p : fixed_price p = true → isPriceDisplayMode storage d p = true.
Proof. unfold isPriceDisplayMode, resolveBillingDisplayMode. by intros ->. Qed.

(** A model with a price per call is shown with that price everywhere:
    whatever the display mode and the unit of amounts, the three articles are
    the same one, with the ratio that applies to the user (the own one if it
    is valid, otherwise that of the group), and the two summaries name the
    price and that ratio only. *)
Theorem fixed_price_shown (p g u r : num) (m : model_price) (a : audio_price) (c : claude_price) (l : log) (k : claude_log) :
  fixed_price p = true → rate_num storage = Ok r →
  modelPrice m = p → groupRatio m = g → user_group_ratio m = u →
  a_modelPrice a = p → a_groupRatio a = g → a_user_group_ratio a = u →
  c_modelPrice c = p → c_groupRatio c = g → c_user_group_ratio c = u →
  l_modelPrice l = p → l_groupRatio l = g → l_user_group_ratio l = u →
  k_modelPrice k = p → k_groupRatio k = g → k_user_group_ratio k = u →
  let ratio := if isValidGroupRatio u then u else g in
  let label := (getEffectiveRatio t g u).2 in
  let article := fixed_price_article t storage p ratio label r in
  let summary := joinBillingSummary
    [t "模型价格 {{symbol}}{{price}} / 次" [("symbol", sym); ("price", fixed6 (num_mul p r))];
     t "{{ratioType}} {{ratio}}" [("ratioType", VStr label); ("ratio", VNum ratio)]] in
  renderModelPrice m = Ok (Article article) ∧ renderAudioModelPrice a = Ok (Article article) ∧
  renderClaudeModelPrice c = Ok (Article article) ∧
  renderLogContent t storage l = Ok summary ∧ renderClaudeLogContent t storage k = Ok summary.
Proof.
  intros Hp Hr Hm1 Hm2 Hm3 Ha1 Ha2 Ha3 Hc1 Hc2 Hc3 Hl1 Hl2 Hl3 Hk1 Hk2 Hk3. cbn zeta.
  unfold renderModelPrice, renderAudioModelPrice, renderClaudeModelPrice, renderLogContent, renderClaudeLogContent,
    getGroupRatioText, getEffectiveRatio.
  rewrite Hm1, Hm2, Hm3, Ha1, Ha2, Ha3, Hc1, Hc2, Hc3, Hl1, Hl2, Hl3, Hk1, Hk2, Hk3.
  rewrite ratio_process_not_fixed, !price_mode_fixed, Hp, Hr by done. cbn [negb].
  by destruct (isValidGroupRatio u) eqn:E; rewrite ?E.
Qed.
End article.

(** ** Examples *)

Definition sample_model (price : num) (img : bool) (cached imageTokens : Z) : model_price :=
  ModelPrice (Nz 1000000) (Nz 0) (Nz 1) price None (Nz 1) nan (Nz cached) (num_of_dec false 1 (-1)) img (Nz 1)
    (Nz imageTokens) false (Nz 0) (Nz 0) false (Nz 0) (Nz 0) false (Nz 0) (Nz 0) false (Nz 0).

Lemma fixed_price_shown_witness :
  let t (key : string) (_ : obj) := key in
  let st : gmap string string := {["quota_display_type" := "TOKENS"]} in
  let p := num_of_dec false 5 (-2) in
  ∃ article, renderModelPrice t st (sample_model p false 0 0) = Ok (Article article) ∧ length article = 3%nat.
Proof.
  intros t st p. exists (fixed_price_article t st p (Nz 1) "分组倍率" (Nz 1)). split; [|reflexivity].
  exact (proj1 (fixed_price_shown t st p (Nz 1) nan (Nz 1) (sample_model p false 0 0)
    (AudioPrice (Nz 0) (Nz 0) (Nz 1) p None (Nz 0) (Nz 0) (Nz 1) (Nz 1) (Nz 1) nan (Nz 0) (Nz 1))
    (ClaudePrice (Nz 0) (Nz 0) (Nz 1) p None (Nz 1) nan (Nz 0) (Nz 1) (Nz 0) (Nz 1) (Nz 0) (Nz 1) (Nz 0) (Nz 1))
    (Log (Nz 1) (Nz 1) p (Nz 1) nan (Nz 1) false (Nz 1) false (Nz 0) false (Nz 0) "ratio")
    (ClaudeLog (Nz 1) (Nz 1) p (Nz 1) nan (Nz 1) (Nz 1) (Nz 0) (Nz 1) (Nz 0) (Nz 1) "ratio")
    eq_refl eq_refl eq_refl eq_refl eq_refl eq_refl eq_refl eq_refl eq_refl eq_refl eq_refl eq_refl eq_refl eq_refl
    eq_refl eq_refl eq_refl)).
Defined.

(** A million input tokens, all of an image of ratio one: two dollars in the
    price article, four in the article by ratio, which counts the tokens of
    the image as text too. *)
Lemma image_counted_twice :
  let a := sample_model (Nz (-1)) true 0 1000000 in
  to_fixed (model_total a (Nz 1)) 2 = "2.00" ∧ to_fixed (ratio_total a (Nz 1)) 2 = "4.00".
Proof. vm_compute. done. Qed.

(** A million cached tokens at a tenth of the price: twenty cents, but two
    dollars as soon as one token is of an image. *)
Lemma image_loses_cache_discount :
  to_fixed (model_total (sample_model (Nz (-1)) false 1000000 0) (Nz 1)) 2 = "0.20" ∧
  to_fixed (model_total (sample_model (Nz (-1)) true 1000000 1) (Nz 1)) 2 = "2.00".
Proof. vm_compute. done. Qed.
