(* ===== verification/Dashboard.v ===== *)
(** * The dashboard

    [web/src/helpers/dashboard.jsx] and the hooks [useDashboardCharts.jsx] and
    [useDashboardData.js] of [web/src/hooks/dashboard]: how the rows of the
    usage statistics become totals, trends and charts, and how they are
    loaded.  Numbers are binary64; a row without [token_used] has [NaN] there.
    A JavaScript [Map] is an association list in insertion order.  The time
    zone, the collation of [localeCompare], the local storage and the
    translations are arguments. *)
From Stdlib Require Import Ascii SpecFloat.
From S2P Require Import Prelude JsString JsNumber JsValue Json Dates Render ExactIntegers.
Local Open Scope Z_scope.

(** ** Maps *)

Section maps.
Context {A : Type}.

Definition has (m : list (string * A)) (k : string) : bool := bool_decide (k ∈ m.*1).

(** [map.set(k, v)]. *)
Definition map_set (k : string) (v : A) (m : list (string * A)) : list (string * A) :=
  if has m k then obj_replace k v m else m ++ [(k, v)].
End maps.

Definition zero : num := num_of_Z 0.

Definition initializeMap (key : string) (m : list (string * num)) : list (string * num) :=
  if has m key then m else map_set key zero m.

Definition updateMapValue (m : list (string * num)) (key : string) (value : num) : list (string * num) :=
  let m := initializeMap key m in map_set key (num_add (default nan (obj_get m key)) value) m.

(** [map.get(k) || 0]. *)
Definition get_or_zero (m : list (string * num)) (k : string) : num :=
  match obj_get m k with Some n => if is_nan n then zero else n | None => zero end.

(** ** Intervals *)

Definition getTimeInterval (timeType : string) (isSeconds : bool) : Z :=
  if decide (timeType = "day") then if isSeconds then 86400 else 1440
  else if decide (timeType = "week") then if isSeconds then 604800 else 10080
  else if isSeconds then 3600 else 60.

Definition MAX_TREND_POINTS : nat := 7.

(** A row of the statistics. *)
Record item := Item { created_at : num; model_name : string; quota : num; count : num; token_used : num }.

Section dashboard.
Context (toLocal : Z → Z).
Context (locale_le : relation string) `{!RelDecision locale_le}.
Context (storage : gmap string string).

(** ** Totals and trends *)

Record raw := Raw {
  totalQuota : num; totalTimes : num; totalTokens : num; uniqueModels : list string; timePoints : list string;
  timeQuotaMap : list (string * num); timeTokensMap : list (string * num); timeCountMap : list (string * num) }.

Definition no_raw : raw := Raw zero zero zero [] [] [] [] [].

(** [set.add(x)] and [if (!list.includes(x)) list.push(x)]. *)
Definition add_once (x : string) (l : list string) : list string := if decide (x ∈ l) then l else l ++ [x].

Definition time_key (time : string) (showYear : bool) (i : item) : string :=
  timestamp2string1 toLocal (created_at i) time showYear.

Definition raw_step (time : string) (showYear : bool) (r : raw) (i : item) : raw :=
  let k := time_key time showYear i in
  let q := initializeMap k (timeQuotaMap r) in
  let tk := initializeMap k (timeTokensMap r) in
  let c := initializeMap k (timeCountMap r) in
  Raw (num_add (totalQuota r) (quota i)) (num_add (totalTimes r) (count i)) (num_add (totalTokens r) (token_used i))
    (add_once (model_name i) (uniqueModels r)) (add_once k (timePoints r))
    (updateMapValue q k (quota i)) (updateMapValue tk k (token_used i)) (updateMapValue c k (count i)).

Definition crosses_year (data : list item) : bool := isDataCrossYear toLocal (created_at <$> data).

(** The labels are ASCII texts, which [sort] orders by their bytes. *)
Definition processRawData (data : list item) (time : string) : raw :=
  let r := foldl (raw_step time (crosses_year data)) no_raw data in
  Raw (totalQuota r) (totalTimes r) (totalTokens r) (uniqueModels r) (merge_sort String.le (timePoints r))
    (timeQuotaMap r) (timeTokensMap r) (timeCountMap r).

Record trend := Trend {
  tr_times : list num; tr_consumeQuota : list num; tr_tokens : list num; tr_rpm : list num; tr_tpm : list num }.

(** The lists of balance, used quota and requests stay empty. *)
Definition calculateTrendData (points : list string) (quotas tokens counts : list (string * num)) (time : string)
    : trend :=
  let interval := num_of_Z (getTimeInterval time false) in
  let rates m := if (2 <=? length points)%nat
                 then (λ p, num_div (default nan (obj_get m p)) interval) <$> points else [] in
  Trend (get_or_zero counts <$> points) (get_or_zero quotas <$> points) (get_or_zero tokens <$> points)
    (rates counts) (rates tokens).

(** ** Charts *)

Record cell := Cell { c_time : string; c_model : string; c_quota : num; c_count : num }.

Definition cell_key (time model : string) : string := time +:+ "-" +:+ model.

Definition aggregate_step (time : string) (showYear : bool) (m : list (string * cell)) (i : item)
    : list (string * cell) :=
  let t := time_key time showYear i in
  let key := cell_key t (model_name i) in
  let m := if has m key then m else map_set key (Cell t (model_name i) zero zero) m in
  match obj_get m key with
  | Some c => map_set key (Cell (c_time c) (c_model c) (num_add (c_quota c) (quota i)) (num_add (c_count c) (count i))) m
  | None => m
  end.

Definition aggregateDataByTimeAndModel (data : list item) (time : string) : list (string * cell) :=
  foldl (aggregate_step time (crosses_year data)) [] data.

(** [Math.max(a, b)]. *)
Definition num_max (a b : num) : num := if is_nan a || is_nan b then nan else if num_ltb a b then b else a.

(** The seven instants that end at the last one of the data. *)
Definition generated_timestamps (data : list item) (time : string) : list num :=
  let lastTime := foldl num_max (S754_infinity true) (created_at <$> data) in
  (λ i, num_sub lastTime (num_mul (num_of_Z (6 - Z.of_nat i)) (num_of_Z (getTimeInterval time true))))
  <$> seq 0 MAX_TREND_POINTS.

Definition generateChartTimePoints (aggregated : list (string * cell)) (data : list item) (time : string)
    : list string :=
  let points := uniq (c_time <$> aggregated.*2) in
  if (length points <? MAX_TREND_POINTS)%nat then
    let generated := generated_timestamps data time in
    let showYear := isDataCrossYear toLocal generated in
    (λ ts, timestamp2string1 toLocal ts time showYear) <$> generated
  else points.

Record bar := Bar { b_time : string; b_model : string; rawQuota : num; usage : jsval; timeSum : num }.
Record point := Point { p_time : string; p_model : string; p_count : num }.

Definition or_zero (n : num) : num := if is_nan n then zero else n.

(** The orders of the charts. *)
Definition by_quota (a b : bar) : Prop := num_leb (rawQuota b) (rawQuota a) = true.
#[local] Instance by_quota_dec : RelDecision by_quota.
Proof. intros a b. unfold by_quota. apply _. Defined.
Definition by_count (a b : string * num) : Prop := num_leb b.2 a.2 = true.
#[local] Instance by_count_dec : RelDecision by_count.
Proof. intros a b. unfold by_count. apply _. Defined.
Definition bar_before (a b : bar) : Prop := locale_le (b_time a) (b_time b).
#[local] Instance bar_before_dec : RelDecision bar_before.
Proof. intros a b. unfold bar_before. apply _. Defined.
Definition point_before (a b : point) : Prop := locale_le (p_time a) (p_time b).
#[local] Instance point_before_dec : RelDecision point_before.
Proof. intros a b. unfold point_before. apply _. Defined.

(** The bars of one time. *)
Definition time_bars (aggregated : list (string * cell)) (models : list string) (time : string) : list bar :=
  let bars := (λ model,
      match obj_get aggregated (cell_key time model) with
      | Some c => Bar time model (or_zero (c_quota c))
                    (if truthy (VNum (c_quota c)) then VStr (getQuotaWithUnit storage (c_quota c) 4) else VNum zero) zero
      | None => Bar time model zero (VNum zero) zero
      end) <$> models in
  let s := foldl (λ acc b, num_add acc (rawQuota b)) zero bars in
  let sorted := merge_sort by_quota bars in
  (λ b, Bar (b_time b) (b_model b) (rawQuota b) (usage b) s) <$> sorted.

Definition line_data (aggregated : list (string * cell)) (models points : list string) : list bar :=
  merge_sort bar_before (concat (time_bars aggregated models <$> points)).

Definition model_line_data (aggregated : list (string * cell)) (models points : list string) : list point :=
  merge_sort point_before
    (concat ((λ time, (λ model,
        Point time model (match obj_get aggregated (cell_key time model) with
                          | Some c => or_zero (c_count c) | None => zero end)) <$> models) <$> points)).

(** The counts of the models, the largest first: the pie and the ranking. *)
Definition model_totals (aggregated : list (string * cell)) : list (string * num) :=
  foldl (λ m c, updateMapValue m (c_model c) (c_count c)) [] aggregated.*2.

Definition ranking (totals : list (string * num)) : list (string * num) :=
  merge_sort by_count totals.

(** [generateModelColors(uniqueModels, {})]. *)
Definition generateModelColors (models : list string) : list (string * option string) :=
  foldl (λ m name, obj_set name (modelToColor name) m) [] models.

Record charts := Charts {
  ch_trend : trend; ch_colors : list (string * option string);
  ch_pie : list (string * num); ch_bars : list bar; ch_lines : list point; ch_rank : list (string * num);
  ch_quota : num; ch_times : num; ch_tokens : num }.

Definition updateChartData (data : list item) (time : string) : charts :=
  let r := processRawData data time in
  let aggregated := aggregateDataByTimeAndModel data time in
  let totals := model_totals aggregated in
  let points := generateChartTimePoints aggregated data time in
  Charts (calculateTrendData (timePoints r) (timeQuotaMap r) (timeTokensMap r) (timeCountMap r) time)
    (generateModelColors (uniqueModels r)) (ranking totals)
    (line_data aggregated (uniqueModels r) points) (model_line_data aggregated (uniqueModels r) points)
    (ranking totals) (totalQuota r) (totalTimes r) (totalTokens r).

(** ** Loading *)

Record inputs := Inputs { username : string; start_timestamp : string; end_timestamp : string }.

Inductive effect := Get (url : string) | ShowError (message : jsval) | Login (user : jsval) | SetItem (key value : string).

Record state := State {
  loading : bool; searchModalVisible : bool; ins : inputs; others : list (string * jsval);
  dataExportDefaultTime : string; quotaData : list item; shown_charts : option charts;
  uptimeData : list jsval; uptimeLoading : bool; activeUptimeTab : jsval; effects : list effect }.

Definition setLoading (b : bool) (s : state) : state :=
  let '(State _ v i o d q c u ul a e) := s in State b v i o d q c u ul a e.
Definition setSearchModalVisible (b : bool) (s : state) : state :=
  let '(State l _ i o d q c u ul a e) := s in State l b i o d q c u ul a e.
Definition setQuotaData (q : list item) (s : state) : state :=
  let '(State l v i o d _ c u ul a e) := s in State l v i o d q c u ul a e.
Definition setCharts (c : charts) (s : state) : state :=
  let '(State l v i o d q _ u ul a e) := s in State l v i o d q (Some c) u ul a e.
Definition setUptime (u : list jsval) (tab : jsval) (s : state) : state :=
  let '(State l v i o d q c _ ul _ e) := s in State l v i o d q c u ul tab e.
Definition setUptimeLoading (b : bool) (s : state) : state :=
  let '(State l v i o d q c u _ a e) := s in State l v i o d q c u b a e.
Definition emit (x : effect) (s : state) : state :=
  let '(State l v i o d q c u ul a e) := s in State l v i o d q c u ul a (e ++ [x]).

(** [handleInputChange]: the granularity is stored, everything else is an
    input. *)
Definition handleInputChange (value : string) (name : string) (s : state) : state :=
  let '(State l v i o d q c u ul a e) := s in
  if decide (name = "data_export_default_time")
  then State l v i o value q c u ul a (e ++ [SetItem "data_export_default_time" value])
  else if decide (name = "username") then State l v (Inputs value (start_timestamp i) (end_timestamp i)) o d q c u ul a e
  else if decide (name = "start_timestamp") then State l v (Inputs (username i) value (end_timestamp i)) o d q c u ul a e
  else if decide (name = "end_timestamp") then State l v (Inputs (username i) (start_timestamp i) value) o d q c u ul a e
  else State l v i (obj_define name (VStr value) o) d q c u ul a e.

Context (ofLocal : Z → Z) (legacy_parse : string → option Z).

(** [Date.parse(text)]. *)
Definition parse_time (text : string) : num := date_parse ofLocal legacy_parse text.

Definition quota_url (isAdminUser : bool) (s : state) : string :=
  let seconds text := num_to_str (num_div (parse_time text) (num_of_Z 1000)) in
  (if isAdminUser then "/api/data/?username=" +:+ username (ins s) +:+ "&start_timestamp=" else "/api/data/self/?start_timestamp=")
  +:+ seconds (start_timestamp (ins s)) +:+ "&end_timestamp=" +:+ seconds (end_timestamp (ins s))
  +:+ "&default_time=" +:+ dataExportDefaultTime s.

(** The row shown when there is none; it has no [token_used]. *)
Definition no_data_row (now : num) : item := Item now "无数据" zero zero nan.

Definition earlier (a b : item) : Prop := num_leb (created_at a) (created_at b) = true.
#[local] Instance earlier_dec : RelDecision earlier.
Proof. intros a b. unfold earlier. apply _. Defined.

Definition prepared (now : num) (data : list item) : list item :=
  merge_sort earlier (match data with [] => [no_data_row now] | _ => data end).

(** The answer: [None] for rows is [null]. *)
Inductive reply := Rejected (e : string) | Refused (message : jsval) | Rows (data : option (list item)).

Definition loadQuotaData (isAdminUser : bool) (now : num) (r : reply) (s : state) : state * res (list item) :=
  let s := emit (Get (quota_url isAdminUser s)) (setLoading true s) in
  match r with
  | Rejected e => (setLoading false s, Throw e)
  | Refused message => (setLoading false (emit (ShowError message) s), Ok [])
  | Rows None => (setLoading false s, Throw "Cannot read properties of null (reading 'length')")
  | Rows (Some data) =>
      let data := prepared now data in (setLoading false (setQuotaData data s), Ok data)
  end.

Inductive uptime_reply := NoUptime | UptimeRefused (message : jsval) | Uptime (data : option (list jsval)).

(** [loadUptimeData]: every error is caught. *)
Definition loadUptimeData (r : uptime_reply) (s : state) : state :=
  let s := emit (Get "/api/uptime/status") (setUptimeLoading true s) in
  let s := match r with
           | NoUptime => s
           | UptimeRefused message => emit (ShowError message) s
           | Uptime data =>
               let l := default [] data in
               match l with
               | x :: _ =>
                   if truthy (activeUptimeTab s) then setUptime l (activeUptimeTab s) s
                   else match prop x "categoryName" with
                        | Ok name => setUptime l name s
                        | Throw _ => setUptime l (activeUptimeTab s) s
                        end
               | [] => setUptime l (activeUptimeTab s) s
               end
           end in
  setUptimeLoading false s.

Definition refresh (isAdminUser : bool) (now : num) (r : reply) (u : uptime_reply) (s : state) : state * res (list item) :=
  match loadQuotaData isAdminUser now r s with
  | (s, Ok data) => (loadUptimeData u s, Ok data)
  | (s, Throw e) => (s, Throw e)
  end.

Definition handleSearchConfirm (isAdminUser : bool) (now : num) (r : reply) (u : uptime_reply) (s : state) : state * res () :=
  match refresh isAdminUser now r u s with
  | (s', Ok data) =>
      let s' := match data with
                | [] => s'
                | _ => setCharts (updateChartData data (dataExportDefaultTime s)) s'
                end in
      (setSearchModalVisible false s', Ok ())
  | (s', Throw e) => (s', Throw e)
  end.

(** [performanceMetrics]: requests and tokens per minute. *)
Definition average (total timeDiff : num) : string :=
  let n := num_div total timeDiff in if is_nan n then "0" else to_fixed n 3.

Definition performanceMetrics (c : charts) (s : state) : string * string * num :=
  let timeDiff := num_div (num_sub (parse_time (end_timestamp (ins s))) (parse_time (start_timestamp (ins s))))
                    (num_of_Z 60000) in
  (average (ch_times c) timeDiff, average (ch_tokens c) timeDiff, timeDiff).

(** [getGreeting], by the hour. *)
Definition greeting (t : string → string) (hour : Z) (name : string) : string :=
  (if (5 <=? hour) && (hour <? 12) then t "早上好"
   else if (12 <=? hour) && (hour <? 14) then t "中午好"
   else if (14 <=? hour) && (hour <? 18) then t "下午好"
   else t "晚上好") +:+ "，" +:+ name.

Definition getDefaultTime : string :=
  match storage !! "data_export_default_time" with Some "" | None => "hour" | Some s => s end.

Definition getInitialTimestamp (now : num) : string :=
  let back days := timestamp2string toLocal (num_sub now (num_of_Z (86400 * days))) in
  if decide (getDefaultTime = "hour") then back 1 else if decide (getDefaultTime = "week") then back 30 else back 7.
End dashboard.
