(* ===== verification/DashboardSums.v ===== *)
(** * The dashboard: nothing is lost

    Totals, trends and charts of [Dashboard.updateChartData] are exact sums of
    the rows, for rows whose quota and counts are non-negative integers with
    totals below [2^53]; and where the bars are not. *)
From Stdlib Require Import Ascii SpecFloat.
From S2P Require Import Prelude JsString JsNumber JsValue Dates Render ExactIntegers Dashboard.
Local Open Scope Z_scope.

(** ** Maps *)

Section maps.
Context {A : Type}.
Implicit Types m : list (string * A).

Lemma has_get m k : has m k = bool_decide (is_Some (obj_get m k)).
Proof. unfold has. apply bool_decide_ext. by rewrite obj_get_is_Some. Qed.

Lemma get_map_set m k v k' : obj_get (map_set k v m) k' = if decide (k' = k) then Some v else obj_get m k'.
Proof.
  unfold map_set. rewrite has_get. case_bool_decide as H.
  - rewrite obj_get_replace; [done|]. by destruct H as [? ->].
  - rewrite obj_get_app. apply eq_None_not_Some in H. case_decide; subst.
    + rewrite H. cbn. by rewrite decide_True.
    + destruct (obj_get m k'); [done|]. cbn. by rewrite decide_False.
Qed.

Lemma keys_map_set m k v : (map_set k v m).*1 = if decide (k ∈ m.*1) then m.*1 else m.*1 ++ [k].
Proof.
  unfold map_set, has. case_bool_decide; [rewrite decide_True by done; apply obj_keys_replace|].
  by rewrite decide_False, fmap_app by done.
Qed.

Lemma keys_add_once m k v : (map_set k v m).*1 = add_once k m.*1.
Proof. apply keys_map_set. Qed.

Lemma add_once_idemp k l : add_once k (add_once k l) = add_once k l.
Proof. unfold add_once at 1. rewrite decide_True; [done|]. unfold add_once. case_decide; set_solver. Qed.
End maps.

Lemma get_initialize m k k' :
  obj_get (initializeMap k m) k' = if decide (k' = k) then Some (default zero (obj_get m k)) else obj_get m k'.
Proof.
  unfold initializeMap. rewrite has_get. case_bool_decide as H.
  - case_decide; [subst; by destruct H as [? ->]|done].
  - apply eq_None_not_Some in H. rewrite get_map_set. case_decide; [subst; by rewrite H|done].
Qed.

Lemma get_update m k v k' :
  obj_get (updateMapValue m k v) k'
  = if decide (k' = k) then Some (num_add (default zero (obj_get m k)) v) else obj_get m k'.
Proof.
  unfold updateMapValue. rewrite get_map_set, !get_initialize. cbn. repeat case_decide; simplify_eq; done.
Qed.

Lemma keys_initialize m k : (initializeMap k m).*1 = add_once k m.*1.
Proof.
  unfold initializeMap, has, add_once. case_bool_decide as H; [by rewrite decide_True|].
  by rewrite keys_map_set, !decide_False.
Qed.

Lemma keys_update m k v : (updateMapValue m k v).*1 = add_once k m.*1.
Proof. unfold updateMapValue. by rewrite keys_add_once, keys_initialize, add_once_idemp. Qed.

Lemma uniq_snoc (k : list string) y : uniq (k ++ [y]) = if decide (y ∈ k) then uniq k else uniq k ++ [y].
Proof.
  induction k as [|z k IH]; [done|].
  change (uniq ((z :: k) ++ [y])) with (z :: filter (λ x, x ≠ z) (uniq (k ++ [y]))). rewrite IH.
  change (uniq (z :: k)) with (z :: filter (λ x, x ≠ z) (uniq k)).
  destruct (decide (y ∈ k)) as [Hy|Hy]; [by rewrite decide_True by set_solver|].
  rewrite filter_app, filter_cons. destruct (decide (y = z)) as [->|Hz].
  - rewrite decide_False by naive_solver. rewrite decide_True by set_solver. by rewrite app_nil_r.
  - rewrite decide_True by done. rewrite decide_False by set_solver. done.
Qed.

(** Adding names one by one. *)
Lemma foldl_add_once {A} (f : A → string) l l0 :
  foldl (λ acc x, add_once (f x) acc) l0 l = l0 ++ filter (λ y, y ∉ l0) (uniq (f <$> l)).
Proof.
  revert l0. induction l as [|x l IH] using rev_ind; intros l0; [by rewrite app_nil_r|].
  rewrite foldl_snoc, IH. unfold add_once. rewrite fmap_app.
  cbn [fmap list_fmap]. rewrite uniq_snoc. case_decide as H1; rewrite elem_of_app, list_elem_of_filter, elem_of_uniq in H1.
  - case_decide as H2; [done|]. rewrite filter_app, filter_cons_False; [by rewrite app_nil_r|]. naive_solver.
  - assert ((f x ∉ l0) ∧ (f x ∉ (f <$> l))) as [Hx1 Hx2].
    { split; [naive_solver|]. intros Hx. destruct (decide (f x ∈ l0)); naive_solver. }
    rewrite decide_False, filter_app, filter_cons_True by done. by rewrite app_assoc.
Qed.

Lemma foldl_add_once_nil {A} (f : A → string) l : foldl (λ acc x, add_once (f x) acc) [] l = uniq (f <$> l).
Proof. rewrite foldl_add_once. cbn. apply filter_all. intros x _. apply not_elem_of_nil. Qed.

(** ** Sums by key *)

Section sums.
Context {A : Type} (key : A → string) (w : A → num).

(** A whole number. *)
Definition whole (x : A) : Prop := w x = num_of_Z (num_to_Z (w x)) ∧ 0 ≤ num_to_Z (w x).

Definition total (l : list A) : Z := sum_Z ((λ x, num_to_Z (w x)) <$> l).
Definition at_key (k : string) (l : list A) : list A := filter (λ x, key x = k) l.

Lemma total_nonneg l : Forall whole l → 0 ≤ total l.
Proof. intros H. apply sum_Z_nonneg. rewrite Forall_fmap. eapply Forall_impl; [exact H|]. by intros x []. Qed.

Lemma total_app l1 l2 : total (l1 ++ l2) = total l1 + total l2.
Proof. unfold total. by rewrite fmap_app, sum_Z_app. Qed.

Lemma total_filter_le (P : A → Prop) `{∀ x, Decision (P x)} l : Forall whole l → total (filter P l) ≤ total l.
Proof.
  induction 1 as [|x l [_ Hx] Hl IH]; [done|]. rewrite filter_cons. change (total (x :: l)) with (num_to_Z (w x) + total l).
  case_decide; [|lia]. change (total (x :: filter P l)) with (num_to_Z (w x) + total (filter P l)). lia.
Qed.

Lemma at_key_snoc k l x : at_key k (l ++ [x]) = at_key k l ++ (if decide (key x = k) then [x] else []).
Proof. unfold at_key. rewrite filter_app, filter_cons. by case_decide. Qed.

(** The running total. *)
Lemma running_total l : Forall whole l → total l < 2 ^ 53 →
  foldl (λ acc x, num_add acc (w x)) zero l = num_of_Z (total l).
Proof.
  intros Hl Hs. change (total l) with (0 + total l). unfold total. rewrite <-(sum_exact _ 0); [|done| |done].
  - clear Hs. unfold zero. generalize (num_of_Z 0). induction Hl as [|x l [Hx _] _ IH]; intros acc; [done|].
    cbn. rewrite <-Hx. apply IH.
  - rewrite Forall_fmap. eapply Forall_impl; [exact Hl|]. by intros x [].
Qed.

(** A map of sums. *)
Lemma sums_by_key (f : list (string * num) → A → list (string * num)) l k :
  (∀ m x k', obj_get (f m x) k'
     = if decide (k' = key x) then Some (num_add (default zero (obj_get m (key x))) (w x)) else obj_get m k') →
  Forall whole l → total l < 2 ^ 53 →
  obj_get (foldl f [] l) k = if decide (k ∈ key <$> l) then Some (num_of_Z (total (at_key k l))) else None.
Proof.
  intros Hf. revert k. induction l as [|x l IH] using rev_ind; intros k Hl Hs; [done|].
  apply Forall_app in Hl as [Hl [Hx _]%Forall_cons]. rewrite total_app in Hs.
  assert (total [x] = num_to_Z (w x)) as Ex by (unfold total; cbn; lia). destruct Hx as [Hx Hx0].
  rewrite foldl_snoc, Hf, fmap_app, at_key_snoc. rewrite !IH by (done || lia).
  destruct (decide (k = key x)) as [->|Hk].
  - assert (key x ∈ (key <$> l) ++ (key <$> [x])) as Hmem by (apply elem_of_app; right; by left).
    rewrite (decide_True (P := key x ∈ _ ++ _)), (decide_True (P := key x = key x)) by done.
    rewrite total_app, Ex. f_equal. rewrite Hx at 1.
    pose proof (total_filter_le (λ y, key y = key x) l Hl) as Hle. fold (at_key (key x) l) in Hle.
    pose proof (total_nonneg l Hl).
    assert (0 ≤ total (at_key (key x) l)) by (apply total_nonneg, Forall_forall; intros y [_ Hy]%list_elem_of_filter; rewrite Forall_forall in Hl; by apply Hl).
    case_decide as Hin; cbn [default].
    + apply num_add_exact; lia.
    + assert (at_key (key x) l = []) as ->.
      { apply elem_of_nil_inv. intros y [Hy Hyl]%list_elem_of_filter. destruct Hin. rewrite <-Hy.
        by apply list_elem_of_fmap_2. }
      change (total []) with 0 in *. rewrite <-(num_add_exact 0 (num_to_Z (w x))) by lia. done.
  - rewrite (decide_False (P := key x = k)), app_nil_r by done.
    rewrite (decide_ext (k ∈ (key <$> l) ++ (key <$> [x])) (k ∈ key <$> l)); [done|].
    rewrite elem_of_app. cbn. rewrite list_elem_of_singleton. naive_solver.
Qed.

(** Summing over the keys. *)
Lemma sum_one k0 (z : Z) (g : string → Z) ks : NoDup ks → k0 ∈ ks →
  sum_Z ((λ k, (if decide (k0 = k) then z else 0) + g k) <$> ks) = z + sum_Z (g <$> ks).
Proof.
  assert (∀ ks, k0 ∉ ks → sum_Z ((λ k, (if decide (k0 = k) then z else 0) + g k) <$> ks) = sum_Z (g <$> ks)) as Hout.
  { intros l. induction l as [|k l IH]; [done|]. intros [H1 H2]%not_elem_of_cons. unfold sum_Z in *. cbn.
    rewrite IH by done. rewrite decide_False by done. lia. }
  induction 1 as [|k l Hk Hl IH]; [by intros []%not_elem_of_nil|]. intros [->|Hin]%elem_of_cons.
  - unfold sum_Z in *. cbn. rewrite decide_True by done. specialize (Hout l Hk). lia.
  - unfold sum_Z in *. cbn. rewrite decide_False by congruence. specialize (IH Hin). lia.
Qed.

Lemma total_by_keys l ks : NoDup ks → (∀ x, x ∈ l → key x ∈ ks) →
  sum_Z ((λ k, total (at_key k l)) <$> ks) = total l.
Proof.
  intros Hks. induction l as [|x l IH]; intros Hin.
  - clear. induction ks as [|k ks IH]; [done|]. change (0 + sum_Z ((λ k, total (at_key k [])) <$> ks) = 0). by rewrite IH.
  - change (total (x :: l)) with (num_to_Z (w x) + total l). rewrite <-IH by set_solver.
    rewrite <-(sum_one (key x) (num_to_Z (w x)) (λ k, total (at_key k l)) ks Hks) by set_solver.
    f_equal. apply list_fmap_ext. intros _ k _. unfold at_key. rewrite filter_cons.
    case_decide; [done|lia].
Qed.
End sums.

(** ** Whole numbers *)

Lemma num_to_Z_of_Z z : 0 ≤ z < 2 ^ 53 → num_to_Z (num_of_Z z) = z.
Proof.
  intros Hz. destruct (decide (z = 0)) as [->|Hz0]; [done|].
  destruct (mant_bounds z) as [Hm Hl]; [lia|]. rewrite num_of_Z_pos by lia. unfold num_to_Z.
  rewrite Z2Pos.id by lia. unfold mant. destruct (Z.leb_spec 0 (Z.log2 z - 52)).
  - replace (52 - Z.log2 z) with 0 by lia. replace (Z.log2 z - 52) with 0 by lia. lia.
  - replace (- (Z.log2 z - 52)) with (52 - Z.log2 z) by lia. apply Z.div_mul. apply Z.pow_nonzero; lia.
Qed.

Lemma num_of_Z_number z : 0 ≤ z < 2 ^ 53 → is_nan (num_of_Z z) = false.
Proof.
  intros Hz. destruct (decide (z = 0)) as [->|Hz0]; [done|]. by rewrite num_of_Z_pos by lia.
Qed.

Lemma or_zero_whole z : 0 ≤ z < 2 ^ 53 → or_zero (num_of_Z z) = num_of_Z z.
Proof. intros Hz. unfold or_zero. by rewrite num_of_Z_number. Qed.

(** ** Labels *)

Lemma append_inj (t t' m m' : string) : String.length t = String.length t' →
  t +:+ m = t' +:+ m' → t = t' ∧ m = m'.
Proof.
  revert t'. induction t as [|a t IH]; intros [|a' t'] Hl E; try done.
  change (String a (t +:+ m) = String a' (t' +:+ m')) in E. injection E as -> E.
  injection Hl as Hl. destruct (IH t' Hl E) as [-> ->]. done.
Qed.

Lemma cell_key_inj t t' m m' : String.length t = String.length t' →
  cell_key t m = cell_key t' m' → t = t' ∧ m = m'.
Proof. intros Hl [-> E]%append_inj; [|done]. split; [done|]. by injection E. Qed.

Section charts.
Context (toLocal : Z → Z) (locale_le : relation string) `{!RelDecision locale_le} (storage : gmap string string).
Context (data : list item) (time : string).

Let sy : bool := crosses_year toLocal data.
Let label : item → string := time_key toLocal time sy.
Let ckey (i : item) : string := cell_key (label i) (model_name i).

Lemma get_init_update m k v k' :
  obj_get (updateMapValue (initializeMap k m) k v) k'
  = if decide (k' = k) then Some (num_add (default zero (obj_get m k)) v) else obj_get m k'.
Proof. rewrite get_update, !get_initialize. cbn. repeat case_decide; simplify_eq; done. Qed.

Definition time_sums (w : item → num) (m : list (string * num)) (i : item) : list (string * num) :=
  updateMapValue (initializeMap (label i) m) (label i) (w i).

Lemma raw_components l :
  foldl (raw_step toLocal time sy) no_raw l
  = Raw (foldl (λ acc i, num_add acc (quota i)) zero l) (foldl (λ acc i, num_add acc (count i)) zero l)
      (foldl (λ acc i, num_add acc (token_used i)) zero l)
      (foldl (λ acc i, add_once (model_name i) acc) [] l) (foldl (λ acc i, add_once (label i) acc) [] l)
      (foldl (time_sums quota) [] l) (foldl (time_sums token_used) [] l) (foldl (time_sums count) [] l).
Proof. induction l as [|i l IH] using rev_ind; [done|]. by rewrite !foldl_snoc, IH. Qed.

Section exact.
Hypothesis Hq : Forall (whole quota) data.
Hypothesis Hc : Forall (whole count) data.
Hypothesis Hq_small : total quota data < 2 ^ 53.
Hypothesis Hc_small : total count data < 2 ^ 53.

Lemma whole_filter (w : item → num) (P : item → Prop) `{∀ i, Decision (P i)} :
  Forall (whole w) data → total w data < 2 ^ 53 → 0 ≤ total w (filter P data) < 2 ^ 53.
Proof.
  intros Hw Hs. pose proof (total_filter_le w P data Hw). split; [|lia].
  apply total_nonneg, Forall_forall. intros i [_ Hi]%list_elem_of_filter. rewrite Forall_forall in Hw. by apply Hw.
Qed.

Lemma trend_points (w : item → num) :
  Forall (whole w) data → total w data < 2 ^ 53 → ∀ p, p ∈ label <$> data →
  get_or_zero (foldl (time_sums w) [] data) p = num_of_Z (total w (at_key label p data)).
Proof.
  intros Hw Hs p Hp. unfold get_or_zero.
  rewrite (sums_by_key label w) by (done || intros; apply get_init_update). rewrite decide_True by done.
  rewrite num_of_Z_number; [done|]. by apply whole_filter.
Qed.

(** Totals and trends are exact: the totals are the sums of the rows;
    the labels of the trends are those of the rows, each once and in order;
    the value at a label is the sum of its rows; and the values of a trend add
    up to the total. *)
Theorem trend_exact :
  let c := updateChartData toLocal locale_le storage data time in
  ch_quota c = num_of_Z (total quota data) ∧ ch_times c = num_of_Z (total count data) ∧
  ∃ points, Sorted String.le points ∧ NoDup points ∧ (∀ p, p ∈ points ↔ p ∈ label <$> data) ∧
    tr_consumeQuota (ch_trend c) = (λ p, num_of_Z (total quota (at_key label p data))) <$> points ∧
    tr_times (ch_trend c) = (λ p, num_of_Z (total count (at_key label p data))) <$> points ∧
    sum_Z ((λ p, total quota (at_key label p data)) <$> points) = total quota data.
Proof.
  unfold updateChartData, processRawData. fold sy. rewrite raw_components. cbn.
  rewrite !running_total by done. split_and!; [done|done|].
  rewrite foldl_add_once_nil. set (points := merge_sort String.le (uniq (label <$> data))). exists points.
  assert (∀ p, p ∈ points ↔ p ∈ label <$> data) as Hin.
  { intros p. unfold points. rewrite merge_sort_Permutation. apply elem_of_uniq. }
  assert (NoDup points) as Hnd by (unfold points; rewrite merge_sort_Permutation; apply NoDup_uniq).
  split_and!; try done.
  - apply Sorted_merge_sort. apply _.
  - apply list_fmap_ext. intros _ p Hp%list_elem_of_lookup_2. apply trend_points; [done..|by apply Hin].
  - apply list_fmap_ext. intros _ p Hp%list_elem_of_lookup_2. apply trend_points; [done..|by apply Hin].
  - apply total_by_keys; [done|]. intros i Hi. apply Hin. by apply list_elem_of_fmap_2.
Qed.

(** *** Cells *)

(** A cell of the rows [l]. *)
Definition cell_of (l : list item) (k : string) (c : cell) : Prop :=
  cell_key (c_time c) (c_model c) = k ∧ (∃ i, i ∈ l ∧ c_time c = label i ∧ c_model c = model_name i) ∧
  c_quota c = num_of_Z (total quota (at_key ckey k l)) ∧ c_count c = num_of_Z (total count (at_key ckey k l)).

Lemma total_snoc (w : item → num) k l i :
  total w (at_key ckey k (l ++ [i])) = total w (at_key ckey k l) + (if decide (ckey i = k) then num_to_Z (w i) else 0).
Proof.
  rewrite at_key_snoc, total_app. f_equal. case_decide; [|done]. unfold total. cbn. lia.
Qed.

Lemma num_add_row (w : item → num) k l i :
  Forall (whole w) (l ++ [i]) → total w (l ++ [i]) < 2 ^ 53 →
  num_add (num_of_Z (total w (at_key ckey k l))) (w i) = num_of_Z (total w (at_key ckey k l) + num_to_Z (w i)).
Proof.
  intros [Hl [[Hi Hi0] _]%Forall_cons]%Forall_app Hs. rewrite Hi at 1. rewrite total_app in Hs.
  assert (total w [i] = num_to_Z (w i)) as Ei by (unfold total; cbn; lia).
  pose proof (total_filter_le w (λ j, ckey j = k) l Hl) as Hle. fold (at_key ckey k l) in Hle.
  assert (0 ≤ total w (at_key ckey k l)).
  { apply total_nonneg, Forall_forall. intros j [_ Hj]%list_elem_of_filter. rewrite Forall_forall in Hl. by apply Hl. }
  apply num_add_exact; lia.
Qed.

Lemma cell_of_mono l i k c : ckey i ≠ k → cell_of l k c → cell_of (l ++ [i]) k c.
Proof.
  intros Hne (H1 & (j & Hj & Hj2) & H3 & H4). split_and!; [done|exists j; set_solver|..].
  - by rewrite total_snoc, decide_False, Z.add_0_r.
  - by rewrite total_snoc, decide_False, Z.add_0_r.
Qed.

(** The step adds a row to the cell of its key, which it creates if needed. *)
Lemma aggregate_step_get m i k :
  let c0 := default (Cell (label i) (model_name i) zero zero) (obj_get m (ckey i)) in
  obj_get (aggregate_step toLocal time sy m i) k
  = if decide (k = ckey i)
    then Some (Cell (c_time c0) (c_model c0) (num_add (c_quota c0) (quota i)) (num_add (c_count c0) (count i)))
    else obj_get m k.
Proof.
  cbn zeta. unfold aggregate_step. fold (label i). change (cell_key (label i) (model_name i)) with (ckey i).
  rewrite has_get. case_bool_decide as H.
  - destruct H as [c H]. rewrite H, get_map_set. done.
  - apply eq_None_not_Some in H. rewrite get_map_set, decide_True by done. rewrite !get_map_set, H. cbn.
    by repeat case_decide.
Qed.

Lemma aggregate_step_keys m i : (aggregate_step toLocal time sy m i).*1 = add_once (ckey i) m.*1.
Proof.
  unfold aggregate_step. fold (label i). change (cell_key (label i) (model_name i)) with (ckey i).
  unfold has. case_bool_decide as H.
  - assert (is_Some (obj_get m (ckey i))) as [c Hc'] by (by apply obj_get_is_Some). rewrite Hc'.
    apply keys_add_once.
  - rewrite get_map_set, decide_True by done. by rewrite !keys_add_once, add_once_idemp.
Qed.

Lemma aggregate_keys l : (foldl (aggregate_step toLocal time sy) [] l).*1 = uniq (ckey <$> l).
Proof.
  rewrite <-foldl_add_once_nil. induction l as [|i l IH] using rev_ind; [done|].
  by rewrite !foldl_snoc, aggregate_step_keys, IH.
Qed.

Lemma aggregate_cells l :
  Forall (whole quota) l → Forall (whole count) l → total quota l < 2 ^ 53 → total count l < 2 ^ 53 →
  ∀ k c, obj_get (foldl (aggregate_step toLocal time sy) [] l) k = Some c → cell_of l k c.
Proof.
  intros H1 H2 H3 H4.
  induction l as [|i l IH] using rev_ind; [done|]. intros k c. rewrite foldl_snoc, aggregate_step_get.
  set (m := foldl _ [] l) in *.
  assert (∀ k c, obj_get m k = Some c → cell_of l k c) as IH'.
  { assert (∀ w : item → num, Forall (whole w) (l ++ [i]) → total w (l ++ [i]) < 2 ^ 53 →
      Forall (whole w) l ∧ total w l < 2 ^ 53) as Hpre.
    { intros w [Hl [[_ Hi] _]%Forall_cons]%Forall_app Hs. split; [done|]. rewrite total_app in Hs.
      unfold total in Hs at 2. cbn in Hs. lia. }
    destruct (Hpre quota H1 H3), (Hpre count H2 H4). by apply IH. }
  case_decide as Hk; [|intros Hc'; apply cell_of_mono; [done|by apply IH']].
  subst k. intros [= <-]. destruct (obj_get m (ckey i)) as [c0|] eqn:E; cbn [default].
  - destruct (IH' _ _ E) as (Hk & (j & Hj & Hj1 & Hj2) & Hcq & Hcc). split_and!; cbn.
    + done.
    + exists j. set_solver.
    + rewrite Hcq, total_snoc, decide_True by done. by apply num_add_row.
    + rewrite Hcc, total_snoc, decide_True by done. by apply num_add_row.
  - assert (at_key ckey (ckey i) l = []) as Hnil.
    { assert (ckey i ∉ (ckey <$> l)) as Hnin.
      { apply obj_get_None in E. unfold obj_keys in E. by rewrite <-elem_of_uniq, <-aggregate_keys. }
      apply elem_of_nil_inv. intros j [Hj Hjl]%list_elem_of_filter. destruct Hnin. rewrite <-Hj.
      by apply list_elem_of_fmap_2. }
    split_and!; cbn; [done|exists i; set_solver|..].
    + rewrite total_snoc, decide_True by done. rewrite <-(num_add_row quota (ckey i) l i) by done. by rewrite Hnil.
    + rewrite total_snoc, decide_True by done. rewrite <-(num_add_row count (ckey i) l i) by done. by rewrite Hnil.
Qed.

(** *** Bars *)

(** Rows whose dates have years of four digits have labels of one length. *)
Hypothesis Hlen : ∀ i j, i ∈ data → j ∈ data → String.length (label i) = String.length (label j).

Definition rows_of (t m : string) : list item := filter (λ i, label i = t ∧ model_name i = m) data.

Lemma filter_ext_in {A} (P Q : A → Prop) `{∀ x, Decision (P x), ∀ x, Decision (Q x)} (l : list A) :
  (∀ x, x ∈ l → P x ↔ Q x) → filter P l = filter Q l.
Proof.
  induction l as [|x l IH]; intros HPQ; [done|]. rewrite !filter_cons, IH by set_solver.
  assert (P x ↔ Q x) by set_solver. by repeat case_decide; naive_solver.
Qed.

Lemma rows_at_key t m : t ∈ label <$> data → at_key ckey (cell_key t m) data = rows_of t m.
Proof.
  intros (j & -> & Hj)%list_elem_of_fmap. apply filter_ext_in. intros i Hi. split.
  2: { intros [E1 <-]. unfold ckey. by rewrite E1. }
  intros E. apply cell_key_inj in E as [-> ->]; [done|by apply Hlen].
Qed.

Let agg : list (string * cell) := aggregateDataByTimeAndModel toLocal data time.

Lemma agg_cell k c : obj_get agg k = Some c → cell_of data k c.
Proof. by apply aggregate_cells. Qed.

Lemma agg_keys : agg.*1 = uniq (ckey <$> data).
Proof. apply aggregate_keys. Qed.

Lemma bar_quota t m : t ∈ label <$> data →
  match obj_get agg (cell_key t m) with Some c => or_zero (c_quota c) | None => zero end
  = num_of_Z (total quota (rows_of t m)).
Proof.
  intros Ht. rewrite <-rows_at_key by done. destruct (obj_get agg (cell_key t m)) as [c|] eqn:E.
  - destruct (agg_cell _ _ E) as (_ & _ & -> & _). apply or_zero_whole. by apply whole_filter.
  - apply obj_get_None in E. unfold obj_keys in E. rewrite agg_keys, elem_of_uniq in E.
    assert (at_key ckey (cell_key t m) data = []) as ->; [|done].
    apply elem_of_nil_inv. intros i [Hi Hid]%list_elem_of_filter. destruct E. rewrite <-Hi. by apply list_elem_of_fmap_2.
Qed.

Let models : list string := uniq (model_name <$> data).

(** The sum over the models at one time. *)
Lemma time_total t : sum_Z ((λ m, total quota (rows_of t m)) <$> models) = total quota (at_key label t data).
Proof.
  rewrite <-(total_by_keys model_name quota (at_key label t data) models).
  - f_equal. apply list_fmap_ext. intros _ m _. unfold at_key, rows_of. rewrite list_filter_filter.
    f_equal. apply list_filter_iff. naive_solver.
  - apply NoDup_uniq.
  - intros i [_ Hi]%list_elem_of_filter. apply elem_of_uniq. by apply list_elem_of_fmap_2.
Qed.

(** One bar before sorting. *)
Definition one_bar (t m : string) : bar :=
  match obj_get agg (cell_key t m) with
  | Some c => Bar t m (or_zero (c_quota c))
                (if truthy (VNum (c_quota c)) then VStr (getQuotaWithUnit storage (c_quota c) 4) else VNum zero) zero
  | None => Bar t m zero (VNum zero) zero
  end.

Lemma one_bar_fields t m : t ∈ label <$> data →
  b_time (one_bar t m) = t ∧ b_model (one_bar t m) = m ∧ rawQuota (one_bar t m) = num_of_Z (total quota (rows_of t m)).
Proof. intros Ht. rewrite <-bar_quota by done. unfold one_bar. by destruct (obj_get agg _). Qed.

Lemma time_sum t : t ∈ label <$> data →
  foldl (λ acc b, num_add acc (rawQuota b)) zero (one_bar t <$> models) = num_of_Z (total quota (at_key label t data)).
Proof.
  intros Ht.
  assert (∀ m, num_to_Z (rawQuota (one_bar t m)) = total quota (rows_of t m)) as Hz.
  { intros m. destruct (one_bar_fields t m Ht) as (_ & _ & ->). apply num_to_Z_of_Z. by apply whole_filter. }
  assert (total rawQuota (one_bar t <$> models) = total quota (at_key label t data)) as Et.
  { rewrite <-time_total. unfold total at 1. rewrite <-list_fmap_compose. f_equal. apply list_fmap_ext.
    intros _ m _. apply Hz. }
  rewrite running_total, Et; [done| |rewrite Et; by apply whole_filter].
  apply Forall_fmap, Forall_forall. intros m _. unfold whole. cbn. rewrite Hz.
  destruct (one_bar_fields t m Ht) as (_ & _ & ->). split; [done|]. by apply whole_filter.
Qed.

Lemma time_bars_perm t : t ∈ label <$> data →
  time_bars storage agg models t ≡ₚ
  (λ m, Bar t m (num_of_Z (total quota (rows_of t m))) (usage (one_bar t m))
          (num_of_Z (total quota (at_key label t data)))) <$> models.
Proof.
  intros Ht. unfold time_bars. fold (one_bar t). rewrite merge_sort_Permutation, time_sum by done.
  rewrite <-list_fmap_compose. apply reflexive_eq, list_fmap_ext. intros _ m _. cbn.
  by destruct (one_bar_fields t m Ht) as (-> & -> & ->).
Qed.

Lemma agg_elem c : c ∈ agg.*2 ↔ ∃ k, obj_get agg k = Some c.
Proof.
  rewrite list_elem_of_fmap. split.
  - intros ([k c'] & -> & Hin). exists k. apply elem_of_obj_get; [|done]. unfold obj_keys. rewrite agg_keys. apply NoDup_uniq.
  - intros [k Hk%obj_get_elem_of]. by exists (k, c).
Qed.

Lemma agg_of_row i : i ∈ data → ∃ c, obj_get agg (ckey i) = Some c ∧ c_time c = label i ∧ c_model c = model_name i.
Proof.
  intros Hi. assert (is_Some (obj_get agg (ckey i))) as [c Hc'].
  { apply obj_get_is_Some. unfold obj_keys. rewrite agg_keys, elem_of_uniq. by apply list_elem_of_fmap_2. }
  exists c. split; [done|]. destruct (agg_cell _ _ Hc') as (E & (j & Hj & Hj1 & Hj2) & _).
  rewrite Hj1, Hj2 in *. apply cell_key_inj in E; [done|by apply Hlen].
Qed.

Lemma agg_times : uniq (c_time <$> agg.*2) ≡ₚ uniq (label <$> data).
Proof.
  apply NoDup_Permutation; [apply NoDup_uniq..|]. intros t. rewrite !elem_of_uniq, !list_elem_of_fmap. split.
  - intros (c & -> & [k Hk]%agg_elem). destruct (agg_cell _ _ Hk) as (_ & (i & Hi & -> & _) & _). by exists i.
  - intros (i & -> & Hi). destruct (agg_of_row i Hi) as (c & Hc' & <- & _). exists c. split; [done|].
    apply agg_elem. by exists (ckey i).
Qed.

(** The bars, whatever their order. *)
Definition exact_bar (t m : string) : bar :=
  Bar t m (num_of_Z (total quota (rows_of t m))) (usage (one_bar t m)) (num_of_Z (total quota (at_key label t data))).

Lemma bars_perm points : (∀ t, t ∈ points → t ∈ label <$> data) →
  line_data locale_le storage agg models points ≡ₚ (points ≫= λ t, exact_bar t <$> models).
Proof.
  intros Hp. unfold line_data. rewrite merge_sort_Permutation. induction points as [|t points IH]; [done|].
  cbn. rewrite IH by set_solver. f_equiv. apply time_bars_perm. set_solver.
Qed.

Lemma exact_bars_total points :
  total rawQuota (points ≫= λ t, exact_bar t <$> models)
  = sum_Z ((λ t, total quota (at_key label t data)) <$> points).
Proof.
  induction points as [|t points IH]; [done|].
  change ((t :: points) ≫= λ t, exact_bar t <$> models) with ((exact_bar t <$> models) ++ (points ≫= λ t, exact_bar t <$> models)).
  rewrite total_app, IH. cbn [fmap list_fmap].
  change (sum_Z (?x :: ?l)) with (x + sum_Z l). f_equal.
  rewrite <-time_total. unfold total at 1. rewrite <-list_fmap_compose. f_equal. apply list_fmap_ext. intros _ m _.
  apply num_to_Z_of_Z. by apply whole_filter.
Qed.

(** With seven labels or more the bar chart is exact: there is one bar
    for every label and model, its height is the sum of the quota of exactly
    these rows, the sum it carries is that of all rows of its label, and the
    bars add up to the total of the rows. *)
Theorem bars_exact :
  (7 ≤ length (uniq (label <$> data)))%nat →
  let bars := ch_bars (updateChartData toLocal locale_le storage data time) in
  (λ b, (b_time b, b_model b)) <$> bars
    ≡ₚ (uniq (label <$> data) ≫= λ t, (λ m, (t, m)) <$> uniq (model_name <$> data)) ∧
  Forall (λ b, rawQuota b = num_of_Z (total quota (rows_of (b_time b) (b_model b))) ∧
               timeSum b = num_of_Z (total quota (at_key label (b_time b) data))) bars ∧
  total rawQuota bars = total quota data.
Proof.
  intros H7 bars. set (points := generateChartTimePoints toLocal agg data time).
  assert (points ≡ₚ uniq (label <$> data)) as Hpoints.
  { unfold points, generateChartTimePoints. rewrite agg_times.
    destruct (Nat.ltb_spec (length (uniq (label <$> data))) MAX_TREND_POINTS); [unfold MAX_TREND_POINTS in *; lia|].
    apply agg_times. }
  assert (bars ≡ₚ (uniq (label <$> data) ≫= λ t, exact_bar t <$> models)) as Hbars.
  { unfold bars, updateChartData, processRawData. fold sy agg points. rewrite raw_components. cbn.
    rewrite foldl_add_once_nil. fold models. rewrite bars_perm; [by rewrite Hpoints|].
    intros t. by rewrite Hpoints, elem_of_uniq. }
  split_and!.
  - rewrite Hbars. clear. induction (uniq (label <$> data)) as [|t l IH]; [done|]. cbn.
    rewrite fmap_app, IH. f_equiv. rewrite <-list_fmap_compose. done.
  - apply Forall_forall. intros b. rewrite Hbars. intros (t & (m & -> & _)%list_elem_of_fmap & _)%list_elem_of_bind. done.
  - assert (total rawQuota bars = total rawQuota (uniq (label <$> data) ≫= λ t, exact_bar t <$> models)) as ->.
    { unfold total. apply sum_Z_perm. by rewrite Hbars. }
    rewrite exact_bars_total. apply total_by_keys; [apply NoDup_uniq|]. intros i Hi. apply elem_of_uniq.
    by apply list_elem_of_fmap_2.
Qed.

(** *** Models *)

Let kc (c : cell) : string := cell_key (c_time c) (c_model c).

Lemma agg_kc : kc <$> agg.*2 = agg.*1.
Proof.
  rewrite <-list_fmap_compose. apply list_fmap_ext. intros _ [k c] Hin%list_elem_of_lookup_2. cbn.
  apply elem_of_obj_get in Hin; [|unfold obj_keys; rewrite agg_keys; apply NoDup_uniq].
  by destruct (agg_cell _ _ Hin) as (<- & _).
Qed.

Lemma cell_count c : c ∈ agg.*2 → c_count c = num_of_Z (total count (at_key ckey (kc c) data)).
Proof. intros [k Hk]%agg_elem. destruct (agg_cell _ _ Hk) as (Ek & _ & _ & ->). unfold kc. by rewrite Ek. Qed.

Lemma cell_count_Z c : c ∈ agg.*2 → num_to_Z (c_count c) = total count (at_key ckey (kc c) data).
Proof. intros Hin. rewrite cell_count by done. apply num_to_Z_of_Z. by apply whole_filter. Qed.

(** The cells of a set of models hold exactly the rows of these models. *)
Lemma cells_total (P : string → Prop) `{∀ m, Decision (P m)} :
  total c_count (filter (λ c, P (c_model c)) agg.*2) = total count (filter (λ i, P (model_name i)) data).
Proof.
  set (cells := filter _ agg.*2). set (rows := filter _ data).
  assert (∀ c, c ∈ cells → c ∈ agg.*2 ∧ P (c_model c)) as Hcells by (intros c []%list_elem_of_filter; done).
  rewrite <-(total_by_keys ckey count rows (kc <$> cells)).
  - unfold total at 1. rewrite <-list_fmap_compose. f_equal. apply list_fmap_ext. intros _ c Hin%list_elem_of_lookup_2.
    destruct (Hcells c Hin) as [Hagg HP]. cbn. rewrite cell_count_Z by done. f_equal.
    unfold at_key, rows. rewrite list_filter_filter. apply filter_ext_in. intros i Hi. split; [|tauto].
    intros E. split; [done|]. apply agg_elem in Hagg as [k Hk].
    destruct (agg_cell _ _ Hk) as (_ & (j & Hj & Hj1 & Hj2) & _). unfold kc, ckey in E.
    rewrite Hj1 in E. apply cell_key_inj in E as [_ ->]; [done|by apply Hlen].
  - apply (sublist_NoDup _ agg.*1); [rewrite agg_keys; apply NoDup_uniq|]. rewrite <-agg_kc.
    apply fmap_sublist, sublist_filter.
  - intros i [HP Hi]%list_elem_of_filter. destruct (agg_of_row i Hi) as (c & Hk & Ht & Hm).
    apply list_elem_of_fmap. exists c. split; [unfold kc, ckey; by rewrite Ht, Hm|].
    apply list_elem_of_filter. rewrite Hm. split; [done|]. apply agg_elem. by exists (ckey i).
Qed.

Lemma cells_whole : Forall (whole c_count) agg.*2 ∧ total c_count agg.*2 < 2 ^ 53.
Proof.
  split.
  - apply Forall_forall. intros c Hin. unfold whole. rewrite cell_count_Z by done.
    split; [by apply cell_count|by apply whole_filter].
  - pose proof (cells_total (λ _, True)) as E. rewrite !filter_all in E by done. by rewrite E.
Qed.

Lemma model_cells : c_model <$> agg.*2 ⊆ model_name <$> data ∧ model_name <$> data ⊆ c_model <$> agg.*2.
Proof.
  split; intros m (x & -> & Hx)%list_elem_of_fmap.
  - apply agg_elem in Hx as [k Hk]. destruct (agg_cell _ _ Hk) as (_ & (i & Hi & _ & ->) & _). by apply list_elem_of_fmap_2.
  - destruct (agg_of_row x Hx) as (c & Hk & _ & <-). apply list_elem_of_fmap_2, agg_elem. by exists (ckey x).
Qed.

Lemma update_keys {A} (key : A → string) (w : A → num) l :
  (foldl (λ m x, updateMapValue m (key x) (w x)) [] l).*1 = uniq (key <$> l).
Proof.
  rewrite <-foldl_add_once_nil. induction l as [|x l IH] using rev_ind; [done|]. by rewrite !foldl_snoc, keys_update, IH.
Qed.

(** The pie and the ranking are exact: every model of the rows occurs
    once, with the sum of the counts of its rows, and the counts add up to the
    total. *)
Theorem pie_exact :
  let c := updateChartData toLocal locale_le storage data time in
  let pie := ch_pie c in
  ch_rank c = pie ∧ NoDup pie.*1 ∧ (∀ m, m ∈ pie.*1 ↔ m ∈ model_name <$> data) ∧
  Forall (λ mv, mv.2 = num_of_Z (total count (at_key model_name mv.1 data))) pie ∧
  sum_Z ((λ m, total count (at_key model_name m data)) <$> pie.*1) = total count data.
Proof.
  cbn zeta. split; [done|]. set (pie := ch_pie _).
  assert (pie ≡ₚ model_totals agg) as Hpie by apply merge_sort_Permutation.
  assert ((model_totals agg).*1 = uniq (c_model <$> agg.*2)) as Hkeys by apply update_keys.
  assert (NoDup pie.*1) as Hnd by (rewrite Hpie, Hkeys; apply NoDup_uniq).
  assert (∀ m, m ∈ pie.*1 ↔ m ∈ model_name <$> data) as Hin.
  { intros m. rewrite Hpie, Hkeys, elem_of_uniq. destruct model_cells as [H1 H2]. split; [apply H1|apply H2]. }
  destruct cells_whole as [Hw Hs]. split_and!; [done|done| |].
  - apply Forall_forall. intros [m v] Hmv. cbn. rewrite Hpie in Hmv.
    apply elem_of_obj_get in Hmv; [|unfold obj_keys; rewrite Hkeys; apply NoDup_uniq].
    unfold model_totals in Hmv. rewrite (sums_by_key c_model c_count) in Hmv by (done || intros; apply get_update).
    case_decide; [|done]. injection Hmv as <-. f_equal. unfold at_key. exact (cells_total (λ m', m' = m)).
  - apply total_by_keys; [done|]. intros i Hi. apply Hin. by apply list_elem_of_fmap_2.
Qed.
End exact.
End charts.

(** ** Lengths of labels *)

Lemma length_chars s : String.length s = length (chars s).
Proof. induction s as [|a s IH]; [done|]. cbn. by rewrite IH. Qed.

Lemma length_append s t : String.length (s +:+ t) = (String.length s + String.length t)%nat.
Proof. by rewrite !length_chars, chars_app, length_app. Qed.

Lemma pad_length z : 0 ≤ z < 60 → String.length (pad (pretty z)) = 2%nat.
Proof. intros Hz. destruct (pad_digits z Hz) as (a & b & E & _). by rewrite length_chars, E. Qed.

Lemma year_length z : 1000 ≤ z < 10000 → String.length (pretty z) = 4%nat.
Proof. intros Hz. destruct (year_digits z Hz) as (a & b & c & d & E & _). by rewrite length_chars, E. Qed.

(** An instant with a year of four digits. *)
Definition four_digits_at (toLocal : Z → Z) (ms : num) : Prop :=
  ∃ f, local_fields toLocal (new_date ms) = Some f ∧ 1000 ≤ year f < 10000.

Lemma day_str_length toLocal ms sy : four_digits_at toLocal ms →
  String.length (day_str sy (local_fields toLocal (new_date ms))) = (if sy then 10 else 5)%nat.
Proof.
  intros (f & E & Hy). rewrite E. unfold local_fields in E. destruct (new_date ms) as [x|]; [|done].
  injection E as <-. destruct (fields_of_spec (x + toLocal x)) as (_ & _ & Hm & Hd & _).
  set (f := fields_of _) in *. unfold day_str, field_str.
  destruct sy; rewrite !length_append, !pad_length by lia; [by rewrite year_length|done].
Qed.

(** Labels of rows with such dates (and, for weeks, such ends of the week)
    have one length. *)
Lemma label_length toLocal time sy (data : list item) :
  Forall (λ i, four_digits_at toLocal (num_mul (created_at i) (num_of_Z 1000)) ∧
               four_digits_at toLocal (num_add (num_mul (created_at i) (num_of_Z 1000))
                                               (num_of_Z (6 * 24 * 60 * 60 * 1000)))) data →
  ∀ i j, i ∈ data → j ∈ data →
  String.length (time_key toLocal time sy i) = String.length (time_key toLocal time sy j).
Proof.
  intros HF. enough (∃ n, ∀ i, i ∈ data → String.length (time_key toLocal time sy i) = n) as [n Hn].
  { intros i j Hi Hj. by rewrite !Hn. }
  exists ((if sy then 10 else 5) + (if bool_decide (time = "hour") then 6
    else if bool_decide (time = "week") then 3 + (if sy then 10 else 5) else 0))%nat.
  intros i Hi. rewrite Forall_forall in HF. destruct (HF i Hi) as [H1 H2]. unfold time_key, timestamp2string1.
  case_bool_decide; [|case_bool_decide].
  - rewrite !length_append, day_str_length by done. destruct H1 as (f & E & _). rewrite E.
    unfold local_fields in E. destruct (new_date _) as [x|]; [|done]. injection E as <-.
    destruct (fields_of_spec (x + toLocal x)) as (_ & _ & _ & _ & Hh & _). cbn [field_str]. rewrite pad_length by lia. done.
  - rewrite !length_append, !day_str_length by done. cbn. lia.
  - rewrite day_str_length by done. lia.
Qed.

(** ** Examples *)

(** Noon of the day [d] after 2024-03-01, in UTC; [n] rows, one a day. *)
Definition noon (d : Z) : num := num_of_Z (1709294400 + 86400 * d).
Definition utc : Z → Z := λ _, 0.
Definition sample_row (d q : Z) : item := Item (noon d) "gpt-4" (num_of_Z q) (num_of_Z 1) (num_of_Z 10).
Definition sample_week : list item := (λ d, sample_row d (d + 1)) <$> seqZ 0 7.
Definition units : gmap string string := {["quota_per_unit" := "500000"]}.

Lemma sample_whole : Forall (whole quota) sample_week ∧ Forall (whole count) sample_week.
Proof. split; repeat (apply Forall_cons; split; [split; vm_compute; done|]); by apply Forall_nil. Qed.

Lemma sample_lengths i j : i ∈ sample_week → j ∈ sample_week →
  String.length (time_key utc "day" (crosses_year utc sample_week) i)
  = String.length (time_key utc "day" (crosses_year utc sample_week) j).
Proof.
  apply label_length. repeat (apply Forall_cons; split; [split; eexists; (split; [vm_compute; reflexivity|done])|]).
  by apply Forall_nil.
Qed.

Lemma trend_exact_witness :
  let c := updateChartData utc String.le units sample_week "day" in
  ch_quota c = num_of_Z 28 ∧ ch_times c = num_of_Z 7.
Proof.
  destruct sample_whole as [H1 H2].
  destruct (trend_exact utc String.le units sample_week "day" H1 H2 ltac:(vm_compute; reflexivity) ltac:(vm_compute; reflexivity))
    as (Hq & Ht & _). split; [exact Hq|exact Ht].
Defined.

Lemma bars_exact_witness :
  total rawQuota (ch_bars (updateChartData utc String.le units sample_week "day")) = 28.
Proof.
  destruct sample_whole as [H1 H2].
  destruct (bars_exact utc String.le units sample_week "day" H1 H2 ltac:(vm_compute; reflexivity)
    ltac:(vm_compute; reflexivity) sample_lengths) as (_ & _ & H); [vm_compute; lia|].
  exact H.
Defined.

Lemma pie_exact_witness :
  NoDup (ch_pie (updateChartData utc String.le units sample_week "day")).*1.
Proof.
  destruct sample_whole as [H1 H2].
  destruct (pie_exact utc String.le units sample_week "day" H1 H2 ltac:(vm_compute; reflexivity)
    ltac:(vm_compute; reflexivity) sample_lengths) as (_ & H & _). exact H.
Defined.

(** Two rows ten days apart: the total counts both, the bars only the later
    one, since fewer than seven labels are replaced by the last seven days. *)
Lemma old_rows_missing :
  let c := updateChartData utc String.le units [sample_row 0 5; sample_row 10 1] "day" in
  ch_quota c = num_of_Z 6 ∧ total rawQuota (ch_bars c) = 1.
Proof. vm_compute. done. Qed.

(** A row of 2025-01-03: the last seven days reach into the year before, so
    the labels of the bars carry the year while those of the row do not, and
    every bar is empty. *)
Lemma new_year_bars_empty :
  let c := updateChartData utc String.le units [sample_row 308 5] "day" in
  ch_quota c = num_of_Z 5 ∧ total rawQuota (ch_bars c) = 0 ∧
  time_key utc "day" false (sample_row 308 5) = "01-03" ∧ last (b_time <$> ch_bars c) = Some "2025-01-03".
Proof. vm_compute. done. Qed.
