(* ===== verification/Playground.v ===== *)
(** * The playground

    [web/src/pages/Playground/index.jsx]: the requests of the test scenarios,
    reading a streamed answer, the verdicts, and the page's state: the choice
    of token, channel, model and format, and the running tests.  Times are
    left out of the results.  A chunk of a stream is the text
    [decoder.decode(value, {stream: true})] gives for it: the decoder keeps
    incomplete characters back, so the chunks make up the decoded stream. *)
From Stdlib Require Import Ascii SpecFloat.
From S2P Require Import Prelude JsString JsNumber JsValue Json.

(** ** Scenarios *)

Inductive format := openai | anthropic.
#[export] Instance format_eq_dec : EqDecision format.
Proof. solve_decision. Defined.

Inductive category := basic | tools.
#[export] Instance category_eq_dec : EqDecision category.
Proof. solve_decision. Defined.

Record scenario := Scenario { sc_id : string; sc_category : category; formats : list format }.

(** Without names, descriptions and icons. *)
Definition TEST_SCENARIOS : list (string * scenario) :=
  (λ s, (sc_id s, s)) <$>
  [Scenario "basic_chat" basic [openai; anthropic]; Scenario "function_calling" basic [openai; anthropic];
   Scenario "streaming" basic [openai; anthropic]; Scenario "claude_code" tools [anthropic];
   Scenario "cursor" tools [openai]; Scenario "cline" tools [anthropic]].

(** ** Requests *)

Record request := Request {
  url : string; method : string; headers : list (string * string); body : obj; rq_stream : bool }.

Definition key_headers (f : format) (effectiveApiKey : string) : list (string * string) :=
  match f with
  | anthropic => [("Content-Type", "application/json"); ("x-api-key", effectiveApiKey);
                  ("anthropic-version", "2023-06-01")]
  | openai => [("Content-Type", "application/json"); ("Authorization", "Bearer " +:+ effectiveApiKey)]
  end.

Definition endpoint (f : format) : string :=
  match f with anthropic => "/v1/messages" | openai => "/v1/chat/completions" end.

Definition chat_message (role content : string) : jsval := VObj [("role", VStr role); ("content", VStr content)].
Definition user_says (content : string) : jsval := VArr [chat_message "user" content].
Definition tokens (z : Z) : string * jsval := ("max_tokens", VNum (num_of_Z z)).

(** [{ type: 'string', description }]. *)
Definition string_param (description : string) : jsval :=
  VObj [("type", VStr "string"); ("description", VStr description)].
Definition object_schema (properties : obj) (required : list string) : jsval :=
  VObj [("type", VStr "object"); ("properties", VObj properties); ("required", VArr (VStr <$> required))].
Definition anthropic_tool (name description : string) (schema : jsval) : jsval :=
  VObj [("name", VStr name); ("description", VStr description); ("input_schema", schema)].
Definition openai_tool (name description : string) (schema : jsval) : jsval :=
  VObj [("type", VStr "function");
        ("function", VObj [("name", VStr name); ("description", VStr description); ("parameters", schema)])].

Definition body_function_calling (f : format) (model : string) : obj :=
  let city := ("location", string_param "The city, e.g. Tokyo, Japan") in
  let description := "Get the current weather in a given location" in
  let question := ("messages", user_says "What is the weather like in Tokyo today?") in
  match f with
  | anthropic =>
      [("model", VStr model); tokens 1024;
       ("tools", VArr [anthropic_tool "get_weather" description (object_schema
          [city; ("unit", VObj [("type", VStr "string"); ("enum", VArr [VStr "celsius"; VStr "fahrenheit"])])]
          ["location"])]);
       question]
  | openai =>
      [("model", VStr model); tokens 500;
       ("tools", VArr [openai_tool "get_weather" description (object_schema [city] ["location"])]);
       question]
  end.

Definition body_claude_code (model : string) : obj :=
  [("model", VStr model); tokens 1024; ("stream", VBool true);
   ("system", VStr "You are a coding assistant. Use the provided tools to help the user.");
   ("tools", VArr
     [anthropic_tool "execute_command" "Execute a shell command"
        (object_schema [("command", string_param "The shell command to execute")] ["command"]);
      anthropic_tool "read_file" "Read the contents of a file"
        (object_schema [("path", string_param "The file path to read")] ["path"])]);
   ("messages", user_says "List the files in the current directory")].

Definition body_cursor (model : string) : obj :=
  [("model", VStr model); tokens 500; ("stream", VBool true);
   ("messages", VArr [chat_message "system" "You are a helpful coding assistant.";
                      chat_message "user" "What is the weather in Tokyo?"]);
   ("tools", VArr [openai_tool "get_weather" "Get weather for a location"
      (object_schema [("location", VObj [("type", VStr "string")])] ["location"])])].

Definition body_cline (model : string) : obj :=
  [("model", VStr model); tokens 1024; ("stream", VBool true);
   ("system", VStr "You are Cline, a highly skilled software engineer.");
   ("tools", VArr
     [anthropic_tool "read_file" "Read file contents at the given path"
        (object_schema [("path", string_param "File path")] ["path"]);
      anthropic_tool "write_to_file" "Write content to a file"
        (object_schema [("path", string_param "File path"); ("content", string_param "File content")]
           ["path"; "content"])]);
   ("messages", user_says "Read the file at ./package.json")].

(** The channel is named by a suffix of the key. *)
Definition effective_key (apiKey channelId : string) : string :=
  if decide (channelId = "") then apiKey else apiKey +:+ "-" +:+ channelId.

Definition buildRequest (scenarioId model baseUrl apiKey : string) (f : format) (channelId : string)
    : option request :=
  let effectiveApiKey := effective_key apiKey channelId in
  let post f body stream :=
    Some (Request (baseUrl +:+ endpoint f) "POST" (key_headers f effectiveApiKey) body stream) in
  if decide (scenarioId = "basic_chat") then
    post f [("model", VStr model); tokens 100; ("messages", user_says "请用一句话介绍你自己")] false
  else if decide (scenarioId = "function_calling") then post f (body_function_calling f model) false
  else if decide (scenarioId = "streaming") then
    post f [("model", VStr model); tokens 100; ("stream", VBool true); ("messages", user_says "Count from 1 to 5")]
      true
  else if decide (scenarioId = "claude_code") then post anthropic (body_claude_code model) true
  else if decide (scenarioId = "cursor") then post openai (body_cursor model) true
  else if decide (scenarioId = "cline") then post anthropic (body_cline model) true
  else None.

Definition generateCurlCommand (r : request) : string :=
  let dq := String DQ "" in
  let continued := " " +:+ String BSL (String NL "") in
  let hs := join continued ((λ '(k, v), "  -H " +:+ dq +:+ k +:+ ": " +:+ v +:+ dq) <$> headers r) in
  "curl -X POST " +:+ url r +:+ continued +:+ hs +:+ continued +:+ "  -d '" +:+ stringify2 (VObj (body r)) +:+ "'".

(** ** Reading a stream *)

Record stream_data := StreamData {
  chunks : nat; events : list jsval; hasToolUse : bool; toolNames : list jsval; textContent : string;
  error : jsval }.

Definition no_data : stream_data := StreamData 0 [] false [] "" VNull.

(** What an event does: it changes the counters, and may stop with an error
    that is caught and dropped; what it did before stays. *)
Definition setTool (d : stream_data) : stream_data :=
  StreamData (chunks d) (events d) true (toolNames d) (textContent d) (error d).
Definition addName (name : jsval) (d : stream_data) : stream_data :=
  if truthy name then StreamData (chunks d) (events d) (hasToolUse d) (toolNames d ++ [name]) (textContent d) (error d)
  else d.
Definition addText (s : string) (d : stream_data) : stream_data :=
  StreamData (chunks d) (events d) (hasToolUse d) (toolNames d) (textContent d +:+ s) (error d).
Definition addEvent (e : jsval) (d : stream_data) : stream_data :=
  StreamData (S (chunks d)) (events d ++ [e]) (hasToolUse d) (toolNames d) (textContent d) (error d).
Definition setError (v : jsval) (d : stream_data) : stream_data :=
  StreamData (chunks d) (events d) (hasToolUse d) (toolNames d) (textContent d) v.

(** [event.choices?.[0]?.delta]. *)
Definition openai_delta (e : jsval) : jsval := prop_opt (prop_opt (prop_opt e "choices") "0") "delta".

(** The names of [for (const tc of calls)], up to the first element whose
    [function] cannot be read. *)
Fixpoint call_names (calls : list jsval) (d : stream_data) : stream_data * bool :=
  match calls with
  | [] => (d, true)
  | tc :: calls =>
      if is_nullish tc then (d, false)
      else call_names calls (addName (prop_opt (prop_opt tc "function") "name") d)
  end.

(** [content_block_start] of a tool. *)
Definition starts_tool (e : jsval) : bool :=
  is_str "content_block_start" (prop_opt e "type") && is_str "tool_use" (prop_opt (prop_opt e "content_block") "type").

Definition text_delta (e : jsval) : bool :=
  is_str "content_block_delta" (prop_opt e "type") && is_str "text_delta" (prop_opt (prop_opt e "delta") "type").

(** [textContent += event.choices[0].delta.content]. *)
Definition content_event (e : jsval) (d : stream_data) : stream_data :=
  let c := prop_opt (openai_delta e) "content" in
  if truthy c then match to_str c with Ok s => addText s d | Throw _ => d end else d.

(** The OpenAI parts; characters of a text that is iterated have no
    [function]. *)
Definition openai_event (e : jsval) (d : stream_data) : stream_data :=
  let calls := prop_opt (openai_delta e) "tool_calls" in
  if truthy calls then
    match calls with
    | VArr l => let '(d, fine) := call_names l (setTool d) in if (fine : bool) then content_event e d else d
    | VStr _ => content_event e (setTool d)
    | _ => setTool d
    end
  else content_event e d.

(** One parsed event; reading a property of [null] throws. *)
Definition stream_event (e : jsval) (d : stream_data) : stream_data :=
  let d := addEvent e d in
  if is_nullish e then d
  else
    let d := if starts_tool e then addName (prop_opt (prop_opt e "content_block") "name") (setTool d) else d in
    if text_delta e then
      match to_str (js_or (prop_opt (prop_opt e "delta") "text") (VStr "")) with
      | Ok s => openai_event e (addText s d)
      | Throw _ => d
      end
    else openai_event e d.

(** [line.slice(6)] of a line that starts with [data: ]. *)
Definition data_of (line : string) : option string :=
  match line with
  | String "d" (String "a" (String "t" (String "a" (String ":" (String " " rest))))) => Some (trim rest)
  | _ => None
  end.

(** The event of a line, if it has one. *)
Definition line_event (line : string) : option jsval :=
  match data_of line with
  | Some s => if decide (s = "[DONE]") then None else json_parse s
  | None => None
  end.

Definition stream_line (d : stream_data) (line : string) : stream_data :=
  match line_event line with Some e => stream_event e d | None => d end.

(** [lines.pop() || ''] splits off the last line. *)
Definition pop (lines : list string) : list string * string :=
  (removelast lines, default "" (last lines)).

(** One round of the loop: the buffer and the data. *)
Definition read_chunk (st : string * stream_data) (text : string) : string * stream_data :=
  let '(buffer, d) := st in
  let '(lines, buffer) := pop (split_on NL (buffer +:+ text)) in
  (buffer, foldl stream_line d lines).

(** What [reader.read()] gives until it is done. *)
Inductive read := Chunk (text : string) | ReadFails (message : string).

(** The loop; an error keeps the data read so far. *)
Fixpoint read_loop (reads : list read) (st : string * stream_data) : stream_data * option string :=
  match reads with
  | [] => (st.2, None)
  | Chunk text :: reads => read_loop reads (read_chunk st text)
  | ReadFails message :: _ => (st.2, Some message)
  end.

(** Equal members of a [Set], for values that are no objects. *)
Definition same_member (v w : jsval) : bool :=
  match v, w with
  | VStr s, VStr t => bool_decide (s = t)
  | VNum n, VNum m => num_eqb n m
  | VBool a, VBool b => Bool.eqb a b
  | _, _ => false
  end.

(** [[...new Set(names)]]: objects are all different. *)
Definition unique_names (names : list jsval) : list jsval :=
  foldl (λ acc v, if existsb (same_member v) acc then acc else acc ++ [v]) [] names.

(** [text.slice(0, n)] counts UTF-16 units: four bytes of UTF-8 are two
    units, other characters one.  Half a pair, which has no representation,
    is left out. *)
Fixpoint take_units (n : nat) (s : list ascii) : list ascii :=
  match s with
  | [] => []
  | c :: s' =>
      let b := N_of_ascii c in
      if ((128 <=? b) && (b <? 192))%N then c :: take_units n s'        (* continues a character *)
      else if (b <? 240)%N then match n with S n => c :: take_units n s' | 0 => [] end
      else match n with S (S n) => c :: take_units n s' | _ => [] end
  end.

(** ** Execution *)

(** What [fetch] gives. *)
Record response := Response {
  rp_status : Z; rp_json : res jsval; rp_text : res string; rp_body : list read }.

Definition rp_ok (r : response) : bool := ((200 <=? rp_status r) && (rp_status r <=? 299))%Z.

Record outcome := Outcome { data : jsval; httpStatus : Z; isStream : bool; streamData : option stream_data }.

Definition error_data (message : jsval) : jsval := VObj [("error", VObj [("message", message)])].

Definition finish_stream (d : stream_data) : stream_data :=
  StreamData (chunks d) (events d) (hasToolUse d) (unique_names (toolNames d)) (textContent d) (error d).

(** The events are stored when the stream has ended. *)
Definition fail_stream (message : string) (d : stream_data) : outcome :=
  Outcome (error_data (VStr message)) 0 true
    (Some (StreamData (chunks d) [] (hasToolUse d) (toolNames d) (textContent d) (VStr message))).

Definition executeStreamRequest (fetched : res response) : outcome :=
  match fetched with
  | Throw e => fail_stream e no_data
  | Ok resp =>
      if rp_ok resp then
        match read_loop (rp_body resp) ("", no_data) with
        | (d, Some e) => fail_stream e d
        | (d, None) =>
            let d := finish_stream d in
            Outcome (VObj [("_stream", VBool true); ("chunks", VNum (num_of_Z (Z.of_nat (chunks d))));
                           ("events_sample", VArr (take 3 (events d)));
                           ("text_preview", VStr (of_chars (take_units 200 (chars (textContent d)))))])
              (rp_status resp) true (Some d)
        end
      else
        match rp_text resp with
        | Throw e => fail_stream e no_data
        | Ok errText =>
            match json_parse errText with
            | Some errJson =>
                Outcome errJson (rp_status resp) true
                  (Some (setError (js_or (prop_opt (prop_opt errJson "error") "message") (VStr errText)) no_data))
            | None =>
                Outcome (error_data (VStr errText)) (rp_status resp) true (Some (setError (VStr errText) no_data))
            end
        end
  end.

Definition executeRequest (r : request) (fetched : res response) : outcome :=
  if rq_stream r then executeStreamRequest fetched
  else match (resp ← fetched; j ← rp_json resp; Ok (resp, j)) with
       | Ok (resp, j) => Outcome j (rp_status resp) false None
       | Throw e => Outcome (error_data (VStr e)) 0 false None
       end.

(** ** Verdicts *)

Record verdict := Verdict { success : bool; analysis : string }.

Definition pass (s : string) : res verdict := Ok (Verdict true s).
Definition refuse (s : string) : res verdict := Ok (Verdict false s).

(** [l.join(', ')]. *)
Definition join_values (l : list jsval) : res string :=
  parts ← res_map (λ v, if is_nullish v then Ok "" else to_str v) l; Ok (join ", " parts).

(** [v?.length]. *)
Definition length_opt (v : jsval) : jsval :=
  match v with VStr s => VNum (num_of_Z (Z.of_nat (String.length s))) | _ => prop_opt v "length" end.

(** [v?.length > 0]; of a text it only matters whether it is empty. *)
Definition has_length (v : jsval) : res bool :=
  n ← to_num (length_opt v); Ok (num_ltb (num_of_Z 0) n).

(** [content.filter(b => b.type === type)]. *)
Fixpoint blocks (type : string) (content : list jsval) : res (list jsval) :=
  match content with
  | [] => Ok []
  | b :: content =>
      t ← prop b "type"; rest ← blocks type content;
      Ok (if is_str type t then b :: rest else rest)
  end.

Definition nat_text (n : nat) : string := pretty (N.of_nat n).

(** [if (data.content && Array.isArray(data.content))]. *)
Definition content_blocks (data : jsval) : option (list jsval) :=
  match prop_opt data "content" with VArr l => Some l | _ => None end.

(** [data.choices[0]?.message]. *)
Definition first_message (data : jsval) : jsval := prop_opt (prop_opt (prop_opt data "choices") "0") "message".

Definition openai_chat (data : jsval) : res verdict :=
  some ← has_length (prop_opt data "choices");
  if (some : bool) && truthy (prop_opt (first_message data) "content")
  then pass "✅ 对话正常 — 模型已响应" else refuse "❌ 响应格式异常".

Definition analyzeBasicChat (data : jsval) : res verdict :=
  match content_blocks data with
  | Some content =>
      texts ← blocks "text" content;
      match texts with
      | [] => openai_chat data
      | _ => pass ("✅ 对话正常 — 返回 " +:+ nat_text (length texts) +:+ " 个文本块")
      end
  | None => openai_chat data
  end.

Definition tool_label (scenarioId : string) : string :=
  default "Tool Use" (obj_get
    [("function_calling", "Function Calling"); ("claude_code", "Claude Code 工具调用");
     ("cursor", "Cursor Function Calling"); ("cline", "Cline 工具调用")] scenarioId).

Definition tool_called (label names : string) : string := "✅ " +:+ label +:+ "正常 — 调用了: " +:+ names.
Definition text_only (label : string) : string := "⚠️ 返回文本但未调用工具 — " +:+ label +:+ "可能不被支持".

Definition openai_tools (label : string) (data : jsval) : res verdict :=
  let malformed := refuse ("❌ " +:+ label +:+ " — 响应格式异常") in
  some ← has_length (prop_opt data "choices");
  if (some : bool) then
    let msg := first_message data in
    calls ← has_length (prop_opt msg "tool_calls");
    if (calls : bool) then
      match prop_opt msg "tool_calls" with
      | VArr l =>
          names ← res_map (λ t, f ← prop t "function"; Ok (prop_opt f "name")) l;
          names ← join_values names; pass (tool_called label names)
      | _ => Throw "msg.tool_calls.map is not a function"
      end
    else if truthy (prop_opt msg "content") then refuse (text_only label) else malformed
  else malformed.

Definition analyzeToolUse (data : jsval) (scenarioId : string) : res verdict :=
  let label := tool_label scenarioId in
  match content_blocks data with
  | Some content =>
      toolBlocks ← blocks "tool_use" content;
      match toolBlocks with
      | [] => texts ← blocks "text" content;
              match texts with [] => openai_tools label data | _ => refuse (text_only label) end
      | _ => names ← join_values ((λ b, prop_opt b "name") <$> toolBlocks); pass (tool_called label names)
      end
  | None => openai_tools label data
  end.

Definition tool_scenarios : list string := ["function_calling"; "claude_code"; "cursor"; "cline"].

Definition analyzeStreamResponse (scenarioId : string) (d : stream_data) : res verdict :=
  let n := nat_text (chunks d) in
  if truthy (error d) then e ← to_str (error d); refuse ("❌ 流式错误: " +:+ e)
  else if decide (chunks d = 0%nat) then refuse "❌ 未收到任何流式数据"
  else if bool_decide (scenarioId ∈ tool_scenarios) then
    if hasToolUse d then
      names ← join_values (toolNames d);
      pass ("✅ Streaming + Tool Use 正常 — 收到 " +:+ n +:+ " 个数据块"
            +:+ match toolNames d with [] => "" | _ => " — 调用了: " +:+ names end)
    else if bool_decide (textContent d ≠ "")
    then refuse ("⚠️ Streaming 正常但未调用工具 — 收到 " +:+ n +:+ " 个数据块，模型返回了文本")
    else refuse ("❌ Streaming 异常 — 收到 " +:+ n +:+ " 个数据块但无有效内容")
  else if bool_decide (textContent d ≠ "") || bool_decide (2 < chunks d)%nat
  then pass ("✅ Streaming 正常 — 收到 " +:+ n +:+ " 个数据块")
  else refuse ("❌ Streaming 异常 — 仅收到 " +:+ n +:+ " 个数据块").

(** [data.error.message || JSON.stringify(data.error)]. *)
Definition error_text (e : jsval) : res string :=
  let m := prop_opt e "message" in if truthy m then to_str m else Ok (stringify e).

Definition analyzeResponse (scenarioId : string) (o : outcome) : res verdict :=
  match isStream o, streamData o with
  | true, Some d => analyzeStreamResponse scenarioId d
  | _, _ =>
      if negb (truthy (data o)) then refuse "❌ 无响应数据"
      else if truthy (prop_opt (data o) "error") then
        e ← error_text (prop_opt (data o) "error"); refuse ("❌ 错误: " +:+ e)
      else if decide (scenarioId = "basic_chat") then analyzeBasicChat (data o)
      else if bool_decide (scenarioId ∈ tool_scenarios) then analyzeToolUse (data o) scenarioId
      else if decide (scenarioId = "streaming") then refuse "❌ streaming 测试应该走流式处理"
      else pass "✅ 请求成功"
  end.

(** ** The page *)

Record page := Page {
  baseUrl : string; tokenKeys : list (string * jsval * jsval);   (** key, name, id *)
  selectedToken : string; allModels : list jsval; selectedModel : string;
  channels : list jsval; selectedChannel : string; apiFormat : format;
  results : gmap string (option (outcome * verdict * request));
  loadingMap : gmap string bool; isAdmin : bool }.

Definition setResults (f : gmap string (option (outcome * verdict * request))
                         → gmap string (option (outcome * verdict * request))) (p : page) : page :=
  let '(Page a b c d e g h i r l ad) := p in Page a b c d e g h i (f r) l ad.
Definition setLoadingMap (f : gmap string bool → gmap string bool) (p : page) : page :=
  let '(Page a b c d e g h i r l ad) := p in Page a b c d e g h i r (f l) ad.
Definition setSelectedModel (m : string) (p : page) : page :=
  let '(Page a b c d e g h i r l ad) := p in Page a b c d m g h i r l ad.
Definition setApiFormat (f : format) (p : page) : page :=
  let '(Page a b c d e g h i r l ad) := p in Page a b c d e g h f r l ad.
Definition setSelectedChannel (ch : string) (p : page) : page :=
  let '(Page a b c d e g h i r l ad) := p in Page a b c d e g ch i r l ad.
Definition setTokenKeys (ts : list (string * jsval * jsval)) (p : page) : page :=
  let '(Page a b c d e g h i r l ad) := p in
  Page a ts (match ts with [] => c | (k, _, _) :: _ => k end) d e g h i r l ad.
Definition setAllModels (ms : list jsval) (p : page) : page :=
  let '(Page a b c d e g h i r l ad) := p in Page a b c ms e g h i r l ad.
(** [setChannels(list); setIsAdmin(true)]. *)
Definition setChannels (cs : list jsval) (p : page) : page :=
  let '(Page a b c d e g h i r l ad) := p in Page a b c d e cs h i r l true.

(** [channels.find(c => String(c.id) === String(selectedChannel))]. *)
Fixpoint find_channel (selected : string) (cs : list jsval) : res (option jsval) :=
  match cs with
  | [] => Ok None
  | c :: cs => i ← prop c "id"; s ← to_str i; if decide (s = selected) then Ok (Some c) else find_channel selected cs
  end.

(** The models offered: those of the chosen channel, if it names any. *)
Definition models (p : page) : res (list jsval) :=
  if bool_decide (selectedChannel p = "") || negb (isAdmin p) then Ok (allModels p)
  else
    found ← find_channel (selectedChannel p) (channels p);
    let ms := prop_opt (default VUndef found) "models" in
    if truthy ms then
      match ms with
      | VStr s =>
          match filter (λ m, m ≠ "") (trim <$> split_on "," s) with
          | [] => Ok (allModels p)
          | ms => Ok (VStr <$> ms)
          end
      | _ => Throw "ch.models.split is not a function"
      end
    else Ok (allModels p).

(** The first effect: a model that is not offered is deselected. *)
Definition drop_model (p : page) : res page :=
  ms ← models p;
  Ok (match ms with
      | [] => p
      | _ => if bool_decide (selectedModel p ≠ "") && negb (existsb (is_str (selectedModel p)) ms)
             then setSelectedModel "" p else p
      end).

(** The third effect: the format follows the model. *)
Definition detect_format (p : page) : page :=
  if decide (selectedModel p = "") then p
  else let m := to_lower (selectedModel p) in
       setApiFormat (if includes "claude" m || includes "anthropic" m then anthropic else openai) p.

(** [availableScenarios] and the two groups. *)
Definition availableScenarios (p : page) : list scenario :=
  filter (λ s, apiFormat p ∈ formats s) TEST_SCENARIOS.*2.
Definition scenarios_of (c : category) (p : page) : list scenario :=
  filter (λ s, sc_category s = c) (availableScenarios p).

(** *** Loading *)

(** The items of a list that may be wrapped: [Array.isArray(d) ? d : d.items || []]. *)
Definition items_of (d : jsval) : res jsval :=
  match d with VArr l => Ok (VArr l) | _ => i ← prop d "items"; Ok (js_or i (VArr [])) end.

(** The key request of a token: [None] when it fails or gives no key. *)
Definition token_entry (t : jsval) (reply : res jsval) : option (string * jsval * jsval) :=
  match reply with
  | Ok r =>
      match prop_opt (prop_opt r "data") "key" with
      | VStr key =>
          if decide (key = "") then None
          else let fullKey := if starts_with "sk-" key then key else "sk-" +:+ key in
               match prop t "id", prop t "name" with
               | Ok i, Ok n =>
                   if truthy n then Some (fullKey, n, i)
                   else match to_str i with
                        | Ok s => Some (fullKey, VStr ("Token #" +:+ s), i)
                        | Throw _ => None
                        end
               | _, _ => None
               end
      | _ => None
      end
  | Throw _ => None
  end.

(** [tokenItems.filter(t => t.status === 1)]. *)
Fixpoint active_tokens (items : list jsval) : res (list jsval) :=
  match items with
  | [] => Ok []
  | t :: items =>
      s ← prop t "status"; rest ← active_tokens items;
      Ok (match s with VNum n => if num_eqb n (num_of_Z 1) then t :: rest else rest | _ => rest end)
  end.

(** The active tokens of an answer, if it is a success. *)
Definition tokens_of (r : jsval) : res (option (list jsval)) :=
  ok ← prop r "success"; d ← prop r "data";
  if truthy ok then
    items ← items_of d;
    match items with
    | VArr l => ts ← active_tokens l; Ok (Some ts)
    | _ => Throw "tokenItems.filter is not a function"
    end
  else Ok None.

(** The tokens whose key request gave a key; [keys] answers these requests. *)
Definition load_tokens (reply : res jsval) (keys : jsval → res jsval) (p : page) : page :=
  match r ← reply; tokens_of r with
  | Ok (Some ts) => setTokenKeys (omap (λ t, token_entry t (keys t)) ts) p
  | _ => p
  end.

(** [modelsRes.data.success && modelsRes.data.data]. *)
Definition payload (r : jsval) : res (option jsval) :=
  ok ← prop r "success"; d ← prop r "data"; Ok (if truthy ok && truthy d then Some d else None).

Definition map_items (f : jsval → res jsval) (d : jsval) : res (list jsval) :=
  items ← items_of d;
  match items with
  | VArr l => names ← res_map f l; Ok (filter (λ v, truthy v = true) names)
  | _ => Throw "arr.map is not a function"
  end.

Definition model_name (m : jsval) : res jsval :=
  match m with
  | VStr s => Ok (VStr s)
  | _ => i ← prop m "id"; n ← prop m "name"; Ok (js_or i n)
  end.

Definition pricing_name (m : jsval) : res jsval := a ← prop m "model_name"; b ← prop m "model"; Ok (js_or a b).

(** [names.sort()] by the texts; UTF-8 orders them as UTF-16 does, except
    for characters beyond the basic plane. *)
Definition text_le (a b : string * jsval) : Prop := String.le a.1 b.1.
#[export] Instance text_le_dec : RelDecision text_le.
Proof. intros a b. unfold text_le. apply _. Defined.

Definition sorted_names (names : list jsval) : res (list jsval) :=
  keyed ← res_map (λ v, s ← to_str v; Ok (s, v)) names; Ok ((merge_sort text_le keyed).*2).

Definition user_models (r : jsval) : res (option (list jsval)) :=
  d ← payload r; match d with Some d => ms ← map_items model_name d; Ok (Some ms) | None => Ok None end.

Definition pricing_models (r : jsval) : res (option (list jsval)) :=
  d ← payload r;
  match d with
  | Some d => ms ← map_items pricing_name d; ms ← sorted_names (unique_names ms); Ok (Some ms)
  | None => Ok None
  end.

(** The models of the user; if that throws, those of the price list. *)
Definition load_models (reply pricing : res jsval) (p : page) : page :=
  match r ← reply; user_models r with
  | Ok (Some ms) => setAllModels ms p
  | Ok None => p
  | Throw _ => match r ← pricing; pricing_models r with Ok (Some ms) => setAllModels ms p | _ => p end
  end.

(** The channels, which only an administrator gets; a list that is no array
    (the page cannot be drawn then) is left out. *)
Definition load_channels (reply : res jsval) (p : page) : page :=
  match r ← reply; d ← payload r;
        match d with Some d => items_of d | None => Ok VNull end with
  | Ok (VArr l) => setChannels l p
  | _ => p
  end.

(** *** Tests *)

Inductive started := Refused (toast : string) | Ignored | Started (r : request).

(** [runTest] up to the request. *)
Definition runTest (scenarioId : string) (p : page) : page * started :=
  if bool_decide (selectedModel p = "") || bool_decide (selectedToken p = "")
  then (p, Refused "请先选择模型和令牌")
  else match obj_get TEST_SCENARIOS scenarioId with
       | None => (p, Ignored)
       | Some sc =>
           let f := match formats sc with [f] => f | _ => apiFormat p end in
           match buildRequest scenarioId (selectedModel p) (baseUrl p) (selectedToken p) f (selectedChannel p) with
           | None => (p, Ignored)
           | Some r => (setResults <[scenarioId := None]> (setLoadingMap <[scenarioId := true]> p), Started r)
           end
       end.

(** The rest of it; an error of the analysis is not caught, but the test is
    no longer loading. *)
Definition endTest (scenarioId : string) (r : request) (fetched : res response) (p : page) : page * option string :=
  let o := executeRequest r fetched in
  let done := setLoadingMap <[scenarioId := false]> in
  match analyzeResponse scenarioId o with
  | Ok v => (done (setResults <[scenarioId := Some (o, v, r)]> p), None)
  | Throw e => (done p, Some e)
  end.

(** [runAll], [runAllBasic], [runAllTools]: start every test. *)
Definition run_scenarios (l : list scenario) (p : page) : page * list (string * request) :=
  foldl (λ '(p, started) s,
      match runTest (sc_id s) p with
      | (p, Started r) => (p, started ++ [(sc_id s, r)])
      | (p, _) => (p, started)
      end) (p, []) l.
Definition runAll (p : page) : page * list (string * request) := run_scenarios (availableScenarios p) p.
Definition runAllBasic (p : page) : page * list (string * request) := run_scenarios (scenarios_of basic p) p.
Definition runAllTools (p : page) : page * list (string * request) := run_scenarios (scenarios_of tools p) p.

Definition resetAll (p : page) : page := setResults (λ _, ∅) (setLoadingMap (λ _, ∅) p).

Definition isAnyLoading (p : page) : bool := existsb snd (map_to_list (loadingMap p)).

(** The two selectors that clear the results. *)
Definition choose_channel (ch : string) (p : page) : page := setResults (λ _, ∅) (setSelectedChannel ch p).
Definition choose_format (f : format) (p : page) : page := setResults (λ _, ∅) (setApiFormat f p).

(** [SummaryCard]: passed and failed tests. *)
Definition summary (p : page) : nat * nat :=
  let entries := omap (λ '(_, r), r) (map_to_list (results p)) in
  let passed := length (filter (λ '(_, v, _), success v = true) entries) in
  (passed, (length entries - passed)%nat).

(** ** Reading a stream, chunk by chunk and at once *)

(** The events of a stream: those of its complete lines. *)
Definition stream_events (text : string) : list jsval := omap line_event (removelast (split_on NL text)).

(** The data of a stream, read at once. *)
Definition stream_reference (text : string) : stream_data :=
  foldl (λ d e, stream_event e d) no_data (stream_events text).

Lemma foldl_stream_line d lines :
  foldl stream_line d lines = foldl (λ d e, stream_event e d) d (omap line_event lines).
Proof.
  revert d. induction lines as [|l lines IH]; intros d; [done|]. cbn. rewrite IH. unfold stream_line.
  by destruct (line_event l).
Qed.

(** Splitting goes on with the last piece. *)
Lemma split_on_extend c s t :
  split_on c (s +:+ t) = removelast (split_on c s) ++ split_on c (default "" (last (split_on c s)) +:+ t).
Proof.
  induction s as [|a s IH]; [done|]. change (String a s +:+ t) with (String a (s +:+ t)).
  rewrite !split_on_cons, IH. destruct (split_on c s) as [|p ps] eqn:E; [by destruct (split_on_nonempty c s)|].
  case_decide as Ha; [by destruct ps|]. destruct ps as [|q ps]; [|done].
  change (default "" (last [String a p]) +:+ t) with (String a (p +:+ t)). cbn [removelast app].
  by rewrite split_on_cons, decide_False by done.
Qed.

Lemma string_app_empty s : s +:+ "" = s.
Proof. induction s as [|a s IH]; [done|]. change (String a (s +:+ "") = String a s). by rewrite IH. Qed.

Lemma string_app_assoc s t u : (s +:+ t) +:+ u = s +:+ t +:+ u.
Proof.
  induction s as [|a s IH]; [done|].
  change (String a ((s +:+ t) +:+ u) = String a (s +:+ t +:+ u)). by rewrite IH.
Qed.

Lemma split_on_pieces c s : Forall (no_char c) (split_on c s).
Proof.
  induction s as [|a s IH]; [repeat constructor; by apply not_elem_of_nil|]. rewrite split_on_cons.
  case_decide; [constructor; [by apply not_elem_of_nil|done]|].
  destruct (split_on c s) as [|p ps]; [done|]. apply Forall_cons in IH as [Hp Hps].
  constructor; [by apply no_char_cons|done].
Qed.

Lemma read_loop_chunks cs buffer d :
  no_char NL buffer →
  read_loop (Chunk <$> cs) (buffer, d)
  = (foldl stream_line d (removelast (split_on NL (buffer +:+ join "" cs))), None).
Proof.
  revert buffer d. induction cs as [|t cs IH]; intros buffer d Hb.
  { cbn. by rewrite string_app_empty, split_on_no_char. }
  change (Chunk <$> t :: cs) with (Chunk t :: (Chunk <$> cs)). cbn [read_loop read_chunk pop].
  set (rest := default "" (last (split_on NL (buffer +:+ t)))).
  rewrite IH.
  - assert (join "" (t :: cs) = t +:+ join "" cs) as ->.
    { unfold join. destruct cs; [by rewrite string_app_empty|done]. }
    rewrite <-string_app_assoc.
    rewrite (split_on_extend _ (buffer +:+ t)). rewrite removelast_app by apply split_on_nonempty.
    by rewrite foldl_app.
  - subst rest. pose proof (split_on_pieces NL (buffer +:+ t)) as HF.
    destruct (last (split_on NL (buffer +:+ t))) as [p|] eqn:E; [|by apply not_elem_of_nil].
    rewrite Forall_forall in HF. apply HF. by apply last_Some_elem_of.
Qed.

(** C25.  How the network divides a stream into chunks makes no difference:
    reading it chunk by chunk gives what reading the whole text at once
    gives, the events of its complete lines in order. *)
Theorem stream_chunks (cs : list string) :
  read_loop (Chunk <$> cs) ("", no_data) = (stream_reference (join "" cs), None).
Proof.
  rewrite read_loop_chunks by apply not_elem_of_nil. rewrite foldl_stream_line. done.
Qed.

(** ** What a tool test means *)

(** The event calls a tool: a block of type [tool_use] starts, or the delta
    of the first choice has tool calls (unless the event is also a text delta
    whose text has no string). *)
Definition calls_tool (e : jsval) : bool :=
  starts_tool e ||
  (truthy (prop_opt (openai_delta e) "tool_calls") &&
   negb (text_delta e && negb (is_ok (to_str (js_or (prop_opt (prop_opt e "delta") "text") (VStr "")))))).

Lemma hasToolUse_addName v d : hasToolUse (addName v d) = hasToolUse d.
Proof. unfold addName. by destruct (truthy v). Qed.

Lemma hasToolUse_call_names l d : hasToolUse (call_names l d).1 = hasToolUse d.
Proof.
  revert d. induction l as [|x l IH]; intros d; [done|]. cbn. destruct (is_nullish x); [done|].
  by rewrite IH, hasToolUse_addName.
Qed.

Lemma hasToolUse_openai e d :
  hasToolUse (openai_event e d) = hasToolUse d || truthy (prop_opt (openai_delta e) "tool_calls").
Proof.
  assert (∀ d, hasToolUse (content_event e d) = hasToolUse d) as Hc.
  { intros d'. unfold content_event. case_match; [|done]. by destruct (to_str _). }
  unfold openai_event.
  destruct (truthy (prop_opt (openai_delta e) "tool_calls")); [|by rewrite Hc, orb_false_r].
  rewrite orb_true_r. destruct (prop_opt (openai_delta e) "tool_calls") as [| | | | |l|]; rewrite ?Hc; try done.
  pose proof (hasToolUse_call_names l (setTool d)) as Hn. destruct (call_names l (setTool d)) as [d' []]; cbn in Hn.
  - by rewrite Hc, Hn.
  - by rewrite Hn.
Qed.

Lemma calls_tool_nullish e : is_nullish e = true → calls_tool e = false.
Proof. by destruct e. Qed.

Lemma stream_event_tool e d : hasToolUse (stream_event e d) = hasToolUse d || calls_tool e.
Proof.
  unfold stream_event. destruct (is_nullish e) eqn:En.
  { rewrite calls_tool_nullish by done. by rewrite orb_false_r. }
  unfold calls_tool. set (d' := if starts_tool e then _ else addEvent e d).
  assert (hasToolUse d' = hasToolUse d || starts_tool e) as Hd'.
  { subst d'. destruct (starts_tool e); [rewrite hasToolUse_addName|]; cbn; [by rewrite orb_true_r|by rewrite orb_false_r]. }
  destruct (text_delta e); cbn [andb negb].
  - destruct (to_str _); cbn [is_ok negb].
    + rewrite hasToolUse_openai. cbn. by rewrite Hd', andb_true_r, orb_assoc.
    + by rewrite Hd', andb_false_r, orb_false_r.
  - by rewrite hasToolUse_openai, Hd', andb_true_r, orb_assoc.
Qed.

Lemma chunks_openai e d : chunks (openai_event e d) = chunks d ∧ error (openai_event e d) = error d.
Proof.
  assert (∀ v d, chunks (addName v d) = chunks d ∧ error (addName v d) = error d) as Hname.
  { intros v d'. unfold addName. by destruct (truthy v). }
  assert (∀ l d, chunks (call_names l d).1 = chunks d ∧ error (call_names l d).1 = error d) as Hcalls.
  { intros l. induction l as [|x l IH]; intros d'; [done|]. cbn. destruct (is_nullish x); [done|].
    destruct (IH (addName (prop_opt (prop_opt x "function") "name") d')) as [-> ->]. apply Hname. }
  assert (∀ d, chunks (content_event e d) = chunks d ∧ error (content_event e d) = error d) as Hc.
  { intros d'. unfold content_event. case_match; [|done]. by destruct (to_str _). }
  unfold openai_event.
  destruct (truthy (prop_opt (openai_delta e) "tool_calls")); [|apply Hc].
  destruct (prop_opt (openai_delta e) "tool_calls") as [| | | | |l|]; try done; [apply (Hc (setTool d))|].
  pose proof (Hcalls l (setTool d)) as Hl. destruct (call_names l (setTool d)) as [d' []]; [|done].
  destruct (Hc d') as [-> ->]. done.
Qed.

Lemma stream_event_counts e d :
  chunks (stream_event e d) = S (chunks d) ∧ error (stream_event e d) = error d.
Proof.
  unfold stream_event. destruct (is_nullish e); [done|].
  set (d' := if starts_tool e then _ else addEvent e d).
  assert (chunks d' = S (chunks d) ∧ error d' = error d) as Hd'.
  { subst d'. destruct (starts_tool e); [|done]. unfold addName. by destruct (truthy _). }
  destruct (text_delta e); [destruct (to_str _) as [s|]; [|done]|].
  - destruct (chunks_openai e (addText s d')) as [-> ->]. apply Hd'.
  - destruct (chunks_openai e d') as [-> ->]. apply Hd'.
Qed.

(** Folding the events. *)
Lemma stream_reference_spec text :
  let d := stream_reference text in
  hasToolUse d = existsb calls_tool (stream_events text) ∧ chunks d = length (stream_events text) ∧ error d = VNull.
Proof.
  unfold stream_reference. generalize (stream_events text). intros l.
  enough (∀ d, let d' := foldl (λ d e, stream_event e d) d l in
    hasToolUse d' = hasToolUse d || existsb calls_tool l ∧ chunks d' = (chunks d + length l)%nat ∧ error d' = error d)
    as H by apply (H no_data).
  induction l as [|e l IH]; intros d; cbn.
  - rewrite orb_false_r. split_and!; [done|lia|done].
  - destruct (IH (stream_event e d)) as (-> & -> & ->). destruct (stream_event_counts e d) as [-> ->].
    rewrite stream_event_tool, orb_assoc. split_and!; [done|lia|done].
Qed.

Lemma join_values_ok l : (∃ s, join_values l = Ok s) ∨ ∃ v e, v ∈ l ∧ to_str v = Throw e.
Proof.
  unfold join_values. induction l as [|v l [[s Hs]|(w & e & Hw & He)]]; [left; by eexists| |right; exists w, e; set_solver].
  apply res_bind_Ok in Hs as (parts & Hp & _). cbn. destruct (is_nullish v) eqn:En.
  - cbn. rewrite Hp. left. by eexists.
  - destruct (to_str v) as [t|e] eqn:Ev; [|right; exists v, e; set_solver]. cbn. rewrite Hp. left. by eexists.
Qed.

(** A streaming tool test passes exactly when the stream calls a tool:
    for a tool scenario answered with a success status, however the text is
    divided into chunks, the verdict is negative if no event of the text
    calls a tool and positive if one does (or the name of a called tool is a
    value that has no text, and the analysis throws). *)
Theorem tool_test_verdict (id : string) (status : Z) (j : res jsval) (t : res string) (cs : list string) :
  id ∈ tool_scenarios → (200 ≤ status ≤ 299)%Z →
  let text := join "" cs in
  let verdict := analyzeResponse id (executeStreamRequest (Ok (Response status j t (Chunk <$> cs)))) in
  if existsb calls_tool (stream_events text) then
    (∃ a, verdict = Ok (Verdict true a)) ∨
    ∃ name e, name ∈ unique_names (toolNames (stream_reference text)) ∧ to_str name = Throw e
  else ∃ a, verdict = Ok (Verdict false a).
Proof.
  intros Hid Hstatus text v. destruct (stream_reference_spec text) as (Htool & Hchunks & Herr).
  assert (v = analyzeStreamResponse id (finish_stream (stream_reference text))) as ->.
  { subst v. unfold executeStreamRequest, rp_ok. cbn [rp_status rp_body].
    destruct (Z.leb_spec 200 status); [|lia]. destruct (Z.leb_spec status 299); [|lia]. cbn [andb].
    rewrite read_loop_chunks by apply not_elem_of_nil. rewrite foldl_stream_line. done. }
  unfold analyzeStreamResponse. cbn [finish_stream error chunks hasToolUse toolNames textContent].
  rewrite Herr, Hchunks, Htool, (bool_decide_true (id ∈ _)) by done. cbn [truthy].
  destruct (existsb calls_tool (stream_events text)) eqn:E.
  - rewrite decide_False by (by destruct (stream_events text)).
    destruct (join_values_ok (unique_names (toolNames (stream_reference text)))) as [[s Hs]|H]; [left|by right].
    rewrite Hs. by eexists.
  - case_decide; [by eexists|]. case_match; by eexists.
Qed.

Lemma tool_test_verdict_witness :
  let text := [qtext "data: {'type':'content_block_start','content_"; qtext "block':{'type':'tool_use','name':'ls'}}";
               String NL (qtext "data: [DONE]"); String NL ""] in
  ∃ a, analyzeResponse "claude_code"
         (executeStreamRequest (Ok (Response 200 (Ok VNull) (Ok "") (Chunk <$> text)))) = Ok (Verdict true a).
Proof.
  intros text.
  destruct (tool_test_verdict "claude_code" 200 (Ok VNull) (Ok "") text
    ltac:(right; left) ltac:(lia)) as [H|(name & e & Hn & He)].
  - exact H.
  - vm_compute in Hn. apply list_elem_of_singleton in Hn. subst. discriminate He.
Defined.

(** ** Requests *)

(** The format of a scenario. *)
Definition scenario_format (sc : scenario) (f : format) : format := match formats sc with [f] => f | _ => f end.

Lemma buildRequest_shape id sc model base key f channelId r :
  obj_get TEST_SCENARIOS id = Some sc →
  buildRequest id model base key (scenario_format sc f) channelId = Some r →
  let f' := scenario_format sc f in
  url r = base +:+ endpoint f' ∧ headers r = key_headers f' (effective_key key channelId) ∧
  prop_opt (VObj (body r)) "model" = VStr model ∧ rq_stream r = is_true (prop_opt (VObj (body r)) "stream").
Proof.
  unfold buildRequest. cbn [TEST_SCENARIOS fmap list_fmap obj_get sc_id].
  intros Hsc. repeat (case_decide; [simplify_eq; intros [= <-]; by destruct f|]). done.
Qed.

Lemma scenario_format_ok id sc f : obj_get TEST_SCENARIOS id = Some sc →
  scenario_format sc f ∈ formats sc ∧ (f ∈ formats sc → scenario_format sc f = f).
Proof.
  cbn [TEST_SCENARIOS fmap list_fmap obj_get sc_id].
  repeat (case_decide; [intros [= <-]; destruct f; cbn; set_solver|]). done.
Qed.

(** Every test that starts sends a request in a format its scenario
    supports: the address and the credentials are those of that format, with
    the chosen token and channel, the body names the chosen model, and it is
    read as a stream exactly when it asks for one; the test is loading and
    its old result is gone. *)
Theorem started_request (id : string) (p p' : page) (r : request) :
  runTest id p = (p', Started r) →
  ∃ sc f, obj_get TEST_SCENARIOS id = Some sc ∧ f ∈ formats sc ∧
    (apiFormat p ∈ formats sc → f = apiFormat p) ∧
    url r = baseUrl p +:+ endpoint f ∧
    headers r = key_headers f (effective_key (selectedToken p) (selectedChannel p)) ∧
    prop_opt (VObj (body r)) "model" = VStr (selectedModel p) ∧
    rq_stream r = is_true (prop_opt (VObj (body r)) "stream") ∧
    loadingMap p' !! id = Some true ∧ results p' !! id = Some None.
Proof.
  unfold runTest. destruct (_ || _); [done|]. destruct (obj_get TEST_SCENARIOS id) as [sc|] eqn:Esc; [|done].
  change (match formats sc with [f] => f | _ => apiFormat p end) with (scenario_format sc (apiFormat p)).
  destruct (buildRequest _ _ _ _ _ _) as [r'|] eqn:Er; [|done]. intros [= <- <-].
  destruct (scenario_format_ok id sc (apiFormat p) Esc) as [Hf Hf'].
  destruct (buildRequest_shape _ _ _ _ _ _ _ _ Esc Er) as (H1 & H2 & H3 & H4).
  exists sc, (scenario_format sc (apiFormat p)). destruct p. cbn in *. split_and!; try done; by simplify_map_eq.
Qed.

(** ** Running tests *)

(** A page and the tests whose answers it awaits. *)
Record session := Session { pg : page; in_flight : list (string * request) }.

(** What can happen: tests are started one by one or together, answered in any
    order, and the configuration changes in between; the results can be reset
    when nothing is loading. *)
Inductive step : session → session → Prop :=
| step_run id p p' r fl :
    runTest id p = (p', Started r) → step (Session p fl) (Session p' ((id, r) :: fl))
| step_refused id p p' x fl :
    runTest id p = (p', x) → (∀ r, x ≠ Started r) → step (Session p fl) (Session p' fl)
| step_all l p p' rs fl :
    run_scenarios l p = (p', rs) → step (Session p fl) (Session p' (rs ++ fl))
| step_end id r fetched e p p' fl1 fl2 :
    endTest id r fetched p = (p', e) → step (Session p (fl1 ++ (id, r) :: fl2)) (Session p' (fl1 ++ fl2))
| step_channel ch p fl : step (Session p fl) (Session (choose_channel ch p) fl)
| step_format f p fl : step (Session p fl) (Session (choose_format f p) fl)
| step_model m p fl : step (Session p fl) (Session (detect_format (setSelectedModel m p)) fl)
| step_reset p fl : isAnyLoading p = false → step (Session p fl) (Session (resetAll p) fl).

(** Only tests in flight are loading. *)
Definition loading_ok (s : session) : Prop :=
  ∀ id, loadingMap (pg s) !! id = Some true → id ∈ (in_flight s).*1.

Lemma runTest_loading id p p' x :
  runTest id p = (p', x) →
  (∃ r, x = Started r ∧ loadingMap p' = <[id := true]> (loadingMap p)) ∨ ((∀ r, x ≠ Started r) ∧ p' = p).
Proof.
  unfold runTest. destruct (_ || _); [intros [= <- <-]; by right|].
  destruct (obj_get _ _); [|intros [= <- <-]; by right].
  destruct (buildRequest _ _ _ _ _ _) as [r|]; [|intros [= <- <-]; by right].
  intros [= <- <-]. left. exists r. by destruct p.
Qed.

Lemma run_scenarios_loading l p p' rs :
  run_scenarios l p = (p', rs) →
  ∀ id, loadingMap p' !! id = Some true → loadingMap p !! id = Some true ∨ id ∈ rs.*1.
Proof.
  unfold run_scenarios. revert p' rs.
  induction l as [|s l IH] using rev_ind; intros p' rs; [intros [= <- <-]; by left|].
  rewrite foldl_snoc. destruct (foldl _ (p, []) l) as [p1 rs1] eqn:E1.
  specialize (IH p1 rs1 eq_refl). intros H. destruct (runTest (sc_id s) p1) as [p2 x] eqn:E2.
  destruct (runTest_loading _ _ _ _ E2) as [(r & -> & Hl)|[Hx ->]].
  - simplify_eq. intros id. rewrite Hl, lookup_insert, fmap_app, elem_of_app.
    case_decide; [subst; right; right; by left|]. intros [?|?]%IH; auto.
  - destruct x; simplify_eq; try done. by destruct (Hx r).
Qed.

Lemma endTest_loading id r fetched p p' e :
  endTest id r fetched p = (p', e) → loadingMap p' = <[id := false]> (loadingMap p).
Proof. unfold endTest. destruct (analyzeResponse _ _); intros [= <- <-]; by destruct p. Qed.

Lemma step_loading s s' : step s s' → loading_ok s → loading_ok s'.
Proof.
  intros Hs Hok. destruct Hs; intros i; cbn in *.
  - destruct (runTest_loading _ _ _ _ H) as [(r' & [= <-] & ->)|[Hx _]]; [|by destruct (Hx r)].
    rewrite lookup_insert. case_decide; [subst; by left|]. intros ?%Hok. by right.
  - destruct (runTest_loading _ _ _ _ H) as [(r' & -> & _)|[_ ->]]; [by destruct (H0 r')|]. apply Hok.
  - intros Hi. rewrite fmap_app, elem_of_app.
    destruct (run_scenarios_loading _ _ _ _ H i Hi) as [Hl|Hl]; [right; by apply Hok|by left].
  - rewrite (endTest_loading _ _ _ _ _ _ H), lookup_insert. case_decide; [done|].
    intros Hi%Hok. cbn in Hi. rewrite !fmap_app in *. set_solver.
  - destruct p. apply Hok.
  - destruct p. apply Hok.
  - assert (loadingMap (detect_format (setSelectedModel m p)) = loadingMap p) as ->; [|apply Hok].
    unfold detect_format. destruct p. cbn. by case_decide.
  - destruct p. cbn. by rewrite lookup_empty.
Qed.

(** No test stays loading: from a page on which nothing runs, whatever
    tests are started, in whatever order their answers or failures arrive and
    whatever is changed in between, once no answer is awaited nothing is
    loading. *)
Theorem tests_settle (p : page) (s : session) :
  rtc step (Session (resetAll p) []) s → in_flight s = [] → isAnyLoading (pg s) = false.
Proof.
  intros Hs Hnone. assert (loading_ok s) as Hok.
  { remember (Session (resetAll p) []) as s0 eqn:E0. assert (loading_ok s0) as H0.
    { subst s0. intros id. destruct p. cbn. by rewrite lookup_empty. }
    clear E0. induction Hs as [|s1 s2 s3 H1 _ IH]; [done|]. apply IH; [done|]. by eapply step_loading. }
  unfold isAnyLoading. apply not_true_iff_false. rewrite existsb_exists. intros ([id b] & Hin & Hb). cbn in Hb. subst b.
  apply list_elem_of_In, elem_of_map_to_list, Hok in Hin. rewrite Hnone in Hin. by apply not_elem_of_nil in Hin.
Qed.

(** ** Examples *)

Definition sample_page : page :=
  Page "https://api" [("sk-a", VStr "t", VNum (num_of_Z 1))] "sk-a" [VStr "claude-3"] "claude-3" [] "7" anthropic ∅ ∅ true.

Definition sample_request : request :=
  match runTest "basic_chat" sample_page with (_, Started r) => r | _ => Request "" "" [] [] false end.

Lemma started_request_witness :
  ∃ sc f, obj_get TEST_SCENARIOS "basic_chat" = Some sc ∧ f ∈ formats sc ∧
    headers sample_request = key_headers f "sk-a-7".
Proof.
  destruct (started_request "basic_chat" sample_page (runTest "basic_chat" sample_page).1 sample_request)
    as (sc & f & H1 & H2 & _ & _ & H3 & _); [reflexivity|].
  exists sc, f. split; [exact H1|]. split; [exact H2|exact H3].
Defined.

Lemma tests_settle_witness :
  isAnyLoading (endTest "basic_chat" sample_request (Throw "offline") (runTest "basic_chat" sample_page).1).1 = false.
Proof.
  apply (tests_settle sample_page (Session _ [])); [|reflexivity].
  eapply rtc_l.
  - apply (step_run "basic_chat" sample_page (runTest "basic_chat" sample_page).1 sample_request). reflexivity.
  - apply rtc_once. exact (step_end "basic_chat" sample_request (Throw "offline") None
      (runTest "basic_chat" sample_page).1 _ [] [] eq_refl).
Defined.

(** The last line of a stream is read only if a newline ends it. *)
Lemma unfinished_line_dropped :
  let line := qtext "data: {'type':'content_block_start','content_block':{'type':'tool_use'}}" in
  existsb calls_tool (stream_events line) = false ∧
  existsb calls_tool (stream_events (line +:+ String NL "")) = true.
Proof. vm_compute. done. Qed.

(** An answer with an empty content block: the analysis throws, and the test
    ends without a result. *)
Lemma malformed_answer_lost :
  let '(p, e) := endTest "basic_chat" sample_request
      (Ok (Response 200 (Ok (VObj [("content", VArr [VNull])])) (Ok "") [])) (runTest "basic_chat" sample_page).1 in
  e ≠ None ∧ results p !! "basic_chat" = Some None ∧ isAnyLoading p = false.
Proof. vm_compute. done. Qed.

(** The answer to a request for the channel chosen before is shown after the
    choice of another one. *)
Lemma stale_result_shown :
  let p := choose_channel "8" (runTest "basic_chat" sample_page).1 in
  let '(p', _) := endTest "basic_chat" sample_request (Throw "offline") p in
  results p = ∅ ∧ selectedChannel p' = "8" ∧
  ∃ o v, results p' !! "basic_chat" = Some (Some (o, v, sample_request)) ∧
    headers sample_request = key_headers anthropic "sk-a-7".
Proof. vm_compute. by eauto 6. Qed.
