(* ===== verification/RatioSync.v ===== *)
(** * Synchronising ratios with upstream channels

    [web/src/pages/Setting/Ratio/UpstreamRatioSync.jsx]: the channels and their
    endpoints, the differences the service reports, the values the user
    chooses among them, the question about models whose way of billing
    changes, and the four options that are stored.

    The chosen values of a model are an object that [selectValue] replaces and
    unchecking a box changes in place, while a save under way still holds the
    object of the choices it was started with; the objects therefore live in a
    heap, and [resolutions] maps a model to its place.  The differences have
    the types of the service ([dto.DifferenceItem]). *)
From Stdlib Require Import Ascii SpecFloat.
From stdpp Require Import relations.
From S2P Require Import Prelude JsString JsNumber JsValue Json PricingFilter.

(** ** Data *)

Record channel := Channel { ch_id : Z; ch_name : string; ch_base_url : string; ch_type : Z }.

Record diff := Diff { d_current : jsval; d_upstreams : jsval; d_confidence : jsval }.

Definition diffs : Type := list (string * list (string * diff)).

Record conflict := Conflict { x_channel : string; x_model : string; x_current : string; x_newVal : string }.

(** An entry of [upstreams] of the request. *)
Record upstream := Upstream { u_id : Z; u_name : string; u_base_url : string; u_endpoint : string }.

Inductive effect :=
| Get (url : string) | Post (url : string) (upstreams : list upstream) (timeout : Z) | Put (key value : string)
| ShowError (e : jsval) | ShowWarning (text : string) | ShowSuccess (text : string) | Refresh | ResetPagination.

(** The continuations of the requests under way; a save holds the choices it
    was started with. *)
Inductive task := AwaitChannels | AwaitRatios | AwaitSaves (snapshot : list (string * nat)).

Record sync := Sync {
  modalVisible : bool; loading : bool; syncLoading : bool;
  allChannels : list channel; selectedChannelIds : list Z; channelEndpoints : list (string * string);
  differences : diffs; heap : gmap nat obj; resolutions : list (string * nat);
  hasSynced : bool; currentPage : Z; pageSize : Z; searchKeyword : string; ratioTypeFilter : string;
  confirmVisible : bool; conflictItems : list conflict;
  pending : list task; effects : list effect }.

Definition mount : sync :=
  Sync false false false [] [] [] [] ∅ [] false 1 10 "" "" false [] [] [].

Definition setModalVisible (x : bool) (s : sync) : sync :=
  let '(Sync _ b c d e f g h i j k l m n o p q r) := s in Sync x b c d e f g h i j k l m n o p q r.
Definition setLoading (x : bool) (s : sync) : sync :=
  let '(Sync a _ c d e f g h i j k l m n o p q r) := s in Sync a x c d e f g h i j k l m n o p q r.
Definition setSyncLoading (x : bool) (s : sync) : sync :=
  let '(Sync a b _ d e f g h i j k l m n o p q r) := s in Sync a b x d e f g h i j k l m n o p q r.
Definition setAllChannels (x : list channel) (s : sync) : sync :=
  let '(Sync a b c _ e f g h i j k l m n o p q r) := s in Sync a b c x e f g h i j k l m n o p q r.
Definition setSelectedChannelIds (x : list Z) (s : sync) : sync :=
  let '(Sync a b c d _ f g h i j k l m n o p q r) := s in Sync a b c d x f g h i j k l m n o p q r.
Definition setChannelEndpoints (x : list (string * string)) (s : sync) : sync :=
  let '(Sync a b c d e _ g h i j k l m n o p q r) := s in Sync a b c d e x g h i j k l m n o p q r.
Definition setDifferences (x : diffs) (s : sync) : sync :=
  let '(Sync a b c d e f _ h i j k l m n o p q r) := s in Sync a b c d e f x h i j k l m n o p q r.
Definition setHeap (x : gmap nat obj) (s : sync) : sync :=
  let '(Sync a b c d e f g _ i j k l m n o p q r) := s in Sync a b c d e f g x i j k l m n o p q r.
Definition setResolutions (x : list (string * nat)) (s : sync) : sync :=
  let '(Sync a b c d e f g h _ j k l m n o p q r) := s in Sync a b c d e f g h x j k l m n o p q r.
Definition setHasSynced (x : bool) (s : sync) : sync :=
  let '(Sync a b c d e f g h i _ k l m n o p q r) := s in Sync a b c d e f g h i x k l m n o p q r.
Definition setPage (x y : Z) (s : sync) : sync :=
  let '(Sync a b c d e f g h i j _ _ m n o p q r) := s in Sync a b c d e f g h i j x y m n o p q r.
Definition setFilter (x y : string) (s : sync) : sync :=
  let '(Sync a b c d e f g h i j k l _ _ o p q r) := s in Sync a b c d e f g h i j k l x y o p q r.
Definition setConfirmVisible (x : bool) (s : sync) : sync :=
  let '(Sync a b c d e f g h i j k l m n _ p q r) := s in Sync a b c d e f g h i j k l m n x p q r.
Definition setConflictItems (x : list conflict) (s : sync) : sync :=
  let '(Sync a b c d e f g h i j k l m n o _ q r) := s in Sync a b c d e f g h i j k l m n o x q r.
Definition setPending (x : list task) (s : sync) : sync :=
  let '(Sync a b c d e f g h i j k l m n o p _ r) := s in Sync a b c d e f g h i j k l m n o p x r.
Definition emit (x : list effect) (s : sync) : sync :=
  let '(Sync a b c d e f g h i j k l m n o p q r) := s in Sync a b c d e f g h i j k l m n o p q (r ++ x).

Definition await (k : task) (s : sync) : sync := setPending (pending s ++ [k]) s.

(** ** Billing categories and chosen values *)

Inductive category := Price | Ratio.

#[global] Instance category_eq_dec : EqDecision category.
Proof. solve_decision. Defined.

Definition getBillingCategory (ratioType : string) : category :=
  if decide (ratioType = "model_price") then Price else Ratio.

(** The objects behind the choices. *)
Definition deref (h : gmap nat obj) (rs : list (string * nat)) : list (string * obj) :=
  (λ '(model, l), (model, default [] (h !! l))) <$> rs.

Definition chosen (s : sync) : list (string * obj) := deref (heap s) (resolutions s).

(** [newModelRes]: a copy without the types of the other category, and with
    the value. *)
Definition newModelRes (ratioType : string) (value : jsval) (prev : obj) : obj :=
  obj_set ratioType value
    (filter (λ kv, getBillingCategory kv.1 = getBillingCategory ratioType) prev).

Definition selectValue (model ratioType : string) (value : jsval) (s : sync) : sync :=
  let l := fresh (dom (heap s)) in
  setResolutions (obj_define model l (resolutions s))
    (setHeap (<[l := newModelRes ratioType value (default [] (obj_get (chosen s) model))]> (heap s)) s).

(** Unchecking a box: the outer object is copied, the object of the model is
    not. *)
Definition unselect (model ratioType : string) (s : sync) : sync :=
  match obj_get (resolutions s) model with
  | None => s
  | Some l =>
      let o := obj_delete ratioType (default [] (heap s !! l)) in
      let s := setHeap (<[l := o]> (heap s)) s in
      if decide (o = []) then setResolutions (obj_delete model (resolutions s)) s else s
  end.

(** ** The table *)

Record row := Row {
  r_model : string; r_ratioType : string; r_current : jsval; r_upstreams : jsval; r_confidence : jsval;
  r_billingConflict : bool }.

Definition billingConflict (types : list (string * diff)) : bool :=
  bool_decide ("model_price" ∈ obj_keys types) &&
  existsb (λ rt, bool_decide (rt ∈ obj_keys types)) ["model_ratio"; "completion_ratio"; "cache_ratio"].

Definition dataSource (d : diffs) : list row :=
  d ≫= λ '(model, types),
    (λ '(rt, x), Row model rt (d_current x) (d_upstreams x) (js_or (d_confidence x) (VObj [])) (billingConflict types))
      <$> types.

Definition matches (keyword rtFilter : string) (r : row) : bool :=
  (bool_decide (trim keyword = "") || includes (trim (to_lower keyword)) (to_lower (r_model r))) &&
  (bool_decide (rtFilter = "") || bool_decide (r_ratioType r = rtFilter)).

Definition filteredDataSource (s : sync) : list row :=
  let rows := dataSource (differences s) in
  if bool_decide (trim (searchKeyword s) = "") && bool_decide (ratioTypeFilter s = "") then rows
  else filter (λ r, matches (searchKeyword s) (ratioTypeFilter s) r = true) rows.

Definition upstreamNames (rows : list row) : list string :=
  uniq (rows ≫= λ r, obj_keys (own_props (js_or (r_upstreams r) (VObj [])))).

(** A value that can be chosen. *)
Definition selectable (v : jsval) : bool := negb (is_nullish v) && negb (is_str "same" v).

Definition isSelected (s : sync) (r : row) (v : jsval) : bool :=
  match obj_get (chosen s) (r_model r) with
  | Some o => strict_eq (default VUndef (obj_get o (r_ratioType r))) v
  | None => false
  end.

Record stats := Stats { selectableCount : nat; selectedCount : nat }.

Definition channelStats (s : sync) (rows : list row) (upName : string) : stats :=
  let able := filter (λ r, selectable (prop_opt (r_upstreams r) upName) = true) rows in
  Stats (length able) (length (filter (λ r, isSelected s r (prop_opt (r_upstreams r) upName) = true) able)).

Definition allSelected (x : stats) : bool := (0 <? selectableCount x) && (selectedCount x =? selectableCount x).
Definition partiallySelected (x : stats) : bool := (0 <? selectedCount x) && (selectedCount x <? selectableCount x).

Definition handleBulkSelect (upName : string) (checked : bool) (s : sync) : sync :=
  foldl (λ s r,
      let v := prop_opt (r_upstreams r) upName in
      if checked then if selectable v then selectValue (r_model r) (r_ratioType r) v s else s
      else unselect (r_model r) (r_ratioType r) s)
    s (filteredDataSource s).

(** [dataSource.slice(startIndex, endIndex)]; negative positions count from
    the end. *)
Definition slice {A} (a b : Z) (l : list A) : list A :=
  let n := Z.of_nat (length l) in
  let clamp x := if (x <? 0)%Z then Z.max 0 (n + x) else Z.min x n in
  take (Z.to_nat (clamp b) - Z.to_nat (clamp a)) (drop (Z.to_nat (clamp a)) l).

Definition getCurrentPageData (s : sync) (rows : list row) : list row :=
  let startIndex := ((currentPage s - 1) * pageSize s)%Z in slice startIndex (startIndex + pageSize s) rows.

Definition onPageChange (page size : Z) (s : sync) : sync := setPage page size s.
Definition onShowSizeChange (size : Z) (s : sync) : sync := setPage 1 size s.

(** The effect on [ratioTypeFilter] and [searchKeyword] shows the first page
    after a change. *)
Definition changeFilter (keyword rtFilter : string) (s : sync) : sync :=
  let s' := setFilter keyword rtFilter s in
  if decide (keyword = searchKeyword s ∧ rtFilter = ratioTypeFilter s) then s' else setPage 1 (pageSize s) s'.

(** ** Channels *)

Definition OFFICIAL_RATIO_PRESET_ID : Z := -100.
Definition OFFICIAL_RATIO_PRESET_NAME : string := "官方倍率预设".
Definition OFFICIAL_RATIO_PRESET_BASE_URL : string := "https://basellm.github.io".
Definition OFFICIAL_RATIO_PRESET_ENDPOINT : string := "/llm-metadata/api/newapi/ratio_config-v1-base.json".
Definition MODELS_DEV_PRESET_ID : Z := -101.
Definition MODELS_DEV_PRESET_NAME : string := "models.dev 价格预设".
Definition MODELS_DEV_PRESET_BASE_URL : string := "https://models.dev".
Definition MODELS_DEV_PRESET_ENDPOINT : string := "https://models.dev/api.json".
Definition DEFAULT_ENDPOINT : string := "/api/ratio_config".

Definition is_preset (c : channel) (id : Z) (base name : string) : bool :=
  bool_decide (ch_id c = id) || bool_decide (ch_base_url c = base) || bool_decide (ch_name c = name).

Definition preset_endpoint (c : channel) : string :=
  if is_preset c MODELS_DEV_PRESET_ID MODELS_DEV_PRESET_BASE_URL MODELS_DEV_PRESET_NAME
  then MODELS_DEV_PRESET_ENDPOINT
  else if is_preset c OFFICIAL_RATIO_PRESET_ID OFFICIAL_RATIO_PRESET_BASE_URL OFFICIAL_RATIO_PRESET_NAME
  then OFFICIAL_RATIO_PRESET_ENDPOINT
  else if bool_decide (ch_type c = 20%Z) then "openrouter" else DEFAULT_ENDPOINT.

(** The key of a channel in [channelEndpoints]. *)
Definition id_key (id : Z) : string := pretty id.

(** [channelEndpoints[id] || DEFAULT_ENDPOINT]. *)
Definition endpoint_of (e : list (string * string)) (id : Z) (d : string) : string :=
  match obj_get e (id_key id) with None | Some "" => d | Some x => x end.

(** Endpoints already chosen are kept. *)
Definition merge_endpoint (e : list (string * string)) (c : channel) : list (string * string) :=
  match obj_get e (id_key (ch_id c)) with
  | None | Some "" => obj_set (id_key (ch_id c)) (preset_endpoint c) e
  | Some _ => e
  end.

Definition updateChannelEndpoint (id : Z) (endpoint : string) (s : sync) : sync :=
  setChannelEndpoints (obj_define (id_key id) endpoint (channelEndpoints s)) s.

Section handlers.
Variable t : string → string.

(** What the service answers: the request failed, was refused, or has data. *)
Inductive reply (A : Type) := Rejected (message : string) | Refused (message : jsval) | Served (data : A).
#[global] Arguments Rejected {A}.
#[global] Arguments Refused {A}.
#[global] Arguments Served {A}.

Definition fetchAllChannels (s : sync) : sync :=
  await AwaitChannels (emit [Get "/api/ratio_sync/channels"] (setLoading true s)).

Definition channelsFetched (r : reply (list channel)) (s : sync) : sync :=
  setLoading false
    match r with
    | Rejected e => emit [ShowError (VStr (t "获取渠道失败：" +:+ e))] s
    | Refused m => emit [ShowError m] s
    | Served cs => setChannelEndpoints (foldl merge_endpoint (channelEndpoints s) cs) (setAllChannels cs s)
    end.

(** The button that opens the selection. *)
Definition openSelector (s : sync) : sync :=
  let s' := setModalVisible true s in
  if decide (allChannels s = []) then fetchAllChannels s' else s'.

Definition handleModalClose (s : sync) : sync := emit [ResetPagination] (setModalVisible false s).

Definition fetchRatiosFromChannels (cs : list channel) (s : sync) : sync :=
  let upstreams := (λ c, Upstream (ch_id c) (ch_name c) (ch_base_url c)
                           (endpoint_of (channelEndpoints s) (ch_id c) DEFAULT_ENDPOINT)) <$> cs in
  await AwaitRatios (emit [Post "/api/ratio_sync/fetch" upstreams 10] (setSyncLoading true s)).

Definition confirmChannelSelection (s : sync) : sync :=
  match filter (λ c, ch_id c ∈ selectedChannelIds s) (allChannels s) with
  | [] => emit [ShowWarning (t "请至少选择一个渠道")] s
  | selected => fetchRatiosFromChannels selected (setModalVisible false s)
  end.

Record test_result := TestResult { tr_name : string; tr_status : string; tr_error : string }.

Definition errorResults (l : list test_result) : list test_result := filter (λ r, tr_status r = "error") l.

Definition ratiosFetched (r : reply (diffs * list test_result)) (s : sync) : sync :=
  setSyncLoading false
    match r with
    | Rejected e => emit [ShowError (VStr (t "请求后端接口失败：" +:+ e))] s
    | Refused m => emit [ShowError (js_or m (VStr (t "后端请求失败")))] s
    | Served (d, results) =>
        let s := match errorResults results with
                 | [] => s
                 | bad => emit [ShowWarning (t "部分渠道测试失败：" +:+
                            join ", " ((λ x, tr_name x +:+ ": " +:+ tr_error x) <$> bad))] s
                 end in
        let s := setHasSynced true (setResolutions [] (setDifferences d s)) in
        if decide (d = []) then emit [ShowSuccess (t "未找到差异化倍率，无需同步")] s else s
    end.

(** ** Applying the choices *)

Definition option_keys : list string := ["ModelRatio"; "CompletionRatio"; "CacheRatio"; "ModelPrice"].

(** [JSON.parse(props.options[key] || '{}')]. *)
Definition parse_option (options : list (string * string)) (key : string) : res jsval :=
  let text := match obj_get options key with None | Some "" => "{}" | Some x => x end in
  match json_parse text with Some v => Ok v | None => Throw "SyntaxError" end.

Definition currentRatios (options : list (string * string)) : res obj :=
  res_map (λ k, v ← parse_option options k; Ok (k, v)) option_keys.

Definition ratio_at (cur : obj) (key model : string) : res jsval :=
  prop (default VUndef (obj_get cur key)) model.

Definition getLocalBillingCategory (cur : obj) (model : string) : res (option category) :=
  price ← ratio_at cur "ModelPrice" model;
  if negb (is_undef price) then Ok (Some Price)
  else
    r1 ← ratio_at cur "ModelRatio" model;
    if negb (is_undef r1) then Ok (Some Ratio)
    else
      r2 ← ratio_at cur "CompletionRatio" model;
      if negb (is_undef r2) then Ok (Some Ratio)
      else
        r3 ← ratio_at cur "CacheRatio" model;
        Ok (if negb (is_undef r3) then Some Ratio else None).

Definition findSourceChannel (d : diffs) (model ratioType : string) (value : jsval) : string :=
  match obj_get d model ≫= λ types, obj_get types ratioType with
  | Some x =>
      match list_find (λ kv, strict_eq kv.2 value = true) (own_props (js_or (d_upstreams x) (VObj []))) with
      | Some (_, (name, _)) => name
      | None => t "未知"
      end
  | None => t "未知"
  end.

(** [`${label} : ${value ?? '-'}`]. *)
Definition labelled (label : string) (v : jsval) : res string :=
  x ← to_str v; Ok (t label +:+ " : " +:+ x).
Definition dash (v : jsval) : jsval := js_nullish v (VStr "-").

Definition two_ratios (model_ratio completion_ratio : jsval) : res string :=
  a ← labelled "模型倍率" (dash model_ratio); b ← labelled "补全倍率" (dash completion_ratio);
  Ok (a +:+ String NL "" +:+ b).

Definition currentDesc (cur : obj) (model : string) (c : category) : res string :=
  match c with
  | Price => v ← ratio_at cur "ModelPrice" model; labelled "固定价格" v
  | Ratio => a ← ratio_at cur "ModelRatio" model; b ← ratio_at cur "CompletionRatio" model; two_ratios a b
  end.

(** [ratios[key]]. *)
Definition get (ratios : obj) (key : string) : jsval := default VUndef (obj_get ratios key).

Definition newCat (ratios : obj) : category :=
  if decide ("model_price" ∈ obj_keys ratios) then Price else Ratio.

Definition newDesc (ratios : obj) : res string :=
  match newCat ratios with
  | Price => labelled "固定价格" (get ratios "model_price")
  | Ratio => two_ratios (get ratios "model_ratio") (get ratios "completion_ratio")
  end.

(** The conflict of one model, if its local category is another one. *)
Definition conflict_of (cur : obj) (d : diffs) (model : string) (ratios : obj) : res (option conflict) :=
  localCat ← getLocalBillingCategory cur model;
  match localCat with
  | Some c =>
      if decide (c = newCat ratios) then Ok None
      else
        current ← currentDesc cur model c;
        new ← newDesc ratios;
        Ok (Some (Conflict (join ", " (uniq ((λ kv, findSourceChannel d model kv.1 kv.2) <$> ratios)))
                    model current new))
  | None => Ok None
  end.

(** The conflicts of those that have one. *)
Definition found (r : res (list (option conflict))) : res (list conflict) :=
  match r with Ok l => Ok (omap id l) | Throw e => Throw e end.

Definition conflicts (cur : obj) (s : sync) : res (list conflict) :=
  found (res_map (λ '(model, ratios), conflict_of cur (differences s) model ratios) (chosen s)).

(** [ratioType.split('_').map(capitalise).join('')]. *)
Definition capitalise (word : string) : string :=
  match word with EmptyString => "" | String c w => String (ascii_upper c) w end.
Definition option_key (ratioType : string) : string := join "" (capitalise <$> split_on "_" ratioType).

(** [delete finalRatios[key][model]]. *)
Definition delete_at (key model : string) (final : list (string * obj)) : list (string * obj) :=
  match obj_get final key with Some o => obj_replace key (obj_delete model o) final | None => final end.

(** [finalRatios[optionKey][model] = parseFloat(value)]. *)
Definition store_ratio (model : string) (final : list (string * obj)) (kv : string * jsval) : res (list (string * obj)) :=
  x ← to_str kv.2;
  match obj_get final (option_key kv.1) with
  | Some o => Ok (obj_replace (option_key kv.1) (obj_set model (VNum (parse_float x)) o) final)
  | None => Throw ("Cannot set properties of undefined (setting '" +:+ model +:+ "')")
  end.

Fixpoint res_fold {A B} (f : B → A → res B) (b : B) (l : list A) : res B :=
  match l with [] => Ok b | a :: l => b ← f b a; res_fold f b l end.

Definition store_model (final : list (string * obj)) (entry : string * obj) : res (list (string * obj)) :=
  let '(model, ratios) := entry in
  let final := if decide ("model_price" ∈ obj_keys ratios) then
                 delete_at "CacheRatio" model (delete_at "CompletionRatio" model (delete_at "ModelRatio" model final))
               else final in
  let final := if existsb (λ rt, negb (bool_decide (rt = "model_price"))) (obj_keys ratios)
               then delete_at "ModelPrice" model final else final in
  res_fold (store_ratio model) final ratios.

(** The copies of the four options. *)
Definition copied (cur : obj) : list (string * obj) := (λ kv, (kv.1, obj_of_list (spread_props kv.2))) <$> cur.

Definition finalRatios (cur : obj) (rs : list (string * obj)) : res (list (string * obj)) :=
  res_fold store_model (copied cur) rs.

(** Up to the [await]; an error before the requests leaves the page as it
    is. *)
Definition performSync (cur : obj) (s : sync) : sync :=
  match finalRatios cur (chosen s) with
  | Throw _ => s
  | Ok final =>
      await (AwaitSaves (resolutions s))
        (emit ((λ kv, Put kv.1 (stringify2 (VObj kv.2))) <$> final) (setLoading true s))
  end.

Definition applySync (options : list (string * string)) (s : sync) : sync :=
  match (cur ← currentRatios options; cs ← conflicts cur s; Ok (cur, cs)) with
  | Throw _ => s
  | Ok (cur, []) => performSync cur s
  | Ok (_, cs) => setConfirmVisible true (setConflictItems cs s)
  end.

Definition confirmConflicts (options : list (string * string)) (s : sync) : sync :=
  let s := setConfirmVisible false s in
  match currentRatios options with Throw _ => s | Ok cur => performSync cur s end.

Definition cancelConflicts (s : sync) : sync := setConfirmVisible false s.

(** [delete newDifferences[model][ratioType]], and the model with its last
    type. *)
Definition drop_difference (model : string) (d : diffs) (ratioType : string) : diffs :=
  match obj_get d model with
  | Some types =>
      match obj_get types ratioType with
      | Some _ =>
          let types := obj_delete ratioType types in
          if decide (obj_keys types = []) then obj_delete model d else obj_replace model types d
      | None => d
      end
  | None => d
  end.

Definition drop_differences (rs : list (string * obj)) (d : diffs) : diffs :=
  foldl (λ d '(model, ratios), foldl (drop_difference model) d (obj_keys ratios)) d rs.

(** The answers of the four requests: one failed, or the [success] of each. *)
Definition savesDone (snapshot : list (string * nat)) (answers : option (list bool)) (s : sync) : sync :=
  setLoading false
    match answers with
    | None => emit [ShowError (VStr (t "保存失败"))] s
    | Some l =>
        if forallb id l then
          let s := emit [ShowSuccess (t "同步成功"); Refresh] s in
          setResolutions [] (setDifferences (drop_differences (deref (heap s) snapshot) (differences s)) s)
        else emit [ShowError (VStr (t "部分保存失败"))] s
    end.

(** ** Sessions *)

(** The types of differences the service reports. *)
Definition ratioTypes : list string := ["model_ratio"; "completion_ratio"; "cache_ratio"; "model_price"].

(** An upstream value is a number, ["same"] or [null]. *)
Definition upstream_value (v : jsval) : Prop := (∃ n, v = VNum n) ∨ v = VStr "same" ∨ v = VNull.

Definition served_diff (x : diff) : Prop :=
  ∃ o, d_upstreams x = VObj o ∧ Forall (λ kv, upstream_value kv.2) o.

Definition served (d : diffs) : Prop :=
  NoDup (obj_keys d) ∧
  Forall (λ kv, NoDup (obj_keys kv.2) ∧ Forall (λ x, x.1 ∈ ratioTypes ∧ served_diff x.2) kv.2) d.

Inductive step : sync → sync → Prop :=
| step_open s : step s (openSelector s)
| step_close s : step s (handleModalClose s)
| step_ids ids s : step s (setSelectedChannelIds ids s)
| step_endpoint id e s : step s (updateChannelEndpoint id e s)
| step_choose s : step s (confirmChannelSelection s)
| step_page p n s : step s (onPageChange p n s)
| step_size n s : step s (onShowSizeChange n s)
| step_filter k rt s : step s (changeFilter k rt s)
| step_check r up s : r ∈ filteredDataSource s → selectable (prop_opt (r_upstreams r) up) = true →
    step s (selectValue (r_model r) (r_ratioType r) (prop_opt (r_upstreams r) up) s)
| step_uncheck r s : r ∈ filteredDataSource s → step s (unselect (r_model r) (r_ratioType r) s)
| step_bulk up b s : step s (handleBulkSelect up b s)
| step_apply options s : step s (applySync options s)
| step_confirm options s : confirmVisible s = true → step s (confirmConflicts options s)
| step_cancel s : step s (cancelConflicts s)
| step_channels i r s : pending s !! i = Some AwaitChannels →
    step s (channelsFetched r (setPending (delete i (pending s)) s))
| step_ratios i r s : pending s !! i = Some AwaitRatios → (∀ d l, r = Served (d, l) → served d) →
    step s (ratiosFetched r (setPending (delete i (pending s)) s))
| step_saves i snapshot a s : pending s !! i = Some (AwaitSaves snapshot) →
    step s (savesDone snapshot a (setPending (delete i (pending s)) s)).

End handlers.

(** ** One way of billing per model *)

Definition one_category (o : obj) : Prop := ∃ c, Forall (λ k, getBillingCategory k = c) (obj_keys o).

Definition choice_ok (o : obj) : Prop :=
  NoDup (obj_keys o) ∧ one_category o ∧ Forall (λ kv, kv.1 ∈ ratioTypes ∧ ∃ n, kv.2 = VNum n) o.

Record inv (s : sync) : Prop := {
  inv_models : NoDup (obj_keys (resolutions s));
  inv_inj m m' l : obj_get (resolutions s) m = Some l → obj_get (resolutions s) m' = Some l → m = m';
  inv_alloc m l : obj_get (resolutions s) m = Some l → ∃ o, heap s !! l = Some o ∧ o ≠ [];
  inv_heap : map_Forall (λ _, choice_ok) (heap s);
  inv_tasks snap : AwaitSaves snap ∈ pending s →
    NoDup (obj_keys snap) ∧ ∀ m l, obj_get snap m = Some l → is_Some (heap s !! l);
  inv_diffs : served (differences s) }.

Lemma sync_frame s s' :
  differences s' = differences s → heap s' = heap s → resolutions s' = resolutions s →
  (∀ snap, AwaitSaves snap ∈ pending s' → AwaitSaves snap ∈ pending s ∨ snap = resolutions s) →
  inv s → inv s'.
Proof.
  intros Hd Hh Hr Hp []. split; rewrite ?Hd, ?Hh, ?Hr; try done.
  intros snap [H| ->]%Hp; [auto|]. split; [done|]. intros m l (o & -> & _)%inv_alloc0. by eexists.
Qed.

(** Replacing the differences and forgetting the choices. *)
Lemma inv_reset s s' :
  served (differences s') → heap s' = heap s → resolutions s' = [] →
  (∀ snap, AwaitSaves snap ∈ pending s' → AwaitSaves snap ∈ pending s) → inv s → inv s'.
Proof.
  intros Hd Hh Hr Hp []. split; rewrite ?Hh, ?Hr; try done; [constructor|naive_solver].
Qed.

Lemma filter_keys_NoDup {A} (P : string * A → Prop) `{∀ x, Decision (P x)} o :
  NoDup (obj_keys o) → NoDup (obj_keys (filter P o)).
Proof. intros Hnd. eapply sublist_NoDup; [exact Hnd|]. apply fmap_sublist, sublist_filter. Qed.

Lemma choice_new rt v o : choice_ok o → rt ∈ ratioTypes → (∃ n, v = VNum n) →
  choice_ok (newModelRes rt v o) ∧ newModelRes rt v o ≠ [].
Proof.
  intros (Hnd & _ & Hty) Hrt Hv. unfold newModelRes.
  assert (rt ≠ "__proto__") as Hp by (intros ->; revert Hrt; unfold ratioTypes; set_solver).
  set (o' := filter _ o).
  assert (NoDup (obj_keys (obj_set rt v o'))) as Hnd' by by apply obj_set_NoDup, filter_keys_NoDup.
  assert (∀ k x, (k, x) ∈ obj_set rt v o' → k = rt ∧ x = v ∨ (k, x) ∈ o') as Hin.
  { intros k x Hk%elem_of_obj_get; [|done]. rewrite obj_get_set in Hk.
    case_decide; [left; naive_solver|right; by apply obj_get_elem_of]. }
  split; [split; [done|split]|].
  - exists (getBillingCategory rt). apply Forall_forall. intros k ([k' x] & -> & Hk)%list_elem_of_fmap. simpl.
    apply Hin in Hk as [[-> _]|[? _]%list_elem_of_filter]; done.
  - apply Forall_forall. intros [k x] [[-> ->]|[_ Hk]%list_elem_of_filter]%Hin; [done|].
    by eapply Forall_forall in Hty.
  - intros H. pose proof (obj_get_set o' rt v rt) as Hg. rewrite H in Hg. by rewrite decide_True in Hg.
Qed.

Lemma Forall_filter_keep {A} (P Q : A → Prop) `{∀ x, Decision (Q x)} l : Forall P l → Forall P (filter Q l).
Proof. rewrite !Forall_forall. intros Hl x [_ Hx]%list_elem_of_filter. auto. Qed.

Lemma choice_delete rt o : choice_ok o → choice_ok (obj_delete rt o).
Proof.
  intros (Hnd & [c Hc] & Hty). split; [by apply obj_delete_NoDup|]. unfold obj_delete. split.
  - exists c. unfold obj_keys in *. rewrite Forall_fmap in *. by apply Forall_filter_keep.
  - by apply Forall_filter_keep.
Qed.

Lemma choice_empty : choice_ok [].
Proof. split; [constructor|]. split; [by exists Price|]. constructor. Qed.

Lemma obj_get_deref h rs m : obj_get (deref h rs) m = (λ l, default [] (h !! l)) <$> obj_get rs m.
Proof. induction rs as [|[m' l] rs IH]; simpl; [done|]. by case_decide. Qed.

Lemma row_served s r up :
  served (differences s) → r ∈ filteredDataSource s →
  r_ratioType r ∈ ratioTypes ∧
  (selectable (prop_opt (r_upstreams r) up) = true → ∃ n, prop_opt (r_upstreams r) up = VNum n).
Proof.
  intros [_ Hd] Hr.
  assert (r ∈ dataSource (differences s)) as Hr'.
  { revert Hr. unfold filteredDataSource. case_match; [done|]. by intros [_ ?]%list_elem_of_filter. }
  unfold dataSource in Hr'. apply list_elem_of_bind in Hr' as ([m types] & Hr' & Hin).
  apply list_elem_of_fmap in Hr' as ([rt x] & -> & Hx).
  eapply Forall_forall in Hd as [_ Hd]; [|exact Hin]. eapply Forall_forall in Hd as [Ht (o & Ho & Hv)]; [|exact Hx].
  simpl in *. split; [done|]. rewrite Ho. simpl.
  destruct (obj_get o up) as [v|] eqn:Hg; [|done]. simpl.
  apply obj_get_elem_of in Hg. eapply Forall_forall in Hv; [|exact Hg].
  destruct Hv as [?|[Hs|Hs]]; simpl in *; [done|rewrite Hs; done|rewrite Hs; done].
Qed.

Lemma inv_select s model rt v :
  inv s → rt ∈ ratioTypes → (∃ n, v = VNum n) → inv (selectValue model rt v s).
Proof.
  intros [] Hrt Hv. unfold selectValue. set (l := fresh _).
  assert (heap s !! l = None) as Hl by apply not_elem_of_dom, is_fresh.
  assert (choice_ok (default [] (obj_get (chosen s) model))) as Ho.
  { unfold chosen. rewrite obj_get_deref. destruct (obj_get (resolutions s) model) as [l'|]; simpl; [|apply choice_empty].
    destruct (heap s !! l') eqn:Hl'; simpl; [by eapply inv_heap0|apply choice_empty]. }
  destruct (choice_new rt v _ Ho Hrt Hv) as [Hok Hne]. set (o := newModelRes _ _ _) in *.
  assert (∀ m l', obj_get (resolutions s) m = Some l' → l' ≠ l) as Hfr.
  { intros m l' (? & ? & _)%inv_alloc0 ->. congruence. }
  destruct s; simpl in *. split; simpl.
  - by apply obj_define_NoDup.
  - intros m m' l'. rewrite !obj_get_define. repeat case_decide; subst; try done; try naive_solver.
  - intros m l'. rewrite obj_get_define. case_decide as Hm.
    + intros [= <-]. exists o. by rewrite lookup_insert_eq.
    + intros Hm'. rewrite lookup_insert_ne by (symmetry; eauto). eauto.
  - by apply map_Forall_insert_2.
  - intros snap [? Hs]%inv_tasks0. split; [done|]. intros m l' Hm%Hs. by apply lookup_insert_is_Some'; auto.
  - done.
Qed.

Lemma inv_unselect s model rt : inv s → inv (unselect model rt s).
Proof.
  intros Hs. unfold unselect. destruct (obj_get (resolutions s) model) as [l|] eqn:Hm; [|done].
  destruct Hs. destruct (inv_alloc0 _ _ Hm) as (o & Ho & _).
  assert (choice_ok (obj_delete rt o)) as Hok by by eapply choice_delete, inv_heap0.
  rewrite Ho. simpl. destruct s; simpl in *.
  case_decide as Hd; (split; simpl; [..|done]).
  - by apply obj_delete_NoDup.
  - intros m m' l'. rewrite !obj_get_delete. repeat case_decide; naive_solver.
  - intros m l'. rewrite obj_get_delete. case_decide as Hne; [done|]. intros Hm'.
    assert (l' ≠ l) by (intros ->; apply Hne; eauto). rewrite lookup_insert_ne by done. eauto.
  - by apply map_Forall_insert_2.
  - intros snap [? Hs]%inv_tasks0. split; [done|]. intros m l' Hm'%Hs. by apply lookup_insert_is_Some'; auto.
  - done.
  - done.
  - intros m l' Hm'. destruct (decide (l' = l)) as [->|]; [rewrite lookup_insert_eq; eauto|].
    rewrite lookup_insert_ne by done. eauto.
  - by apply map_Forall_insert_2.
  - intros snap [? Hs]%inv_tasks0. split; [done|]. intros m l' Hm'%Hs. by apply lookup_insert_is_Some'; auto.
Qed.

Lemma inv_bulk up b s : inv s → inv (handleBulkSelect up b s).
Proof.
  unfold handleBulkSelect. intros Hs.
  assert (∀ r, r ∈ filteredDataSource s →
    r_ratioType r ∈ ratioTypes ∧
    (selectable (prop_opt (r_upstreams r) up) = true → ∃ n, prop_opt (r_upstreams r) up = VNum n)) as Hrows.
  { intros r Hr. apply (row_served s); [apply Hs|done]. }
  revert Hs Hrows. generalize (filteredDataSource s). intros rows. revert s.
  induction rows as [|r rows IH]; intros s Hs Hrows; simpl; [done|].
  apply IH; [|intros; apply Hrows; set_solver].
  destruct (Hrows r) as [Hrt Hv]; [set_solver|].
  destruct b; [|by apply inv_unselect]. case_match; [|done]. apply inv_select; auto.
Qed.

Lemma served_replace d m types types' :
  served d → obj_get d m = Some types →
  NoDup (obj_keys types') → Forall (λ x, x.1 ∈ ratioTypes ∧ served_diff x.2) types' →
  served (obj_replace m types' d).
Proof.
  intros [Hnd Hd] Hm Hk Ht. split; [by rewrite obj_keys_replace|].
  apply Forall_forall. intros [k x] Hin.
  apply elem_of_obj_get in Hin; [|by rewrite obj_keys_replace].
  rewrite obj_get_replace in Hin by congruence. case_decide; [by simplify_eq|].
  apply obj_get_elem_of in Hin. by eapply Forall_forall in Hd.
Qed.

Lemma served_drop m rt d : served d → served (drop_difference m d rt).
Proof.
  intros Hs. unfold drop_difference. destruct (obj_get d m) as [types|] eqn:Hm; [|done].
  destruct (obj_get types rt); [|done]. destruct Hs as [Hnd Hd].
  pose proof (proj1 (Forall_forall _ _) Hd _ (obj_get_elem_of _ _ _ Hm)) as [Hk Ht].
  case_decide.
  - split; [by apply obj_delete_NoDup|]. by apply Forall_filter_keep.
  - eapply served_replace; [by split|done|by apply obj_delete_NoDup|by apply Forall_filter_keep].
Qed.

Lemma served_drops rs d : served d → served (drop_differences rs d).
Proof.
  unfold drop_differences. revert d. induction rs as [|[m o] rs IH]; simpl; [done|]. intros d Hd. apply IH.
  revert d Hd. induction (obj_keys o) as [|rt ks IHk]; simpl; [done|]. intros d Hd. by apply IHk, served_drop.
Qed.

Lemma performSync_frame cur s :
  let s' := performSync cur s in
  differences s' = differences s ∧ heap s' = heap s ∧ resolutions s' = resolutions s ∧
  ∀ snap, AwaitSaves snap ∈ pending s' → AwaitSaves snap ∈ pending s ∨ snap = resolutions s.
Proof.
  unfold performSync. destruct (finalRatios cur (chosen s)); [|naive_solver]. destruct s; simpl. repeat split; try done.
  intros snap. rewrite elem_of_app, list_elem_of_singleton. naive_solver.
Qed.

Lemma inv_perform cur s : inv s → inv (performSync cur s).
Proof. destruct (performSync_frame cur s) as (?&?&?&?). by apply sync_frame. Qed.

Lemma elem_of_delete_task (l : list task) i x : x ∈ delete i l → x ∈ l.
Proof.
  revert i. induction l as [|y l IH]; intros [|i]; cbn; rewrite ?elem_of_cons; [done..|auto|].
  intros [->|H]; [auto|]. right. eapply IH, H.
Qed.

Lemma inv_pending i s : inv s → inv (setPending (delete i (pending s)) s).
Proof.
  intros Hs. eapply sync_frame, Hs; try (by destruct s). intros snap H. left. destruct s; simpl in *.
  by eapply elem_of_delete_task.
Qed.

(** A state that differs from [s] in nothing the invariant reads. *)
Ltac frame s := eapply (sync_frame s); [by destruct s..| |done]; destruct s; simpl; auto.

Lemma inv_openSelector s : inv s → inv (openSelector s).
Proof.
  intros Hs. unfold openSelector, fetchAllChannels. case_decide; [|frame s].
  frame s. intros snap. rewrite elem_of_app, list_elem_of_singleton. naive_solver.
Qed.

Lemma inv_confirmSelection t s : inv s → inv (confirmChannelSelection t s).
Proof.
  intros Hs. unfold confirmChannelSelection, fetchRatiosFromChannels. case_match; [frame s|].
  frame s. intros snap. rewrite elem_of_app, list_elem_of_singleton. naive_solver.
Qed.

Lemma inv_changeFilter k rt s : inv s → inv (changeFilter k rt s).
Proof. intros Hs. unfold changeFilter. case_decide; frame s. Qed.

Lemma inv_applySync t options s : inv s → inv (applySync t options s).
Proof.
  intros Hs. unfold applySync. case_match; [|done]. case_match. case_match; [by apply inv_perform|]. frame s.
Qed.

Lemma inv_confirmConflicts options s : inv s → inv (confirmConflicts options s).
Proof.
  intros Hs. unfold confirmConflicts. assert (inv (setConfirmVisible false s)) by frame s.
  case_match; [by apply inv_perform|done].
Qed.

Lemma inv_channelsFetched t r s : inv s → inv (channelsFetched t r s).
Proof. intros Hs. unfold channelsFetched. destruct r; frame s. Qed.

Lemma inv_ratiosFetched t r s : (∀ d l, r = Served (d, l) → served d) → inv s → inv (ratiosFetched t r s).
Proof.
  intros Hd Hs. unfold ratiosFetched. destruct r as [e|m|[d l]]; [frame s..|].
  specialize (Hd d l eq_refl).
  eapply (inv_reset s); [| | | |done]; destruct (errorResults l); case_decide; destruct s; done.
Qed.

Lemma inv_savesDone t snap a s : inv s → inv (savesDone t snap a s).
Proof.
  intros Hs. unfold savesDone. destruct a as [l|]; [|frame s].
  destruct (forallb id l); [|frame s]. pose proof (served_drops (deref (heap s) snap) _ (inv_diffs _ Hs)).
  eapply (inv_reset s); [| | | |done]; destruct s; simpl in *; done.
Qed.

Lemma sync_step t s s' : step t s s' → inv s → inv s'.
Proof.
  intros Hstep Hs. destruct Hstep as [s|s|ids s|id e s|s|p n s|n s|k rt s|r up s Hr Hv|r s Hr|up b s|options s
    |options s|s|i r s Hi|i r s Hi Hd|i snap a s Hi].
  - by apply inv_openSelector.
  - frame s.
  - frame s.
  - frame s.
  - by apply inv_confirmSelection.
  - frame s.
  - frame s.
  - by apply inv_changeFilter.
  - destruct (row_served s r up) as [? Hn]; [apply Hs|done|]. apply inv_select; auto.
  - by apply inv_unselect.
  - by apply inv_bulk.
  - by apply inv_applySync.
  - by apply inv_confirmConflicts.
  - frame s.
  - by apply inv_channelsFetched, inv_pending.
  - by apply inv_ratiosFetched, inv_pending.
  - by apply inv_savesDone, inv_pending.
Qed.

Lemma inv_mount : inv mount.
Proof.
  split; simpl; try done; [constructor|set_solver|]. split; constructor.
Qed.

Lemma inv_reachable t s : rtc (step t) mount s → inv s.
Proof. apply (rtc_ind_r inv); [apply inv_mount|]. intros ?? _ ?. by eapply sync_step. Qed.

Lemma choice_at s m o : inv s → obj_get (chosen s) m = Some o → choice_ok o ∧ o ≠ [].
Proof.
  intros [] Ho. unfold chosen in Ho. rewrite obj_get_deref in Ho.
  destruct (obj_get (resolutions s) m) as [l|] eqn:Hl; simpl in Ho; [|done]. simplify_eq.
  destruct (inv_alloc0 _ _ Hl) as (o & Ho & Hne). rewrite Ho. simpl. split; [by eapply inv_heap0|done].
Qed.

Lemma keys_deref h rs : obj_keys (deref h rs) = obj_keys rs.
Proof. unfold obj_keys, deref. rewrite <-list_fmap_compose. apply list_fmap_ext. by intros ? [??]. Qed.

(** ** What is stored *)

(** The entry of a model in one of the options. *)
Definition at2 (final : list (string * obj)) (key model : string) : option jsval :=
  obj_get final key ≫= λ o, obj_get o model.

Lemma at2_replace final key o o' key' m :
  obj_get final key = Some o →
  at2 (obj_replace key o' final) key' m = if decide (key' = key) then obj_get o' m else at2 final key' m.
Proof. intros Hk. unfold at2. rewrite obj_get_replace by congruence. by case_decide. Qed.

Lemma delete_at_spec key model final :
  obj_keys (delete_at key model final) = obj_keys final ∧
  ∀ key' m, at2 (delete_at key model final) key' m =
    if decide (key' = key ∧ m = model) then None else at2 final key' m.
Proof.
  unfold delete_at. destruct (obj_get final key) as [o|] eqn:Hk.
  - split; [apply obj_keys_replace|]. intros key' m. rewrite (at2_replace _ _ _ _ _ _ Hk), obj_get_delete.
    repeat case_decide; try done; try naive_solver. subst. unfold at2. rewrite Hk. simpl. naive_solver.
  - split; [done|]. intros key' m. case_decide as H; [|done]. destruct H as [-> ->]. unfold at2. by rewrite Hk.
Qed.

Lemma option_key_inj rt rt' : rt ∈ ratioTypes → rt' ∈ ratioTypes → option_key rt = option_key rt' → rt = rt'.
Proof.
  assert (NoDup (option_key <$> ratioTypes)) as Hnd by (vm_compute; repeat constructor; set_solver).
  rewrite !list_elem_of_lookup. intros [i Hi] [j Hj] H.
  assert (i = j) as ->; [|congruence].
  eapply (NoDup_lookup _ i j (option_key rt) Hnd); rewrite list_lookup_fmap; [by rewrite Hi|by rewrite Hj, H].
Qed.

Lemma option_key_known rt : rt ∈ ratioTypes → option_key rt ∈ option_keys.
Proof. unfold ratioTypes. rewrite !elem_of_cons, elem_of_nil. intros [->|[->|[->|[->|[]]]]]; vm_compute; set_solver. Qed.

(** [parseFloat(v)]. *)
Definition parseFloat (v : jsval) : jsval :=
  match to_str v with Ok x => VNum (parse_float x) | Throw _ => VUndef end.

Lemma store_ratio_spec model final rt n :
  obj_keys final = option_keys → rt ∈ ratioTypes →
  ∃ final', store_ratio model final (rt, VNum n) = Ok final' ∧ obj_keys final' = option_keys ∧
    ∀ key m, m ≠ "__proto__" → at2 final' key m =
      if decide (key = option_key rt ∧ m = model) then Some (parseFloat (VNum n)) else at2 final key m.
Proof.
  intros Hk Hrt. unfold store_ratio. simpl.
  assert (is_Some (obj_get final (option_key rt))) as [o Ho] by (apply obj_get_is_Some; rewrite Hk; by apply option_key_known).
  rewrite Ho. eexists. split; [done|]. split; [by rewrite obj_keys_replace|].
  intros key m Hm. rewrite (at2_replace _ _ _ _ _ _ Ho), obj_get_set.
  repeat case_decide; try done; try naive_solver. subst. unfold at2. rewrite Ho. simpl. naive_solver.
Qed.

Lemma store_ratios_spec model ratios final :
  obj_keys final = option_keys → NoDup (obj_keys ratios) →
  Forall (λ kv, kv.1 ∈ ratioTypes ∧ ∃ n, kv.2 = VNum n) ratios →
  ∃ final', res_fold (store_ratio model) final ratios = Ok final' ∧ obj_keys final' = option_keys ∧
    ∀ rt m, rt ∈ ratioTypes → m ≠ "__proto__" → at2 final' (option_key rt) m =
      match obj_get ratios rt with
      | Some v => if decide (m = model) then Some (parseFloat v) else at2 final (option_key rt) m
      | None => at2 final (option_key rt) m
      end.
Proof.
  revert final. induction ratios as [|[rt0 v] ratios IH]; intros final Hk Hnd Hall; simpl; [by exists final|].
  apply NoDup_cons in Hnd as [Hni Hnd]. apply Forall_cons in Hall as [[Hrt0 [n Hn]] Hall]. simpl in *. subst v.
  destruct (store_ratio_spec model final rt0 n Hk Hrt0) as (f1 & -> & Hk1 & H1). simpl.
  destruct (IH f1 Hk1 Hnd Hall) as (f2 & -> & Hk2 & H2). exists f2. split; [done|]. split; [done|].
  intros rt m Hrt Hm. rewrite H2 by done. rewrite H1 by done.
  destruct (decide (rt = rt0)) as [->|Hne].
  - assert (obj_get ratios rt0 = None) as -> by by apply obj_get_None. repeat case_decide; naive_solver.
  - rewrite decide_False; [done|]. intros [He%option_key_inj _]; done.
Qed.

(** What the choices of a model make of its entry under a type. *)
Definition synced (o : obj) (rt : string) (before : option jsval) : option jsval :=
  match obj_get o rt with
  | Some v => Some (parseFloat v)
  | None => if decide (newCat o = getBillingCategory rt) then before else None
  end.

(** The deletions before the values are stored: everything of the other
    category goes. *)
Definition cleared (final : list (string * obj)) (model : string) (ratios : obj) : list (string * obj) :=
  let final := if decide ("model_price" ∈ obj_keys ratios) then
                 delete_at "CacheRatio" model (delete_at "CompletionRatio" model (delete_at "ModelRatio" model final))
               else final in
  if existsb (λ rt, negb (bool_decide (rt = "model_price"))) (obj_keys ratios)
  then delete_at "ModelPrice" model final else final.

Lemma newCat_price o : choice_ok o → newCat o = Price →
  existsb (λ rt, negb (bool_decide (rt = "model_price"))) (obj_keys o) = false.
Proof.
  intros (_ & [c Hc] & _). unfold newCat. case_decide as Hp; [|done]. intros _.
  apply not_true_iff_false. rewrite existsb_exists. intros (k & Hk & Hne).
  rewrite Forall_forall in Hc. pose proof (Hc _ Hp) as Hc1. apply list_elem_of_In in Hk. apply Hc in Hk.
  subst c. unfold getBillingCategory in *. simpl in *. case_bool_decide; [done|]. by case_decide.
Qed.

Lemma newCat_ratio o : o ≠ [] → newCat o = Ratio →
  existsb (λ rt, negb (bool_decide (rt = "model_price"))) (obj_keys o) = true.
Proof.
  unfold newCat. case_decide as Hp; [done|]. intros Hne _. destruct o as [|[k v] o]; [done|]. simpl in *.
  apply orb_true_iff. left. apply negb_true_iff, bool_decide_eq_false. intros ->. apply Hp. left.
Qed.

(** The four types in turn. *)
Ltac by_type H :=
  unfold ratioTypes in H; rewrite !elem_of_cons, elem_of_nil in H;
  destruct H as [->|[->|[->|[->|[]]]]]; vm_compute option_key; vm_compute getBillingCategory;
  repeat case_decide; naive_solver.

Lemma cleared_spec final model o : choice_ok o → o ≠ [] →
  obj_keys (cleared final model o) = obj_keys final ∧
  ∀ rt m, rt ∈ ratioTypes → at2 (cleared final model o) (option_key rt) m =
    if decide (m = model ∧ newCat o ≠ getBillingCategory rt) then None else at2 final (option_key rt) m.
Proof.
  intros Hok Hne. unfold cleared.
  destruct (newCat o) eqn:Hc.
  - rewrite (newCat_price _ Hok Hc). unfold newCat in Hc. case_decide as Hk; [|done].
    split; [by rewrite !(proj1 (delete_at_spec _ _ _))|].
    intros rt m Hrt. rewrite !(proj2 (delete_at_spec _ _ _)).
    by_type Hrt.
  - rewrite (newCat_ratio _ Hne Hc). unfold newCat in Hc. case_decide as Hk; [done|].
    split; [by rewrite (proj1 (delete_at_spec _ _ _))|].
    intros rt m Hrt. rewrite (proj2 (delete_at_spec _ _ _)).
    by_type Hrt.
Qed.

Lemma store_model_spec final model o :
  obj_keys final = option_keys → choice_ok o → o ≠ [] →
  ∃ final', store_model final (model, o) = Ok final' ∧ obj_keys final' = option_keys ∧
    ∀ rt m, rt ∈ ratioTypes → m ≠ "__proto__" → at2 final' (option_key rt) m =
      if decide (m = model) then synced o rt (at2 final (option_key rt) m) else at2 final (option_key rt) m.
Proof.
  intros Hk Hok Hne. destruct (cleared_spec final model o Hok Hne) as [Hk' Hc].
  destruct (store_ratios_spec model o (cleared final model o)) as (f & Hf & Hkf & Hs);
    [by rewrite Hk'|apply Hok..|].
  exists f. split; [exact Hf|]. split; [done|]. intros rt m Hrt Hm. rewrite Hs, Hc by done. unfold synced.
  destruct (obj_get o rt); repeat case_decide; naive_solver.
Qed.

Lemma store_models_spec rs final :
  obj_keys final = option_keys → NoDup (obj_keys rs) → Forall (λ mo, choice_ok mo.2 ∧ mo.2 ≠ []) rs →
  ∃ final', res_fold store_model final rs = Ok final' ∧ obj_keys final' = option_keys ∧
    ∀ rt m, rt ∈ ratioTypes → m ≠ "__proto__" → at2 final' (option_key rt) m =
      match obj_get rs m with
      | Some o => synced o rt (at2 final (option_key rt) m)
      | None => at2 final (option_key rt) m
      end.
Proof.
  revert final. induction rs as [|[m0 o] rs IH]; intros final Hk Hnd Hall; [by exists final|].
  apply NoDup_cons in Hnd as [Hni Hnd]. apply Forall_cons in Hall as [[Ho Hne] Hall]. cbn [fst snd] in *.
  destruct (store_model_spec final m0 o Hk Ho Hne) as (f1 & H1 & Hk1 & Hs1).
  destruct (IH f1 Hk1 Hnd Hall) as (f2 & H2 & Hk2 & Hs2). exists f2. cbn [res_fold]. rewrite H1.
  split; [exact H2|]. split; [done|]. intros rt m Hrt Hm. rewrite Hs2, Hs1 by done. simpl.
  case_decide as Hd; [|done]. subst. assert (obj_get rs m0 = None) as -> by by apply obj_get_None. done.
Qed.

Lemma currentRatios_keys options cur : currentRatios options = Ok cur → obj_keys cur = option_keys.
Proof.
  unfold currentRatios. rewrite res_map_Ok. generalize option_keys. intros ks. revert cur.
  induction ks as [|k ks IH]; intros cur H; inv H; [done|]. cbn [obj_keys fmap list_fmap] in *.
  match goal with Hk : _ = Ok _ |- _ => apply res_bind_Ok in Hk as (v & _ & [= <-]) end.
  simpl. f_equal. by apply IH.
Qed.

Lemma chosen_ok s : inv s → NoDup (obj_keys (chosen s)) ∧ Forall (λ mo, choice_ok mo.2 ∧ mo.2 ≠ []) (chosen s).
Proof.
  intros Hs. assert (NoDup (obj_keys (chosen s))) as Hnd by (unfold chosen; rewrite keys_deref; apply Hs).
  split; [done|]. apply Forall_forall. intros [m o] Hin%elem_of_obj_get; [|done]. by eapply choice_at.
Qed.

(** Values of one way of billing: the price alone, or some of the three
    ratios, each once; all of them numbers. *)
Definition billed_one_way (o : obj) : Prop :=
  (obj_keys o = ["model_price"] ∨
   NoDup (obj_keys o) ∧ ∀ k, k ∈ obj_keys o → k ∈ ["model_ratio"; "completion_ratio"; "cache_ratio"]) ∧
  ∀ k v, (k, v) ∈ o → ∃ n, v = VNum n.

Lemma singleton_keys (x : string) l : NoDup l → x ∈ l → (∀ k, k ∈ l → k = x) → l = [x].
Proof.
  intros Hnd Hx Hall. destruct l as [|y [|z l]]; [by apply not_elem_of_nil in Hx| |].
  - by rewrite (Hall y) by set_solver.
  - rewrite (Hall y), (Hall z) in Hnd by set_solver. apply NoDup_cons in Hnd as [[] _]. set_solver.
Qed.

Lemma choice_one_way o : choice_ok o → billed_one_way o.
Proof.
  intros (Hnd & [c Hc] & Hty). rewrite Forall_forall in Hc. rewrite Forall_forall in Hty. split.
  2: { intros k v Hk. by destruct (Hty _ Hk). }
  assert (∀ k, k ∈ obj_keys o → k ∈ ratioTypes) as Hk.
  { intros k ([k' v] & -> & H)%list_elem_of_fmap. by destruct (Hty _ H). }
  destruct (decide ("model_price" ∈ obj_keys o)) as [Hp|Hp]; [left|right; split; [done|]].
  - apply singleton_keys; [done..|]. intros k Hko.
    assert (getBillingCategory k = getBillingCategory "model_price") as E by (by rewrite (Hc _ Hko), (Hc _ Hp)).
    unfold getBillingCategory in E. by repeat case_decide.
  - intros k Hko. specialize (Hk k Hko). unfold ratioTypes in Hk.
    assert (k ≠ "model_price") by (by intros ->). set_solver.
Qed.

(** C11.  In every session, whatever is checked and unchecked by hand or in
    bulk, fetched and saved in between, the chosen values of a model are not
    empty, and are the price alone or some of the ratios, each once, as
    numbers.  What a save under way refers to is of one way of billing in the
    same sense, although unchecking a box changes the very object the save
    holds; there it may have become empty. *)
Theorem one_billing_category (t : string → string) (s : sync) :
  rtc (step t) mount s →
  NoDup (obj_keys (chosen s)) ∧ Forall (λ mo, mo.2 ≠ [] ∧ billed_one_way mo.2) (chosen s) ∧
  ∀ snap, AwaitSaves snap ∈ pending s →
    NoDup (obj_keys snap) ∧ Forall (λ mo, billed_one_way mo.2) (deref (heap s) snap).
Proof.
  intros Hs%inv_reachable. destruct (chosen_ok s Hs) as [Hnd Hall]. split; [done|]. split.
  - eapply Forall_impl; [exact Hall|]. intros ? [? ?]. auto using choice_one_way.
  - intros snap Hsnap. destruct (inv_tasks _ Hs _ Hsnap) as [Hk Hl]. split; [done|].
    apply Forall_forall. intros [m o] Hin%elem_of_obj_get; [|by rewrite keys_deref].
    rewrite obj_get_deref in Hin. destruct (obj_get snap m) as [l|] eqn:Hm; simpl in Hin; [|done]. simplify_eq.
    destruct (Hl _ _ Hm) as [o Ho]. rewrite Ho. simpl. by eapply choice_one_way, (inv_heap _ Hs).
Qed.

(** C12.  Saving always sends the four options, and they are exact: a model
    without choices keeps its entries, a chosen value is stored under its
    type, and the other types of a chosen model keep their entry if they
    belong to the same way of billing and lose it otherwise. *)
Theorem sync_values (t : string → string) (s : sync) (options : list (string * string)) (cur : obj) :
  rtc (step t) mount s → currentRatios options = Ok cur →
  ∃ final,
    performSync cur s = await (AwaitSaves (resolutions s))
      (emit ((λ kv, Put kv.1 (stringify2 (VObj kv.2))) <$> final) (setLoading true s)) ∧
    obj_keys final = option_keys ∧
    ∀ rt m, rt ∈ ratioTypes → m ≠ "__proto__" →
      at2 final (option_key rt) m =
        match obj_get (chosen s) m with
        | Some o => synced o rt (at2 (copied cur) (option_key rt) m)
        | None => at2 (copied cur) (option_key rt) m
        end.
Proof.
  intros Hs%inv_reachable Hcur%currentRatios_keys. destruct (chosen_ok s Hs) as [Hnd Hall].
  destruct (store_models_spec (chosen s) (copied cur)) as (final & Hf & Hk & Hv); [|done..|].
  { rewrite <-Hcur. unfold copied, obj_keys. by rewrite <-list_fmap_compose. }
  exists final. split; [|done]. unfold performSync, finalRatios. by rewrite Hf.
Qed.

(** ** Asking about conflicts *)

Definition numbers (o : obj) : Prop := Forall (λ kv, ∃ n, kv.2 = VNum n) o.

(** Options as the service stores them: objects of numbers. *)
Definition typed_options (cur : obj) : Prop := Forall (λ kv, ∃ o, kv.2 = VObj o ∧ numbers o) cur.

(** How a model is billed at present: by a price if it has one, otherwise by
    ratios if it has one of the three. *)
Definition has_entry (cur : obj) (key model : string) : bool :=
  match obj_get cur key with Some (VObj o) => bool_decide (is_Some (obj_get o model)) | _ => false end.

Definition billed (cur : obj) (model : string) : option category :=
  if has_entry cur "ModelPrice" model then Some Price
  else if has_entry cur "ModelRatio" model || has_entry cur "CompletionRatio" model || has_entry cur "CacheRatio" model
  then Some Ratio else None.

Definition changes_billing (cur : obj) (mo : string * obj) : bool :=
  match billed cur mo.1 with Some c => negb (bool_decide (c = newCat mo.2)) | None => false end.

(** A value [dash] shows. *)
Definition shown (v : jsval) : Prop := v = VUndef ∨ ∃ n, v = VNum n.

Lemma get_shown o k : numbers o → shown (default VUndef (obj_get o k)).
Proof.
  intros Ho. destruct (obj_get o k) as [v|] eqn:Hg; [|by left]. right. apply obj_get_elem_of in Hg.
  by eapply Forall_forall in Ho; [|exact Hg].
Qed.

Lemma ratio_at_typed cur key m :
  obj_keys cur = option_keys → typed_options cur → key ∈ option_keys →
  ∃ v, ratio_at cur key m = Ok v ∧ shown v ∧ is_undef v = negb (has_entry cur key m).
Proof.
  intros Hk Ht Hin. unfold ratio_at, has_entry.
  assert (is_Some (obj_get cur key)) as [x Hx] by (apply obj_get_is_Some; by rewrite Hk). rewrite Hx. simpl.
  apply obj_get_elem_of in Hx. eapply Forall_forall in Ht; [|exact Hx]. destruct Ht as (o & Ho & Hn). simpl in Ho. subst x.
  pose proof (get_shown o m Hn) as Hs. exists (default VUndef (obj_get o m)). split; [done|]. split; [done|].
  destruct (obj_get o m) as [v|] eqn:Hv; simpl in *; [|done].
  destruct Hs as [->|[n ->]]; [|done]. apply obj_get_elem_of in Hv. by eapply Forall_forall in Hn as [? ?]; [|exact Hv].
Qed.

Ltac read_ratio Hk Ht key m :=
  let v := fresh "v" in let E := fresh "E" in
  destruct (ratio_at_typed _ key m Hk Ht ltac:(unfold option_keys; set_solver)) as (v & -> & ? & E).

Lemma getLocal_spec cur m : obj_keys cur = option_keys → typed_options cur →
  getLocalBillingCategory cur m = Ok (billed cur m).
Proof.
  intros Hk Ht. unfold getLocalBillingCategory, billed.
  read_ratio Hk Ht "ModelPrice" m. cbn. rewrite E. destruct (has_entry cur "ModelPrice" m); [done|]. cbn.
  read_ratio Hk Ht "ModelRatio" m. cbn. rewrite E0. destruct (has_entry cur "ModelRatio" m); [done|]. cbn.
  read_ratio Hk Ht "CompletionRatio" m. cbn. rewrite E1. destruct (has_entry cur "CompletionRatio" m); [done|]. cbn.
  read_ratio Hk Ht "CacheRatio" m. cbn. rewrite E2. by destruct (has_entry cur "CacheRatio" m).
Qed.

Lemma labelled_shown t label v : shown v → is_ok (labelled t label v) = true ∧ is_ok (labelled t label (dash v)) = true.
Proof. by intros [->|[n ->]]. Qed.

Lemma is_ok_inv {A} (r : res A) : is_ok r = true → ∃ a, r = Ok a.
Proof. destruct r; [by eexists|done]. Qed.

Lemma two_ratios_shown t a b : shown a → shown b → ∃ x, two_ratios t a b = Ok x.
Proof.
  intros Ha Hb. unfold two_ratios.
  destruct (is_ok_inv _ (proj2 (labelled_shown t "模型倍率" a Ha))) as [x ->].
  destruct (is_ok_inv _ (proj2 (labelled_shown t "补全倍率" b Hb))) as [y ->]. by eexists.
Qed.

Lemma currentDesc_ok t cur m c : obj_keys cur = option_keys → typed_options cur → ∃ x, currentDesc t cur m c = Ok x.
Proof.
  intros Hk Ht. unfold currentDesc. destruct c.
  - read_ratio Hk Ht "ModelPrice" m. apply (is_ok_inv (labelled t "固定价格" v)). by apply labelled_shown.
  - read_ratio Hk Ht "ModelRatio" m. read_ratio Hk Ht "CompletionRatio" m. by apply two_ratios_shown.
Qed.

Lemma newDesc_ok t o : choice_ok o → ∃ x, newDesc t o = Ok x.
Proof.
  intros (_ & _ & Hn). assert (numbers o) as Ho by (eapply Forall_impl; [exact Hn|]; by intros ? [_ ?]).
  unfold newDesc, get. destruct (newCat o).
  - apply is_ok_inv, labelled_shown. by apply get_shown.
  - by apply two_ratios_shown; apply get_shown.
Qed.

Lemma conflict_of_spec t cur d m o : obj_keys cur = option_keys → typed_options cur → choice_ok o →
  ∃ x, conflict_of t cur d m o = Ok x ∧
    if changes_billing cur (m, o) then ∃ c, x = Some c ∧ x_model c = m else x = None.
Proof.
  intros Hk Ht Ho. unfold conflict_of, changes_billing. rewrite getLocal_spec by done. cbn.
  destruct (billed cur m) as [c|]; [|by eexists]. case_decide as Hc.
  - rewrite bool_decide_true by done. by eexists.
  - rewrite bool_decide_false by done. destruct (currentDesc_ok t cur m c Hk Ht) as [x ->].
    destruct (newDesc_ok t o Ho) as [y ->]. cbn. eauto.
Qed.

Lemma conflicts_spec t cur s : obj_keys cur = option_keys → typed_options cur → inv s →
  ∃ cs, conflicts t cur s = Ok cs ∧ x_model <$> cs = (filter (λ mo, changes_billing cur mo = true) (chosen s)).*1.
Proof.
  intros Hk Ht Hs. unfold conflicts. destruct (chosen_ok s Hs) as [_ Hall]. revert Hall.
  generalize (chosen s). induction l as [|[m o] l IH]; intros Hall; [by exists []|].
  apply Forall_cons in Hall as [[Ho _] Hall]. destruct (IH Hall) as (cs & Hcs & Hm).
  destruct (conflict_of_spec t cur (differences s) m o Hk Ht Ho) as (x & Hx & Hc).
  cbn [res_map]. rewrite Hx, filter_cons. destruct (res_map _ l) as [xs|e]; [|done]. injection Hcs as <-.
  destruct (changes_billing cur (m, o)).
  - destruct Hc as (c & -> & Hc). rewrite decide_True by done. eexists. split; [done|]. simpl. by f_equal.
  - subst x. rewrite decide_False by done. by eexists.
Qed.

(** No way of billing is changed unasked: applying the choices sends the
    options at once exactly when no chosen model changes between price and
    ratios; otherwise nothing is sent and the question lists exactly the
    models that would change, in order. *)
Theorem billing_change_asked (t : string → string) (s : sync) (options : list (string * string)) (cur : obj) :
  rtc (step t) mount s → currentRatios options = Ok cur → typed_options cur →
  let changed := (filter (λ mo, changes_billing cur mo = true) (chosen s)).*1 in
  if decide (changed = []) then applySync t options s = performSync cur s
  else ∃ items, applySync t options s = setConfirmVisible true (setConflictItems items s) ∧ x_model <$> items = changed.
Proof.
  intros Hs%inv_reachable Hcur Ht changed. pose proof (currentRatios_keys _ _ Hcur) as Hk.
  destruct (conflicts_spec t cur s Hk Ht Hs) as (cs & Hcs & Hm). fold changed in Hm.
  unfold applySync. rewrite Hcur. cbn. rewrite Hcs. cbn. case_decide as Hd.
  - rewrite Hd in Hm. by destruct cs.
  - destruct cs as [|c cs]; [by rewrite <-Hm in Hd|]. by eexists.
Qed.

(** ** After a save *)

Definition diff_at (d : diffs) (model rt : string) : option diff := obj_get d model ≫= λ types, obj_get types rt.

Lemma diff_at_drop m0 d rt0 m rt :
  diff_at (drop_difference m0 d rt0) m rt = if decide (m = m0 ∧ rt = rt0) then None else diff_at d m rt.
Proof.
  unfold drop_difference, diff_at. destruct (obj_get d m0) as [types|] eqn:Hm.
  - destruct (obj_get types rt0) eqn:Hrt.
    + destruct (decide (obj_keys (obj_delete rt0 types) = [])) as [Hk|Hk].
      * rewrite obj_get_delete. repeat case_decide; try done; try naive_solver. subst. rewrite Hm. simpl.
        assert (obj_get (obj_delete rt0 types) rt = None) as Hn by (apply obj_get_None; rewrite Hk; apply not_elem_of_nil).
        rewrite obj_get_delete in Hn. case_decide; naive_solver.
      * rewrite obj_get_replace by congruence. repeat case_decide; try naive_solver; subst; simpl; rewrite ?Hm; simpl;
          rewrite obj_get_delete; case_decide; naive_solver.
    + case_decide as H; [|done]. destruct H as [-> ->]. by rewrite Hm.
  - case_decide as H; [|done]. destruct H as [-> ->]. by rewrite Hm.
Qed.

(** A successful save removes exactly the differences it stored, as far as
    their boxes are still checked when it ends. *)
Theorem saved_differences (t : string → string) (snap : list (string * nat)) (l : list bool) (s : sync) (m rt : string) :
  forallb id l = true → NoDup (obj_keys snap) →
  let s' := savesDone t snap (Some l) s in
  chosen s' = [] ∧
  diff_at (differences s') m rt =
    if decide (rt ∈ obj_keys (default [] (obj_get (deref (heap s) snap) m))) then None else diff_at (differences s) m rt.
Proof.
  intros Hl Hnd. simpl. unfold savesDone. rewrite Hl.
  assert (∀ rs d, NoDup (obj_keys rs) →
    diff_at (drop_differences rs d) m rt =
      if decide (rt ∈ obj_keys (default [] (obj_get rs m))) then None else diff_at d m rt) as H.
  { assert (∀ ks d m0, diff_at (foldl (drop_difference m0) d ks) m rt =
      if decide (m = m0 ∧ rt ∈ ks) then None else diff_at d m rt) as Hks.
    { induction ks as [|k ks IH]; intros d m0; simpl; [by case_decide as H; [destruct H as [_ H%elem_of_nil]|]|].
      rewrite IH, diff_at_drop. repeat case_decide; set_solver. }
    unfold drop_differences. induction rs as [|[m0 o] rs IH]; intros d Hk; simpl; [done|].
    apply NoDup_cons in Hk as [Hni Hk]. rewrite IH, Hks by done.
    destruct (decide (m = m0)) as [->|].
    - assert (obj_get rs m0 = None) as -> by by apply obj_get_None. simpl. repeat case_decide; set_solver.
    - case_decide as Hr; [done|]. repeat case_decide; naive_solver. }
  destruct s; simpl in *. split; [done|]. rewrite H; [done|]. by rewrite keys_deref.
Qed.

(** ** A session *)

Definition plain_t : string → string := λ x, x.
Definition Nz (z : Z) : jsval := VNum (num_of_Z z).

(** Two upstreams: [a] prices the first model, [b] gives the second a ratio. *)
Definition sample_diffs : diffs :=
  [("gpt", [("model_price", Diff VNull (VObj [("a", Nz 3); ("b", VStr "same")]) (VObj []))]);
   ("claude", [("model_ratio", Diff (Nz 1) (VObj [("a", VStr "same"); ("b", Nz 2)]) (VObj []))])].

Definition sample_channel : channel := Channel 7 "a" "" 1.

Definition sample_fetched : sync :=
  let s := openSelector mount in
  let s := channelsFetched plain_t (Served [sample_channel]) (setPending (delete 0 (pending s)) s) in
  let s := confirmChannelSelection plain_t (setSelectedChannelIds [7%Z] s) in
  ratiosFetched plain_t (Served (sample_diffs, [])) (setPending (delete 0 (pending s)) s).

Definition sample_row (i : nat) : row := default (Row "" "" VNull VNull VNull false) (dataSource sample_diffs !! i).

Definition sample_chosen : sync :=
  let pick i up s := selectValue (r_model (sample_row i)) (r_ratioType (sample_row i)) (prop_opt (r_upstreams (sample_row i)) up) s in
  pick 1 "b" (pick 0 "a" sample_fetched).

Lemma sample_served : served sample_diffs.
Proof.
  split; [vm_compute; repeat constructor; set_solver|].
  assert (∀ x y, upstream_value x → upstream_value y → ∃ o, VObj [("a", x); ("b", y)] = VObj o ∧ Forall (λ kv, upstream_value kv.2) o)
    as H by (intros; eexists; split; [reflexivity|by apply Forall_cons; split; [|apply Forall_singleton]]).
  apply Forall_cons; split; [|apply Forall_singleton]; (split; [apply NoDup_singleton|]);
    apply Forall_singleton; (split; [unfold ratioTypes; set_solver|]); apply H; unfold upstream_value, Nz; eauto.
Qed.

Lemma sample_fetched_reachable : rtc (step plain_t) mount sample_fetched.
Proof.
  eapply rtc_l; [apply step_open|]. eapply rtc_l; [by apply (step_channels _ 0 (Served [sample_channel]))|].
  eapply rtc_l; [apply (step_ids _ [7%Z])|]. eapply rtc_l; [apply step_choose|].
  eapply rtc_l; [|apply rtc_refl]. apply (step_ratios _ 0 (Served (sample_diffs, []))); [reflexivity|].
  intros d l [= <- <-]. apply sample_served.
Qed.

Lemma sample_reachable : rtc (step plain_t) mount sample_chosen.
Proof.
  etransitivity; [apply sample_fetched_reachable|].
  eapply rtc_l; [apply (step_check _ (sample_row 0) "a"); [|reflexivity]; vm_compute; set_solver|].
  eapply rtc_l; [|apply rtc_refl]. apply (step_check _ (sample_row 1) "b"); [|reflexivity]. vm_compute. set_solver.
Qed.

(** The stored options: the first model is billed by ratio. *)
Definition sample_options : list (string * string) := [("ModelRatio", qtext "{'gpt':5,'claude':1}")].
Definition sample_cur : obj :=
  [("ModelRatio", VObj [("gpt", Nz 5); ("claude", Nz 1)]); ("CompletionRatio", VObj []); ("CacheRatio", VObj []);
   ("ModelPrice", VObj [])].

Lemma one_billing_category_witness : Forall (λ mo, mo.2 ≠ [] ∧ billed_one_way mo.2) (chosen sample_chosen).
Proof. exact (proj1 (proj2 (one_billing_category plain_t sample_chosen sample_reachable))). Defined.

Lemma sync_values_witness :
  ∃ final, obj_keys final = option_keys ∧
    at2 final "ModelPrice" "gpt" = Some (Nz 3) ∧ at2 final "ModelRatio" "gpt" = None ∧
    at2 final "ModelRatio" "claude" = Some (Nz 2).
Proof.
  destruct (sync_values plain_t sample_chosen sample_options sample_cur sample_reachable ltac:(vm_compute; reflexivity))
    as (final & _ & Hk & H).
  exists final. split; [exact Hk|]. split; [|split].
  - etransitivity; [apply (H "model_price" "gpt")|vm_compute; reflexivity]; [unfold ratioTypes; set_solver|done].
  - etransitivity; [apply (H "model_ratio" "gpt")|vm_compute; reflexivity]; [unfold ratioTypes; set_solver|done].
  - etransitivity; [apply (H "model_ratio" "claude")|vm_compute; reflexivity]; [unfold ratioTypes; set_solver|done].
Defined.

Lemma billing_change_asked_witness :
  ∃ items, applySync plain_t sample_options sample_chosen =
    setConfirmVisible true (setConflictItems items sample_chosen) ∧ x_model <$> items = ["gpt"].
Proof.
  assert (typed_options sample_cur) as Ht.
  { repeat constructor; simpl; eexists; (split; [reflexivity|]); repeat constructor; unfold Nz; simpl; eauto. }
  pose proof (billing_change_asked plain_t sample_chosen sample_options sample_cur sample_reachable
    ltac:(vm_compute; reflexivity) Ht) as H.
  vm_compute (filter _ _) in H. rewrite decide_False in H by done. exact H.
Defined.

(** Unchecking all of [b] also forgets the price chosen from [a]. *)
Lemma bulk_uncheck_clears_others :
  allSelected (channelStats sample_chosen (filteredDataSource sample_chosen) "b") = true ∧
  obj_keys (chosen sample_chosen) = ["gpt"; "claude"] ∧ chosen (handleBulkSelect "b" false sample_chosen) = [].
Proof. vm_compute. done. Qed.

(** A value chosen while a save is under way is forgotten when it ends, and
    its difference stays. *)
Lemma selection_lost_in_flight :
  let one := selectValue "claude" "model_ratio" (Nz 2) sample_fetched in
  let saving := performSync sample_cur one in
  let later := selectValue "gpt" "model_price" (Nz 3) saving in
  let done := savesDone plain_t (resolutions one) (Some [true; true; true; true]) later in
  obj_keys (chosen later) = ["claude"; "gpt"] ∧ chosen done = [] ∧ obj_keys (differences done) = ["gpt"].
Proof. vm_compute. done. Qed.

(** A box unchecked while its save is under way keeps its difference although
    the value is stored: the save reads the changed object. *)
Lemma unchecked_in_flight :
  let one := selectValue "claude" "model_ratio" (Nz 2) sample_fetched in
  let saving := unselect "claude" "model_ratio" (performSync sample_cur one) in
  let done := savesDone plain_t (resolutions one) (Some [true; true; true; true]) saving in
  obj_keys (differences done) = ["gpt"; "claude"].
Proof. vm_compute. done. Qed.
