(* ===== verification/FormCompat.v ===== *)
(** * The form component

    [web/src/components/compat/Form.jsx], which stands in for the form of the
    Semi library on every page: the values of a form, kept twice, in the state
    of the component and in a reference that the form API writes at once; and
    the controls, as what they do on an event: values they set and handlers of
    their caller they call.

    The two copies start as one object when initial values are given, and
    become one object again after every render, while the API changes the
    object of the reference in place; so the objects live in a heap.  Updates
    of the state are queued and take effect at the next render, after which
    the effect on [values] makes the reference point to the new object. *)
From Stdlib Require Import Ascii SpecFloat.
From stdpp Require Import relations.
From S2P Require Import Prelude JsString JsNumber JsValue.

(** ** The API *)

Definition get (o : obj) (k : string) : jsval := default VUndef (obj_get o k).

(** A queued update of the state. *)
Inductive update :=
| USet (field : string) (value : jsval) | UMerge (values : obj) | UReset (fields : list string) | UClear.

Definition run_update (o : obj) (u : update) : obj :=
  match u with
  | USet f v => obj_define f v o
  | UMerge vs => obj_spread o vs
  | UReset fs => foldl (λ o f, obj_set f VUndef o) o fs
  | UClear => []
  end.

(** What the form tells its caller. *)
Inductive event := ValueChange (changed all : obj) | Submit (values : obj) | Valid (values : obj).

Record form := Form {
  heap : gmap nat obj; values : nat; queue : list update; valuesRef : nat; events : list event }.

Definition deref (s : form) (l : nat) : obj := default [] (heap s !! l).

(** [useState(initValues || {})] and [useRef(initValues || {})]: one object
    when there are initial values, two otherwise. *)
Definition mount (initValues : option obj) : form :=
  match initValues with
  | Some o => Form {[0 := o]} 0 [] 0 []
  | None => Form {[0 := []; 1 := []]} 0 [] 1 []
  end.

Definition emit (e : event) (s : form) : form := Form (heap s) (values s) (queue s) (valuesRef s) (events s ++ [e]).

(** Change the object of the reference, and queue an update. *)
Definition write (f : obj → obj) (u : update) (s : form) : form :=
  Form (<[valuesRef s := f (deref s (valuesRef s))]> (heap s)) (values s) (queue s ++ [u]) (valuesRef s) (events s).

Definition getValues (s : form) : obj := deref s (valuesRef s).
Definition getValue (field : string) (s : form) : jsval := get (getValues s) field.

Definition setValue (field : string) (value : jsval) (s : form) : form :=
  let s := write (obj_set field value) (USet field value) s in
  emit (ValueChange [(field, value)] (getValues s)) s.

Definition setValues (new : obj) (s : form) : form :=
  let s := write (λ o, foldl (λ o kv, obj_set kv.1 kv.2 o) o new) (UMerge new) s in
  emit (ValueChange new (getValues s)) s.

Definition reset (fields : option (list string)) (s : form) : form :=
  match fields with
  | Some fs => write (λ o, foldl (λ o f, obj_set f VUndef o) o fs) (UReset fs) s
  | None =>
      let l := fresh (dom (heap s)) in
      Form (<[l := []]> (heap s)) (values s) (queue s ++ [UClear]) l (events s)
  end.

(** [validate] resolves with the values; no rule is looked at. *)
Definition validate (s : form) : form := emit (Valid (getValues s)) s.

Definition handleSubmit (s : form) : form := emit (Submit (getValues s)) s.
Definition submitForm (s : form) : form := handleSubmit s.

(** A render applies the queue to the state; the effect follows a changed
    state. *)
Definition render (s : form) : form :=
  match queue s with
  | [] => s
  | us => let l := fresh (dom (heap s)) in
          Form (<[l := foldl run_update (deref s (values s)) us]> (heap s)) l [] l (events s)
  end.

(** The effect of a field that has an initial value. *)
Definition fieldMounted (field : option string) (initValue : jsval) (s : form) : form :=
  match field with
  | Some f => if negb (is_undef initValue) && is_undef (getValue f s) then setValue f initValue s else s
  | None => s
  end.

(** Mounting: the effects of the fields run before that of the form, and the
    updates they queued are rendered at once. *)
Definition start (initValues : option obj) (fields : list (option string * jsval)) : form :=
  let s := foldl (λ s '(f, v), fieldMounted f v s) (mount initValues) fields in
  render (Form (heap s) (values s) (queue s) (values s) (events s)).

(** The values the controls are rendered with. *)
Definition shown (s : form) : obj := deref s (values s).

(** ** Controls *)

(** What a control does on an event. *)
Inductive output := Set_ (field : string) (value : jsval) | OnChange (value : jsval).

Definition set_field (field : option string) (v : jsval) : list output :=
  match field with Some f => [Set_ f v] | None => [] end.

Definition call (has : bool) (v : jsval) : list output := if has then [OnChange v] else [].

(** [FormInput], [FormTextArea]: typing. *)
Definition FormInput (field : option string) (has : bool) (text : string) : list output :=
  set_field field (VStr text) ++ call has (VStr text).
Definition FormTextArea (field : option string) (has : bool) (text : string) : list output :=
  set_field field (VStr text) ++ call has (VStr text).

(** [FormInputNumber]: the caller's [onChange] is not among the properties it
    reads. *)
Definition FormInputNumber (field : option string) (has : bool) (text : string) : list output :=
  set_field field (if decide (text = "") then VUndef else VNum (str_to_num text)).

(** [FormSwitch]: [values[field] ?? false]. *)
Definition checked (field : option string) (vs : obj) : jsval :=
  match field with Some f => js_nullish (get vs f) (VBool false) | None => VBool false end.

Definition FormSwitch (field : option string) (has : bool) (vs : obj) : list output :=
  set_field field (VBool (negb (truthy (checked field vs)))).

Definition FormCheckbox (field : option string) (has : bool) (on : bool) : list output :=
  set_field field (VBool on) ++ call has (VBool on).

Definition FormRadioGroup (field : option string) (has : bool) (optValue : jsval) : list output :=
  set_field field optValue.

(** A date as the browser makes it from the text of the input, if there is
    one. *)
Definition date_value (d : option jsval) : jsval := default VNull d.

Definition FormDatePicker (field : option string) (d : option jsval) : list output := set_field field (date_value d).

Definition rangeVal (field : option string) (vs : obj) : list jsval :=
  match field with
  | Some f => match js_nullish (get vs f) (VArr [VNull; VNull]) with VArr l => l | _ => [VNull; VNull] end
  | None => [VNull; VNull]
  end.

(** [updated[idx] = ...] extends a shorter array. *)
Definition set_at (idx : nat) (v : jsval) (l : list jsval) : list jsval :=
  if decide (idx < length l) then <[idx := v]> l else l ++ replicate (idx - length l) VUndef ++ [v].

Definition handleRangeChange (field : option string) (vs : obj) (idx : nat) (d : option jsval) : list output :=
  set_field field (VArr (set_at idx (date_value d) (rangeVal field vs))).

Definition handleClear (field : option string) : list output := set_field field (VArr [VNull; VNull]).
Definition applyPreset (field : option string) (start finish : jsval) : list output := set_field field (VArr [start; finish]).

Definition FormAutoComplete (field : option string) (text : string) : list output := set_field field (VStr text).

(** *** Selection *)

Record option_ := Option { o_value : jsval; o_label : jsval }.

(** [String(v)]; values of options are primitive. *)
Definition text (v : jsval) : string := match to_str v with Ok x => x | Throw _ => "" end.

(** [valueTypeMap]: the last option of equal text counts. *)
Definition valueTypeMap (options : list option_) : list (string * jsval) :=
  (λ o, (text (o_value o), o_value o)) <$> reverse options.

Definition FormSelect (field : option string) (has : bool) (options : list option_) (strVal : string) : list output :=
  let v := default (VStr strVal) (obj_get (valueTypeMap options) strVal) in
  set_field field v ++ call has v.

(** [selected]. *)
Definition selected (rawValue : jsval) : list jsval :=
  match rawValue with VArr l => l | v => if truthy v then [v] else [] end.

Definition has_text (s : string) (l : list jsval) : bool := existsb (is_str s) l.

Definition updateValue (field : option string) (has : bool) (l : list jsval) : list output :=
  set_field field (VArr l) ++ call has (VArr l).

Definition toggled (strVal : string) (l : list jsval) : list jsval :=
  if has_text strVal l then filter (λ v, is_str strVal v = false) l else l ++ [VStr strVal].

Definition toggleOption (field : option string) (has : bool) (optValue rawValue : jsval) : list output :=
  updateValue field has (toggled (text optValue) (selected rawValue)).

Definition filteredOptions (options : list option_) (searchVal : string) (filter_on : bool) : list option_ :=
  if bool_decide (searchVal ≠ "") && filter_on
  then filter (λ o, includes (to_lower searchVal) (to_lower (text (js_or (o_label o) (o_value o)))) = true) options
  else options.

(** Enter adds the typed text, or toggles the first match that is not
    selected; the result is the calls and whether the typed text is cleared. *)
Definition handleEnter (field : option string) (has create filter_on autoClear : bool) (options : list option_)
    (searchVal : string) (rawValue : jsval) : list output * bool :=
  let l := selected rawValue in
  if decide (trim searchVal = "") then ([], false)
  else
    (if create then if has_text (trim searchVal) l then [] else updateValue field has (l ++ [VStr (trim searchVal)])
     else match filter (λ o, has_text (text (o_value o)) l = false) (filteredOptions options searchVal filter_on) with
          | o :: _ => toggleOption field has (o_value o) rawValue
          | [] => []
          end, autoClear).

Definition handleBackspace (field : option string) (has : bool) (searchVal : string) (rawValue : jsval) : list output :=
  let l := selected rawValue in
  if bool_decide (searchVal = "") && bool_decide (l ≠ []) then updateValue field has (removelast l) else [].

(** [v !== val] on the values of tags, which are texts. *)
Definition removeTag (field : option string) (has : bool) (val : string) (rawValue : jsval) : list output :=
  updateValue field has (filter (λ v, is_str val v = false) (selected rawValue)).

(** *** Tags and files *)

Definition tags (field : string) (vs : obj) : list jsval :=
  match js_nullish (get vs field) (VArr []) with VArr l => l | _ => [] end.

Definition addTag (field : string) (v : string) (vs : obj) : list output :=
  if decide (trim v = "") then [] else
  if has_text (trim v) (tags field vs) then [] else [Set_ field (VArr (tags field vs ++ [VStr (trim v)]))].

Definition removeTagAt (field : string) (idx : nat) (vs : obj) : list output :=
  [Set_ field (VArr (delete idx (tags field vs)))].

(** Typing into the input of a tag field: [FormField] gives the element around
    the input its own [onChange], which gets the bubbling event as its value. *)
Definition typeTag (field : string) (event : obj) : list output := [Set_ field (VObj event)].

(** [value.map] when the tags are rendered. *)
Definition renderTags (field : string) (vs : obj) : res (list jsval) :=
  match js_nullish (get vs field) (VArr []) with VArr l => Ok l | _ => Throw "TypeError" end.

(** [processFiles]: the new list of files, of which only the last is kept
    unless several are allowed. *)
Definition processFiles (field : option string) (has multiple : bool) (fileList items : list jsval) : list output :=
  let newList := if multiple then fileList ++ items else match last items with Some x => [x] | None => [] end in
  set_field field (VArr newList) ++ call has (VArr newList).

Definition removeFile (field : option string) (has : bool) (uid : string) (fileList : list jsval) : list output :=
  let newList := filter (λ f, is_str uid (prop_opt f "uid") = false) fileList in
  set_field field (VArr newList) ++ call has (VArr newList).

(** The outputs of a control, on its form. *)
Definition apply_output (s : form) (o : output) : form :=
  match o with Set_ f v => setValue f v s | OnChange _ => s end.
Definition apply_outputs (l : list output) (s : form) : form := foldl apply_output s l.

Definition onChanges (l : list output) : list jsval := omap (λ o, match o with OnChange v => Some v | _ => None end) l.

(** ** The form keeps one map of values *)

Inductive request := RSet (field : string) (value : jsval) | RSetAll (values : obj) | RReset (fields : option (list string))
| RValidate | RSubmit | RRender.

Definition exec (s : form) (r : request) : form :=
  match r with
  | RSet f v => setValue f v s | RSetAll vs => setValues vs s | RReset fs => reset fs s
  | RValidate => validate s | RSubmit => submitForm s | RRender => render s
  end.

(** The specification: a map from fields to values. *)
Definition spec (m : string → jsval) (r : request) : string → jsval :=
  match r with
  | RSet f v => λ k, if decide (k = f) then v else m k
  | RSetAll vs => λ k, default (m k) (obj_get vs k)
  | RReset (Some fs) => λ k, if decide (k ∈ fs) then VUndef else m k
  | RReset None => λ _, VUndef
  | _ => m
  end.

Definition wf_request (r : request) : Prop :=
  match r with
  | RSet f _ => f ≠ "__proto__"
  | RSetAll vs => NoDup (obj_keys vs) ∧ "__proto__" ∉ obj_keys vs
  | RReset (Some fs) => "__proto__" ∉ fs
  | _ => True
  end.

(** The effect of an update on the value of one field. *)
Definition eff (k : string) (v : jsval) (u : update) : jsval :=
  match u with
  | USet f x => if decide (k = f) then x else v
  | UMerge vs => default v (obj_get vs k)
  | UReset fs => if decide (k ∈ fs) then VUndef else v
  | UClear => VUndef
  end.

Definition wf_update (u : update) : Prop :=
  match u with
  | USet f _ => f ≠ "__proto__"
  | UMerge vs => NoDup (obj_keys vs) ∧ "__proto__" ∉ obj_keys vs
  | UReset fs => "__proto__" ∉ fs
  | UClear => True
  end.

(** An update either sets a field to one value or leaves it alone. *)
Lemma eff_cases k u : (∃ c, ∀ v, eff k v u = c) ∨ ∀ v, eff k v u = v.
Proof.
  destruct u as [f x|vs|fs|]; simpl.
  - case_decide; eauto.
  - destruct (obj_get vs k); simpl; eauto.
  - case_decide; eauto.
  - eauto.
Qed.

Lemma get_field_set o f v k : f ≠ "__proto__" → get (obj_set f v o) k = if decide (k = f) then v else get o k.
Proof. intros Hf. unfold get. rewrite obj_get_set. repeat case_decide; naive_solver. Qed.

Lemma get_resets fs o k : "__proto__" ∉ fs →
  get (foldl (λ o f, obj_set f VUndef o) o fs) k = if decide (k ∈ fs) then VUndef else get o k.
Proof.
  revert o. induction fs as [|f fs IH]; intros o Hp; simpl; [done|].
  apply not_elem_of_cons in Hp as [? ?]. rewrite IH, get_field_set by done. repeat case_decide; set_solver.
Qed.

Lemma get_sets vs o k : NoDup (obj_keys vs) → "__proto__" ∉ obj_keys vs →
  get (foldl (λ o kv, obj_set kv.1 kv.2 o) o vs) k = default (get o k) (obj_get vs k).
Proof.
  revert o. induction vs as [|[f v] vs IH]; intros o Hnd Hp; simpl; [done|].
  apply NoDup_cons in Hnd as [Hf Hnd]. apply not_elem_of_cons in Hp as [? ?]. simpl in *.
  rewrite IH, get_field_set by done. case_decide; [|done]. subst. by rewrite (proj2 (obj_get_None vs f)).
Qed.

Lemma get_run_update o u k : wf_update u → get (run_update o u) k = eff k (get o k) u.
Proof.
  destruct u as [f x|vs|fs|]; simpl.
  - intros Hf. unfold get. rewrite obj_get_define. by case_decide.
  - intros [Hnd Hp]. unfold get. rewrite obj_get_spread by done. by destruct (obj_get vs k).
  - apply get_resets.
  - done.
Qed.

Lemma get_updates o us k : Forall wf_update us → get (foldl run_update o us) k = foldl (eff k) (get o k) us.
Proof. revert o. induction us as [|u us IH]; intros o H; [done|]. inv H. simpl. by rewrite IH, get_run_update. Qed.

(** Reference and state agree, up to the queued updates. *)
Record agree (s : form) : Prop := {
  a_queue : Forall wf_update (queue s);
  a_places : is_Some (heap s !! values s) ∧ is_Some (heap s !! valuesRef s);
  a_same k : getValue k s = foldl (eff k) (get (shown s) k) (queue s) }.

Lemma deref_write f u s l : deref (write f u s) l = if decide (l = valuesRef s) then f (deref s (valuesRef s)) else deref s l.
Proof.
  unfold deref, write. simpl. destruct (decide (l = valuesRef s)) as [->|]; [by rewrite lookup_insert_eq|].
  by rewrite lookup_insert_ne.
Qed.

Lemma agree_write f u s :
  wf_update u → (∀ o k, get (f o) k = eff k (get o k) u) → agree s →
  agree (write f u s) ∧ ∀ k, getValue k (write f u s) = eff k (getValue k s) u.
Proof.
  intros Hu Hf [Hq [Hv Hr] Hs].
  assert (∀ k, getValue k (write f u s) = eff k (getValue k s) u) as Hg.
  { intros k. unfold getValue, getValues. rewrite deref_write, decide_True by done. apply Hf. }
  split; [|done]. split.
  - simpl. apply Forall_app. by repeat constructor.
  - simpl. split; apply lookup_insert_is_Some'; auto.
  - intros k. rewrite Hg. unfold shown. change (values (write f u s)) with (values s). rewrite deref_write.
    simpl. rewrite foldl_snoc. case_decide as Ha.
    + rewrite Hf. specialize (Hs k). unfold getValue, getValues, shown in *. rewrite Ha in Hs.
      destruct (eff_cases k u) as [[c Hc]|Hid]; [by rewrite !Hc|]. rewrite !Hid. done.
    + f_equal. apply Hs.
Qed.

Lemma agree_emit e s : agree s → agree (emit e s).
Proof. by intros []. Qed.

Lemma agree_render s : agree s → agree (render s) ∧ (∀ k, getValue k (render s) = getValue k s) ∧
  ∀ k, get (shown (render s)) k = getValue k s.
Proof.
  intros [Hq Hp Hs]. unfold render. destruct (queue s) as [|u us] eqn:Hu.
  { split; [by split; rewrite ?Hu|]. split; [done|]. intros k. by rewrite Hs, ?Hu. }
  set (l := fresh _). set (o := foldl run_update _ _).
  assert (∀ k, get o k = getValue k s) as Ho by (intros k; unfold o; rewrite get_updates, Hs by done; done).
  split; [split; simpl; [constructor|split; rewrite lookup_insert_eq; by eexists|done]|].
  split; intros k; unfold getValue, getValues, shown, deref; simpl; by rewrite lookup_insert_eq.
Qed.

Lemma agree_clear s : agree s → agree (reset None s) ∧ ∀ k, getValue k (reset None s) = VUndef.
Proof.
  intros [Hq [[o Ho] _] Hs]. simpl. set (l := fresh _).
  assert (∀ k, getValue k (reset None s) = VUndef) as Hg.
  { intros k. unfold getValue, getValues, deref. simpl. by rewrite lookup_insert_eq. }
  split; [|done]. split; simpl.
  - apply Forall_app. by repeat constructor.
  - split; apply lookup_insert_is_Some'; [right; by eexists|by left].
  - intros k. rewrite foldl_snoc. apply Hg.
Qed.

Lemma agree_exec r s : wf_request r → agree s →
  agree (exec s r) ∧ ∀ m, (∀ k, getValue k s = m k) → ∀ k, getValue k (exec s r) = spec m r k.
Proof.
  intros Hr Hs. destruct r as [f v|vs|[fs|]| | |]; simpl in *.
  - destruct (agree_write (obj_set f v) (USet f v) s) as [Ha Hg]; [done|intros; by apply get_field_set|done|].
    split; [by apply agree_emit|]. intros m Hm k. rewrite <-Hm. apply Hg.
  - destruct (agree_write (λ o, foldl (λ o kv, obj_set kv.1 kv.2 o) o vs) (UMerge vs) s) as [Ha Hg];
      [done|intros; by apply get_sets; destruct Hr|done|].
    split; [by apply agree_emit|]. intros m Hm k. rewrite <-Hm. apply Hg.
  - destruct (agree_write (λ o, foldl (λ o f, obj_set f VUndef o) o fs) (UReset fs) s) as [Ha Hg];
      [done|intros; by apply get_resets|done|].
    split; [done|]. intros m Hm k. rewrite <-Hm. apply Hg.
  - destruct (agree_clear s Hs) as [Ha Hg]. split; [done|]. intros m _ k. apply Hg.
  - split; [by apply agree_emit|]. intros m Hm k. apply Hm.
  - split; [by apply agree_emit|]. intros m Hm k. apply Hm.
  - destruct (agree_render s Hs) as (Ha & Hg & _). split; [done|]. intros m Hm k. by rewrite Hg.
Qed.

Definition spec_field (m : string → jsval) (fv : option string * jsval) : string → jsval :=
  match fv.1 with
  | Some f => if negb (is_undef fv.2) && is_undef (m f) then λ k, if decide (k = f) then fv.2 else m k else m
  | None => m
  end.

(** The initial values, and those of fields that have none. *)
Definition spec_start (initValues : option obj) (fields : list (option string * jsval)) : string → jsval :=
  foldl spec_field (get (default [] initValues)) fields.

Definition wf_field (fv : option string * jsval) : Prop := fv.1 ≠ Some "__proto__".

Lemma agree_mount init : agree (mount init) ∧ ∀ k, getValue k (mount init) = get (default [] init) k.
Proof. destruct init as [o|]; (split; [split; [constructor|split; by eexists|done]|done]). Qed.

Lemma agree_fields fields s m :
  Forall wf_field fields → agree s → (∀ k, getValue k s = m k) →
  let s' := foldl (λ s '(f, v), fieldMounted f v s) s fields in
  agree s' ∧ ∀ k, getValue k s' = foldl spec_field m fields k.
Proof.
  revert s m. induction fields as [|[[f|] v] fields IH]; intros s m Hf Hs Hm; simpl; [done| |];
    inv Hf; [|by apply IH].
  unfold spec_field at 2. simpl. rewrite Hm. destruct (negb (is_undef v) && is_undef (m f)); [|by apply IH].
  assert (f ≠ "__proto__") by naive_solver.
  destruct (agree_exec (RSet f v) s) as [Ha Hg]; [done..|]. apply IH; [done..|]. intros k. by apply (Hg m).
Qed.

Lemma agree_start init fields : Forall wf_field fields →
  agree (start init fields) ∧ ∀ k, getValue k (start init fields) = spec_start init fields k.
Proof.
  intros Hf. destruct (agree_mount init) as [Ha Hm].
  destruct (agree_fields fields (mount init) _ Hf Ha Hm) as [[Hq [Hv _] Hs] Hg]. unfold start.
  set (s := foldl _ _ _) in *. fold (spec_start init fields) in Hg.
  unfold render. simpl. destruct (queue s) as [|u us] eqn:Hu.
  - split; [split; simpl; [constructor|done|done]|]. intros k. rewrite <-Hg, Hs. by rewrite ?Hu.
  - set (l := fresh _). split.
    + split; simpl; [constructor|split; rewrite lookup_insert_eq; by eexists|done].
    + intros k. unfold getValue, getValues, deref. simpl. rewrite lookup_insert_eq. simpl.
      change (get (foldl run_update (shown s) (u :: us)) k = spec_start init fields k).
      rewrite get_updates by done. by rewrite <-Hs, Hg.
Qed.

(** C17.  The two copies never show: whatever the sequence of values set,
    merged and reset, of submits and of renders in between, with or without
    initial values, the form API reads its last writes at once, and the next
    render shows them: both copies are the one map of the specification,
    although they are sometimes one object and sometimes two. *)
Theorem form_refines_map (init : option obj) (fields : list (option string * jsval)) (rs : list request) (k : string) :
  Forall wf_field fields → Forall wf_request rs →
  let s := foldl exec (start init fields) rs in
  let m := foldl spec (spec_start init fields) rs in
  getValue k s = m k ∧ get (shown (render s)) k = m k.
Proof.
  intros Hf Hr. destruct (agree_start init fields Hf) as [Ha Hg]. revert Ha Hg.
  generalize (start init fields), (spec_start init fields). induction rs as [|r rs IH]; intros s m Ha Hg; simpl.
  - split; [done|]. rewrite <-Hg. by apply agree_render.
  - inv Hr. destruct (agree_exec r s) as [Ha' Hg']; [done..|]. apply IH; [done..|]. by apply Hg'.
Qed.

Lemma form_refines_map_witness :
  let s := foldl exec (start (Some [("a", VStr "1")]) [(Some "b", VStr "2")])
    [RSet "a" (VStr "x"); RRender; RReset None; RSet "b" (VBool true)] in
  getValue "a" s = VUndef ∧ getValue "b" s = VBool true.
Proof.
  assert (Forall wf_field [(Some "b", VStr "2")]) as Hf
    by (apply Forall_singleton; done).
  assert (Forall wf_request [RSet "a" (VStr "x"); RRender; RReset None; RSet "b" (VBool true)]) as Hr
    by (repeat (apply Forall_cons; split; [done|]); apply Forall_nil; done).
  split.
  - exact (proj1 (form_refines_map (Some [("a", VStr "1")]) _ _ "a" Hf Hr)).
  - exact (proj1 (form_refines_map (Some [("a", VStr "1")]) _ _ "b" Hf Hr)).
Defined.

(** Before the first render the form API writes into the object of initial
    values of its caller. *)
Lemma init_values_mutated :
  let s := setValue "a" (VStr "x") (start (Some [("a", VStr "1")]) []) in heap s !! 0 = Some [("a", VStr "x")].
Proof. vm_compute. done. Qed.

(** ** Selection *)

(** Choosing an option gives back the value of the option, of its type:
    if no two options have the same text, the field and the caller get exactly
    the value whose text the browser reports; a text of no option is kept as
    a text. *)
Theorem select_recovers (f : string) (has : bool) (options : list option_) (strVal : string) :
  NoDup ((λ o, text (o_value o)) <$> options) →
  (∀ o, o ∈ options → text (o_value o) = strVal →
     FormSelect (Some f) has options strVal = Set_ f (o_value o) :: call has (o_value o)) ∧
  (strVal ∉ ((λ o, text (o_value o)) <$> options) →
     FormSelect (Some f) has options strVal = Set_ f (VStr strVal) :: call has (VStr strVal)).
Proof.
  intros Hnd.
  assert (obj_keys (valueTypeMap options) = reverse ((λ o, text (o_value o)) <$> options)) as Hk.
  { unfold obj_keys, valueTypeMap. rewrite <-list_fmap_compose. by rewrite <-fmap_reverse. }
  split.
  - intros o Ho Ht. unfold FormSelect. rewrite (elem_of_obj_get _ _ (o_value o)); [done| |].
    + rewrite Hk. by rewrite reverse_Permutation.
    + unfold valueTypeMap. apply list_elem_of_fmap. exists o. rewrite Ht. split; [done|]. by apply elem_of_reverse.
  - intros Hn. unfold FormSelect. rewrite (proj2 (obj_get_None _ _)); [done|].
    rewrite Hk. by rewrite elem_of_reverse.
Qed.

Lemma select_recovers_witness :
  FormSelect (Some "type") true [Option (VNum (num_of_Z 1)) (VStr "a"); Option (VNum (num_of_Z 2)) (VStr "b")] "2"
  = [Set_ "type" (VNum (num_of_Z 2)); OnChange (VNum (num_of_Z 2))].
Proof.
  refine (proj1 (select_recovers "type" true
    [Option (VNum (num_of_Z 1)) (VStr "a"); Option (VNum (num_of_Z 2)) (VStr "b")] "2" _)
    (Option (VNum (num_of_Z 2)) (VStr "b")) _ _).
  - vm_compute. repeat constructor; set_solver.
  - right. left.
  - vm_compute. reflexivity.
Defined.

(** The values of a selection of several are texts, so an option whose value
    is a number is added beside itself. *)
Lemma numbers_duplicated :
  toggleOption (Some "f") false (VNum (num_of_Z 1)) (VArr [VNum (num_of_Z 1)])
  = [Set_ "f" (VArr [VNum (num_of_Z 1); VStr "1"])].
Proof. vm_compute. done. Qed.

(** One letter typed into a tag field replaces its tags by the event, which
    has no [map]: the next render throws. *)
Lemma tag_typing_throws (f : string) (event : obj) (s : form) :
  renderTags f (shown (render (apply_outputs (typeTag f event) s))) = Throw "TypeError".
Proof.
  assert (∀ o, get (foldl run_update o (queue s ++ [USet f (VObj event)])) f = VObj event) as H.
  { intros o. rewrite foldl_app. simpl. unfold get. by rewrite obj_get_define, decide_True. }
  unfold renderTags, shown, render, deref. simpl. destruct (queue s ++ [USet f (VObj event)]) as [|u us] eqn:Hq.
  - by destruct (queue s).
  - cbn [heap values]. rewrite lookup_insert_eq. simpl in *. by rewrite H.
Qed.
