(* ===== verification/SettingsPages.v ===== *)
(** * Settings pages

    The pages below [web/src/pages/Setting] that follow one pattern: the
    options of the service are copied into [inputs], [inputsRow] and the form;
    controls change [inputs] through their [onChange]; saving compares
    [inputs] with [inputsRow] ([compareObjects] of [helpers/utils.jsx]) and
    sends the options that differ.  A page is a record of what differs between
    the pages; the controls are those of [FormCompat]. *)
From Stdlib Require Import Ascii SpecFloat.
From stdpp Require Import relations.
From S2P Require Import Prelude JsString JsNumber JsValue FormCompat.

(** ** Comparing *)

(** [a === b]; objects are never equal to a copy. *)
Definition js_same (a b : jsval) : bool :=
  match a, b with
  | VNum x, VNum y => num_eqb x y
  | VStr x, VStr y => bool_decide (x = y)
  | VBool x, VBool y => Bool.eqb x y
  | VUndef, VUndef | VNull, VNull => true
  | _, _ => false
  end.

Record change := Change { c_key : string; c_old : jsval; c_new : jsval }.

Definition compareObjects (oldObject newObject : obj) : list change :=
  omap (λ kv, match obj_get newObject kv.1 with
              | Some v => if js_same kv.2 v then None else Some (Change kv.1 kv.2 v)
              | None => None
              end) oldObject.

(** ** Pages *)

Inductive control := TextControl | SelectControl (options : list option_) | SwitchControl | NumberControl | DateControl.

Record page := Page {
  p_defaults : obj;
  (** [{ ...inputs }] or [{}] before the options are copied. *)
  p_keep : bool;
  (** Adjustments of the copied options, given the options. *)
  p_adjust : obj → obj → obj;
  (** An item of the local storage written with a value of [inputs] before the
      load. *)
  p_storage : option (string * string);
  p_skip : list string;
  (** Whether every value is sent as a text, or only booleans. *)
  p_all_text : bool;
  (** Whether a single missing answer is an error, and whether the answers are
      looked at. *)
  p_single : bool;
  p_check : bool;
  p_controls : list (string * control) }.

Inductive effect :=
| Put (key : string) (value : jsval) | Warning (text : string) | Error (e : jsval) | Success (text : string)
| Refresh | SetItem (key value : string).

Record state := State {
  inputs : obj; inputsRow : obj; theForm : form; loading : bool; pending : list nat; effects : list effect }.

Definition emit (l : list effect) (s : state) : state :=
  State (inputs s) (inputsRow s) (theForm s) (loading s) (pending s) (effects s ++ l).
Definition setLoading (b : bool) (s : state) : state :=
  State (inputs s) (inputsRow s) (theForm s) b (pending s) (effects s).
Definition setPending (l : list nat) (s : state) : state :=
  State (inputs s) (inputsRow s) (theForm s) (loading s) l (effects s).

Section pages.
Context (t : string → string) (P : page).

Definition mount : state :=
  State (p_defaults P) (p_defaults P) (start None []) false [] [].

(** [String(v)]. *)
Definition text_of (v : jsval) : string := match to_str v with Ok x => x | Throw _ => "" end.

(** The loop over [props.options]. *)
Definition copy_options (known : list string) (current options : obj) : obj :=
  foldl (λ o kv, if decide (kv.1 ∈ known) then obj_set kv.1 kv.2 o else o) current options.

(** The effect on [props.options]. *)
Definition loadOptions (options : obj) (s : state) : state :=
  let current := copy_options (obj_keys (inputs s)) (if p_keep P then inputs s else []) options in
  let current := p_adjust P options current in
  let s' := State current current (setValues current (theForm s)) (loading s) (pending s) (effects s) in
  match p_storage P with
  | Some (item, key) => emit [SetItem item (text_of (get (inputs s) key))] s'
  | None => s'
  end.

(** [handleFieldChange(fieldName)] and the [setInputs] of the controls. *)
Definition handleFieldChange (key : string) (v : jsval) (s : state) : state :=
  State (obj_define key v (inputs s)) (inputsRow s) (theForm s) (loading s) (pending s) (effects s).

(** What the user does with a control. *)
Inductive gesture := Type_ (text : string) | Choose (strVal : string) | Click | PickDate (d : option jsval).

(** All controls of these pages are given an [onChange]. *)
Definition outputs (c : control) (key : string) (g : gesture) (vs : obj) : list output :=
  match c, g with
  | TextControl, Type_ x => FormInput (Some key) true x
  | NumberControl, Type_ x => FormInputNumber (Some key) true x
  | SelectControl options, Choose x => FormSelect (Some key) true options x
  | SwitchControl, Click => FormSwitch (Some key) true vs
  | DateControl, PickDate d => FormDatePicker (Some key) d
  | _, _ => []
  end.

Definition edit (key : string) (g : gesture) (s : state) : state :=
  match obj_get (p_controls P) key with
  | Some c =>
      let out := outputs c key g (shown (theForm s)) in
      let s := State (inputs s) (inputsRow s) (apply_outputs out (theForm s)) (loading s) (pending s) (effects s) in
      foldl (λ s v, handleFieldChange key v s) s (onChanges out)
  | None => s
  end.

Definition rerender (s : state) : state :=
  State (inputs s) (inputsRow s) (render (theForm s)) (loading s) (pending s) (effects s).

(** [updateArray] and the value of a request. *)
Definition updateArray (s : state) : list change :=
  filter (λ c, c_key c ∉ p_skip P) (compareObjects (inputs s) (inputsRow s)).

Definition sent_value (v : jsval) : jsval :=
  match v with
  | VBool b => VStr (if b then "true" else "false")
  | _ => if p_all_text P then VStr (text_of v) else v
  end.

Definition onSubmit (s : state) : state :=
  match updateArray s with
  | [] => emit [Warning (t "你似乎并没有修改什么")] s
  | l => setPending (pending s ++ [length l])
           (setLoading true (emit ((λ c, Put (c_key c) (sent_value (get (inputs s) (c_key c)))) <$> l) s))
  end.

(** The answers of a save: one was rejected, or each was [undefined] or had
    [success] and [message]. *)
Definition saved (n : nat) (answers : option (list (option (bool * jsval)))) (s : state) : state :=
  setLoading false
    match answers with
    | None => emit [Error (VStr (t "保存失败，请重试"))] s
    | Some l =>
        if existsb (λ x, match x with None => true | Some _ => false end) l then
          if decide (n = 1) then if p_single P then emit [Error (VStr (t "保存失败"))] s else s
          else emit [Error (VStr (t "部分保存失败，请重试"))] s
        else
          match (if p_check P then filter (λ x, x.1 = false) (omap id l) else []) with
          | (_, m) :: _ => emit [Error m] s
          | [] => emit [Success (t "保存成功"); Refresh] s
          end
    end.

(** *** Sessions *)

(** Options are texts, booleans and numbers. *)
Inductive step : state → state → Prop :=
| step_load options s : Forall (λ kv, js_same kv.2 kv.2 = true) options → step s (loadOptions options s)
| step_edit key g s : step s (edit key g s)
| step_render s : step s (rerender s)
| step_submit s : step s (onSubmit s)
| step_saved i n a s : pending s !! i = Some n → step s (saved n a (setPending (delete i (pending s)) s)).
End pages.

(** ** The pages *)

Definition no_adjust (options current : obj) : obj := current.
Definition switches (l : list string) : list (string * control) := (λ k, (k, SwitchControl)) <$> l.
Definition texts (l : list string) : list (string * control) := (λ k, (k, TextControl)) <$> l.
Definition number_fields (l : list string) : list (string * control) := (λ k, (k, NumberControl)) <$> l.
Definition off (l : list string) : obj := (λ k, (k, VBool false)) <$> l.
Definition blanks (l : list string) : obj := (λ k, (k, VStr "")) <$> l.
Definition Nz (z : Z) : jsval := VNum (num_of_Z z).

Definition drawing_keys : list string :=
  ["DrawingEnabled"; "MjNotifyEnabled"; "MjAccountFilterEnabled"; "MjForwardUrlEnabled"; "MjModeClearEnabled";
   "MjActionCheckSuccessEnabled"].
Definition SettingsDrawing : page :=
  Page (off drawing_keys) false no_adjust (Some ("mj_notify_enabled", "MjNotifyEnabled")) [] false false false
    (switches drawing_keys).

Definition SettingsCreditLimit : page :=
  Page (blanks ["QuotaForNewUser"; "PreConsumedQuota"; "QuotaForInviter"; "QuotaForInvitee"]
        ++ [("quota_setting.enable_free_model_pre_consume", VBool true)]) true no_adjust None [] false false false
    (number_fields ["QuotaForNewUser"; "PreConsumedQuota"; "QuotaForInviter"; "QuotaForInvitee"]
     ++ switches ["quota_setting.enable_free_model_pre_consume"]).

Definition SettingsCheckin : page :=
  Page [("checkin_setting.enabled", VBool false); ("checkin_setting.min_quota", Nz 1000); ("checkin_setting.max_quota", Nz 10000)]
    true no_adjust None [] true false false
    (switches ["checkin_setting.enabled"] ++ number_fields ["checkin_setting.min_quota"; "checkin_setting.max_quota"]).

(** The date of the log clean-up, which no control can change, is kept through
    a load. *)
Definition SettingsLog (historyTimestamp : jsval) : page :=
  Page [("LogConsumeEnabled", VBool false); ("historyTimestamp", historyTimestamp)] true
    (λ _, obj_set "historyTimestamp" historyTimestamp) None
    ["historyTimestamp"] false false false [("LogConsumeEnabled", SwitchControl); ("historyTimestamp", DateControl)].

Definition SettingsSensitiveWords : page :=
  Page [("CheckSensitiveEnabled", VBool false); ("CheckSensitiveOnPromptEnabled", VBool false); ("SensitiveWords", VStr "")]
    true no_adjust None [] false false false
    (switches ["CheckSensitiveEnabled"; "CheckSensitiveOnPromptEnabled"] ++ texts ["SensitiveWords"]).

Definition export_times : list option_ :=
  [Option (VStr "hour") (VStr "小时"); Option (VStr "day") (VStr "天"); Option (VStr "week") (VStr "周")].
Definition DataDashboard : page :=
  Page [("DataExportEnabled", VBool false); ("DataExportInterval", VStr ""); ("DataExportDefaultTime", VStr "")]
    false no_adjust (Some ("data_export_default_time", "DataExportDefaultTime")) [] false false false
    [("DataExportEnabled", SwitchControl); ("DataExportInterval", NumberControl);
     ("DataExportDefaultTime", SelectControl export_times)].

Definition RequestRateLimit : page :=
  Page [("ModelRequestRateLimitEnabled", VBool false); ("ModelRequestRateLimitCount", Nz (-1));
        ("ModelRequestRateLimitSuccessCount", Nz 1000); ("ModelRequestRateLimitDurationMinutes", Nz 1);
        ("ModelRequestRateLimitGroup", VStr "")] false no_adjust None [] false false true
    (switches ["ModelRequestRateLimitEnabled"]
     ++ number_fields ["ModelRequestRateLimitDurationMinutes"; "ModelRequestRateLimitCount"; "ModelRequestRateLimitSuccessCount"]
     ++ texts ["ModelRequestRateLimitGroup"]).

Definition group_texts : list string :=
  ["GroupRatio"; "UserUsableGroups"; "GroupGroupRatio"; "group_ratio_setting.group_special_usable_group"; "AutoGroups"].
Definition GroupRatioSettings : page :=
  Page (blanks group_texts ++ off ["DefaultUseAutoGroup"]) false no_adjust None [] false true true
    (texts group_texts ++ switches ["DefaultUseAutoGroup"]).

Definition ratio_texts : list string :=
  ["ModelPrice"; "ModelRatio"; "CacheRatio"; "CreateCacheRatio"; "CompletionRatio"; "ImageRatio"; "AudioRatio";
   "AudioCompletionRatio"].
Definition ModelRatioSettings : page :=
  Page (blanks ratio_texts ++ off ["ExposeRatioEnabled"]) false no_adjust None [] false true true
    (texts ratio_texts ++ switches ["ExposeRatioEnabled"]).

Definition general_switches : list string :=
  ["DisplayTokenStatEnabled"; "DefaultCollapseSidebar"; "DemoSiteEnabled"; "SelfUseModeEnabled"].
(** The old option that the type of display replaces, and the custom
    currency. *)
Definition general_adjust (options current : obj) : obj :=
  let current :=
    if is_undef (get current "general_setting.quota_display_type") && negb (is_undef (get options "DisplayInCurrencyEnabled"))
    then obj_set "general_setting.quota_display_type"
           (VStr (if truthy (get options "DisplayInCurrencyEnabled") then "USD" else "TOKENS")) current
    else current in
  let back k o := match obj_get options k with
                  | Some v => if is_undef v then o else obj_set k v o
                  | None => o
                  end in
  back "general_setting.custom_currency_exchange_rate" (back "general_setting.custom_currency_symbol" current).

Definition GeneralSettings : page :=
  Page ([("TopUpLink", VStr ""); ("general_setting.docs_link", VStr ""); ("general_setting.quota_display_type", VStr "USD");
         ("general_setting.custom_currency_symbol", VStr "¤"); ("general_setting.custom_currency_exchange_rate", VStr "");
         ("QuotaPerUnit", VStr ""); ("RetryTimes", VStr ""); ("USDExchangeRate", VStr "")]
        ++ off general_switches ++ [("PlaygroundEnabled", VBool true); ("token_setting.max_user_tokens", Nz 1000)])
    true general_adjust None [] false false false
    (texts ["TopUpLink"; "general_setting.docs_link"; "RetryTimes"; "general_setting.custom_currency_symbol"]
     ++ switches (general_switches ++ ["PlaygroundEnabled"]) ++ number_fields ["token_setting.max_user_tokens"]).

(** *** The combined rate of the general settings *)

(** The rate shown beside the currency, and the option it changes. *)
Definition rate_key (type : string) : option string :=
  if decide (type = "CNY") then Some "USDExchangeRate"
  else if decide (type = "TOKENS") then Some "QuotaPerUnit"
  else if decide (type = "CUSTOM") then Some "general_setting.custom_currency_exchange_rate"
  else None.

Definition combinedRate (inputs : obj) : string :=
  match get inputs "general_setting.quota_display_type" with
  | VStr type => if decide (type = "USD") then "1"
                 else match rate_key type with Some k => text_of (js_or (get inputs k) (VStr "")) | None => "" end
  | _ => ""
  end.

Definition onCombinedRateChange (val : string) (s : state) : state :=
  match get (inputs s) "general_setting.quota_display_type" with
  | VStr type => match rate_key type with Some k => handleFieldChange k (VStr val) s | None => s end
  | _ => s
  end.

(** The selection beside the rate. *)
Definition chooseCurrency (type : string) (s : state) : state :=
  handleFieldChange "general_setting.quota_display_type" (VStr type) s.

(** A typed rate is shown again, for every currency that has one. *)
Lemma rate_shown (type val : string) (s : state) :
  rate_key type ≠ None → combinedRate (inputs (onCombinedRateChange val (chooseCurrency type s))) = val.
Proof.
  intros Hk. destruct (rate_key type) as [k|] eqn:Hr; [|done].
  assert (type ≠ "USD" ∧ k ≠ "general_setting.quota_display_type") as [Hu Hq].
  { unfold rate_key in Hr. repeat case_decide; naive_solver. }
  assert (∀ o k' v k'', get (obj_define k' v o) k'' = if decide (k'' = k') then v else get o k'') as Hg.
  { intros. unfold get. rewrite obj_get_define. by case_decide. }
  unfold onCombinedRateChange, chooseCurrency, handleFieldChange. cbn [inputs].
  rewrite Hg, decide_True by done. rewrite Hr. unfold combinedRate. cbn [inputs].
  rewrite !Hg, decide_False, decide_True by done. rewrite decide_False, Hr, Hg, decide_True by done. by destruct val.
Qed.

(** ** What is saved *)

(** The value a control reports to the page. *)
Definition reported (c : control) (g : gesture) : option jsval :=
  match c, g with
  | TextControl, Type_ x => Some (VStr x)
  | SelectControl options, Choose x => Some (default (VStr x) (obj_get (valueTypeMap options) x))
  | _, _ => None
  end.

Lemma onChanges_outputs c key g vs : onChanges (outputs c key g vs) = option_list (reported c g).
Proof. destruct c, g; done. Qed.

Section saving.
Context (t : string → string) (P : page).

(** The last value reported for a key. *)
Definition report (v : jsval) (k : string) (e : string * gesture) : jsval :=
  if decide (e.1 = k) then
    match obj_get (p_controls P) k with Some c => default v (reported c e.2) | None => v end
  else v.

Definition last_report (k : string) (v : jsval) (es : list (string * gesture)) : jsval :=
  foldl (λ v e, report v k e) v es.

Definition do_edits (s : state) (es : list (string * gesture)) : state := foldl (λ s e, edit P e.1 e.2 s) s es.

Lemma edit_spec key g s :
  inputsRow (edit P key g s) = inputsRow s ∧ effects (edit P key g s) = effects s ∧ pending (edit P key g s) = pending s ∧
  (NoDup (obj_keys (inputs s)) → NoDup (obj_keys (inputs (edit P key g s)))) ∧
  (∀ k, is_Some (obj_get (inputs s) k) → is_Some (obj_get (inputs (edit P key g s)) k)) ∧
  (∀ k, is_Some (obj_get (inputs s) k) → get (inputs (edit P key g s)) k = report (get (inputs s) k) k (key, g)).
Proof.
  unfold edit, report. simpl. destruct (obj_get (p_controls P) key) as [c|] eqn:Hc.
  - rewrite onChanges_outputs. destruct (reported c g) as [v|] eqn:Hr; simpl.
    + repeat split; try done; [by apply obj_define_NoDup| |]; intros k Hk; unfold get; rewrite obj_get_define.
      * case_decide; [by eexists|done].
      * case_decide as Hd; [subst|]; rewrite ?decide_True by done; [by rewrite Hc, Hr|]. by rewrite decide_False.
    + repeat split; try done. intros k Hk. case_decide; [subst|done]. by rewrite Hc, Hr.
  - repeat split; try done. intros k Hk. case_decide; [subst|done]. by rewrite Hc.
Qed.

Lemma edits_spec es s :
  NoDup (obj_keys (inputs s)) →
  inputsRow (do_edits s es) = inputsRow s ∧ effects (do_edits s es) = effects s ∧
  NoDup (obj_keys (inputs (do_edits s es))) ∧
  ∀ k, is_Some (obj_get (inputs s) k) →
    is_Some (obj_get (inputs (do_edits s es)) k) ∧ get (inputs (do_edits s es)) k = last_report k (get (inputs s) k) es.
Proof.
  unfold do_edits, last_report. revert s. induction es as [|[key g] es IH]; intros s Hnd; simpl; [done|].
  destruct (edit_spec key g s) as (H1 & H2 & _ & H3 & H4 & H5). destruct (IH (edit P key g s)) as (I1 & I2 & I3 & I4); [auto|].
  rewrite I1, I2. split; [done|]. split; [done|]. split; [done|]. intros k Hk. destruct (I4 k) as [J1 J2]; [auto|].
  split; [done|]. rewrite J2. by rewrite H5.
Qed.

Lemma elem_of_compare o o' c : NoDup (obj_keys o) →
  c ∈ compareObjects o o' ↔
  ∃ v', obj_get o (c_key c) = Some (c_old c) ∧ obj_get o' (c_key c) = Some v' ∧ c_new c = v' ∧ js_same (c_old c) v' = false.
Proof.
  intros Hnd. unfold compareObjects. rewrite list_elem_of_omap. split.
  - intros ([k v] & Hin & Hc). simpl in Hc. destruct (obj_get o' k) as [v'|] eqn:Hv; [|done].
    destruct (js_same v v') eqn:Hs; [done|]. simplify_eq. simpl. exists v'. split; [by apply elem_of_obj_get|done].
  - destruct c as [k v new]. simpl. intros (v' & Hk & Hk' & -> & Hs). exists (k, v). split; [by apply obj_get_elem_of|].
    simpl. by rewrite Hk', Hs.
Qed.

(** C20.  A save stores exactly the edits that were reported: after the options
    were loaded and any sequence of edits, an option is sent if and only if it
    was loaded, is not left out by the page, and the value last reported for
    it differs from the loaded one; it is sent with that value; and if there
    is none, the user is warned and nothing is sent. *)
Theorem saved_exactly_reported (s : state) (es : list (string * gesture)) :
  NoDup (obj_keys (inputs s)) → inputsRow s = inputs s →
  ∃ new, effects (onSubmit t P (do_edits s es)) = effects s ++ new ∧
    (∀ k v, Put k v ∈ new ↔
       k ∈ obj_keys (inputs s) ∧ (k ∉ p_skip P) ∧
       js_same (last_report k (get (inputs s) k) es) (get (inputs s) k) = false ∧
       v = sent_value P (last_report k (get (inputs s) k) es)) ∧
    ((∀ k v, Put k v ∉ new) → new = [Warning (t "你似乎并没有修改什么")]).
Proof.
  intros Hnd Hrow. destruct (edits_spec es s Hnd) as (H1 & H2 & H3 & H4). set (s' := do_edits s es) in *.
  assert (∀ k v, (∃ c, c ∈ updateArray P s' ∧ c_key c = k ∧ sent_value P (get (inputs s') k) = v) ↔
       k ∈ obj_keys (inputs s) ∧ (k ∉ p_skip P) ∧
       js_same (last_report k (get (inputs s) k) es) (get (inputs s) k) = false ∧
       v = sent_value P (last_report k (get (inputs s) k) es)) as Hu.
  { intros k v. unfold updateArray. rewrite H1, Hrow. split.
    - intros (c & [Hsk Hc]%list_elem_of_filter & <- & <-). apply elem_of_compare in Hc as (v' & Hk & Hk' & _ & Hs); [|done].
      assert (is_Some (obj_get (inputs s) (c_key c))) as Hsome by by eexists.
      destruct (H4 _ Hsome) as [_ Hg]. split; [by apply obj_get_is_Some|]. split; [done|].
      rewrite Hg. split; [|done]. rewrite <-Hg. unfold get. by rewrite Hk, Hk'.
    - intros (Hk & Hsk & Hs & ->). apply obj_get_is_Some in Hk as Hsome. destruct (H4 k Hsome) as [[w Hw] Hg].
      destruct Hsome as [v0 Hv0]. exists (Change k w v0). split; [|split; [done|]; by rewrite Hg].
      apply list_elem_of_filter. split; [done|]. apply elem_of_compare; [done|]. exists v0. simpl.
      split; [done|]. split; [done|]. split; [done|]. rewrite <-Hg in Hs. unfold get in Hs. by rewrite Hw, Hv0 in Hs. }
  unfold onSubmit. destruct (updateArray P s') as [|c0 l] eqn:Hl.
  - exists [Warning (t "你似乎并没有修改什么")]. simpl. rewrite H2. split; [done|]. split; [|done].
    intros k v. rewrite <-Hu. split; [by intros [[=]|[]%elem_of_nil]%elem_of_cons|].
    intros (c & []%elem_of_nil & _).
  - exists ((λ c, Put (c_key c) (sent_value P (get (inputs s') (c_key c)))) <$> (c0 :: l)). simpl effects. rewrite H2.
    split; [done|]. split.
    + intros k v. rewrite <-Hu, list_elem_of_fmap. naive_solver.
    + intros Hno. exfalso. eapply Hno. left.
Qed.
End saving.

(** ** Pages that never save *)

(** A control whose gestures report nothing. *)
Definition silent (c : control) : bool :=
  match c with TextControl | SelectControl _ => false | SwitchControl | NumberControl | DateControl => true end.

Lemma silent_report c g : silent c = true → reported c g = None.
Proof. by destruct c, g. Qed.

Definition silent_page (P : page) : bool := forallb (λ kc, silent kc.2) (p_controls P).

Definition self_same (o : obj) : Prop := Forall (λ kv, js_same kv.2 kv.2 = true) o.

Section silence.
Context (t : string → string) (P : page).

(** What the page starts with is as plain as the options. *)
Definition plain_page : Prop :=
  NoDup (obj_keys (p_defaults P)) ∧ self_same (p_defaults P) ∧ p_adjust P = no_adjust ∧ silent_page P = true.

Lemma self_same_set o k v : NoDup (obj_keys o) → self_same o → js_same v v = true → self_same (obj_set k v o).
Proof.
  intros Hnd Ho Hv. apply Forall_forall. intros [k' v'] Hin%elem_of_obj_get; [|by apply obj_set_NoDup].
  rewrite obj_get_set in Hin. case_decide; [naive_solver|]. apply obj_get_elem_of in Hin.
  by eapply Forall_forall in Ho; [|exact Hin].
Qed.

Lemma copy_options_ok known options current :
  self_same options → NoDup (obj_keys current) → self_same current →
  NoDup (obj_keys (copy_options known current options)) ∧ self_same (copy_options known current options).
Proof.
  unfold copy_options. revert current. induction options as [|[k v] options IH]; intros current Ho Hnd Hc; simpl; [done|].
  apply Forall_cons in Ho as [Hv Ho]. apply IH; [done| |]; case_decide; try done.
  - by apply obj_set_NoDup.
  - by apply self_same_set.
Qed.

Record quiet (s : state) : Prop := {
  q_nodup : NoDup (obj_keys (inputs s));
  q_same : self_same (inputs s);
  q_row : inputsRow s = inputs s;
  q_put k v : Put k v ∉ effects s;
  q_pending : pending s = [] }.

Lemma quiet_compare s : quiet s → updateArray P s = [].
Proof.
  intros []. destruct (updateArray P s) as [|c l] eqn:H; [done|]. exfalso.
  assert (c ∈ updateArray P s) as Hc by (rewrite H; left). unfold updateArray in Hc. rewrite q_row0 in Hc.
  apply list_elem_of_filter in Hc as [_ Hc]. apply elem_of_compare in Hc as (v' & Hk & Hk' & _ & Hs); [|done].
  simplify_eq. apply obj_get_elem_of in Hk. eapply Forall_forall in q_same0; [|exact Hk]. simpl in *. congruence.
Qed.

Lemma quiet_edit key g s : silent_page P = true → quiet s → quiet (edit P key g s).
Proof.
  intros Hp Hs. unfold edit. destruct (obj_get (p_controls P) key) as [c|] eqn:Hc; [|done].
  assert (silent c = true) as Hsil.
  { apply obj_get_elem_of in Hc. unfold silent_page in Hp. rewrite forallb_forall in Hp.
    apply list_elem_of_In in Hc. by apply Hp in Hc. }
  rewrite onChanges_outputs, silent_report by done. by destruct Hs.
Qed.

Lemma quiet_step s s' : plain_page → step t P s s' → quiet s → quiet s'.
Proof.
  intros (_ & _ & Hadj & Hp) Hstep Hs. destruct Hstep as [options s Ho|key g s|s|s|i n a s Hi].
  - unfold loadOptions. rewrite Hadj. unfold no_adjust.
    destruct (copy_options_ok (obj_keys (inputs s)) options (if p_keep P then inputs s else [])) as [H1 H2].
    { done. } { destruct (p_keep P); [apply Hs|constructor]. } { destruct (p_keep P); [apply Hs|constructor]. }
    destruct Hs. destruct (p_storage P) as [[item key]|]; split; simpl; try done.
    intros k v. rewrite elem_of_app, list_elem_of_singleton. intros [H|H]; [by apply q_put0 in H|done].
  - by apply quiet_edit.
  - by destruct Hs.
  - unfold onSubmit. rewrite quiet_compare by done. destruct Hs. split; simpl; try done.
    intros k v. rewrite elem_of_app, list_elem_of_singleton. intros [H|H]; [by apply q_put0 in H|done].
  - destruct Hs. by rewrite q_pending0 in Hi.
Qed.

(** A page all of whose controls are switches, number fields or dates can
    never save: in no session is any option sent, since these controls do not
    call the [onChange] they are given. *)
Theorem silent_page_never_saves (s : state) (k : string) (v : jsval) :
  plain_page → rtc (step t P) (mount P) s → Put k v ∉ effects s.
Proof.
  intros Hp Hs. cut (quiet s); [intros []; auto|]. revert s Hs. apply (rtc_ind_r quiet).
  - destruct Hp as (? & ? & _). split; simpl; try done. intros. apply not_elem_of_nil.
  - intros s s' _ Hstep. by apply quiet_step.
Qed.
End silence.

(** *** Witnesses *)

Lemma drawing_plain : plain_page SettingsDrawing.
Proof. split; [vm_compute; repeat constructor; set_solver|]. split; [repeat constructor|]. split; vm_compute; reflexivity. Qed.

Lemma silent_page_never_saves_witness :
  let s := onSubmit id SettingsDrawing
    (rerender (edit SettingsDrawing "DrawingEnabled" Click
      (rerender (loadOptions SettingsDrawing [("DrawingEnabled", VBool false)] (mount SettingsDrawing))))) in
  (Put "DrawingEnabled" (VStr "true") ∉ effects s) ∧ get (shown (theForm s)) "DrawingEnabled" = VBool true.
Proof.
  split; [|vm_compute; reflexivity].
  refine (silent_page_never_saves id SettingsDrawing _ _ _ drawing_plain _).
  eapply rtc_l; [apply (step_load _ _ [("DrawingEnabled", VBool false)]); repeat constructor|].
  eapply rtc_l; [apply step_render|]. eapply rtc_l; [apply (step_edit _ _ "DrawingEnabled" Click)|].
  eapply rtc_l; [apply step_render|]. eapply rtc_l; [apply step_submit|]. apply rtc_refl.
Defined.

(** The credit limits and the check-in page are such pages too. *)
Lemma other_silent_pages :
  silent_page SettingsCreditLimit = true ∧ silent_page SettingsCheckin = true ∧ silent_page (SettingsLog VNull) = true.
Proof. vm_compute. done. Qed.

Lemma saved_exactly_reported_witness :
  let s := loadOptions RequestRateLimit [("ModelRequestRateLimitEnabled", VBool false); ("ModelRequestRateLimitGroup", VStr "a")]
             (mount RequestRateLimit) in
  let es := [("ModelRequestRateLimitEnabled", Click); ("ModelRequestRateLimitGroup", Type_ "b")] in
  ∃ new, effects (onSubmit id RequestRateLimit (do_edits RequestRateLimit s es)) = effects s ++ new ∧
    Put "ModelRequestRateLimitGroup" (VStr "b") ∈ new ∧ Put "ModelRequestRateLimitEnabled" (VStr "true") ∉ new.
Proof.
  intros s es.
  destruct (saved_exactly_reported id RequestRateLimit s es) as (new & H1 & H2 & _);
    [vm_compute; repeat constructor; set_solver|vm_compute; reflexivity|].
  exists new. split; [exact H1|]. split.
  - apply H2. vm_compute. split; [right; left|]. split; [set_solver|]. done.
  - intros H%H2. destruct H as (_ & _ & H & _). vm_compute in H. done.
Defined.

(** The validators of the text areas are not run: a text that is not JSON is
    sent. *)
Lemma invalid_json_saved :
  let s := loadOptions ModelRatioSettings [("ModelRatio", VStr "{}")] (mount ModelRatioSettings) in
  effects (onSubmit id ModelRatioSettings (edit ModelRatioSettings "ModelRatio" (Type_ "{") s)) = [Put "ModelRatio" (VStr "{")].
Proof. vm_compute. done. Qed.

(** The item of the local storage gets the value of before the load. *)
Lemma stale_default_time :
  let s := loadOptions DataDashboard [("DataExportDefaultTime", VStr "week")] (mount DataDashboard) in
  get (inputs s) "DataExportDefaultTime" = VStr "week" ∧ effects s = [SetItem "data_export_default_time" ""].
Proof. vm_compute. done. Qed.
