(* ===== verification/Tokens.v ===== *)
(** * The table of tokens

    [web/src/hooks/tokens/useTokensData.jsx] with [web/src/helpers/token.js]:
    loading and searching pages of tokens, enabling, disabling and deleting
    them, and the keys, which are fetched on demand.

    A handler runs up to its first [await] and leaves the rest as a task; the
    service answers in any order.  The rows are objects of a heap, because
    [manageToken] writes the new status into the row it was called with, which
    may not be shown any more.  A key request is shared: the promise of a token
    is kept in [keyRequestsRef] and everything that wants the key waits on it.
    Id and name of a row are never written, so a waiting handler remembers
    them.  The effect [Clip] carries, beside the text, the tokens the handler
    was called with. *)
From Stdlib Require Import Ascii SpecFloat.
From stdpp Require Import relations sorting.
From S2P Require Import Prelude JsString JsNumber JsValue Json Passkey.

(** ** Data *)

Record token := Token { tk_id : Z; tk_name : string; tk_status : Z; tk_fields : obj }.

Definition set_status (x : Z) (k : token) : token := Token (tk_id k) (tk_name k) x (tk_fields k).

(** [record[key]]. *)
Definition tk_prop (k : token) (key : string) : jsval :=
  if decide (key = "id") then VNum (num_of_Z (tk_id k))
  else if decide (key = "name") then VStr (tk_name k)
  else if decide (key = "status") then VNum (num_of_Z (tk_status k))
  else default VUndef (obj_get (tk_fields k) key).

(** A page as the service sends it. *)
Record payload := Payload { pl_items : list token; pl_total : Z; pl_page : Z; pl_page_size : Z }.

Inductive action := Delete | Enable | Disable.

Inductive copy_type := KeyOnly | NameAndKey.

Inductive effect :=
| Get (url : string) | Post (url : string) (ids : list Z) | PutStatus (id status : Z) | DeleteToken (id : Z)
| ShowError (e : jsval) | ShowSuccess (key : string) (vars : obj)
| Clip (c : option copy_type) (records : list (Z * string)) (text : string) | CopyFailed (text : string)
| Open (url : string) | OpenCCSwitch (key : string) | OpenFluent (key : string).

(** What waits for the key of a token. *)
Inductive waiter := WToggle (id : Z) | WCopy (id : Z) | WLink (url : string) (id : Z) | WBatch (b i : nat).

(** A [Promise.all] of [batchCopyTokens]: the tokens, and the keys that have
    arrived. *)
Record batch := Batch { b_type : copy_type; b_records : list (Z * string); b_keys : list (option string); b_over : bool }.

(** What follows a load: nothing, the catch of the effect, the end of
    [refresh], or the end of [batchDeleteTokens]. *)
Inductive after := Plain | CatchShow | ClearSelection | AfterDelete (shown : nat) (page : Z).

Inductive task :=
| TLoad (size : Z) (k : after) | TSearch (size : Z)
| TManage (a : action) (record : nat) (rows : list nat)
| TKey (p : nat) (id : Z) (suppressError : bool)
| TBatchDelete (shown : nat) (page size : Z) | TGoBack (shown : nat) (page size : Z)
| TCopy (text : string) | TForgetEdit.

Record form := Form { searchKeyword : string; searchToken : string }.

Record table := Table {
  tokens : list nat; heap : gmap nat token; loading : bool; activePage : Z; tokenCount : Z; pageSize : Z;
  searching : bool; searchMode : bool; selectedKeys : list nat; showEdit : bool; editingToken : option Z;
  showKeys : gmap Z bool; resolvedTokenKeys : gmap Z string; loadingTokenKeys : gset Z;
  keyRequests : gmap Z nat; waiting : gmap nat (list waiter); batches : gmap nat batch;
  tasks : list task; effects : list effect }.

Definition ITEMS_PER_PAGE : Z := 10.

Definition initial : table :=
  Table [] ∅ true 1 0 ITEMS_PER_PAGE false false [] false None ∅ ∅ ∅ ∅ ∅ ∅ [] [].

Definition setTokens (x : list nat) (s : table) : table :=
  let '(Table _ b c d e f g h i j k l m n o p q r u) := s in Table x b c d e f g h i j k l m n o p q r u.
Definition setHeap (x : gmap nat token) (s : table) : table :=
  let '(Table a _ c d e f g h i j k l m n o p q r u) := s in Table a x c d e f g h i j k l m n o p q r u.
Definition setLoading (x : bool) (s : table) : table :=
  let '(Table a b _ d e f g h i j k l m n o p q r u) := s in Table a b x d e f g h i j k l m n o p q r u.
Definition setActivePage (x : Z) (s : table) : table :=
  let '(Table a b c _ e f g h i j k l m n o p q r u) := s in Table a b c x e f g h i j k l m n o p q r u.
Definition setTokenCount (x : Z) (s : table) : table :=
  let '(Table a b c d _ f g h i j k l m n o p q r u) := s in Table a b c d x f g h i j k l m n o p q r u.
Definition setPageSizeValue (x : Z) (s : table) : table :=
  let '(Table a b c d e _ g h i j k l m n o p q r u) := s in Table a b c d e x g h i j k l m n o p q r u.
Definition setSearching (x : bool) (s : table) : table :=
  let '(Table a b c d e f _ h i j k l m n o p q r u) := s in Table a b c d e f x h i j k l m n o p q r u.
Definition setSearchMode (x : bool) (s : table) : table :=
  let '(Table a b c d e f g _ i j k l m n o p q r u) := s in Table a b c d e f g x i j k l m n o p q r u.
Definition setSelectedKeys (x : list nat) (s : table) : table :=
  let '(Table a b c d e f g h _ j k l m n o p q r u) := s in Table a b c d e f g h x j k l m n o p q r u.
Definition setEdit (x : bool) (y : option Z) (s : table) : table :=
  let '(Table a b c d e f g h i _ _ l m n o p q r u) := s in Table a b c d e f g h i x y l m n o p q r u.
Definition setShowKeys (x : gmap Z bool) (s : table) : table :=
  let '(Table a b c d e f g h i j k _ m n o p q r u) := s in Table a b c d e f g h i j k x m n o p q r u.
Definition setResolved (x : gmap Z string) (s : table) : table :=
  let '(Table a b c d e f g h i j k l _ n o p q r u) := s in Table a b c d e f g h i j k l x n o p q r u.
Definition setRequests (x : gset Z) (y : gmap Z nat) (z : gmap nat (list waiter)) (s : table) : table :=
  let '(Table a b c d e f g h i j k l m _ _ _ q r u) := s in Table a b c d e f g h i j k l m x y z q r u.
Definition setBatches (x : gmap nat batch) (s : table) : table :=
  let '(Table a b c d e f g h i j k l m n o p _ r u) := s in Table a b c d e f g h i j k l m n o p x r u.
Definition setTasks (x : list task) (s : table) : table :=
  let '(Table a b c d e f g h i j k l m n o p q _ u) := s in Table a b c d e f g h i j k l m n o p q x u.
Definition emit (x : effect) (s : table) : table :=
  let '(Table a b c d e f g h i j k l m n o p q r u) := s in Table a b c d e f g h i j k l m n o p q r (u ++ [x]).

Definition await (k : task) (s : table) : table := setTasks (tasks s ++ [k]) s.
Definition showError (e : jsval) (s : table) : table := emit (ShowError e) s.

(** ** Pages *)

Section table.
Variable t : string → string.
(** [a.localeCompare(b) <= 0]. *)
Variable locale_le : string → string → Prop.
Context `{!RelDecision locale_le}.

Definition or_one (z d : Z) : Z := if decide (z = 0%Z) then d else z.

Definition loadTokens (page size : Z) (k : after) (s : table) : table :=
  await (TLoad size k)
    (emit (Get ("/api/token/?p=" +:+ pretty page +:+ "&size=" +:+ pretty size)) (setSearchMode false (setLoading true s))).

(** [setPageSize]; the effect on [pageSize] loads the first page after a
    change. *)
Definition setPageSize (x : Z) (s : table) : table :=
  if decide (x = pageSize s) then s else loadTokens 1 x CatchShow (setPageSizeValue x s).

(** New objects for the rows of a page. *)
Fixpoint alloc (items : list token) (h : gmap nat token) : list nat * gmap nat token :=
  match items with
  | [] => ([], h)
  | k :: items => let l := fresh (dom h) in
                  let '(ls, h) := alloc items (<[l := k]> h) in (l :: ls, h)
  end.

(** [size] is the [pageSize] of the handler. *)
Definition syncPageData (p : payload) (size : Z) (s : table) : table :=
  let '(rows, h) := alloc (pl_items p) (heap s) in
  let s := setActivePage (or_one (pl_page p) 1) (setTokenCount (pl_total p) (setTokens rows (setHeap h s))) in
  setPageSize (or_one (pl_page_size p) size) (setShowKeys ∅ s).

Inductive reply (A : Type) := Rejected (message : string) | Refused (message : jsval) | Served (data : A).
#[global] Arguments Rejected {A}.
#[global] Arguments Refused {A}.
#[global] Arguments Served {A}.

(** The end of a load for its caller. *)
Definition loaded (k : after) (size : Z) (s : table) : table :=
  match k with
  | Plain | CatchShow => s
  | ClearSelection => setSelectedKeys [] s
  | AfterDelete shown page => setLoading false (await (TGoBack shown page size) (setSelectedKeys [] s))
  end.

(** A failed load: only the effect and [batchDeleteTokens] catch. *)
Definition load_failed (e : string) (k : after) (s : table) : table :=
  match k with
  | Plain | ClearSelection => s
  | CatchShow => showError (VStr e) s
  | AfterDelete _ _ => setLoading false (showError (VStr e) s)
  end.

Definition loadDone (size : Z) (k : after) (r : reply payload) (s : table) : table :=
  match r with
  | Rejected e => load_failed e k s
  | Refused m => loaded k size (setLoading false (showError m s))
  | Served p => loaded k size (setLoading false (syncPageData p size s))
  end.

Definition refresh (page : option Z) (s : table) : table :=
  loadTokens (default (activePage s) page) (pageSize s) ClearSelection s.

Definition is_unreserved (c : ascii) : bool :=
  let n := N_of_ascii c in
  is_digit c || ((65 <=? n) && (n <=? 90))%N || ((97 <=? n) && (n <=? 122))%N
  || bool_decide (c ∈ chars "-_.!~*'()").

Definition hex_upper (n : N) : ascii := byte (if (n <? 10)%N then 48 + n else 55 + n)%N.

(** [encodeURIComponent], byte by byte. *)
Definition encodeURIComponent (x : string) : string :=
  of_chars (concat ((λ c, if is_unreserved c then [c]
     else ["%"%char; hex_upper (N_of_ascii c / 16); hex_upper (N_of_ascii c `mod` 16)]) <$> chars x)).

Definition searchTokens (page size : Z) (f : form) (s : table) : table :=
  let normalizedPage := if (0 <? page)%Z then page else 1%Z in
  let normalizedSize := if (0 <? size)%Z then size else pageSize s in
  if decide (searchKeyword f = "" ∧ searchToken f = "") then
    loadTokens 1 (pageSize s) Plain (setSearchMode false s)
  else
    await (TSearch (pageSize s))
      (emit (Get ("/api/token/search?keyword=" +:+ encodeURIComponent (searchKeyword f) +:+ "&token="
          +:+ encodeURIComponent (searchToken f) +:+ "&p=" +:+ pretty normalizedPage +:+ "&size=" +:+ pretty normalizedSize))
        (setSearching true s)).

Definition searchDone (size : Z) (r : reply payload) (s : table) : table :=
  match r with
  | Rejected _ => s
  | Refused m => setSearching false (showError m s)
  | Served p => setSearching false (syncPageData p size (setSearchMode true s))
  end.

Definition handlePageChange (page : Z) (f : form) (s : table) : table :=
  if searchMode s then searchTokens page (pageSize s) f s else loadTokens page (pageSize s) Plain s.

(** The search normalises with the page size of before the change; the effect
    runs after the handler has made its request. *)
Definition handlePageSizeChange (size : Z) (f : form) (s : table) : table :=
  let s' := if searchMode s then searchTokens 1 size f s else loadTokens 1 size Plain s in
  setPageSize size s'.

(** ** Managing tokens *)

Definition action_effect (a : action) (id : Z) : effect :=
  match a with Delete => DeleteToken id | Enable => PutStatus id 1 | Disable => PutStatus id 2 end.

Definition manageToken (id : Z) (a : action) (record : nat) (s : table) : table :=
  await (TManage a record (tokens s)) (emit (action_effect a id) (setLoading true s)).

(** [res.data.data.status]; a deletion does not read it. *)
Definition manageDone (a : action) (record : nat) (rows : list nat) (r : reply Z) (s : table) : table :=
  match r with
  | Rejected _ => s
  | Refused m => setLoading false (showError m s)
  | Served st =>
      let s := emit (ShowSuccess "操作成功完成！" []) s in
      let s := match a with Delete => s | _ => setHeap (alter (set_status st) record (heap s)) s end in
      setLoading false (setTokens rows s)
  end.

(** ** Sorting *)

Definition row_text (s : table) (key : string) (l : nat) : string :=
  match to_str (from_option (λ k, tk_prop k key) VUndef (heap s !! l)) with Ok x => x | Throw _ => "" end.

Definition sort_le (s : table) (key : string) (a b : nat) : Prop := locale_le (row_text s key a) (row_text s key b).
#[local] Instance sort_le_dec s key : RelDecision (sort_le s key).
Proof. intros a b. unfold sort_le. apply _. Defined.

Definition row_id (s : table) (l : nat) : option Z := tk_id <$> heap s !! l.

Definition sortToken (key : string) (s : table) : table :=
  match tokens s with
  | [] => s
  | first :: _ =>
      let sorted := merge_sort (sort_le s key) (tokens s) in
      let sorted := if decide (head sorted ≫= row_id s = row_id s first) then rev sorted else sorted in
      setLoading false (setTokens sorted (setLoading true s))
  end.

(** The shade of a row that is not enabled. *)
Definition handleRow (k : token) : bool := negb (bool_decide (tk_status k = 1%Z)).
End table.

(** ** Keys *)

Section keys.
Variable t : string → string.
(** [window.location.origin] and the stored [status]. *)
Variable origin : string.
Variable status : option string.

Definition copyText (c : option copy_type) (records : list (Z * string)) (text : string) (s : table) : table :=
  await (TCopy text) (emit (Clip c records text) s).

Definition copyDone (text : string) (ok : bool) (s : table) : table :=
  emit (if ok then ShowSuccess "已复制到剪贴板！" [] else CopyFailed text) s.

(** [serverAddress]; a status that is not JSON throws. *)
Definition serverAddress : res jsval :=
  v ← match status with
      | None | Some "" => Ok (VStr "")
      | Some text => match json_parse text with
                     | Some v => prop v "server_address"
                     | None => Throw "SyntaxError"
                     end
      end;
  Ok (if is_str "" v then VStr origin else v).

(** [window.btoa] of the UTF-8 bytes of the text. *)
Definition encodeToBase64 (value : string) : string := of_chars (btoa (chars value)).

(** The configuration of a client application, for the placeholder. *)
Definition app_config (name : string) (id : string) (address : jsval) (key : string) : string :=
  encodeURIComponent (encodeToBase64 (stringify (VObj [(name, VStr id); ("baseUrl", address); ("apiKey", VStr ("sk-" +:+ key))]))).

Definition link_url (url key : string) (address : jsval) : res string :=
  if includes "{cherryConfig}" url then Ok (replace_all "{cherryConfig}" (app_config "id" "new-api" address key) url)
  else if includes "{aionuiConfig}" url then Ok (replace_all "{aionuiConfig}" (app_config "platform" "new-api" address key) url)
  else a ← to_str address;
       Ok (replace_all "{key}" ("sk-" +:+ key) (replace_all "{address}" (encodeURIComponent a) url)).

(** The rest of [onOpenLink]. *)
Definition open_link (url key : string) (s : table) : table :=
  if starts_with "ccswitch" url then emit (OpenCCSwitch key) s
  else if starts_with "fluent" url then emit (OpenFluent key) s
  else match (a ← serverAddress; link_url url key a) with
       | Ok u => emit (Open u) s
       | Throw _ => s
       end.

(** The lines of a batch. *)
Definition batch_line (c : copy_type) (name key : string) : string :=
  match c with
  | NameAndKey => name +:+ "    sk-" +:+ key +:+ String NL ""
  | KeyOnly => "sk-" +:+ key +:+ String NL ""
  end.

Definition batch_text (c : copy_type) (l : list (string * string)) : string :=
  join "" ((λ nk, batch_line c nk.1 nk.2) <$> l).

(** All keys, once the last has arrived. *)
Fixpoint all_keys (l : list (option string)) : option (list string) :=
  match l with
  | [] => Some []
  | Some k :: l => (k ::.) <$> all_keys l
  | None :: _ => None
  end.

(** A key arrives at a [Promise.all]. *)
Definition batch_key (b i : nat) (key : string) (s : table) : table :=
  match batches s !! b with
  | Some x =>
      if b_over x then s
      else
        let keys := <[i := Some key]> (b_keys x) in
        match all_keys keys with
        | Some ks =>
            copyText (Some (b_type x)) (b_records x) (batch_text (b_type x) (zip (b_records x).*2 ks))
              (setBatches (<[b := Batch (b_type x) (b_records x) keys true]> (batches s)) s)
        | None => setBatches (<[b := Batch (b_type x) (b_records x) keys false]> (batches s)) s
        end
  | None => s
  end.

(** The first failure ends a [Promise.all]. *)
Definition batch_failed (b : nat) (e : string) (s : table) : table :=
  match batches s !! b with
  | Some x =>
      if b_over x then s
      else showError (VStr (if decide (e = "") then t "复制令牌失败" else e))
             (setBatches (<[b := Batch (b_type x) (b_records x) (b_keys x) true]> (batches s)) s)
  | None => s
  end.

(** What a waiting handler does with the key, or with the error; errors of
    single handlers are not caught. *)
Definition resume (r : res string) (w : waiter) (s : table) : table :=
  match r, w with
  | Ok key, WToggle id => if decide (key = "") then s else setShowKeys (<[id := true]> (showKeys s)) s
  | Ok key, WCopy id => copyText None [(id, "")] ("sk-" +:+ key) s
  | Ok key, WLink url _ => open_link url key s
  | Ok key, WBatch b i => batch_key b i key s
  | Throw e, WBatch b _ => batch_failed b e s
  | Throw _, _ => s
  end.

(** [fetchTokenKey(record, { suppressError })], whose result goes to [w]. *)
Definition fetchTokenKey (suppressError : bool) (id : Z) (w : waiter) (s : table) : table :=
  if decide (id = 0%Z) then
    let e := t "令牌不存在" in
    resume (Throw e) w (if suppressError then s else showError (VStr e) s)
  else
    match resolvedTokenKeys s !! id with
    | Some key => resume (Ok key) w s
    | None =>
        match keyRequests s !! id with
        | Some p => setRequests (loadingTokenKeys s) (keyRequests s)
                      (<[p := default [] (waiting s !! p) ++ [w]]> (waiting s)) s
        | None =>
            let p := fresh (dom (waiting s)) in
            await (TKey p id suppressError)
              (emit (Post ("/api/token/" +:+ pretty id +:+ "/key") [])
                (setRequests ({[id]} ∪ loadingTokenKeys s) (<[id := p]> (keyRequests s)) (<[p := [w]]> (waiting s)) s))
        end
    end.

(** The answer of the service as [helpers/token.js] reads it. *)
Inductive key_reply := KeyRejected (e : string) | KeyReply (success : bool) (key : option string) (message : string).

Definition fetchTokenKeyById (r : key_reply) : res string :=
  match r with
  | KeyRejected e => Throw e
  | KeyReply true (Some (String c k)) _ => Ok (String c k)
  | KeyReply _ _ message => Throw (if decide (message = "") then "Failed to fetch token key" else message)
  end.

(** The continuation of the request of [p]: the result is stored, the request
    forgotten, and the waiting handlers go on in order.  The place of [p]
    stays taken. *)
Definition keyDone (p : nat) (id : Z) (suppressError : bool) (r : res string) (s : table) : table :=
  let r := match r with
           | Ok k => Ok k
           | Throw e => Throw (if decide (e = "") then t "获取令牌密钥失败" else e)
           end in
  let ws := default [] (waiting s !! p) in
  let s := match r with
           | Ok k => setResolved (<[id := k]> (resolvedTokenKeys s)) s
           | Throw e => if suppressError then s else showError (VStr e) s
           end in
  let s := setRequests (loadingTokenKeys s ∖ {[id]}) (delete id (keyRequests s)) (<[p := []]> (waiting s)) s in
  foldl (λ s w, resume r w s) s ws.

Definition toggleTokenVisibility (id : Z) (s : table) : table :=
  if decide (id = 0%Z) then s
  else if default false (showKeys s !! id) then setShowKeys (<[id := false]> (showKeys s)) s
  else fetchTokenKey false id (WToggle id) s.

Definition copyTokenKey (id : Z) (s : table) : table := fetchTokenKey false id (WCopy id) s.

Definition onOpenLink (url : string) (id : Z) (s : table) : table := fetchTokenKey false id (WLink url id) s.

(** ** Batches *)

(** The selected rows. *)
Definition selected (s : table) : list token := omap (λ l, heap s !! l) (selectedKeys s).

Definition batchCopyTokens (c : copy_type) (s : table) : table :=
  match selected s with
  | [] => showError (VStr (t "请至少选择一个令牌！")) s
  | l =>
      let b := fresh (dom (batches s)) in
      let records := (λ k, (tk_id k, tk_name k)) <$> l in
      let s := setBatches (<[b := Batch c records (replicate (length records) None) false]> (batches s)) s in
      foldl (λ s '(i, id), fetchTokenKey true id (WBatch b i) s) s (imap (λ i r, (i, r.1)) records)
  end.

Definition batchDeleteTokens (s : table) : table :=
  match selected s with
  | [] => showError (VStr (t "请先选择要删除的令牌！")) s
  | l => await (TBatchDelete (length (tokens s)) (activePage s) (pageSize s))
           (emit (Post "/api/token/batch" (tk_id <$> l)) (setLoading true s))
  end.

(** [page] and [size] are those of the handler. *)
Definition batchDeleted (shown : nat) (page size : Z) (r : reply Z) (s : table) : table :=
  match r with
  | Rejected e => setLoading false (showError (VStr e) s)
  | Refused m => setLoading false (showError (js_or m (VStr (t "删除失败"))) s)
  | Served count =>
      loadTokens page size (AfterDelete shown page)
        (emit (ShowSuccess "已删除 {{count}} 个令牌！" [("count", VNum (num_of_Z count))]) s)
  end.

(** The timer of the handler: the rows and the page it knew. *)
Definition goBack (shown : nat) (page size : Z) (s : table) : table :=
  if decide (shown = 0) then if (1 <? page)%Z then loadTokens (page - 1) size ClearSelection s else s else s.

(** ** Editing *)

Definition openEdit (id : option Z) (s : table) : table := setEdit true id s.
Definition closeEdit (s : table) : table := await TForgetEdit (setEdit false (editingToken s) s).
Definition forgetEdit (s : table) : table := setEdit (showEdit s) None s.
End keys.

(** ** Sessions *)

Section sessions.
Variable t : string → string.
Variable locale_le : string → string → Prop.
Context `{!RelDecision locale_le}.
Variable origin : string.
Variable status : option string.
(** The keys the service keeps. *)
Variable key_of : Z → string.

(** The page after mounting: the effect loads the first page. *)
Definition mount : table := loadTokens 1 ITEMS_PER_PAGE CatchShow initial.

Definition without (i : nat) (s : table) : table := setTasks (delete i (tasks s)) s.

(** Answers about keys are the keys of the service; everything else is
    arbitrary. *)
Inductive step : table → table → Prop :=
| step_page p f s : step s (handlePageChange p f s)
| step_size n f s : step s (handlePageSizeChange n f s)
| step_search p n f s : step s (searchTokens p n f s)
| step_refresh p s : step s (refresh p s)
| step_manage a l k s : l ∈ tokens s → heap s !! l = Some k → step s (manageToken (tk_id k) a l s)
| step_sort key s : step s (sortToken locale_le key s)
| step_select ls s : step s (setSelectedKeys ls s)
| step_edit id s : step s (openEdit id s)
| step_close s : step s (closeEdit s)
| step_toggle l k s : heap s !! l = Some k → step s (toggleTokenVisibility t origin status (tk_id k) s)
| step_copy l k s : heap s !! l = Some k → step s (copyTokenKey t origin status (tk_id k) s)
| step_link url l k s : heap s !! l = Some k → step s (onOpenLink t origin status url (tk_id k) s)
| step_batch c s : step s (batchCopyTokens t origin status c s)
| step_delete s : step s (batchDeleteTokens t s)
| step_loaded i size k r s : tasks s !! i = Some (TLoad size k) → step s (loadDone size k r (without i s))
| step_searched i size r s : tasks s !! i = Some (TSearch size) → step s (searchDone size r (without i s))
| step_managed i a l rows r s : tasks s !! i = Some (TManage a l rows) → step s (manageDone a l rows r (without i s))
| step_key i p id b r s : tasks s !! i = Some (TKey p id b) →
    (∀ k, fetchTokenKeyById r = Ok k → k = key_of id) →
    step s (keyDone t origin status p id b (fetchTokenKeyById r) (without i s))
| step_deleted i shown p n r s : tasks s !! i = Some (TBatchDelete shown p n) →
    step s (batchDeleted t shown p n r (without i s))
| step_goBack i shown p n s : tasks s !! i = Some (TGoBack shown p n) → step s (goBack shown p n (without i s))
| step_copied i text ok s : tasks s !! i = Some (TCopy text) → step s (copyDone text ok (without i s))
| step_forget i s : tasks s !! i = Some TForgetEdit → step s (forgetEdit (without i s)).

(** *** The invariant of the keys *)

Definition key_task (k : task) : option (nat * Z) := match k with TKey p id _ => Some (p, id) | _ => None end.
Definition key_tasks (s : table) : list (nat * Z) := omap key_task (tasks s).

Definition clip (e : effect) : option (option copy_type * list (Z * string) * string) :=
  match e with Clip c l text => Some (c, l, text) | _ => None end.
Definition clips (s : table) : list (option copy_type * list (Z * string) * string) := omap clip (effects s).

(** What should be on the clipboard. *)
Definition clip_text (c : option copy_type) (records : list (Z * string)) : string :=
  match c with
  | None => match records with (id, _) :: _ => "sk-" +:+ key_of id | [] => "" end
  | Some c => batch_text c ((λ r, (r.2, key_of r.1)) <$> records)
  end.

(** The token a handler waits for. *)
Definition wants (bs : gmap nat batch) (w : waiter) (id : Z) : Prop :=
  match w with
  | WToggle i | WCopy i | WLink _ i => i = id
  | WBatch b i => ∃ x name, bs !! b = Some x ∧ b_records x !! i = Some (id, name)
  end.

Definition batch_ok (x : batch) : Prop :=
  length (b_keys x) = length (b_records x) ∧
  ∀ i k, b_keys x !! i = Some (Some k) → ∃ id name, b_records x !! i = Some (id, name) ∧ k = key_of id.

(** [rem] are the handlers that are being resumed or about to ask. *)
Record kinv (rem : list (waiter * Z)) (s : table) : Prop := {
  k_resolved id k : resolvedTokenKeys s !! id = Some k → k = key_of id;
  k_requests id p : keyRequests s !! id = Some p ↔ (p, id) ∈ key_tasks s;
  k_nodup : NoDup (key_tasks s).*1;
  k_loading : loadingTokenKeys s = dom (keyRequests s);
  k_waiting p ws w : waiting s !! p = Some ws → w ∈ ws → ∃ id, (p, id) ∈ key_tasks s ∧ wants (batches s) w id;
  k_places p id : (p, id) ∈ key_tasks s → is_Some (waiting s !! p);
  k_batches : map_Forall (λ _, batch_ok) (batches s);
  k_open b x i : batches s !! b = Some x → b_over x = false → b_keys x !! i = Some None →
    WBatch b i ∈ rem.*1 ∨ ∃ p ws, waiting s !! p = Some ws ∧ WBatch b i ∈ ws;
  k_some b x : batches s !! b = Some x → b_over x = false → ∃ i, b_keys x !! i = Some None;
  k_clips c l text : (c, l, text) ∈ clips s → text = clip_text c l;
  k_rem w id : (w, id) ∈ rem → wants (batches s) w id;
  k_copied b x : batches s !! b = Some x → b_over x = true → is_Some (all_keys (b_keys x)) →
    ∃ text, (Some (b_type x), b_records x, text) ∈ clips s }.

Lemma kinv_frame rem s s' :
  resolvedTokenKeys s' = resolvedTokenKeys s → keyRequests s' = keyRequests s →
  loadingTokenKeys s' = loadingTokenKeys s → waiting s' = waiting s → batches s' = batches s →
  key_tasks s' = key_tasks s → clips s' = clips s → kinv rem s → kinv rem s'.
Proof. intros H1 H2 H3 H4 H5 H6 H7 []. split; rewrite ?H1, ?H2, ?H3, ?H4, ?H5, ?H6, ?H7; done. Qed.

(** Appended tasks that are no key requests, and effects that copy nothing. *)
Lemma key_tasks_await k s : key_task k = None → key_tasks (await k s) = key_tasks s.
Proof. intros Hk. destruct s; unfold key_tasks; simpl. rewrite omap_app. simpl. rewrite Hk. by rewrite app_nil_r. Qed.

Lemma clips_emit e s : clip e = None → clips (emit e s) = clips s.
Proof. intros Hk. destruct s; unfold clips; simpl. rewrite omap_app. simpl. rewrite Hk. by rewrite app_nil_r. Qed.

Lemma wants_unique bs w id id' : wants bs w id → wants bs w id' → id = id'.
Proof. destruct w; simpl; naive_solver. Qed.

Lemma kinv_drop w id rem s :
  kinv ((w, id) :: rem) s →
  (∀ b i x, w = WBatch b i → batches s !! b = Some x → b_over x = false → b_keys x !! i ≠ Some None) →
  kinv rem s.
Proof.
  intros [] Hw. split; try done.
  - intros b x i Hb Ho Hi. destruct (k_open0 b x i Hb Ho Hi) as [[He|]%elem_of_cons|]; [|by left|by right].
    by destruct (Hw b i x (eq_sym He) Hb Ho Hi).
  - intros w' id' H. apply k_rem0. by right.
Qed.

Lemma kinv_clip rem s c l text : kinv rem s → text = clip_text c l → kinv rem (copyText c l text s).
Proof.
  intros Hs Ht. unfold copyText.
  assert (kinv rem (emit (Clip c l text) s)) as Hs'.
  { destruct Hs. split; try (by destruct s).
    - intros c' l' text'. destruct s; unfold clips; simpl.
      rewrite omap_app, elem_of_app. simpl. rewrite list_elem_of_singleton. naive_solver.
    - intros b x. destruct s; unfold clips in *; simpl in *. rewrite omap_app. intros H1 H2 H3.
      destruct (k_copied0 b x H1 H2 H3) as [text' ?]. exists text'. apply elem_of_app. by left. }
  eapply kinv_frame, Hs'; try (by destruct s). by apply key_tasks_await.
Qed.

Lemma wants_insert bs b x x' w id : bs !! b = Some x → b_records x' = b_records x →
  wants bs w id → wants (<[b := x']> bs) w id.
Proof.
  intros Hb Hr. destruct w as [| | |b' i]; simpl; try done. intros (y & name & Hy & Hi).
  destruct (decide (b' = b)) as [->|]; [|rewrite lookup_insert_ne by done; eauto].
  rewrite lookup_insert_eq. simplify_eq. exists x', name. by rewrite Hr.
Qed.

Lemma kinv_batch b i id rem s x x' :
  kinv ((WBatch b i, id) :: rem) s → batches s !! b = Some x → b_records x' = b_records x → batch_ok x' →
  b_over x = false →
  (b_over x' = false → (∃ j, b_keys x' !! j = Some None) ∧ ∀ j, b_keys x' !! j = Some None → j ≠ i ∧ b_keys x !! j = Some None) →
  (is_Some (all_keys (b_keys x')) → ∃ text, (Some (b_type x'), b_records x', text) ∈ clips s) →
  kinv rem (setBatches (<[b := x']> (batches s)) s).
Proof.
  intros [] Hb Hr Hok Ho Hn Hc. destruct s; simpl in *. split; simpl; try done.
  - intros p ws w Hp Hw. destruct (k_waiting0 p ws w Hp Hw) as (id' & ? & ?). exists id'. split; [done|]. by eapply wants_insert.
  - by apply map_Forall_insert_2.
  - intros b' y j Hy Hyo Hj. destruct (decide (b' = b)) as [->|Hne].
    + rewrite lookup_insert_eq in Hy. simplify_eq. apply Hn in Hj as [Hji Hj]; [|done].
      destruct (k_open0 b x j Hb Ho Hj) as [[He|]%elem_of_cons|]; [by injection He|by left|by right].
    + rewrite lookup_insert_ne in Hy by done.
      destruct (k_open0 b' y j Hy Hyo Hj) as [[He|]%elem_of_cons|]; [by injection He|by left|by right].
  - intros b' y Hy Hyo. destruct (decide (b' = b)) as [->|Hne].
    + rewrite lookup_insert_eq in Hy. simplify_eq. by apply Hn.
    + rewrite lookup_insert_ne in Hy by done. eauto.
  - intros w id' Hw. eapply wants_insert; [done..|]. apply k_rem0. by right.
  - intros b' y Hy Hyo. destruct (decide (b' = b)) as [->|Hne].
    + rewrite lookup_insert_eq in Hy. simplify_eq. by intros ?%Hc.
    + rewrite lookup_insert_ne in Hy by done. by apply (k_copied0 b').
Qed.

Lemma all_keys_Some l ks : all_keys l = Some ks → l = Some <$> ks.
Proof.
  revert ks. induction l as [|[k|] l IH]; intros ks; simpl; [by intros [= <-]| |done].
  destruct (all_keys l) as [ks'|]; simpl; [|done]. intros [= <-]. rewrite fmap_cons. f_equal. by apply IH.
Qed.

Lemma all_keys_None l : all_keys l = None → ∃ i, l !! i = Some None.
Proof.
  induction l as [|[k|] l IH]; simpl; [done| |by exists 0].
  destruct (all_keys l); [done|]. intros _. destruct (IH eq_refl) as [i Hi]. by exists (S i).
Qed.

Lemma zip_names (l : list (Z * string)) ks :
  length ks = length l → (∀ i k, ks !! i = Some k → ∃ id name, l !! i = Some (id, name) ∧ k = key_of id) →
  zip l.*2 ks = (λ r, (r.2, key_of r.1)) <$> l.
Proof.
  revert ks. induction l as [|[id n] l IH]; intros [|k ks] Hlen H; simplify_eq/=; [done|]. f_equal.
  - destruct (H 0 k eq_refl) as (? & ? & [= <- <-] & ->). done.
  - apply IH; [done|]. intros i k' Hi. exact (H (S i) k' Hi).
Qed.

Lemma insert_other {A} (l : list A) i j x : (<[i := x]> l) !! j = if decide (i = j ∧ i < length l) then Some x else l !! j.
Proof.
  case_decide as H; [destruct H as [-> H]; by apply list_lookup_insert_eq|].
  destruct (decide (i = j)) as [->|]; [|by apply list_lookup_insert_ne].
  rewrite list_insert_ge by lia. done.
Qed.

Lemma batch_ok_insert x i id name :
  batch_ok x → b_records x !! i = Some (id, name) →
  batch_ok (Batch (b_type x) (b_records x) (<[i := Some (key_of id)]> (b_keys x)) false).
Proof.
  intros [Hl Hk] Hi. split; simpl; [by rewrite length_insert|]. intros j k. rewrite insert_other.
  case_decide as H; [|apply Hk]. intros [= <-]. destruct H as [-> _]. eauto.
Qed.

Lemma kinv_resume r w id rem s :
  kinv ((w, id) :: rem) s → (∀ k, r = Ok k → k = key_of id) → kinv rem (resume t origin status r w s).
Proof.
  intros Hs Hr. pose proof (k_rem _ _ Hs w id ltac:(by left)) as Hw.
  destruct w as [id'|id'|url id'|b i].
  1-3: simpl in Hw; subst id'; apply kinv_drop in Hs; [|done].
  - destruct r as [k|e]; [|done]. simpl. case_decide; [done|]. eapply kinv_frame, Hs; by destruct s.
  - destruct r as [k|e]; [|done]. simpl. apply kinv_clip; [done|]. simpl. by rewrite (Hr k eq_refl).
  - destruct r as [k|e]; [|done]. simpl. unfold open_link.
    repeat case_match; try done; (eapply kinv_frame, Hs; try (by destruct s); by apply clips_emit).
  - destruct Hw as (x & name & Hb & Hi).
    destruct (b_over x) eqn:Ho.
    { assert (kinv rem s) by (eapply kinv_drop; [done|]; intros b' i' x' [= <- <-] Hb' Ho'; congruence).
      destruct r; simpl; [unfold batch_key|unfold batch_failed]; by rewrite Hb, Ho. }
    pose proof (k_batches _ _ Hs b x Hb) as Hok. destruct r as [k|e]; simpl.
    + unfold batch_key. rewrite Hb, Ho. rewrite (Hr k eq_refl). pose proof (batch_ok_insert x i id name Hok Hi) as Hok'.
      destruct (all_keys _) as [ks|] eqn:Hks.
      * pose proof Hks as Hks'. apply all_keys_Some in Hks'. rewrite Hks' in *.
        set (x' := Batch _ _ _ true). set (text := batch_text _ _).
        assert (text = clip_text (Some (b_type x)) (b_records x)) as Htext.
        { unfold text. simpl. f_equal. apply zip_names.
          - destruct Hok' as [Hlen _]. simpl in Hlen. by rewrite length_fmap in Hlen.
          - intros j k' Hj. apply (proj2 Hok' j k'). simpl. by rewrite list_lookup_fmap, Hj. }
        replace (copyText (Some (b_type x)) (b_records x) text (setBatches (<[b := x']> (batches s)) s))
          with (setBatches (<[b := x']> (batches (copyText (Some (b_type x)) (b_records x) text s)))
                 (copyText (Some (b_type x)) (b_records x) text s)) by by destruct s.
        eapply (kinv_batch b i id rem _ x); [by apply kinv_clip|by destruct s|done|done|done|done|].
        intros _. exists text. destruct s; unfold clips; simpl. rewrite omap_app. apply elem_of_app. right. by left.
      * pose proof (all_keys_None _ Hks) as Hn. eapply kinv_batch; try done; simpl; [|intros [ks ?]; congruence].
        intros _. split; [done|].
        intros j. rewrite insert_other. case_decide as Hd; [done|]. intros Hj. split; [|done]. intros ->.
        apply Hd. split; [done|]. by eapply lookup_lt_Some.
    + unfold batch_failed. rewrite Hb, Ho. eapply (kinv_frame _ (setBatches _ s)); cycle -1;
        [|try (by destruct s)..]; [|by apply clips_emit].
      eapply kinv_batch; try done. simpl. intros [ks Hks%all_keys_Some].
      destruct (k_some _ _ Hs b x Hb Ho) as [j Hj]. rewrite Hks, list_lookup_fmap in Hj. by destruct (ks !! j).
Qed.

Lemma kinv_show e rem s : kinv rem s → kinv rem (showError e s).
Proof. intros Hs. eapply kinv_frame, Hs; try (by destruct s). by apply clips_emit. Qed.

(** A handler joins the waiting ones of a request for its token. *)
Lemma kinv_join p id w rem s ws :
  kinv ((w, id) :: rem) s → (p, id) ∈ key_tasks s → default [] (waiting s !! p) = ws →
  kinv rem (setRequests (loadingTokenKeys s) (keyRequests s) (<[p := ws ++ [w]]> (waiting s)) s).
Proof.
  intros [] Hp Hws. destruct s; simpl in *. split; simpl; try done.
  - intros p' ws' w'. destruct (decide (p' = p)) as [->|Hne].
    + rewrite lookup_insert_eq. intros [= <-] [Hw|Hw]%elem_of_app.
      * rewrite <-Hws in Hw. destruct (waiting0 !! p) as [ws'|] eqn:E; [by eapply k_waiting0|by apply elem_of_nil in Hw].
      * apply list_elem_of_singleton in Hw as ->. exists id. split; [done|]. apply k_rem0. by left.
    + rewrite lookup_insert_ne by done. apply k_waiting0.
  - intros p' id' [? ?]%k_places0. apply lookup_insert_is_Some'. by right.
  - intros b x i Hb Ho Hi. destruct (k_open0 b x i Hb Ho Hi) as [[He|]%elem_of_cons|(p' & ws' & Hp' & Hi')].
    + right. exists p, (ws ++ [w]). rewrite lookup_insert_eq. split; [done|]. simpl in He. set_solver.
    + by left.
    + right. destruct (decide (p' = p)) as [->|Hne].
      * exists p, (ws ++ [w]). rewrite lookup_insert_eq. split; [done|]. rewrite Hp' in Hws. simpl in Hws. subst. set_solver.
      * exists p', ws'. by rewrite lookup_insert_ne.
  - intros w' id' H. apply k_rem0. by right.
Qed.

(** A new request, with one handler waiting. *)
Lemma kinv_request p id b w rem s :
  kinv ((w, id) :: rem) s → keyRequests s !! id = None → waiting s !! p = None →
  kinv rem (await (TKey p id b)
    (setRequests ({[id]} ∪ loadingTokenKeys s) (<[id := p]> (keyRequests s)) (<[p := [w]]> (waiting s)) s)).
Proof.
  intros Hs Hid Hp. set (s' := await _ _).
  assert (key_tasks s' = key_tasks s ++ [(p, id)]) as Hk by (destruct s; unfold key_tasks; simpl; by rewrite omap_app).
  assert (∀ id', (p, id') ∉ key_tasks s) as Hpk.
  { intros id' H. apply (k_places _ _ Hs) in H as [? ?]. congruence. }
  destruct Hs. subst s'. split; rewrite ?Hk.
  - by destruct s.
  - intros id' p'. destruct s; simpl in *. rewrite elem_of_app, list_elem_of_singleton.
    destruct (decide (id' = id)) as [->|].
    + rewrite lookup_insert_eq. split; [intros [= ->]; by right|]. intros [H|[= ->]]; [|done].
      apply k_requests0 in H. congruence.
    + rewrite lookup_insert_ne by done. rewrite k_requests0. naive_solver.
  - rewrite fmap_app. apply NoDup_app. split; [done|]. split; [|apply NoDup_singleton].
    intros q ([q' id'] & -> & H)%list_elem_of_fmap. simpl. rewrite list_elem_of_singleton. intros ->. by apply (Hpk id').
  - destruct s; simpl in *. rewrite k_loading0. by rewrite dom_insert_L.
  - destruct s; simpl in *. intros p' ws' w'. setoid_rewrite elem_of_app. destruct (decide (p' = p)) as [->|Hne].
    + rewrite lookup_insert_eq. intros [= <-] ->%list_elem_of_singleton. exists id. split; [right; by left|].
      apply k_rem0. by left.
    + rewrite lookup_insert_ne by done. intros H1 H2. destruct (k_waiting0 p' ws' w' H1 H2) as (id' & ? & ?). eauto.
  - destruct s; simpl in *. intros p' id'. rewrite elem_of_app, list_elem_of_singleton.
    intros [[? ?]%k_places0|[= -> ->]]; apply lookup_insert_is_Some'; auto.
  - by destruct s.
  - destruct s; simpl in *. intros b' x i Hb Ho Hi.
    destruct (k_open0 b' x i Hb Ho Hi) as [[He|]%elem_of_cons|(p' & ws' & Hp' & Hi')]; [|by left|]; right.
    + exists p, [w]. rewrite lookup_insert_eq. split; [done|]. simpl in He. set_solver.
    + exists p', ws'. rewrite lookup_insert_ne; [done|]. intros ->. congruence.
  - by destruct s.
  - by destruct s.
  - destruct s; simpl in *. intros w' id' H. apply k_rem0. by right.
  - by destruct s.
Qed.

Lemma kinv_fetch b id w rem s :
  kinv ((w, id) :: rem) s → kinv rem (fetchTokenKey t origin status b id w s).
Proof.
  intros Hs. unfold fetchTokenKey. case_decide.
  { apply (kinv_resume _ _ id); [|done]. destruct b; [done|by apply kinv_show]. }
  destruct (resolvedTokenKeys s !! id) as [k|] eqn:Hk.
  { apply (kinv_resume _ _ id); [done|]. intros ? [= <-]. by eapply (k_resolved _ _ Hs). }
  destruct (keyRequests s !! id) as [p|] eqn:Hp.
  { eapply kinv_join; [done| |done]. by apply (k_requests _ _ Hs). }
  eapply kinv_frame; cycle -1.
  - eapply (kinv_request (fresh (dom (waiting s))) id b); [done..|]. apply not_elem_of_dom, is_fresh.
  - by destruct s.
  - by destruct s.
  - by destruct s.
  - by destruct s.
  - by destruct s.
  - by destruct s.
  - destruct s; unfold clips; simpl. by rewrite omap_app, app_nil_r.
Qed.

Lemma kinv_resumes r id ws rem s :
  kinv (((λ w, (w, id)) <$> ws) ++ rem) s → (∀ k, r = Ok k → k = key_of id) →
  kinv rem (foldl (λ s w, resume t origin status r w s) s ws).
Proof.
  revert s. induction ws as [|w ws IH]; intros s Hs Hr; [done|]. simpl in *. apply IH; [|done]. by eapply kinv_resume.
Qed.

(** The answer of a request: its handlers are taken from the waiting ones. *)
Lemma kinv_answer i p id b s :
  kinv [] s → tasks s !! i = Some (TKey p id b) →
  let ws := default [] (waiting s !! p) in
  kinv ((λ w, (w, id)) <$> ws)
    (setRequests (loadingTokenKeys s ∖ {[id]}) (delete id (keyRequests s)) (<[p := []]> (waiting s)) (without i s)).
Proof.
  intros Hs Hi ws.
  assert (key_tasks s ≡ₚ (p, id) :: key_tasks (without i s)) as Hk.
  { unfold key_tasks. destruct s; simpl in *. exact (omap_Permutation key_task _ _ (delete_Permutation _ _ _ Hi)). }
  assert (∀ x, x ∈ key_tasks s ↔ x = (p, id) ∨ x ∈ key_tasks (without i s)) as Hin.
  { intros x. rewrite Hk. apply elem_of_cons. }
  destruct Hs.
  assert (NoDup (p :: (key_tasks (without i s)).*1)) as Hnd.
  { pose proof k_nodup0 as H. rewrite Hk in H. exact H. }
  apply NoDup_cons in Hnd as [Hpn Hnd].
  assert (∀ id', (p, id') ∉ key_tasks (without i s)) as Hp'.
  { intros id' H. apply Hpn. apply list_elem_of_fmap. by exists (p, id'). }
  assert (∀ p', (p', id) ∉ key_tasks (without i s)) as Hid.
  { intros p' H. assert (keyRequests s !! id = Some p) as H1 by (apply k_requests0, Hin; by left).
    assert (keyRequests s !! id = Some p') as H2 by (apply k_requests0, Hin; by right).
    simplify_eq. by apply (Hp' id). }
  set (s' := setRequests _ _ _ _).
  assert (key_tasks s' = key_tasks (without i s)) as Hks by by destruct s.
  assert (waiting s' = <[p := []]> (waiting s)) as Hws by by destruct s.
  assert (batches s' = batches s) as Hbs by by destruct s.
  assert (∀ w, w ∈ ws → wants (batches s) w id) as Hwant.
  { intros w Hw. unfold ws in Hw. destruct (waiting s !! p) as [ws'|] eqn:E; [|by apply elem_of_nil in Hw].
    destruct (k_waiting0 p ws' w E Hw) as (id' & Hid' & ?). apply Hin in Hid' as [[= ->]|H']; [done|].
    by destruct (Hp' id'). }
  split; rewrite ?Hks, ?Hws, ?Hbs.
  - by destruct s.
  - intros id' p'. destruct s; simpl in *. destruct (decide (id' = id)) as [->|Hne].
    + rewrite lookup_delete_eq. split; [done|]. intros H. by destruct (Hid p').
    + rewrite lookup_delete_ne by done. rewrite k_requests0, Hin. naive_solver.
  - done.
  - destruct s; simpl in *. rewrite k_loading0, dom_delete_L. done.
  - intros p' ws' w. destruct (decide (p' = p)) as [->|Hne].
    + rewrite lookup_insert_eq. intros [= <-] H%elem_of_nil. done.
    + rewrite lookup_insert_ne by done. intros H1 H2. destruct (k_waiting0 p' ws' w H1 H2) as (id' & H3 & ?).
      exists id'. split; [|done]. apply Hin in H3 as [[= -> ->]|]; done.
  - intros p' id' H. apply lookup_insert_is_Some'. right. eapply k_places0, Hin. by right.
  - done.
  - intros b' x j Hb Ho Hj. rewrite <-list_fmap_compose, list_fmap_id.
    destruct (k_open0 b' x j Hb Ho Hj) as [H|(p' & ws' & H1 & H2)]; [by apply elem_of_nil in H|].
    destruct (decide (p' = p)) as [->|Hne].
    + left. unfold ws. by rewrite H1.
    + right. exists p', ws'. by rewrite lookup_insert_ne.
  - done.
  - by destruct s.
  - intros w id' (w' & [= -> ->] & Hw)%list_elem_of_fmap. by apply Hwant.
  - by destruct s.
Qed.

Lemma kinv_keyDone i p id b r s :
  kinv [] s → tasks s !! i = Some (TKey p id b) → (∀ k, r = Ok k → k = key_of id) →
  kinv [] (keyDone t origin status p id b r (without i s)).
Proof.
  intros Hs Hi Hr. pose proof (kinv_answer i p id b s Hs Hi) as Ha. cbn zeta in Ha. unfold keyDone.
  assert (waiting (without i s) = waiting s) as -> by by destruct s.
  eapply (kinv_resumes _ id); rewrite ?app_nil_r; [|intros k; destruct r; naive_solver].
  destruct r as [k|e].
  - destruct Ha. split; try (by destruct s). intros id' k'. destruct s; simpl in *.
    destruct (decide (id' = id)) as [->|]; [rewrite lookup_insert_eq; intros [= <-]; by apply Hr|].
    rewrite lookup_insert_ne by done. apply k_resolved0.
  - destruct b; [eapply kinv_frame, Ha; by destruct s|].
    eapply kinv_frame, Ha; try (by destruct s). destruct s; unfold clips; simpl. by rewrite omap_app, app_nil_r.
Qed.

Lemma kinv_fetches b L s :
  kinv ((λ x, (WBatch b x.1, x.2)) <$> L) s →
  kinv [] (foldl (λ s '(i, id), fetchTokenKey t origin status true id (WBatch b i) s) s L).
Proof. revert s. induction L as [|[i id] L IH]; intros s Hs; [done|]. simpl in *. by apply IH, kinv_fetch. Qed.

Lemma elem_of_requests (records : list (Z * string)) i id :
  (i, id) ∈ imap (λ i r, (i, r.1)) records ↔ ∃ name, records !! i = Some (id, name).
Proof.
  rewrite list_elem_of_lookup. setoid_rewrite list_lookup_imap. split.
  - intros [j Hj]. destruct (records !! j) as [[? n]|] eqn:E; simplify_eq/=. eauto.
  - intros [n Hn]. exists i. by rewrite Hn.
Qed.

Lemma kinv_batchCopy c s : kinv [] s → kinv [] (batchCopyTokens t origin status c s).
Proof.
  intros Hs. unfold batchCopyTokens. destruct (selected s) as [|k0 ks] eqn:Hsel; [by apply kinv_show|].
  set (records := _ <$> (k0 :: ks)). assert (0 < length records) as Hpos by (simpl; lia).
  clearbody records. clear Hsel. set (b := fresh _). apply kinv_fetches.
  set (x := Batch c records _ false).
  assert (batches s !! b = None) as Hb by apply not_elem_of_dom, is_fresh.
  assert (∀ i, b_keys x !! i = Some None → i < length records) as Hlt.
  { intros i Hi%lookup_lt_Some. simpl in Hi. by rewrite length_replicate in Hi. }
  assert (∀ w id, wants (batches s) w id → wants (<[b := x]> (batches s)) w id) as Hw.
  { intros [?|?|? ?|b' i] id0; simpl; try done. intros (y & n & Hy & Hi). exists y, n. split; [|done].
    rewrite lookup_insert_ne; [done|]. intros ->. congruence. }
  destruct Hs. clearbody b. destruct s; simpl in *. split; simpl; try done.
  - intros p ws w H1 H2. destruct (k_waiting0 p ws w H1 H2) as (id & ? & ?). eauto.
  - apply map_Forall_insert_2; [|done]. split; [apply length_replicate|].
    intros i k Hi. apply lookup_replicate in Hi as [[=] _].
  - intros b' y i. destruct (decide (b' = b)) as [->|Hne].
    + rewrite lookup_insert_eq. intros [= <-] _ Hi. left. apply Hlt in Hi.
      destruct (lookup_lt_is_Some_2 records i Hi) as [[id n] Hr].
      apply list_elem_of_fmap. exists (WBatch b i, id). split; [done|]. apply list_elem_of_fmap. exists (i, id).
      split; [done|]. apply elem_of_requests. by eexists.
    + rewrite lookup_insert_ne by done. intros H1 H2 H3.
      destruct (k_open0 b' y i H1 H2 H3) as [H|]; [by apply elem_of_nil in H|by right].
  - intros b' y. destruct (decide (b' = b)) as [->|Hne]; [|rewrite lookup_insert_ne by done; eauto].
    rewrite lookup_insert_eq. intros [= <-] _. exists 0. simpl. by rewrite lookup_replicate_2.
  - intros w id ([i id'] & [= -> ->] & (n & Hn)%elem_of_requests)%list_elem_of_fmap. simpl. exists x, n.
    by rewrite lookup_insert_eq.
  - intros b' y. destruct (decide (b' = b)) as [->|Hne]; [|rewrite lookup_insert_ne by done; apply (k_copied0 b')].
    rewrite lookup_insert_eq. by intros [= <-].
Qed.

(** *** Everything else leaves the keys alone *)

Lemma kinv_keep (f : table → table) rem s :
  (∀ s, resolvedTokenKeys (f s) = resolvedTokenKeys s ∧ keyRequests (f s) = keyRequests s ∧
        loadingTokenKeys (f s) = loadingTokenKeys s ∧ waiting (f s) = waiting s ∧ batches (f s) = batches s ∧
        tasks (f s) = tasks s ∧ effects (f s) = effects s) →
  kinv rem s → kinv rem (f s).
Proof.
  intros Hf Hs. destruct (Hf s) as (?&?&?&?&?&Ht&He). eapply kinv_frame, Hs; try done.
  - unfold key_tasks. by rewrite Ht.
  - unfold clips. by rewrite He.
Qed.

Lemma kinv_await k rem s : key_task k = None → kinv rem s → kinv rem (await k s).
Proof. intros Hk Hs. eapply kinv_frame, Hs; try (by destruct s). by apply key_tasks_await. Qed.

Lemma kinv_emit e rem s : clip e = None → kinv rem s → kinv rem (emit e s).
Proof. intros He Hs. eapply kinv_frame, Hs; try (by destruct s). by apply clips_emit. Qed.

Lemma kinv_without i k s : tasks s !! i = Some k → key_task k = None → kinv [] s → kinv [] (without i s).
Proof.
  intros Hi Hk Hs. eapply kinv_frame, Hs; try (by destruct s). unfold key_tasks. destruct s; simpl in *.
  clear -Hi Hk. revert i Hi. induction tasks0 as [|k' l IH]; intros [|i] Hi; simplify_eq/=; [by rewrite Hk|].
  destruct (key_task k'); by rewrite IH.
Qed.

Ltac kkeep :=
  repeat first
    [ assumption
    | apply kinv_show
    | apply kinv_await; [reflexivity|]
    | apply kinv_emit; [reflexivity|]
    | match goal with
      | |- kinv _ (if ?b then _ else _) => destruct b
      | |- kinv _ (match ?x with _ => _ end) => destruct x
      | |- kinv _ (?f ?s) =>
          apply (kinv_keep f); [let x := fresh in intros x; destruct x; repeat split; reflexivity|]
      end ].

Lemma kinv_load p n k rem s : kinv rem s → kinv rem (loadTokens p n k s).
Proof. intros. unfold loadTokens. kkeep. Qed.

Lemma kinv_setPageSize n rem s : kinv rem s → kinv rem (setPageSize n s).
Proof. intros. unfold setPageSize. case_decide; [done|]. apply kinv_load. kkeep. Qed.

Lemma kinv_search p n f rem s : kinv rem s → kinv rem (searchTokens p n f s).
Proof. intros. unfold searchTokens. case_decide; [apply kinv_load; kkeep|kkeep]. Qed.

Lemma kinv_sync p n rem s : kinv rem s → kinv rem (syncPageData p n s).
Proof. intros. unfold syncPageData. case_match. apply kinv_setPageSize. kkeep. Qed.

Lemma kinv_loaded k n rem s : kinv rem s → kinv rem (loaded k n s).
Proof. intros. destruct k; simpl; kkeep. Qed.

Lemma kinv_loadDone n k r rem s : kinv rem s → kinv rem (loadDone n k r s).
Proof.
  intros. destruct r; simpl; [destruct k; simpl; kkeep|apply kinv_loaded; kkeep|].
  apply kinv_loaded. apply (kinv_keep (setLoading false)); [by intros []|]. by apply kinv_sync.
Qed.

Lemma kinv_searchDone n r rem s : kinv rem s → kinv rem (searchDone n r s).
Proof.
  intros. destruct r; simpl; [done|kkeep|]. apply (kinv_keep (setSearching false)); [by intros []|].
  apply kinv_sync. kkeep.
Qed.

Lemma kinv_mount : kinv [] mount.
Proof.
  unfold mount. apply kinv_load. split; simpl; try done; try set_solver.
  constructor.
Qed.

Lemma kinv_single w id rem s : wants (batches s) w id → kinv rem s → kinv ((w, id) :: rem) s.
Proof.
  intros Hw []. split; try done; [|intros w' id' [[= -> ->]|]%elem_of_cons; auto].
  intros b x i H1 H2 H3. destruct (k_open0 b x i H1 H2 H3); [left; by right|by right].
Qed.

Lemma kinv_step s s' : step s s' → kinv [] s → kinv [] s'.
Proof.
  intros Hstep Hs. destruct Hstep as [p f s|n f s|p n f s|p s|a l k s|key s|ls s|id s|s|l k s Hl|l k s Hl|url l k s Hl
    |c s|s|i n k r s Hi|i n r s Hi|i a l rows r s Hi|i p id b r s Hi Hr|i m p n r s Hi|i m p n s Hi|i text ok s Hi|i s Hi].
  - unfold handlePageChange. case_match; [by apply kinv_search|by apply kinv_load].
  - unfold handlePageSizeChange. apply kinv_setPageSize. case_match; [by apply kinv_search|by apply kinv_load].
  - by apply kinv_search.
  - by apply kinv_load.
  - unfold manageToken. apply kinv_await; [done|]. apply kinv_emit; [by destruct a|]. kkeep.
  - unfold sortToken. destruct (tokens s); kkeep.
  - kkeep.
  - unfold openEdit. kkeep.
  - unfold closeEdit. kkeep.
  - unfold toggleTokenVisibility. case_decide; [done|]. case_match; [kkeep|]. by apply kinv_fetch, kinv_single.
  - by apply kinv_fetch, kinv_single.
  - by apply kinv_fetch, kinv_single.
  - by apply kinv_batchCopy.
  - unfold batchDeleteTokens. destruct (selected s); kkeep.
  - by eapply kinv_loadDone, kinv_without.
  - by eapply kinv_searchDone, kinv_without.
  - assert (kinv [] (without i s)) by by eapply kinv_without. destruct r; simpl; [done|kkeep|].
    apply (kinv_keep (setLoading false)); [by intros []|]. destruct a; kkeep.
  - by apply kinv_keyDone.
  - assert (kinv [] (without i s)) by by eapply kinv_without. destruct r; simpl; [kkeep|kkeep|]. apply kinv_load. kkeep.
  - assert (kinv [] (without i s)) by by eapply kinv_without. unfold goBack.
    case_decide; [|done]. case_match; [by apply kinv_load|done].
  - assert (kinv [] (without i s)) by by eapply kinv_without. unfold copyDone. destruct ok; kkeep.
  - assert (kinv [] (without i s)) by by eapply kinv_without. unfold forgetEdit. kkeep.
Qed.

Lemma kinv_reachable s : rtc step mount s → kinv [] s.
Proof. apply (rtc_ind_r (kinv [])); [apply kinv_mount|]. intros ?? _ ?. by eapply kinv_step. Qed.

Lemma NoDup_fmap_fst_snd {A B} (l : list (A * B)) :
  NoDup l.*1 → (∀ a a' b, (a, b) ∈ l → (a', b) ∈ l → a = a') → NoDup l.*2.
Proof.
  induction l as [|[a b] l IH]; simpl; [constructor|]. intros [Ha Hnd]%NoDup_cons H. apply NoDup_cons. split.
  - intros ([a' b'] & -> & Hin)%list_elem_of_fmap. simpl in *. assert (a = a') as -> by (apply (H a a' b'); set_solver).
    apply Ha. apply list_elem_of_fmap. by exists (a', b').
  - apply IH; [done|]. intros. eapply H; right; done.
Qed.

(** C15.  Whatever is on the clipboard is right: under every order of answers,
    a copied text consists of the keys the service keeps for exactly the
    tokens that were asked for, with their names where names were wanted, in
    the order of the selection. *)
Theorem clipboard_exact (s : table) (c : option copy_type) (l : list (Z * string)) (text : string) :
  rtc step mount s → Clip c l text ∈ effects s → text = clip_text c l.
Proof.
  intros Hs%kinv_reachable Hin. apply (k_clips _ _ Hs). unfold clips. apply list_elem_of_omap. by eexists.
Qed.

(** Key requests are shared: at most one request per token is under way,
    a token is marked as loading exactly while its request is, and only then
    does anything wait for its key. *)
Theorem one_key_request (s : table) :
  rtc step mount s →
  NoDup (key_tasks s).*2 ∧
  (∀ id, id ∈ loadingTokenKeys s ↔ ∃ p b, TKey p id b ∈ tasks s) ∧
  ∀ p ws w, waiting s !! p = Some ws → w ∈ ws → ∃ id, (p, id) ∈ key_tasks s ∧ wants (batches s) w id.
Proof.
  intros Hs%kinv_reachable. destruct Hs. split; [|split; [|done]].
  - apply NoDup_fmap_fst_snd; [done|]. intros p p' id Hp Hp'. apply k_requests0 in Hp, Hp'. congruence.
  - intros id. rewrite k_loading0, elem_of_dom. unfold is_Some. setoid_rewrite k_requests0.
    unfold key_tasks. setoid_rewrite list_elem_of_omap. split.
    + intros (p & [] & Hin & [= -> ->]). eauto.
    + intros (p & b & Hin). exists p, (TKey p id b). done.
Qed.

(** C31.  No batch is left hanging: once no key request is under way nothing
    waits, and every batch has ended: it was copied, exactly, or the key of
    one of its tokens could not be fetched. *)
Theorem batches_end (s : table) :
  rtc step mount s → key_tasks s = [] →
  (∀ p ws, waiting s !! p = Some ws → ws = []) ∧
  map_Forall (λ _ x, b_over x = true ∧
    (Clip (Some (b_type x)) (b_records x) (clip_text (Some (b_type x)) (b_records x)) ∈ effects s ∨
     ∃ i, b_keys x !! i = Some None)) (batches s).
Proof.
  intros Hs%kinv_reachable Hk. destruct Hs. rewrite Hk in *.
  assert (∀ p ws, waiting s !! p = Some ws → ws = []) as Hw.
  { intros p [|w ws] Hp; [done|]. destruct (k_waiting0 p _ w Hp ltac:(by left)) as (id & H%elem_of_nil & _). done. }
  split; [done|]. intros b x Hb.
  assert (b_over x = true) as Ho.
  { destruct (b_over x) eqn:Ho; [done|]. destruct (k_some0 b x Hb Ho) as [i Hi].
    destruct (k_open0 b x i Hb Ho Hi) as [H%elem_of_nil|(p & ws & Hp & Hin)]; [done|]. apply Hw in Hp as ->. by apply elem_of_nil in Hin. }
  split; [done|]. destruct (all_keys (b_keys x)) as [ks|] eqn:Hks; [left|right; by apply all_keys_None].
  destruct (k_copied0 b x Hb Ho ltac:(by rewrite Hks)) as [text Hin].
  pose proof (k_clips0 _ _ _ Hin) as Ht. unfold clips in Hin. apply list_elem_of_omap in Hin as (e & He & Hc).
  destruct e; try done. simplify_eq/=. done.
Qed.
End sessions.

(** ** A session *)

Definition plain_t : string → string := λ x, x.
Definition sample_key (id : Z) : string := "key" +:+ pretty id.
Definition sample_token (id : Z) : token := Token id ("t" +:+ pretty id) 1 [].
Definition sample_page (ids : list Z) (page : Z) : payload := Payload (sample_token <$> ids) 12 page 10.

Definition sample_loaded : table :=
  loadDone 10 CatchShow (Served (sample_page [1; 2]%Z 1)) (without 0 mount).
Definition sample_asked : table := batchCopyTokens plain_t "" None NameAndKey (setSelectedKeys (tokens sample_loaded) sample_loaded).
Definition sample_answer (id : Z) (s : table) : table :=
  keyDone plain_t "" None (default 0 (keyRequests s !! id)) id true
    (fetchTokenKeyById (KeyReply true (Some (sample_key id)) "")) (without 0 s).
Definition sample_copied : table := sample_answer 2 (sample_answer 1 sample_asked).

Abbreviation sample_step := (step plain_t String.le "" None sample_key).

Lemma sample_asked_reachable : rtc sample_step mount sample_asked.
Proof.
  eapply rtc_l; [apply (step_loaded _ _ _ _ _ 0 10 CatchShow (Served (sample_page [1; 2]%Z 1))); reflexivity|].
  eapply rtc_l; [apply (step_select _ _ _ _ _ (tokens sample_loaded))|].
  eapply rtc_l; [|apply rtc_refl]. apply (step_batch _ _ _ _ _ NameAndKey).
Qed.

Lemma sample_copied_reachable : rtc sample_step mount sample_copied.
Proof.
  etransitivity; [apply sample_asked_reachable|].
  eapply rtc_l; [apply (step_key _ _ _ _ _ 0 0 1 true (KeyReply true (Some (sample_key 1)) "")); [vm_compute; reflexivity|]|].
  { vm_compute. by intros k [= <-]. }
  eapply rtc_l; [apply (step_key _ _ _ _ _ 0 1 2 true (KeyReply true (Some (sample_key 2)) "")); [vm_compute; reflexivity|]|].
  { vm_compute. by intros k [= <-]. }
  apply rtc_refl.
Qed.

Lemma sample_clip :
  Clip (Some NameAndKey) [(1%Z, "t1"); (2%Z, "t2")]
    ("t1    sk-key1" +:+ String NL "" +:+ "t2    sk-key2" +:+ String NL "") ∈ effects sample_copied.
Proof. vm_compute. repeat first [left; reflexivity|right]. Qed.

Lemma clipboard_exact_witness :
  "t1    sk-key1" +:+ String NL "" +:+ "t2    sk-key2" +:+ String NL ""
  = clip_text sample_key (Some NameAndKey) [(1%Z, "t1"); (2%Z, "t2")].
Proof.
  exact (clipboard_exact plain_t String.le "" None sample_key sample_copied _ _ _ sample_copied_reachable sample_clip).
Defined.

Lemma one_key_request_witness : NoDup (key_tasks sample_asked).*2 ∧ length (key_tasks sample_asked) = 2.
Proof.
  split; [|reflexivity]. exact (proj1 (one_key_request plain_t String.le "" None sample_key sample_asked sample_asked_reachable)).
Defined.

Lemma batches_end_witness : map_Forall (λ _ x, b_over x = true ∧
    (Clip (Some (b_type x)) (b_records x) (clip_text sample_key (Some (b_type x)) (b_records x)) ∈ effects sample_copied ∨
     ∃ i, b_keys x !! i = Some None)) (batches sample_copied).
Proof.
  exact (proj2 (batches_end plain_t String.le "" None sample_key sample_copied sample_copied_reachable
    ltac:(vm_compute; reflexivity))).
Defined.

(** Changing the page size of a search also loads the first page of all
    tokens, which ends the search. *)
Lemma page_size_ends_search :
  let s := setSearchMode true sample_loaded in
  let s' := handlePageSizeChange 20 (Form "a" "") s in
  tasks s' = [TSearch 10; TLoad 20 CatchShow] ∧ searchMode s' = false.
Proof. vm_compute. done. Qed.

(** The rows of the second page are replaced by those of the first when the
    answer of a status change arrives after the page was turned. *)
Lemma stale_rows_restored :
  let s := manageToken 1 Disable 0 sample_loaded in
  let s := loadTokens 2 10 Plain s in
  let s := loadDone 10 Plain (Served (sample_page [11; 12]%Z 2)) (without 1 s) in
  let s' := manageDone Disable 0 (tokens sample_loaded) (Served 2%Z) (without 0 s) in
  omap (row_id s) (tokens s) = [11; 12]%Z ∧ activePage s' = 2%Z ∧ omap (row_id s') (tokens s') = [1; 2]%Z.
Proof. vm_compute. done. Qed.

(** Deleting all tokens of the last page leaves an empty page: the timer looks
    at the rows of before the deletion. *)
Lemma empty_page_stays :
  let s := loadDone 10 Plain (Served (sample_page [11; 12]%Z 2)) (without 0 mount) in
  let s := batchDeleteTokens plain_t (setSelectedKeys (tokens s) s) in
  let s := batchDeleted plain_t 2 2 10 (Served 2%Z) (without 0 s) in
  let s := loadDone 10 (AfterDelete 2 2) (Served (Payload [] 10 2 10)) (without 0 s) in
  tasks s = [TGoBack 2 2 10] ∧ tokens s = [] ∧ goBack 2 2 10 (without 0 s) = without 0 s.
Proof. vm_compute. done. Qed.
