(* ===== verification/TopUp.v ===== *)
(** * The top-up page

    [web/src/components/topup/index.jsx] with the controls of
    [RechargeCard.jsx] and [modals/PaymentConfirmModal.jsx]: redemption codes,
    payments by the ways the service offers, products, the transfer of
    invitation quota and the subscription preference.

    A handler runs up to its first [await] and leaves the rest as a task with
    the values of its render that it still reads.  The effect [Pay] carries,
    beside the body of the request, the count and the minimum of the render in
    which the payment was confirmed.  Answers of the service are typed as it
    sends them, except where the page itself checks or parses them. *)
From Stdlib Require Import Ascii SpecFloat.
From stdpp Require Import relations.
From S2P Require Import Prelude JsString JsNumber JsValue Json Render FormCompat.

(** ** Data *)

Record user := User { quota : num; u_fields : obj }.

Record status := Status {
  st_min_topup : num; st_top_up_link : string; st_online : bool; st_stripe : bool; st_price : num }.

(** The answer of [/api/user/topup/info]. *)
Record info := Info {
  i_amount_options : list num; i_discount : jsval; i_pay_methods : jsval;
  i_online : bool; i_stripe : bool; i_creem : bool; i_min_topup : num; i_stripe_min_topup : num;
  i_creem_products : string }.

Record preset := Preset { p_value : num; p_discount : jsval }.

Inductive effect :=
| Quote (stripe : bool) (value : num)
| Pay (way : string) (value count minimum : num)
| PayCreem (product_id : jsval) | Redeem (key : string) | Transfer (value : num) | PutPreference (pref : jsval)
| Get (url : string) | CopyText (text : string)
| ShowError (e : jsval) | ShowInfo (text : string) | ShowSuccess (text : jsval) | ModalSuccess (content : string)
| ToastError (content : string)
| Open (url : jsval) | SubmitForm (url : jsval) (fields : obj) (blank : bool).

(** What follows a question for the amount: nothing, the opening of the
    confirmation, or the payment. *)
Inductive after := NoMore | ThenConfirm (count minimum : num) | ThenPay (way : string) (count minimum : num).

Inductive task :=
| TAmount (k : after) | TPay (way : string) | TCreem | TRedeem (u : option user) | TUser | TPlans | TSubs
| TPreference (previous pref : jsval) | TInfo (generate : bool) | TAff | TTransfer | TCopy.

(** The state hooks, by subject. *)
Record payment := Payment {
  amount : num; minTopUp : num; topUpCount : num; open : bool; payWay : string;
  amountLoading : bool; paymentLoading : bool; confirmLoading : bool;
  creemOpen : bool; selectedCreemProduct : jsval; selectedPreset : option num }.

Record config := Config {
  topUpLink : string; priceRatio : num; statusLoading : bool;
  enableOnlineTopUp : bool; enableStripeTopUp : bool; enableCreemTopUp : bool;
  creemProducts : jsval; payMethods : list obj; presetAmounts : list preset;
  amount_options : list num; discount : jsval }.

Record account := Account {
  theUser : option user; redemptionCode : string; isSubmitting : bool; affLink : string; openTransfer : bool;
  transferAmount : num; openHistory : bool }.

Record subscriptions := Subscriptions {
  subscriptionPlans : jsval; subscriptionLoading : bool; billingPreference : jsval;
  activeSubscriptions : jsval; allSubscriptions : jsval }.

Record page := Page {
  pay : payment; conf : config; acc : account; subs : subscriptions; countForm : option form;
  tasks : list task; effects : list effect }.

Definition setPay (f : payment → payment) (s : page) : page :=
  Page (f (pay s)) (conf s) (acc s) (subs s) (countForm s) (tasks s) (effects s).
Definition setConf (f : config → config) (s : page) : page :=
  Page (pay s) (f (conf s)) (acc s) (subs s) (countForm s) (tasks s) (effects s).
Definition setAcc (f : account → account) (s : page) : page :=
  Page (pay s) (conf s) (f (acc s)) (subs s) (countForm s) (tasks s) (effects s).
Definition setSubs (f : subscriptions → subscriptions) (s : page) : page :=
  Page (pay s) (conf s) (acc s) (f (subs s)) (countForm s) (tasks s) (effects s).
Definition setCountForm (f : option form) (s : page) : page :=
  Page (pay s) (conf s) (acc s) (subs s) f (tasks s) (effects s).
Definition setTasks (l : list task) (s : page) : page :=
  Page (pay s) (conf s) (acc s) (subs s) (countForm s) l (effects s).
Definition emit (e : effect) (s : page) : page :=
  Page (pay s) (conf s) (acc s) (subs s) (countForm s) (tasks s) (effects s ++ [e]).

Definition await (k : task) (s : page) : page := setTasks (tasks s ++ [k]) s.
Definition showError (e : jsval) (s : page) : page := emit (ShowError e) s.

Definition setAmount (x : num) : page → page :=
  setPay (λ '(Payment _ b c d e f g h i j k), Payment x b c d e f g h i j k).
Definition setMinTopUp (x : num) : page → page :=
  setPay (λ '(Payment a _ c d e f g h i j k), Payment a x c d e f g h i j k).
Definition setTopUpCount (x : num) : page → page :=
  setPay (λ '(Payment a b _ d e f g h i j k), Payment a b x d e f g h i j k).
Definition setOpen (x : bool) : page → page :=
  setPay (λ '(Payment a b c _ e f g h i j k), Payment a b c x e f g h i j k).
Definition setPayWay (x : string) : page → page :=
  setPay (λ '(Payment a b c d _ f g h i j k), Payment a b c d x f g h i j k).
Definition setAmountLoading (x : bool) : page → page :=
  setPay (λ '(Payment a b c d e _ g h i j k), Payment a b c d e x g h i j k).
Definition setPaymentLoading (x : bool) : page → page :=
  setPay (λ '(Payment a b c d e f _ h i j k), Payment a b c d e f x h i j k).
Definition setConfirmLoading (x : bool) : page → page :=
  setPay (λ '(Payment a b c d e f g _ i j k), Payment a b c d e f g x i j k).
Definition setCreem (x : bool) (y : jsval) : page → page :=
  setPay (λ '(Payment a b c d e f g h _ _ k), Payment a b c d e f g h x y k).
Definition setSelectedPreset (x : option num) : page → page :=
  setPay (λ '(Payment a b c d e f g h i j _), Payment a b c d e f g h i j x).

Definition setStatus (link : string) (price : num) : page → page :=
  setConf (λ '(Config _ _ _ d e f g h i j k), Config link price false d e f g h i j k).
Definition setEnabled (online stripe creem : bool) : page → page :=
  setConf (λ '(Config a b c _ _ _ g h i j k), Config a b c online stripe creem g h i j k).
Definition setCreemProducts (x : jsval) : page → page :=
  setConf (λ '(Config a b c d e f _ h i j k), Config a b c d e f x h i j k).
Definition setPayMethods (x : list obj) : page → page :=
  setConf (λ '(Config a b c d e f g _ i j k), Config a b c d e f g x i j k).
Definition setPresetAmounts (x : list preset) : page → page :=
  setConf (λ '(Config a b c d e f g h _ j k), Config a b c d e f g h x j k).
Definition setTopupInfo (x : list num) (y : jsval) : page → page :=
  setConf (λ '(Config a b c d e f g h i _ _), Config a b c d e f g h i x y).

Definition setUser (x : option user) : page → page :=
  setAcc (λ '(Account _ b c d e f g), Account x b c d e f g).
Definition setRedemptionCode (x : string) : page → page :=
  setAcc (λ '(Account a _ c d e f g), Account a x c d e f g).
Definition setIsSubmitting (x : bool) : page → page :=
  setAcc (λ '(Account a b _ d e f g), Account a b x d e f g).
Definition setAffLink (x : string) : page → page :=
  setAcc (λ '(Account a b c _ e f g), Account a b c x e f g).
Definition setOpenTransfer (x : bool) : page → page :=
  setAcc (λ '(Account a b c d _ f g), Account a b c d x f g).
Definition setTransferAmount (x : num) : page → page :=
  setAcc (λ '(Account a b c d e _ g), Account a b c d e x g).
Definition setOpenHistory (x : bool) : page → page :=
  setAcc (λ '(Account a b c d e f _), Account a b c d e f x).

Definition setPlans (x : jsval) : page → page :=
  setSubs (λ '(Subscriptions _ b c d e), Subscriptions x b c d e).
Definition setSubscriptionLoading (x : bool) : page → page :=
  setSubs (λ '(Subscriptions a _ c d e), Subscriptions a x c d e).
Definition setBillingPreference (x : jsval) : page → page :=
  setSubs (λ '(Subscriptions a b _ d e), Subscriptions a b x d e).
Definition setSubscriptions (x y : jsval) : page → page :=
  setSubs (λ '(Subscriptions a b c _ _), Subscriptions a b c x y).

Inductive reply (A : Type) := Rejected | Refused (message : jsval) | Served (data : A).
#[global] Arguments Rejected {A}.
#[global] Arguments Refused {A}.
#[global] Arguments Served {A}.

(** The answer of a payment or an amount: [undefined], or a [message], the
    [data] and, of a payment, a [url]. *)
Inductive answer := Failed | Missing | Answer (message data url : jsval).

Definition Nz (z : Z) : num := num_of_Z z.
Definition is_stripe (way : string) : bool := bool_decide (way = "stripe").

Section page.
Variable t : string → string.
Variable storage : gmap string string.
(** [window.location.origin] and [isSafari]. *)
Variable origin : string.
Variable safari : bool.

(** ** Amounts *)

(** [getAmount] and [getStripeAmount], which differ in the address. *)
Definition getAmount (stripe : bool) (value : option num) (k : after) (s : page) : page :=
  let v := default (topUpCount (pay s)) value in
  await (TAmount k) (emit (Quote stripe (parse_float (num_to_str v))) (setAmountLoading true s)).

(** The answer, inside the [try]. *)
Definition amount_answer (a : answer) (s : page) : page :=
  match a with
  | Failed => s
  | Missing => showError VUndef s
  | Answer message data _ =>
      if is_str "success" message then
        match to_str data with Ok x => setAmount (parse_float x) s | Throw _ => s end
      else
        let s := setAmount (Nz 0) s in
        match to_str data with Ok x => emit (ToastError ("错误：" +:+ x)) s | Throw _ => s end
  end.

(** The rest of [onlineTopUp] after the amount is known. *)
Definition startPay (way : string) (count minimum : num) (s : page) : page :=
  if num_ltb count minimum then showError (VStr ("充值数量不能小于" +:+ num_to_str minimum)) s
  else await (TPay way) (emit (Pay way (parse_int (num_to_str count)) count minimum) (setConfirmLoading true s)).

(** The rest of [preTopUp]. *)
Definition openConfirm (count minimum : num) (s : page) : page :=
  setPaymentLoading false
    (if num_ltb count minimum then showError (VStr (t "充值数量不能小于" +:+ num_to_str minimum)) s else setOpen true s).

Definition amountDone (k : after) (a : answer) (s : page) : page :=
  let s := setAmountLoading false (amount_answer a s) in
  match k with
  | NoMore => s
  | ThenConfirm count minimum => openConfirm count minimum s
  | ThenPay way count minimum => startPay way count minimum s
  end.

(** ** Payments *)

Definition preTopUp (payment : string) (s : page) : page :=
  if is_stripe payment && negb (enableStripeTopUp (conf s)) then showError (VStr (t "管理员未开启Stripe充值！")) s
  else if negb (is_stripe payment) && negb (enableOnlineTopUp (conf s)) then showError (VStr (t "管理员未开启在线充值！")) s
  else getAmount (is_stripe payment) None (ThenConfirm (topUpCount (pay s)) (minTopUp (pay s)))
         (setPaymentLoading true (setPayWay payment s)).

Definition onlineTopUp (s : page) : page :=
  let p := pay s in
  if num_eqb (amount p) (Nz 0) then
    getAmount (is_stripe (payWay p)) None (ThenPay (payWay p) (topUpCount p) (minTopUp p)) s
  else startPay (payWay p) (topUpCount p) (minTopUp p) s.

(** The message of a refused payment. *)
Definition errorMsg (message data : jsval) : jsval :=
  match data with VStr x => VStr x | _ => js_or message (VStr (t "支付失败")) end.

(** What a successful payment does; it may throw. *)
Definition paid (way : string) (data url : jsval) : res effect :=
  if is_stripe way then u ← prop data "pay_link"; Ok (Open u)
  else Ok (SubmitForm url (spread_props data) (negb safari)).

Definition pay_answer (success : res effect) (a : answer) (s : page) : page :=
  match a with
  | Failed => showError (VStr (t "支付请求失败")) s
  | Missing => showError VUndef s
  | Answer message data _ =>
      if is_str "success" message then
        match success with Ok e => emit e s | Throw _ => showError (VStr (t "支付请求失败")) s end
      else showError (errorMsg message data) s
  end.

Definition payDone (way : string) (a : answer) (s : page) : page :=
  let success := match a with Answer _ data url => paid way data url | _ => Throw "" end in
  setConfirmLoading false (setOpen false (pay_answer success a s)).

Definition handleCancel (s : page) : page := setOpen false s.

Definition creemPreTopUp (product : jsval) (s : page) : page :=
  if negb (enableCreemTopUp (conf s)) then showError (VStr (t "管理员未开启 Creem 充值！")) s
  else setCreem true product s.

Definition onlineCreemTopUp (s : page) : page :=
  let product := selectedCreemProduct (pay s) in
  if negb (truthy product) then showError (VStr (t "请选择产品")) s
  else if negb (truthy (prop_opt product "productId")) then showError (VStr (t "产品配置错误，请联系管理员")) s
  else await TCreem (emit (PayCreem (prop_opt product "productId")) (setConfirmLoading true s)).

(** [processCreemCallback]. *)
Definition processCreemCallback (data : jsval) : res effect := u ← prop data "checkout_url"; Ok (Open u).

Definition creemDone (a : answer) (s : page) : page :=
  let success := match a with Answer _ data _ => processCreemCallback data | _ => Throw "" end in
  let s := pay_answer success a s in
  setConfirmLoading false (setCreem false (selectedCreemProduct (pay s)) s).

Definition handleCreemCancel (s : page) : page := setCreem false VNull s.

(** ** Redemption, invitations, subscriptions *)

Definition topUp (s : page) : page :=
  let code := redemptionCode (acc s) in
  if decide (code = "") then emit (ShowInfo (t "请输入兑换码！")) s
  else await (TRedeem (theUser (acc s))) (emit (Redeem code) (setIsSubmitting true s)).

(** [t(...) + renderQuota(x)]. *)
Definition quota_message (text : string) (x : num) : res string :=
  v ← renderQuota storage x 2; q ← to_str v; Ok (text +:+ q).

(** [u] is the user of the render in which the code was redeemed. *)
Definition redeemDone (u : option user) (r : reply num) (s : page) : page :=
  setIsSubmitting false
    match r with
    | Rejected => showError (VStr (t "请求失败")) s
    | Refused m => showError m s
    | Served data =>
        let s := emit (ShowSuccess (VStr (t "兑换成功！"))) s in
        match quota_message (t "成功兑换额度：") data with
        | Throw _ => showError (VStr (t "请求失败")) s
        | Ok content =>
            let s := emit (ModalSuccess content) s in
            let s := match u with
                     | Some u => setUser (Some (User (num_add (quota u) data) (u_fields u))) s
                     | None => s
                     end in
            setRedemptionCode "" s
        end
    end.

Definition openTopUpLink (s : page) : page :=
  if decide (topUpLink (conf s) = "") then showError (VStr (t "超级管理员未设置充值链接！")) s
  else emit (Open (VStr (topUpLink (conf s)))) s.

Definition getUserQuota (s : page) : page := await TUser (emit (Get "/api/user/self") s).
Definition userDone (r : reply user) (s : page) : page :=
  match r with Rejected => s | Refused m => showError m s | Served u => setUser (Some u) s end.

Definition getSubscriptionPlans (s : page) : page :=
  await TPlans (emit (Get "/api/subscription/plans") (setSubscriptionLoading true s)).
Definition plansDone (r : reply jsval) (s : page) : page :=
  setSubscriptionLoading false
    match r with
    | Rejected => setPlans (VArr []) s
    | Refused _ => s
    | Served d => setPlans (js_or d (VArr [])) s
    end.

Definition getSubscriptionSelf (s : page) : page := await TSubs (emit (Get "/api/subscription/self") s).
Definition subsDone (r : reply jsval) (s : page) : page :=
  match r with
  | Served d =>
      setSubscriptions (js_or (prop_opt d "subscriptions") (VArr [])) (js_or (prop_opt d "all_subscriptions") (VArr []))
        (setBillingPreference (js_or (prop_opt d "billing_preference") (VStr "subscription_first")) s)
  | _ => s
  end.

Definition updateBillingPreference (pref : jsval) (s : page) : page :=
  await (TPreference (billingPreference (subs s)) pref) (emit (PutPreference pref) (setBillingPreference pref s)).
Definition preferenceDone (previous pref : jsval) (r : reply jsval) (s : page) : page :=
  match r with
  | Rejected => setBillingPreference previous (showError (VStr (t "请求失败")) s)
  | Refused m => setBillingPreference previous (showError (js_or m (VStr (t "更新失败"))) s)
  | Served d =>
      setBillingPreference (js_or (js_or (prop_opt d "billing_preference") pref) previous)
        (emit (ShowSuccess (VStr (t "更新成功"))) s)
  end.

Definition getAffLink (s : page) : page := await TAff (emit (Get "/api/user/aff") s).
Definition affDone (r : reply string) (s : page) : page :=
  match r with
  | Rejected => s
  | Refused m => showError m s
  | Served data => setAffLink (origin +:+ "/register?aff=" +:+ data) s
  end.

(** An error of the message is not caught, and nothing is shown. *)
Definition transfer (s : page) : page :=
  if num_ltb (transferAmount (acc s)) (getQuotaPerUnit storage) then
    match quota_message (t "划转金额最低为" +:+ " ") (getQuotaPerUnit storage) with
    | Ok m => showError (VStr m) s
    | Throw _ => s
    end
  else await TTransfer (emit (Transfer (transferAmount (acc s))) s).
Definition transferDone (r : reply jsval) (s : page) : page :=
  match r with
  | Rejected => s
  | Refused m => showError m s
  | Served m => getUserQuota (setOpenTransfer false (emit (ShowSuccess m) s))
  end.

Definition handleAffLinkClick (s : page) : page := await TCopy (emit (CopyText (affLink (acc s))) s).
Definition copyDone (s : page) : page := emit (ShowSuccess (VStr (t "邀请链接已复制到剪切板"))) s.

(** ** The configuration of payments *)

Definition default_color (type : jsval) : string :=
  if is_str "alipay" type then "rgba(var(--semi-blue-5), 1)"
  else if is_str "wxpay" type then "rgba(var(--semi-green-5), 1)"
  else if is_str "stripe" type then "rgba(var(--semi-purple-5), 1)"
  else "rgba(var(--semi-primary-5), 1)".

(** The function given to [map]. *)
Definition normalize_method (stripe_min : num) (m : obj) : res obj :=
  n ← to_num (get m "min_topup");
  let n := if is_finite n then n else Nz 0 in
  let n := if is_str "stripe" (get m "type") && (negb (truthy (VNum n)) || num_leb n (Nz 0)) && is_finite stripe_min
           then stripe_min else n in
  let m := obj_set "min_topup" (VNum n) m in
  Ok (if truthy (get m "color") then m else obj_set "color" (VStr (default_color (get m "type"))) m).

(** The function given to [filter]; what passes is an object. *)
Definition named_method (v : jsval) : res (option obj) :=
  name ← prop v "name"; type ← prop v "type";
  Ok (match v with VObj o => if truthy name && truthy type then Some o else None | _ => None end).

(** [data.pay_methods], parsed when it is a text. *)
Definition methods_value (v : jsval) : res jsval :=
  match js_or v (VArr []) with
  | VStr x => match json_parse x with Some v => Ok v | None => Throw "SyntaxError" end
  | v => Ok v
  end.

(** Methods with a name and a type; a value without a length counts as none,
    and one that has a length but is no array throws. *)
Definition named_methods (v : jsval) : res (list obj) :=
  match v with
  | VArr l => omap (M := list) id <$> res_map named_method l
  | VStr x => if decide (x = "") then Ok [] else Throw "TypeError"
  | VObj o => n ← to_num (get o "length"); if num_ltb (Nz 0) n then Throw "TypeError" else Ok []
  | _ => Ok []
  end.

Definition pay_methods (stripe_min : num) (v : jsval) : res (list obj) :=
  v ← methods_value v; l ← named_methods v; res_map (normalize_method stripe_min) l.

Definition generatePresetAmounts (minAmount : num) : list preset :=
  (λ m, Preset (num_mul minAmount (Nz m)) VUndef) <$> [1; 5; 10; 30; 50; 100; 300; 500]%Z.

Definition custom_presets (i : info) : res (list preset) :=
  res_map (λ a, d ← prop (i_discount i) (num_to_str a); Ok (Preset a (js_or d (VNum (Nz 1))))) (i_amount_options i).

Definition getTopupInfo (s : page) : page :=
  await (TInfo (bool_decide (amount_options (conf s) = []))) (emit (Get "/api/user/topup/info") s).

(** The inner [try]. *)
Definition methods_loaded (generate : bool) (i : info) (s : page) : page :=
  match pay_methods (i_stripe_min_topup i) (i_pay_methods i) with
  | Throw _ => setPayMethods [] s
  | Ok ms =>
      let minTopUpValue := if i_online i then i_min_topup i else if i_stripe i then i_stripe_min_topup i else Nz 1 in
      let s := setEnabled (i_online i) (i_stripe i) (i_creem i) (setPayMethods ms s) in
      let s := setTopUpCount minTopUpValue (setMinTopUp minTopUpValue s) in
      let products := if decide (i_creem_products i = "") then Some (VArr []) else json_parse (i_creem_products i) in
      let s := setCreemProducts (default (VArr []) products) s in
      let s := if generate then setPresetAmounts (generatePresetAmounts minTopUpValue) s else s in
      getAmount false (Some minTopUpValue) NoMore s
  end.

Definition infoDone (generate : bool) (r : reply info) (s : page) : page :=
  match r with
  | Served i =>
      let s := setTopupInfo (i_amount_options i) (js_or (i_discount i) (VObj [])) s in
      let s := methods_loaded generate i s in
      match i_amount_options i, custom_presets i with
      | [], _ | _, Throw _ => s
      | _, Ok ps => setPresetAmounts ps s
      end
  | _ => s
  end.

(** ** Presets and the count *)

(** [preset.discount || topupInfo.discount[preset.value] || 1.0]. *)
Definition preset_discount (s : page) (p : preset) : jsval :=
  js_or (js_or (p_discount p) (prop_opt (discount (conf s)) (num_to_str (p_value p)))) (VNum (Nz 1)).

Definition selectPresetAmount (p : preset) (s : page) : page :=
  let s := setSelectedPreset (Some (p_value p)) (setTopUpCount (p_value p) s) in
  match to_num (preset_discount s p) with
  | Ok d => setAmount (num_mul (num_mul (p_value p) (priceRatio (conf s))) d) s
  | Throw _ => s
  end.

(** The card of a preset: [originalPrice] and [actualPay]. *)
Definition card_prices (s : page) (p : preset) : res (num * num) :=
  d ← to_num (preset_discount s p);
  let originalPrice := num_mul (p_value p) (priceRatio (conf s)) in
  Ok (originalPrice, num_mul originalPrice d).

(** The click on a card also sets the field of the form. *)
Definition clickPreset (p : preset) (s : page) : page :=
  let s := selectPresetAmount p s in
  setCountForm (FormCompat.setValue "topUpCount" (VNum (p_value p)) <$> countForm s) s.

(** The form of the card is mounted when a way to pay is there. *)
Definition form_shown (s : page) : bool :=
  negb (statusLoading (conf s))
  && (enableOnlineTopUp (conf s) || enableStripeTopUp (conf s) || enableCreemTopUp (conf s)).
Definition mountForm (s : page) : page :=
  setCountForm (Some (FormCompat.start (Some [("topUpCount", VNum (topUpCount (pay s)))]) [])) s.

(** The [onChange] given to the field of the count. *)
Definition countChanged (v : jsval) (s : page) : page :=
  match v with
  | VNum n => if truthy v && num_leb (Nz 1) n then
                getAmount false (Some n) NoMore (setSelectedPreset None (setTopUpCount n s))
              else s
  | _ => s
  end.

(** Typing into the field of the count. *)
Definition typeCount (text : string) (s : page) : page :=
  let out := FormInputNumber (Some "topUpCount") true text in
  let s := setCountForm (apply_outputs out <$> countForm s) s in
  foldl (λ s v, countChanged v s) s (onChanges out).

(** A button of [RechargeCard] is [disabled]. *)
Definition pay_disabled (s : page) (m : obj) : bool :=
  let isStripe := is_str "stripe" (get m "type") in
  let minTopupVal := match get m "min_topup" with VNum n => n | _ => Nz 0 end in
  (negb (enableOnlineTopUp (conf s)) && negb isStripe) || (negb (enableStripeTopUp (conf s)) && isStripe)
  || num_ltb (topUpCount (pay s)) minTopupVal.

(** The question of the confirmation: the amount before the discount. *)
Definition confirm_discount (s : page) : res (option (num * num)) :=
  d ← to_num (js_or (prop_opt (discount (conf s)) (num_to_str (topUpCount (pay s)))) (VNum (Nz 1)));
  let a := amount (pay s) in
  Ok (if num_ltb (Nz 0) d && num_ltb d (Nz 1) && num_ltb (Nz 0) a
      then Some (num_div a d, num_sub (num_div a d) a) else None).

(** ** Sessions *)

Definition or1 (n : num) : num := if truthy (VNum n) then n else Nz 1.

Definition initial (st : option status) : page :=
  let m := from_option (λ x, or1 (st_min_topup x)) (Nz 1) st in
  Page (Payment (Nz 0) m m false "" false false false false VNull None)
    (Config (from_option st_top_up_link "" st) (from_option (λ x, or1 (st_price x)) (Nz 1) st) true
       (from_option st_online false st) (from_option st_stripe false st) false (VArr []) [] [] [] (VObj []))
    (Account None "" false "" false (Nz 0) false)
    (Subscriptions (VArr []) true (VStr "subscription_first") (VArr []) (VArr [])) None [] [].

(** The effect on the status. *)
Definition statusChanged (x : status) (s : page) : page := setStatus (st_top_up_link x) (or1 (st_price x)) s.

(** The effects of mounting, in order. *)
Definition mount (st : option status) : page :=
  let s := setTransferAmount (getQuotaPerUnit storage) (getUserQuota (initial st)) in
  let s := getSubscriptionSelf (getSubscriptionPlans (getTopupInfo (getAffLink s))) in
  match st with Some x => statusChanged x s | None => s end.

Definition without (i : nat) (s : page) : page := setTasks (delete i (tasks s)) s.

(** What the user can do: a button that is loading or disabled cannot be
    clicked. *)
Inductive step : page → page → Prop :=
| step_code x s : step s (setRedemptionCode x s)
| step_redeem s : isSubmitting (acc s) = false → step s (topUp s)
| step_link s : step s (openTopUpLink s)
| step_way m w s : m ∈ payMethods (conf s) → get m "type" = VStr w → pay_disabled s m = false →
    paymentLoading (pay s) && bool_decide (payWay (pay s) = w) = false → step s (preTopUp w s)
| step_confirm s : open (pay s) = true → confirmLoading (pay s) = false → step s (onlineTopUp s)
| step_cancel s : step s (handleCancel s)
| step_product p l s : creemProducts (conf s) = VArr l → p ∈ l → step s (creemPreTopUp p s)
| step_creem s : creemOpen (pay s) = true → confirmLoading (pay s) = false → step s (onlineCreemTopUp s)
| step_creem_cancel s : step s (handleCreemCancel s)
| step_preference p s : step s (updateBillingPreference p s)
| step_subscribed s : step s (getSubscriptionSelf s)
| step_transfer_open s : step s (setOpenTransfer true s)
| step_transfer_amount x s : step s (setTransferAmount x s)
| step_transfer s : openTransfer (acc s) = true → step s (transfer s)
| step_transfer_cancel s : step s (setOpenTransfer false s)
| step_history b s : step s (setOpenHistory b s)
| step_copy s : step s (handleAffLinkClick s)
| step_status x s : step s (statusChanged x s)
| step_preset p s : p ∈ presetAmounts (conf s) → step s (clickPreset p s)
| step_form s : form_shown s = true → countForm s = None → step s (mountForm s)
| step_type x s : step s (typeCount x s)
| step_render s : step s (setCountForm (FormCompat.render <$> countForm s) s)
| step_amount i k a s : tasks s !! i = Some (TAmount k) → step s (amountDone k a (without i s))
| step_paid i w a s : tasks s !! i = Some (TPay w) → step s (payDone w a (without i s))
| step_creemed i a s : tasks s !! i = Some TCreem → step s (creemDone a (without i s))
| step_redeemed i u r s : tasks s !! i = Some (TRedeem u) → step s (redeemDone u r (without i s))
| step_user i r s : tasks s !! i = Some TUser → step s (userDone r (without i s))
| step_plans i r s : tasks s !! i = Some TPlans → step s (plansDone r (without i s))
| step_subs i r s : tasks s !! i = Some TSubs → step s (subsDone r (without i s))
| step_preferred i p q r s : tasks s !! i = Some (TPreference p q) → step s (preferenceDone p q r (without i s))
| step_info i g r s : tasks s !! i = Some (TInfo g) → step s (infoDone g r (without i s))
| step_aff i r s : tasks s !! i = Some TAff → step s (affDone r (without i s))
| step_transferred i r s : tasks s !! i = Some TTransfer → step s (transferDone r (without i s))
| step_copied i s : tasks s !! i = Some TCopy → step s (copyDone (without i s)).
End page.

(** ** The invariant *)

Definition quoted (stripe : bool) (l : list effect) : Prop := ∃ v, Quote stripe v ∈ l.

(** Every payment is of the count that was confirmed, at least the minimum,
    and comes after a question for its price. *)
Definition pays_ok (l : list effect) : Prop :=
  ∀ l1 w a c m l2, l = l1 ++ Pay w a c m :: l2 →
    num_ltb c m = false ∧ a = parse_int (num_to_str c) ∧ quoted (is_stripe w) l1.

(** What the page relies on in a method. *)
Definition method_ok (m : obj) : Prop :=
  truthy (get m "name") = true ∧ truthy (get m "type") = true ∧
  (∃ n, get m "min_topup" = VNum n ∧ is_finite n = true) ∧ truthy (get m "color") = true.

Definition is_redeem (k : task) : bool := match k with TRedeem _ => true | _ => false end.

(** [rem] are tasks that are being finished. *)
Record winv (rem : list task) (s : page) : Prop := {
  w_pays : pays_ok (effects s);
  w_way : payWay (pay s) ≠ "" → quoted (is_stripe (payWay (pay s))) (effects s);
  w_open : open (pay s) = true → payWay (pay s) ≠ "";
  w_confirm c m : TAmount (ThenConfirm c m) ∈ rem ++ tasks s → payWay (pay s) ≠ "";
  w_pay w c m : TAmount (ThenPay w c m) ∈ rem ++ tasks s →
    w ≠ "" ∧ Quote (is_stripe w) (parse_float (num_to_str c)) ∈ effects s;
  w_methods : Forall method_ok (payMethods (conf s));
  w_amount : amountLoading (pay s) = true → ∃ k, TAmount k ∈ rem ++ tasks s;
  w_payment : paymentLoading (pay s) = true → ∃ c m, TAmount (ThenConfirm c m) ∈ rem ++ tasks s;
  w_confirming : confirmLoading (pay s) = true → (∃ w, TPay w ∈ rem ++ tasks s) ∨ TCreem ∈ rem ++ tasks s;
  w_plans : subscriptionLoading (subs s) = true → TPlans ∈ rem ++ tasks s;
  w_redeem : if isSubmitting (acc s) then length (filter (λ k, is_redeem k = true) (rem ++ tasks s)) = 1
             else filter (λ k, is_redeem k = true) (rem ++ tasks s) = [] }.

Lemma quoted_app b l l' : quoted b l → quoted b (l ++ l').
Proof. intros [v Hv]. exists v. apply elem_of_app. by left. Qed.

Lemma pays_ok_snoc l e :
  pays_ok l → (∀ w a c m, e = Pay w a c m → num_ltb c m = false ∧ a = parse_int (num_to_str c) ∧ quoted (is_stripe w) l) →
  pays_ok (l ++ [e]).
Proof.
  intros Hl He l1 w a c m l2 Heq. destruct l2 as [|x l2 _] using rev_ind.
  - apply app_inj_tail in Heq as [-> ->]. by apply He.
  - rewrite app_comm_cons, app_assoc in Heq. apply app_inj_tail in Heq as [-> _]. by eapply Hl.
Qed.

(** A change that emits and starts nothing, and raises no flag. *)
Lemma winv_down rem s s' :
  effects s' = effects s → tasks s' = tasks s → payWay (pay s') = payWay (pay s) →
  payMethods (conf s') = payMethods (conf s) → isSubmitting (acc s') = isSubmitting (acc s) →
  (open (pay s') = true → open (pay s) = true) → (amountLoading (pay s') = true → amountLoading (pay s) = true) →
  (paymentLoading (pay s') = true → paymentLoading (pay s) = true) →
  (confirmLoading (pay s') = true → confirmLoading (pay s) = true) →
  (subscriptionLoading (subs s') = true → subscriptionLoading (subs s) = true) →
  winv rem s → winv rem s'.
Proof.
  intros H1 H2 H3 H4 H5 ????? [].
  split; rewrite ?H1, ?H2, ?H3, ?H4, ?H5; auto.
Qed.

Ltac wdown s := apply (winv_down _ s); [by destruct s as [[] [] [] [] ? ? ?].. | ].

Lemma winv_emit rem e s : (∀ w a c m, e ≠ Pay w a c m) → winv rem s → winv rem (emit e s).
Proof.
  intros He []. split; simpl; try done; eauto using quoted_app.
  - apply pays_ok_snoc; [done|]. intros. by exfalso; eapply He.
  - intros w c m Hk. destruct (w_pay0 w c m Hk). split; [done|]. apply elem_of_app. by left.
Qed.

(** A task that is not a redemption. *)
Lemma winv_await rem k s :
  is_redeem k = false →
  match k with
  | TAmount (ThenConfirm _ _) => payWay (pay s) ≠ ""
  | TAmount (ThenPay w c _) => w ≠ "" ∧ Quote (is_stripe w) (parse_float (num_to_str c)) ∈ effects s
  | _ => True
  end → winv rem s → winv rem (await k s).
Proof.
  intros Hr Hk []. assert (∀ x, x ∈ rem ++ tasks s → x ∈ rem ++ (tasks s ++ [k])) as Hin by set_solver.
  split; simpl; try done.
  - intros c m. rewrite app_assoc, elem_of_app, list_elem_of_singleton. intros [|<-]; [by eapply w_confirm0|done].
  - intros w c m. rewrite app_assoc, elem_of_app, list_elem_of_singleton. intros [|<-]; [by eapply w_pay0|done].
  - intros H. destruct (w_amount0 H) as [? ?]. eauto.
  - intros H. destruct (w_payment0 H) as (? & ? & ?). eauto.
  - intros H. destruct (w_confirming0 H) as [[? ?]|?]; eauto.
  - auto.
  - rewrite app_assoc, filter_app, (filter_cons_False _ k) by (by rewrite Hr). by rewrite filter_nil, app_nil_r.
Qed.

(** The flags: going up with a task that will take them down again. *)
Lemma winv_amount_up rem k s : TAmount k ∈ tasks s → winv rem s → winv rem (setAmountLoading true s).
Proof. intros Hk []. destruct s as [[] ? ? ? ? ? ?]; split; simpl in *; try done. exists k. set_solver. Qed.

Lemma winv_payment_up rem c m s : TAmount (ThenConfirm c m) ∈ tasks s → winv rem s → winv rem (setPaymentLoading true s).
Proof. intros Hk []. destruct s as [[] ? ? ? ? ? ?]; split; simpl in *; try done. exists c, m. set_solver. Qed.

Lemma winv_confirm_up rem s : (∃ w, TPay w ∈ tasks s) ∨ TCreem ∈ tasks s → winv rem s → winv rem (setConfirmLoading true s).
Proof.
  intros Hk []. destruct s as [[] ? ? ? ? ? ?]; split; simpl in *; try done. intros _.
  destruct Hk as [[w ?]|?]; [left; exists w|right]; set_solver.
Qed.

Lemma winv_plans_up rem s : TPlans ∈ tasks s → winv rem s → winv rem (setSubscriptionLoading true s).
Proof. intros Hk []. destruct s as [? ? ? [] ? ? ?]; split; simpl in *; try done. set_solver. Qed.

(** Finishing a task. *)
Lemma winv_without i k s : tasks s !! i = Some k → winv [] s → winv [k] (without i s).
Proof.
  intros Hi Hs. assert (tasks s ≡ₚ k :: delete i (tasks s)) as Hp by by apply delete_Permutation.
  destruct Hs. simpl in *.
  assert (∀ x, x ∈ k :: delete i (tasks s) ↔ x ∈ tasks s) as Hin by (intros x; by rewrite <-Hp).
  split; simpl; try done; try setoid_rewrite Hin; try done.
  destruct (isSubmitting (acc s)).
  - by rewrite <-Hp.
  - apply Permutation_nil. rewrite <-Hp. by rewrite w_redeem0.
Qed.

Lemma winv_drop k s : is_redeem k = false →
  match k with
  | TAmount k => amountLoading (pay s) = false ∧ match k with ThenConfirm _ _ => paymentLoading (pay s) = false | _ => True end
  | TPay _ | TCreem => confirmLoading (pay s) = false
  | TPlans => subscriptionLoading (subs s) = false
  | _ => True
  end → winv [k] s → winv [] s.
Proof.
  intros Hr Hk []. simpl in *. rewrite filter_cons_False in w_redeem0 by (by rewrite Hr).
  split; simpl; try done.
  - intros ???. eapply w_confirm0. by right.
  - intros ????. eapply w_pay0. by right.
  - intros H. destruct (w_amount0 H) as [k' [<-|]%elem_of_cons]; [destruct Hk; congruence|eauto].
  - intros H. destruct (w_payment0 H) as (c & m & [<-|]%elem_of_cons); [destruct Hk; congruence|eauto].
  - intros H. destruct (w_confirming0 H) as [[w [<-|]%elem_of_cons]|[<-|]%elem_of_cons]; [congruence|eauto|congruence|eauto].
  - intros H. apply w_plans0 in H as Hin. apply elem_of_cons in Hin as [<-|]; [congruence|done].
Qed.

(** *** Methods *)

Lemma get_field o k v k' : k ≠ "__proto__" → get (obj_set k v o) k' = if decide (k' = k) then v else get o k'.
Proof. apply get_field_set. Qed.

Lemma normalize_ok x m m' :
  truthy (get m "name") = true → truthy (get m "type") = true → normalize_method x m = Ok m' → method_ok m'.
Proof.
  intros Hn Ht. unfold normalize_method. rewrite res_bind_Ok. intros (n & _ & [= <-]).
  set (n' := if _ && is_finite x then x else _).
  assert (is_finite n' = true) as Hf.
  { assert (is_finite (if is_finite n then n else Nz 0) = true) as H0 by (destruct (is_finite n) eqn:?; done).
    subst n'. destruct (_ && is_finite x) eqn:Hx; [|done]. by apply andb_true_iff in Hx as [_ ?]. }
  unfold method_ok. case_match eqn:Hc; rewrite ?get_field in * by done; simpl in *;
    (split; [done|]; split; [done|]; split; [by exists n'|]); [done|]. unfold default_color. by repeat case_match.
Qed.

Lemma named_ok v o : named_method v = Ok (Some o) → truthy (get o "name") = true ∧ truthy (get o "type") = true.
Proof.
  unfold named_method. rewrite res_bind_Ok. intros (a & Ha & H). apply res_bind_Ok in H as (b & Hb & [= H]).
  destruct v; simplify_eq/=. destruct (truthy (default VUndef (obj_get o0 "name"))) eqn:?; [|done].
  destruct (truthy (default VUndef (obj_get o0 "type"))) eqn:?; [|done]. simpl in *. by simplify_eq.
Qed.

Lemma named_methods_ok v l : named_methods v = Ok l →
  Forall (λ o, truthy (get o "name") = true ∧ truthy (get o "type") = true) l.
Proof.
  unfold named_methods. destruct v as [| | | |x|vs|o]; try by intros [= <-].
  - case_decide; by intros [= <-].
  - destruct (res_map named_method vs) as [os|] eqn:Hm; [|done]. intros [= <-].
    apply Forall_forall. intros o ([o'|] & Ho & [= ->])%list_elem_of_omap.
    apply res_map_Ok in Hm. apply list_elem_of_lookup in Ho as [i Hi].
    destruct (Forall2_lookup_r _ _ _ _ _ Hm Hi) as (v & _ & Hv). by eapply named_ok.
  - rewrite res_bind_Ok. intros (n & _ & H). case_match; [done|]. by injection H as <-.
Qed.

Lemma pay_methods_ok x v ms : pay_methods x v = Ok ms → Forall method_ok ms.
Proof.
  unfold pay_methods. rewrite res_bind_Ok. intros (w & _ & (l & Hl & Hm)%res_bind_Ok).
  apply named_methods_ok in Hl. apply res_map_Ok in Hm.
  induction Hm; [constructor|]. inv Hl. constructor; [|by apply IHHm]. eapply normalize_ok; [..|done]; naive_solver.
Qed.

Lemma winv_methods rem ms s : Forall method_ok ms → winv rem s → winv rem (setPayMethods ms s).
Proof. intros Hm []. destruct s as [? [] ? ? ? ? ?]. by split. Qed.

Lemma winv_setPayWay rem w s : w ≠ "" → quoted (is_stripe w) (effects s) → winv rem s → winv rem (setPayWay w s).
Proof. intros Hw Hq []. destruct s as [[] ? ? ? ? ? ?]. by split. Qed.

Lemma winv_setOpen rem b s : payWay (pay s) ≠ "" → winv rem s → winv rem (setOpen b s).
Proof. intros Hw []. destruct s as [[] ? ? ? ? ? ?]. by split. Qed.

(** *** Handlers *)

Lemma winv_getAmount rem b v k s :
  match k with
  | NoMore => True | ThenConfirm _ _ => payWay (pay s) ≠ ""
  | ThenPay w c _ => w ≠ "" ∧ is_stripe w = b ∧ default (topUpCount (pay s)) v = c
  end → winv rem s → winv rem (getAmount b v k s).
Proof.
  intros Hk Hs. change (getAmount b v k s) with
    (setAmountLoading true (await (TAmount k) (emit (Quote b (parse_float (num_to_str (default (topUpCount (pay s)) v)))) s))).
  apply (winv_amount_up _ k); [simpl; set_solver|]. apply winv_await; [done| |by apply winv_emit].
  destruct k; try done. destruct Hk as (Hw & <- & <-). simpl. split; [done|]. apply elem_of_app. right. by left.
Qed.

Lemma winv_amount_answer rem a s : winv rem s → winv rem (amount_answer a s).
Proof.
  intros Hs. destruct a as [| |message data url]; simpl; [done|by apply winv_emit|].
  case_match; case_match; try done; try (by wdown s). apply winv_emit; [done|]. by wdown s.
Qed.

Lemma winv_startPay rem w c m s : quoted (is_stripe w) (effects s) → winv rem s → winv rem (startPay w c m s).
Proof.
  intros Hq Hs. unfold startPay. case_match eqn:Hl; [by apply winv_emit|].
  change (await ?k (emit ?e (setConfirmLoading true s))) with (setConfirmLoading true (await k (emit e s))).
  apply winv_confirm_up; [left; exists w; simpl; set_solver|]. apply winv_await; [done..|].
  destruct Hs. split; simpl; eauto using quoted_app.
  - apply pays_ok_snoc; [done|]. by intros ???? [= <- <- <- <-].
  - intros w' c' m' Hk. destruct (w_pay0 w' c' m' Hk). split; [done|]. apply elem_of_app. by left.
Qed.

Lemma effects_amount_answer a s : ∃ l, effects (amount_answer a s) = effects s ++ l.
Proof.
  destruct a; simpl; [exists []; by rewrite app_nil_r|by eexists|].
  repeat case_match; simpl; first [by eexists|exists []; by rewrite app_nil_r].
Qed.

Lemma winv_amountDone t k a s : winv [TAmount k] s → winv [] (amountDone t k a s).
Proof.
  intros Hs. unfold amountDone. set (s1 := setAmountLoading false (amount_answer a s)).
  assert (winv [TAmount k] s1) as H1 by (apply (winv_down _ (amount_answer a s));
    [by destruct (amount_answer a s) as [[] [] [] [] ? ? ?].. |by apply winv_amount_answer]).
  assert (amountLoading (pay s1) = false) as Ha by (subst s1; by destruct (amount_answer a s) as [[] ? ? ? ? ? ?]).
  destruct k as [|c m|w c m].
  - by eapply winv_drop, H1.
  - assert (payWay (pay s1) ≠ "") as Hw by (eapply (w_confirm _ _ H1 c m); by left).
    unfold openConfirm. set (s2 := if num_ltb c m then _ else _).
    assert (winv [TAmount (ThenConfirm c m)] s2) as H2.
    { subst s2. case_match; [by apply winv_emit|by apply winv_setOpen]. }
    apply (winv_drop (TAmount (ThenConfirm c m))); [done| |by wdown s2].
    assert (amountLoading (pay s2) = false) by (subst s2; case_match; [done|]; by destruct s1 as [[] ? ? ? ? ? ?]).
    split; by destruct s2 as [[] ? ? ? ? ? ?].
  - assert (quoted (is_stripe w) (effects s1)) as Hq
      by (destruct (w_pay _ _ H1 w c m) as [_ Hq]; [by left|]; by eexists).
    apply winv_startPay; [done|]. by eapply winv_drop, H1.
Qed.

Lemma winv_preTopUp t w s : w ≠ "" → winv [] s → winv [] (preTopUp t w s).
Proof.
  intros Hw Hs. unfold preTopUp. case_match; [by apply winv_emit|]. case_match; [by apply winv_emit|].
  unfold getAmount. change (await ?k (emit ?e (setAmountLoading true (setPaymentLoading true (setPayWay w s)))))
    with (setAmountLoading true (setPaymentLoading true (await k (setPayWay w (emit e s))))).
  eapply winv_amount_up; [simpl; apply elem_of_app; right; by left|].
  eapply winv_payment_up; [simpl; apply elem_of_app; right; by left|].
  apply winv_await; [done|by destruct s as [[] ? ? ? ? ? ?]|].
  apply winv_setPayWay; [done| |by apply winv_emit]. eexists. simpl. apply elem_of_app. right. by left.
Qed.

Lemma winv_onlineTopUp s : open (pay s) = true → winv [] s → winv [] (onlineTopUp s).
Proof.
  intros Ho Hs. unfold onlineTopUp.
  case_match; [apply winv_getAmount; [split_and!; [by apply (w_open _ _ Hs)|done..]|done]|].
  apply winv_startPay; [|done]. apply (w_way _ _ Hs), (w_open _ _ Hs), Ho.
Qed.

Lemma winv_pay_answer t rem e a s : (∀ e', e = Ok e' → ∀ w a c m, e' ≠ Pay w a c m) → winv rem s → winv rem (pay_answer t e a s).
Proof.
  intros He Hs. destruct a; simpl; try by apply winv_emit.
  case_match; [|by apply winv_emit]. case_match; apply winv_emit; naive_solver.
Qed.

Lemma winv_payDone t safari w a s : winv [TPay w] s → winv [] (payDone t safari w a s).
Proof.
  intros Hs. unfold payDone. set (e := match a with Answer _ _ _ => _ | _ => _ end).
  assert (winv [TPay w] (pay_answer t e a s)) as H1.
  { apply winv_pay_answer; [|done]. subst e. destruct a as [| |? data url]; try done. unfold paid.
    case_match; intros e' He; [apply res_bind_Ok in He as (u & _ & [= <-])|injection He as <-]; done. }
  set (s1 := pay_answer t e a s) in *. apply (winv_drop (TPay w)); [done|by destruct s1 as [[] ? ? ? ? ? ?]|]. by wdown s1.
Qed.

Lemma winv_creemDone t a s : winv [TCreem] s → winv [] (creemDone t a s).
Proof.
  intros Hs. unfold creemDone. set (e := match a with Answer _ _ _ => _ | _ => _ end).
  assert (winv [TCreem] (pay_answer t e a s)) as H1.
  { apply winv_pay_answer; [|done]. subst e. destruct a as [| |? data url]; try done. unfold processCreemCallback.
    intros e' He. apply res_bind_Ok in He as (u & _ & [= <-]). done. }
  set (s1 := pay_answer t e a s) in *. apply (winv_drop TCreem); [done|by destruct s1 as [[] ? ? ? ? ? ?]|]. by wdown s1.
Qed.

Lemma winv_topUp t s : isSubmitting (acc s) = false → winv [] s → winv [] (topUp t s).
Proof.
  intros Hi Hs. unfold topUp. case_decide as Hc; [by apply winv_emit|].
  set (e := Redeem _). set (u := theUser (acc s)).
  assert (winv [] (emit e s)) as [] by by apply winv_emit.
  destruct s as [p c [a1 a2 a3 a4 a5 a6 a7] sb f ts es]; simpl in *; subst a3.
  assert (∀ x, x ∈ ts ++ [TRedeem u] ↔ x ∈ ts ∨ x = TRedeem u) as Hin by set_solver.
  split; simpl; try done.
  - intros c' m [|[=]]%Hin. by eapply w_confirm0.
  - intros w c' m [|[=]]%Hin. by eapply w_pay0.
  - intros H. destruct (w_amount0 H) as [? ?]. setoid_rewrite Hin. eauto.
  - intros H. destruct (w_payment0 H) as (? & ? & ?). setoid_rewrite Hin. eauto.
  - intros H. setoid_rewrite Hin. destruct (w_confirming0 H) as [[? ?]|?]; eauto.
  - rewrite Hin. auto.
  - by rewrite filter_app, w_redeem0.
Qed.

Lemma winv_redeemed u s : winv [TRedeem u] s → winv [] (setIsSubmitting false s).
Proof.
  intros []. destruct s as [p c [a1 a2 a3 a4 a5 a6 a7] sb f ts es]; simpl in *.
  rewrite filter_cons_True in w_redeem0 by done.
  split; simpl; try done.
  - intros. eapply w_confirm0. by right.
  - intros. eapply w_pay0. by right.
  - intros H. destruct (w_amount0 H) as [k [|]%elem_of_cons]; [done|eauto].
  - intros H. destruct (w_payment0 H) as (c' & m & [|]%elem_of_cons); [done|eauto].
  - intros H. destruct (w_confirming0 H) as [[w [|]%elem_of_cons]|[|]%elem_of_cons]; try done; eauto.
  - intros H. by apply w_plans0, elem_of_cons in H as [|].
  - destruct a3; [|done]. simpl in w_redeem0. apply length_zero_iff_nil. lia.
Qed.

Lemma winv_redeemDone t st u r s : winv [TRedeem u] s → winv [] (redeemDone t st u r s).
Proof.
  intros Hs. unfold redeemDone. apply (winv_redeemed u). destruct r as [|m|data]; [by apply winv_emit..|].
  assert (winv [TRedeem u] (emit (ShowSuccess (VStr (t "兑换成功！"))) s)) as H1 by by apply winv_emit.
  set (s1 := emit _ s) in *. case_match; [|by apply winv_emit].
  set (s2 := emit _ s1). assert (winv [TRedeem u] s2) as H2 by by apply winv_emit.
  destruct u; by wdown s2.
Qed.

Lemma winv_methods_loaded g i s : winv [] s → winv [] (methods_loaded g i s).
Proof.
  intros Hs. unfold methods_loaded. destruct (pay_methods _ _) as [ms|] eqn:Hm; [|by apply winv_methods].
  apply winv_getAmount; [done|]. apply pay_methods_ok in Hm. set (s1 := setPayMethods ms s).
  assert (winv [] s1) as H1 by by apply winv_methods.
  destruct g; by wdown s1.
Qed.

Lemma winv_infoDone g r s : winv [] s → winv [] (infoDone g r s).
Proof.
  intros Hs. destruct r as [| |i]; simpl; [done..|].
  set (s1 := methods_loaded _ _ _).
  assert (winv [] s1) as H1 by (apply winv_methods_loaded; by wdown s).
  destruct (i_amount_options i); [done|]. case_match; [by wdown s1|done].
Qed.

Lemma winv_getUserQuota s : winv [] s → winv [] (getUserQuota s).
Proof. intros. apply winv_await; [done..|]. by apply winv_emit. Qed.

Lemma winv_typeCount x s : winv [] s → winv [] (typeCount x s).
Proof. intros Hs. by wdown s. Qed.

Lemma winv_clickPreset p s : winv [] s → winv [] (clickPreset p s).
Proof.
  intros Hs. unfold clickPreset. set (s1 := selectPresetAmount p s).
  assert (winv [] s1) as H1; [|by wdown s1]. unfold s1, selectPresetAmount. case_match; by wdown s.
Qed.

(** *** Steps that pay nothing *)

Definition is_pay (e : effect) : bool := match e with Pay _ _ _ _ => true | _ => false end.

(** From [s] to [s'] nothing is paid, and no confirmation is put off. *)
Definition unpaid (s s' : page) : Prop :=
  (∃ l, effects s' = effects s ++ l ∧ Forall (λ e, is_pay e = false) l) ∧
  ∀ w c m, TAmount (ThenPay w c m) ∈ tasks s' → TAmount (ThenPay w c m) ∈ tasks s.

#[export] Instance unpaid_refl : Reflexive unpaid.
Proof. intros s. split; [|done]. exists []. by rewrite app_nil_r. Qed.

#[export] Instance unpaid_trans : Transitive unpaid.
Proof.
  intros s1 s2 s3 [(l1 & E1 & H1) T1] [(l2 & E2 & H2) T2]. split; [|auto].
  exists (l1 ++ l2). rewrite E2, E1, app_assoc. split; [done|]. by apply Forall_app.
Qed.

Lemma unpaid_emit e s0 s : is_pay e = false → unpaid s0 s → unpaid s0 (emit e s).
Proof.
  intros He H. etransitivity; [exact H|]. split; [|done]. exists [e]. split; [done|]. by constructor.
Qed.

Definition puts_off (k : task) : bool := match k with TAmount (ThenPay _ _ _) => true | _ => false end.

Lemma unpaid_await k s0 s : puts_off k = false → unpaid s0 s → unpaid s0 (await k s).
Proof.
  intros Hk H. etransitivity; [exact H|]. split; [exists []; by rewrite app_nil_r|].
  intros w c m. simpl. rewrite elem_of_app, list_elem_of_singleton. by intros [|<-].
Qed.

Lemma unpaid_without i s : unpaid s (without i s).
Proof.
  split; [exists []; by rewrite app_nil_r|]. intros w c m. simpl. rewrite list_elem_of_lookup.
  intros [j Hj]. rewrite list_lookup_delete in Hj. apply list_elem_of_lookup. case_decide; eauto.
Qed.

Lemma unpaid_setPay f s0 s : unpaid s0 s → unpaid s0 (setPay f s).
Proof. done. Qed.
Lemma unpaid_setConf f s0 s : unpaid s0 s → unpaid s0 (setConf f s).
Proof. done. Qed.
Lemma unpaid_setAcc f s0 s : unpaid s0 s → unpaid s0 (setAcc f s).
Proof. done. Qed.
Lemma unpaid_setSubs f s0 s : unpaid s0 s → unpaid s0 (setSubs f s).
Proof. done. Qed.
Lemma unpaid_setCountForm f s0 s : unpaid s0 s → unpaid s0 (setCountForm f s).
Proof. done. Qed.

(** Through the calls and cases of a handler. *)
Ltac unpaid_tac :=
  cbv zeta;
  repeat first
    [ assumption | reflexivity | apply unpaid_without
    | match goal with
      | |- unpaid _ (emit _ _) => apply unpaid_emit; [done|]
      | |- unpaid _ (await _ _) => apply unpaid_await; [done|]
      | |- unpaid _ (match _ with _ => _ end) => case_match
      | |- unpaid _ (setPay _ _) => apply unpaid_setPay
      | |- unpaid _ (setConf _ _) => apply unpaid_setConf
      | |- unpaid _ (setAcc _ _) => apply unpaid_setAcc
      | |- unpaid _ (setSubs _ _) => apply unpaid_setSubs
      | |- unpaid _ (setCountForm _ _) => apply unpaid_setCountForm
      end ].

Lemma unpaid_getAmount b v k s0 s : puts_off (TAmount k) = false → unpaid s0 s → unpaid s0 (getAmount b v k s).
Proof. intros. unfold getAmount, setAmountLoading. unpaid_tac. Qed.

Lemma unpaid_amount_answer a s0 s : unpaid s0 s → unpaid s0 (setAmountLoading false (amount_answer a s)).
Proof. intros. unfold amount_answer, showError, setAmount, setAmountLoading. unpaid_tac. Qed.

Lemma unpaid_pay_answer t e a s0 s : (∀ e', e = Ok e' → is_pay e' = false) → unpaid s0 s → unpaid s0 (pay_answer t e a s).
Proof.
  intros He H. unfold pay_answer, showError. destruct a; unpaid_tac. destruct e; unpaid_tac. apply unpaid_emit; auto.
Qed.

Section sessions.
Variable t : string → string.
Variable storage : gmap string string.
Variable origin : string.
Variable safari : bool.
Variable st : option status.

Abbreviation session := (rtc (step t storage origin safari) (mount storage st)).

Lemma winv_step s s' : step t storage origin safari s s' → winv [] s → winv [] s'.
Proof.
  intros Hstep Hs.
  destruct Hstep as
    [x s|s ?|s|m w s Hm Hw ? ?|s ? ?|s|p l s ? ?|s ? ?|s|p s|s|s|x s|s ?|s|b s|s|x s|p s ?|s ? ?|x s|s
    |i k a s Hi|i w a s Hi|i a s Hi|i u r s Hi|i r s Hi|i r s Hi|i r s Hi|i p q r s Hi|i g r s Hi|i r s Hi|i r s Hi|i s Hi];
    try (apply (winv_without i) in Hi as H1; [|done]); try (by wdown s).
  - by apply winv_topUp.
  - unfold openTopUpLink. case_decide; by apply winv_emit.
  - apply winv_preTopUp; [|done]. destruct (proj1 (Forall_forall _ _) (w_methods _ _ Hs) m Hm) as (_ & Ht & _).
    rewrite Hw in Ht. by intros ->.
  - by apply winv_onlineTopUp.
  - unfold creemPreTopUp. case_match; [by apply winv_emit|]. by wdown s.
  - unfold onlineCreemTopUp. repeat (case_match; [by apply winv_emit|]).
    change (await ?k (emit ?e (setConfirmLoading true s))) with (setConfirmLoading true (await k (emit e s))).
    apply winv_confirm_up; [right; simpl; set_solver|]. apply winv_await; [done..|]. by apply winv_emit.
  - unfold updateBillingPreference. apply winv_await; [done..|]. apply winv_emit; [done|]. by wdown s.
  - apply winv_await; [done..|]. by apply winv_emit.
  - unfold transfer. case_match; [case_match; [by apply winv_emit|done]|]. apply winv_await; [done..|]. by apply winv_emit.
  - apply winv_await; [done..|]. by apply winv_emit.
  - by apply winv_clickPreset.
  - by apply winv_amountDone.
  - by apply winv_payDone.
  - by apply winv_creemDone.
  - by apply winv_redeemDone.
  - set (s1 := without i s) in *. apply (winv_drop TUser); [done..|]. destruct r; [done|by apply winv_emit|by wdown s1].
  - set (s1 := without i s) in *. apply (winv_drop TPlans); [done|by destruct r, s as [? ? ? [] ? ? ?]|].
    destruct r; by wdown s1.
  - set (s1 := without i s) in *. apply (winv_drop TSubs); [done..|]. destruct r; [done..|by wdown s1].
  - set (s1 := without i s) in *. apply (winv_drop (TPreference p q)); [done..|]. unfold preferenceDone. destruct r as [|m|d];
      (set (s2 := emit _ s1) || set (s2 := showError _ s1));
      (assert (winv [TPreference p q] s2) by by apply winv_emit); by wdown s2.
  - set (s1 := without i s) in *. apply winv_infoDone. by apply (winv_drop (TInfo g)).
  - set (s1 := without i s) in *. apply (winv_drop TAff); [done..|]. destruct r; [done|by apply winv_emit|by wdown s1].
  - set (s1 := without i s) in *. apply (winv_drop TTransfer) in H1; [|done..].
    destruct r; [done|by apply winv_emit|]. apply winv_getUserQuota. set (s2 := emit _ s1).
    assert (winv [] s2) by by apply winv_emit. by wdown s2.
  - apply (winv_drop TCopy); [done..|]. by apply winv_emit.
Qed.

Lemma winv_mount : winv [] (mount storage st).
Proof.
  assert (∀ l : list effect, Forall (λ e, match e with Pay _ _ _ _ => False | _ => True end) l → pays_ok l) as Hp.
  { intros l Hl l1 w a c m l2 ->. by apply Forall_app in Hl as [_ [[] _]%Forall_cons]. }
  destruct st as [x|]; split; simpl; try done; try (apply Hp; by repeat constructor); try (intros; set_solver);
    by vm_compute.
Qed.

Lemma winv_session s : session s → winv [] s.
Proof. apply (rtc_ind_r (winv [])); [apply winv_mount|]. intros ?? _ ?. by apply winv_step. Qed.

(** The confirmation of a payment: the button of the open dialog, with the
    way, the count and the minimum the page has. *)
Definition confirmed (s : page) (w : string) (count minimum : num) : Prop :=
  open (pay s) = true ∧ confirmLoading (pay s) = false ∧
  payWay (pay s) = w ∧ topUpCount (pay s) = count ∧ minTopUp (pay s) = minimum.

(** Every step but the confirmation and the answer it waits for. *)
Lemma unpaid_step s s' : step t storage origin safari s s' →
  unpaid s s' ∨ (open (pay s) = true ∧ confirmLoading (pay s) = false ∧ s' = onlineTopUp s) ∨
  ∃ i w c m a, tasks s !! i = Some (TAmount (ThenPay w c m)) ∧ s' = amountDone t (ThenPay w c m) a (without i s).
Proof.
  intros Hstep. destruct Hstep as
    [x s|s ?|s|m w s Hm Hw ? ?|s ? ?|s|p l s ? ?|s ? ?|s|p s|s|s|x s|s ?|s|b s|s|x s|p s ?|s ? ?|x s|s
    |i k a s Hi|i w a s Hi|i a s Hi|i u r s Hi|i r s Hi|i r s Hi|i r s Hi|i p q r s Hi|i g r s Hi|i r s Hi|i r s Hi|i s Hi];
    try (left; exact (unpaid_refl s)).
  all: try (pose proof (unpaid_without i s) as Hwo; set (s1 := without i s) in *).
  - left. unfold topUp, setIsSubmitting. unpaid_tac.
  - left. unfold openTopUpLink, showError. unpaid_tac.
  - left. unfold preTopUp, showError. case_match; [unpaid_tac|]. case_match; [unpaid_tac|].
    apply unpaid_getAmount; [done|]. exact (unpaid_refl s).
  - right. left. done.
  - left. unfold creemPreTopUp, showError. case_match; [unpaid_tac|exact (unpaid_refl s)].
  - left. unfold onlineCreemTopUp, showError, setConfirmLoading. unpaid_tac.
  - left. unfold updateBillingPreference, setBillingPreference. unpaid_tac.
  - left. unfold getSubscriptionSelf. unpaid_tac.
  - left. unfold transfer, showError. unpaid_tac.
  - left. unfold handleAffLinkClick. unpaid_tac.
  - left. unfold clickPreset, selectPresetAmount. cbv zeta. case_match; exact (unpaid_refl s).
  - destruct k as [|c m|w c m]; [left..|right; right; by exists i, w, c, m, a]; unfold amountDone.
    + by apply unpaid_amount_answer.
    + apply (unpaid_amount_answer a) in Hwo. unfold openConfirm, setPaymentLoading, showError, setOpen. unpaid_tac.
  - left. unfold payDone, setConfirmLoading, setOpen. do 2 apply unpaid_setPay. apply unpaid_pay_answer; [|done].
    intros e'. destruct a as [| |? data url]; try done. unfold paid.
    case_match; intros He; [apply res_bind_Ok in He as (u & _ & [= <-])|injection He as <-]; done.
  - left. unfold creemDone, setConfirmLoading, setCreem. do 2 apply unpaid_setPay. apply unpaid_pay_answer; [|done].
    intros e'. destruct a as [| |? data url]; try done. unfold processCreemCallback. intros (u & _ & [= <-])%res_bind_Ok. done.
  - left. unfold redeemDone, setIsSubmitting, showError, setUser, setRedemptionCode. unpaid_tac.
  - left. unfold userDone, showError, setUser. unpaid_tac.
  - left. unfold plansDone, setSubscriptionLoading, setPlans. unpaid_tac.
  - left. unfold subsDone, setSubscriptions, setBillingPreference. unpaid_tac.
  - left. unfold preferenceDone, setBillingPreference, showError. unpaid_tac.
  - left. unfold infoDone.
    assert (∀ i s0, unpaid s s0 → unpaid s (methods_loaded g i s0)) as Hm.
    { intros i0 s0 H0. unfold methods_loaded. case_match; [|by apply unpaid_setConf].
      apply unpaid_getAmount; [done|]. by destruct g. }
    destruct r as [| |i0]; [done..|].
    assert (unpaid s (methods_loaded g i0 (setTopupInfo (i_amount_options i0) (js_or (i_discount i0) (VObj [])) s1))) as H1
      by (by apply Hm, unpaid_setConf).
    destruct (i_amount_options i0); [exact H1|]. destruct (custom_presets i0); [by apply unpaid_setConf|exact H1].
  - left. unfold affDone, showError, setAffLink. unpaid_tac.
  - left. unfold transferDone, getUserQuota, showError, setOpenTransfer. unpaid_tac.
  - left. unfold copyDone. unpaid_tac.
Qed.

(** What the rest of a confirmation sends. *)
Lemma startPay_delta w c m s0 s : unpaid s0 s →
  ∃ l, effects (startPay w c m s) = effects s0 ++ l ∧
    (∀ w' a c' m', Pay w' a c' m' ∈ l → num_ltb c m = false ∧ w' = w ∧ a = parse_int (num_to_str c) ∧ c' = c ∧ m' = m) ∧
    ∀ w' c' m', TAmount (ThenPay w' c' m') ∈ tasks (startPay w c m s) → TAmount (ThenPay w' c' m') ∈ tasks s0.
Proof.
  intros [(l & E & Hl) Ht].
  assert (∀ w' a c' m', Pay w' a c' m' ∉ l) as Hno.
  { intros ???? Hin. by apply (proj1 (Forall_forall _ _) Hl) in Hin. }
  unfold startPay, showError. case_match eqn:Hm; simpl; rewrite E, <-app_assoc; eexists; (split; [done|]; split).
  - intros ????. rewrite elem_of_app, list_elem_of_singleton. intros [?%Hno|[=]]. done.
  - done.
  - intros ????. rewrite elem_of_app, list_elem_of_singleton. intros [?%Hno|[= -> -> -> ->]]; done.
  - intros ???. rewrite elem_of_app, list_elem_of_singleton. intros [|[=]]. auto.
Qed.

(** C6.  Payments are confirmed and checked.  In every session, whatever the
    order of answers and clicks, a step sends a payment only for a count that
    is not below the minimum, as the integer of exactly this count, and only
    in two cases.  It is the click on the button of the open dialog, for the
    way, the count and the minimum the page has then, and the page has a
    price (which may be an older one).  Or such a click came while the page
    had no price, and was put off until an answer about it: then the price of
    this very count was asked for at the address of this way.  Nothing else
    puts a payment off. *)
Theorem payments_checked (s s' : page) :
  session s → step t storage origin safari s s' →
  ∃ l, effects s' = effects s ++ l ∧
  (∀ w value count minimum, Pay w value count minimum ∈ l →
     num_ltb count minimum = false ∧ value = parse_int (num_to_str count) ∧ w ≠ "" ∧
     (confirmed s w count minimum ∧ num_eqb (amount (pay s)) (Nz 0) = false ∨
      TAmount (ThenPay w count minimum) ∈ tasks s ∧
      Quote (is_stripe w) (parse_float (num_to_str count)) ∈ effects s)) ∧
  (∀ w count minimum, TAmount (ThenPay w count minimum) ∈ tasks s' →
     TAmount (ThenPay w count minimum) ∈ tasks s ∨ confirmed s w count minimum).
Proof.
  intros Hs%winv_session [H|[(Ho & Hc & ->)|(i & w & c & m & a & Hi & ->)]]%unpaid_step.
  - destruct H as [(l & E & Hl) Ht]. exists l. split; [done|]. split; [|auto].
    intros ???? Hin. by apply (proj1 (Forall_forall _ _) Hl) in Hin.
  - pose proof (w_open _ _ Hs Ho) as Hw. unfold onlineTopUp. destruct (num_eqb _ _) eqn:Ha.
    + eexists. split; [done|]. split.
      * intros ????. rewrite list_elem_of_singleton. by intros [=].
      * intros ???. simpl. rewrite elem_of_app, list_elem_of_singleton. intros [|[= -> -> ->]]; [by left|by right].
    + destruct (startPay_delta (payWay (pay s)) (topUpCount (pay s)) (minTopUp (pay s)) s s) as (l & E & Hl & Ht); [reflexivity|].
      exists l. split; [done|]. split; [|auto]. intros w a c m Hin. apply Hl in Hin as (Hlt & -> & -> & -> & ->).
      split_and!; [done..|]. by left.
  - assert (TAmount (ThenPay w c m) ∈ tasks s) as Hin by by eapply list_elem_of_lookup_2.
    destruct (w_pay _ _ Hs w c m Hin) as [Hw Hq].
    destruct (startPay_delta w c m s (setAmountLoading false (amount_answer a (without i s)))) as (l & E & Hl & Ht);
      [apply unpaid_amount_answer, unpaid_without|].
    exists l. split; [done|]. split; [|auto]. intros w' a' c' m' Hp. apply Hl in Hp as (Hlt & -> & -> & -> & ->).
    split_and!; [done..|]. by right.
Qed.

(** C33.  The page settles: once no answer is awaited no button is left
    loading, whatever failed and however the answers came. *)
Theorem page_settles (s : page) :
  session s → tasks s = [] →
  amountLoading (pay s) = false ∧ paymentLoading (pay s) = false ∧ confirmLoading (pay s) = false ∧
  isSubmitting (acc s) = false ∧ subscriptionLoading (subs s) = false.
Proof.
  intros Hs%winv_session Ht. destruct Hs. rewrite Ht in *. simpl in *. repeat split; apply not_true_is_false; intros H.
  - by destruct (w_amount0 H) as [? []%elem_of_nil].
  - by destruct (w_payment0 H) as (? & ? & []%elem_of_nil).
  - by destruct (w_confirming0 H) as [[? []%elem_of_nil]|[]%elem_of_nil].
  - by rewrite H in w_redeem0.
  - by apply w_plans0, elem_of_nil in H.
Qed.

(** C27.  Every way to pay that is offered has a name, a type, a colour and a
    finite minimum, whatever the service sent. *)
Theorem methods_typed (s : page) : session s → Forall method_ok (payMethods (conf s)).
Proof. intros Hs%winv_session. apply (w_methods _ _ Hs). Qed.

(** A code cannot be redeemed twice at the same time: at most one
    redemption is under way, and the button is blocked exactly while it is. *)
Theorem one_redemption (s : page) :
  session s →
  length (filter (λ k, is_redeem k = true) (tasks s)) ≤ 1 ∧
  (isSubmitting (acc s) = true ↔ ∃ u, TRedeem u ∈ tasks s).
Proof.
  intros Hs%winv_session. pose proof (w_redeem _ _ Hs) as H. simpl in H.
  assert (∀ k, k ∈ filter (λ k, is_redeem k = true) (tasks s) ↔ ∃ u, k = TRedeem u ∧ TRedeem u ∈ tasks s) as Hin.
  { intros k. rewrite list_elem_of_filter. split; [|by intros (u & -> & ?)]. intros [Hk ?]. destruct k; try done. eauto. }
  destruct (isSubmitting (acc s)).
  - split; [lia|]. split; [intros _|done]. destruct (filter _ (tasks s)) as [|k l] eqn:Hf; [done|].
    destruct (proj1 (Hin k)) as (u & -> & ?); [by left|]. eauto.
  - rewrite H. split; [simpl; lia|]. split; [done|]. intros [u Hu]. exfalso. apply (not_elem_of_nil (TRedeem u)).
    rewrite <-H. apply Hin. eauto.
Qed.
End sessions.

(** ** A session *)

Definition plain_t : string → string := λ x, x.
Definition sample_storage : gmap string string := {[ "quota_per_unit" := "500000" ]}.
Definition sample_status : option status := Some (Status (Nz 1) "" true true (Nz 7)).
Definition sample_method (name type min : string) : jsval :=
  VObj [("name", VStr name); ("type", VStr type); ("min_topup", VStr min)].
Definition sample_info : info :=
  Info [] VNull (VArr [sample_method "A" "alipay" ""; sample_method "S" "stripe" "5"; VObj []]) true true false
    (Nz 10) (Nz 5) "".
Definition success (x : string) : answer := Answer (VStr "success") (VStr x) VUndef.

Abbreviation sample_step := (step plain_t sample_storage "" false).
Abbreviation sample_session := (rtc sample_step (mount sample_storage sample_status)).

Definition sample_loaded : page := infoDone true (Served sample_info) (without 2 (mount sample_storage sample_status)).
Definition sample_ready : page := amountDone plain_t NoMore (success "70") (without 4 sample_loaded).
Definition sample_asked : page := preTopUp plain_t "alipay" sample_ready.
Definition sample_open : page :=
  amountDone plain_t (ThenConfirm (Nz 10) (Nz 10)) (success "70") (without 4 sample_asked).
Definition sample_paying : page := onlineTopUp sample_open.

Lemma sample_ready_reachable : sample_session sample_ready.
Proof.
  eapply rtc_l; [apply (step_info _ _ _ _ 2 true (Served sample_info)); reflexivity|].
  eapply rtc_l; [apply (step_amount _ _ _ _ 4 NoMore (success "70")); vm_compute; reflexivity|]. apply rtc_refl.
Qed.

Lemma sample_open_reachable : sample_session sample_open.
Proof.
  etransitivity; [apply sample_ready_reachable|].
  eapply rtc_l; [apply (step_way _ _ _ _ (default [] (head (payMethods (conf sample_ready)))) "alipay")|].
  - vm_compute. left.
  - vm_compute. reflexivity.
  - vm_compute. reflexivity.
  - vm_compute. reflexivity.
  - eapply rtc_l; [apply (step_amount _ _ _ _ 4 (ThenConfirm (Nz 10) (Nz 10)) (success "70")); vm_compute; reflexivity|].
    apply rtc_refl.
Qed.

Lemma sample_paying_reachable : sample_session sample_paying.
Proof.
  eapply rtc_r; [apply sample_open_reachable|]. apply step_confirm; vm_compute; reflexivity.
Qed.

Lemma payments_checked_witness :
  num_ltb (Nz 10) (Nz 10) = false ∧ Nz 10 = parse_int (num_to_str (Nz 10)) ∧ "alipay" ≠ "".
Proof.
  destruct (payments_checked plain_t sample_storage "" false sample_status sample_open sample_paying
    sample_open_reachable (step_confirm _ _ _ _ sample_open ltac:(vm_compute; reflexivity) ltac:(vm_compute; reflexivity)))
    as (l & E & H & _).
  assert (effects sample_paying = effects sample_open ++ [Pay "alipay" (Nz 10) (Nz 10) (Nz 10)]) as He
    by (vm_compute; reflexivity).
  rewrite He in E. apply app_inv_head in E. subst l.
  destruct (H "alipay" (Nz 10) (Nz 10) (Nz 10)) as (H1 & H2 & H3 & _); [left|]. exact (conj H1 (conj H2 H3)).
Defined.

Lemma methods_typed_witness : length (payMethods (conf sample_ready)) = 2 ∧ Forall method_ok (payMethods (conf sample_ready)).
Proof.
  split; [vm_compute; reflexivity|].
  exact (methods_typed plain_t sample_storage "" false sample_status sample_ready sample_ready_reachable).
Defined.

(** All answers, some of them failures. *)
Definition sample_done : page :=
  let s := payDone plain_t false "alipay" (Answer (VStr "error") (VStr "x") VUndef) (without 4 sample_paying) in
  let s := userDone (Served (User (Nz 0) [])) (without 0 s) in
  let s := affDone "" Rejected (without 0 s) in
  let s := plansDone Rejected (without 0 s) in
  subsDone Rejected (without 0 s).

Lemma sample_done_reachable : sample_session sample_done.
Proof.
  etransitivity; [apply sample_paying_reachable|].
  eapply rtc_l; [apply (step_paid _ _ _ _ 4 "alipay" (Answer (VStr "error") (VStr "x") VUndef)); vm_compute; reflexivity|].
  eapply rtc_l; [apply (step_user _ _ _ _ 0 (Served (User (Nz 0) []))); vm_compute; reflexivity|].
  eapply rtc_l; [apply (step_aff _ _ _ _ 0 Rejected); vm_compute; reflexivity|].
  eapply rtc_l; [apply (step_plans _ _ _ _ 0 Rejected); vm_compute; reflexivity|].
  eapply rtc_l; [apply (step_subs _ _ _ _ 0 Rejected); vm_compute; reflexivity|]. apply rtc_refl.
Qed.

Lemma page_settles_witness : confirmLoading (pay sample_paying) = true ∧ confirmLoading (pay sample_done) = false.
Proof.
  split; [vm_compute; reflexivity|].
  exact (proj1 (proj2 (proj2 (page_settles plain_t sample_storage "" false sample_status sample_done sample_done_reachable
    ltac:(vm_compute; reflexivity))))).
Defined.

Definition sample_redeeming : page := topUp plain_t (setRedemptionCode "abc" sample_ready).

Lemma sample_redeeming_reachable : sample_session sample_redeeming.
Proof.
  etransitivity; [apply sample_ready_reachable|]. eapply rtc_l; [apply step_code|].
  eapply rtc_l; [|apply rtc_refl]. apply step_redeem. vm_compute. reflexivity.
Qed.

Lemma one_redemption_witness : ∃ u, TRedeem u ∈ tasks sample_redeeming.
Proof.
  apply (proj2 (one_redemption plain_t sample_storage "" false sample_status sample_redeeming sample_redeeming_reachable)).
  vm_compute. reflexivity.
Defined.

(** Selecting a preset sets the price its card shows. *)
Lemma preset_price p s o a : card_prices s p = Ok (o, a) → amount (pay (selectPresetAmount p s)) = a.
Proof.
  unfold card_prices, selectPresetAmount. rewrite res_bind_Ok. intros (d & Hd & [= <- <-]).
  assert (preset_discount (setSelectedPreset (Some (p_value p)) (setTopUpCount (p_value p) s)) p = preset_discount s p) as ->
    by by destruct s.
  rewrite Hd. by destruct s as [[] ? ? ? ? ? ?].
Qed.

(** A typed count is shown and has no effect: the page goes on paying the
    count it had. *)
Lemma typed_count_ignored :
  let s := typeCount "50" (mountForm sample_ready) in
  (getValue "topUpCount" <$> countForm s) = Some (VNum (Nz 50)) ∧ topUpCount (pay s) = Nz 10 ∧
  let s := amountDone plain_t (ThenConfirm (Nz 10) (Nz 10)) (success "70") (without 4 (preTopUp plain_t "alipay" s)) in
  last (effects (onlineTopUp s)) = Some (Pay "alipay" (Nz 10) (Nz 10) (Nz 10)).
Proof. vm_compute. done. Qed.

(** While the amount is zero a confirmation asks for it first and does not
    block the button: two clicks send two payments. *)
Lemma confirmed_twice :
  let s := amountDone plain_t NoMore Failed (without 4 sample_loaded) in
  let s := amountDone plain_t (ThenConfirm (Nz 10) (Nz 10)) Failed (without 4 (preTopUp plain_t "alipay" s)) in
  let s := onlineTopUp (onlineTopUp s) in
  open (pay s) = true ∧ confirmLoading (pay s) = false ∧
  let again := amountDone plain_t (ThenPay "alipay" (Nz 10) (Nz 10)) (success "70") in
  drop 4 (tasks (again (without 4 (again (without 4 s))))) = [TPay "alipay"; TPay "alipay"].
Proof. vm_compute. done. Qed.

(** The price of one way to pay shown in the confirmation of another. *)
Lemma price_of_other_way :
  let s := preTopUp plain_t "stripe" (preTopUp plain_t "alipay" sample_ready) in
  let s := amountDone plain_t (ThenConfirm (Nz 10) (Nz 10)) (success "11") (without 5 s) in
  let s := amountDone plain_t (ThenConfirm (Nz 10) (Nz 10)) (success "70") (without 4 s) in
  open (pay s) = true ∧ payWay (pay s) = "stripe" ∧ amount (pay s) = Nz 70.
Proof. vm_compute. done. Qed.

(** The answer about the first price replaces the price of a preset. *)
Lemma price_of_other_count :
  let s := clickPreset (Preset (Nz 100) VUndef) sample_loaded in
  let s' := amountDone plain_t NoMore (success "70") (without 4 s) in
  amount (pay s) = Nz 700 ∧ topUpCount (pay s') = Nz 100 ∧ amount (pay s') = Nz 70.
Proof. vm_compute. done. Qed.

(** The transfer has no flag: two clicks send two transfers. *)
Lemma transferred_twice :
  let s := setOpenTransfer true sample_ready in
  let s := transfer plain_t sample_storage (transfer plain_t sample_storage s) in
  openTransfer (acc s) = true ∧ drop 4 (tasks s) = [TTransfer; TTransfer].
Proof. vm_compute. done. Qed.

(** A redemption adds to the quota of the render it was started in, and
    forgets what was loaded since. *)
Lemma loaded_quota_lost :
  let s := userDone (Served (User (Nz 100) [])) (without 0 sample_ready) in
  let s := getUserQuota (topUp plain_t (setRedemptionCode "abc" s)) in
  let s := userDone (Served (User (Nz 400) [])) (without 5 s) in
  let s := redeemDone plain_t sample_storage (Some (User (Nz 100) [])) (Served (Nz 50)) (without 4 s) in
  theUser (acc s) = Some (User (Nz 150) []).
Proof. vm_compute. done. Qed.
