(* ===== verification/SidebarSettings.v ===== *)
(** * The settings of side bar and header

    [web/src/pages/Setting/Operation/SettingsSidebarModulesAdmin.jsx] and
    [SettingsHeaderNavModules.jsx] (module [Admin]: what administrators
    switch), the side bar tab of
    [components/settings/personal/cards/NotificationSettings.jsx] (module
    [Personal]: what users switch) and
    [hooks/common/useHeaderBar.js] (module [HeaderBar]).

    The pages write the texts which [Sidebar] and [Navigation] read; the
    theorems follow a switch from the click through the stored texts to what
    is shown. *)
From Stdlib Require Import Ascii SpecFloat.
From S2P Require Import Prelude JsString JsNumber JsValue Json JsonRoundtrip JsonKeys Sidebar.

(** ** Switches *)

(** [{ ...modules, [s]: { ...modules[s], [k]: checked } }]. *)
Definition setSwitch (s k : string) (checked : bool) (modules : jsval) : jsval :=
  VObj (obj_define s (VObj (obj_define k (VBool checked) (spread_props (prop_opt modules s)))) (spread_props modules)).

Definition handleSectionChange (s : string) (checked : bool) : jsval → jsval := setSwitch s "enabled" checked.
Definition handleModuleChange (s m : string) (checked : bool) : jsval → jsval := setSwitch s m checked.

(** A click: section, module (["enabled"] for the section itself), new value. *)
Record click := Click { c_section : string; c_key : string; c_on : bool }.

Definition clicked (v : jsval) (c : click) : jsval := setSwitch (c_section c) (c_key c) (c_on c) v.
Definition clicks (v : jsval) (cs : list click) : jsval := foldl clicked v cs.

(** The last click on a switch. *)
Definition last_click (s k : string) (cs : list click) : option bool :=
  foldl (λ r c, if decide (c_section c = s ∧ c_key c = k) then Some (c_on c) else r) None cs.

Module Admin.

(** What differs between the two pages. *)
Record kind := Kind {
  option_key : string;
  defaultModules : jsval;
  (** What is done with a parsed value. *)
  convert : jsval → res jsval }.

Definition on (ks : list string) : jsval := VObj ((λ k, (k, VBool true)) <$> ks).

Definition sidebar : kind :=
  Kind "SidebarModulesAdmin"
    (VObj [("chat", on ["enabled"; "chat"]);
           ("console", on ["enabled"; "detail"; "token"; "log"; "midjourney"; "task"]);
           ("personal", on ["enabled"; "topup"; "personal"]);
           ("admin", on ["enabled"; "channel"; "models"; "deployment"; "redemption"; "user"; "subscription"; "setting"])])
    Ok.

Definition pricing_of (enabled requireAuth : bool) : jsval :=
  VObj [("enabled", VBool enabled); ("requireAuth", VBool requireAuth)].

(** A boolean [pricing] of older versions becomes an object. *)
Definition convert_pricing (modules : jsval) : res jsval :=
  pricing ← prop modules "pricing";
  Ok (match pricing, modules with
      | VBool b, VObj o => VObj (obj_set "pricing" (pricing_of b false) o)
      | _, _ => modules
      end).

Definition header : kind :=
  Kind "HeaderNavModules"
    (VObj [("home", VBool true); ("console", VBool true); ("pricing", pricing_of true false); ("docs", VBool true);
           ("about", VBool true)])
    convert_pricing.

Inductive effect :=
| Put (key value : string) | ShowSuccess (text : string) | ShowError (e : jsval)
| SetStatus (key value : string) | Refresh.

(** A save waits for its answer, then for the refresh of the parent. *)
Inductive task := TSave (text : string) | TRefresh.

Record page := Page { modules : jsval; loading : bool; tasks : list task; effects : list effect }.

Definition setModules (v : jsval) (s : page) : page := Page v (loading s) (tasks s) (effects s).
Definition setLoading (b : bool) (s : page) : page := Page (modules s) b (tasks s) (effects s).
Definition emit (e : effect) (s : page) : page := Page (modules s) (loading s) (tasks s) (effects s ++ [e]).
Definition await (k : task) (s : page) : page := Page (modules s) (loading s) (tasks s ++ [k]) (effects s).

Section page.
Context (t : string → string) (K : kind).

Definition mount : page := Page (defaultModules K) false [] [].

Definition change (f : jsval → jsval) (s : page) : page := setModules (f (modules s)) s.

Definition resetModules (s : page) : page := emit (ShowSuccess (t "已重置为默认配置")) (setModules (defaultModules K) s).

(** The effect on [props.options]. *)
Definition loadOptions (text : option string) (s : page) : page :=
  match text with
  | None | Some "" => s
  | Some x =>
      let v := match json_parse x with Some v => convert K v | None => Throw "SyntaxError" end in
      setModules (match v with Ok v => v | Throw _ => defaultModules K end) s
  end.

Definition onSubmit (s : page) : page :=
  let text := stringify (modules s) in
  await (TSave text) (emit (Put (option_key K) text) (setLoading true s)).

Inductive reply := Rejected | Refused (message : jsval) | Served.

(** [refresh]: whether the parent gave one. *)
Definition saveDone (refresh : bool) (text : string) (r : reply) (s : page) : page :=
  match r with
  | Rejected => setLoading false (emit (ShowError (VStr (t "保存失败，请重试"))) s)
  | Refused m => setLoading false (emit (ShowError m) s)
  | Served =>
      let s := emit (SetStatus (option_key K) text) (emit (ShowSuccess (t "保存成功")) s) in
      if refresh then await TRefresh (emit Refresh s) else setLoading false s
  end.

Definition refreshDone (ok : bool) (s : page) : page :=
  setLoading false (if ok then s else emit (ShowError (VStr (t "保存失败，请重试"))) s).
End page.

(** The switches of the header: [pricing] keeps its object. *)
Definition handleHeaderNavModuleChange (k : string) (checked : bool) (modules : jsval) : jsval :=
  if decide (k = "pricing") then setSwitch "pricing" "enabled" checked modules
  else VObj (obj_set k (VBool checked) (spread_props modules)).
Definition handlePricingAuthChange (checked : bool) : jsval → jsval := setSwitch "pricing" "requireAuth" checked.

(** The switch of the side bar page as it is rendered, and whether it can be
    clicked. *)
Definition section_checked (modules : jsval) (s : string) : bool := truthy (prop_opt (prop_opt modules s) "enabled").
Definition module_checked (modules : jsval) (s m : string) : bool := truthy (prop_opt (prop_opt modules s) m).
Definition module_disabled (modules : jsval) (s : string) : bool := negb (section_checked modules s).

Definition sectionConfigs : list (string * list string) :=
  [("chat", ["chat"]); ("console", ["detail"; "token"; "log"; "midjourney"; "task"]);
   ("personal", ["topup"; "personal"]);
   ("admin", ["channel"; "models"; "deployment"; "subscription"; "redemption"; "user"; "setting"])].

End Admin.

Module Personal.
Import Sidebar.

Inductive effect := PutSelf (text : string) | GetSelf | ShowSuccess (text : string) | ShowError (e : jsval)
| RefreshUserConfig.

Inductive task := TSelf | TSave | TRefresh.

Record page := Page {
  sidebarModulesUser : jsval; theAdminConfig : option config; sidebarLoading : bool; tasks : list task;
  effects : list effect }.

Definition setModules (v : jsval) (s : page) : page :=
  Page v (theAdminConfig s) (sidebarLoading s) (tasks s) (effects s).
Definition setAdmin (c : config) (s : page) : page :=
  Page (sidebarModulesUser s) (Some c) (sidebarLoading s) (tasks s) (effects s).
Definition setLoading (b : bool) (s : page) : page :=
  Page (sidebarModulesUser s) (theAdminConfig s) b (tasks s) (effects s).
Definition emit (e : effect) (s : page) : page :=
  Page (sidebarModulesUser s) (theAdminConfig s) (sidebarLoading s) (tasks s) (effects s ++ [e]).
Definition await (k : task) (s : page) : page :=
  Page (sidebarModulesUser s) (theAdminConfig s) (sidebarLoading s) (tasks s ++ [k]) (effects s).

Definition defaultConfig : jsval :=
  VObj [("chat", Admin.on ["enabled"; "chat"]);
        ("console", Admin.on ["enabled"; "detail"; "token"; "log"; "midjourney"; "task"]);
        ("personal", Admin.on ["enabled"; "topup"; "personal"]);
        ("admin", Admin.on ["enabled"; "channel"; "models"; "deployment"; "subscription"; "redemption"; "user"; "setting"])].

Definition initial : page := Page defaultConfig None false [] [].

Section page.
Variable t : string → string.

Definition change (f : jsval → jsval) (s : page) : page := setModules (f (sidebarModulesUser s)) s.

Definition resetSidebarModules (s : page) : page := setModules defaultConfig s.

(** The effect on the status, whose text is given. *)
Definition loadSidebarConfigs (text : option string) (s : page) : page :=
  await TSelf (emit GetSelf (setAdmin (adminConfig text) s)).

(** The answer of [/api/user/self] is read as by [Sidebar]; errors are
    ignored. *)
Definition selfDone (response : res jsval) (s : page) : page :=
  match fetched response with Ok (Some v) => setModules v s | _ => s end.

Definition saveSidebarSettings (s : page) : page :=
  await TSave (emit (PutSelf (stringify (sidebarModulesUser s))) (setLoading true s)).

Definition saveDone (r : Admin.reply) (s : page) : page :=
  match r with
  | Admin.Rejected => setLoading false (emit (ShowError (VStr (t "保存失败"))) s)
  | Admin.Refused m => setLoading false (emit (ShowError m) s)
  | Admin.Served => await TRefresh (emit RefreshUserConfig (emit (ShowSuccess (t "侧边栏设置保存成功")) s))
  end.

(** [refreshUserConfig] never rejects. *)
Definition refreshDone (s : page) : page := setLoading false s.

(** [isAllowedByAdmin]; an empty [m] stands for the default [null]. *)
Definition isAllowedByAdmin (s : page) (sectionKey m : string) : bool :=
  match theAdminConfig s with
  | None => true
  | Some c =>
      let section := from_option VObj VUndef (obj_get c sectionKey) in
      truthy (prop_opt section "enabled") && (bool_decide (m = "") || truthy (prop_opt section m))
  end.

Definition allSections : list (string * list string) := Admin.sectionConfigs.

(** The sections of the page, by the permissions of the user. *)
Definition sectionConfigs (permissions : jsval) (s : page) : list (string * list string) :=
  filter (λ sm, sm.2 ≠ [] ∧ isAllowedByAdmin s sm.1 "" = true)
    ((λ sm, (sm.1, filter (λ m, Permissions.isSidebarModuleAllowed permissions sm.1 m = true) sm.2)) <$>
      filter (λ sm, Permissions.isSidebarSectionAllowed permissions sm.1 = true) allSections).

(** The modules of a section that are rendered. *)
Definition offered (permissions : jsval) (s : page) (sectionKey : string) : list string :=
  filter (λ m, isAllowedByAdmin s sectionKey m = true) (default [] (obj_get (sectionConfigs permissions s) sectionKey)).

Definition section_checked (s : page) (k : string) : bool :=
  negb (is_false (prop_opt (prop_opt (sidebarModulesUser s) k) "enabled")).
Definition module_checked (s : page) (k m : string) : bool :=
  negb (is_false (prop_opt (prop_opt (sidebarModulesUser s) k) m)).
End page.
End Personal.

Module HeaderBar.

Definition supportedLanguages : list string := ["zh-CN"; "zh-TW"; "en"; "fr"; "ru"; "ja"; "vi"].

(** [normalizeLanguage]; no language and the empty one stay. *)
Definition normalizeLanguage (language : string) : string :=
  if decide (language = "") then "" else
  let normalized := replace_all "_" "-" (trim language) in
  let lower := to_lower normalized in
  if bool_decide (lower ∈ ["zh"; "zh-cn"; "zh-sg"]) || starts_with "zh-hans" lower then "zh-CN"
  else if bool_decide (lower ∈ ["zh-tw"; "zh-hk"; "zh-mo"]) || starts_with "zh-hant" lower then "zh-TW"
  else default normalized (head (filter (λ l, to_lower l = lower) supportedLanguages)).

(** [headerNavModules]: [null] without a readable text. *)
Definition headerNavModules (text : option string) : jsval :=
  match text with
  | None | Some "" => VNull
  | Some x => match json_parse x with
              | Some v => match Admin.convert_pricing v with Ok v => v | Throw _ => VNull end
              | None => VNull
              end
  end.

Definition pricingRequireAuth (modules : jsval) : jsval :=
  let pricing := prop_opt modules "pricing" in
  if truthy pricing then if typeof_object pricing then prop_opt pricing "requireAuth" else VBool false
  else VBool false.

(** *** Actions *)

Inductive effect :=
| Logout | PutLanguage (lang : string) | ShowSuccess (text : string) | Navigate (path : string)
| SetTheme (theme : string) | ToggleMenu | ToggleCollapsed.

(** A save of the language, with the language of before and the user of the
    render. *)
Inductive task := TLogout | TLanguage (previousLang lang : string) (user : obj).

(** [language] is that of i18n; [stored] and [storedUser] are items of the
    local storage. *)
Record bar := Bar {
  language : string; stored : option string; theUser : option obj; storedUser : option string;
  tasks : list task; effects : list effect }.

Definition emit (e : effect) (s : bar) : bar :=
  Bar (language s) (stored s) (theUser s) (storedUser s) (tasks s) (effects s ++ [e]).
Definition await (k : task) (s : bar) : bar :=
  Bar (language s) (stored s) (theUser s) (storedUser s) (tasks s ++ [k]) (effects s).
Definition changeLanguage (lang : string) (s : bar) : bar :=
  Bar lang (Some lang) (theUser s) (storedUser s) (tasks s) (effects s).
Definition setUser (u : option obj) (text : option string) (s : bar) : bar :=
  Bar (language s) (stored s) u text (tasks s) (effects s).

Section bar.
Variable t : string → string.

Definition logout (s : bar) : bar := await TLogout (emit Logout s).
(** A rejected request ends the handler. *)
Definition logoutDone (ok : bool) (s : bar) : bar :=
  if ok then emit (Navigate "/login") (setUser None None (emit (ShowSuccess (t "注销成功!")) s)) else s.

Definition handleLanguageChange (lang : string) (s : bar) : bar :=
  let previousLang := normalizeLanguage (language s) in
  let s' := changeLanguage lang s in
  match theUser s with
  | Some u => if truthy (prop_opt (VObj u) "id") then await (TLanguage previousLang lang u) (emit (PutLanguage lang) s') else s'
  | None => s'
  end.

(** The settings of the user, an empty object if there are none that can be
    read. *)
Definition user_settings (u : obj) : jsval :=
  let v := prop_opt (VObj u) "setting" in
  if truthy v then
    match to_str v with
    | Ok x => match json_parse x with Some v => js_or v (VObj []) | None => VObj [] end
    | Throw _ => VObj []
    end
  else VObj [].

(** [settings.language = lang]: a primitive value throws, and the property of
    an array is not printed. *)
Definition with_language (lang : string) (v : jsval) : res jsval :=
  match v with
  | VObj o => Ok (VObj (obj_set "language" (VStr lang) o))
  | VArr _ => Ok v
  | _ => Throw "TypeError"
  end.

Definition nextUser (lang : string) (u : obj) : res obj :=
  settings ← with_language lang (user_settings u);
  Ok (obj_define "setting" (VStr (stringify settings)) u).

Inductive reply := Rejected | Answered (success : bool).

Definition restore (previousLang : string) (s : bar) : bar :=
  if decide (previousLang = "") then s else changeLanguage previousLang s.

Definition languageDone (previousLang lang : string) (u : obj) (r : reply) (s : bar) : bar :=
  match r with
  | Rejected => restore previousLang s
  | Answered true => match nextUser lang u with
                     | Ok u' => setUser (Some u') (Some (stringify (VObj u'))) s
                     | Throw _ => restore previousLang s
                     end
  | Answered false => s
  end.

Definition handleThemeToggle (newTheme : string) (s : bar) : bar :=
  if decide (newTheme ∈ ["light"; "dark"; "auto"]) then emit (SetTheme newTheme) s else s.

Definition handleMobileMenuToggle (isMobile : bool) (s : bar) : bar :=
  emit (if isMobile then ToggleMenu else ToggleCollapsed) s.
End bar.
End HeaderBar.

(** ** From the switches to the side bar *)

(** [o[s]?.[k]]. *)
Definition value (o : obj) (s k : string) : option jsval := obj_get o s ≫= λ sec, obj_get (own_props sec) k.

(** An object of objects that JSON keeps. *)
Definition config_json (o : obj) : Prop := json_ok (VObj o) = true ∧ Forall (λ kv, ∃ sec, kv.2 = VObj sec) o.

Lemma json_ok_keys o : json_ok (VObj o) = true → NoDup (obj_keys o).
Proof. rewrite json_ok_obj. intros [H _]%andb_true_iff. by apply keys_ok_NoDup. Qed.

Lemma json_ok_get o k v : json_ok (VObj o) = true → obj_get o k = Some v → json_ok v = true.
Proof.
  rewrite json_ok_obj. intros [_ H]%andb_true_iff Hk%obj_get_elem_of. rewrite forallb_forall in H.
  by apply (H (k, v)), list_elem_of_In.
Qed.

Lemma setSwitch_json s k b o sec : json_ok (VObj o) = true → spread_props (prop_opt (VObj o) s) = sec →
  json_ok (VObj sec) = true →
  setSwitch s k b (VObj o) = VObj (obj_define s (VObj (obj_define k (VBool b) sec)) o) ∧
  json_ok (setSwitch s k b (VObj o)) = true.
Proof.
  intros Ho <- Hs. split; [done|]. apply obj_define_json; [|done]. by apply obj_define_json.
Qed.

Lemma section_of o s : config_json o → ∃ sec, spread_props (prop_opt (VObj o) s) = sec ∧ json_ok (VObj sec) = true ∧
  ∀ k, value o s k = obj_get sec k.
Proof.
  intros [Hj Hs]. unfold value. simpl. destruct (obj_get o s) as [v|] eqn:Hv; simpl.
  - pose proof (json_ok_get _ _ _ Hj Hv) as Hok. apply obj_get_elem_of in Hv. rewrite Forall_forall in Hs.
    destruct (Hs _ Hv) as [sec Hsec]. simpl in Hsec. subst v. by exists sec.
  - by exists [].
Qed.

Lemma clicked_config o c : config_json o → ∃ o', clicked (VObj o) c = VObj o' ∧ config_json o' ∧
  ∀ s k, value o' s k = if decide (s = c_section c ∧ k = c_key c) then Some (VBool (c_on c)) else value o s k.
Proof.
  intros Ho. destruct (section_of o (c_section c) Ho) as (sec & Hsp & Hsec & Hval). destruct Ho as [Hj Hs].
  destruct (setSwitch_json (c_section c) (c_key c) (c_on c) o sec Hj Hsp Hsec) as [He Hj'].
  unfold clicked. rewrite He in Hj'. rewrite He. eexists. split; [reflexivity|]. split.
  - split; [exact Hj'|]. apply Forall_forall. intros [k v] Hin%elem_of_obj_get; [|by apply json_ok_keys].
    rewrite obj_get_define in Hin. case_decide; simplify_eq; [by eexists|].
    apply obj_get_elem_of in Hin. rewrite Forall_forall in Hs. by apply (Hs (k, v)).
  - intros s k. unfold value at 1. rewrite obj_get_define. destruct (decide (s = c_section c)) as [->|Hne]; simpl.
    + rewrite obj_get_define. destruct (decide (k = c_key c)) as [->|Hk]; [by rewrite decide_True|].
      rewrite decide_False by naive_solver. symmetry. apply Hval.
    + by rewrite decide_False by naive_solver.
Qed.

Lemma clicks_config o cs : config_json o → ∃ o', clicks (VObj o) cs = VObj o' ∧ config_json o' ∧
  ∀ s k, value o' s k = match last_click s k cs with Some b => Some (VBool b) | None => value o s k end.
Proof.
  intros Ho. induction cs as [|c cs IH] using rev_ind; [by exists o|].
  destruct IH as (o1 & H1 & Ho1 & Hv1). destruct (clicked_config o1 c Ho1) as (o2 & H2 & Ho2 & Hv2).
  exists o2. unfold clicks, last_click in *. setoid_rewrite foldl_app. cbn [foldl]. rewrite H1. split; [exact H2|]. split; [exact Ho2|].
  intros s k. rewrite Hv2. repeat case_decide; naive_solver.
Qed.

(** A printed configuration is read back, and is not empty. *)
Lemma stringify_obj o : json_ok (VObj o) = true →
  stringify (VObj o) ≠ "" ∧ json_parse (stringify (VObj o)) = Some (VObj o).
Proof.
  intros Ho. pose proof (json_parse_stringify _ Ho) as H. split; [|done]. intros E. rewrite E in H. done.
Qed.

(** The answer of [/api/user/self]. *)
Definition self_answer (text : string) : jsval :=
  VObj [("data", VObj [("success", VBool true); ("data", VObj [("sidebar_modules", VStr text)])])].

(** The configuration [a] or a click mentions the switch. *)
Definition mentioned (a : obj) (cs : list click) (s k : string) : Prop :=
  is_Some (last_click s k cs) ∨ is_Some (value a s k).
#[export] Instance mentioned_dec a cs s k : Decision (mentioned a cs s k).
Proof. unfold mentioned. apply _. Defined.

(** What a switch of the administrator counts for, after the clicks: what the
    page shows, or the default for one that nothing mentions. *)
Definition admin_switch (a : obj) (cs : list click) (s k : string) : bool :=
  if decide (mentioned a cs s k) then Admin.module_checked (clicks (VObj a) cs) s k
  else truthy (default VUndef (Sidebar.config_value Sidebar.DEFAULT_ADMIN_CONFIG s k)).
(** What the switches of the user say, after the clicks. *)
Definition user_switch (u : obj) (cs : list click) (s k : string) : bool :=
  match last_click s k cs with Some b => b | None => negb (is_false (default VUndef (value u s k))) end.

Lemma admin_value a s k : config_json a → s ≠ "__proto__" →
  Sidebar.config_value (Sidebar.mergeAdminConfig (VObj a)) s k =
    match value a s k with Some v => Some v | None => Sidebar.config_value Sidebar.DEFAULT_ADMIN_CONFIG s k end.
Proof.
  intros [Hj Hs] Hp. rewrite Sidebar.merged_config_value; [|by apply json_ok_keys| |done].
  - unfold value. destruct (obj_get a s) as [v|] eqn:Hv; simpl; [|done].
    apply obj_get_elem_of in Hv. rewrite Forall_forall in Hs. destruct (Hs _ Hv) as [sec Hsec]. simpl in Hsec. by subst v.
  - apply Forall_forall. intros [k' v] Hin. rewrite Forall_forall in Hs. destruct (Hs _ Hin) as [sec Hsec].
    simpl in *. subst v. simpl. eapply json_ok_keys, json_ok_get; [exact Hj|]. apply elem_of_obj_get; [|done].
    by apply json_ok_keys.
Qed.

Lemma user_allows_value u s k : config_json u →
  Sidebar.user_allows (prop_opt (VObj u) s) k = negb (is_false (default VUndef (value u s k))).
Proof.
  intros [_ Hs]. unfold Sidebar.user_allows, value. simpl. destruct (obj_get u s) as [v|] eqn:Hv; simpl; [|done].
  apply obj_get_elem_of in Hv. rewrite Forall_forall in Hs. destruct (Hs _ Hv) as [sec Hsec]. simpl in Hsec. by subst v.
Qed.

Lemma admin_section c s m :
  (∃ section, obj_get c s = Some section ∧ Sidebar.enabled section = true ∧ truthy (prop_opt (VObj section) m) = true) ↔
  truthy (default VUndef (Sidebar.config_value c s "enabled")) = true ∧
  truthy (default VUndef (Sidebar.config_value c s m)) = true.
Proof.
  unfold Sidebar.config_value, Sidebar.enabled. destruct (obj_get c s) as [sec|]; simpl; split.
  - by intros (section & [= <-] & ? & ?).
  - intros [? ?]. by exists sec.
  - naive_solver.
  - naive_solver.
Qed.

Lemma prop_value o s k : config_json o → prop_opt (prop_opt (VObj o) s) k = default VUndef (value o s k).
Proof.
  intros [_ Hs]. unfold value. simpl. destruct (obj_get o s) as [v|] eqn:Hv; simpl; [|done].
  apply obj_get_elem_of in Hv. rewrite Forall_forall in Hs. destruct (Hs _ Hv) as [sec Hsec]. simpl in Hsec. by subst v.
Qed.

Lemma admin_checked a cs s k : config_json a →
  Admin.module_checked (clicks (VObj a) cs) s k =
    match last_click s k cs with Some b => b | None => truthy (default VUndef (value a s k)) end.
Proof.
  intros Ha. destruct (clicks_config a cs Ha) as (a' & -> & Ha' & Hv). unfold Admin.module_checked.
  rewrite prop_value, Hv by done. by destruct (last_click s k cs) as [[]|].
Qed.

Lemma user_checked u cs s k : config_json u →
  negb (is_false (prop_opt (prop_opt (clicks (VObj u) cs) s) k)) = user_switch u cs s k.
Proof.
  intros Hu. destruct (clicks_config u cs Hu) as (u' & -> & Hu' & Hv). unfold user_switch.
  rewrite prop_value, Hv by done. by destruct (last_click s k cs) as [[]|].
Qed.

Lemma admin_switch_value a cs o s k : config_json a → config_json o → s ≠ "__proto__" →
  (∀ s k, value o s k = match last_click s k cs with Some b => Some (VBool b) | None => value a s k end) →
  truthy (default VUndef (Sidebar.config_value (Sidebar.mergeAdminConfig (VObj o)) s k)) = admin_switch a cs s k.
Proof.
  intros Ha Ho Hs Hv. rewrite admin_value, Hv by done. unfold admin_switch. rewrite admin_checked by done.
  case_decide as Hm; unfold mentioned in Hm; destruct (last_click s k cs) as [[]|], (value a s k); try done.
  - by destruct Hm as [[]|[]].
  - by destruct Hm; left; eexists.
  - by destruct Hm; left; eexists.
  - by destruct Hm; left; eexists.
  - by destruct Hm; left; eexists.
  - by destruct Hm; right; eexists.
Qed.

Lemma user_switch_value u cs o s k : config_json o →
  (∀ s k, value o s k = match last_click s k cs with Some b => Some (VBool b) | None => value u s k end) →
  Sidebar.user_allows (prop_opt (VObj o) s) k = user_switch u cs s k.
Proof. intros Ho Hv. rewrite user_allows_value, Hv by done. unfold user_switch. by destruct (last_click s k cs) as [[]|]. Qed.

(** C5.  From the switches to the side bar, for whatever configurations
    (objects of sections) the two pages were opened with and whatever was clicked on them.  A switch of
    the page of the administrator shows its last click, or what is stored,
    and is off when neither mentions it.  After both pages are saved a module
    is shown exactly when four switches are on: the section and the module on
    the page of the user, and the section and the module on that of the
    administrator, where a switch that is mentioned counts as the page shows
    it, and one that nothing mentions counts as in the default configuration,
    although the page shows it off. *)
Theorem saved_switches_decide (a u : obj) (acs ucs : list click) (s m : string) :
  config_json a → config_json u → s ≠ "__proto__" → Sidebar.ordinary m →
  let modules := clicks (VObj a) acs in
  let personal := Personal.setModules (clicks (VObj u) ucs) Personal.initial in
  let admin := Sidebar.adminConfig (Some (stringify modules)) in
  let user := Sidebar.user_config_of admin (Ok (self_answer (stringify (Personal.sidebarModulesUser personal)))) in
  let counts k :=
    mentioned a acs s k ∧ Admin.module_checked modules s k = true ∨
    ¬ mentioned a acs s k ∧ truthy (default VUndef (Sidebar.config_value Sidebar.DEFAULT_ADMIN_CONFIG s k)) = true in
  (∀ k, Admin.module_checked modules s k =
     match last_click s k acs with Some b => b | None => truthy (default VUndef (value a s k)) end) ∧
  (∀ k, ¬ mentioned a acs s k → Admin.module_checked modules s k = false) ∧
  (Sidebar.isModuleVisible (Sidebar.finalConfig admin user) s m = true ↔
     counts "enabled" ∧ counts m ∧
     Personal.section_checked personal s = true ∧ Personal.module_checked personal s m = true).
Proof.
  intros Ha Hu Hs Hm modules personal admin user counts.
  assert (∀ k, counts k ↔ admin_switch a acs s k = true) as Hc.
  { intros k. unfold counts, admin_switch. case_decide; naive_solver. }
  split; [intros k; by apply admin_checked|]. split.
  { intros k Hk. unfold modules. rewrite admin_checked by done. unfold mentioned in Hk.
    destruct (last_click s k acs); [by destruct Hk; eauto|]. by destruct (value a s k); [destruct Hk; eauto|]. }
  rewrite !Hc. unfold Personal.section_checked, Personal.module_checked. simpl. rewrite !user_checked by done.
  destruct (clicks_config a acs Ha) as (a' & Ea & Ha' & Hva).
  destruct (clicks_config u ucs Hu) as (u' & Eu & Hu' & Hvu).
  destruct (stringify_obj a' (proj1 Ha')) as [Hna Hpa]. destruct (stringify_obj u' (proj1 Hu')) as [Hnu Hpu].
  assert (user = VObj u') as ->.
  { unfold user, personal, Sidebar.user_config_of, Sidebar.fetched. simpl. rewrite Eu. unfold mbind, res_bind.
    by rewrite bool_decide_false, Hpu. }
  assert (admin = Sidebar.mergeAdminConfig (VObj a')) as ->.
  { unfold admin, modules, Sidebar.adminConfig. rewrite Ea. by rewrite bool_decide_false, Hpa. }
  rewrite Sidebar.module_visible by (done || apply Sidebar.mergeAdminConfig_ok).
  rewrite !(user_switch_value u ucs u') by done.
  rewrite <-!(admin_switch_value a acs a') by done.
  pose proof (admin_section (Sidebar.mergeAdminConfig (VObj a')) s m) as H. naive_solver.
Qed.

Definition sample_admin : obj := [("console", VObj [("enabled", VBool true); ("log", VBool false)])].
Lemma sample_config : config_json sample_admin.
Proof. split; [vm_compute; reflexivity|]. repeat constructor. simpl. eauto. Qed.

Lemma saved_switches_decide_witness :
  let admin := Sidebar.adminConfig (Some (stringify (clicks (VObj sample_admin) [Click "console" "log" true]))) in
  let user := Sidebar.user_config_of admin (Ok (self_answer (stringify (clicks (VObj []) [Click "console" "task" false])))) in
  Sidebar.isModuleVisible (Sidebar.finalConfig admin user) "console" "log" = true.
Proof.
  destruct (saved_switches_decide sample_admin [] [Click "console" "log" true] [Click "console" "task" false]
    "console" "log") as (_ & _ & H).
  - exact sample_config.
  - split; [vm_compute; reflexivity|constructor].
  - done.
  - apply (bool_decide_unpack _). by vm_compute.
  - intros admin user. apply H.
    split; [left; split; [by apply (bool_decide_unpack _)|by vm_compute]|].
    split; [left; split; [by apply (bool_decide_unpack _)|by vm_compute]|]. by vm_compute.
Defined.

(** A module that the stored text does not mention is shown, while its switch
    is off. *)
Lemma absent_shown_off :
  let modules := clicks (VObj sample_admin) [] in
  Admin.module_checked modules "console" "token" = false ∧
  admin_switch sample_admin [] "console" "token" = true.
Proof. vm_compute. done. Qed.

(** The text [null] is taken over by the side bar page, whose render then
    reads a property of [null]. *)
Lemma null_configuration :
  Admin.modules (Admin.loadOptions Admin.sidebar (Some "null") (Admin.mount Admin.sidebar)) = VNull ∧
  Admin.modules (Admin.loadOptions Admin.header (Some "null") (Admin.mount Admin.header)) = Admin.defaultModules Admin.header.
Proof. vm_compute. done. Qed.

(** ** What users are offered *)

Lemma allowed_by_admin s text k m : Personal.theAdminConfig s = Some (Sidebar.adminConfig text) → m ≠ "" →
  Personal.isAllowedByAdmin s k m = true ↔
  ∃ section, obj_get (Sidebar.adminConfig text) k = Some section ∧ Sidebar.enabled section = true ∧
    truthy (prop_opt (VObj section) m) = true.
Proof.
  intros Hc Hm. unfold Personal.isAllowedByAdmin. rewrite Hc. rewrite (bool_decide_false (m = "")) by done. simpl.
  unfold Sidebar.enabled. destruct (obj_get (Sidebar.adminConfig text) k) as [sec|]; simpl.
  - rewrite andb_true_iff. split; [|by intros (? & [= <-] & ?)]. intros [? ?]. by exists sec.
  - naive_solver.
Qed.

Lemma offered_allowed perms s k m :
  m ∈ Personal.offered perms s k → Personal.isAllowedByAdmin s k m = true ∧ m ∈ mjoin Admin.sectionConfigs.*2 ∧
    Permissions.isSidebarModuleAllowed perms k m = true.
Proof.
  unfold Personal.offered. rewrite list_elem_of_filter. intros [Ha Hin]. split; [done|].
  destruct (obj_get _ k) as [ms|] eqn:Hg; simpl in Hin; [|by apply elem_of_nil in Hin].
  apply obj_get_elem_of in Hg. unfold Personal.sectionConfigs in Hg.
  apply list_elem_of_filter in Hg as [_ ([k' ms'] & [= -> ->] & Hin')%list_elem_of_fmap].
  apply list_elem_of_filter in Hin as [Hp Hin]. apply list_elem_of_filter in Hin' as [_ Hin']. split; [|done].
  apply list_elem_of_join. exists ms'. split; [done|]. apply list_elem_of_fmap. by exists (k', ms').
Qed.

(** Every switch a user is offered has an effect: for an offered module,
    whatever was clicked before saving, the module is shown exactly when the
    switches of its section and of the module are on; and only modules the
    permissions of the user allow are offered. *)
Theorem offered_switch_effective (perms : jsval) (s : Personal.page) (text : option string) (u : obj) (ucs : list click)
    (k m : string) :
  config_json u → Personal.theAdminConfig s = Some (Sidebar.adminConfig text) → m ∈ Personal.offered perms s k →
  Permissions.isSidebarModuleAllowed perms k m = true ∧
  (Sidebar.isModuleVisible (Sidebar.finalConfig (Sidebar.adminConfig text)
     (Sidebar.user_config_of (Sidebar.adminConfig text) (Ok (self_answer (stringify (clicks (VObj u) ucs)))))) k m = true ↔
   user_switch u ucs k "enabled" = true ∧ user_switch u ucs k m = true).
Proof.
  intros Hu Hc (Ha & Hm & Hp)%offered_allowed. split; [done|].
  assert (Sidebar.ordinary m) as Ho.
  { unfold Sidebar.ordinary. vm_compute in Hm. intros H. set_solver. }
  assert (m ≠ "") as Hne by (intros ->; apply Ho; left).
  apply (allowed_by_admin s text k m Hc Hne) in Ha.
  destruct (clicks_config u ucs Hu) as (u' & -> & Hu' & Hvu). destruct (stringify_obj u' (proj1 Hu')) as [Hnu Hpu].
  assert (∀ admin, Sidebar.user_config_of admin (Ok (self_answer (stringify (VObj u')))) = VObj u') as ->.
  { intros admin. unfold Sidebar.user_config_of, Sidebar.fetched. simpl. unfold mbind, res_bind.
    by rewrite bool_decide_false, Hpu. }
  rewrite Sidebar.module_visible by (done || apply Sidebar.adminConfig_ok).
  rewrite !(user_switch_value u ucs u') by done. naive_solver.
Qed.

Lemma offered_switch_effective_witness :
  let s := Personal.loadSidebarConfigs None Personal.initial in
  Sidebar.isModuleVisible (Sidebar.finalConfig (Sidebar.adminConfig None)
     (Sidebar.user_config_of (Sidebar.adminConfig None)
       (Ok (self_answer (stringify (clicks (VObj []) [Click "console" "log" false])))))) "console" "log" = true ↔
   user_switch [] [Click "console" "log" false] "console" "enabled" = true ∧
   user_switch [] [Click "console" "log" false] "console" "log" = true.
Proof.
  intros s. refine (proj2 (offered_switch_effective VNull s None [] [Click "console" "log" false] "console" "log" _ _ _)).
  - split; [vm_compute; reflexivity|constructor].
  - reflexivity.
  - vm_compute. repeat first [left; reflexivity|right].
Defined.

(** ** From the switches to the header *)

(** The switches of the header page: a module, or whether the pricing page
    asks for a login. *)
Inductive hswitch := HModule (k : string) | HAuth.
#[export] Instance hswitch_eq_dec : EqDecision hswitch.
Proof. solve_decision. Defined.

Definition header_clicked (v : jsval) (c : hswitch * bool) : jsval :=
  match c.1 with
  | HModule k => Admin.handleHeaderNavModuleChange k c.2 v
  | HAuth => Admin.handlePricingAuthChange c.2 v
  end.

(** The value of a switch in a stored configuration, and after clicks. *)
Definition stored_switch (o : obj) (w : hswitch) : jsval :=
  match w with
  | HModule k => if decide (k = "pricing") then prop_opt (prop_opt (VObj o) k) "enabled" else prop_opt (VObj o) k
  | HAuth => prop_opt (prop_opt (VObj o) "pricing") "requireAuth"
  end.
Definition header_switch (o : obj) (cs : list (hswitch * bool)) (w : hswitch) : jsval :=
  foldl (λ r c, if decide (c.1 = w) then VBool c.2 else r) (stored_switch o w) cs.

Definition header_on (o : obj) (cs : list (hswitch * bool)) (k : string) : bool :=
  (if decide (k ∈ ["docs"; "pricing"]) then truthy else is_true) (header_switch o cs (HModule k)).

(** A stored header configuration of this version: [pricing] is an object. *)
Definition header_json (o : obj) : Prop :=
  json_ok (VObj o) = true ∧ ∃ p, obj_get o "pricing" = Some (VObj p) ∧ json_ok (VObj p) = true.

Lemma pricing_switch_json o k b : header_json o → k ∈ ["enabled"; "requireAuth"] → ∃ o',
  setSwitch "pricing" k b (VObj o) = VObj o' ∧ header_json o' ∧
  ∀ w, stored_switch o' w =
    if decide (w = if decide (k = "enabled") then HModule "pricing" else HAuth) then VBool b else stored_switch o w.
Proof.
  intros (Hj & p & Hp & Hpj) Hk.
  assert (spread_props (prop_opt (VObj o) "pricing") = p) as Hsp by (simpl; by rewrite Hp).
  destruct (setSwitch_json "pricing" k b o p Hj Hsp Hpj) as [He Hj'].
  eexists. split; [exact He|]. rewrite He in Hj'. split.
  - split; [exact Hj'|]. eexists. split; [by rewrite obj_get_define_eq|]. by apply obj_define_json.
  - intros [k'|]; simpl; rewrite ?obj_get_define, ?decide_True, ?Hp by done; simpl.
    + destruct (decide (k' = "pricing")) as [->|Hne]; [|by repeat case_decide; simplify_eq].
      rewrite ?decide_True by done. simpl. rewrite obj_get_define, Hp. simpl. set_unfold. repeat case_decide; naive_solver.
    + rewrite obj_get_define. set_unfold. repeat case_decide; naive_solver.
Qed.

Lemma header_clicked_json o c : header_json o →
  c.1 ≠ HModule "__proto__" → ∃ o', header_clicked (VObj o) c = VObj o' ∧ header_json o' ∧
  ∀ w, stored_switch o' w = if decide (c.1 = w) then VBool c.2 else stored_switch o w.
Proof.
  destruct c as [[k|] b]; simpl; intros Ho Hc.
  - unfold header_clicked, Admin.handleHeaderNavModuleChange; simpl. destruct (decide (k = "pricing")) as [->|Hk].
    + destruct (pricing_switch_json o "enabled" b Ho) as (o' & -> & Ho' & Hw); [set_solver|].
      exists o'. do 2 (split; [done|]). intros w. rewrite Hw. repeat case_decide; naive_solver.
    + destruct Ho as (Hj & p & Hp & Hpj). eexists. split; [reflexivity|].
      unfold obj_set. rewrite decide_False by congruence. split.
      * split; [by apply obj_define_json|]. exists p. by rewrite obj_get_define, decide_False.
      * intros [k'|]; simpl; rewrite !obj_get_define; [|by rewrite !decide_False].
        repeat case_decide; naive_solver.
  - unfold header_clicked, Admin.handlePricingAuthChange; simpl.
    destruct (pricing_switch_json o "requireAuth" b Ho) as (o' & -> & Ho' & Hw); [set_solver|].
    exists o'. do 2 (split; [done|]). intros w. rewrite Hw. repeat case_decide; naive_solver.
Qed.

Lemma header_clicks_json o cs : header_json o → Forall (λ c, c.1 ≠ HModule "__proto__") cs →
  ∃ o', foldl header_clicked (VObj o) cs = VObj o' ∧ header_json o' ∧ ∀ w, stored_switch o' w = header_switch o cs w.
Proof.
  intros Ho. unfold header_switch. induction cs as [|c cs IH] using rev_ind; intros H; [by exists o|].
  apply Forall_app in H as [H Hc]. apply Forall_inv in Hc. destruct (IH H) as (o1 & H1 & Ho1 & Hv1).
  destruct (header_clicked_json o1 c Ho1 Hc) as (o2 & H2 & Ho2 & Hv2). exists o2.
  setoid_rewrite foldl_app. simpl. rewrite H1. do 2 (split; [done|]). intros w. by rewrite Hv2, Hv1.
Qed.

(** A filter that never throws is the filter of lists. *)
Lemma res_filter_ok {A} (f : A → res bool) (g : A → bool) l :
  (∀ x, x ∈ l → f x = Ok (g x)) → Navigation.res_filter f l = Ok (filter (λ x, g x = true) l).
Proof.
  induction l as [|x l IH]; intros H; [done|]. cbn [Navigation.res_filter]. rewrite H by set_solver.
  unfold mbind, res_bind. rewrite IH by set_solver. rewrite filter_cons. by destruct (g x).
Qed.

(** C23.  From the switches to the header: whatever was clicked on the header
    page before saving, the links of the header are those whose switch is on,
    in the order of the menu (the documentation when there is a link), and
    the pricing page asks for a login as its switch says; nothing throws. *)
Theorem header_switches_decide (t : string → obj → string) (docsLink : string) (o : obj) (cs : list (hswitch * bool)) :
  header_json o → Forall (λ c, c.1 ≠ HModule "__proto__") cs →
  let saved := HeaderBar.headerNavModules (Some (stringify (foldl header_clicked (VObj o) cs))) in
  Navigation.mainNavLinks t docsLink saved =
    Ok (filter (λ l, header_on o cs (Navigation.itemKey l) = true) (Navigation.allLinks t docsLink)) ∧
  HeaderBar.pricingRequireAuth saved = header_switch o cs HAuth.
Proof.
  intros Ho Hc. destruct (header_clicks_json o cs Ho Hc) as (o' & -> & (Hj & p & Hp & Hpj) & Hw).
  destruct (stringify_obj o' Hj) as [Hne Hparse]. intros saved.
  assert (saved = VObj o') as ->.
  { unfold saved, HeaderBar.headerNavModules. destruct (stringify (VObj o')); [done|]. rewrite Hparse.
    unfold Admin.convert_pricing. simpl. unfold mbind, res_bind. by rewrite Hp. }
  split.
  - unfold Navigation.mainNavLinks. cbn [truthy]. apply (res_filter_ok _ (λ l, header_on o cs (Navigation.itemKey l))). intros l Hl. unfold header_on, Navigation.link_shown.
    rewrite <-Hw. unfold stored_switch. simpl. unfold Navigation.allLinks in Hl. rewrite Hp.
    destruct (bool_decide (docsLink = "")) eqn:Hd; set_unfold;
      repeat destruct Hl as [->|Hl]; simpl; rewrite ?Hp; try done.
  - unfold HeaderBar.pricingRequireAuth. rewrite <-Hw. simpl. by rewrite Hp.
Qed.

Lemma header_switches_decide_witness :
  let cs := [(HModule "about", false); (HAuth, true)] in
  header_json (own_props (Admin.defaultModules Admin.header)) ∧
  HeaderBar.pricingRequireAuth (HeaderBar.headerNavModules
    (Some (stringify (foldl header_clicked (VObj (own_props (Admin.defaultModules Admin.header))) cs)))) = VBool true.
Proof.
  intros cs. assert (header_json (own_props (Admin.defaultModules Admin.header))) as H.
  { split; [vm_compute; reflexivity|]. eexists. split; [reflexivity|vm_compute; reflexivity]. }
  split; [exact H|].
  rewrite (proj2 (header_switches_decide (λ x _, x) "" _ cs H ltac:(repeat constructor; done))). reflexivity.
Defined.

(** ** Languages *)

(** A language whose save is rejected comes back over a later choice. *)
Lemma stale_language_restored :
  let s0 := HeaderBar.Bar "en" None (Some [("id", VNum (num_of_Z 1))]) None [] [] in
  let s1 := HeaderBar.handleLanguageChange "fr" s0 in
  let s2 := HeaderBar.handleLanguageChange "ja" s1 in
  HeaderBar.tasks s2 = [HeaderBar.TLanguage "en" "fr" [("id", VNum (num_of_Z 1))];
                        HeaderBar.TLanguage "fr" "ja" [("id", VNum (num_of_Z 1))]] ∧
  HeaderBar.language (HeaderBar.languageDone "en" "fr" [("id", VNum (num_of_Z 1))] HeaderBar.Rejected
    (HeaderBar.languageDone "fr" "ja" [("id", VNum (num_of_Z 1))] (HeaderBar.Answered true) s2)) = "en".
Proof. vm_compute. done. Qed.
