(* ===== verification/TableService.v ===== *)
(** * Tables over a service

    The tables of users, redemption codes and models
    ([web/src/hooks/users], [hooks/redemptions], [hooks/models]) show rows
    which the service keeps.  [ServedTable] is what these tables have in
    common: handlers that leave tasks, and the answers the service can give to
    a task.  [ServedTableLaws] is what a table promises; [session_agrees] is
    what follows for every session in which the user waits for the answers
    that concern the rows.

    A request that fails may have been carried out all the same (its answer
    was lost, or the service failed after the change), so it leaves the rows
    it is about in doubt, until a page is served.  Nobody else changes the
    rows, and a request that failed has no effect later on. *)
From stdpp Require Import relations.
From S2P Require Import Prelude JsString JsNumber JsValue.

(** What comes back for a request: a rejected promise with the message of its
    error, an answer with [success: false], or one with [success: true]. *)
Inductive reply (A : Type) := Rejected (message : string) | Refused (message : jsval) | Served (data : A).
#[global] Arguments Rejected {A}.
#[global] Arguments Refused {A}.
#[global] Arguments Served {A}.

(** A page of rows. *)
Record paged (A : Type) := Paged { pg_items : list A; pg_total : Z; pg_page : Z }.
#[global] Arguments Paged {A}.
#[global] Arguments pg_items {A}.
#[global] Arguments pg_total {A}.
#[global] Arguments pg_page {A}.

(** What an answer tells about the rows: the table knows what the service has
    done ([Known]), it shows a page that was just served ([Fresh]), or a
    request about these ids has failed ([Lost]). *)
Inductive outcome := Known | Fresh | Lost (ids : Z → Prop).

(** The ids whose rows are in doubt, after an answer. *)
Definition doubted (o : outcome) (doubt : Z → Prop) : Z → Prop :=
  match o with Known => doubt | Fresh => λ _, False | Lost ids => λ i, doubt i ∨ ids i end.

(** The data may have changed at these ids only. *)
Definition changed_at {V} (ids : Z → Prop) (d d' : gmap Z V) : Prop := ∀ i, ¬ ids i → d' !! i = d !! i.

(** [T] the state of a table, [K] its tasks, [A] what its user can do, [V] what
    is shown of a row beside its id. *)
Class ServedTable (T K A V : Type) := {
  waiting : T → list K;
  setWaiting : list K → T → T;
  (** Whether the answer of a task concerns the rows. *)
  about_rows : K → bool;
  begin : A → T → T;
  (** [answers d k s d' o s']: the service with the data [d] may answer the task
      [k] of the table [s], which leaves the data [d'] and the table [s']. *)
  answers : gmap Z V → K → T → gmap Z V → outcome → T → Prop;
  shown : T → list (Z * V) }.

(** The user acts when no answer about the rows is awaited; the service answers
    awaited requests in any order.  The state is the data of the service, the
    ids in doubt, and the table. *)
Inductive step {T K A V} `{ServedTable T K A V} :
    gmap Z V * (Z → Prop) * T → gmap Z V * (Z → Prop) * T → Prop :=
| step_begin a d w s : Forall (λ k, about_rows k = false) (waiting s) → step (d, w, s) (d, w, begin a s)
| step_answer l1 k l2 d w s d' o s' :
    waiting s = l1 ++ k :: l2 → answers d k (setWaiting (l1 ++ l2) s) d' o s' →
    step (d, w, s) (d', doubted o w, s').

(** No row that is shown contradicts the service, except for ids in doubt. *)
Definition agrees {V} (doubt : Z → Prop) (d : gmap Z V) (rows : list (Z * V)) : Prop :=
  Forall (λ r, ¬ doubt r.1 → ∀ v, d !! r.1 = Some v → v = r.2) rows.

(** Rows as the service keeps them. *)
Definition kept {V} (d : gmap Z V) (rows : list (Z * V)) : Prop := Forall (λ r, d !! r.1 = Some r.2) rows.

(** [inv] may say more of the tasks. *)
Class ServedTableLaws T K A V `{ServedTable T K A V} := {
  inv : (Z → Prop) → gmap Z V → T → Prop;
  inv_shown w d s : inv w d s → Forall (λ k, about_rows k = false) (waiting s) → agrees w d (shown s);
  inv_begin a w d s : inv w d s → Forall (λ k, about_rows k = false) (waiting s) → inv w d (begin a s);
  inv_answers l1 k l2 w d s d' o s' : inv w d s → waiting s = l1 ++ k :: l2 →
    answers d k (setWaiting (l1 ++ l2) s) d' o s' → inv (doubted o w) d' s' }.

Lemma kept_agrees {V} w (d : gmap Z V) rows : kept d rows → agrees w d rows.
Proof. intros H. eapply Forall_impl; [exact H|]. intros [i x] Hi _ v. simpl in *. congruence. Qed.

(** Rows agree with what is left of the data. *)
Lemma agrees_sub {V} w (d d' : gmap Z V) rows : d' ⊆ d → agrees w d rows → agrees w d' rows.
Proof. intros Hs H. eapply Forall_impl; [exact H|]. intros r Hr Hw v Hv. eapply Hr, lookup_weaken; eauto. Qed.

(** After a failed request, except for the ids it is about. *)
Lemma agrees_lost {V} w (ids : Z → Prop) (d d' : gmap Z V) rows :
  changed_at ids d d' → agrees w d rows → agrees (doubted (Lost ids) w) d' rows.
Proof.
  intros Hc H. eapply Forall_impl; [exact H|]. intros r Hr Hw v Hv. simpl in Hw.
  apply Hr; [tauto|]. rewrite <-Hc; [done|tauto].
Qed.

(** The service and the table make the same change to the row of an id. *)
Lemma agrees_alter {V} w (d : gmap Z V) (f g : V → V) i rows :
  agrees w d rows → (∀ v, d !! i = Some v → f v = g v) →
  agrees w (alter f i d) ((λ r, if decide (r.1 = i) then (r.1, g r.2) else r) <$> rows).
Proof.
  intros H Hfg. apply Forall_fmap. eapply Forall_impl; [exact H|]. intros [j x] Hj. simpl in *.
  case_decide; simpl; simplify_eq; intros Hw v.
  - rewrite lookup_alter_eq. intros (v' & Hv & ->)%fmap_Some. rewrite <-(Hj Hw v' Hv). eauto.
  - rewrite lookup_alter_ne by done. by apply Hj.
Qed.

Lemma filter_none {A} (f : A → bool) l : Forall (λ k, f k = false) l → filter (λ k, f k = true) l = [].
Proof. induction 1 as [|k l Hk Hl IH]; [done|]. rewrite filter_cons_False; [done|congruence]. Qed.

Lemma Forall_sublist {A} (P : A → Prop) l1 l2 : l1 `sublist_of` l2 → Forall P l2 → Forall P l1.
Proof. induction 1; inversion 1; auto using Forall. Qed.

(** *** Rows as objects *)

(** New objects for the rows of a page. *)
Fixpoint allocate {A} (items : list A) (h : gmap nat A) : list nat * gmap nat A :=
  match items with
  | [] => ([], h)
  | x :: items => let l := fresh (dom h) in
                  let '(ls, h) := allocate items (<[l := x]> h) in (l :: ls, h)
  end.

(** The objects of locations. *)
Definition objects {A} (h : gmap nat A) (ls : list nat) : list A := omap (λ l, h !! l) ls.

Lemma allocate_objects {A} (items : list A) h ls h' :
  allocate items h = (ls, h') → h ⊆ h' ∧ objects h' ls = items ∧ Forall (λ l, is_Some (h' !! l)) ls.
Proof.
  revert h ls. induction items as [|x items IH]; intros h ls; cbn [allocate]; [by intros [= <- <-]|].
  destruct (allocate items _) as [ls' h''] eqn:E. intros [= <- <-]. destruct (IH _ _ E) as (Hs & Ho & Hl).
  assert (h !! fresh (dom h) = None) as Hf by apply not_elem_of_dom, is_fresh.
  assert (h'' !! fresh (dom h) = Some x) as Hx.
  { eapply lookup_weaken; [|exact Hs]. by rewrite lookup_insert_eq. }
  split_and!.
  - etransitivity; [|exact Hs]. by apply insert_subseteq.
  - unfold objects in *. cbn. by rewrite Hx, Ho.
  - constructor; [by rewrite Hx|done].
Qed.

(** A write into an object that has an id of its own. *)
Lemma objects_alter {A} (f : A → A) (id : A → Z) (h : gmap nat A) l ls :
  (∀ x, id (f x) = id x) → NoDup (id <$> objects h ls) → l ∈ ls → ∀ x, h !! l = Some x →
  objects (alter f l h) ls = (λ y, if decide (id y = id x) then f y else y) <$> objects h ls.
Proof.
  intros Hid Hnd Hl x Hx. induction ls as [|l' ls IH]; [by apply elem_of_nil in Hl|].
  unfold objects in *. cbn in *. destruct (decide (l' = l)) as [->|Hne].
  - rewrite lookup_alter_eq, Hx in *. cbn in *. rewrite decide_True by done. f_equal.
    apply NoDup_cons in Hnd as [Hn _]. clear IH Hl. induction ls as [|l2 ls IH]; [done|]. cbn in *.
    destruct (decide (l2 = l)) as [->|]; [rewrite Hx in Hn; set_solver|]. rewrite lookup_alter_ne by done.
    destruct (h !! l2) as [y|]; cbn in *; [|by apply IH]. rewrite decide_False by set_solver. f_equal. apply IH. set_solver.
  - rewrite lookup_alter_ne by done. apply elem_of_cons in Hl as [->|Hl]; [done|].
    destruct (h !! l') as [y|] eqn:Hy; cbn in *; [|by apply IH].
    apply NoDup_cons in Hnd as [Hn Hnd]. rewrite (IH Hnd Hl). rewrite decide_False; [done|].
    intros E. apply Hn. rewrite E. apply list_elem_of_fmap. exists x. split; [done|]. apply list_elem_of_omap. eauto.
Qed.

(** In every session of a table that keeps its laws no shown row contradicts
    the service, once no answer about the rows is awaited, except for rows in
    doubt. *)
Lemma session_agrees {T K A V} `{ServedTableLaws T K A V} w w' (d d' : gmap Z V) (s s' : T) :
  inv w d s → rtc step (d, w, s) (d', w', s') → Forall (λ k, about_rows k = false) (waiting s') →
  agrees w' d' (shown s').
Proof.
  intros Hi Hs Hw. apply inv_shown; [|exact Hw]. clear Hw.
  remember (d, w, s) as x eqn:Hx. remember (d', w', s') as y eqn:Hy.
  revert d w s Hi Hx. induction Hs as [z|x y z Hxy Hyz IH]; intros d w s Hi ->; [by simplify_eq|].
  inversion Hxy; subst; eapply IH; [done| |reflexivity| done| |reflexivity].
  - by apply inv_begin.
  - by eapply inv_answers.
Qed.

(** A session of a table, from its first render with nothing in doubt, and its
    rest. *)
Definition session {T K A V} (tb : ServedTable T K A V) (s0 : T) (d d' : gmap Z V) (doubt : Z → Prop) (s : T) : Prop :=
  rtc step (d, λ _, False, s0) (d', doubt, s).
Definition at_rest {T K A V} (tb : ServedTable T K A V) (s : T) : Prop :=
  Forall (λ k, about_rows k = false) (waiting s).
Definition rows_shown {T K A V} (tb : ServedTable T K A V) (s : T) : list (Z * V) := shown s.
