(* ===== verification/Users.v ===== *)
(** * The table of users

    [web/src/hooks/users/useUsersData.jsx], the handlers of
    [web/src/components/table/users/UsersTable.jsx] with its dialogs, and
    [UsersFilters.jsx].

    A handler runs up to its first [await] and leaves the rest as a task; a
    task keeps what the handler has of the render it was made in (the rows, the
    page).  Of [DeletedAt] the model keeps whether it is [null]. *)
From stdpp Require Import relations.
From S2P Require Import Prelude JsString JsNumber JsValue TableService.

(** ** Data *)

Record user := User { u_id : Z; u_status : Z; u_role : Z; u_deleted : bool; u_fields : obj }.

Record form := Form { searchKeyword : string; searchGroup : string }.

Inductive dialog := DPromote | DDemote | DEnableDisable | DDelete | DResetPasskey | DResetTwoFA | DSubscriptions.
#[export] Instance dialog_eq_dec : EqDecision dialog.
Proof. solve_decision. Defined.

Inductive effect :=
| Get (url : string) | PostManage (id : Z) (action : string) | Delete (url : string)
| PostAuditBatch (ids : list Z) | PutAudit (id : Z) (enabled : bool)
| StorePageSize (text : string) | ShowError (e : jsval) | ShowSuccess (text : string).

(** What follows a load or a change of a user: nothing, the catch of the
    caller, or the rest of the dialog that deletes, which has the number of
    rows, the page and the page size of its render. *)
Inductive after := Plain | CatchShow | DialogRefresh (rows : nat) (page size : Z) | DialogClose (rows : nat) (page size : Z).

Inductive task :=
| TLoad (k : after) | TSearch (k : after)
| TManage (id : Z) (action : string) (rows : list user) (k : after)
| TReset (d : dialog) (message : string)
| TGroups | TAudit | TToggle (id : Z) (newVal : bool).

(** Timers: of the deletion, and of the filters. *)
Inductive timer := GoBack (rows : nat) (page size : Z) | FilterReset (size : Z) | FilterSearch (size : Z).

Record table := Table {
  users : list user; loading : bool; activePage : Z; pageSize : Z; searching : bool; groupOptions : list string;
  userCount : Z; showAddUser : bool; showEditUser : bool; editingUser : option Z; theForm : form;
  dialogs : dialog → bool; modalUser : option user; enableDisableAction : string;
  auditMap : gmap Z bool; auditToggling : gmap Z bool;
  timers : list timer; tasks : list task; effects : list effect }.

Definition ITEMS_PER_PAGE : Z := 10.

Definition setLoading (x : bool) (s : table) : table :=
  let '(Table a _ c d e f g h i j k l m n o p q r u) := s in Table a x c d e f g h i j k l m n o p q r u.
Definition setActivePage (x : Z) (s : table) : table :=
  let '(Table a b _ d e f g h i j k l m n o p q r u) := s in Table a b x d e f g h i j k l m n o p q r u.
Definition setPageSize (x : Z) (s : table) : table :=
  let '(Table a b c _ e f g h i j k l m n o p q r u) := s in Table a b c x e f g h i j k l m n o p q r u.
Definition setSearching (x : bool) (s : table) : table :=
  let '(Table a b c d _ f g h i j k l m n o p q r u) := s in Table a b c d x f g h i j k l m n o p q r u.
Definition setGroupOptions (x : list string) (s : table) : table :=
  let '(Table a b c d e _ g h i j k l m n o p q r u) := s in Table a b c d e x g h i j k l m n o p q r u.
Definition setUserCount (x : Z) (s : table) : table :=
  let '(Table a b c d e f _ h i j k l m n o p q r u) := s in Table a b c d e f x h i j k l m n o p q r u.
Definition setShowAddUser (x : bool) (s : table) : table :=
  let '(Table a b c d e f g _ i j k l m n o p q r u) := s in Table a b c d e f g x i j k l m n o p q r u.
Definition setEdit (x : bool) (y : option Z) (s : table) : table :=
  let '(Table a b c d e f g h _ _ k l m n o p q r u) := s in Table a b c d e f g h x y k l m n o p q r u.
Definition setForm (x : form) (s : table) : table :=
  let '(Table a b c d e f g h i j _ l m n o p q r u) := s in Table a b c d e f g h i j x l m n o p q r u.
Definition setDialog (x : dialog) (y : bool) (s : table) : table :=
  let '(Table a b c d e f g h i j k l m n o p q r u) := s in
  Table a b c d e f g h i j k (λ z, if decide (z = x) then y else l z) m n o p q r u.
Definition setModalUser (x : option user) (s : table) : table :=
  let '(Table a b c d e f g h i j k l _ n o p q r u) := s in Table a b c d e f g h i j k l x n o p q r u.
Definition setEnableDisableAction (x : string) (s : table) : table :=
  let '(Table a b c d e f g h i j k l m _ o p q r u) := s in Table a b c d e f g h i j k l m x o p q r u.
Definition setAuditMap (x : gmap Z bool) (s : table) : table :=
  let '(Table a b c d e f g h i j k l m n _ p q r u) := s in Table a b c d e f g h i j k l m n x p q r u.
Definition setAuditToggling (x : gmap Z bool) (s : table) : table :=
  let '(Table a b c d e f g h i j k l m n o _ q r u) := s in Table a b c d e f g h i j k l m n o x q r u.
Definition setTimers (x : list timer) (s : table) : table :=
  let '(Table a b c d e f g h i j k l m n o p _ r u) := s in Table a b c d e f g h i j k l m n o p x r u.
Definition setTasks (x : list task) (s : table) : table :=
  let '(Table a b c d e f g h i j k l m n o p q _ u) := s in Table a b c d e f g h i j k l m n o p q x u.
Definition emit (x : effect) (s : table) : table :=
  let '(Table a b c d e f g h i j k l m n o p q r u) := s in Table a b c d e f g h i j k l m n o p q r (u ++ [x]).

Definition await (k : task) (s : table) : table := setTasks (tasks s ++ [k]) s.
Definition setTimeout (x : timer) (s : table) : table := setTimers (timers s ++ [x]) s.
Definition showError (e : jsval) (s : table) : table := emit (ShowError e) s.

(** New rows; the effect of [UsersTable] on them asks for their audit
    configuration. *)
Definition setUsers (x : list user) (s : table) : table :=
  let '(Table _ b c d e f g h i j k l m n o p q r u) := s in
  let s := Table x b c d e f g h i j k l m n o p q r u in
  match x with [] => s | _ => await TAudit (emit (PostAuditBatch (u_id <$> x)) s) end.

Definition initial : table :=
  Table [] true 1 ITEMS_PER_PAGE false [] 0 false false None (Form "" "") (λ _, false) None "" ∅ ∅ [] [] [].

(** ** Pages *)

Section table.
Variable t : string → string.

(** [setUserFormat] adds the id as the key of the row. *)
Definition setUserFormat : list user → table → table := setUsers.

Definition loadUsers (startIdx size : Z) (k : after) (s : table) : table :=
  await (TLoad k) (emit (Get ("/api/user/?p=" +:+ pretty startIdx +:+ "&page_size=" +:+ pretty size)) (setLoading true s)).

Definition search_url (keyword group : string) (startIdx size : Z) : string :=
  "/api/user/search?keyword=" +:+ keyword +:+ "&group=" +:+ group +:+ "&p=" +:+ pretty startIdx +:+ "&page_size="
    +:+ pretty size.

(** [args] are keyword and group if they are given, otherwise the form is
    read. *)
Definition searchUsers (startIdx size : Z) (args : option form) (k : after) (s : table) : table :=
  let f := default (theForm s) args in
  if decide (searchKeyword f = "" ∧ searchGroup f = "") then loadUsers startIdx size k s
  else await (TSearch k)
         (emit (Get (search_url (searchKeyword f) (searchGroup f) startIdx size)) (setSearching true s)).

Definition refreshAt (page size : Z) (k : after) (s : table) : table :=
  let f := theForm s in
  if decide (searchKeyword f = "" ∧ searchGroup f = "") then loadUsers page size k s
  else searchUsers page size (Some f) k s.

Definition refresh (page : option Z) (s : table) : table := refreshAt (default (activePage s) page) (pageSize s) Plain s.

(** The rest of the caller once a load or a change has ended. *)
Definition ended (k : after) (s : table) : table :=
  match k with
  | Plain | CatchShow => s
  | DialogRefresh n page size => refreshAt page size (DialogClose n page size) s
  | DialogClose n page size => setDialog DDelete false (setTimeout (GoBack n page size) s)
  end.

(** Only the first load and that of a new page size are caught. *)
Definition failed (e : string) (k : after) (s : table) : table :=
  match k with CatchShow => showError (VStr e) s | _ => s end.

Definition page_loaded (p : paged user) (s : table) : table :=
  setUserFormat (pg_items p) (setUserCount (pg_total p) (setActivePage (pg_page p) s)).

Definition loadDone (k : after) (r : reply (paged user)) (s : table) : table :=
  match r with
  | Rejected e => failed e k s
  | Refused m => ended k (setLoading false (showError m s))
  | Served p => ended k (setLoading false (page_loaded p s))
  end.

Definition searchDone (k : after) (r : reply (paged user)) (s : table) : table :=
  match r with
  | Rejected e => failed e k s
  | Refused m => ended k (setSearching false (showError m s))
  | Served p => ended k (setSearching false (page_loaded p s))
  end.

Definition handlePageChange (page : Z) (s : table) : table :=
  let f := theForm s in
  let s := setActivePage page s in
  if decide (searchKeyword f = "" ∧ searchGroup f = "") then loadUsers page (pageSize s) Plain s
  else searchUsers page (pageSize s) (Some f) Plain s.

(** Loads the page the handler was made with, without the search. *)
Definition handlePageSizeChange (size : Z) (s : table) : table :=
  loadUsers (activePage s) size CatchShow
    (setActivePage 1 (setPageSize size (emit (StorePageSize (pretty size)) s))).

(** ** Changing users *)

(** The changed row; [status] and [role] are those of the answer. *)
Definition managed (id : Z) (action : string) (status role : Z) (u : user) : user :=
  if decide (u_id u = id) then
    if decide (action = "delete") then User (u_id u) (u_status u) (u_role u) true (u_fields u)
    else User (u_id u) status role (u_deleted u) (u_fields u)
  else u.

Definition manageUser (id : Z) (action : string) (k : after) (s : table) : table :=
  await (TManage id action (users s) k) (emit (PostManage id action) (setLoading true s)).

Definition manageDone (id : Z) (action : string) (rows : list user) (k : after) (r : reply (Z * Z)) (s : table) : table :=
  match r with
  | Rejected e => failed e k s
  | Refused m => ended k (setLoading false (showError m s))
  | Served (status, role) =>
      ended k (setLoading false (setUsers (managed id action status role <$> rows)
        (emit (ShowSuccess (t "操作成功完成！")) s)))
  end.

(** [resetUserPasskey] and [resetUserTwoFA], which never reject; the dialog is
    closed afterwards. *)
Definition resetUserPasskey (u : user) (s : table) : table :=
  await (TReset DResetPasskey "Passkey 已重置") (emit (Delete ("/api/user/" +:+ pretty (u_id u) +:+ "/reset_passkey")) s).
Definition resetUserTwoFA (u : user) (s : table) : table :=
  await (TReset DResetTwoFA "二步验证已重置") (emit (Delete ("/api/user/" +:+ pretty (u_id u) +:+ "/2fa")) s).

Definition resetDone (d : dialog) (message : string) (r : reply unit) (s : table) : table :=
  setDialog d false
    match r with
    | Rejected _ => showError (VStr (t "操作失败，请重试")) s
    | Refused m => showError (js_or m (VStr (t "操作失败，请重试"))) s
    | Served _ => emit (ShowSuccess (t message)) s
    end.

(** Whether a row is shaded. *)
Definition handleRow (u : user) : bool := u_deleted u || negb (bool_decide (u_status u = 1%Z)).

Definition fetchGroups (s : table) : table := await TGroups (emit (Get "/api/group/") s).
(** An undefined answer ends it; data that is not a list is an error. *)
Definition groupsDone (r : option (sum string (list string))) (s : table) : table :=
  match r with
  | None => s
  | Some (inl e) => showError (VStr e) s
  | Some (inr groups) => setGroupOptions groups s
  end.

Definition closeAddUser : table → table := setShowAddUser false.
Definition closeEditUser : table → table := setEdit false None.

Definition mount : table := fetchGroups (loadUsers 0 ITEMS_PER_PAGE CatchShow initial).

(** ** The dialogs of the table *)

Definition showModal (d : dialog) (u : user) (s : table) : table := setDialog d true (setModalUser (Some u) s).
Definition showEnableDisableUserModal (u : user) (action : string) (s : table) : table :=
  setDialog DEnableDisable true (setEnableDisableAction action (setModalUser (Some u) s)).

(** The action of a dialog. *)
Definition dialog_action (d : dialog) (s : table) : string :=
  match d with
  | DPromote => "promote" | DDemote => "demote" | DEnableDisable => enableDisableAction s | DDelete => "delete" | _ => ""
  end.

(** [handlePromoteConfirm], [handleDemoteConfirm],
    [handleEnableDisableConfirm], [handleResetPasskeyConfirm],
    [handleResetTwoFAConfirm] and [handleConfirm] of the dialog that deletes;
    without a user they throw. *)
Definition confirm (d : dialog) (s : table) : table :=
  match modalUser s with
  | None => s
  | Some u =>
      match d with
      | DPromote | DDemote | DEnableDisable => setDialog d false (manageUser (u_id u) (dialog_action d s) Plain s)
      | DDelete => manageUser (u_id u) "delete" (DialogRefresh (length (users s)) (activePage s) (pageSize s)) s
      | DResetPasskey => resetUserPasskey u s
      | DResetTwoFA => resetUserTwoFA u s
      | DSubscriptions => s
      end
  end.

(** *** Audit switches *)

(** The answer of the effect on the rows, if it is one with data. *)
Definition auditLoaded (r : option (gmap Z bool)) (s : table) : table :=
  match r with Some x => setAuditMap x s | None => s end.

Definition handleToggleAudit (id : Z) (s : table) : table :=
  let newVal := negb (default false (auditMap s !! id)) in
  await (TToggle id newVal) (emit (PutAudit id newVal) (setAuditToggling (<[id := true]> (auditToggling s)) s)).

Definition toggleDone (id : Z) (newVal : bool) (ok : bool) (s : table) : table :=
  let s := if ok then setAuditMap (<[id := newVal]> (auditMap s)) s else s in
  setAuditToggling (<[id := false]> (auditToggling s)) s.

(** *** Filters and timers *)

Definition handleReset (s : table) : table := setTimeout (FilterReset (pageSize s)) (setForm (Form "" "") s).
Definition groupChanged (group : string) (s : table) : table :=
  setTimeout (FilterSearch (pageSize s)) (setForm (Form (searchKeyword (theForm s)) group) s).

(** [rows] and [page] are those of the render of the dialog. *)
Definition fired (x : timer) (s : table) : table :=
  match x with
  | GoBack rows page size =>
      if decide (rows = 0%nat ∧ (1 < page)%Z) then refreshAt (page - 1) size Plain s else s
  | FilterReset size => loadUsers 1 size Plain s
  | FilterSearch size => searchUsers 1 size None Plain s
  end.
End table.

(** ** The table over the service *)

Record uview := UView { uv_status : Z; uv_role : Z; uv_deleted : bool }.

Definition row_view (u : user) : Z * uview := (u_id u, UView (u_status u) (u_role u) (u_deleted u)).

Inductive action :=
| ASearch | APage (page : Z) | APageSize (size : Z) | ARefresh (page : option Z) | AType (f : form)
| AReset | AGroup (group : string) | AFire (i : nat)
| AShow (d : dialog) (u : user) | AShowEnableDisable (u : user) (action : string) | AConfirm (d : dialog)
| AToggleAudit (id : Z) | AAdd (b : bool) | AEdit (id : option Z).

Section service.
Variable t : string → string.

Definition begin (a : action) (s : table) : table :=
  match a with
  | ASearch => searchUsers 1 (pageSize s) None Plain s
  | APage page => handlePageChange page s
  | APageSize size => handlePageSizeChange size s
  | ARefresh page => refresh page s
  | AType f => setForm f s
  | AReset => handleReset s
  | AGroup group => groupChanged group s
  | AFire i => match timers s !! i with
               | Some x => fired x (setTimers (delete i (timers s)) s)
               | None => s
               end
  | AShow d u => showModal d u s
  | AShowEnableDisable u x => showEnableDisableUserModal u x s
  | AConfirm d => confirm d s
  | AToggleAudit id => handleToggleAudit id s
  | AAdd true => setShowAddUser true s
  | AAdd false => closeAddUser s
  | AEdit (Some id) => setEdit true (Some id) s
  | AEdit None => closeEditUser s
  end.

Definition about_rows (k : task) : bool :=
  match k with TLoad _ | TSearch _ | TManage _ _ _ _ => true | _ => false end.

(** A deleted user is marked, or not kept any more. *)
Definition served_change (id : Z) (a : string) (status role : Z) (d d' : gmap Z uview) : Prop :=
  if decide (a = "delete") then d' = delete id d ∨ d' = alter (λ v, UView (uv_status v) (uv_role v) true) id d
  else d' = alter (λ v, UView status role (uv_deleted v)) id d.

(** A page shows what the service keeps. *)
Definition served_page (d : gmap Z uview) (r : reply (paged user)) (o : outcome) : Prop :=
  match r with Served p => o = Fresh ∧ kept d (row_view <$> pg_items p) | _ => o = Known end.

(** A change that fails may have been made, or made in part. *)
Definition answers (d : gmap Z uview) (k : task) (s : table) (d' : gmap Z uview) (o : outcome) (s' : table) : Prop :=
  match k with
  | TLoad k => d' = d ∧ ∃ r, s' = loadDone k r s ∧ served_page d r o
  | TSearch k => d' = d ∧ ∃ r, s' = searchDone k r s ∧ served_page d r o
  | TManage id a rows k => ∃ r, s' = manageDone t id a rows k r s ∧
      match r with
      | Served (status, role) => o = Known ∧ served_change id a status role d d'
      | _ => o = Lost (eq id) ∧ changed_at (eq id) d d'
      end
  | TReset dg m => d' = d ∧ o = Known ∧ ∃ r, s' = resetDone t dg m r s
  | TGroups => d' = d ∧ o = Known ∧ ∃ r, s' = groupsDone r s
  | TAudit => d' = d ∧ o = Known ∧ ∃ r, s' = auditLoaded r s
  | TToggle id v => d' = d ∧ o = Known ∧ ∃ ok, s' = toggleDone id v ok s
  end.

#[export] Instance users_table : ServedTable table task action uview := {|
  TableService.waiting := tasks; TableService.setWaiting := setTasks; TableService.about_rows := about_rows;
  TableService.begin := begin; TableService.answers := answers; TableService.shown := λ s, row_view <$> users s |}.

(** What a state says of its rows. *)
Definition row_tasks (s : table) : list task := filter (λ k, about_rows k = true) (tasks s).

Definition users_inv (w : Z → Prop) (d : gmap Z uview) (s : table) : Prop :=
  agrees w d (row_view <$> users s) ∧ (length (row_tasks s) ≤ 1)%nat ∧
  Forall (λ k, ∀ id a rows x, k = TManage id a rows x → agrees w d (row_view <$> rows)) (row_tasks s).

(** A step of the table that shows the same rows, or new ones, and starts at
    most one request about them. *)
Definition quiet (s s' : table) : Prop := users s' = users s ∧ row_tasks s' = row_tasks s.
Definition asks (s s' : table) : Prop :=
  users s' = users s ∧ ∃ l, row_tasks s' = row_tasks s ++ l ∧ (length l ≤ 1)%nat ∧
    Forall (λ k, ∀ id a rows x, k = TManage id a rows x → rows = users s) l.

Lemma row_tasks_await k s : row_tasks (await k s) = row_tasks s ++ (if about_rows k then [k] else []).
Proof.
  destruct s. unfold row_tasks, await. simpl. rewrite filter_app. f_equal. destruct k; reflexivity.
Qed.

Lemma asks_await k s s' : quiet s s' → (∀ id a rows x, k = TManage id a rows x → rows = users s) → asks s (await k s').
Proof.
  intros [Hu Ht] Hk. split; [by destruct s'|]. rewrite row_tasks_await, Ht. eexists. split; [reflexivity|].
  destruct (about_rows k); simpl; split; try lia; auto using Forall_nil.
Qed.
Lemma quiet_asks s s' : quiet s s' → asks s s'.
Proof. intros [Hu Ht]. split; [done|]. exists []. rewrite app_nil_r. simpl. split_and!; [done|lia|constructor]. Qed.
Lemma quiet_await k s s' : quiet s s' → about_rows k = false → quiet s (await k s').
Proof. intros [Hu Ht] Hk. split; [by destruct s'|]. by rewrite row_tasks_await, Hk, app_nil_r. Qed.
Lemma asks_from s1 s2 s3 : quiet s1 s2 → asks s2 s3 → asks s1 s3.
Proof. intros [Hu Ht] [Hu' H]. split; [congruence|]. by rewrite <-Ht, <-Hu. Qed.
Lemma asks_then s1 s2 s3 : asks s1 s2 → quiet s2 s3 → asks s1 s3.
Proof. intros [Hu H] [Hu' Ht]. split; [congruence|]. by rewrite Ht. Qed.
Lemma quiet_setDialog d b s : quiet s (setDialog d b s).
Proof. by destruct s. Qed.
End service.

Ltac quiet_solver := by match goal with s : table |- quiet ?x _ => destruct s; split; reflexivity end.

Section laws.
Variable t : string → string.
#[local] Existing Instance users_table.

Lemma asks_loadUsers p n k s : asks s (loadUsers p n k s).
Proof. apply asks_await; [quiet_solver|done]. Qed.
Lemma asks_searchUsers p n f k s : asks s (searchUsers p n f k s).
Proof.
  unfold searchUsers. case_decide; [apply asks_loadUsers|]. apply asks_await; [quiet_solver|done].
Qed.
Lemma asks_refreshAt p n k s : asks s (refreshAt p n k s).
Proof. unfold refreshAt. case_decide; [apply asks_loadUsers|apply asks_searchUsers]. Qed.
Lemma asks_ended k s : asks s (ended k s).
Proof.
  destruct k; simpl; [apply quiet_asks; done..|apply asks_refreshAt|apply quiet_asks; quiet_solver].
Qed.
Lemma quiet_failed e k s : quiet s (failed e k s).
Proof. destruct k; simpl; quiet_solver || done. Qed.
Lemma asks_manageUser id a k s : asks s (manageUser id a k s).
Proof. apply asks_await; [quiet_solver|]. by intros ? ? ? ? [= _ _ <- _]. Qed.

Lemma asks_fired x s : asks s (fired x s).
Proof.
  destruct x; simpl; [case_decide; [apply asks_refreshAt|by apply quiet_asks]|apply asks_loadUsers|apply asks_searchUsers].
Qed.

Lemma asks_confirm d s : asks s (confirm d s).
Proof.
  unfold confirm. destruct (modalUser s) as [u|]; [|by apply quiet_asks]. destruct d.
  1-3: (eapply asks_then; [apply asks_manageUser|apply quiet_setDialog]).
  - apply asks_manageUser.
  - apply quiet_asks, quiet_await; [quiet_solver|done].
  - apply quiet_asks, quiet_await; [quiet_solver|done].
  - by apply quiet_asks.
Qed.

(** Every action keeps the rows and makes at most one request about them. *)
Lemma begin_asks a s : asks s (begin a s).
Proof.
  destruct a; simpl.
  - apply asks_searchUsers.
  - unfold handlePageChange.
    case_decide; (eapply asks_from; [|first [apply asks_loadUsers|apply asks_searchUsers]]); quiet_solver.
  - eapply asks_from; [|apply asks_loadUsers]. quiet_solver.
  - apply asks_refreshAt.
  - apply quiet_asks. quiet_solver.
  - apply quiet_asks. quiet_solver.
  - apply quiet_asks. quiet_solver.
  - destruct (timers s !! i); [|by apply quiet_asks]. eapply asks_from; [|apply asks_fired]. quiet_solver.
  - apply quiet_asks. quiet_solver.
  - apply quiet_asks. quiet_solver.
  - apply asks_confirm.
  - apply quiet_asks, quiet_await; [quiet_solver|done].
  - destruct b; apply quiet_asks; quiet_solver.
  - destruct id; apply quiet_asks; quiet_solver.
Qed.

Lemma inv_asks w d s s' : users_inv w d s → row_tasks s = [] → asks s s' → users_inv w d s'.
Proof.
  intros (Ha & _ & _) Hn (Hu & l & Hl & Hlen & Hs). rewrite Hn in Hl. simpl in Hl.
  split; [by rewrite Hu|]. rewrite Hl. split; [done|].
  eapply Forall_impl; [exact Hs|]. intros k Hk id a rows x Hx. rewrite (Hk _ _ _ _ Hx). done.
Qed.

(** New rows that agree. *)
Lemma inv_setUsers w d x s : agrees w d (row_view <$> x) → row_tasks s = [] →
  users_inv w d (setUsers x s) ∧ row_tasks (setUsers x s) = [].
Proof.
  intros Hx Hn. assert (row_tasks (setUsers x s) = []) as Ht.
  { destruct x as [|u x]; [by destruct s|]. unfold setUsers. destruct s. rewrite row_tasks_await. simpl.
    rewrite app_nil_r. exact Hn. }
  split; [|done]. assert (users (setUsers x s) = x) as Hu by (by destruct s, x). split; [by rewrite Hu|].
  rewrite Ht. simpl. split; [lia|constructor].
Qed.

Lemma managed_rows id a st role (rows : list user) :
  row_view <$> (managed id a st role <$> rows) =
  (λ r, if decide (r.1 = id) then (r.1, if decide (a = "delete") then UView (uv_status r.2) (uv_role r.2) true
                                        else UView st role (uv_deleted r.2)) else r) <$> (row_view <$> rows).
Proof.
  rewrite <-!list_fmap_compose. apply list_fmap_ext. intros i u _. unfold managed, row_view. simpl.
  repeat case_decide; done.
Qed.

Lemma agrees_managed w d d' id a st role (rows : list user) : served_change id a st role d d' →
  agrees w d (row_view <$> rows) → agrees w d' (row_view <$> (managed id a st role <$> rows)).
Proof.
  intros Hc H. rewrite managed_rows. unfold served_change in Hc. case_decide; [destruct Hc as [->| ->]|subst d'].
  - apply Forall_fmap. eapply Forall_impl; [exact H|]. intros [j x] Hj. simpl. case_decide; simpl; simplify_eq; intros Hw v.
    + by rewrite lookup_delete_eq.
    + rewrite lookup_delete_ne by done. by apply Hj.
  - by apply (agrees_alter w d _ (λ v, UView (uv_status v) (uv_role v) true) id).
  - by apply (agrees_alter w d _ (λ v, UView st role (uv_deleted v)) id).
Qed.

Lemma row_tasks_removed l1 k l2 s : tasks s = l1 ++ k :: l2 → (length (row_tasks s) ≤ 1)%nat → about_rows k = true →
  row_tasks (setTasks (l1 ++ l2) s) = [] ∧ row_tasks s = [k].
Proof.
  intros Ht Hl Hk. unfold row_tasks in *. rewrite Ht in *. destruct s. simpl in *. subst.
  rewrite !filter_app, filter_cons_True in * by done. rewrite length_app in Hl. simpl in Hl.
  destruct (filter _ l1), (filter _ l2); simpl in *; try lia. done.
Qed.
Lemma row_tasks_kept l1 k l2 s : tasks s = l1 ++ k :: l2 → about_rows k = false →
  quiet s (setTasks (l1 ++ l2) s).
Proof.
  intros Ht Hk. split; [by destruct s|]. unfold row_tasks. rewrite Ht. destruct s. simpl.
  rewrite !filter_app, filter_cons_False; [done|]. by rewrite Hk.
Qed.
Lemma inv_quiet w d s s' : users_inv w d s → quiet s s' → users_inv w d s'.
Proof. intros H [Hu Ht]. unfold users_inv. by rewrite Hu, Ht. Qed.

(** The end of a task about the rows: what it shows agrees, then the caller
    goes on. *)
Lemma inv_ended w d s s' k : users_inv w d s → row_tasks s = [] → quiet s s' → users_inv w d (ended k s').
Proof.
  intros H Hn Hq. apply (inv_asks w d s'); [by eapply inv_quiet|destruct Hq as [_ ->]; done|apply asks_ended].
Qed.

Lemma inv_page w d s p : row_tasks s = [] → kept d (row_view <$> pg_items p) →
  users_inv w d (page_loaded p s) ∧ row_tasks (page_loaded p s) = [].
Proof.
  intros Hn Hp. apply inv_setUsers; [by apply kept_agrees|]. by destruct s.
Qed.

Lemma inv_loaded w d s s' k r o (f : table → table) : users_inv w d s → row_tasks s = [] →
  (∀ s, quiet s (f s)) →
  s' = match r with
       | Rejected e => failed e k s
       | Refused m => ended k (f (showError m s))
       | Served p => ended k (f (page_loaded p s))
       end →
  served_page d r o → users_inv (doubted o w) d s'.
Proof.
  intros H Hn Hf -> Hp. destruct r as [e|m|p]; simpl in Hp.
  - subst o. eapply inv_quiet; [exact H|apply quiet_failed].
  - subst o. apply (inv_ended w d (showError m s)); [|by destruct s|apply Hf]. eapply inv_quiet; [exact H|quiet_solver].
  - destruct Hp as [-> Hp]. destruct (inv_page (doubted Fresh w) d s p Hn Hp) as [H1 H2].
    by apply (inv_ended _ d (page_loaded p s)).
Qed.

(** A request that fails leaves the rows. *)
Lemma inv_lost w ids d d' s : changed_at ids d d' → row_tasks s = [] → users_inv w d s →
  users_inv (doubted (Lost ids) w) d' s.
Proof.
  intros Hc Hn (Ha & Hl & _). split; [by eapply agrees_lost|]. rewrite Hn. simpl. split; [lia|constructor].
Qed.

Lemma inv_managed w d d' s s' id a rows k r o : users_inv w d s → row_tasks s = [] → agrees w d (row_view <$> rows) →
  s' = manageDone t id a rows k r s →
  match r with
  | Served (status, role) => o = Known ∧ served_change id a status role d d'
  | _ => o = Lost (eq id) ∧ changed_at (eq id) d d'
  end → users_inv (doubted o w) d' s'.
Proof.
  intros H Hn Hr -> Hc. destruct r as [e|m|[st role]]; simpl; destruct Hc as [-> Hc].
  - eapply inv_quiet; [by eapply inv_lost|apply quiet_failed].
  - eapply inv_ended; [by eapply inv_lost|done|quiet_solver].
  - destruct (inv_setUsers w d' (managed id a st role <$> rows) (emit (ShowSuccess (t "操作成功完成！")) s)) as [H1 H2].
    + by eapply agrees_managed.
    + by destruct s.
    + eapply inv_ended; [exact H1|exact H2|]. destruct (setUsers _ _). done.
Qed.

#[export] Instance users_laws : @ServedTableLaws table task action uview (users_table t).
Proof.
  refine {| inv := users_inv |}.
  - by intros w d s [H _] _.
  - intros a w d s H Hf. apply (inv_asks w d s); [done| |apply begin_asks]. by apply filter_none.
  - intros l1 k l2 w d s d' o s' H Ht Ha. simpl in *.
    destruct (about_rows k) eqn:Hk.
    + destruct (row_tasks_removed l1 k l2 s Ht (proj1 (proj2 H)) Hk) as [Hn Hs].
      assert (users_inv w d (setTasks (l1 ++ l2) s)) as H'.
      { destruct H as (H & _ & _). split; [by destruct s|]. rewrite Hn. simpl. split; [lia|constructor]. }
      destruct H as (_ & _ & Hsn). rewrite Hs in Hsn. apply Forall_inv in Hsn.
      destruct k; try done; simpl in Ha.
      * destruct Ha as (-> & r & -> & Hp). by eapply (inv_loaded w d _ _ _ r o (setLoading false)); [| |intros []|reflexivity|].
      * destruct Ha as (-> & r & -> & Hp). by eapply (inv_loaded w d _ _ _ r o (setSearching false)); [| |intros []|reflexivity|].
      * destruct Ha as (r & -> & Hc). eapply inv_managed; [exact H'|done| |reflexivity|exact Hc]. by eapply Hsn.
    + assert (d' = d ∧ o = Known) as [-> ->] by (destruct k; try done; destruct Ha as (? & ? & _); done).
      simpl doubted. eapply inv_quiet; [eapply inv_quiet; [exact H|by eapply row_tasks_kept]|].
      destruct k; try done; simpl in Ha; destruct Ha as (_ & _ & r & ->); destruct s.
      * by destruct r.
      * by destruct r as [[]|].
      * by destruct r.
      * by destruct r.
Defined.
End laws.

(** ** Sessions *)

Lemma users_mount_inv w d : users_inv w d mount.
Proof. split; [constructor|]. split; [simpl; lia|]. repeat constructor; done. Qed.

(** The dialog that deletes
    compares the number of rows of its own render, which had the deleted row,
    so it never goes back to the page before. *)
Lemma delete_never_goes_back u s s' :
  u ∈ users s → modalUser s = Some u →
  ∀ n page size, TManage (u_id u) "delete" (users s) (DialogRefresh n page size) ∈ tasks (confirm DDelete s) →
  TManage (u_id u) "delete" (users s) (DialogRefresh n page size) ∉ tasks s → fired (GoBack n page size) s' = s'.
Proof.
  intros Hu Hm n page size Hin Hold. unfold confirm in Hin. rewrite Hm in Hin.
  assert (tasks (manageUser (u_id u) "delete" (DialogRefresh (length (users s)) (activePage s) (pageSize s)) s) =
    tasks s ++ [TManage (u_id u) "delete" (users s) (DialogRefresh (length (users s)) (activePage s) (pageSize s))]) as E
    by (by destruct s).
  rewrite E in Hin. apply elem_of_app in Hin as [?|[= -> -> ->]%list_elem_of_singleton]; [done|].
  simpl. rewrite decide_False; [done|]. intros [Hn _]. apply length_zero_iff_nil in Hn. rewrite Hn in Hu. by apply elem_of_nil in Hu.
Qed.

Definition sample_user (id : Z) : user := User id 1 1 false [].
Definition sample_page (n : Z) (ids : list Z) : paged user := Paged (sample_user <$> ids) 30 n.

(** A change that is answered after the page was changed brings the rows of the
    former page back. *)
Lemma stale_rows_shown :
  let s := loadDone CatchShow (Served (sample_page 1 [1; 2]%Z)) mount in
  let s1 := manageUser 1 "disable" Plain s in
  let s2 := loadDone Plain (Served (sample_page 2 [3; 4]%Z)) (handlePageChange 2 s1) in
  let s3 := manageDone (λ x, x) 1 "disable" (users s) Plain (Served (2, 1)%Z) s2 in
  u_id <$> users s2 = [3; 4]%Z ∧ u_id <$> users s3 = [1; 2]%Z ∧ activePage s3 = 2%Z.
Proof. vm_compute. done. Qed.

(** A new page size asks for the page that was shown, without the search. *)
Lemma page_size_drops_search :
  let s := loadDone CatchShow (Served (sample_page 3 [1; 2]%Z)) mount in
  let s1 := handlePageSizeChange 50 (setForm (Form "smith" "") s) in
  last (effects s1) = Some (Get "/api/user/?p=3&page_size=50") ∧ activePage s1 = 1%Z.
Proof. vm_compute. done. Qed.

(** After a rejected change the table is left loading. *)
Lemma rejected_change_keeps_loading :
  let s := manageUser 1 "disable" Plain (loadDone CatchShow (Served (sample_page 1 [1]%Z)) mount) in
  loading (manageDone (λ x, x) 1 "disable" (users s) Plain (Rejected "Network Error") s) = true.
Proof. vm_compute. done. Qed.

(** A keyword is sent as it is: this one also changes the group. *)
Lemma keyword_not_encoded :
  search_url "a&group=vip" "" 1 10 = search_url "a" ("vip" +:+ "&group=") 1 10.
Proof. reflexivity. Qed.
