(* ===== verification/Redemptions.v ===== *)
(** * The table of redemption codes

    [web/src/hooks/redemptions/useRedemptionsData.jsx], the handlers of
    [RedemptionsTable.jsx], [RedemptionsColumnDefs.jsx] (the buttons of a row),
    [DeleteRedemptionModal.jsx] and [RedemptionsFilters.jsx] of
    [web/src/components/table/redemptions].

    The rows are objects of a heap, because [manageRedemption] writes the new
    status into the row it was called with.  As in [Users] a task keeps what
    its handler has of the render it was made in. *)
From stdpp Require Import relations.
From S2P Require Import Prelude JsString JsNumber JsValue Json TableService.

(** ** Data *)

Record code := Code { r_id : Z; r_name : string; r_key : string; r_status : Z; r_expired : Z; r_fields : obj }.

Definition set_code_status (x : Z) (c : code) : code := Code (r_id c) (r_name c) (r_key c) x (r_expired c) (r_fields c).

Definition UNUSED : Z := 1.
Definition DISABLED : Z := 2.
Definition USED : Z := 3.

Inductive action := DELETE | ENABLE | DISABLE.
#[export] Instance action_eq_dec : EqDecision action.
Proof. solve_decision. Defined.

Inductive effect :=
| Get (url : string) | DeleteCode (url : string) | PutStatus (id status : Z) | Clip (text : string)
| ShowError (e : jsval) | ShowSuccess (text : string) | CopyFailed (text : string) | AskClear.

(** What follows a load or a change: nothing, the rest of the dialog that
    deletes (with the number of rows, page and page size of its render), or the
    end of the clearing of invalid codes. *)
Inductive after := Plain | DialogRefresh (rows : nat) (page size : Z) | DialogClose (rows : nat) (page size : Z) | EndClear.

Inductive task :=
| TLoad (k : after) | TSearch (k : after)
| TManage (a : action) (id : Z) (record : nat) (rows : list nat) (k : after)
| TInvalid (page size : Z) | TCopy (text : string).

Inductive timer := GoBack (rows : nat) (page size : Z) | ForgetEdit | FilterSearch (size : Z).

Record table := Table {
  redemptions : list nat; heap : gmap nat code; loading : bool; searching : bool; activePage : Z; pageSize : Z;
  tokenCount : Z; selectedKeys : list nat; showEdit : bool; editingRedemption : option nat; searchKeyword : string;
  showDeleteModal : bool; deletingRecord : option nat;
  (** The open questions whether to clear, with page and page size. *)
  questions : list (Z * Z);
  timers : list timer; tasks : list task; effects : list effect }.

Definition ITEMS_PER_PAGE : Z := 10.

Definition initial : table :=
  Table [] ∅ true false 1 ITEMS_PER_PAGE 0 [] false None "" false None [] [] [] [].

Definition setRows (x : list nat) (y : gmap nat code) (s : table) : table :=
  let '(Table _ _ c d e f g h i j k l m n o p q) := s in Table x y c d e f g h i j k l m n o p q.
Definition setLoading (x : bool) (s : table) : table :=
  let '(Table a b _ d e f g h i j k l m n o p q) := s in Table a b x d e f g h i j k l m n o p q.
Definition setSearching (x : bool) (s : table) : table :=
  let '(Table a b c _ e f g h i j k l m n o p q) := s in Table a b c x e f g h i j k l m n o p q.
Definition setActivePage (x : Z) (s : table) : table :=
  let '(Table a b c d _ f g h i j k l m n o p q) := s in Table a b c d x f g h i j k l m n o p q.
Definition setPageSizeValue (x : Z) (s : table) : table :=
  let '(Table a b c d e _ g h i j k l m n o p q) := s in Table a b c d e x g h i j k l m n o p q.
Definition setTokenCount (x : Z) (s : table) : table :=
  let '(Table a b c d e f _ h i j k l m n o p q) := s in Table a b c d e f x h i j k l m n o p q.
Definition setSelectedKeys (x : list nat) (s : table) : table :=
  let '(Table a b c d e f g _ i j k l m n o p q) := s in Table a b c d e f g x i j k l m n o p q.
Definition setShowEdit (x : bool) (s : table) : table :=
  let '(Table a b c d e f g h _ j k l m n o p q) := s in Table a b c d e f g h x j k l m n o p q.
Definition setEditing (x : option nat) (s : table) : table :=
  let '(Table a b c d e f g h i _ k l m n o p q) := s in Table a b c d e f g h i x k l m n o p q.
Definition setKeyword (x : string) (s : table) : table :=
  let '(Table a b c d e f g h i j _ l m n o p q) := s in Table a b c d e f g h i j x l m n o p q.
Definition setDelete (x : bool) (y : option nat) (s : table) : table :=
  let '(Table a b c d e f g h i j k _ _ n o p q) := s in Table a b c d e f g h i j k x y n o p q.
Definition setQuestions (x : list (Z * Z)) (s : table) : table :=
  let '(Table a b c d e f g h i j k l m _ o p q) := s in Table a b c d e f g h i j k l m x o p q.
Definition setTimers (x : list timer) (s : table) : table :=
  let '(Table a b c d e f g h i j k l m n _ p q) := s in Table a b c d e f g h i j k l m n x p q.
Definition setTasks (x : list task) (s : table) : table :=
  let '(Table a b c d e f g h i j k l m n o _ q) := s in Table a b c d e f g h i j k l m n o x q.
Definition emit (x : effect) (s : table) : table :=
  let '(Table a b c d e f g h i j k l m n o p q) := s in Table a b c d e f g h i j k l m n o p (q ++ [x]).

Definition await (k : task) (s : table) : table := setTasks (tasks s ++ [k]) s.
Definition setTimeout (x : timer) (s : table) : table := setTimers (timers s ++ [x]) s.
Definition showError (e : jsval) (s : table) : table := emit (ShowError e) s.

(** ** Pages *)

Section table.
Variable t : string → string.

Definition loadRedemptions (page size : Z) (k : after) (s : table) : table :=
  await (TLoad k)
    (emit (Get ("/api/redemption/?p=" +:+ pretty page +:+ "&page_size=" +:+ pretty size)) (setLoading true s)).

(** [size] is the page size of the render; the first page is asked for. *)
Definition searchRedemptions (size : Z) (k : after) (s : table) : table :=
  if decide (searchKeyword s = "") then loadRedemptions 1 size k s
  else await (TSearch k)
         (emit (Get ("/api/redemption/search?keyword=" +:+ searchKeyword s +:+ "&p=1&page_size=" +:+ pretty size))
           (setSearching true s)).

Definition refreshAt (page size : Z) (k : after) (s : table) : table :=
  if decide (searchKeyword s = "") then loadRedemptions page size k s else searchRedemptions size k s.

Definition refresh (page : option Z) (s : table) : table := refreshAt (default (activePage s) page) (pageSize s) Plain s.

Definition ended (k : after) (s : table) : table :=
  match k with
  | Plain => s
  | DialogRefresh n page size => refreshAt page size (DialogClose n page size) s
  | DialogClose n page size => setDelete false (deletingRecord s) (setTimeout (GoBack n page size) s)
  | EndClear => setLoading false s
  end.

Definition setRedemptionFormat (items : list code) (s : table) : table :=
  let '(ls, h) := allocate items (heap s) in setRows ls h s.

Definition page_loaded (page : Z) (p : paged code) (s : table) : table :=
  setRedemptionFormat (pg_items p) (setTokenCount (pg_total p) (setActivePage page s)).

(** Errors are caught. *)
Definition loadDone (k : after) (r : reply (paged code)) (s : table) : table :=
  ended k (setLoading false
    match r with
    | Rejected e => showError (VStr e) s
    | Refused m => showError m s
    | Served p => page_loaded (if (pg_page p <=? 0)%Z then 1 else pg_page p) p s
    end).

Definition searchDone (k : after) (r : reply (paged code)) (s : table) : table :=
  ended k (setSearching false
    match r with
    | Rejected e => showError (VStr e) s
    | Refused m => showError m s
    | Served p => page_loaded (if decide (pg_page p = 0%Z) then 1 else pg_page p) p s
    end).

Definition handlePageChange (page : Z) (s : table) : table :=
  let s := setActivePage page s in
  if decide (searchKeyword s = "") then loadRedemptions page (pageSize s) Plain s
  else searchRedemptions (pageSize s) Plain s.

(** [setPageSize]: after a change its effect loads the first page. *)
Definition setPageSize (size : Z) (s : table) : table :=
  if decide (size = pageSize s) then s else loadRedemptions 1 size Plain (setPageSizeValue size s).

(** The search has the page size of the render. *)
Definition handlePageSizeChange (size : Z) (s : table) : table :=
  let s := setActivePage 1 s in
  setPageSize size
    (if decide (searchKeyword s = "") then loadRedemptions 1 size Plain s else searchRedemptions (pageSize s) Plain s).

Definition mount : table := loadRedemptions 1 ITEMS_PER_PAGE Plain initial.

(** ** Changing codes *)

Definition action_effect (a : action) (id : Z) : effect :=
  match a with
  | DELETE => DeleteCode ("/api/redemption/" +:+ pretty id +:+ "/")
  | ENABLE => PutStatus id UNUSED
  | DISABLE => PutStatus id DISABLED
  end.

Definition manageRedemption (id : Z) (a : action) (record : nat) (k : after) (s : table) : table :=
  await (TManage a id record (redemptions s) k) (emit (action_effect a id) (setLoading true s)).

(** The answer has the new status, which is written into the record. *)
Definition manageDone (a : action) (record : nat) (rows : list nat) (k : after) (r : reply Z) (s : table) : table :=
  ended k (setLoading false
    match r with
    | Rejected e => showError (VStr e) s
    | Refused m => showError m s
    | Served st =>
        setRows rows (match a with DELETE => heap s | _ => alter (set_code_status st) record (heap s) end)
          (emit (ShowSuccess (t "操作成功完成！")) s)
    end).

Definition isExpired (now : Z) (c : code) : bool :=
  bool_decide (r_status c = UNUSED) && negb (bool_decide (r_expired c = 0%Z)) && (r_expired c <? now)%Z.

(** Whether a row is shaded. *)
Definition handleRow (now : Z) (c : code) : bool := negb (bool_decide (r_status c = UNUSED)) || isExpired now c.

(** The change of status a row offers, and whether it can be clicked. *)
Definition offered (now : Z) (c : code) : option (action * bool) :=
  if bool_decide (r_status c = UNUSED) && negb (isExpired now c) then Some (DISABLE, true)
  else if negb (isExpired now c) then Some (ENABLE, negb (bool_decide (r_status c = USED)))
  else None.

(** [removeRecord]: the first row with the key. *)
Definition removeRecord (key : string) (s : table) : table :=
  match list_find (λ l, from_option r_key "" (heap s !! l) = key) (redemptions s) with
  | Some (i, _) => setRows (delete i (redemptions s)) (heap s) s
  | None => s
  end.

(** ** Copying and clearing *)

Definition copyText (text : string) (s : table) : table := await (TCopy text) (emit (Clip text) s).
Definition copyDone (text : string) (ok : bool) (s : table) : table :=
  emit (if ok then ShowSuccess "已复制到剪贴板！" else CopyFailed text) s.

Definition copy_line (c : code) : string := r_name c +:+ "    " +:+ r_key c +:+ String NL "".

Definition batchCopyRedemptions (s : table) : table :=
  match selectedKeys s with
  | [] => showError (VStr (t "请至少选择一个兑换码！")) s
  | _ => copyText (join "" (copy_line <$> objects (heap s) (selectedKeys s))) s
  end.

Definition batchDeleteRedemptions (s : table) : table :=
  setQuestions (questions s ++ [(activePage s, pageSize s)]) (emit AskClear s).

(** [onOk] of a question. *)
Definition clear (page size : Z) (s : table) : table :=
  await (TInvalid page size) (emit (DeleteCode "/api/redemption/invalid") (setLoading true s)).

(** Nothing catches a rejection. *)
Definition clearDone (page size : Z) (r : reply Z) (s : table) : table :=
  match r with
  | Rejected _ => s
  | Refused m => setLoading false (showError m s)
  | Served n => refreshAt page size EndClear (emit (ShowSuccess (t "已删除 {{count}} 条失效兑换码")) s)
  end.

(** ** Dialogs and timers *)

Definition closeEdit (s : table) : table := setTimeout ForgetEdit (setShowEdit false s).
Definition edit (record : option nat) (s : table) : table := setShowEdit true (setEditing record s).
Definition showDeleteRedemptionModal (record : nat) (s : table) : table := setDelete true (Some record) s.

(** [handleConfirm] of the dialog. *)
Definition handleConfirm (s : table) : table :=
  match deletingRecord s with
  | Some l => match heap s !! l with
              | Some c => manageRedemption (r_id c) DELETE l
                            (DialogRefresh (length (redemptions s)) (activePage s) (pageSize s)) s
              | None => s
              end
  | None => s
  end.

Definition handleReset (s : table) : table := setTimeout (FilterSearch (pageSize s)) (setKeyword "" s).

Definition fired (x : timer) (s : table) : table :=
  match x with
  | GoBack rows page size =>
      if decide (rows = 0%nat ∧ (1 < page)%Z) then refreshAt (page - 1) size Plain s else s
  | ForgetEdit => setEditing None s
  | FilterSearch size => searchRedemptions size Plain s
  end.
End table.

(** ** The table over the service *)

Inductive act :=
| ASearch | APage (page : Z) | APageSize (size : Z) | ARefresh (page : option Z) | AType (keyword : string)
| AReset | AFire (i : nat) | AStatus (now : Z) (record : nat) | AShowDelete (record : nat) | AConfirmDelete
| ACancelDelete | AClear | AClearOk (i : nat) | ASelect (rows : list nat) | ACopy | AEdit (record : option nat)
| ACloseEdit | ARemove (key : string).

Section service.
Variable t : string → string.

Definition begin (a : act) (s : table) : table :=
  match a with
  | ASearch => searchRedemptions (pageSize s) Plain s
  | APage page => handlePageChange page s
  | APageSize size => handlePageSizeChange size s
  | ARefresh page => refresh page s
  | AType keyword => setKeyword keyword s
  | AReset => handleReset s
  | AFire i => match timers s !! i with
               | Some x => fired x (setTimers (delete i (timers s)) s)
               | None => s
               end
  | AStatus now l =>
      match heap s !! l with
      | Some c => if decide (l ∈ redemptions s) then
                    match offered now c with
                    | Some (x, true) => manageRedemption (r_id c) x l Plain s
                    | _ => s
                    end
                  else s
      | None => s
      end
  | AShowDelete l => showDeleteRedemptionModal l s
  | AConfirmDelete => handleConfirm s
  | ACancelDelete => setDelete false (deletingRecord s) s
  | AClear => batchDeleteRedemptions s
  | AClearOk i => match questions s !! i with
                  | Some (page, size) => clear page size (setQuestions (delete i (questions s)) s)
                  | None => s
                  end
  | ASelect rows => setSelectedKeys rows s
  | ACopy => batchCopyRedemptions t s
  | AEdit record => edit record s
  | ACloseEdit => closeEdit s
  | ARemove key => removeRecord key s
  end.

Definition about_rows (k : task) : bool := match k with TCopy _ => false | _ => true end.

Definition code_view (c : code) : Z * Z := (r_id c, r_status c).

(** A page shows what the service keeps, and has every id once. *)
Definition served_page (d : gmap Z Z) (r : reply (paged code)) (o : outcome) : Prop :=
  match r with
  | Served p => o = Fresh ∧ kept d (code_view <$> pg_items p) ∧ NoDup (r_id <$> pg_items p)
  | _ => o = Known
  end.

(** A change that fails may have been made; clearing deletes some codes, also
    when it fails. *)
Definition answers (d : gmap Z Z) (k : task) (s : table) (d' : gmap Z Z) (o : outcome) (s' : table) : Prop :=
  match k with
  | TLoad k => d' = d ∧ ∃ r, s' = loadDone k r s ∧ served_page d r o
  | TSearch k => d' = d ∧ ∃ r, s' = searchDone k r s ∧ served_page d r o
  | TManage a id record rows k => ∃ r, s' = manageDone t a record rows k r s ∧
      match r with
      | Served st => o = Known ∧ d' = match a with DELETE => delete id d | _ => alter (λ _, st) id d end
      | _ => o = Lost (eq id) ∧ changed_at (eq id) d d'
      end
  | TInvalid page size => o = Known ∧ d' ⊆ d ∧ ∃ r, s' = clearDone t page size r s
  | TCopy text => d' = d ∧ o = Known ∧ ∃ ok, s' = copyDone text ok s
  end.

#[export] Instance redemptions_table : ServedTable table task act Z := {|
  TableService.waiting := tasks; TableService.setWaiting := setTasks; TableService.about_rows := about_rows;
  TableService.begin := begin; TableService.answers := answers;
  TableService.shown := λ s, code_view <$> objects (heap s) (redemptions s) |}.

Definition row_tasks (s : table) : list task := filter (λ k, about_rows k = true) (tasks s).

(** The rows. *)
Definition rows_ok (w : Z → Prop) (d : gmap Z Z) (s : table) : Prop :=
  agrees w d (code_view <$> objects (heap s) (redemptions s)) ∧
  NoDup (r_id <$> objects (heap s) (redemptions s)).

(** A change of a code: it has the rows and, unless it deletes, the row of the
    code. *)
Definition change_ok (s : table) (k : task) : Prop :=
  match k with
  | TManage a id record rows _ => rows = redemptions s ∧
      (a ≠ DELETE → record ∈ redemptions s ∧ ∃ c, heap s !! record = Some c ∧ r_id c = id)
  | _ => True
  end.

Definition is_load (k : task) : Prop :=
  match k with TLoad Plain | TSearch Plain => True | _ => False end.

(** Either one request about the rows, or loads only. *)
Definition tasks_ok (s : table) : Prop :=
  Forall is_load (row_tasks s) ∨ ∃ k, row_tasks s = [k] ∧ change_ok s k.

Definition codes_inv (w : Z → Prop) (d : gmap Z Z) (s : table) : Prop := rows_ok w d s ∧ tasks_ok s.

(** The same rows and requests. *)
Definition same (s s' : table) : Prop := redemptions s' = redemptions s ∧ heap s' = heap s ∧ row_tasks s' = row_tasks s.

Lemma codes_await k s : row_tasks (await k s) = row_tasks s ++ (if about_rows k then [k] else []).
Proof. destruct s. unfold row_tasks, await. simpl. rewrite filter_app. f_equal. destruct k; reflexivity. Qed.

Lemma same_rows w d s s' : rows_ok w d s → same s s' → rows_ok w d s'.
Proof. intros H (Hr & Hh & _). unfold rows_ok. by rewrite Hr, Hh. Qed.
Lemma same_inv w d s s' : codes_inv w d s → same s s' → codes_inv w d s'.
Proof.
  intros [H [Ht|(k & Hk & Hc)]] Hs; (split; [by eapply same_rows|]); destruct Hs as (Hr & Hh & He).
  - left. by rewrite He.
  - right. exists k. rewrite He. split; [done|]. destruct k; simpl in *; try done. by rewrite Hr, Hh.
Qed.

(** One request is made where none was under way. *)
Lemma codes_awaiting w d s s' k : rows_ok w d s → row_tasks s = [] → same s s' → change_ok s k → codes_inv w d (await k s').
Proof.
  intros H Hn Hs Hk. assert (codes_inv w d s') as [H' _].
  { eapply same_inv; [|exact Hs]. split; [done|]. left. rewrite Hn. constructor. }
  destruct Hs as (Hr & Hh & He). split; [by destruct s'|].
  destruct (about_rows k) eqn:Hb.
  - right. exists k. rewrite codes_await, He, Hn, Hb. split; [done|]. destruct k; simpl in *; try done.
    destruct s'; simpl in *. by subst.
  - left. rewrite codes_await, He, Hn, Hb. constructor.
Qed.
End service.

Ltac same_solver := by match goal with s : table |- same ?x _ => destruct s; split_and!; reflexivity end.

Section laws.
Variable t : string → string.

Lemma inv_loadRedemptions w d p n k s : rows_ok w d s → row_tasks s = [] → codes_inv w d (loadRedemptions p n k s).
Proof. intros. by apply (codes_awaiting w d s); [| |same_solver|]. Qed.
Lemma inv_searchRedemptions w d n k s : rows_ok w d s → row_tasks s = [] → codes_inv w d (searchRedemptions n k s).
Proof.
  intros. unfold searchRedemptions. case_decide; [by apply inv_loadRedemptions|]. by apply (codes_awaiting w d s); [| |same_solver|].
Qed.
Lemma inv_refreshAt w d p n k s : rows_ok w d s → row_tasks s = [] → codes_inv w d (refreshAt p n k s).
Proof.
  intros. unfold refreshAt. case_decide; [by apply inv_loadRedemptions|by apply inv_searchRedemptions].
Qed.
Lemma inv_none w d s : rows_ok w d s → row_tasks s = [] → codes_inv w d s.
Proof. intros H Hn. split; [done|]. left. rewrite Hn. constructor. Qed.

Lemma codes_ended w d k s : rows_ok w d s → row_tasks s = [] → codes_inv w d (ended k s).
Proof.
  intros H Hn. destruct k; simpl; [by apply inv_none|by apply inv_refreshAt| |];
    (eapply same_inv; [by apply inv_none|same_solver]).
Qed.

Lemma inv_fired w d x s : rows_ok w d s → row_tasks s = [] → codes_inv w d (fired x s).
Proof.
  intros H Hn. destruct x; simpl.
  - case_decide; [by apply inv_refreshAt|by apply inv_none].
  - eapply same_inv; [by apply inv_none|same_solver].
  - by apply inv_searchRedemptions.
Qed.

Lemma one_load p n s : row_tasks s = [] → row_tasks (loadRedemptions p n Plain s) = [TLoad Plain].
Proof.
  intros Hn. unfold loadRedemptions. rewrite codes_await. simpl. assert (∀ x y, row_tasks (emit x (setLoading y s)) = row_tasks s)
    as -> by (by destruct s). by rewrite Hn.
Qed.
Lemma one_search n s : row_tasks s = [] → ∃ k, row_tasks (searchRedemptions n Plain s) = [k] ∧ is_load k.
Proof.
  intros Hn. unfold searchRedemptions. case_decide; [rewrite one_load by done; by eexists|].
  rewrite codes_await. simpl. assert (∀ x y, row_tasks (emit x (setSearching y s)) = row_tasks s)
    as -> by (by destruct s). rewrite Hn. by eexists.
Qed.

Lemma inv_page_size w d n s : rows_ok w d s → row_tasks s = [] → codes_inv w d (handlePageSizeChange n s).
Proof.
  intros H Hn. unfold handlePageSizeChange, setPageSize.
  assert (rows_ok w d (setActivePage 1 s) ∧ row_tasks (setActivePage 1 s) = []) as [H0 Hn0] by (by destruct s).
  set (s1 := if decide (searchKeyword _ = "") then _ else _).
  assert (codes_inv w d s1 ∧ ∃ k, row_tasks s1 = [k] ∧ is_load k) as [H1 (k & Hk & Hl)].
  { unfold s1. case_decide.
    - split; [by apply inv_loadRedemptions|]. rewrite one_load by done. by eexists.
    - split; [by apply inv_searchRedemptions|by apply one_search]. }
  clearbody s1. case_decide; [done|].
  assert (row_tasks (setPageSizeValue n s1) = row_tasks s1) as E by (by destruct s1).
  split; [destruct H1 as [H1 _]; by destruct s1|]. left. unfold loadRedemptions. rewrite codes_await. simpl.
  assert (∀ x y, row_tasks (emit x (setLoading y (setPageSizeValue n s1))) = row_tasks s1) as -> by (by destruct s1).
  rewrite Hk. by repeat constructor.
Qed.

Lemma inv_remove w d key s : rows_ok w d s → row_tasks s = [] → codes_inv w d (removeRecord key s).
Proof.
  intros [Ha Hd] Hn. unfold removeRecord. destruct (list_find _ _) as [[i l]|]; [|by apply inv_none].
  assert (objects (heap s) (delete i (redemptions s)) `sublist_of` objects (heap s) (redemptions s)) as Hs.
  { unfold objects. generalize (redemptions s) i. induction l0 as [|x l0 IH]; intros [|j]; cbn; try done.
    - by destruct (heap s !! x); cbn; [apply sublist_cons|].
    - destruct (heap s !! x); cbn; [apply sublist_skip|]; apply IH. }
  apply inv_none; [|by destruct s]. assert (redemptions (setRows (delete i (redemptions s)) (heap s) s) =
    delete i (redemptions s) ∧ heap (setRows (delete i (redemptions s)) (heap s) s) = heap s) as [E1 E2] by (by destruct s).
  unfold rows_ok. rewrite E1, E2. split.
  - unfold agrees in *. apply Forall_fmap. apply Forall_fmap in Ha. by eapply Forall_sublist.
  - eapply sublist_NoDup; [done|by apply fmap_sublist].
Qed.

(** Every action keeps the rows in order. *)
Lemma inv_begin w d a s : rows_ok w d s → row_tasks s = [] → codes_inv w d (begin t a s).
Proof.
  intros H Hn. pose proof (inv_none w d s H Hn) as Hi.
  destruct a; simpl; try (by eapply same_inv; [exact Hi|same_solver]).
  - by apply inv_searchRedemptions.
  - unfold handlePageChange. assert (rows_ok w d (setActivePage page s) ∧ row_tasks (setActivePage page s) = []) as [? ?]
      by (by destruct s). case_decide; [by apply inv_loadRedemptions|by apply inv_searchRedemptions].
  - by apply inv_page_size.
  - by apply inv_refreshAt.
  - destruct (timers s !! i); [|done]. by apply inv_fired; destruct s.
  - destruct (heap s !! record) as [c|] eqn:Hc; [|done]. case_decide as Hl; [|done].
    destruct (offered now c) as [[x []]|]; [|done..].
    apply (codes_awaiting w d s); [done|done|same_solver|]. simpl. split; [done|]. eauto.
  - unfold handleConfirm. destruct (deletingRecord s) as [l|]; [|done]. destruct (heap s !! l) as [c|]; [|done].
    apply (codes_awaiting w d s); [done|done|same_solver|]. by simpl.
  - destruct (questions s !! i) as [[page size]|]; [|done]. by apply (codes_awaiting w d s); [| |same_solver|].
  - unfold batchCopyRedemptions. destruct (selectedKeys s); [eapply same_inv; [exact Hi|same_solver]|].
    by apply (codes_awaiting w d s); [| |same_solver|].
  - by apply inv_remove.
Qed.

Lemma page_rows w d page p s : kept d (code_view <$> pg_items p) → NoDup (r_id <$> pg_items p) → row_tasks s = [] →
  rows_ok w d (page_loaded page p s) ∧ row_tasks (page_loaded page p s) = [].
Proof.
  intros Hk Hd Hn. unfold page_loaded, setRedemptionFormat.
  assert (heap (setTokenCount (pg_total p) (setActivePage page s)) = heap s) as -> by (by destruct s).
  destruct (allocate (pg_items p) (heap s)) as [ls h] eqn:E. destruct (allocate_objects _ _ _ _ E) as (_ & Ho & _).
  split; [|by destruct s]. unfold rows_ok. destruct s. simpl. rewrite Ho. split; [by apply kept_agrees|done].
Qed.

(** The end of a load while other loads may be under way. *)
Lemma codes_loaded w d s k r o (f : table → table) (g : paged code → Z) :
  rows_ok w d s → (row_tasks s = [] ∨ k = Plain ∧ Forall is_load (row_tasks s)) → (∀ s, same s (f s)) →
  served_page d r o →
  codes_inv (doubted o w) d (ended k (f match r with
    | Rejected e => showError (VStr e) s
    | Refused m => showError m s
    | Served p => page_loaded (g p) p s
    end)).
Proof.
  intros H Ht Hf Hr. set (s1 := match r with Rejected _ => _ | Refused _ => _ | Served _ => _ end).
  assert (rows_ok (doubted o w) d s1 ∧ row_tasks s1 = row_tasks s) as [H1 H2].
  { unfold s1. destruct r as [e|m|p]; [by simpl in Hr; subst o; destruct s..|]. destruct Hr as (-> & Hk & Hd).
    assert (row_tasks (page_loaded (g p) p s) = row_tasks s) as E2.
    { unfold page_loaded, setRedemptionFormat. destruct (allocate _ _). by destruct s. }
    split; [|done]. assert (row_tasks (setTasks [] s) = []) as E by (by destruct s).
    destruct (page_rows (doubted Fresh w) d (g p) p (setTasks [] s) Hk Hd E) as [H3 _]. revert H3.
    unfold rows_ok, page_loaded, setRedemptionFormat. destruct s. simpl. by destruct (allocate _ _). }
  assert (rows_ok (doubted o w) d (f s1) ∧ row_tasks (f s1) = row_tasks s) as [H3 H4].
  { split; [by eapply same_rows|]. destruct (Hf s1) as (_ & _ & ->). done. }
  destruct Ht as [Ht|[-> Ht]]; [apply codes_ended; congruence|].
  split; [done|]. left. unfold ended. by rewrite H4.
Qed.

Lemma agrees_status w d id st l x s (h : gmap nat code) :
  agrees w d (code_view <$> objects h s) → NoDup (r_id <$> objects h s) → l ∈ s → h !! l = Some x → r_id x = id →
  agrees w (alter (λ _, st) id d) (code_view <$> objects (alter (set_code_status st) l h) s) ∧
  NoDup (r_id <$> objects (alter (set_code_status st) l h) s).
Proof.
  intros Ha Hd Hl Hx <-. rewrite (objects_alter (set_code_status st) r_id h l s) with (x := x) by done. split.
  - pose proof (agrees_alter w d (λ _, st) (λ _, st) (r_id x) _ Ha) as H.
    rewrite <-!list_fmap_compose in *. erewrite list_fmap_ext; [apply H; done|]. intros i y _. simpl.
    unfold code_view. by case_decide.
  - rewrite <-list_fmap_compose. erewrite list_fmap_ext; [exact Hd|]. intros i y _. simpl. by case_decide.
Qed.

Lemma codes_managed w d d' s a id record rows k r o :
  rows_ok w d s → row_tasks s = [] → change_ok s (TManage a id record rows k) →
  match r with
  | Served st => o = Known ∧ d' = match a with DELETE => delete id d | _ => alter (λ _, st) id d end
  | _ => o = Lost (eq id) ∧ changed_at (eq id) d d'
  end → codes_inv (doubted o w) d' (manageDone t a record rows k r s).
Proof.
  intros H Hn [-> Hc] Hd. unfold manageDone. apply codes_ended; [|by destruct r, s].
  destruct H as [Ha Hnd]. destruct r as [e|m|st]; destruct Hd as [-> Hd].
  - split; [|by destruct s]. eapply agrees_lost; [exact Hd|by destruct s].
  - split; [|by destruct s]. eapply agrees_lost; [exact Hd|by destruct s].
  - subst d'. destruct a.
    + split; [|by destruct s]. eapply agrees_sub; [apply delete_subseteq|by destruct s].
    + destruct Hc as (Hl & c & Hx & Hid); [done|]. destruct (agrees_status w d id st record c (redemptions s) (heap s))
        as [? ?]; try done. by destruct s.
    + destruct Hc as (Hl & c & Hx & Hid); [done|]. destruct (agrees_status w d id st record c (redemptions s) (heap s))
        as [? ?]; try done. by destruct s.
Qed.

Lemma inv_cleared w d d' s page size r : rows_ok w d s → row_tasks s = [] → d' ⊆ d →
  codes_inv w d' (clearDone t page size r s).
Proof.
  intros [Ha Hnd] Hn Hd. assert (rows_ok w d' s) as H by (split; [by eapply agrees_sub|done]).
  destruct r as [e|m|n]; simpl.
  - by apply inv_none.
  - by apply inv_none; destruct s.
  - by apply inv_refreshAt; destruct s.
Qed.

(** What is left when a task about the rows is taken. *)
Lemma taken w d s l1 k l2 : codes_inv w d s → tasks s = l1 ++ k :: l2 → about_rows k = true →
  rows_ok w d (setTasks (l1 ++ l2) s) ∧
  (row_tasks (setTasks (l1 ++ l2) s) = [] ∧ change_ok (setTasks (l1 ++ l2) s) k ∨
   is_load k ∧ Forall is_load (row_tasks (setTasks (l1 ++ l2) s))).
Proof.
  intros [H Ht] E Hk. split; [by destruct s|].
  assert (row_tasks s = filter (λ k, about_rows k = true) l1 ++ k :: filter (λ k, about_rows k = true) l2) as E1.
  { unfold row_tasks. by rewrite E, filter_app, filter_cons_True. }
  assert (row_tasks (setTasks (l1 ++ l2) s) = filter (λ k, about_rows k = true) l1 ++ filter (λ k, about_rows k = true) l2)
    as E2 by (destruct s; unfold row_tasks; simpl; by rewrite filter_app).
  rewrite E2. destruct Ht as [Hl|(k' & Hs & Hc)].
  - right. rewrite E1 in Hl. apply Forall_app in Hl as [Hl1 [Hk' Hl2]%Forall_cons]. split; [done|by apply Forall_app].
  - left. rewrite E1 in Hs. destruct (filter _ l1); simpl in Hs; simplify_eq.
    + split; [done|]. by destruct s, k'.
    + by destruct l.
Qed.

#[export] Instance redemptions_laws : @ServedTableLaws table task act Z (redemptions_table t).
Proof.
  refine {| inv := codes_inv |}.
  - by intros w d s [[H _] _] _.
  - intros a w d s [H _] Hf. apply inv_begin; [done|]. by apply filter_none.
  - intros l1 k l2 w d s d' o s' H Ht Ha. simpl in *. destruct (about_rows k) eqn:Hk.
    + destruct (taken w d s l1 k l2 H Ht Hk) as [H' Hc]. destruct k; try done; simpl in Ha.
      * destruct Ha as (-> & r & -> & Hp). apply codes_loaded; [done| |by intros []|done]. destruct k; naive_solver.
      * destruct Ha as (-> & r & -> & Hp). apply codes_loaded; [done| |by intros []|done]. destruct k; naive_solver.
      * destruct Ha as (r & -> & Hd). destruct Hc as [[Hn Hc]|[[] _]]. by eapply codes_managed.
      * destruct Ha as (-> & Hd & r & ->). destruct Hc as [[Hn _]|[[] _]]. by eapply inv_cleared.
    + destruct k; try done. destruct Ha as (-> & -> & ok & ->). eapply same_inv; [exact H|].
      assert (row_tasks (setTasks (l1 ++ l2) s) = row_tasks s) as E.
      { destruct s; unfold row_tasks; simpl in *. by rewrite Ht, !filter_app, filter_cons_False. }
      by destruct s.
Defined.
End laws.

(** ** Sessions *)

Lemma codes_mount_inv w d : codes_inv w d mount.
Proof. apply inv_loadRedemptions; [|done]. split; constructor. Qed.

(** A copy has one line for every selected code, in order. *)
Lemma copied_lines s : selectedKeys s ≠ [] →
  last (effects (batchCopyRedemptions (λ x, x) s)) =
    Some (Clip (join "" (copy_line <$> objects (heap s) (selectedKeys s)))).
Proof.
  intros H. unfold batchCopyRedemptions. destruct (selectedKeys s) as [|l ls] eqn:E; [done|]. rewrite <-E.
  destruct s. simpl in *. by rewrite last_snoc.
Qed.

(** A new page size during a search asks twice: the search with the former
    size, then everything with the new one. *)
Lemma page_size_asks_twice :
  let s := setTasks [] (setKeyword "gift" mount) in
  drop 1 (effects (handlePageSizeChange 50 s)) =
    [Get "/api/redemption/search?keyword=gift&p=1&page_size=10"; Get "/api/redemption/?p=1&page_size=50"].
Proof. vm_compute. done. Qed.

(** Every page of a search asks for its first page. *)
Lemma search_first_page page :
  last (effects (handlePageChange page (setKeyword "gift" mount))) =
    Some (Get "/api/redemption/search?keyword=gift&p=1&page_size=10").
Proof. reflexivity. Qed.

(** After a rejected clearing the table is left loading. *)
Lemma rejected_clear_keeps_loading page size s :
  loading (clearDone (λ x, x) page size (Rejected "Network Error") (clear page size s)) = true.
Proof. by destruct s. Qed.
