(* ===== verification/ModelsTable.v ===== *)
(** * The table of models

    [web/src/hooks/models/useModelsData.jsx] with the handlers of
    [ModelsActions.jsx], [ModelsTabs.jsx], [ModelsFilters.jsx] and
    [ModelsColumnDefs.jsx] (the buttons of a row) of
    [web/src/components/table/models]: pages of models by vendor, searching,
    enabling, disabling and deleting, and the sync with the upstream list.

    As in [Users] a task keeps what its handler has of the render it was made
    in: page, page size and vendor ([ctx]). *)
From stdpp Require Import relations.
From S2P Require Import Prelude JsString JsNumber JsValue TableService.

(** ** Data *)

Record model := Model { m_id : Z; m_name : string; m_status : Z; m_fields : obj }.
Record vendor := Vendor { vd_id : Z; vd_name : string }.

Record form := Form { searchKeyword : string; searchVendor : string }.

(** [data] of an answer: [null], an array, or an object with [items] (if they
    are an array), [page] and [total] ([0] for none) and [vendor_counts]. *)
Inductive payload :=
| PNull | PArray (items : list model)
| PObject (items : option (list model)) (page total : Z) (vendor_counts : option (list (string * Z))).

Record ctx := Ctx { c_page : Z; c_size : Z; c_vendor : string }.

Inductive act_kind := Delete | Enable | Disable.
#[export] Instance act_kind_eq_dec : EqDecision act_kind.
Proof. solve_decision. Defined.

Inductive effect :=
| Get (url : string) | DeleteAt (url : string) | PutStatus (id status : Z) | PostSync (locale : string) (overwrite : option jsval)
| ShowError (e : jsval) | ShowSuccess (text : string) | Clip (text : string) | AskDelete (id : Z).

(** What follows a load: nothing, the end of a sync, or the second refresh of
    the button that deletes. *)
Inductive after := Plain | EndSync | RefreshAgain (c : ctx).

Inductive task :=
| TVendors (k : option ctx)
| TLoad (page : Z) (k : after) | TSearch
| TManage (a : act_kind) (id : Z) (c : ctx) (again : bool)
| TSync (overwrite : bool) (c : ctx) | TPreview (locale : string) (c : ctx)
| TBatch (selected : list model) (c : ctx) | TDeleteVendor (id : Z) (c : ctx) | TCopy (done failed : string).

Inductive timer := ForgetEdit | FilterSearch (c : ctx).

Record table := Table {
  models : list model; loading : bool; searching : bool; activePage : Z; pageSize : Z; modelCount : Z;
  selectedKeys : list model; showEdit : bool; editingModel : option model; theForm : form;
  vendors : list vendor; vendorCounts : list (string * Z); activeVendorKey : string;
  syncing : bool; previewing : bool; conflicts : list jsval; showConflict : bool; showDeleteModal : bool;
  timers : list timer; tasks : list task; effects : list effect }.

Definition ITEMS_PER_PAGE : Z := 10.

Definition initial : table :=
  Table [] true false 1 ITEMS_PER_PAGE 0 [] false None (Form "" "") [] [] "all" false false [] false false [] [] [].

Definition setModels (x : list model) (s : table) : table :=
  let '(Table _ b c d e f g h i j k l m n o p q r u v w) := s in Table x b c d e f g h i j k l m n o p q r u v w.
Definition setLoading (x : bool) (s : table) : table :=
  let '(Table a _ c d e f g h i j k l m n o p q r u v w) := s in Table a x c d e f g h i j k l m n o p q r u v w.
Definition setSearching (x : bool) (s : table) : table :=
  let '(Table a b _ d e f g h i j k l m n o p q r u v w) := s in Table a b x d e f g h i j k l m n o p q r u v w.
Definition setActivePage (x : Z) (s : table) : table :=
  let '(Table a b c _ e f g h i j k l m n o p q r u v w) := s in Table a b c x e f g h i j k l m n o p q r u v w.
Definition setPageSize (x : Z) (s : table) : table :=
  let '(Table a b c d _ f g h i j k l m n o p q r u v w) := s in Table a b c d x f g h i j k l m n o p q r u v w.
Definition setModelCount (x : Z) (s : table) : table :=
  let '(Table a b c d e _ g h i j k l m n o p q r u v w) := s in Table a b c d e x g h i j k l m n o p q r u v w.
Definition setSelectedKeys (x : list model) (s : table) : table :=
  let '(Table a b c d e f _ h i j k l m n o p q r u v w) := s in Table a b c d e f x h i j k l m n o p q r u v w.
Definition setShowEdit (x : bool) (s : table) : table :=
  let '(Table a b c d e f g _ i j k l m n o p q r u v w) := s in Table a b c d e f g x i j k l m n o p q r u v w.
Definition setEditingModel (x : option model) (s : table) : table :=
  let '(Table a b c d e f g h _ j k l m n o p q r u v w) := s in Table a b c d e f g h x j k l m n o p q r u v w.
Definition setForm (x : form) (s : table) : table :=
  let '(Table a b c d e f g h i _ k l m n o p q r u v w) := s in Table a b c d e f g h i x k l m n o p q r u v w.
Definition setVendors (x : list vendor) (s : table) : table :=
  let '(Table a b c d e f g h i j _ l m n o p q r u v w) := s in Table a b c d e f g h i j x l m n o p q r u v w.
Definition setVendorCounts (x : list (string * Z)) (s : table) : table :=
  let '(Table a b c d e f g h i j k _ m n o p q r u v w) := s in Table a b c d e f g h i j k x m n o p q r u v w.
Definition setVendorKeyValue (x : string) (s : table) : table :=
  let '(Table a b c d e f g h i j k l _ n o p q r u v w) := s in Table a b c d e f g h i j k l x n o p q r u v w.
Definition setSyncing (x : bool) (s : table) : table :=
  let '(Table a b c d e f g h i j k l m _ o p q r u v w) := s in Table a b c d e f g h i j k l m x o p q r u v w.
Definition setPreviewing (x : bool) (s : table) : table :=
  let '(Table a b c d e f g h i j k l m n _ p q r u v w) := s in Table a b c d e f g h i j k l m n x p q r u v w.
Definition setConflicts (x : list jsval) (y : bool) (s : table) : table :=
  let '(Table a b c d e f g h i j k l m n o _ _ r u v w) := s in Table a b c d e f g h i j k l m n o x y r u v w.
Definition setShowDeleteModal (x : bool) (s : table) : table :=
  let '(Table a b c d e f g h i j k l m n o p q _ u v w) := s in Table a b c d e f g h i j k l m n o p q x u v w.
Definition setTimers (x : list timer) (s : table) : table :=
  let '(Table a b c d e f g h i j k l m n o p q r _ v w) := s in Table a b c d e f g h i j k l m n o p q r x v w.
Definition setTasks (x : list task) (s : table) : table :=
  let '(Table a b c d e f g h i j k l m n o p q r u _ w) := s in Table a b c d e f g h i j k l m n o p q r u x w.
Definition emit (x : effect) (s : table) : table :=
  let '(Table a b c d e f g h i j k l m n o p q r u v w) := s in Table a b c d e f g h i j k l m n o p q r u v (w ++ [x]).

Definition await (k : task) (s : table) : table := setTasks (tasks s ++ [k]) s.
Definition setTimeout (x : timer) (s : table) : table := setTimers (timers s ++ [x]) s.
Definition showError (e : jsval) (s : table) : table := emit (ShowError e) s.
Definition here (s : table) : ctx := Ctx (activePage s) (pageSize s) (activeVendorKey s).

(** [vendorMap]: the last vendor of an id. *)
Definition vendorMap (l : list vendor) : gmap Z vendor := foldl (λ m v, <[vd_id v := v]> m) ∅ l.

(** ** Loading *)

Section table.
Variable t : string → string.

Definition loadVendors (k : option ctx) (s : table) : table :=
  await (TVendors k) (emit (Get "/api/vendors/?page_size=1000") s).

Definition models_url (page size : Z) (vendorKey : string) : string :=
  if decide (vendorKey = "" ∨ vendorKey = "all")
  then "/api/models/?p=" +:+ pretty page +:+ "&page_size=" +:+ pretty size
  else "/api/models/search?vendor=" +:+ vendorKey +:+ "&p=" +:+ pretty page +:+ "&page_size=" +:+ pretty size.

Definition loadModels (page size : Z) (vendorKey : string) (k : after) (s : table) : table :=
  await (TLoad page k) (emit (Get (models_url page size vendorKey)) (setLoading true s)).

Definition refreshAt (c : ctx) (k : after) (s : table) : table := loadModels (c_page c) (c_size c) (c_vendor c) k s.
Definition refresh (page : option Z) (s : table) : table :=
  loadModels (default (activePage s) page) (pageSize s) (activeVendorKey s) Plain s.

(** Ignored errors; then a sync goes on. *)
Definition vendorsDone (k : option ctx) (r : reply (option (list vendor))) (s : table) : table :=
  let s := match r with Served (Some l) => setVendors l s | _ => s end in
  match k with Some c => refreshAt c EndSync s | None => s end.

Definition extractItems (p : payload) : list model :=
  match p with PArray l => l | PObject (Some l) _ _ _ => l | _ => [] end.

(** The counts with their sum. *)
Definition with_sum (counts : list (string * Z)) : list (string * Z) :=
  obj_define "all" (foldl Z.add 0%Z counts.*2) counts.

(** A page; [default] is the page if the answer has none.  Of [null] a property
    is read. *)
Definition page_loaded (default : Z) (error : string) (p : payload) (s : table) : table :=
  let items := extractItems p in
  let or x y := if decide (x = 0%Z) then y else x in
  match p with
  | PNull => setModels [] (showError (VStr (t error)) s)
  | PArray _ => setModels items (setModelCount (Z.of_nat (length items)) (setActivePage default s))
  | PObject _ page total counts =>
      let s := setModels items (setModelCount (or total (Z.of_nat (length items))) (setActivePage (or page default) s)) in
      match counts with Some c => setVendorCounts (with_sum c) s | None => s end
  end.

Definition loaded (default : Z) (error : string) (r : reply payload) (s : table) : table :=
  match r with
  | Rejected _ => setModels [] (showError (VStr (t error)) s)
  | Refused m => setModels [] (showError m s)
  | Served p => page_loaded default error p s
  end.

Definition ended (k : after) (s : table) : table :=
  match k with Plain => s | EndSync => setSyncing false s | RefreshAgain c => refreshAt c Plain s end.

Definition loadDone (page : Z) (k : after) (r : reply payload) (s : table) : table :=
  ended k (setLoading false (loaded page "获取模型列表失败" r s)).

Definition searchModelsAt (c : ctx) (s : table) : table :=
  let f := theForm s in
  if decide (searchKeyword f = "" ∧ searchVendor f = "") then loadModels 1 (c_size c) (c_vendor c) Plain s
  else await TSearch
    (emit (Get ("/api/models/search?keyword=" +:+ searchKeyword f +:+ "&vendor=" +:+ searchVendor f
       +:+ "&p=1&page_size=" +:+ pretty (c_size c))) (setSearching true s)).
Definition searchModels (s : table) : table := searchModelsAt (here s) s.

Definition searchDone (r : reply payload) (s : table) : table := setSearching false (loaded 1 "搜索模型失败" r s).

Definition handlePageChange (page : Z) (s : table) : table :=
  loadModels page (pageSize s) (activeVendorKey s) Plain (setActivePage page s).
Definition handlePageSizeChange (size : Z) (s : table) : table :=
  loadModels 1 size (activeVendorKey s) Plain (setActivePage 1 (setPageSize size s)).

(** [setActiveVendorKey]; its effect loads the first page after a change. *)
Definition setActiveVendorKey (key : string) (s : table) : table :=
  if decide (key = activeVendorKey s) then s
  else loadModels 1 (pageSize s) key Plain (setVendorKeyValue key s).

(** Both effects of the first render. *)
Definition mount : table := loadVendors None (loadModels 1 ITEMS_PER_PAGE "all" Plain initial).

(** ** Tabs of vendors *)

Definition handleTabChange (key : string) (s : table) : table :=
  setActiveVendorKey key (loadModels 1 (pageSize s) key Plain (setActivePage 1 s)).

Definition handleDeleteVendor (id : Z) (s : table) : table :=
  await (TDeleteVendor id (here s)) (emit (DeleteAt ("/api/vendors/" +:+ pretty id)) s).

(** A rejection carries the message of its answer, if there is one. *)
Definition deleteVendorDone (id : Z) (c : ctx) (r : reply unit) (s : table) : table :=
  match r with
  | Rejected m => showError (js_or (VStr m) (VStr (t "删除失败"))) s
  | Refused m => showError (js_or m (VStr (t "删除失败"))) s
  | Served _ =>
      let s := emit (ShowSuccess (t "供应商删除成功")) s in
      if decide (c_vendor c = pretty id) then setActiveVendorKey "all" (loadVendors None (loadModels 1 (c_size c) "all" Plain s))
      else loadVendors None (refreshAt c Plain s)
  end.

(** ** Changing models *)

Definition set_model_status (x : Z) (m : model) : model := Model (m_id m) (m_name m) x (m_fields m).
Definition new_status (a : act_kind) : Z := match a with Enable => 1 | _ => 0 end.
Definition with_status (id x : Z) (m : model) : model := if decide (m_id m = id) then set_model_status x m else m.

(** [again]: for the button that deletes, which refreshes once more. *)
Definition manageModel (id : Z) (a : act_kind) (again : bool) (s : table) : table :=
  await (TManage a id (here s) again)
    (emit (match a with
           | Delete => DeleteAt ("/api/models/" +:+ pretty id)
           | _ => PutStatus id (new_status a)
           end) s).

Definition manageEnded (c : ctx) (again : bool) (s : table) : table := if again then refreshAt c Plain s else s.

Definition manageDone (a : act_kind) (id : Z) (c : ctx) (again : bool) (r : reply unit) (s : table) : table :=
  match r with
  | Rejected _ => s
  | Refused m => manageEnded c again (showError m s)
  | Served _ =>
      let s := emit (ShowSuccess (t "操作成功完成！")) s in
      match a with
      | Delete => refreshAt c (if again then RefreshAgain c else Plain) s
      | _ => manageEnded c again (setModels (with_status id (new_status a) <$> models s) s)
      end
  end.

(** The click on a row. *)
Definition toggleRow (m : model) (s : table) : table :=
  setSelectedKeys (if decide (Exists (λ x, m_id x = m_id m) (selectedKeys s))
                   then filter (λ x, m_id x ≠ m_id m) (selectedKeys s) else selectedKeys s ++ [m]) s.

Definition handleRow (m : model) : bool := negb (bool_decide (m_status m = 1%Z)).

Definition batchDeleteModels (s : table) : table :=
  match selectedKeys s with
  | [] => showError (VStr (t "请至少选择一个模型")) s
  | sel => await (TBatch sel (here s)) (foldl (λ s m, emit (DeleteAt ("/api/models/" +:+ pretty (m_id m))) s) s sel)
  end.

(** What is said of the answers, in order: [None] a success, otherwise the
    message. *)
Definition batch_messages (sel : list model) (results : list (option string)) : list effect :=
  omap (λ mr, (λ m, ShowError (VStr ("删除模型 " +:+ m_name mr.1 +:+ " 失败: " +:+ m))) <$> mr.2) (zip sel results).

Definition batchDone (sel : list model) (c : ctx) (r : option (list (option string))) (s : table) : table :=
  match r with
  | None => showError (VStr (t "批量删除失败")) s
  | Some results =>
      let s := foldl (λ s e, emit e s) s (batch_messages sel results) in
      let successCount := length (filter (λ x, x = None) results) in
      if decide (successCount = 0%nat) then s
      else refreshAt c Plain (setSelectedKeys []
             (emit (ShowSuccess (t ("成功删除 " +:+ pretty successCount +:+ " 个模型"))) s))
  end.

(** ** Upstream *)

Definition syncUpstream (locale : string) (c : ctx) (s : table) : table :=
  await (TSync false c) (emit (PostSync locale None) (setSyncing true s)).
Definition applyUpstreamOverwrite (overwrite : jsval) (locale : string) (s : table) : table :=
  await (TSync true (here s)) (emit (PostSync locale (Some overwrite)) (setSyncing true s)).

(** The message of an answer with its counts. *)
Definition sync_message (overwrite : bool) (created updated newVendors skipped : Z) : string :=
  if overwrite then
    "完成：新增 " +:+ pretty created +:+ " 模型，更新 " +:+ pretty updated +:+ " 模型，新增 " +:+ pretty newVendors
      +:+ " 供应商，跳过 " +:+ pretty skipped +:+ " 项"
  else "已同步：新增 " +:+ pretty created +:+ " 模型，新增 " +:+ pretty newVendors +:+ " 供应商，跳过 " +:+ pretty skipped +:+ " 项".

Definition syncDone (overwrite : bool) (c : ctx) (r : reply (Z * Z * Z * Z)) (s : table) : table :=
  match r with
  | Rejected _ => setSyncing false (showError (VStr (t "同步失败")) s)
  | Refused m => setSyncing false (showError (js_or m (VStr (t "同步失败"))) s)
  | Served (created, updated, newVendors, skipped) =>
      loadVendors (Some c) (emit (ShowSuccess (t (sync_message overwrite created updated newVendors skipped))) s)
  end.

(** [handleSyncUpstream]: the preview first. *)
Definition handleSyncUpstream (locale : string) (s : table) : table :=
  await (TPreview locale (here s))
    (emit (Get ("/api/models/sync_upstream/preview" +:+ (if decide (locale = "") then "" else "?locale=" +:+ locale)))
      (setPreviewing true s)).

(** The conflicts of the answer, none when the preview failed. *)
Definition previewDone (locale : string) (c : ctx) (r : reply (list jsval)) (s : table) : table :=
  let s := setPreviewing false match r with
             | Rejected _ => showError (VStr (t "预览失败")) s
             | Refused m => showError (js_or m (VStr (t "预览失败"))) s
             | Served _ => s
             end in
  match r with
  | Served (x :: l) => setConflicts (x :: l) true s
  | _ => syncUpstream locale c s
  end.

(** ** Copying, dialogs, timers *)

Definition copyText (text : string) (s : table) : table := await (TCopy "复制成功" "复制失败") (emit (Clip text) s).
Definition handleCopyNames (s : table) : table :=
  let text := join "," (m_name <$> selectedKeys s) in
  if decide (text = "") then s else await (TCopy "已复制模型名称" "复制失败") (emit (Clip text) s).
Definition copyDone (done failed : string) (ok : bool) (s : table) : table :=
  if ok then emit (ShowSuccess (t done)) s else showError (VStr (t failed)) s.

Definition handleConfirmDelete (s : table) : table := setShowDeleteModal false (batchDeleteModels s).
Definition closeEdit (s : table) : table := setTimeout ForgetEdit (setShowEdit false s).
Definition edit (m : option model) (s : table) : table := setShowEdit true (setEditingModel m s).
Definition handleReset (s : table) : table := setTimeout (FilterSearch (here s)) (setForm (Form "" "") s).

Definition fired (x : timer) (s : table) : table :=
  match x with ForgetEdit => setEditingModel None s | FilterSearch c => searchModelsAt c s end.
End table.

(** ** The table over the service *)

Inductive action :=
| ASearch | APage (page : Z) | APageSize (size : Z) | ARefresh (page : option Z) | AType (f : form) | AReset
| AFire (i : nat) | ATab (key : string) | ADeleteVendor (id : Z) | AStatus (m : model) | ADelete (id : Z)
| ARow (m : model) | ASelect (l : list model) | AConfirmDelete | ASync (locale : string)
| AOverwrite (overwrite : jsval) (locale : string) | ACopyNames | ACopy (text : string) | AEdit (m : option model) | ACloseEdit
| AVendors.

Section service.
Variable t : string → string.

Definition begin (a : action) (s : table) : table :=
  match a with
  | ASearch => searchModels s
  | APage page => handlePageChange page s
  | APageSize size => handlePageSizeChange size s
  | ARefresh page => refresh page s
  | AType f => setForm f s
  | AReset => handleReset s
  | AFire i => match timers s !! i with
               | Some x => fired x (setTimers (delete i (timers s)) s)
               | None => s
               end
  | ATab key => handleTabChange key s
  | ADeleteVendor id => handleDeleteVendor id s
  | AStatus m => manageModel (m_id m) (if decide (m_status m = 1%Z) then Disable else Enable) false s
  | ADelete id => manageModel id Delete true s
  | ARow m => toggleRow m s
  | ASelect l => setSelectedKeys l s
  | AConfirmDelete => handleConfirmDelete t s
  | ASync locale => handleSyncUpstream locale s
  | AOverwrite o locale => applyUpstreamOverwrite o locale s
  | ACopyNames => handleCopyNames s
  | ACopy text => copyText text s
  | AEdit m => edit m s
  | ACloseEdit => closeEdit s
  | AVendors => loadVendors None s
  end.

Definition about_rows (k : task) : bool :=
  match k with TVendors None | TCopy _ _ | TPreview _ _ => false | _ => true end.

Definition model_view (m : model) : Z * Z := (m_id m, m_status m).

(** A served page shows the data as they are. *)
Definition served_page (d : gmap Z Z) (r : reply payload) (o : outcome) : Prop :=
  match r with Served p => o = Fresh ∧ kept d (model_view <$> extractItems p) | _ => o = Known end.

(** A sync may change any model; a deletion of several may have succeeded in
    part.  A change that failed may have been made all the same; a sync that
    failed may have changed any model. *)
Definition answers (d : gmap Z Z) (k : task) (s : table) (d' : gmap Z Z) (o : outcome) (s' : table) : Prop :=
  match k with
  | TVendors k => d' = d ∧ o = Known ∧ ∃ r, s' = vendorsDone k r s
  | TLoad page k => d' = d ∧ ∃ r, s' = loadDone t page k r s ∧ served_page d r o
  | TSearch => d' = d ∧ ∃ r, s' = searchDone t r s ∧ served_page d r o
  | TManage a id c again => ∃ r, s' = manageDone t a id c again r s ∧
      match r with
      | Served _ => o = Known ∧ d' = match a with Delete => delete id d | _ => alter (λ _, new_status a) id d end
      | _ => o = Lost (eq id) ∧ changed_at (eq id) d d'
      end
  | TSync overwrite c => ∃ r, s' = syncDone t overwrite c r s ∧
      o = match r with Served _ => Known | _ => Lost (λ _, True) end
  | TPreview locale c => d' = d ∧ o = Known ∧ ∃ r, s' = previewDone t locale c r s
  | TBatch sel c => o = Known ∧ ∃ r, s' = batchDone t sel c r s ∧ d' ⊆ d
  | TDeleteVendor id c => d' = d ∧ o = Known ∧ ∃ r, s' = deleteVendorDone t id c r s
  | TCopy x y => d' = d ∧ o = Known ∧ ∃ ok, s' = copyDone t x y ok s
  end.

#[export] Instance models_table : ServedTable table task action Z := {|
  TableService.waiting := tasks; TableService.setWaiting := setTasks; TableService.about_rows := about_rows;
  TableService.begin := begin; TableService.answers := answers; TableService.shown := λ s, model_view <$> models s |}.

End service.

(** A task after which the rows are new. *)
Definition reloads (k : task) : bool := match k with TVendors (Some _) | TLoad _ _ | TSearch => true | _ => false end.

Definition models_inv (w : Z → Prop) (d : gmap Z Z) (s : table) : Prop :=
  agrees w d (model_view <$> models s) ∨ ∃ k, k ∈ tasks s ∧ reloads k = true.

(** Steps that show the same rows and forget no task. *)
Definition grows (s s' : table) : Prop := models s' = models s ∧ tasks s ⊆ tasks s'.

Lemma inv_grows w d s s' : models_inv w d s → grows s s' → models_inv w d s'.
Proof. intros [H|(k & Hk & Hr)] [Hm Ht]; [left; by rewrite Hm|right; exists k; set_solver]. Qed.
Lemma grows_trans s1 s2 s3 : grows s1 s2 → grows s2 s3 → grows s1 s3.
Proof. intros [H1 H2] [H3 H4]. split; [congruence|set_solver]. Qed.
Lemma grows_await k s s' : grows s s' → grows s (await k s').
Proof. intros [H1 H2]. destruct s'. split; [done|]. simpl in *. set_solver. Qed.
Lemma inv_reload w d s k : reloads k = true → k ∈ tasks s → models_inv w d s.
Proof. intros. right. eauto. Qed.
Lemma grows_in s s' k : k ∈ tasks s → grows s s' → k ∈ tasks s'.
Proof. intros ? [_ ?]. set_solver. Qed.
Lemma in_await k s : k ∈ tasks (await k s).
Proof. destruct s. simpl. set_solver. Qed.

Ltac grows_solver := by match goal with s : table |- grows ?x _ => destruct s; split; [reflexivity|intros ? Hin; exact Hin] end.

Lemma grows_loadModels p n v k s : grows s (loadModels p n v k s).
Proof. apply grows_await. grows_solver. Qed.
Lemma in_loadModels p n v k s : TLoad p k ∈ tasks (loadModels p n v k s).
Proof. apply in_await. Qed.
Lemma grows_loadVendors k s : grows s (loadVendors k s).
Proof. apply grows_await. grows_solver. Qed.
Lemma grows_searchAt c s : grows s (searchModelsAt c s).
Proof. unfold searchModelsAt. case_decide; [apply grows_loadModels|]. apply grows_await. grows_solver. Qed.
Lemma grows_setVendorKey key s : grows s (setActiveVendorKey key s).
Proof.
  unfold setActiveVendorKey. case_decide; [by split|]. eapply grows_trans; [|apply grows_loadModels]. grows_solver.
Qed.
Lemma grows_refreshAt c k s : grows s (refreshAt c k s).
Proof. apply grows_loadModels. Qed.
Lemma grows_emits l s : grows s (foldl (λ s e, emit e s) s l).
Proof.
  revert s. induction l as [|e l IH]; intros s; [by split|]. simpl. eapply grows_trans; [|apply IH]. grows_solver.
Qed.
Lemma grows_ended k s : grows s (ended k s).
Proof. destruct k; simpl; [by split|grows_solver|apply grows_loadModels]. Qed.

Section laws.
Variable t : string → string.

Lemma grows_batch s : grows s (batchDeleteModels t s).
Proof.
  unfold batchDeleteModels. destruct (selectedKeys s) as [|m l]; [grows_solver|]. apply grows_await.
  generalize (m :: l). intros l'. revert s. induction l' as [|e l' IH]; intros s; [by split|].
  simpl. eapply grows_trans; [|apply IH]. grows_solver.
Qed.

(** No action touches the rows. *)
Lemma begin_grows a s : grows s (begin t a s).
Proof.
  destruct a; simpl; try grows_solver; try (apply grows_await; grows_solver); try apply grows_searchAt.
  - destruct (timers s !! i) as [x|]; [|by split].
    apply (grows_trans _ (setTimers (delete i (timers s)) s)); [grows_solver|].
    destruct x; simpl; [destruct s; split; [done|set_solver]|apply grows_searchAt].
  - eapply grows_trans; [|apply grows_setVendorKey]. eapply grows_trans; [|apply grows_loadModels]. grows_solver.
  - unfold handleConfirmDelete. eapply grows_trans; [apply grows_batch|]. destruct (batchDeleteModels t s). split; [done|set_solver].
  - unfold handleCopyNames. case_decide; [by split|]. apply grows_await. grows_solver.
Qed.

(** After an answered load the rows agree. *)
Lemma loaded_agrees w d p e r o s : served_page d r o → agrees w d (model_view <$> models (loaded t p e r s)).
Proof.
  intros Hr. destruct r as [x|m|y]; [by destruct s; constructor..|]. destruct Hr as [_ Hr].
  destruct y as [|l|l pg tot [c|]]; destruct s; simpl in *; try constructor; by apply kept_agrees.
Qed.

(** A request that fails leaves the rows. *)
Lemma models_inv_lost w ids d d' s : changed_at ids d d' → models_inv w d s → models_inv (doubted (Lost ids) w) d' s.
Proof. intros Hc [H|H]; [left; by eapply agrees_lost|by right]. Qed.

Lemma inv_manageDone w d d' a id c again r o s : models_inv w d s →
  match r with
  | Served _ => o = Known ∧ d' = match a with Delete => delete id d | _ => alter (λ _, new_status a) id d end
  | _ => o = Lost (eq id) ∧ changed_at (eq id) d d'
  end → models_inv (doubted o w) d' (manageDone t a id c again r s).
Proof.
  intros H Hd. destruct r as [e|m|u]; destruct Hd as [-> Hd]; simpl manageDone; [by eapply models_inv_lost| |].
  - eapply inv_grows; [by eapply models_inv_lost|]. unfold manageEnded. destruct again; [|grows_solver].
    eapply grows_trans; [|apply grows_refreshAt]. grows_solver.
  - assert (agrees w (alter (λ _, new_status a) id d) (model_view <$> (with_status id (new_status a) <$> models s)) ∨
            ∃ k, k ∈ tasks s ∧ reloads k = true) as Hs.
    { destruct H as [H|H]; [left|by right]. pose proof (agrees_alter w d (λ _, new_status a) (λ _, new_status a) id _ H) as Ha.
      rewrite <-!list_fmap_compose in *. erewrite list_fmap_ext; [apply Ha; done|]. intros i y _. simpl.
      unfold with_status, model_view. by case_decide. }
    destruct a; [eapply inv_reload; [|apply in_loadModels]; done|..].
    all: subst d'; unfold manageEnded; destruct again; [eapply inv_reload; [|apply in_loadModels]; done|].
    all: destruct s; destruct Hs as [?|?]; [by left|by right].
Qed.

Lemma inv_batchDone w d d' sel c r s : models_inv w d s → d' ⊆ d → models_inv w d' (batchDone t sel c r s).
Proof.
  intros H Hd. assert (models_inv w d' s) as H'.
  { destruct H as [H|H]; [left; by eapply agrees_sub|by right]. }
  destruct r as [l|]; simpl; [|eapply inv_grows; [exact H'|grows_solver]].
  case_decide; [eapply inv_grows; [exact H'|apply grows_emits]|].
  eapply inv_reload; [|apply in_loadModels]. done.
Qed.

(** The answers that do not come from the data. *)
Lemma grows_other k s s' d d' o : answers t d k s d' o s' →
  match k with TVendors _ | TPreview _ _ | TDeleteVendor _ _ | TCopy _ _ => True | _ => False end →
  d' = d ∧ o = Known ∧ ∃ s0, models s0 = models s ∧ tasks s0 = tasks s ∧ grows s0 s'.
Proof.
  destruct k; simpl; try done; intros (-> & -> & r & ->) _; (split; [done|]); (split; [done|]).
  - exists (match r with Served (Some l) => setVendors l s | _ => s end). unfold vendorsDone.
    split_and!; [by destruct r as [| |[]], s..|]. destruct k; [apply grows_refreshAt|by split].
  - exists s. split_and!; [done..|]. unfold previewDone. destruct r as [e|m|[|x l]];
      try (eapply grows_trans; [|apply grows_await; by destruct (setPreviewing _ _)]); try grows_solver.
    all: apply grows_await; grows_solver.
  - exists s. split_and!; [done..|]. unfold deleteVendorDone. destruct r as [e|m|u]; [grows_solver..|].
    case_decide.
    + eapply grows_trans; [|apply grows_setVendorKey]. eapply grows_trans; [|apply grows_loadVendors].
      eapply grows_trans; [|apply grows_loadModels]. grows_solver.
    + eapply grows_trans; [|apply grows_loadVendors]. eapply grows_trans; [|apply grows_refreshAt]. grows_solver.
  - exists s. split_and!; [done..|]. destruct r; grows_solver.
Qed.

Lemma inv_other w d k s d' o s' : answers t d k s d' o s' →
  match k with TVendors _ | TPreview _ _ | TDeleteVendor _ _ | TCopy _ _ => True | _ => False end →
  models_inv w d s → models_inv (doubted o w) d' s'.
Proof.
  intros Ha Hk H. destruct (grows_other _ _ _ _ _ _ Ha Hk) as (-> & -> & s0 & Hm & Ht & Hg).
  eapply inv_grows; [|exact Hg]. unfold models_inv. simpl. by rewrite Hm, Ht.
Qed.

Lemma inv_syncDone w d d' overwrite c r s : models_inv w d s →
  models_inv (doubted match r with Served _ => Known | _ => Lost (λ _, True) end w) d' (syncDone t overwrite c r s).
Proof.
  intros H. assert (models_inv (doubted (Lost (λ _, True)) w) d' s) as H'
    by (apply (models_inv_lost w _ d); [by intros i []|done]).
  destruct r as [e|m|[[[x y] z] v]]; cbn [syncDone].
  - eapply inv_grows; [exact H'|grows_solver].
  - eapply inv_grows; [exact H'|grows_solver].
  - eapply inv_reload; [|apply in_await]. done.
Qed.

Lemma inv_answer w d k s d' o s' : answers t d k s d' o s' → models_inv w d s ∨ reloads k = true →
  models_inv (doubted o w) d' s'.
Proof.
  intros Ha H. destruct k; simpl in H.
  - destruct k as [c|]; [|destruct H as [H|H]; [|done]; by eapply inv_other].
    destruct Ha as (-> & _ & r & ->). eapply inv_reload; [|apply in_loadModels]. done.
  - destruct Ha as (-> & r & -> & Hp). apply (inv_grows _ d (setLoading false (loaded t page "获取模型列表失败" r s)));
      [|apply grows_ended]. left. pose proof (loaded_agrees (doubted o w) d page "获取模型列表失败" r o s Hp) as Hl.
    by destruct (loaded _ _ _ _ _).
  - destruct Ha as (-> & r & -> & Hp). left. pose proof (loaded_agrees (doubted o w) d 1 "搜索模型失败" r o s Hp) as Hl.
    unfold searchDone. by destruct (loaded _ _ _ _ _).
  - destruct Ha as (r & -> & Hd). destruct H as [H|H]; [|done]. by eapply inv_manageDone.
  - destruct Ha as (r & -> & ->). destruct H as [H|H]; [|done]. by eapply inv_syncDone.
  - destruct H as [H|H]; [|done]. by eapply inv_other.
  - destruct Ha as (-> & r & -> & Hd). destruct H as [H|H]; [|done]. by eapply inv_batchDone.
  - destruct H as [H|H]; [|done]. by eapply inv_other.
  - destruct H as [H|H]; [|done]. by eapply inv_other.
Qed.

#[export] Instance models_laws : @ServedTableLaws table task action Z (models_table t).
Proof.
  refine {| inv := models_inv |}.
  - intros w d s [H|(k & Hk & Hr)] Hw; [done|]. rewrite Forall_forall in Hw. apply Hw in Hk. by destruct k as [[]| | | | | | | |].
  - intros a w d s H _. eapply inv_grows; [exact H|apply begin_grows].
  - intros l1 k l2 w d s d' o s' H Ht Ha. simpl in *. eapply inv_answer; [exact Ha|].
    destruct H as [H|(k' & Hk & Hr)]; [left; left; by destruct s|]. rewrite Ht in Hk.
    destruct (decide (reloads k = true)); [by right|]. left. right. exists k'. split; [|done].
    assert (k' ≠ k) by congruence. destruct s. simpl. set_solver.
Defined.
End laws.

(** ** Sessions *)

Lemma models_mount_inv w d : models_inv w d mount.
Proof. left. constructor. Qed.

(** A page change drops the search. *)
Lemma page_drops_search :
  last (effects (handlePageChange 2 (setForm (Form "gpt" "") mount))) = Some (Get "/api/models/?p=2&page_size=10").
Proof. reflexivity. Qed.

(** A preview that failed is followed by the sync. *)
Lemma failed_preview_syncs (t : string → string) (c : ctx) :
  last (effects (previewDone t "zh" c (Rejected "Network Error") (handleSyncUpstream "zh" mount))) =
    Some (PostSync "zh" None).
Proof. reflexivity. Qed.

(** A tab loads its page twice. *)
Lemma tab_loads_twice :
  drop 2 (effects (handleTabChange "7" mount)) =
    [Get "/api/models/search?vendor=7&p=1&page_size=10"; Get "/api/models/search?vendor=7&p=1&page_size=10"].
Proof. reflexivity. Qed.

(** Clicking rows selects an id at most once. *)
Lemma toggleRow_once m s : NoDup (m_id <$> selectedKeys s) → NoDup (m_id <$> selectedKeys (toggleRow m s)).
Proof.
  intros H. assert (selectedKeys (toggleRow m s) = if decide (Exists (λ x, m_id x = m_id m) (selectedKeys s))
    then filter (λ x, m_id x ≠ m_id m) (selectedKeys s) else selectedKeys s ++ [m]) as -> by (by destruct s).
  case_decide as Hc.
  - eapply sublist_NoDup; [exact H|]. apply fmap_sublist, sublist_filter.
  - rewrite fmap_app. apply NoDup_app. split_and!; [done| |apply NoDup_singleton]. intros x Hx Hm.
    apply list_elem_of_singleton in Hm. subst x. apply Hc, Exists_exists. apply list_elem_of_fmap in Hx as (y & Hy & Hin). eauto.
Qed.
