(* ===== verification/AdminTables.v ===== *)
(** * The tables of an administrator over the service

    The users, redemption codes and models tables keep the laws of
    [TableService]; here is what follows for their sessions. *)
From stdpp Require Import relations.
From S2P Require Import Prelude JsString JsNumber JsValue TableService Users Redemptions ModelsTable.

(** A table is faithful when no session of it, from its first render, ends with
    rows that contradict the service, other than rows in doubt. *)
Definition faithful {T K A V} (tb : ServedTable T K A V) (mount : T) : Prop :=
  ∀ d d' doubt s, session tb mount d d' doubt s → at_rest tb s → agrees doubt d' (rows_shown tb s).

(** C8.  What the tables of users, redemption codes and models show is not at
    odds with the service, when nothing is started while an answer about the
    rows is awaited: then no row has a status (for users also a role, or a
    deletion) other than the service keeps for its id, unless the id is in
    doubt.  A change that failed, which may have been made all the same, puts
    the id it is about in doubt, and a failed sync of the models all ids; the
    next page that is served ends every doubt.  Assumed of the service: nobody
    else changes the rows meanwhile, a page shows what it keeps, an accepted
    change is made as answered, and a failed change has no effect after its
    failure has arrived. *)
Theorem tables_agree (t : string → string) :
  faithful (users_table t) Users.mount ∧ faithful (redemptions_table t) Redemptions.mount ∧
  faithful (models_table t) ModelsTable.mount.
Proof.
  split_and!; intros d d' doubt s Hs Hr.
  - exact (@session_agrees _ _ _ _ _ (users_laws t) _ _ d d' Users.mount s (Users.users_mount_inv _ d) Hs Hr).
  - exact (@session_agrees _ _ _ _ _ (redemptions_laws t) _ _ d d' Redemptions.mount s (Redemptions.codes_mount_inv _ d) Hs Hr).
  - exact (@session_agrees _ _ _ _ _ (models_laws t) _ _ d d' ModelsTable.mount s (ModelsTable.models_mount_inv _ d) Hs Hr).
Qed.

(** A session: the first page is served, then a user is demoted; nothing is in
    doubt. *)
Lemma tables_agree_witness :
  let d : gmap Z uview := {[7%Z := UView 1 1 false]} in
  ∃ d' s, session (users_table (λ x, x)) Users.mount d d' (λ _, False) s ∧ 
    agrees (λ _, False) d' (rows_shown (users_table (λ x, x)) s) ∧
    rows_shown (users_table (λ x, x)) s = [(7%Z, UView 2 1 false)].
Proof.
  intros d.
  pose (s1 := Users.loadDone CatchShow (Served (sample_page 1 [7%Z])) (Users.setTasks [TGroups] Users.mount)).
  pose (s2 := Users.begin (AConfirm DDemote) (Users.begin (AShow DDemote (sample_user 7)) s1)).
  pose (k := Users.TManage 7 "demote" [sample_user 7] Users.Plain).
  pose (s3 := Users.manageDone (λ x, x) 7 "demote" [sample_user 7] Users.Plain (Served (2, 1)%Z)
                (Users.setTasks [TGroups; TAudit] s2)).
  pose (d' := alter (λ v, UView 2 1 (uv_deleted v)) 7%Z d).
  exists d', s3. assert (session (users_table (λ x, x)) Users.mount d d' (λ _, False) s3) as H.
  { unfold session. eapply rtc_l.
    { eapply (step_answer [] (Users.TLoad CatchShow) [TGroups] d (λ _, False) Users.mount d Fresh s1); [reflexivity|].
      split; [reflexivity|]. eexists. split; [reflexivity|]. split; [reflexivity|]. repeat constructor. }
    eapply rtc_l. { apply (step_begin (AShow DDemote (sample_user 7)) d (λ _, False) s1). vm_compute. repeat constructor. }
    eapply rtc_l. { apply (step_begin (AConfirm DDemote) d (λ _, False) (Users.begin (AShow DDemote (sample_user 7)) s1)). vm_compute. repeat constructor. }
    eapply rtc_l; [|apply rtc_refl].
    eapply (step_answer [TGroups; TAudit] k [] d (λ _, False) s2 d' Known s3); [reflexivity|].
    exists (Served (2, 1)%Z). split; [reflexivity|]. split; reflexivity. }
  split; [exact H|]. split; [|reflexivity].
  apply (proj1 (tables_agree (λ x, x)) d d' (λ _, False) s3 H). vm_compute. repeat constructor.
Defined.
