(* ===== verification/ChannelAffinity.v ===== *)
(** * The page of channel affinity rules

    [web/src/pages/Setting/Operation/SettingsChannelAffinity.jsx] with
    [web/src/constants/channel-affinity-template.constants.js] and
    [web/src/helpers/boolean.js].  The rules are kept twice, as a list for the
    table and as the text of an option; effects keep them together.  A handler
    is followed by [settle], the effects of the render after it. *)
From Stdlib Require Import Ascii SpecFloat.
From stdpp Require Import relations.
From S2P Require Import Prelude JsString JsNumber JsValue Json JsonRoundtrip JsonKeys ExactIntegers FormCompat SettingsPages ParamOverrideTemplates.

(** ** Helpers *)

Definition KEY_ENABLED : string := "channel_affinity_setting.enabled".
Definition KEY_SWITCH_ON_SUCCESS : string := "channel_affinity_setting.switch_on_success".
Definition KEY_MAX_ENTRIES : string := "channel_affinity_setting.max_entries".
Definition KEY_DEFAULT_TTL : string := "channel_affinity_setting.default_ttl_seconds".
Definition KEY_RULES : string := "channel_affinity_setting.rules".

Definition toBoolean (v : jsval) : bool :=
  match v with
  | VBool b => b
  | VNum n => num_eqb n (num_of_Z 1)
  | VStr s => bool_decide (to_lower s ∈ ["true"; "1"])
  | _ => false
  end.

Definition normalizeStringList (text : string) : list string :=
  filter (λ s, s ≠ "") (trim <$> split_on NL text).

(** [s || d] of a text. *)
Definition or_text (s d : string) : string := if decide (s = "") then d else s.

(** [(v || '').trim()]. *)
Definition trimmed (v : jsval) : res string :=
  if truthy v then match v with VStr s => Ok (trim s) | _ => Throw "trim is not a function" end else Ok "".

Definition index_num (i : nat) : jsval := VNum (num_of_Z (Z.of_nat i)).

(** [{ id: index, ...(rule || {}) }]. *)
Definition numbered (i : nat) (rule : jsval) : jsval :=
  VObj (obj_spread [("id", index_num i)] (if truthy rule then spread_props rule else [])).

Definition parseRulesJson (text : string) : list jsval :=
  match json_parse (or_text text "[]") with Some (VArr l) => imap numbered l | _ => [] end.

(** [const { id, ...rest } = r || {}]. *)
Definition without_id (r : jsval) : jsval := VObj (obj_delete "id" (if truthy r then spread_props r else [])).

Definition rulesToJson (rules : list jsval) : string := stringify2 (VArr (without_id <$> rules)).

Definition key_source (type key path : string) : jsval :=
  VObj [("type", VStr type); ("key", VStr key); ("path", VStr path)].

Definition normalizeKeySource (src : jsval) : res jsval :=
  type ← trimmed (prop_opt src "type");
  key ← trimmed (prop_opt src "key");
  path ← trimmed (prop_opt src "path");
  Ok (if decide (type = "gjson") then key_source type "" path else key_source type key "").

(** [now]: [Date.now()] as text. *)
Definition makeUniqueName (now : string) (existingNames : list string) (baseName : string) : string :=
  let base := or_text (trim baseName) "rule" in
  if decide (base ∈ existingNames) then
    match list_find (λ n, n ∉ existingNames) ((λ i, base +:+ "-" +:+ pretty i) <$> seq 2 998) with
    | Some (_, n) => n
    | None => base +:+ "-" +:+ now
    end
  else base.

(** A message, or the parsed array. *)
Definition tryParseRulesJsonArray (text : string) : string + list jsval :=
  match json_parse (or_text text "[]") with
  | Some (VArr l) => inr l
  | Some _ => inl "Rules JSON must be an array"
  | None => inl "Rules JSON is invalid"
  end.

Definition parseOptionalObjectJson (text label : string) : string + option obj :=
  let raw := trim text in
  if decide (raw = "") then inr None
  else match json_parse raw with
       | None => inl (label +:+ " JSON 格式不正确")
       | Some (VObj o) => inr (Some o)
       | Some _ => inl (label +:+ " 必须是 JSON 对象")
       end.

(** [(v || []).join('\n')]. *)
Definition join_lines (v : jsval) : res string :=
  match js_or v (VArr []) with
  | VArr l => ss ← res_map (λ x, match x with VNull | VUndef => Ok "" | _ => to_str x end) l; Ok (join (String NL "") ss)
  | _ => Throw "join is not a function"
  end.

(** [v ?? d]. *)
Definition nullish (v d : jsval) : jsval := match v with VNull | VUndef => d | _ => v end.

Definition number_of_value (v : jsval) : res jsval := n ← to_num (js_or v (VNum (num_of_Z 0))); Ok (VNum n).

(** The values of the form of the dialog. *)
Definition buildModalFormValues (r : jsval) : res obj :=
  models ← join_lines (prop_opt r "model_regex");
  paths ← join_lines (prop_opt r "path_regex");
  agents ← join_lines (prop_opt r "user_agent_include");
  ttl ← number_of_value (prop_opt r "ttl_seconds");
  Ok [("name", js_or (prop_opt r "name") (VStr "")); ("model_regex_text", VStr models); ("path_regex_text", VStr paths);
      ("user_agent_include_text", VStr agents); ("value_regex", js_or (prop_opt r "value_regex") (VStr ""));
      ("ttl_seconds", ttl); ("skip_retry_on_failure", VBool (truthy (prop_opt r "skip_retry_on_failure")));
      ("include_using_group", nullish (prop_opt r "include_using_group") (VBool true));
      ("include_rule_name", nullish (prop_opt r "include_rule_name") (VBool true));
      ("param_override_template_json",
        if truthy (prop_opt r "param_override_template") then VStr (stringify2 (prop_opt r "param_override_template"))
        else VStr "")].

(** *** Key sources *)

Definition source_type (s : jsval) : string := match prop_opt s "type" with VStr x => x | _ => "" end.
Definition source_key (s : jsval) : string := match prop_opt s "key" with VStr x => x | _ => "" end.
Definition source_path (s : jsval) : string := match prop_opt s "path" with VStr x => x | _ => "" end.

(** The first complaint about a list of normalised sources. *)
Fixpoint sources_error (xs : list jsval) : option string :=
  match xs with
  | [] => None
  | x :: xs =>
      if decide (source_type x ∈ ["context_int"; "context_string"]) then
        if decide (source_key x = "") then Some "Key 不能为空" else sources_error xs
      else if decide (source_type x = "gjson") then
        if decide (source_path x = "") then Some "Path 不能为空" else sources_error xs
      else Some "Key 来源类型不合法"
  end.

Definition as_list (v : jsval) : res (list jsval) :=
  match js_or v (VArr []) with VArr l => Ok l | _ => Throw "map is not a function" end.

Definition validateKeySources (keySources : jsval) : res (string + list jsval) :=
  l ← as_list keySources;
  ns ← res_map normalizeKeySource l;
  let xs := filter (λ x, source_type x ≠ "") ns in
  Ok (match xs with
      | [] => inl "Key 来源不能为空"
      | _ => match sources_error xs with Some m => inl m | None => inr xs end
      end).

(** *** The rule of the dialog *)

(** [normalizeStringList] of a form value. *)
Definition lines_of (v : jsval) : res (list string) :=
  if truthy v then match v with VStr s => Ok (normalizeStringList s) | _ => Throw "split is not a function" end else Ok [].

Definition texts_value (l : list string) : jsval := VArr (VStr <$> l).

(** The payload without its id, or a message; [draft] is the text of the
    template. *)
Definition rule_payload (values : obj) (key_sources : jsval) (draft : string) : res (string + obj) :=
  modelRegex ← lines_of (get values "model_regex_text");
  if decide (modelRegex = []) then Ok (inl "模型正则不能为空") else
  sources ← validateKeySources key_sources;
  match sources with
  | inl m => Ok (inl m)
  | inr sources =>
      agents ← lines_of (get values "user_agent_include_text");
      match parseOptionalObjectJson draft "参数覆盖模板" with
      | inl m => Ok (inl m)
      | inr template =>
          name ← trimmed (get values "name");
          paths ← lines_of (get values "path_regex_text");
          regex ← trimmed (get values "value_regex");
          ttl ← number_of_value (get values "ttl_seconds");
          let rule :=
            [("name", VStr name); ("model_regex", texts_value modelRegex); ("path_regex", texts_value paths);
             ("key_sources", VArr sources); ("value_regex", VStr regex); ("ttl_seconds", ttl);
             ("include_using_group", VBool (truthy (get values "include_using_group")));
             ("include_rule_name", VBool (truthy (get values "include_rule_name")))]
            ++ (if truthy (get values "skip_retry_on_failure") then [("skip_retry_on_failure", VBool true)] else [])
            ++ (match agents with [] => [] | _ => [("user_agent_include", texts_value agents)] end)
            ++ (match template with Some o => [("param_override_template", VObj o)] | None => [] end) in
          Ok (if decide (name = "") then inl "名称不能为空" else inr rule)
      end
  end.

(** *** Templates *)

Definition rule_template (name regex path source : string) (headers : list string) : obj :=
  [("name", VStr name); ("model_regex", texts_value [regex]); ("path_regex", texts_value [path]);
   ("key_sources", VArr [VObj [("type", VStr "gjson"); ("path", VStr source)]]);
   ("param_override_template", VObj [("operations", VArr (buildPassHeadersTemplate headers))]); ("value_regex", VStr ""); ("ttl_seconds", index_num 0);
   ("skip_retry_on_failure", VBool false); ("include_using_group", VBool true); ("include_rule_name", VBool true)].

Definition codexCli : obj :=
  rule_template "codex cli trace" "^gpt-.*$" "/v1/responses" "prompt_cache_key" CODEX_CLI_HEADER_PASSTHROUGH_HEADERS.
Definition claudeCli : obj :=
  rule_template "claude cli trace" "^claude-.*$" "/v1/messages" "metadata.user_id" CLAUDE_CLI_HEADER_PASSTHROUGH_HEADERS.

(** The names in use. *)
Definition rule_names (rules : list jsval) : res (list string) :=
  ns ← res_map (λ r, trimmed (prop_opt r "name")) rules; Ok (filter (λ x, x ≠ "") ns).

(** Both templates, each under a name that is not in use. *)
Definition new_templates (now : string) (names : list string) : list obj :=
  let n1 := makeUniqueName now names "codex cli trace" in
  let n2 := makeUniqueName now (n1 :: names) "claude cli trace" in
  [obj_define "name" (VStr n1) codexCli; obj_define "name" (VStr n2) claudeCli].

(** [rules.map((r, idx) => ({ ...r, id: idx }))]. *)
Definition renumber (rules : list jsval) : list jsval :=
  imap (λ i r, VObj (obj_define "id" (index_num i) (if truthy r then spread_props r else []))) rules.

(** ** The page *)

Inductive mode := Visual | JsonMode.
#[export] Instance mode_eq_dec : EqDecision mode.
Proof. solve_decision. Defined.

Inductive effect :=
| Put (key : string) (value : jsval) | GetStats | ClearCache (rule_name : option string) | Ask (text : string)
| Warning (text : string) | Error (text : string) | Success (text : string) | Preview (text : string) | Refresh.

(** Open questions: the rules that templates are appended to, or the cache to
    clear. *)
Inductive question := QAppend (rules : list jsval) | QClear (rule_name : option string).
Inductive task := TStats | TClear | TSave (n : nat).

(** [fieldText] is the text of the form, [modalValues] are those of the form of
    the dialog. *)
Record page := Page {
  inputs : obj; inputsRow : obj; fieldText : jsval; editMode : mode; rules : list jsval;
  modalVisible : bool; editingRule : jsval; isEdit : bool; modalValues : obj;
  paramTemplateDraft : string; paramTemplateEditorVisible : bool;
  cacheStats : jsval; cacheLoading : bool; loading : bool;
  questions : list question; tasks : list task; effects : list effect }.

Definition setInputs (x : obj) (s : page) : page :=
  let '(Page _ b c d e f g h i j k l m n o p q) := s in Page x b c d e f g h i j k l m n o p q.
Definition setInputsRow (x : obj) (s : page) : page :=
  let '(Page a _ c d e f g h i j k l m n o p q) := s in Page a x c d e f g h i j k l m n o p q.
Definition setFieldText (x : jsval) (s : page) : page :=
  let '(Page a b _ d e f g h i j k l m n o p q) := s in Page a b x d e f g h i j k l m n o p q.
Definition setEditMode (x : mode) (s : page) : page :=
  let '(Page a b c _ e f g h i j k l m n o p q) := s in Page a b c x e f g h i j k l m n o p q.
Definition setRules (x : list jsval) (s : page) : page :=
  let '(Page a b c d _ f g h i j k l m n o p q) := s in Page a b c d x f g h i j k l m n o p q.
Definition setModal (visible : bool) (rule : jsval) (edit : bool) (values : obj) (draft : string) (s : page) : page :=
  let '(Page a b c d e _ _ _ _ _ _ l m n o p q) := s in Page a b c d e visible rule edit values draft false l m n o p q.
Definition setEditingRule (x : jsval) (s : page) : page :=
  let '(Page a b c d e f _ h i j k l m n o p q) := s in Page a b c d e f x h i j k l m n o p q.
Definition setModalValues (x : obj) (s : page) : page :=
  let '(Page a b c d e f g h _ j k l m n o p q) := s in Page a b c d e f g h x j k l m n o p q.
Definition setDraft (x : string) (s : page) : page :=
  let '(Page a b c d e f g h i _ k l m n o p q) := s in Page a b c d e f g h i x k l m n o p q.
Definition setEditorVisible (x : bool) (s : page) : page :=
  let '(Page a b c d e f g h i j _ l m n o p q) := s in Page a b c d e f g h i j x l m n o p q.
Definition setCacheStats (x : jsval) (s : page) : page :=
  let '(Page a b c d e f g h i j k _ m n o p q) := s in Page a b c d e f g h i j k x m n o p q.
Definition setCacheLoading (x : bool) (s : page) : page :=
  let '(Page a b c d e f g h i j k l _ n o p q) := s in Page a b c d e f g h i j k l x n o p q.
Definition setLoading (x : bool) (s : page) : page :=
  let '(Page a b c d e f g h i j k l m _ o p q) := s in Page a b c d e f g h i j k l m x o p q.
Definition setQuestions (x : list question) (s : page) : page :=
  let '(Page a b c d e f g h i j k l m n _ p q) := s in Page a b c d e f g h i j k l m n x p q.
Definition setTasks (x : list task) (s : page) : page :=
  let '(Page a b c d e f g h i j k l m n o _ q) := s in Page a b c d e f g h i j k l m n o x q.
Definition emit (x : effect) (s : page) : page :=
  let '(Page a b c d e f g h i j k l m n o p q) := s in Page a b c d e f g h i j k l m n o p (q ++ [x]).
Definition await (k : task) (s : page) : page := setTasks (tasks s ++ [k]) s.

Definition default_inputs : obj :=
  [(KEY_ENABLED, VBool false); (KEY_SWITCH_ON_SUCCESS, VBool true); (KEY_MAX_ENTRIES, VNum (num_of_Z 100000));
   (KEY_DEFAULT_TTL, VNum (num_of_Z 3600)); (KEY_RULES, VStr "[]")].

Definition no_stats : jsval :=
  VObj [("enabled", VBool false); ("total", index_num 0); ("unknown", index_num 0); ("by_rule_name", VObj []);
        ("cache_capacity", index_num 0); ("cache_algo", VStr "")].

Definition initial : page :=
  Page default_inputs default_inputs VUndef Visual [] false VNull false [] "" false no_stats false false [] [] [].

(** [inputs[KEY_RULES] || '[]']; the option is a text. *)
Definition text_value (v : jsval) : string := match v with VStr x => or_text x "[]" | _ => "[]" end.
Definition rules_text (s : page) : string := text_value (get (inputs s) KEY_RULES).

(** The effects after a render: on entering the JSON mode the form is seeded,
    and in the visual mode the list follows the text. *)
Definition settle (before s : page) : page :=
  let mode_changed := bool_decide (editMode before ≠ editMode s) in
  let text_changed := negb (js_same (get (inputs before) KEY_RULES) (get (inputs s) KEY_RULES)) in
  match editMode s with
  | JsonMode => if mode_changed then setFieldText (VStr (rules_text s)) s else s
  | Visual => if mode_changed || text_changed then setRules (parseRulesJson (rules_text s)) s else s
  end.

Section page.
Variable t : string → string.
(** [Date.now()] as text. *)
Variable now : string.

(** *** Loading *)

Definition converted (key : string) (v : jsval) : res jsval :=
  if decide (key ∈ [KEY_ENABLED; KEY_SWITCH_ON_SUCCESS]) then Ok (VBool (toBoolean v))
  else if decide (key ∈ [KEY_MAX_ENTRIES; KEY_DEFAULT_TTL]) then
    n ← to_num (js_or v (VNum (num_of_Z 0))); Ok (js_or (VNum n) (VNum (num_of_Z 0)))
  else match json_parse (text_value v) with Some w => Ok (VStr (stringify2 w)) | None => Ok (VStr (text_value v)) end.

Definition copied_inputs (current options : obj) : obj :=
  foldl (λ o kv, if decide (kv.1 ∈ obj_keys default_inputs)
                 then match converted kv.1 kv.2 with Ok v => obj_define kv.1 v o | Throw _ => o end
                 else o) current options.

Definition refreshCacheStats (s : page) : page := await TStats (emit GetStats (setCacheLoading true s)).

(** The effect on [props.options]. *)
Definition loadOptions (options : obj) (s : page) : page :=
  let current := copied_inputs (inputs s) options in
  let s := setFieldText (get current KEY_RULES) (setInputsRow current (setInputs current s)) in
  refreshCacheStats (setRules (parseRulesJson (rules_text s)) s).

Inductive reply := Rejected | Refused (message : string) | Served (data : jsval).

Definition statsDone (r : reply) (s : page) : page :=
  setCacheLoading false
    match r with
    | Rejected => emit (Error (t "刷新缓存统计失败")) s
    | Refused m => emit (Error (t m)) s
    | Served d => setCacheStats (js_or d (VObj [])) s
    end.

(** *** The cache *)

Definition confirmClearAllCache (s : page) : page :=
  setQuestions (questions s ++ [QClear None]) (emit (Ask (t "确认清空全部渠道亲和性缓存")) s).

(** A name that is no text throws. *)
Definition confirmClearRuleCache (rule : jsval) (s : page) : page :=
  match trimmed (prop_opt rule "name") with
  | Ok name =>
      if decide (name = "") then s
      else if truthy (prop_opt rule "include_rule_name")
      then setQuestions (questions s ++ [QClear (Some name)]) (emit (Ask (t "确认清空该规则缓存")) s)
      else emit (Warning (t "该规则未启用“作用域：包含规则名称”，无法按规则清空缓存。")) s
  | Throw _ => s
  end.

Definition clearDone (r : reply) (s : page) : page :=
  match r with
  | Rejected => s
  | Refused m => emit (Error (t m)) s
  | Served _ => refreshCacheStats (emit (Success (t "已清空")) s)
  end.

(** *** Modes *)

Definition setText (x : string) (s : page) : page := setInputs (obj_define KEY_RULES (VStr x) (inputs s)) s.

Definition switchToJsonMode (s : page) : page := setEditMode JsonMode (setText (rulesToJson (rules s)) s).

Definition switchToVisualMode (s : page) : page :=
  match tryParseRulesJsonArray (rules_text s) with
  | inl m => emit (Error (t m)) s
  | inr _ => setEditMode Visual s
  end.

(** Typing into the text of the JSON mode. *)
Definition typeJson (x : string) (s : page) : page := setText x (setFieldText (VStr x) s).

Definition updateRulesState (next : list jsval) (s : page) : page :=
  let x := rulesToJson next in
  let s' := setText x (setRules next s) in
  match editMode s with JsonMode => setFieldText (VStr x) s' | Visual => s' end.

(** *** Templates *)

(** [doAppend] with the rules of its render; names that are no texts throw. *)
Definition doAppend (rs : list jsval) (s : page) : page :=
  match rule_names rs with
  | Ok names =>
      emit (Success (t "已填充模版"))
        (updateRulesState (renumber (rs ++ (VObj <$> new_templates now names))) s)
  | Throw _ => s
  end.

Definition appendCodexAndClaudeCodeTemplates (s : page) : page :=
  match rules s with
  | [] => doAppend [] s
  | rs => setQuestions (questions s ++ [QAppend rs]) (emit (Ask (t "填充 Codex CLI / Claude CLI 模版")) s)
  end.

Definition onOk (q : question) (s : page) : page :=
  match q with
  | QAppend rs => doAppend rs s
  | QClear name => await TClear (emit (ClearCache name) s)
  end.

(** *** The dialog *)

Definition new_rule : jsval :=
  VObj [("name", VStr ""); ("model_regex", VArr []); ("path_regex", VArr []); ("user_agent_include", VArr []);
        ("key_sources", VArr [VObj [("type", VStr "gjson"); ("path", VStr "")]]); ("value_regex", VStr "");
        ("ttl_seconds", index_num 0); ("skip_retry_on_failure", VBool false); ("include_using_group", VBool true);
        ("include_rule_name", VBool true)].

(** Opens the dialog; the state is set before the values are built, so a rule
    they cannot be built from leaves the dialog as it was shown. *)
Definition openModal (rule : jsval) (edit : bool) (s : page) : page :=
  match buildModalFormValues rule with
  | Ok values =>
      let draft := match get values "param_override_template_json" with VStr x => x | _ => "" end in
      setModal true rule edit values draft s
  | Throw _ => let '(Page a b c d e f _ _ i j k l m n o p q) := s in Page a b c d e f rule edit i j k l m n o p q
  end.

Definition openAddModal (s : page) : page := openModal new_rule false s.

Definition edited_rule (r : jsval) : res jsval :=
  l ← as_list (prop_opt r "key_sources");
  sources ← res_map normalizeKeySource l;
  let agents := prop_opt r "user_agent_include" in
  Ok (VObj (obj_define "key_sources" (VArr sources)
        (obj_define "user_agent_include" (if is_array agents then agents else VArr []) (spread_props r)))).

Definition handleEditRule (rule : jsval) (s : page) : page :=
  match edited_rule (js_or rule (VObj [])) with Ok r => openModal r true s | Throw _ => s end.

Definition handleDeleteRule (id : jsval) (s : page) : page :=
  emit (Success (t "删除成功"))
    (updateRulesState (renumber (filter (λ r, js_same (prop_opt r "id") id = false) (rules s))) s).

(** The first rule of a name. *)
Fixpoint find_name (name : jsval) (i : nat) (rs : list jsval) : res (option nat) :=
  match rs with
  | [] => Ok None
  | r :: rs =>
      n ← trimmed (prop_opt r "name"); m ← trimmed name;
      if decide (n = m) then Ok (Some i) else find_name name (S i) rs
  end.

(** The index of the edited rule: by its id, otherwise by its name. *)
Definition edited_index (rule : jsval) (rs : list jsval) : res (option nat) :=
  match list_find (λ r, js_same (prop_opt r "id") (prop_opt rule "id") = true) rs with
  | Some (i, _) => Ok (Some i)
  | None =>
      if truthy (prop_opt rule "name") then
        find_name (prop_opt rule "name") 0 rs
      else Ok None
  end.

(** The rules after the dialog, or a message; [validate] of the form gives its
    values. *)
Definition saved_rules (s : page) : res (string + list jsval) :=
  p ← rule_payload (modalValues s) (prop_opt (editingRule s) "key_sources") (paramTemplateDraft s);
  match p with
  | inl m => Ok (inl m)
  | inr rule =>
      let id := if isEdit s then prop_opt (editingRule s) "id" else index_num (length (rules s)) in
      let payload := VObj (("id", id) :: rule) in
      if isEdit s then
        i ← edited_index (editingRule s) (rules s);
        Ok (match i with Some i => inr (<[i := payload]> (rules s)) | None => inl "规则未找到，请刷新后重试" end)
      else Ok (inr (rules s ++ [payload]))
  end.

Definition closeModal (s : page) : page := setModal false VNull (isEdit s) [] "" s.

Definition handleModalSave (s : page) : page :=
  match saved_rules s with
  | Throw _ => emit (Error (t "请检查输入")) s
  | Ok (inl m) => emit (Error (t m)) s
  | Ok (inr next) => emit (Success (t "保存成功")) (closeModal (updateRulesState (renumber next) s))
  end.

(** A field of the form of the dialog; the name is reported to the page. *)
Definition typeField (key : string) (v : jsval) (s : page) : page :=
  let s := setModalValues (obj_define key v (modalValues s)) s in
  if decide (key = "name") then setEditingRule (VObj (obj_define "name" v (spread_props (editingRule s)))) s else s.

Definition sources_of (s : page) : list jsval :=
  match prop_opt (editingRule s) "key_sources" with VArr l => l | _ => [] end.
Definition setSources (l : list jsval) (s : page) : page :=
  setEditingRule (VObj (obj_define "key_sources" (VArr l) (spread_props (editingRule s)))) s.

(** [patch] is a type, a key or a path; the index is one of a shown source. *)
Definition updateKeySource (index : nat) (patch : obj) (s : page) : page :=
  match normalizeKeySource (VObj (obj_spread (spread_props (default VUndef (sources_of s !! index))) patch)) with
  | Ok x => setSources (<[index := x]> (sources_of s)) s
  | Throw _ => s
  end.
Definition addKeySource (s : page) : page :=
  setSources (sources_of s ++ [VObj [("type", VStr "gjson"); ("path", VStr "")]]) s.
Definition removeKeySource (index : nat) (s : page) : page := setSources (delete index (sources_of s)) s.

Definition updateParamTemplateDraft (x : string) (s : page) : page :=
  setModalValues (obj_define "param_override_template_json" (VStr x) (modalValues s)) (setDraft x s).

Definition formatParamTemplateDraft (s : page) : page :=
  let raw := trim (paramTemplateDraft s) in
  if decide (raw = "") then s
  else match json_parse raw with
       | Some v => updateParamTemplateDraft (stringify2 v) s
       | None => emit (Error (t "参数覆盖模板 JSON 格式不正确")) s
       end.

(** What is shown of the template: its label and a preview. *)
Definition paramTemplatePreviewMeta (draft : string) : string * string :=
  let raw := trim draft in
  if decide (raw = "") then (t "未设置", t "当前规则未设置参数覆盖模板")
  else match json_parse raw with
       | Some v => (t "已设置", stringify2 v)
       | None => (t "JSON 无效", raw)
       end.

Definition openParamTemplatePreview (rule : jsval) (s : page) : page :=
  let raw := prop_opt rule "param_override_template" in
  if truthy raw && typeof_object raw then emit (Preview (stringify2 raw)) s
  else emit (Warning (t "该规则未设置参数覆盖模板")) s.

(** The editor of [ParamOverrideEditor] gives a text. *)
Definition editorSaved (x : string) (s : page) : page := setEditorVisible false (updateParamTemplateDraft x s).

(** *** Saving *)

Definition sent (s : page) (compactRules : string) (c : change) : effect :=
  Put (c_key c) (VStr (if decide (c_key c = KEY_RULES) then compactRules
                       else text_of (nullish (get (inputs s) (c_key c)) (VStr "")))).

Definition onSubmit (s : page) : page :=
  match compareObjects (inputs s) (inputsRow s) with
  | [] => emit (Warning (t "你似乎并没有修改什么")) s
  | l =>
      match json_parse (rules_text s) with
      | None => emit (Error (t "规则 JSON 格式不正确")) s
      | Some v => setLoading true (await (TSave (length l)) (foldl (λ s e, emit e s) s (sent s (stringify v) <$> l)))
      end
  end.

(** One answer was rejected, or each was [undefined] or not. *)
Definition saved (n : nat) (answers : option (list bool)) (s : page) : page :=
  setLoading false
    match answers with
    | None => emit (Error (t "保存失败，请重试")) s
    | Some l =>
        if decide (false ∈ l) then if decide (n = 1%nat) then s else emit (Error (t "部分保存失败，请重试")) s
        else emit Refresh (emit (Success (t "保存成功")) s)
    end.

(** The TTL shown for rules without one. *)
Definition effectiveDefaultTTLSeconds (s : page) : num :=
  match to_num (js_or (get (inputs s) KEY_DEFAULT_TTL) (VNum (num_of_Z 0))) with
  | Ok n => if num_ltb (num_of_Z 0) n then n else num_of_Z 3600
  | Throw _ => num_of_Z 3600
  end.
End page.

(** ** Sessions *)

(** The controls above the rules. *)
Definition affinity_controls : list (string * control) :=
  [(KEY_ENABLED, SwitchControl); (KEY_MAX_ENTRIES, NumberControl); (KEY_DEFAULT_TTL, NumberControl);
   (KEY_SWITCH_ON_SUCCESS, SwitchControl)].

Inductive action :=
| ALoad (options : obj) | AControl (key : string) (g : gesture) (vs : obj)
| AEnterJson | AEnterVisual | ATypeJson (x : string)
| AAppend | AOk (i : nat) | AAdd | AEdit (i : nat) | ADelete (i : nat) | ASave | ACancel
| AField (key : string) (v : jsval) | ASource (i : nat) (patch : obj) | AAddSource | ARemoveSource (i : nat)
| ADraft (x : string) | AFormat | AOpenEditor | AEditor (x : string) | APreview (i : nat)
| AStats | AClearAll | AClearRule (i : nat) | ASubmit
| AStatsDone (r : reply) | AClearDone (r : reply) | ASaved (n : nat) (answers : option (list bool)).

Section session.
Variable t : string → string.
Variable now : string.

Definition row (i : nat) (s : page) : jsval := default VUndef (rules s !! i).

Definition run (a : action) (s : page) : page :=
  match a with
  | ALoad options => loadOptions options s
  | AControl key g vs =>
      match obj_get affinity_controls key with
      | Some c => foldl (λ s v, setInputs (obj_define key v (inputs s)) s) s (onChanges (outputs c key g vs))
      | None => s
      end
  | AEnterJson => switchToJsonMode s
  | AEnterVisual => switchToVisualMode t s
  | ATypeJson x => match editMode s with JsonMode => typeJson x s | Visual => s end
  | AAppend => appendCodexAndClaudeCodeTemplates t now s
  | AOk i => match questions s !! i with
             | Some q => onOk t now q (setQuestions (delete i (questions s)) s)
             | None => s
             end
  | AAdd => openAddModal s
  | AEdit i => handleEditRule (row i s) s
  | ADelete i => handleDeleteRule t (prop_opt (row i s) "id") s
  | ASave => handleModalSave t s
  | ACancel => closeModal s
  | AField key v => typeField key v s
  | ASource i patch => updateKeySource i patch s
  | AAddSource => addKeySource s
  | ARemoveSource i => removeKeySource i s
  | ADraft x => updateParamTemplateDraft x s
  | AFormat => formatParamTemplateDraft t s
  | AOpenEditor => setEditorVisible true s
  | AEditor x => editorSaved x s
  | APreview i => openParamTemplatePreview t (row i s) s
  | AStats => refreshCacheStats s
  | AClearAll => confirmClearAllCache t s
  | AClearRule i => confirmClearRuleCache t (row i s) s
  | ASubmit => onSubmit t s
  | AStatsDone r => statsDone t r s
  | AClearDone r => clearDone t r s
  | ASaved n answers => saved t n answers s
  end.

Definition act (a : action) (s : page) : page := settle s (run a s).
End session.

(** ** The list of rules behind the page *)

(** A rule as it is stored: kept by JSON, without an id. *)
Definition clean (o : obj) : Prop :=
  json_ok (VObj o) = true ∧ Forall (λ kv, kv.1 ≠ "id" ∧ array_index kv.1 = None) o.

Definition number (L : list obj) : list jsval := imap (λ i o, VObj (("id", index_num i) :: o)) L.

(** In the visual mode the page shows the rules [L], and its text is theirs. *)
Definition represents (L : list obj) (s : page) : Prop :=
  editMode s = Visual ∧ Forall clean L ∧ (Z.of_nat (length L) < 2 ^ 53)%Z ∧ rules s = number L ∧
  ∃ x, obj_get (inputs s) KEY_RULES = Some (VStr x) ∧ json_parse x = Some (VArr (VObj <$> L)).

(** What an action makes of the rules. *)
Definition rules_after (now : string) (a : action) (s : page) (L : list obj) : list obj :=
  match a with
  | ADelete i => delete i L
  | ASave =>
      match rule_payload (modalValues s) (prop_opt (editingRule s) "key_sources") (paramTemplateDraft s) with
      | Ok (inr p) =>
          if isEdit s then match edited_index (editingRule s) (rules s) with Ok (Some i) => <[i := p]> L | _ => L end
          else L ++ [p]
      | _ => L
      end
  | AAppend => match L with [] => new_templates now [] | _ => L end
  | AOk i => match questions s !! i, rule_names (rules s) with
             | Some (QAppend _), Ok names => L ++ new_templates now names
             | _, _ => L
             end
  | _ => L
  end.

(** The actions of the visual mode; the payload of the dialog is kept by JSON,
    and a question whether to append templates is about the rules that are
    shown. *)
Definition visual (a : action) (s : page) : Prop :=
  match a with
  | ALoad _ | AEnterJson | ATypeJson _ => False
  | AOk i => ∀ rs, questions s !! i = Some (QAppend rs) → rs = rules s
  | ADelete i => is_Some (rules s !! i)
  | ASave => ∀ p, rule_payload (modalValues s) (prop_opt (editingRule s) "key_sources") (paramTemplateDraft s) = Ok (inr p) →
      json_ok (VObj p) = true
  | _ => True
  end.

(** Rules with some ids. *)
Definition tagged : list jsval → list obj → Prop := Forall2 (λ r o, ∃ v, r = VObj (("id", v) :: o)).

Lemma tagged_number_from k L : tagged (imap (λ i o, VObj (("id", index_num (k + i)) :: o)) L) L.
Proof.
  revert k. induction L as [|o L IH]; intros k; cbn; constructor; [by eexists|].
  erewrite imap_ext; [apply (IH (S k))|]. intros i x _. cbn. by replace (k + S i)%nat with (S k + i)%nat by lia.
Qed.
Lemma tagged_number L : tagged (number L) L.
Proof. apply (tagged_number_from 0). Qed.

Lemma renumber_tagged rs L : tagged rs L → renumber rs = number L.
Proof.
  intros H. unfold renumber, number. apply list_eq. intros i. rewrite !list_lookup_imap.
  destruct (rs !! i) as [r|] eqn:Hr.
  - destruct (Forall2_lookup_l _ _ _ _ _ H Hr) as (o & Ho & v & ->). by rewrite Ho.
  - apply lookup_ge_None in Hr. rewrite (Forall2_length _ _ _ H) in Hr. apply lookup_ge_None in Hr. by rewrite Hr.
Qed.

Lemma delete_clean (o : obj) : Forall (λ kv, kv.1 ≠ "id" ∧ array_index kv.1 = None) o → obj_delete "id" o = o.
Proof.
  intros H. unfold obj_delete. induction H as [|[k v] o [Hk _] _ IH]; [done|]. by rewrite filter_cons_True, IH.
Qed.

Lemma without_tagged rs L : Forall clean L → tagged rs L → without_id <$> rs = VObj <$> L.
Proof.
  intros Hc H. induction H as [|r o rs L [v ->] _ IH]; [done|]. apply Forall_cons in Hc as [[_ Ho] Hc].
  rewrite !fmap_cons, IH by done. f_equal. unfold without_id. cbn [truthy spread_props own_props]. f_equal.
  rewrite <-(delete_clean o Ho) at 2. unfold obj_delete. rewrite filter_cons_False; [done|]. intros H'. by apply H'.
Qed.

(** Renumbering does not change what is stored. *)
Lemma without_renumber rs : without_id <$> renumber rs = without_id <$> rs.
Proof.
  unfold renumber. apply list_eq. intros i. rewrite !list_lookup_fmap, list_lookup_imap.
  destruct (rs !! i) as [r|]; [|done]. cbn. f_equal. unfold without_id. cbn. f_equal.
  set (o := if truthy r then spread_props r else []). clearbody o. clear r rs.
  unfold obj_define, obj_delete. destruct (obj_get o "id") eqn:E.
  - clear E. induction o as [|[k v] o IH]; [done|]. cbn [obj_replace]. case_decide as Hk.
    + subst k. by rewrite !filter_cons_False by (intros H; by apply H).
    + rewrite !filter_cons. cbn. case_decide; [by rewrite IH|done].
  - assert (array_index "id" = None) as -> by reflexivity.
    rewrite filter_app, filter_cons_False; [by rewrite app_nil_r|]. intros H. by apply H.
Qed.

Lemma clean_spread i o : clean o → obj_spread [("id", index_num i)] o = ("id", index_num i) :: o.
Proof.
  intros [Hj Ho]. rewrite (obj_spread_ok [("id", index_num i)] o); [done|].
  rewrite json_ok_obj in Hj. apply andb_true_iff in Hj as [Hk _]. cbn.
  assert (∀ pre, keys_ok pre (obj_keys o) = true → keys_ok ("id" :: pre) (obj_keys o) = true) as Hg.
  { clear Hk. induction Ho as [|[k v] o [Hi Hn] _ IH]; intros pre; [done|]. cbn.
    intros [Ha Hb]%andb_true_iff. apply andb_true_iff. split; [|by apply IH].
    unfold key_after in *. cbn in *. rewrite Hn, andb_true_r in *. apply bool_decide_eq_true. apply bool_decide_eq_true in Ha.
    set_solver. }
  by apply Hg.
Qed.

Lemma parsed_rules x L : Forall clean L → json_parse x = Some (VArr (VObj <$> L)) → parseRulesJson x = number L.
Proof.
  intros Hc Hp. unfold parseRulesJson, or_text. assert (x ≠ "") as Hx by (by intros ->).
  rewrite decide_False by done. rewrite Hp. unfold number. apply list_eq. intros i.
  rewrite !list_lookup_imap, list_lookup_fmap. destruct (L !! i) as [o|] eqn:Ho; [|done]. cbn [fmap option_fmap option_map].
  rewrite Forall_lookup in Hc. unfold numbered. cbn [truthy spread_props own_props].
  by rewrite (clean_spread i o) by (by eapply Hc).
Qed.

Lemma json_of_rules rs L : Forall clean L → without_id <$> rs = VObj <$> L →
  json_parse (rulesToJson rs) = Some (VArr (VObj <$> L)).
Proof.
  intros Hc Hw. unfold rulesToJson. rewrite Hw. apply json_parse_stringify2. rewrite json_ok_arr.
  apply forallb_forall. intros v Hv%list_elem_of_In. apply list_elem_of_fmap in Hv as (o & -> & Ho).
  rewrite Forall_forall in Hc. by apply Hc.
Qed.

(** New rules in the visual mode. *)
Lemma represents_new L L' s s' next :
  represents L s → editMode s' = Visual → rules s' = next →
  inputs s' = obj_define KEY_RULES (VStr (rulesToJson next)) (inputs s) →
  Forall clean L' → (Z.of_nat (length L') < 2 ^ 53)%Z → without_id <$> next = VObj <$> L' →
  (L' = L → next = number L') → represents L' (settle s s').
Proof.
  intros (Hm & Hc & Hn & Hr & x & Hx & Hp) Hm' Hr' Hi Hc' Hn' Hw Hsame.
  pose proof (json_of_rules next L' Hc' Hw) as Hp'. set (x' := rulesToJson next) in *. clearbody x'.
  assert (get (inputs s') KEY_RULES = VStr x') as Hg by (unfold get; by rewrite Hi, obj_get_define_eq).
  assert (rules_text s' = x') as Ht.
  { unfold rules_text. rewrite Hg. cbn. unfold or_text. by rewrite decide_False by (by intros ->). }
  assert (∀ y, y = number L' → represents L' (setRules y s')) as Hiff.
  { intros y ->. unfold represents. destruct s'; simpl in *. split_and!; [done..|]. exists x'. subst.
    by rewrite obj_get_define_eq. }
  assert (get (inputs s) KEY_RULES = VStr x) as Hg0 by (unfold get; by rewrite Hx).
  unfold settle. rewrite Hm, Hm', Hg, Hg0. rewrite (bool_decide_false (Visual ≠ Visual)) by naive_solver.
  destruct (decide (x = x')) as [->|Hne].
  - assert (js_same (VStr x') (VStr x') = true) as -> by (by apply bool_decide_true). simpl.
    assert (VArr (VObj <$> L') = VArr (VObj <$> L)) as [= E] by congruence.
    assert (L' = L) as E'. { eapply list_fmap_eq_inj; [|exact E]. by intros ?? [= ->]. }
    replace s' with (setRules (rules s') s') by (by destruct s'). apply Hiff. rewrite Hr'. auto.
  - assert (js_same (VStr x) (VStr x') = false) as -> by (by apply bool_decide_false). simpl.
    apply Hiff. rewrite Ht. by apply parsed_rules.
Qed.

(** Steps that touch neither text nor rules. *)
Lemma represents_same L s s' : represents L s → editMode s' = editMode s → rules s' = rules s →
  obj_get (inputs s') KEY_RULES = obj_get (inputs s) KEY_RULES → represents L (settle s s').
Proof.
  intros (Hm & Hc & Hn & Hr & x & Hx & Hp) Hm' Hr' Hi.
  assert (represents L s') as H.
  { unfold represents. rewrite Hm', Hr', Hi. split_and!; [done..|]. by exists x. }
  unfold settle. rewrite Hm', Hm. rewrite (bool_decide_false (Visual ≠ Visual)) by naive_solver.
  assert (get (inputs s) KEY_RULES = VStr x ∧ get (inputs s') KEY_RULES = VStr x) as [-> ->]
    by (unfold get; by rewrite Hi, Hx).
  assert (js_same (VStr x) (VStr x) = true) as -> by (by apply bool_decide_true).
  done.
Qed.

Lemma index_same i j : (Z.of_nat i < 2 ^ 53)%Z → (Z.of_nat j < 2 ^ 53)%Z →
  js_same (index_num i) (index_num j) = bool_decide (i = j).
Proof.
  intros Hi Hj. unfold index_num. cbn. rewrite num_eqb_integers by lia. apply bool_decide_ext. lia.
Qed.

Lemma filter_everything {A} (P : A → Prop) `{!∀ x, Decision (P x)} (l : list A) : (∀ x, x ∈ l → P x) → filter P l = l.
Proof. induction l as [|x l IH]; intros Hl; [done|]. rewrite filter_cons_True, IH; [done|set_solver..]. Qed.

Lemma filter_from k i L : (Z.of_nat (k + length L) < 2 ^ 53)%Z → (Z.of_nat (k + i) < 2 ^ 53)%Z →
  tagged (filter (λ r, js_same (prop_opt r "id") (index_num (k + i)) = false)
            (imap (λ j o, VObj (("id", index_num (k + j)) :: o)) L)) (delete i L).
Proof.
  revert k i. induction L as [|o L IH]; intros k i Hk Hi; [by destruct i; constructor|]. cbn [imap length] in *.
  rewrite filter_cons. 
  assert (∀ i o, prop_opt (VObj (("id", index_num i) :: o)) "id" = index_num i) as Hid by done.
  rewrite Hid, index_same by lia.
  assert (imap ((λ j o, VObj (("id", index_num (k + j)) :: o)) ∘ S) L =
          imap (λ j o, VObj (("id", index_num (S k + j)) :: o)) L) as Hs.
  { apply imap_ext. intros j x _. cbn. by replace (k + S j)%nat with (S k + j)%nat by lia. }
  rewrite Hs. destruct i as [|i].
  - rewrite bool_decide_true by lia. rewrite decide_False by done. change (delete 0%nat (o :: L)) with L.
    rewrite filter_everything; [apply tagged_number_from|].
    intros r Hr. apply list_elem_of_lookup in Hr as (j & Hj). rewrite list_lookup_imap in Hj.
    destruct (L !! j) eqn:E; [|done]. apply lookup_lt_Some in E. injection Hj as <-.
    rewrite Hid, index_same, bool_decide_false by lia. done.
  - rewrite bool_decide_false by lia. rewrite decide_True by done. constructor; [by eexists|].
    replace (k + S i)%nat with (S k + i)%nat by lia. apply IH; lia.
Qed.

(** ** Rules of the dialog *)

(** A normalised source that names what it reads. *)
Definition source_ok (x : jsval) : Prop :=
  (∃ key, key ≠ "" ∧ (x = key_source "context_int" key "" ∨ x = key_source "context_string" key "")) ∨
  ∃ path, path ≠ "" ∧ x = key_source "gjson" "" path.

Lemma lines_nonempty v l : lines_of v = Ok l → Forall (λ x, x ≠ "") l.
Proof.
  unfold lines_of. destruct (truthy v); [|intros [= <-]; constructor]. destruct v; try done. intros [= <-].
  apply Forall_forall. intros x [Hx _]%list_elem_of_filter. done.
Qed.

Lemma normalized_source s x : normalizeKeySource s = Ok x → source_type x ≠ "" →
  x = key_source (source_type x) (source_key x) (source_path x) ∧
  (source_type x = "gjson" → source_key x = "") ∧ (source_type x ≠ "gjson" → source_path x = "").
Proof.
  unfold normalizeKeySource. intros (ty & _ & (k & _ & (p & _ & [= <-])%res_bind_Ok)%res_bind_Ok)%res_bind_Ok.
  case_decide; by simpl.
Qed.

Lemma sources_ok xs : Forall (λ x, x = key_source (source_type x) (source_key x) (source_path x) ∧
    (source_type x = "gjson" → source_key x = "") ∧ (source_type x ≠ "gjson" → source_path x = "")) xs →
  sources_error xs = None → Forall source_ok xs.
Proof.
  induction 1 as [|x xs (Hx & Hg & Hn) _ IH]; [constructor|]. cbn [sources_error].
  case_decide as Hc; [|case_decide as Hj; [|done]]; (case_decide as He; [done|]); intros Hs; (constructor; [|by apply IH]).
  - left. exists (source_key x). split; [done|]. assert (source_type x ≠ "gjson") as Hne.
    { intros E. rewrite E in Hc. set_solver. }
    rewrite Hx, (Hn Hne). set_unfold. destruct Hc as [->|[->|[]]]; auto.
  - right. exists (source_path x). split; [done|]. rewrite Hx at 1. by rewrite (Hg Hj), Hj.
Qed.

Lemma validated_sources v xs : validateKeySources v = Ok (inr xs) → xs ≠ [] ∧ Forall source_ok xs.
Proof.
  unfold validateKeySources. intros (l & _ & (ns & Hns & [= Hx])%res_bind_Ok)%res_bind_Ok.
  set (ys := filter (λ x, source_type x ≠ "") ns) in *.
  assert (Forall (λ x, x = key_source (source_type x) (source_key x) (source_path x) ∧
    (source_type x = "gjson" → source_key x = "") ∧ (source_type x ≠ "gjson" → source_path x = "")) ys) as Hys.
  { apply Forall_forall. intros x [Ht Hin]%list_elem_of_filter. apply res_map_Ok in Hns.
    apply list_elem_of_lookup in Hin as [i Hi]. destruct (Forall2_lookup_r _ _ _ _ _ Hns Hi) as (s & _ & Hs).
    by eapply normalized_source. }
  clearbody ys. destruct ys as [|y ys]; [done|]. destruct (sources_error (y :: ys)) eqn:E; [done|].
  injection Hx as <-. split; [done|]. by apply sources_ok.
Qed.

(** What a rule of the dialog has. *)
Definition rule_ok (p : obj) : Prop :=
  (∃ name, name ≠ "" ∧ obj_get p "name" = Some (VStr name)) ∧
  (∃ l, l ≠ [] ∧ Forall (λ x, x ≠ "") l ∧ obj_get p "model_regex" = Some (texts_value l)) ∧
  (∃ l, Forall (λ x, x ≠ "") l ∧ obj_get p "path_regex" = Some (texts_value l)) ∧
  (∃ xs, xs ≠ [] ∧ Forall source_ok xs ∧ obj_get p "key_sources" = Some (VArr xs)) ∧
  (∀ v, obj_get p "param_override_template" = Some v → ∃ o, v = VObj o) ∧
  Forall (λ kv, kv.1 ≠ "id" ∧ array_index kv.1 = None) p.

Lemma payload_ok values sources draft p : rule_payload values sources draft = Ok (inr p) → rule_ok p.
Proof.
  unfold rule_payload. intros (models & Hm & H)%res_bind_Ok. case_decide as Hne; [done|].
  apply res_bind_Ok in H as ([m|xs] & Hxs & H); [done|]. apply res_bind_Ok in H as (agents & Ha & H).
  destruct (parseOptionalObjectJson draft "参数覆盖模板") as [m|tpl]; [done|].
  apply res_bind_Ok in H as (name & Hn & (paths & Hp & (regex & _ & (ttl & _ & [= H])%res_bind_Ok)%res_bind_Ok)%res_bind_Ok).
  case_decide as Hname; [done|]. injection H as <-. apply validated_sources in Hxs as [Hx1 Hx2].
  split_and!.
  - by exists name.
  - exists models. split_and!; [done|by eapply lines_nonempty|done].
  - exists paths. split; [by eapply lines_nonempty|done].
  - by exists xs.
  - intros v Hv. destruct (truthy (get values "skip_retry_on_failure")), agents, tpl; vm_compute in Hv; naive_solver.
  - repeat (apply Forall_cons; split; [done|]). apply Forall_app. split; [by destruct (truthy _); repeat constructor|].
    apply Forall_app. split; [by destruct agents; repeat constructor|by destruct tpl; repeat constructor].
Qed.

(** The templates. *)
Lemma define_keys (o : obj) k v : k ∈ obj_keys o →
  Forall (λ kv, kv.1 ≠ "id" ∧ array_index kv.1 = None) o → Forall (λ kv, kv.1 ≠ "id" ∧ array_index kv.1 = None) (obj_define k v o).
Proof.
  intros Hk H. unfold obj_define. destruct (obj_get o k) eqn:E; [|by apply obj_get_None in E].
  clear E Hk. induction H as [|[k' v'] o Hk' Ho IH]; [constructor|]. cbn. case_decide; [subst k'|]; by constructor.
Qed.

Lemma templates_clean now names : Forall clean (new_templates now names).
Proof.
  assert (∀ n o, clean o → "name" ∈ obj_keys o → clean (obj_define "name" (VStr n) o)) as H.
  { intros n o [Hj Ho] Hin. split; [by apply obj_define_json|by apply define_keys]. }
  assert (clean codexCli ∧ clean claudeCli) as [H1 H2].
  { split; (split; [vm_compute; reflexivity|]); repeat (apply Forall_cons; split; [done|]); constructor. }
  unfold new_templates. apply Forall_cons. split; [apply H; [done|left]|].
  apply Forall_cons. split; [apply H; [done|left]|constructor].
Qed.

(** A name that is not in use, as long as fewer than 998 are. *)
Lemma unique_name now names base : (length names < 998)%nat → makeUniqueName now names base ∉ names.
Proof.
  intros Hn. unfold makeUniqueName. case_decide as Hb; [|done]. set (b := or_text (trim base) "rule") in *.
  destruct (list_find _ _) as [[i n]|] eqn:E; [by apply list_find_Some in E as (_ & ? & _)|].
  exfalso. apply list_find_None in E.
  assert (((λ i, b +:+ "-" +:+ pretty i) <$> seq 2 998) ⊆+ names) as Hs.
  { apply NoDup_submseteq.
    - apply NoDup_fmap_2; [|apply NoDup_seq]. intros i j H. apply (inj (String.append b)) in H.
      change ("-" +:+ pretty i = "-" +:+ pretty j) in H. apply (inj (String.append "-")) in H. by apply (inj pretty) in H.
    - intros n Hin. rewrite Forall_forall in E. specialize (E n Hin). destruct (decide (n ∈ names)); [done|]. by destruct E. }
  apply submseteq_length in Hs. rewrite length_fmap, length_seq in Hs. lia.
Qed.

(** ** The page implements a list of rules *)

Lemma edited_target i o L r : L !! i = Some o → (Z.of_nat (length L) < 2 ^ 53)%Z → prop_opt r "id" = index_num i →
  edited_index r (number L) = Ok (Some i).
Proof.
  intros Hi Hn Hr. unfold edited_index. rewrite Hr. pose proof (lookup_lt_Some _ _ _ Hi) as Hlt.
  assert (list_find (λ x, js_same (prop_opt x "id") (index_num i) = true) (number L) =
    Some (i, VObj (("id", index_num i) :: o))) as ->; [|done].
  apply list_find_Some. unfold number. split_and!.
  - rewrite list_lookup_imap, Hi. done.
  - assert (∀ i o, prop_opt (VObj (("id", index_num i) :: o)) "id" = index_num i) as -> by done.
    rewrite index_same by lia. by rewrite bool_decide_true.
  - intros j y Hj Hlt'. rewrite list_lookup_imap in Hj. destruct (L !! j) eqn:E; [|done]. injection Hj as <-.
    assert (∀ i o, prop_opt (VObj (("id", index_num i) :: o)) "id" = index_num i) as -> by done.
    rewrite index_same by lia. rewrite bool_decide_false by lia. done.
Qed.

Lemma find_name_lt v i k rs : find_name v i rs = Ok (Some k) → (i ≤ k < i + length rs)%nat.
Proof.
  revert i. induction rs as [|r rs IH]; intros i; cbn [find_name length]; [done|].
  intros (n & _ & (m & _ & H)%res_bind_Ok)%res_bind_Ok. case_decide; [injection H as <-; lia|]. apply IH in H. lia.
Qed.
Lemma edited_index_lt r rs i : edited_index r rs = Ok (Some i) → (i < length rs)%nat.
Proof.
  unfold edited_index. destruct (list_find _ rs) as [[j x]|] eqn:E.
  - intros [= <-]. apply list_find_Some in E as (H & _). by apply lookup_lt_Some in H.
  - destruct (truthy _); [|done]. intros H%find_name_lt. lia.
Qed.

Section refinement.
Variable t : string → string.
Variable now : string.

(** The dialog saves its rule, and nothing else changes. *)
Lemma save_refines L s : represents L s → visual ASave s → (Z.of_nat (S (length L)) < 2 ^ 53)%Z →
  represents (rules_after now ASave s L) (act t now ASave s).
Proof.
  intros H Hv Hn. pose proof H as (Hm & Hc & _ & Hr & _). simpl in Hv. unfold act. simpl.
  unfold handleModalSave, saved_rules. destruct (rule_payload _ _ _) as [[m|p]|e] eqn:Hp; simpl.
  - by apply (represents_same L s); destruct s.
  - assert (clean p) as Hcl. { split; [by apply Hv|]. by apply payload_ok in Hp as (_ & _ & _ & _ & _ & ?). }
    assert (∀ L' rs, Forall clean L' → (Z.of_nat (length L') < 2 ^ 53)%Z → tagged rs L' →
      represents L' (settle s (emit (Success (t "保存成功")) (closeModal (updateRulesState (renumber rs) s))))) as Hnew.
    { intros L' rs Hc' Hn' Ht. assert (renumber rs = number L') as E by (by apply renumber_tagged).
      apply (represents_new L L' s _ (renumber rs)); try done.
      - unfold updateRulesState. rewrite Hm. by destruct s.
      - unfold updateRulesState. rewrite Hm. by destruct s.
      - unfold updateRulesState. rewrite Hm. by destruct s.
      - rewrite E. by apply without_tagged, tagged_number. }
    destruct (isEdit s).
    + destruct (edited_index (editingRule s) (rules s)) as [[i|]|e] eqn:Hi; simpl.
      * apply Hnew; [|by rewrite length_insert; lia|].
        -- apply Forall_insert; done.
        -- rewrite Hr. apply Forall2_insert; [apply tagged_number|by eexists].
      * by apply (represents_same L s); destruct s.
      * by apply (represents_same L s); destruct s.
    + apply Hnew; [apply Forall_app; split; [done|]; apply Forall_cons; split; [done|constructor]|rewrite length_app; simpl; lia|].
      rewrite Hr. apply Forall2_app; [apply tagged_number|]. constructor; [by eexists|constructor].
  - by apply (represents_same L s); destruct s.
Qed.

Lemma delete_refines L s i : represents L s → is_Some (rules s !! i) →
  represents (delete i L) (act t now (ADelete i) s).
Proof.
  intros H [r Hi]. pose proof H as (Hm & Hc & Hn & Hr & _). unfold act. simpl. unfold handleDeleteRule, row. rewrite Hi. simpl.
  rewrite Hr in Hi. unfold number in Hi. rewrite list_lookup_imap in Hi. destruct (L !! i) as [o|] eqn:Ho; [|done].
  injection Hi as <-. pose proof (lookup_lt_Some _ _ _ Ho) as Hlt.
  assert (∀ o, prop_opt (VObj (("id", index_num i) :: o)) "id" = index_num i) as -> by done.
  assert (tagged (filter (λ r, js_same (prop_opt r "id") (index_num i) = false) (rules s)) (delete i L)) as Ht.
  { rewrite Hr. apply (filter_from 0); lia. }
  pose proof (renumber_tagged _ _ Ht) as E.
  assert (Forall clean (delete i L)) as Hc' by (by apply Forall_delete).
  eapply (represents_new L (delete i L) s _ (number (delete i L))); try done.
  - unfold updateRulesState. rewrite Hm. by destruct s.
  - unfold updateRulesState. rewrite Hm, E. by destruct s.
  - unfold updateRulesState. rewrite Hm, E. by destruct s.
  - rewrite length_delete by (by eexists). lia.
  - by apply without_tagged, tagged_number.
Qed.

(** Templates are appended under names of their own. *)
Lemma append_refines L s s' names : represents L s → rule_names (rules s) = Ok names →
  (Z.of_nat (2 + length L) < 2 ^ 53)%Z → editMode s' = editMode s → inputs s' = inputs s →
  represents (L ++ new_templates now names) (settle s (doAppend t now (rules s) s')).
Proof.
  intros H Hnames Hn Hm' Hi. pose proof H as (Hm & Hc & _ & Hr & _). unfold doAppend. rewrite Hnames.
  set (next := renumber (rules s ++ (VObj <$> new_templates now names))).
  assert (without_id <$> next = VObj <$> (L ++ new_templates now names)) as Hw.
  { unfold next. rewrite without_renumber, !fmap_app, Hr. f_equal. by apply without_tagged, tagged_number. }
  eapply (represents_new L _ s _ next); try done.
  - unfold updateRulesState. rewrite Hm', Hm. destruct s'. simpl in *. by rewrite Hm', Hm.
  - unfold updateRulesState. rewrite Hm', Hm. by destruct s'.
  - unfold updateRulesState. rewrite Hm', Hm. destruct s'. simpl in *. by rewrite Hi.
  - apply Forall_app. split; [done|apply templates_clean].
  - rewrite length_app. simpl. lia.
  - intros E. exfalso. apply (f_equal length) in E. rewrite length_app in E. simpl in E. lia.
Qed.
End refinement.

Section theorems.
Variable t : string → string.
Variable now : string.

Lemma control_inputs key g vs c : obj_get affinity_controls key = Some c →
  onChanges (outputs c key g vs) = [].
Proof.
  intros Hc. apply obj_get_elem_of in Hc. rewrite onChanges_outputs. unfold affinity_controls in Hc.
  repeat (apply elem_of_cons in Hc as [[= -> ->]|Hc]; [by destruct g|]). by apply elem_of_nil in Hc.
Qed.

(** The other actions touch neither the text nor the rules. *)
Definition frame (s s' : page) : Prop := editMode s' = editMode s ∧ rules s' = rules s ∧ inputs s' = inputs s.
Lemma frame_trans s1 s2 s3 : frame s1 s2 → frame s2 s3 → frame s1 s3.
Proof. intros (? & ? & ?) (? & ? & ?). split_and!; congruence. Qed.
Lemma frame_emits l s : frame s (foldl (λ s e, emit e s) s l).
Proof. revert s. induction l as [|e l IH]; intros s; [done|]. simpl. eapply frame_trans; [|apply IH]. by destruct s. Qed.

Lemma represents_frame L s s' : represents L s → frame s s' → represents L (settle s s').
Proof. intros H (? & ? & Hi). apply represents_same; [done..|by rewrite Hi]. Qed.

Lemma run_frame L a s : represents L s → visual a s →
  match a with ADelete _ | ASave | AAppend | AOk _ => False | _ => True end → frame s (run t now a s).
Proof.
  intros H Hv Ha. pose proof H as (Hm & _). destruct a; try done; cbn [run].
  - destruct (obj_get affinity_controls key) as [c|] eqn:E; [|done]. by rewrite (control_inputs key g vs c E).
  - unfold switchToVisualMode. destruct (tryParseRulesJsonArray _); destruct s; simpl in *; by subst.
  - by destruct s.
  - unfold handleEditRule. destruct (edited_rule _) as [r|]; [|done]. unfold openModal.
    by destruct (buildModalFormValues r), s.
  - by destruct s.
  - unfold typeField. case_decide; by destruct s.
  - unfold updateKeySource. destruct (normalizeKeySource _); [by destruct s|done].
  - by destruct s.
  - by destruct s.
  - by destruct s.
  - unfold formatParamTemplateDraft. case_decide; [done|]. destruct (json_parse _); by destruct s.
  - by destruct s.
  - by destruct s.
  - unfold openParamTemplatePreview. destruct (truthy _ && _); by destruct s.
  - by destruct s.
  - by destruct s.
  - unfold confirmClearRuleCache. destruct (trimmed _) as [n|]; [|done]. case_decide; [done|]. destruct (truthy _); by destruct s.
  - unfold onSubmit. destruct (compareObjects _ _); [by destruct s|]. destruct (json_parse _) as [v|]; [|by destruct s].
    match goal with |- context [foldl ?f s ?l] => pose proof (frame_emits l s) as Hf; revert Hf; destruct (foldl f s l) end.
    unfold frame. simpl. done.
  - by destruct r, s.
  - by destruct r, s.
  - unfold saved. destruct answers as [l|]; [|by destruct s]. repeat case_decide; by destruct s.
Qed.

(** C10.  In the visual mode the page of affinity rules implements a list of
    rules: while it represents the rules [L] (the table shows them, the stored
    text is theirs), every action changes them exactly as it should (a deletion
    removes the row, the dialog appends its rule or replaces the row it was
    opened for, templates are appended under names of their own, everything
    else leaves them alone), and the page represents the result. *)
Theorem page_refines_rules (a : action) (L : list obj) (s : page) :
  represents L s → visual a s → (Z.of_nat (2 + length L) < 2 ^ 53)%Z →
  represents (rules_after now a s L) (act t now a s).
Proof.
  intros H Hv Hn.
  destruct (decide (match a with ADelete _ | ASave | AAppend | AOk _ => true | _ => false end = true)) as [Hc|Hc].
  - destruct a; try done.
    + unfold act, rules_after. simpl. unfold appendCodexAndClaudeCodeTemplates. pose proof H as (_ & _ & _ & Hr & _).
      destruct L as [|o L].
      * rewrite Hr. replace (doAppend t now [] s) with (doAppend t now (rules s) s) by (by rewrite Hr).
        apply (append_refines t now [] s s []); [done|by rewrite Hr|done..].
      * rewrite Hr at 1. cbn [number imap]. apply represents_frame; [done|]. by destruct s.
    + unfold act, rules_after. simpl in *. destruct (questions s !! i) as [[rs|c]|] eqn:E.
      * rewrite (Hv rs eq_refl). simpl. destruct (rule_names (rules s)) as [names|] eqn:En.
        -- by apply append_refines; [| | |destruct s..].
        -- apply represents_frame; [done|]. unfold doAppend. rewrite En. by destruct s.
      * apply represents_frame; [done|]. by destruct s.
      * by apply represents_frame.
    + by apply delete_refines.
    + apply save_refines; [done..|lia].
  - assert (rules_after now a s L = L) as -> by (by destruct a).
    apply represents_frame; [done|]. eapply run_frame; [done..|]. by destruct a.
Qed.

(** What is sent for the rules. *)
Lemma sends_rules L s v : represents L s → Put KEY_RULES v ∈ effects (onSubmit t s) → Put KEY_RULES v ∈ effects s ∨
  v = VStr (stringify (VArr (VObj <$> L))).
Proof.
  intros (_ & _ & _ & _ & x & Hx & Hp). unfold onSubmit. destruct (compareObjects _ _) as [|c l] eqn:E.
  { destruct s. simpl. set_solver. }
  assert (rules_text s = x) as ->.
  { unfold rules_text, get. rewrite Hx. cbn. unfold or_text. by rewrite decide_False by (by intros ->). }
  rewrite Hp. set (es := sent s (stringify (VArr (VObj <$> L))) <$> (c :: l)).
  assert (∀ es s, effects (foldl (λ s e, emit e s) s es) = effects s ++ es) as Hf.
  { clear. induction es as [|e es IH]; intros s; simpl; [by rewrite app_nil_r|]. rewrite IH. destruct s. simpl. by rewrite <-app_assoc. }
  assert (∀ n s, effects (setLoading true (await (TSave n) s)) = effects s) as -> by (by intros n []).
  rewrite Hf. intros [?|Hin]%elem_of_app; [by left|]. right. unfold es in Hin.
  apply list_elem_of_fmap in Hin as (c' & Hc' & _). unfold sent in Hc'. injection Hc' as Hk ->. by rewrite decide_True by done.
Qed.

(** The dialog accepts only complete rules: a name, model expressions
    without blank lines, and key sources that name what they read; a template
    is an object. *)
Theorem dialog_rules_complete (values : obj) (sources : jsval) (draft : string) (p : obj) :
  rule_payload values sources draft = Ok (inr p) → rule_ok p.
Proof. apply payload_ok. Qed.
End theorems.

(** Opening the page with stored rules. *)
Lemma load_represents x L : Forall clean L → (Z.of_nat (length L) < 2 ^ 53)%Z → json_parse x = Some (VArr (VObj <$> L)) →
  represents L (loadOptions [(KEY_RULES, VStr x)] initial).
Proof.
  intros Hc Hn Hp. assert (x ≠ "") as Hx by (by intros ->).
  assert (json_ok (VArr (VObj <$> L)) = true) as Hok.
  { rewrite json_ok_arr. apply forallb_forall. intros v Hv%list_elem_of_In. apply list_elem_of_fmap in Hv as (o & -> & Ho).
    rewrite Forall_forall in Hc. by apply Hc. }
  set (y := stringify2 (VArr (VObj <$> L))). assert (json_parse y = Some (VArr (VObj <$> L))) as Hy by (by apply json_parse_stringify2).
  assert (copied_inputs default_inputs [(KEY_RULES, VStr x)] = obj_define KEY_RULES (VStr y) default_inputs) as E.
  { unfold copied_inputs, converted. cbn [foldl fst snd]. rewrite decide_True by set_solver.
    rewrite !decide_False by (unfold KEY_ENABLED, KEY_SWITCH_ON_SUCCESS, KEY_MAX_ENTRIES, KEY_DEFAULT_TTL, KEY_RULES; set_solver).
    unfold text_value, or_text. by rewrite decide_False, Hp. }
  unfold loadOptions. assert (inputs initial = default_inputs) as -> by done. rewrite E. clearbody y.
  unfold represents, rules_text. simpl. split_and!; [done..| |].
  - rewrite (parsed_rules _ L Hc); [done|]. unfold or_text. by rewrite decide_False by (by intros ->).
  - by exists y.
Qed.

Definition sample_rules : list obj := [obj_define "name" (VStr "a") codexCli; obj_define "name" (VStr "b") claudeCli].
Definition sample_text : string := stringify (VArr (VObj <$> sample_rules)).
Lemma sample_clean : Forall clean sample_rules.
Proof.
  repeat (apply Forall_cons; split; [split; [vm_compute; reflexivity|]|]); [| |constructor];
    repeat (apply Forall_cons; split; [done|]); constructor.
Qed.

Lemma page_refines_rules_witness :
  let s := loadOptions [(KEY_RULES, VStr sample_text)] initial in
  represents (drop 1 sample_rules) (act (λ x, x) "0" (ADelete 0) s).
Proof.
  intros s. assert (represents sample_rules s) as H.
  { apply load_represents; [exact sample_clean|done|]. apply json_parse_stringify. vm_compute. reflexivity. }
  apply (page_refines_rules (λ x, x) "0" (ADelete 0) sample_rules s H); [|done].
  destruct H as (_ & _ & _ & Hr & _). change (is_Some (rules s !! 0%nat)). rewrite Hr. by eexists.
Defined.

Definition sample_values : obj :=
  [("name", VStr " my rule "); ("model_regex_text", VStr "^gpt"); ("path_regex_text", VStr ""); ("ttl_seconds", index_num 60)].
Lemma dialog_rules_complete_witness :
  ∃ p, rule_payload sample_values (VArr [key_source "gjson" "" "user"]) "" = Ok (inr p) ∧ rule_ok p.
Proof.
  eexists. split; [vm_compute; reflexivity|].
  apply (dialog_rules_complete sample_values (VArr [key_source "gjson" "" "user"]) ""). vm_compute. reflexivity.
Defined.

(** *** Rules that get lost *)

Definition acts (l : list action) : page := foldl (λ s a, act (λ x, x) "0" a s) initial l.

(** What was typed in the JSON mode is lost when templates are filled in. *)
Lemma json_edits_lost :
  let typed := rulesToJson (VObj <$> sample_rules) in
  let s := acts [AEnterJson; ATypeJson typed] in
  rules_text s = typed ∧ length (rules (act (λ x, x) "0" AEnterVisual s)) = 2%nat ∧
  length (rules (act (λ x, x) "0" AEnterVisual (act (λ x, x) "0" AAppend s))) = 2%nat ∧
  prop_opt (row 0 (act (λ x, x) "0" AEnterVisual (act (λ x, x) "0" AAppend s))) "name" = VStr "codex cli trace".
Proof. vm_compute. done. Qed.

(** Rules with the same id of their own are deleted together. *)
Lemma own_id_deletes_both :
  let stored := stringify (VArr [VObj [("id", index_num 5); ("name", VStr "a")]; VObj [("id", index_num 5); ("name", VStr "b")]]) in
  let s := acts [ALoad [(KEY_RULES, VStr stored)]] in
  length (rules s) = 2%nat ∧ rules (act (λ x, x) "0" (ADelete 0) s) = [].
Proof. vm_compute. done. Qed.

(** A field the dialog does not know is dropped when the rule is edited. *)
Lemma unknown_field_dropped :
  let s := acts [ALoad [(KEY_RULES, VStr (stringify (VArr [VObj (codexCli ++ [("note", VStr "keep")])])))]; AEdit 0; ASave] in
  length (rules s) = 1%nat ∧ prop_opt (row 0 s) "note" = VUndef.
Proof. vm_compute. done. Qed.
