(* ===== verification/CustomOAuth.v ===== *)
(** * Custom OAuth providers

    [web/src/components/settings/CustomOAuthSetting.jsx]: the list of providers
    and the dialog with its presets, issuer URL, discovery and templates.

    The values of the dialog are kept twice: in the form ([theForm], the values
    of [FormCompat]) and in the state of the page ([formValues]), which follows
    the form through [onValueChange].  [new URL] is a function of the browser
    and a parameter ([url_origin]). *)
From Stdlib Require Import Ascii SpecFloat.
From S2P Require Import Prelude JsString JsNumber JsValue Json FormCompat.

(** ** Data *)

Definition preset (name auth token info scopes id user display : string) : obj :=
  [("name", VStr name); ("authorization_endpoint", VStr auth); ("token_endpoint", VStr token);
   ("user_info_endpoint", VStr info); ("scopes", VStr scopes); ("user_id_field", VStr id); ("username_field", VStr user);
   ("display_name_field", VStr display)].

Definition with_email (email : string) (o : obj) : obj := o ++ [("email_field", VStr email)].

Definition OAUTH_PRESETS : list (string * obj) :=
  [("github-enterprise", with_email "email" (preset "GitHub Enterprise" "/login/oauth/authorize" "/login/oauth/access_token"
      "/api/v3/user" "user:email" "id" "login" "name"));
   ("gitlab", with_email "email" (preset "GitLab" "/oauth/authorize" "/oauth/token" "/api/v4/user" "openid profile email" "id" "username" "name"));
   ("gitea", with_email "email" (preset "Gitea" "/login/oauth/authorize" "/login/oauth/access_token" "/api/v1/user"
      "openid profile email" "id" "login" "full_name"));
   ("nextcloud", with_email "ocs.data.email" (preset "Nextcloud" "/apps/oauth2/authorize" "/apps/oauth2/api/v1/token"
      "/ocs/v2.php/cloud/user?format=json" "openid profile email" "ocs.data.id" "ocs.data.id" "ocs.data.displayname"));
   ("keycloak", with_email "email" (preset "Keycloak" "/realms/{realm}/protocol/openid-connect/auth"
      "/realms/{realm}/protocol/openid-connect/token" "/realms/{realm}/protocol/openid-connect/userinfo"
      "openid profile email" "sub" "preferred_username" "name"));
   ("authentik", with_email "email" (preset "Authentik" "/application/o/authorize/" "/application/o/token/"
      "/application/o/userinfo/" "openid profile email" "sub" "preferred_username" "name"));
   ("ory", with_email "email" (preset "ORY Hydra" "/oauth2/auth" "/oauth2/token" "/userinfo" "openid profile email"
      "sub" "preferred_username" "name"))].

Definition OAUTH_PRESET_ICONS : list (string * string) :=
  [("github-enterprise", "github"); ("gitlab", "gitlab"); ("gitea", "gitea"); ("nextcloud", "nextcloud");
   ("keycloak", "keycloak"); ("authentik", "authentik"); ("ory", "openid")].
Definition getPresetIcon (k : string) : string := default "" (obj_get OAUTH_PRESET_ICONS k).

Definition PRESET_RESET_VALUES : obj :=
  [("name", VStr ""); ("slug", VStr ""); ("icon", VStr ""); ("authorization_endpoint", VStr ""); ("token_endpoint", VStr "");
   ("user_info_endpoint", VStr ""); ("scopes", VStr ""); ("user_id_field", VStr ""); ("username_field", VStr "");
   ("display_name_field", VStr ""); ("email_field", VStr ""); ("well_known", VStr ""); ("auth_style", VNum (num_of_Z 0));
   ("access_policy", VStr ""); ("access_denied_message", VStr "")].

Definition endpointFields : list string := ["authorization_endpoint"; "token_endpoint"; "user_info_endpoint"].

(** Whether [OAUTH_PRESETS[k]] is truthy: the table is an object literal. *)
Definition is_oauth_preset (k : string) : bool := bool_decide (k ∈ obj_keys OAUTH_PRESETS ++ inherited).
(** A field of it; no endpoint is a property of an inherited value, and the
    other fields are read of an offered preset only. *)
Definition preset_field (k f : string) : jsval := prop_opt (from_option VObj VUndef (obj_get OAUTH_PRESETS k)) f.

Definition DISCOVERY_FIELD_LABELS : list (string * string) :=
  [("authorization_endpoint", "Authorization Endpoint"); ("token_endpoint", "Token Endpoint");
   ("user_info_endpoint", "User Info Endpoint"); ("scopes", "Scopes"); ("user_id_field", "User ID Field");
   ("username_field", "Username Field"); ("display_name_field", "Display Name Field"); ("email_field", "Email Field")].

Definition claimMap : list (string * string) :=
  [("user_id_field", "sub"); ("username_field", "preferred_username"); ("display_name_field", "name"); ("email_field", "email")].

Fixpoint strip_slashes (l : list ascii) : list ascii :=
  match l with c :: r => if decide (c = "/"%char) then strip_slashes r else l | [] => [] end.
Definition normalizeBaseUrl (url : string) : string := of_chars (reverse (strip_slashes (reverse (chars (trim url))))).

Inductive effect :=
| Get (url : string) | Post (url : string) (body : obj) | Put (url : string) (body : obj) | Delete (url : string)
| ShowError (e : jsval) | ShowSuccess (text : string).

(** The provider a save is for, and what a discovery was started with: the form
    values of the render, and its URL. *)
Inductive task := TProviders | TDelete | TSave (editing : bool) | TDiscover (values : obj) (wellKnownUrl : string).

Record info := Info { wellKnown : string; autoFilledFields : list string; scopesSupported : list jsval; claimsSupported : list jsval }.

Record page := Page {
  providers : list jsval; loading : bool; modalVisible : bool; editingProvider : option obj; formValues : obj; theForm : obj;
  selectedPreset : string; baseUrl : string; discoveryLoading : bool; discoveryInfo : option info;
  tasks : list task; effects : list effect }.

Definition initial : page := Page [] false false None [] [] "" "" false None [] [].

Definition setProviders (x : list jsval) (s : page) : page :=
  let '(Page _ b c d e f g h i j k l) := s in Page x b c d e f g h i j k l.
Definition setLoading (x : bool) (s : page) : page := let '(Page a _ c d e f g h i j k l) := s in Page a x c d e f g h i j k l.
Definition setModalVisible (x : bool) (s : page) : page :=
  let '(Page a b _ d e f g h i j k l) := s in Page a b x d e f g h i j k l.
Definition setEditing (x : option obj) (s : page) : page :=
  let '(Page a b c _ e f g h i j k l) := s in Page a b c x e f g h i j k l.
Definition setValues (x y : obj) (s : page) : page :=
  let '(Page a b c d _ _ g h i j k l) := s in Page a b c d x y g h i j k l.
Definition setPreset (x : string) (s : page) : page := let '(Page a b c d e f _ h i j k l) := s in Page a b c d e f x h i j k l.
Definition setBaseUrl (x : string) (s : page) : page := let '(Page a b c d e f g _ i j k l) := s in Page a b c d e f g x i j k l.
Definition setDiscoveryLoading (x : bool) (s : page) : page :=
  let '(Page a b c d e f g h _ j k l) := s in Page a b c d e f g h x j k l.
Definition setInfo (x : option info) (s : page) : page := let '(Page a b c d e f g h i _ k l) := s in Page a b c d e f g h i x k l.
Definition setTasks (x : list task) (s : page) : page := let '(Page a b c d e f g h i j _ l) := s in Page a b c d e f g h i j x l.
Definition emit (x : effect) (s : page) : page := let '(Page a b c d e f g h i j k l) := s in Page a b c d e f g h i j k (l ++ [x]).
Definition await (k : task) (s : page) : page := setTasks (tasks s ++ [k]) s.

(** ** The page *)

Section page.
Variable t : string → string.
(** [url.protocol//url.host] of [new URL(x)], nothing when it throws. *)
Variable url_origin : string → option string.

(** [formApi.setValue]: the form changes, and [onValueChange] carries all its
    values over. *)
Definition setField (k : string) (v : jsval) (s : page) : page :=
  let f := obj_set k v (theForm s) in setValues (obj_spread (formValues s) f) f s.

Definition mergeFormValues (newValues : obj) (s : page) : page :=
  foldl (λ s kv, setField kv.1 kv.2 s) (setValues (obj_spread (formValues s) newValues) (theForm s) s) newValues.

(** An endpoint that is no text throws as well. *)
Definition inferBaseUrlFromProvider (provider : obj) : string :=
  let endpoint := js_or (get provider "authorization_endpoint") (get provider "token_endpoint") in
  match endpoint with VStr x => if decide (x = "") then "" else default "" (url_origin x) | _ => "" end.

Definition closeModal (s : page) : page := setInfo None (setModalVisible false s).

Definition fetchProviders (s : page) : page := await TProviders (emit (Get "/api/custom-oauth-provider/") (setLoading true s)).
Definition mount : page := fetchProviders initial.

Inductive reply (A : Type) := Rejected (message : jsval) | Refused (message : jsval) | Served (data : A).
#[global] Arguments Rejected {A}.
#[global] Arguments Refused {A}.
#[global] Arguments Served {A}.

Definition providersDone (r : reply (list jsval)) (s : page) : page :=
  setLoading false
    match r with
    | Rejected _ => emit (ShowError (VStr (t "获取自定义 OAuth 提供商列表失败"))) s
    | Refused m => emit (ShowError m) s
    | Served l => setProviders l s
    end.

Definition add_values : obj :=
  [("enabled", VBool false); ("icon", VStr ""); ("scopes", VStr "openid profile email"); ("user_id_field", VStr "sub");
   ("username_field", VStr "preferred_username"); ("display_name_field", VStr "name"); ("email_field", VStr "email");
   ("auth_style", VNum (num_of_Z 0)); ("access_policy", VStr ""); ("access_denied_message", VStr "")].

(** The dialog opens with a new form. *)
Definition opened (editing : option obj) (values : obj) (presetKey base : string) (s : page) : page :=
  setModalVisible true (setInfo None (setBaseUrl base (setPreset presetKey (setValues values values (setEditing editing s))))).

Definition handleAdd (s : page) : page := opened None add_values "" "" s.

Definition handleEdit (provider : obj) (s : page) : page :=
  let slug := match get provider "slug" with VStr x => x | _ => "" end in
  opened (Some provider) provider (if is_oauth_preset slug then slug else "") (inferBaseUrlFromProvider provider) s.

Definition handleDelete (id : string) (s : page) : page :=
  await TDelete (emit (Delete ("/api/custom-oauth-provider/" +:+ id)) s).
Definition deleteDone (r : reply unit) (s : page) : page :=
  match r with
  | Rejected _ => emit (ShowError (VStr (t "删除失败"))) s
  | Refused m => emit (ShowError m) s
  | Served _ => fetchProviders (emit (ShowSuccess (t "删除成功")) s)
  end.

(** *** Saving *)

Definition requiredFields (editing : bool) : list string :=
  ["name"; "slug"; "client_id"; "authorization_endpoint"; "token_endpoint"; "user_info_endpoint"]
  ++ (if editing then [] else ["client_secret"]).

Definition first_missing (editing : bool) (values : obj) : option string :=
  head (filter (λ f, truthy (get values f) = false) (requiredFields editing)).

Definition is_full_url (x : string) : bool := starts_with "http://" x || starts_with "https://" x.

(** The first endpoint that is no full address; one that is no text throws. *)
Fixpoint bad_endpoint (fields : list string) (values : obj) : res bool :=
  match fields with
  | [] => Ok false
  | f :: fields =>
      let v := get values f in
      if truthy v then match v with
                       | VStr x => if is_full_url x then bad_endpoint fields values else Ok true
                       | _ => Throw "startsWith is not a function"
                       end
      else bad_endpoint fields values
  end.

Definition payload (values : obj) : obj :=
  obj_delete "base_url" (obj_delete "preset" (obj_define "enabled" (VBool (truthy (get values "enabled"))) values)).

Definition handleSubmit (s : page) : page :=
  let values := theForm s in
  let editing := bool_decide (is_Some (editingProvider s)) in
  match first_missing editing values with
  | Some f => emit (ShowError (VStr (t ("请填写 " +:+ f)))) s
  | None =>
      match bad_endpoint endpointFields values with
      | Throw _ => s
      | Ok true =>
          emit (ShowError (VStr (t (if decide (selectedPreset s ≠ "" ∧ baseUrl s = "")
                                    then "请先填写 Issuer URL，以自动生成完整的端点 URL"
                                    else "端点 URL 必须是完整地址（以 http:// 或 https:// 开头）")))) s
      | Ok false =>
          await (TSave editing)
            (emit (match editingProvider s with
                   | Some p => Put ("/api/custom-oauth-provider/" +:+
                                    match to_str (get p "id") with Ok x => x | Throw _ => "" end) (payload values)
                   | None => Post "/api/custom-oauth-provider/" (payload values)
                   end) s)
      end
  end.

(** A rejection carries the message of its answer, if there is one. *)
Definition saveDone (editing : bool) (r : reply unit) (s : page) : page :=
  match r with
  | Rejected m => emit (ShowError (js_or m (VStr (t (if editing then "更新失败" else "创建失败"))))) s
  | Refused m => emit (ShowError m) s
  | Served _ => fetchProviders (closeModal (emit (ShowSuccess (t (if editing then "更新成功" else "创建成功"))) s))
  end.

(** *** Discovery *)

(** An element of [join]: nullish ones are empty. *)
Definition item_text (v : jsval) : string :=
  if is_nullish v then "" else match to_str v with Ok x => x | Throw _ => "" end.

(** A configured address that is no text throws. *)
Definition handleFetchFromDiscovery (s : page) : page :=
  let cleanBaseUrl := normalizeBaseUrl (baseUrl s) in
  match js_or (get (formValues s) "well_known") (VStr "") with
  | VStr x =>
      let configured := trim x in
      let wellKnownUrl := if decide (configured = "")
                          then if decide (cleanBaseUrl = "") then "" else cleanBaseUrl +:+ "/.well-known/openid-configuration"
                          else configured in
      if decide (wellKnownUrl = "") then emit (ShowError (VStr (t "请先填写 Discovery URL 或 Issuer URL"))) s
      else await (TDiscover (formValues s) wellKnownUrl)
             (emit (Post "/api/custom-oauth-provider/discovery"
                      [("well_known_url", VStr configured); ("issuer_url", VStr cleanBaseUrl)]) (setDiscoveryLoading true s))
  | _ => s
  end.

Definition list_of (v : jsval) : list jsval := match v with VArr l => l | _ => [] end.
(** [l.includes(x)] of a text. *)
Definition has_text (x : string) (l : list jsval) : bool := existsb (is_str x) l.

(** The fields a discovery document fills, in order; [values] are the form
    values of the render. *)
Definition endpoint_fields (data : jsval) : obj :=
  omap (λ fk, let v := prop_opt data fk.2 in if truthy v then Some (fk.1, v) else None)
    [("authorization_endpoint", "authorization_endpoint"); ("token_endpoint", "token_endpoint");
     ("user_info_endpoint", "userinfo_endpoint")].

Definition scope_fields (values : obj) (data : jsval) : obj :=
  let supported := list_of (prop_opt data "scopes_supported") in
  if decide (supported = [] ∨ truthy (get values "scopes") = true) then []
  else
    let preferred := filter (λ x, has_text x supported = true) ["openid"; "profile"; "email"] in
    [("scopes", VStr (match preferred with
                      | [] => join " " (item_text <$> take 5 supported)
                      | _ => join " " preferred
                      end))].

Definition claim_fields (values : obj) (data : jsval) : obj :=
  let supported := list_of (prop_opt data "claims_supported") in
  omap (λ fc, if negb (truthy (get values fc.1)) && has_text fc.2 supported then Some (fc.1, VStr fc.2) else None) claimMap.

Definition discovered (values : obj) (data : jsval) : obj :=
  endpoint_fields data ++ scope_fields values data ++ claim_fields values data.

(** [data] is the document, [url] the address it was found at. *)
Definition discoveryDone (values : obj) (wellKnownUrl : string) (r : reply (jsval * jsval)) (s : page) : page :=
  setDiscoveryLoading false
    match r with
    | Rejected m | Refused m =>
        emit (ShowError (VStr (t "获取 Discovery 配置失败：" +:+ item_text (js_or m (VStr (t "未知错误")))))) s
    | Served (data, url) =>
        let fields := discovered values data in
        match endpoint_fields data with
        | [] => emit (ShowError (VStr (t "未在 Discovery 响应中找到可用的 OAuth 端点"))) s
        | _ =>
            emit (ShowSuccess (t "已从 Discovery 自动填充配置"))
              (setInfo (Some (Info wellKnownUrl (obj_keys fields)
                 (take 12 (list_of (prop_opt data "scopes_supported"))) (take 12 (list_of (prop_opt data "claims_supported")))))
                 (mergeFormValues (("well_known", js_or url (VStr wellKnownUrl)) :: fields) s))
        end
    end.

Definition discoveryAutoFilledLabels (i : option info) : string :=
  match i with
  | Some i => join ", " ((λ f, default f (obj_get DISCOVERY_FIELD_LABELS f)) <$> autoFilledFields i)
  | None => ""
  end.

(** *** Presets and templates *)

(** [cleanUrl + presetConfig[f]]. *)
Definition endpoint_url (cleanUrl k f : string) : jsval :=
  VStr (cleanUrl +:+ match preset_field k f with VStr x => x | _ => "undefined" end).
Definition endpoint_urls (cleanUrl k : string) : obj := (λ f, (f, endpoint_url cleanUrl k f)) <$> endpointFields.

Definition handlePresetChange (k : string) (s : page) : page :=
  let s := setInfo None (setPreset k s) in
  let cleanUrl := normalizeBaseUrl (baseUrl s) in
  if is_oauth_preset k then
    let fields := (λ f, (f, preset_field k f)) <$>
      ["scopes"; "user_id_field"; "username_field"; "display_name_field"; "email_field"] in
    let values := obj_spread PRESET_RESET_VALUES
      ([("name", preset_field k "name"); ("slug", VStr k); ("icon", VStr (getPresetIcon k))] ++ fields) in
    mergeFormValues (if decide (cleanUrl = "") then values else obj_spread values (endpoint_urls cleanUrl k)) s
  else mergeFormValues PRESET_RESET_VALUES s.

Definition handleBaseUrlChange (url : string) (s : page) : page :=
  let s' := setBaseUrl url s in
  if decide (url ≠ "" ∧ selectedPreset s ≠ "" ∧ is_oauth_preset (selectedPreset s) = true)
  then mergeFormValues (endpoint_urls (normalizeBaseUrl url) (selectedPreset s)) s'
  else s'.

(** The fields of the form that report: preset and issuer URL. *)
Definition choosePreset (k : string) (s : page) : page := handlePresetChange k (setField "preset" (VStr k) s).
Definition typeBaseUrl (url : string) (s : page) : page := handleBaseUrlChange url (setField "base_url" (VStr url) s).
(** The switch in the footer. *)
Definition setEnabled (checked : bool) (s : page) : page := mergeFormValues [("enabled", VBool checked)] s.

Definition ACCESS_POLICY_TEMPLATES : list (string * string) :=
  [("level_active", join (String NL "") (qtext <$>
     ["{"; "  'logic': 'and',"; "  'conditions': ["; "    {'field': 'trust_level', 'op': 'gte', 'value': 2},";
      "    {'field': 'active', 'op': 'eq', 'value': true}"; "  ]"; "}"]));
   ("org_or_role", join (String NL "") (qtext <$>
     ["{"; "  'logic': 'or',"; "  'conditions': ["; "    {'field': 'org', 'op': 'eq', 'value': 'core'},";
      "    {'field': 'roles', 'op': 'contains', 'value': 'admin'}"; "  ]"; "}"]))].
Definition ACCESS_DENIED_TEMPLATES : list (string * string) :=
  [("level_hint", "需要等级 {{required}}，你当前等级 {{current}}（字段：{{field}}）");
   ("org_hint", "仅限指定组织或角色访问。组织={{current.org}}，角色={{current.roles}}")].

Definition applyAccessPolicyTemplate (k : string) (s : page) : page :=
  match obj_get ACCESS_POLICY_TEMPLATES k with
  | Some x => emit (ShowSuccess (t "已填充策略模板")) (mergeFormValues [("access_policy", VStr x)] s)
  | None => s
  end.
Definition applyDeniedTemplate (k : string) (s : page) : page :=
  match obj_get ACCESS_DENIED_TEMPLATES k with
  | Some x => emit (ShowSuccess (t "已填充提示模板")) (mergeFormValues [("access_denied_message", VStr x)] s)
  | None => s
  end.
End page.

(** ** Sessions *)

(** What the administrator does; [Type_] is a field of the form without a
    handler of its own. *)
Inductive action :=
| Add | Edit (provider : obj) | Close | Type_ (field : string) (v : jsval) | Choose (k : string) | Issuer (url : string)
| Enabled (checked : bool) | Policy (k : string) | Denied (k : string) | Remove (id : string) | Save | Discover.

Section session.
Variables (t : string → string) (url_origin : string → option string).

Definition act (a : action) (s : page) : page :=
  match a with
  | Add => handleAdd s
  | Edit p => handleEdit url_origin p s
  | Close => closeModal s
  | Type_ f v => setField f v s
  | Choose k => choosePreset k s
  | Issuer url => typeBaseUrl url s
  | Enabled b => setEnabled b s
  | Policy k => applyAccessPolicyTemplate t k s
  | Denied k => applyDeniedTemplate t k s
  | Remove id => handleDelete id s
  | Save => handleSubmit t s
  | Discover => handleFetchFromDiscovery t s
  end.

(** A provider is an object, whose names are distinct; the field
    ["__proto__"] does not exist. *)
Definition act_ok (a : action) : Prop :=
  match a with Edit p => NoDup (obj_keys p) | Type_ f _ => f ≠ "__proto__" | _ => True end.

(** Answers arrive in any order. *)
Inductive step : page → page → Prop :=
| do s a : act_ok a → step s (act a s)
| providers_answered s r l1 l2 : tasks s = l1 ++ TProviders :: l2 → step s (providersDone t r (setTasks (l1 ++ l2) s))
| delete_answered s r l1 l2 : tasks s = l1 ++ TDelete :: l2 → step s (deleteDone t r (setTasks (l1 ++ l2) s))
| save_answered s e r l1 l2 : tasks s = l1 ++ TSave e :: l2 → step s (saveDone t e r (setTasks (l1 ++ l2) s))
| discovery_answered s v u r l1 l2 :
    tasks s = l1 ++ TDiscover v u :: l2 → step s (discoveryDone t v u r (setTasks (l1 ++ l2) s)).

Definition reachable (s : page) : Prop := rtc step mount s.
End session.

(** ** The form and the state agree *)

Definition agree_at (k : string) (s : page) : Prop := get (formValues s) k = get (theForm s) k.

Record form_ok (s : page) : Prop := { f_distinct : NoDup (obj_keys (theForm s)); f_agree : ∀ k, agree_at k s }.

Lemma setField_agree f v s k : f ≠ "__proto__" → NoDup (obj_keys (theForm s)) → k = f ∨ agree_at k s →
  agree_at k (setField f v s).
Proof.
  intros Hf Hnd Hk. destruct s; unfold agree_at, setField in *; simpl in *. unfold get in *.
  rewrite obj_get_spread, obj_get_set by (by apply obj_set_NoDup).
  case_decide; [done|]. destruct Hk as [?|Hk]; [naive_solver|]. destruct (obj_get theForm0 k) eqn:E; [done|]. exact Hk.
Qed.

Lemma setField_form f v s : theForm (setField f v s) = obj_set f v (theForm s).
Proof. by destruct s. Qed.

Lemma setFields_agree vs s k : "__proto__" ∉ obj_keys vs → NoDup (obj_keys (theForm s)) → k ∈ obj_keys vs ∨ agree_at k s →
  agree_at k (foldl (λ s kv, setField kv.1 kv.2 s) s vs).
Proof.
  revert s. induction vs as [|[f v] vs IH]; intros s Hp Hnd Hk; simpl; [set_solver|].
  apply not_elem_of_cons in Hp as [Hf Hp]. simpl in Hf. apply IH; [done|rewrite setField_form; by apply obj_set_NoDup|].
  destruct (decide (k ∈ obj_keys vs)) as [|Hn]; [by left|right].
  apply setField_agree; [done..|]. destruct Hk as [Hk|Hk]; [|by right]. apply elem_of_cons in Hk as [Hk|Hk]; [by left|done].
Qed.

Lemma setFields_form vs s :
  theForm (foldl (λ s kv, setField kv.1 kv.2 s) s vs) = foldl (λ o kv, obj_set kv.1 kv.2 o) (theForm s) vs.
Proof. revert s. induction vs as [|kv vs IH]; intros s; simpl; [done|]. by rewrite IH, setField_form. Qed.

Lemma merge_form vs s : theForm (mergeFormValues vs s) = foldl (λ o kv, obj_set kv.1 kv.2 o) (theForm s) vs.
Proof. unfold mergeFormValues. rewrite setFields_form. by destruct s. Qed.

Lemma sets_NoDup (vs o : obj) : NoDup (obj_keys o) → NoDup (obj_keys (foldl (λ o kv, obj_set kv.1 kv.2 o) o vs)).
Proof. revert o. induction vs as [|kv vs IH]; intros o H; simpl; [done|]. by apply IH, obj_set_NoDup. Qed.

Lemma merge_ok vs s : NoDup (obj_keys vs) → "__proto__" ∉ obj_keys vs → form_ok s → form_ok (mergeFormValues vs s).
Proof.
  intros Hvs Hp [Hnd Hag]. split; [rewrite merge_form; by apply sets_NoDup|].
  intros k. apply setFields_agree; [done|by destruct s|].
  destruct (decide (k ∈ obj_keys vs)) as [|Hn]; [by left|right]. specialize (Hag k).
  destruct s; unfold agree_at, get in *; simpl in *. rewrite obj_get_spread by done.
  by rewrite (proj2 (obj_get_None vs k) Hn).
Qed.

Lemma setField_ok f v s : f ≠ "__proto__" → form_ok s → form_ok (setField f v s).
Proof.
  intros Hf [Hnd Hag]. split; [rewrite setField_form; by apply obj_set_NoDup|]. intros k. apply setField_agree; auto.
Qed.

(** Steps that leave the values alone. *)
Lemma same_values s s' : formValues s' = formValues s → theForm s' = theForm s → form_ok s → form_ok s'.
Proof. intros H1 H2 [Hnd Hag]. split; [by rewrite H2|]. intros k. unfold agree_at. rewrite H1, H2. apply Hag. Qed.

(** ** Requests *)

Definition complete (editing : bool) (values : obj) : Prop :=
  Forall (λ f, truthy (get values f) = true) (requiredFields editing) ∧
  Forall (λ f, ∃ x, get values f = VStr x ∧ is_full_url x = true) endpointFields.

#[global] Instance full_url_dec v : Decision (∃ x, v = VStr x ∧ is_full_url x = true).
Proof.
  refine (match v with VStr x => if decide (is_full_url x = true) then left _ else right _ | _ => right _ end).
  all: first [by exists x | by intros (? & ? & ?); simplify_eq].
Defined.

#[global] Instance complete_dec e values : Decision (complete e values).
Proof. unfold complete. apply _. Defined.

(** The body a save sends for the values of the form. *)
Definition sends (values body : obj) : Prop :=
  get body "preset" = VUndef ∧ get body "base_url" = VUndef ∧ get body "enabled" = VBool (truthy (get values "enabled")) ∧
  ∀ f, f ∉ ["preset"; "base_url"; "enabled"] → get body f = get values f.

Definition request_ok (e : effect) : Prop :=
  match e with
  | Post "/api/custom-oauth-provider/" body => complete false body ∧ ∃ b, get body "enabled" = VBool b
  | Put _ body => complete true body ∧ ∃ b, get body "enabled" = VBool b
  | _ => True
  end.

Lemma payload_sends values : sends values (payload values).
Proof.
  unfold sends, payload, get. rewrite !obj_get_delete, !obj_get_define. repeat split.
  intros f Hf. rewrite !obj_get_delete, obj_get_define. repeat case_decide; set_solver.
Qed.

Lemma sends_complete e values body : sends values body → complete e values → complete e body.
Proof.
  intros (_ & _ & _ & Hg) [H1 H2]. rewrite Forall_forall in H1, H2.
  split; apply Forall_forall; intros f Hf; rewrite Hg; auto.
  all: revert Hf; unfold requiredFields, endpointFields; destruct e; set_solver.
Qed.

Lemma bad_endpoint_false fs values : Forall (λ f, truthy (get values f) = true) fs →
  bad_endpoint fs values = Ok false ↔ Forall (λ f, ∃ x, get values f = VStr x ∧ is_full_url x = true) fs.
Proof.
  induction 1 as [|f fs Hf Hfs IH]; simpl; [split; auto|]. rewrite Hf, Forall_cons.
  destruct (get values f) as [| | | |x| |] eqn:E; try (split; [done|by intros [(? & ? & ?) _]]).
  destruct (is_full_url x) eqn:Ex; [rewrite IH|].
  - split; [intros; split; [by exists x|done]|by intros [_ ?]].
  - split; [done|]. intros [(y & ? & ?) _]. congruence.
Qed.

Lemma first_missing_None e values :
  first_missing e values = None ↔ Forall (λ f, truthy (get values f) = true) (requiredFields e).
Proof.
  unfold first_missing. rewrite head_None. split.
  - intros H. apply Forall_forall. intros f Hf. destruct (truthy (get values f)) eqn:E; [done|].
    assert (Hin : f ∈ filter (λ f, truthy (get values f) = false) (requiredFields e)) by (by apply list_elem_of_filter).
    rewrite H in Hin. by apply not_elem_of_nil in Hin.
  - intros H. apply elem_of_nil_inv. intros f [E Hf]%list_elem_of_filter.
    rewrite Forall_forall in H. specialize (H f Hf). congruence.
Qed.

(** The request a save of [s] sends. *)
Definition save_request (s : page) : effect :=
  match editingProvider s with
  | Some p => Put ("/api/custom-oauth-provider/" +:+ match to_str (get p "id") with Ok x => x | Throw _ => "" end)
                (payload (theForm s))
  | None => Post "/api/custom-oauth-provider/" (payload (theForm s))
  end.

Definition editing (s : page) : bool := bool_decide (is_Some (editingProvider s)).

Lemma submit_complete t s : complete (editing s) (theForm s) →
  handleSubmit t s = await (TSave (editing s)) (emit (save_request s) s).
Proof.
  intros [H1 H2]. unfold handleSubmit. fold (editing s). rewrite (proj2 (first_missing_None _ _) H1).
  assert (He : Forall (λ f, truthy (get (theForm s) f) = true) endpointFields).
  { eapply Forall_impl; [exact H2|]. intros f (x & -> & Hx). simpl. destruct x; [done|]. by rewrite bool_decide_false. }
  by rewrite (proj2 (bad_endpoint_false _ _ He) H2).
Qed.

Lemma submit_incomplete t s : ¬ complete (editing s) (theForm s) →
  handleSubmit t s = s ∨ ∃ e, handleSubmit t s = emit (ShowError e) s.
Proof.
  intros Hn. unfold handleSubmit. fold (editing s).
  destruct (first_missing (editing s) (theForm s)) eqn:Em; [eauto|]. apply first_missing_None in Em.
  assert (He : Forall (λ f, truthy (get (theForm s) f) = true) endpointFields).
  { rewrite Forall_forall in Em |- *. intros f Hf. apply Em. revert Hf. unfold requiredFields, endpointFields. set_solver. }
  destruct (bad_endpoint endpointFields (theForm s)) as [[|]|] eqn:Eb; [eauto| |eauto].
  destruct Hn. split; [done|]. by apply bad_endpoint_false.
Qed.

(** ** Invariant *)

Record inv (s : page) : Prop := { i_form : form_ok s; i_requests : Forall request_ok (effects s) }.

Lemma merge_effects vs s : effects (mergeFormValues vs s) = effects s.
Proof.
  unfold mergeFormValues. set (s0 := setValues _ _ _).
  assert (H : effects s0 = effects s) by (by destruct s). rewrite <-H. clearbody s0. clear H.
  revert s0. induction vs as [|kv vs IH]; intros s0; simpl; [done|]. rewrite IH. by destruct s0.
Qed.

Lemma merge_inv vs s : NoDup (obj_keys vs) → "__proto__" ∉ obj_keys vs → inv s → inv (mergeFormValues vs s).
Proof. intros ? ? [? ?]. split; [by apply merge_ok|by rewrite merge_effects]. Qed.

Lemma setField_inv f v s : f ≠ "__proto__" → inv s → inv (setField f v s).
Proof. intros ? [? ?]. split; [by apply setField_ok|by destruct s]. Qed.

Lemma unchanged_inv s s' : formValues s' = formValues s → theForm s' = theForm s → effects s' = effects s → inv s → inv s'.
Proof. intros ? ? He [? ?]. split; [by eapply same_values|by rewrite He]. Qed.

Lemma emit_inv e s : request_ok e → inv s → inv (emit e s).
Proof. intros ? [? ?]. split; [by eapply same_values; [..|done]; destruct s|]. destruct s; simpl in *. by apply Forall_app_2; [|apply Forall_singleton]. Qed.


Ltac quiet := match goal with |- inv ?s' =>
  match goal with s : page |- _ => apply (unchanged_inv s s'); [by destruct s..|] end end.

Lemma fetch_inv s : inv s → inv (fetchProviders s).
Proof.
  intros H. unfold fetchProviders. apply (unchanged_inv (emit (Get "/api/custom-oauth-provider/") s)); [by destruct s..|].
  by apply emit_inv.
Qed.

Lemma opened_inv e values k b s : NoDup (obj_keys values) → inv s → inv (opened e values k b s).
Proof. intros Hv [_ He]. destruct s. split; [by split|done]. Qed.

Lemma endpoint_urls_keys u k : obj_keys (endpoint_urls u k) = endpointFields.
Proof. done. Qed.

Lemma no_proto (ks : list string) : forallb (λ k, negb (String.eqb k "__proto__")) ks = true → "__proto__" ∉ ks.
Proof.
  intros H Hin. rewrite forallb_forall in H. apply list_elem_of_In in Hin. apply H in Hin.
  by rewrite String.eqb_refl in Hin.
Qed.

Lemma distinct (ks : list string) : bool_decide (NoDup ks) = true → NoDup ks.
Proof. apply bool_decide_eq_true_1. Qed.

Lemma endpoints_inv u k s : inv s → inv (mergeFormValues (endpoint_urls u k) s).
Proof. apply merge_inv; rewrite endpoint_urls_keys; [by apply distinct|by apply no_proto]. Qed.

Definition discovery_keys : list string := "well_known" :: endpointFields ++ ["scopes"] ++ claimMap.*1.

Lemma filled_keys (g : string * string → option (string * jsval)) (l : list (string * string)) :
  (∀ fk kv, g fk = Some kv → kv.1 = fk.1) → obj_keys (omap g l) `sublist_of` l.*1.
Proof.
  intros Hg. induction l as [|[f k] l IH]; simpl; [done|].
  destruct (g (f, k)) as [kv|] eqn:E; simpl; [rewrite (Hg _ _ E)|]; by constructor.
Qed.

Lemma discovered_keys values data u : obj_keys (("well_known", u) :: discovered values data) `sublist_of` discovery_keys.
Proof.
  simpl. apply sublist_skip. unfold discovered, obj_keys. rewrite !fmap_app.
  repeat apply sublist_app.
  - apply filled_keys. intros [f k] kv. simpl. destruct (truthy _); naive_solver.
  - unfold scope_fields. case_decide; [apply sublist_nil_l|done].
  - apply filled_keys. intros [f k] kv. simpl. destruct (_ && _); naive_solver.
Qed.

Lemma discovered_inv values data u s : inv s → inv (mergeFormValues (("well_known", u) :: discovered values data) s).
Proof.
  pose proof (discovered_keys values data u) as Hk. apply merge_inv.
  - eapply sublist_NoDup; [|exact Hk]. by apply distinct.
  - intros Hin. eapply elem_of_sublist in Hin; [|exact Hk]. by apply no_proto in Hin.
Qed.

Lemma handlePresetChange_inv k s : inv s → inv (handlePresetChange k s).
Proof.
  intros H. unfold handlePresetChange. assert (Hs : inv (setInfo None (setPreset k s))) by (quiet; done).
  destruct (is_oauth_preset k); [case_decide|]; (apply merge_inv; [by apply distinct|by apply no_proto|done]).
Qed.

Lemma handleBaseUrlChange_inv url s : inv s → inv (handleBaseUrlChange url s).
Proof.
  intros H. unfold handleBaseUrlChange. assert (Hs : inv (setBaseUrl url s)) by (quiet; done).
  case_decide; [by apply endpoints_inv|done].
Qed.

Lemma save_request_ok s : complete (editing s) (theForm s) → request_ok (save_request s).
Proof.
  unfold editing, save_request. pose proof (payload_sends (theForm s)) as Hs. intros H.
  destruct (editingProvider s); simpl in *; (split; [by eapply sends_complete|]); destruct Hs as (_ & _ & Hs & _); eauto.
Qed.

Lemma handleSubmit_inv t s : inv s → inv (handleSubmit t s).
Proof.
  intros H. destruct (decide (complete (editing s) (theForm s))) as [Hc|Hc].
  - rewrite submit_complete by done. apply (unchanged_inv (emit (save_request s) s)); [by destruct s..|].
    by apply emit_inv; [apply save_request_ok|].
  - destruct (submit_incomplete t s Hc) as [->|[e ->]]; [done|]. by apply emit_inv.
Qed.

Lemma handleFetchFromDiscovery_inv t s : inv s → inv (handleFetchFromDiscovery t s).
Proof.
  intros H. unfold handleFetchFromDiscovery. destruct (js_or _ _) as [| | | |x| |]; try done. cbv zeta.
  case_decide; [by apply emit_inv|].
  match goal with |- inv (await _ (emit ?e _)) => apply (unchanged_inv (emit e s)); [by destruct s..|] end. by apply emit_inv.
Qed.

Lemma template_inv f x m s : f ≠ "__proto__" → inv s → inv (emit (ShowSuccess m) (mergeFormValues [(f, VStr x)] s)).
Proof. intros Hf H. apply emit_inv; [done|]. apply merge_inv; [apply NoDup_singleton|set_solver|done]. Qed.

Lemma act_inv t url_origin a s : act_ok a → inv s → inv (act t url_origin a s).
Proof.
  destruct a; simpl; intros Ha H.
  - apply opened_inv; [by apply distinct|done].
  - by apply opened_inv.
  - by quiet.
  - by apply setField_inv.
  - by apply handlePresetChange_inv, setField_inv.
  - by apply handleBaseUrlChange_inv, setField_inv.
  - apply merge_inv; [apply NoDup_singleton|set_solver|done].
  - unfold applyAccessPolicyTemplate. case_match; [by apply template_inv|done].
  - unfold applyDeniedTemplate. case_match; [by apply template_inv|done].
  - unfold handleDelete. match goal with |- inv (await _ (emit ?e _)) => apply (unchanged_inv (emit e s)); [by destruct s..|] end.
    by apply emit_inv.
  - by apply handleSubmit_inv.
  - by apply handleFetchFromDiscovery_inv.
Qed.

Lemma tasks_inv l s : inv s → inv (setTasks l s).
Proof. intros. by quiet. Qed.

Lemma providersDone_inv t r s : inv s → inv (providersDone t r s).
Proof.
  intros H. unfold providersDone. destruct r as [m|m|l].
  - match goal with |- inv (setLoading _ (emit ?e _)) => apply (unchanged_inv (emit e s)); [by destruct s..|] end. by apply emit_inv.
  - apply (unchanged_inv (emit (ShowError m) s)); [by destruct s..|]. by apply emit_inv.
  - by quiet.
Qed.

Lemma saved_inv s x : inv s → inv (fetchProviders (closeModal (emit (ShowSuccess x) s))).
Proof.
  intros H. apply fetch_inv. apply (unchanged_inv (emit (ShowSuccess x) s)); [by destruct s..|]. by apply emit_inv.
Qed.

Lemma discoveryDone_inv t v u r s : inv s → inv (discoveryDone t v u r s).
Proof.
  intros H. unfold discoveryDone. assert (Hl : ∀ s, inv s → inv (setDiscoveryLoading false s)) by (intros; by quiet).
  apply Hl. destruct r as [m|m|[data url]]; [by apply emit_inv..|].
  destruct (endpoint_fields data); [by apply emit_inv|]. apply emit_inv; [done|].
  assert (Hi : ∀ i s, inv s → inv (setInfo i s)) by (intros; by quiet). by apply Hi, discovered_inv.
Qed.

Lemma session_step_inv t url_origin s s' : step t url_origin s s' → inv s → inv s'.
Proof.
  intros Hs H. destruct Hs as [s a Ha|s r l1 l2 _|s r l1 l2 _|s e r l1 l2 _|s v u r l1 l2 _].
  - by apply act_inv.
  - by apply providersDone_inv, tasks_inv.
  - apply (tasks_inv (l1 ++ l2)) in H. destruct r; simpl; [by apply emit_inv..|]. by apply fetch_inv, emit_inv.
  - apply (tasks_inv (l1 ++ l2)) in H. destruct r; simpl; [by apply emit_inv..|]. by apply saved_inv.
  - by apply discoveryDone_inv, tasks_inv.
Qed.

Lemma session_inv t url_origin s : reachable t url_origin s → inv s.
Proof.
  intros H. eapply (rtc_ind_r (λ s, inv s)); [|intros; by eapply session_step_inv|exact H].
  apply fetch_inv. split; [split; [constructor|done]|constructor].
Qed.

(** ** What is saved *)

Lemma complete_ext e v v' : (∀ k, get v k = get v' k) → complete e v ↔ complete e v'.
Proof. intros H. unfold complete. by setoid_rewrite H. Qed.

Lemma sends_ext v v' body : (∀ k, get v k = get v' k) → sends v body ↔ sends v' body.
Proof. intros H. unfold sends. by setoid_rewrite H. Qed.

(** The request that carries [body], in the mode of the dialog. *)
Definition saves (s : page) (body : obj) (e : effect) : Prop :=
  match editingProvider s with
  | Some p => e = Put ("/api/custom-oauth-provider/" +:+ match to_str (get p "id") with Ok x => x | Throw _ => "" end) body
  | None => e = Post "/api/custom-oauth-provider/" body
  end.

Lemma save_request_saves s : saves s (payload (theForm s)) (save_request s).
Proof. unfold saves, save_request. by destruct (editingProvider s). Qed.

(** C14.  Whatever the administrator did and whenever answers came in, every provider
    that was created or updated has all required values, full endpoint
    addresses and a boolean switch; and saving now sends one request with the
    values shown if they are complete, and none otherwise. *)
Theorem save_sends_shown t url_origin s : reachable t url_origin s →
  Forall request_ok (effects s) ∧
  (complete (editing s) (formValues s) →
     ∃ body e, effects (handleSubmit t s) = effects s ++ [e] ∧ saves s body e ∧ sends (formValues s) body) ∧
  (¬ complete (editing s) (formValues s) →
     effects (handleSubmit t s) = effects s ∨ ∃ m, effects (handleSubmit t s) = effects s ++ [ShowError m]).
Proof.
  intros [[_ Hag] Hr]%session_inv. unfold agree_at in Hag. split; [done|].
  rewrite (complete_ext _ _ _ Hag). setoid_rewrite (sends_ext _ _ _ Hag). split.
  - intros Hc. rewrite submit_complete by done. exists (payload (theForm s)), (save_request s).
    split; [by destruct s|]. split; [apply save_request_saves|apply payload_sends].
  - intros Hc. destruct (submit_incomplete t s Hc) as [->|[m ->]]; [by left|right; exists m; by destruct s].
Qed.

(** ** Presets and the issuer address *)

Lemma setFields_rest vs s : ∃ a b, foldl (λ s kv, setField kv.1 kv.2 s) s vs = setValues a b s.
Proof.
  revert s. induction vs as [|kv vs IH]; intros s; simpl; [exists (formValues s), (theForm s); by destruct s|].
  destruct (IH (setField kv.1 kv.2 s)) as (a & b & ->). exists a, b. by destruct s.
Qed.

Lemma merge_rest vs s : ∃ a b, mergeFormValues vs s = setValues a b s.
Proof.
  unfold mergeFormValues. destruct (setFields_rest vs (setValues (obj_spread (formValues s) vs) (theForm s) s)) as (a & b & ->).
  exists a, b. by destruct s.
Qed.

Lemma merge_get vs s k : NoDup (obj_keys vs) → "__proto__" ∉ obj_keys vs →
  get (theForm (mergeFormValues vs s)) k = default (get (theForm s) k) (obj_get vs k).
Proof. rewrite merge_form. apply get_sets. Qed.

Lemma starts_with_app p x y : starts_with p x = true → starts_with p (x +:+ y) = true.
Proof.
  unfold starts_with. revert x. induction p as [|c p IH]; intros x H; [by destruct (x +:+ y)|]. destruct x as [|d x]; [done|].
  simpl in *. destruct (ascii_dec c d); [by apply IH|done].
Qed.

Lemma full_url_app x y : is_full_url x = true → is_full_url (x +:+ y) = true.
Proof. unfold is_full_url. intros [H|H]%orb_true_iff; apply orb_true_iff; [left|right]; by apply starts_with_app. Qed.

(** The values a preset and an issuer address make of a form. *)
Definition preset_values (k cleanUrl : string) : obj :=
  [("name", preset_field k "name"); ("slug", VStr k)] ++ endpoint_urls cleanUrl k.

Definition holds (vs : obj) (s : page) : Prop := Forall (λ kv, get (theForm s) kv.1 = kv.2) vs.

Lemma choose_rest k s : selectedPreset (choosePreset k s) = k ∧ editingProvider (choosePreset k s) = editingProvider s.
Proof.
  unfold choosePreset, handlePresetChange. set (s1 := setField _ _ _).
  assert (E : editingProvider s1 = editingProvider s) by (by destruct s). rewrite <-E. clearbody s1. clear E.
  destruct (is_oauth_preset k);
    match goal with |- context [mergeFormValues ?vs ?s] => destruct (merge_rest vs s) as (a & b & ->) end; by destruct s1.
Qed.

Lemma issuer_rest u s : baseUrl (typeBaseUrl u s) = u ∧ editingProvider (typeBaseUrl u s) = editingProvider s.
Proof.
  unfold typeBaseUrl, handleBaseUrlChange. set (s1 := setField _ _ _).
  assert (E : editingProvider s1 = editingProvider s) by (by destruct s). rewrite <-E. clearbody s1. clear E.
  case_decide; [|by destruct s1].
  match goal with |- context [mergeFormValues ?vs ?s] => destruct (merge_rest vs s) as (a & b & ->) end; by destruct s1.
Qed.

Lemma preset_offered k : k ∈ obj_keys OAUTH_PRESETS → is_oauth_preset k = true ∧ k ≠ "".
Proof.
  intros H. split; [apply bool_decide_eq_true_2; set_solver|]. intros ->. revert H. apply (bool_decide_eq_false_1 (_ ∈ _)). done.
Qed.

Lemma issuer_get u s f : u ≠ "" → selectedPreset s ∈ obj_keys OAUTH_PRESETS → f ≠ "base_url" →
  get (theForm (typeBaseUrl u s)) f =
  default (get (theForm s) f) (obj_get (endpoint_urls (normalizeBaseUrl u) (selectedPreset s)) f).
Proof.
  intros Hu Hk Hf. destruct (preset_offered _ Hk) as [Hp Hn]. unfold typeBaseUrl, handleBaseUrlChange.
  replace (selectedPreset (setField "base_url" (VStr u) s)) with (selectedPreset s) by (by destruct s).
  rewrite decide_True by done. rewrite merge_get by (by apply distinct || by apply no_proto).
  f_equal. destruct s; simpl. rewrite get_field_set by done. by rewrite decide_False.
Qed.

(** The values a preset gives the fields, with the endpoints when the issuer
    address is known. *)
Definition chosen_values (k cleanUrl : string) : obj :=
  let values := obj_spread PRESET_RESET_VALUES
    ([("name", preset_field k "name"); ("slug", VStr k); ("icon", VStr (getPresetIcon k))] ++
     ((λ f, (f, preset_field k f)) <$> ["scopes"; "user_id_field"; "username_field"; "display_name_field"; "email_field"])) in
  if decide (cleanUrl = "") then values else obj_spread values (endpoint_urls cleanUrl k).

Lemma chosen_keys k u : obj_keys (chosen_values k u) = obj_keys PRESET_RESET_VALUES.
Proof. unfold chosen_values. by case_decide. Qed.

Lemma choose_get k s f : k ∈ obj_keys OAUTH_PRESETS → f ≠ "preset" →
  get (theForm (choosePreset k s)) f =
  default (get (theForm s) f) (obj_get (chosen_values k (normalizeBaseUrl (baseUrl s))) f).
Proof.
  intros Hk Hf. destruct (preset_offered _ Hk) as [Hp Hn]. unfold choosePreset, handlePresetChange. rewrite Hp. cbv zeta.
  replace (baseUrl (setInfo None (setPreset k (setField "preset" (VStr k) s)))) with (baseUrl s) by (by destruct s).
  fold (chosen_values k (normalizeBaseUrl (baseUrl s))).
  rewrite merge_get by (rewrite chosen_keys; first [by apply distinct|by apply no_proto]).
  f_equal. destruct s; simpl. rewrite get_field_set by done. by rewrite decide_False.
Qed.

Lemma chosen_fields k u : u ≠ "" →
  Forall (λ kv, obj_get (chosen_values k u) kv.1 = Some kv.2) (preset_values k u).
Proof. intros Hu. unfold chosen_values. rewrite decide_False by done. repeat constructor. Qed.

Lemma chosen_name k u : obj_get (chosen_values k u) "name" = Some (preset_field k "name") ∧
  obj_get (chosen_values k u) "slug" = Some (VStr k).
Proof. unfold chosen_values. by case_decide. Qed.

Lemma chosen_kept k u f : f ∉ obj_keys PRESET_RESET_VALUES → obj_get (chosen_values k u) f = None.
Proof. intros H. apply obj_get_None. by rewrite chosen_keys. Qed.

(** The two orders. *)
Definition both_orders (k u : string) (s : page) : list page :=
  [typeBaseUrl u (choosePreset k s); choosePreset k (typeBaseUrl u s)].

Lemma issuer_kept u s f : f ∉ "base_url" :: endpointFields → get (theForm (typeBaseUrl u s)) f = get (theForm s) f.
Proof.
  intros [Hb He]%not_elem_of_cons. unfold typeBaseUrl, handleBaseUrlChange.
  assert (E : get (theForm (setField "base_url" (VStr u) s)) f = get (theForm s) f).
  { rewrite setField_form, get_field_set by done. by rewrite decide_False. }
  rewrite <-E. case_decide; [|by destruct s].
  rewrite merge_get by (by apply distinct || by apply no_proto).
  rewrite (proj2 (obj_get_None (endpoint_urls _ _) f)) by (by rewrite endpoint_urls_keys). by destruct s.
Qed.

Lemma preset_named k : k ∈ obj_keys OAUTH_PRESETS → truthy (preset_field k "name") = true ∧ truthy (VStr k) = true.
Proof.
  intros Hk. pose (P k := truthy (preset_field k "name") = true ∧ truthy (VStr k) = true).
  assert (H : Forall P (obj_keys OAUTH_PRESETS)) by (repeat constructor). rewrite Forall_forall in H. by apply H.
Qed.

Lemma preset_complete k u s : k ∈ obj_keys OAUTH_PRESETS → is_full_url u = true → holds (preset_values k u) s →
  Forall (λ f, truthy (get (theForm s) f) = true) ["client_id"; "client_secret"] → complete false (theForm s).
Proof.
  intros Hk Hu Hv Hc. unfold holds, preset_values in Hv. apply Forall_app in Hv as [Hn He].
  assert (Hf : Forall (λ f, ∃ x, get (theForm s) f = VStr x ∧ is_full_url x = true) endpointFields).
  { apply Forall_forall. intros f Hf. rewrite Forall_forall in He.
    assert (Hin : (f, endpoint_url u k f) ∈ endpoint_urls u k) by (by apply (list_elem_of_fmap_2 (λ f, (f, endpoint_url u k f)))).
    specialize (He _ Hin). simpl in He. rewrite He. eexists. split; [done|]. by apply full_url_app. }
  split; [|done]. unfold endpointFields in Hf. rewrite !Forall_cons in Hn. rewrite !Forall_cons in Hc. rewrite !Forall_cons in Hf. destruct Hn as (Hn & Hl & _), Hc as (Hi & Hs & _), Hf as (H1 & H2 & H3 & _).
  assert (Ht : ∀ v, (∃ x, v = VStr x ∧ is_full_url x = true) → truthy v = true) by (by intros ? ([] & -> & ?)).
  destruct (preset_named k Hk) as [Hk1 Hk2]. simpl in Hn, Hl. rewrite <-Hn in Hk1. rewrite <-Hl in Hk2.
  repeat constructor; auto.
Qed.

Lemma both_orders_values k u s s' : k ∈ obj_keys OAUTH_PRESETS → normalizeBaseUrl u ≠ "" → s' ∈ both_orders k u s →
  holds (preset_values k (normalizeBaseUrl u)) s' ∧ editingProvider s' = editingProvider s ∧
  Forall (λ f, get (theForm s') f = get (theForm s) f) ["client_id"; "client_secret"].
Proof.
  intros Hk Hu. assert (Hu' : u ≠ "") by (by intros ->).
  intros [->|[->|[]%not_elem_of_nil]%elem_of_cons]%elem_of_cons.
  - destruct (choose_rest k s) as [Hs He]. destruct (issuer_rest u (choosePreset k s)) as [_ ->].
    destruct (chosen_name k (normalizeBaseUrl (baseUrl s))) as [Hn Hl].
    split; [|split; [done|]].
    + repeat constructor; simpl; rewrite issuer_get by (by rewrite ?Hs); rewrite ?Hs; simpl; try done;
        rewrite choose_get by done; [by rewrite Hn|by rewrite Hl].
    + repeat constructor; rewrite issuer_kept by (by apply (bool_decide_eq_false_1 (_ ∈ _)));
        rewrite choose_get by done; by rewrite chosen_kept by (by apply (bool_decide_eq_false_1 (_ ∈ _))).
  - destruct (choose_rest k (typeBaseUrl u s)) as [_ ->]. destruct (issuer_rest u s) as [Hb ->].
    split; [|split; [done|]].
    + pose proof (chosen_fields k _ Hu) as Hc. unfold holds. rewrite Forall_forall in Hc |- *. intros kv Hkv.
      rewrite choose_get, Hb, (Hc _ Hkv); [done|done|].
      intros E. apply (list_elem_of_fmap_2 fst) in Hkv. rewrite E in Hkv. by apply (bool_decide_eq_false_1 (_ ∈ _)) in Hkv.
    + repeat constructor; rewrite choose_get by done; rewrite chosen_kept by (by apply (bool_decide_eq_false_1 (_ ∈ _)));
        simpl; by apply issuer_kept, (bool_decide_eq_false_1 (_ ∈ _)).
Qed.

(** C32.  Choosing a preset and giving the address of the issuer, in either
    order, fills the three endpoints with the cleaned address followed by the paths of
    the preset; for a full address, with the credentials entered, saving then
    creates the provider. *)
Theorem preset_and_issuer_save t s k u s' :
  editingProvider s = None → k ∈ obj_keys OAUTH_PRESETS → is_full_url (normalizeBaseUrl u) = true →
  Forall (λ f, truthy (get (theForm s) f) = true) ["client_id"; "client_secret"] →
  s' ∈ both_orders k u s →
  holds (preset_values k (normalizeBaseUrl u)) s' ∧
  effects (handleSubmit t s') = effects s' ++ [Post "/api/custom-oauth-provider/" (payload (theForm s'))].
Proof.
  intros He Hk Hu Hc Hs. assert (Hn : normalizeBaseUrl u ≠ "") by (by intros E; rewrite E in Hu).
  destruct (both_orders_values k u s s' Hk Hn Hs) as (Hv & He' & Hc'). rewrite He in He'. split; [done|].
  rewrite submit_complete; [unfold save_request; rewrite He'; by destruct s'|].
  unfold editing. rewrite He'. simpl. apply preset_complete with (k := k) (u := normalizeBaseUrl u); try done.
  rewrite Forall_forall in Hc, Hc' |- *. intros f Hf. rewrite Hc' by done. auto.
Qed.

(** ** Witnesses *)

(** A provider being added, with its credentials. *)
Definition adding (id secret : string) : page :=
  setField "client_secret" (VStr secret) (setField "client_id" (VStr id) (handleAdd mount)).

Fixpoint until_slash (l : list ascii) : list ascii :=
  match l with c :: r => if decide (c = "/"%char) then [] else c :: until_slash r | [] => [] end.
Definition ex_origin (url : string) : option string :=
  if starts_with "https://" url then Some ("https://" +:+ of_chars (until_slash (drop 8 (chars url)))) else None.

Lemma adding_reachable t id secret : reachable t ex_origin (adding id secret).
Proof.
  eapply rtc_l; [exact (do t ex_origin mount Add I)|].
  eapply rtc_l; [exact (do t ex_origin _ (Type_ "client_id" (VStr id)) ltac:(done))|].
  eapply rtc_l; [exact (do t ex_origin _ (Type_ "client_secret" (VStr secret)) ltac:(done))|]. apply rtc_refl.
Qed.

Lemma filled_reachable t k u id secret : reachable t ex_origin (choosePreset k (typeBaseUrl u (adding id secret))).
Proof.
  eapply rtc_r; [eapply rtc_r; [apply adding_reachable|exact (do t ex_origin _ (Issuer u) I)]|exact (do t ex_origin _ (Choose k) I)].
Qed.

Lemma save_sends_shown_witness : ∃ body, sends (formValues (choosePreset "gitea" (typeBaseUrl "https://g.com/" (adding "a" "b")))) body ∧
  get body "token_endpoint" = VStr "https://g.com/login/oauth/access_token".
Proof.
  destruct (save_sends_shown (λ x, x) ex_origin _ (filled_reachable (λ x, x) "gitea" "https://g.com/" "a" "b")) as (_ & H & _).
  destruct H as (body & e & _ & _ & H); [vm_compute; repeat (constructor || eexists)|].
  exists body. split; [exact H|]. destruct H as (_ & _ & _ & H). rewrite H; [by vm_compute|].
  by apply (bool_decide_eq_false_1 (_ ∈ _)).
Defined.

Lemma preset_and_issuer_save_witness :
  get (theForm (typeBaseUrl " https://g.com/" (choosePreset "gitea" (adding "a" "b")))) "token_endpoint" =
    VStr "https://g.com/login/oauth/access_token" ∧
  effects (handleSubmit (λ x, x) (typeBaseUrl " https://g.com/" (choosePreset "gitea" (adding "a" "b")))) ≠ [].
Proof.
  destruct (preset_and_issuer_save (λ x, x) (adding "a" "b") "gitea" " https://g.com/"
    (typeBaseUrl " https://g.com/" (choosePreset "gitea" (adding "a" "b")))) as [_ H].
  - done.
  - by apply (bool_decide_eq_true_1 (_ ∈ _)).
  - done.
  - by repeat constructor.
  - by left.
  - split; [by vm_compute|]. rewrite H. by intros [_ ?]%app_eq_nil.
Defined.

(** ** Findings *)

(** The answer to a discovery is merged with the values of the click: it
    replaces a user id field typed while it was under way. *)
Lemma discovery_overwrites_typed t :
  let data := VObj [("token_endpoint", VStr "https://g.com/token"); ("claims_supported", VArr [VStr "sub"])] in
  let s := setField "well_known" (VStr "https://g.com/w") (setField "user_id_field" (VStr "") (handleAdd mount)) in
  let s1 := setField "user_id_field" (VStr "uid") (handleFetchFromDiscovery t s) in
  get (theForm s1) "user_id_field" = VStr "uid" ∧
  get (theForm (discoveryDone t (formValues s) "https://g.com/w" (Served (data, VUndef)) s1)) "user_id_field" = VStr "sub".
Proof. by vm_compute. Qed.

(** The answer fills whatever dialog is open: here one opened for another
    provider after the discovery was asked for. *)
Lemma discovery_fills_other_dialog t :
  let data := VObj [("token_endpoint", VStr "https://g.com/token")] in
  let other : obj := [("id", VNum (num_of_Z 2)); ("slug", VStr "x"); ("token_endpoint", VStr "https://other/token")] in
  let s := setField "well_known" (VStr "https://g.com/w") (handleAdd mount) in
  let s1 := handleEdit ex_origin other (closeModal (handleFetchFromDiscovery t s)) in
  let s2 := discoveryDone t (formValues s) "https://g.com/w" (Served (data, VUndef)) s1 in
  editingProvider s2 = Some other ∧ get (theForm s2) "token_endpoint" = VStr "https://g.com/token".
Proof. by vm_compute. Qed.

(** A slug such as [constructor] counts as a preset. *)
Lemma inherited_slug_is_preset :
  let p : obj := [("id", VNum (num_of_Z 1)); ("slug", VStr "constructor"); ("token_endpoint", VStr "https://g.com/token")] in
  get (theForm (typeBaseUrl "https://h.com" (handleEdit ex_origin p mount))) "token_endpoint" = VStr "https://h.comundefined".
Proof. by vm_compute. Qed.

(** The realm of a Keycloak address is a placeholder, which a save sends. *)
Lemma realm_placeholder_sent t :
  complete false (theForm (typeBaseUrl "https://k.com" (choosePreset "keycloak" (adding "a" "b")))) ∧
  get (theForm (typeBaseUrl "https://k.com" (choosePreset "keycloak" (adding "a" "b")))) "token_endpoint" =
    VStr "https://k.com/realms/{realm}/protocol/openid-connect/token" ∧
  effects (handleSubmit t (typeBaseUrl "https://k.com" (choosePreset "keycloak" (adding "a" "b")))) ≠
    effects (typeBaseUrl "https://k.com" (choosePreset "keycloak" (adding "a" "b"))).
Proof.
  split; [by apply (bool_decide_eq_true_1 (complete _ _))|]. split; [by vm_compute|].
  intros H%(f_equal length). vm_compute in H. done.
Qed.
