(* ===== verification/PaymentSettings.v ===== *)
(** * Payment settings

    [web/src/components/settings/PaymentSetting.jsx] and its four pages below
    [web/src/pages/Setting/Payment]: server address, payment gateway, Stripe and
    Creem with its products.

    The pages follow their form through [onValueChange] with
    [handleFormChange = (values) => setInputs(values)].  The form (see
    [FormCompat]) reports a change as an object of the changed field and an
    object of all fields; the pages take the first. *)
From Stdlib Require Import Ascii SpecFloat.
From stdpp Require Import relations.
From S2P Require Import Prelude JsString JsNumber JsValue Json FormCompat SettingsPages ChannelAffinity.

(** ** Data *)

Inductive part := General | Gateway | Stripe | Creem.

#[export] Instance part_eq_dec : EqDecision part.
Proof. solve_decision. Defined.

(** A request carries the page it is for. *)
Inductive request := PutOption (p : part) (key : string) (value : jsval) | GetOptions | ShowError (e : jsval) | ShowSuccess (text : string).

(** One page: [inputs], [originInputs] (not used by the first page), the values
    of its form and [loading]. *)
Record sub := Sub { sub_inputs : obj; sub_origin : obj; sub_form : obj; sub_loading : bool }.

Inductive job := JOptions | JSave (p : part) (ins : obj).

Record shop := Shop {
  options : obj; busy : bool; subs : part → sub;
  products : jsval; showProductModal : bool; editingProduct : option jsval; productForm : obj;
  jobs : list job; requests : list request }.

Definition setOptions (x : obj) (s : shop) : shop := let '(Shop _ b c d e f g h i) := s in Shop x b c d e f g h i.
Definition setBusy (x : bool) (s : shop) : shop := let '(Shop a _ c d e f g h i) := s in Shop a x c d e f g h i.
Definition setSub (p : part) (x : sub) (s : shop) : shop :=
  let '(Shop a b c d e f g h i) := s in Shop a b (λ q, if decide (q = p) then x else c q) d e f g h i.
Definition setProducts (x : jsval) (s : shop) : shop := let '(Shop a b c _ e f g h i) := s in Shop a b c x e f g h i.
Definition setDialog (v : bool) (p : option jsval) (o : obj) (s : shop) : shop :=
  let '(Shop a b c d _ _ _ h i) := s in Shop a b c d v p o h i.
Definition setJobs (x : list job) (s : shop) : shop := let '(Shop a b c d e f g _ i) := s in Shop a b c d e f g x i.
Definition request_all (l : list request) (s : shop) : shop :=
  let '(Shop a b c d e f g h i) := s in Shop a b c d e f g h (i ++ l).
Definition queue_job (j : job) (s : shop) : shop := setJobs (jobs s ++ [j]) s.

(** ** Loading *)

Definition to_float (v : jsval) : jsval := match to_str v with Ok x => VNum (parse_float x) | Throw _ => VUndef end.

(** [JSON.stringify(JSON.parse(x), null, 2)], the text itself when it is not
    JSON. *)
Definition pretty_json (x : string) : string := match json_parse x with Some v => stringify2 v | None => x end.

Definition default_options : obj :=
  [("ServerAddress", VStr ""); ("PayAddress", VStr ""); ("EpayId", VStr ""); ("EpayKey", VStr "");
   ("Price", VNum (str_to_num "7.3")); ("MinTopUp", VNum (num_of_Z 1)); ("TopupGroupRatio", VStr "");
   ("CustomCallbackAddress", VStr ""); ("PayMethods", VStr ""); ("AmountOptions", VStr ""); ("AmountDiscount", VStr "");
   ("StripeApiSecret", VStr ""); ("StripeWebhookSecret", VStr ""); ("StripePriceId", VStr "");
   ("StripeUnitPrice", VNum (num_of_Z 8)); ("StripeMinTopUp", VNum (num_of_Z 1)); ("StripePromotionCodesEnabled", VBool false)].

(** The option an item of the answer becomes. *)
Definition read_option (item : string * string) : string * jsval :=
  let '(key, value) := item in
  if decide (key = "TopupGroupRatio") then (key, VStr (pretty_json value))
  else if decide (key = "payment_setting.amount_options") then ("AmountOptions", VStr (pretty_json value))
  else if decide (key = "payment_setting.amount_discount") then ("AmountDiscount", VStr (pretty_json value))
  else if decide (key ∈ ["Price"; "MinTopUp"; "StripeUnitPrice"; "StripeMinTopUp"]) then (key, VNum (parse_float value))
  else if ends_with "Enabled" key then (key, VBool (toBoolean (VStr value)))
  else (key, VStr value).

Definition getOptions (data : list (string * string)) : obj :=
  foldl (λ o item, obj_set (read_option item).1 (read_option item).2 o) [] data.

Definition text_option (o : obj) (k : string) : string * jsval := (k, js_or (get o k) (VStr "")).
Definition number_option (o : obj) (k : string) (n : num) : string * jsval :=
  (k, if is_undef (get o k) then VNum n else to_float (get o k)).

(** [currentInputs] of each page. *)
Definition pretty_option (kv : string * jsval) : string * jsval :=
  (kv.1, match kv.2 with VStr x => if decide (x = "") then VStr x else VStr (pretty_json x) | v => v end).

Definition currentInputs (p : part) (o : obj) : obj :=
  match p with
  | General => [text_option o "ServerAddress"]
  | Gateway =>
      [text_option o "PayAddress"; text_option o "EpayId"; text_option o "EpayKey"; number_option o "Price" (str_to_num "7.3");
       number_option o "MinTopUp" (num_of_Z 1); text_option o "TopupGroupRatio"; text_option o "CustomCallbackAddress";
       text_option o "PayMethods"; pretty_option (text_option o "AmountOptions"); pretty_option (text_option o "AmountDiscount")]
  | Stripe =>
      [text_option o "StripeApiSecret"; text_option o "StripeWebhookSecret"; text_option o "StripePriceId";
       number_option o "StripeUnitPrice" (num_of_Z 8); number_option o "StripeMinTopUp" (num_of_Z 1);
       ("StripePromotionCodesEnabled",
        if is_undef (get o "StripePromotionCodesEnabled") then VBool false else get o "StripePromotionCodesEnabled")]
  | Creem =>
      [text_option o "CreemApiKey"; text_option o "CreemWebhookSecret"; ("CreemProducts", js_or (get o "CreemProducts") (VStr "[]"));
       ("CreemTestMode", VBool (is_str "true" (get o "CreemTestMode")))]
  end.

(** [setValues] of the form reports all of [currentInputs]. *)
Definition load_sub (p : part) (o : obj) (u : sub) : sub :=
  let current := currentInputs p o in
  Sub current current (foldl (λ f kv, obj_set kv.1 kv.2 f) (sub_form u) current) (sub_loading u).

Definition parsed_products (v : jsval) : jsval :=
  match to_str v with Ok x => default (VArr []) (json_parse x) | Throw _ => VArr [] end.

(** New options: the effect of every page runs. *)
Definition loaded (o : obj) (s : shop) : shop :=
  let s := setOptions o s in
  let s := foldl (λ s p, setSub p (load_sub p o (subs s p)) s) s [General; Gateway; Stripe; Creem] in
  setProducts (parsed_products (get (currentInputs Creem o) "CreemProducts")) s.

Definition onRefresh (s : shop) : shop := queue_job JOptions (request_all [GetOptions] (setBusy true s)).

Definition empty_product : obj :=
  [("name", VStr ""); ("productId", VStr ""); ("price", VNum (num_of_Z 0)); ("quota", VNum (num_of_Z 0)); ("currency", VStr "USD")].

Definition initial_inputs (p : part) : obj := currentInputs p (if decide (p = Creem) then [] else default_options).
Definition start : shop :=
  onRefresh (loaded default_options
    (Shop default_options false (λ p, Sub (initial_inputs p) [] (initial_inputs p) false) (VArr []) false None empty_product [] [])).

Section page.
Variable t : string → string.

(** The answer: rejected, refused with a message, or the options. *)
Definition optionsDone (r : option (string + list (string * string))) (s : shop) : shop :=
  setBusy false
    match r with
    | None => request_all [ShowError (VStr (t "刷新失败"))] s
    | Some (inl m) => request_all [ShowError (VStr (t m))] s
    | Some (inr data) => loaded (getOptions data) s
    end.

(** ** Editing *)

(** A field of a form changes: [handleFormChange] gets the changed field. *)
Definition edit (p : part) (f : string) (v : jsval) (s : shop) : shop :=
  let u := subs s p in setSub p (Sub [(f, v)] (sub_origin u) (obj_set f v (sub_form u)) (sub_loading u)) s.

(** ** Saving *)

Definition removeTrailingSlash (v : jsval) : res jsval :=
  if truthy v then
    match v with
    | VStr x => Ok (VStr (if ends_with "/" x then of_chars (removelast (chars x)) else x))
    | VArr _ | VObj _ | VBool _ | VNum _ => Throw "url.endsWith is not a function"
    | _ => Ok (VStr "")
    end
  else Ok (VStr "").

Definition verifyJSON (v : jsval) : bool :=
  match to_str v with Ok x => bool_decide (is_Some (json_parse x)) | Throw _ => false end.

(** [v.toString()]. *)
Definition to_string (v : jsval) : res jsval :=
  if is_nullish v then Throw "Cannot read properties" else x ← to_str v; Ok (VStr x).

(** [v.trim() !== '']. *)
Definition not_blank (v : jsval) : res bool :=
  match v with VStr x => Ok (negb (bool_decide (trim x = ""))) | _ => Throw "trim is not a function" end.

Definition changed (origin ins : obj) (k : string) : bool := negb (js_same (get origin k) (get ins k)).

(** A changed text that is not JSON; [blank] allows a blank one. *)
Definition bad_json (origin ins : obj) (blank : bool) (k : string) : res bool :=
  if changed origin ins k then
    needed ← (if blank then not_blank (get ins k) else Ok true);
    Ok (needed && negb (verifyJSON (get ins k)))
  else Ok false.

(** The error the gateway page shows before it sends, if there is one. *)
Definition gateway_check (opts origin ins : obj) : res (option string) :=
  if js_same (get opts "ServerAddress") (VStr "") then Ok (Some "请先填写服务器地址")
  else
    a ← bad_json origin ins false "TopupGroupRatio";
    if (a : bool) then Ok (Some "充值分组倍率不是合法的 JSON 字符串") else
    b ← bad_json origin ins false "PayMethods";
    if (b : bool) then Ok (Some "充值方式设置不是合法的 JSON 字符串") else
    c ← bad_json origin ins true "AmountOptions";
    if (c : bool) then Ok (Some "自定义充值数量选项不是合法的 JSON 数组") else
    d ← bad_json origin ins true "AmountDiscount";
    Ok (if (d : bool) then Some "充值金额折扣配置不是合法的 JSON 对象" else None).

Definition if_ (b : bool) (l : list (string * jsval)) : list (string * jsval) := if b then l else [].
Definition filled (v : jsval) : bool := negb (js_same v (VStr "")).

(** The options each page sends. *)
Definition gateway_options (origin ins : obj) : res (list (string * jsval)) :=
  let i k := get ins k in
  address ← removeTrailingSlash (i "PayAddress");
  price ← (if filled (i "Price") then x ← to_string (i "Price"); Ok [("Price", x)] else Ok []);
  minimum ← (if filled (i "MinTopUp") then x ← to_string (i "MinTopUp"); Ok [("MinTopUp", x)] else Ok []);
  Ok ([("PayAddress", address)] ++ if_ (filled (i "EpayId")) [("EpayId", i "EpayId")] ++
      if_ (negb (is_undef (i "EpayKey")) && filled (i "EpayKey")) [("EpayKey", i "EpayKey")] ++ price ++ minimum ++
      if_ (filled (i "CustomCallbackAddress")) [("CustomCallbackAddress", i "CustomCallbackAddress")] ++
      if_ (changed origin ins "TopupGroupRatio") [("TopupGroupRatio", i "TopupGroupRatio")] ++
      if_ (changed origin ins "PayMethods") [("PayMethods", i "PayMethods")] ++
      if_ (changed origin ins "AmountOptions") [("payment_setting.amount_options", i "AmountOptions")] ++
      if_ (changed origin ins "AmountDiscount") [("payment_setting.amount_discount", i "AmountDiscount")]).

Definition stripe_number (ins : obj) (k : string) : res (list (string * jsval)) :=
  if is_nullish (get ins k) then Ok [] else x ← to_string (get ins k); Ok [(k, x)].

Definition stripe_options (origin ins : obj) : res (list (string * jsval)) :=
  let i k := get ins k in
  unit ← stripe_number ins "StripeUnitPrice";
  minimum ← stripe_number ins "StripeMinTopUp";
  Ok (if_ (truthy (i "StripeApiSecret")) [("StripeApiSecret", i "StripeApiSecret")] ++
      if_ (truthy (i "StripeWebhookSecret")) [("StripeWebhookSecret", i "StripeWebhookSecret")] ++
      if_ (filled (i "StripePriceId")) [("StripePriceId", i "StripePriceId")] ++ unit ++ minimum ++
      if_ (changed origin ins "StripePromotionCodesEnabled" && negb (is_undef (i "StripePromotionCodesEnabled")))
        [("StripePromotionCodesEnabled", VStr (if truthy (i "StripePromotionCodesEnabled") then "true" else "false"))]).

Definition creem_options (prods : jsval) (ins : obj) : list (string * jsval) :=
  let i k := get ins k in
  if_ (truthy (i "CreemApiKey")) [("CreemApiKey", i "CreemApiKey")] ++
  if_ (truthy (i "CreemWebhookSecret")) [("CreemWebhookSecret", i "CreemWebhookSecret")] ++
  [("CreemTestMode", VStr (if truthy (i "CreemTestMode") then "true" else "false")); ("CreemProducts", VStr (stringify prods))].

Definition general_options (ins : obj) : res (list (string * jsval)) :=
  x ← removeTrailingSlash (get ins "ServerAddress"); Ok [("ServerAddress", x)].

Definition page_options (p : part) (s : shop) : res (list (string * jsval)) :=
  let u := subs s p in
  match p with
  | General => general_options (sub_inputs u)
  | Gateway => gateway_options (sub_origin u) (sub_inputs u)
  | Stripe => stripe_options (sub_origin u) (sub_inputs u)
  | Creem => Ok (creem_options (products s) (sub_inputs u))
  end.

(** What a page checks before it starts. *)
Definition page_check (p : part) (s : shop) : res (option string) :=
  let u := subs s p in
  match p with
  | Gateway => gateway_check (options s) (sub_origin u) (sub_inputs u)
  | Stripe => Ok (if js_same (get (options s) "ServerAddress") (VStr "") then Some "请先填写服务器地址" else None)
  | _ => Ok None
  end.

Definition sub_busy (p : part) (b : bool) (s : shop) : shop :=
  let u := subs s p in setSub p (Sub (sub_inputs u) (sub_origin u) (sub_form u) b) s.

(** A check that throws ends the handler; an option that throws is caught. *)
Definition submit (p : part) (s : shop) : shop :=
  match page_check p s with
  | Throw _ => s
  | Ok (Some m) => request_all [ShowError (VStr (t m))] s
  | Ok None =>
      match page_options p s with
      | Throw _ => request_all [ShowError (VStr (t "更新失败"))] s
      | Ok l => queue_job (JSave p (sub_inputs (subs s p)))
                  (request_all ((λ kv, PutOption p kv.1 kv.2) <$> l) (sub_busy p true s))
      end
  end.

(** The answers of a save: [None] when one was rejected, else the messages of
    the refused ones. *)
Definition saveDone (p : part) (ins : obj) (r : option (list jsval)) (s : shop) : shop :=
  sub_busy p false
    match r with
    | None => request_all [ShowError (VStr (t "更新失败"))] s
    | Some [] =>
        let s := request_all [ShowSuccess (t "更新成功")] s in
        let u := subs s p in
        onRefresh (setSub p (Sub (sub_inputs u) (if decide (p = General) then sub_origin u else ins) (sub_form u) (sub_loading u)) s)
    | Some ms => request_all (ShowError <$> ms) s
    end.

(** ** Products *)

Definition openProductModal (product : option jsval) (s : shop) : shop :=
  match product with
  | Some v => setDialog true (Some v) (spread_props v) s
  | None => setDialog true None empty_product s
  end.
Definition closeProductModal (s : shop) : shop := setDialog false None empty_product s.

(** A field of the dialog; the product id cannot be changed while editing. *)
Definition setProductField (f : string) (v : jsval) (s : shop) : shop :=
  if decide (f = "productId" ∧ is_Some (editingProduct s)) then s
  else setDialog (showProductModal s) (editingProduct s) (obj_define f v (productForm s)) s.

Definition not_positive (v : jsval) : bool := match to_num v with Ok n => num_leb n (num_of_Z 0) | Throw _ => false end.

Definition incomplete (o : obj) : bool :=
  negb (truthy (get o "name")) || negb (truthy (get o "productId")) || not_positive (get o "price") ||
  not_positive (get o "quota") || negb (truthy (get o "currency")).

Definition elements (v : jsval) : res (list jsval) :=
  match v with
  | VArr l => Ok l
  | VStr x => Ok ((λ c, VStr (String c "")) <$> chars x)
  | _ => Throw "products is not iterable"
  end.

(** The index of the first product with this id. *)
Fixpoint find_product (id : jsval) (l : list jsval) : res (option nat) :=
  match l with
  | [] => Ok None
  | p :: l => x ← prop p "productId"; if js_same x id then Ok (Some 0) else i ← find_product id l; Ok (option_map S i)
  end.

Definition saveProduct (s : shop) : shop :=
  let o := productForm s in
  if incomplete o then request_all [ShowError (VStr (t "请填写完整的产品信息"))] s
  else
    match (l ← elements (products s); i ← find_product (match editingProduct s with Some e => prop_opt e "productId" | None => get o "productId" end) l;
           Ok (l, i)) with
    | Throw _ => s
    | Ok (l, i) =>
        match editingProduct s, i with
        | Some _, Some i => closeProductModal (setProducts (VArr (<[i := VObj o]> l)) s)
        | Some _, None => closeProductModal (setProducts (VArr l) s)
        | None, Some _ => request_all [ShowError (VStr (t "产品ID已存在"))] s
        | None, None => closeProductModal (setProducts (VArr (l ++ [VObj o])) s)
        end
    end.

Fixpoint without_product (id : jsval) (l : list jsval) : res (list jsval) :=
  match l with
  | [] => Ok []
  | p :: l => x ← prop p "productId"; l ← without_product id l; Ok (if js_same x id then l else p :: l)
  end.

Definition deleteProduct (id : jsval) (s : shop) : shop :=
  match products s with
  | VArr l => match without_product id l with Ok l => setProducts (VArr l) s | Throw _ => s end
  | _ => s
  end.
End page.

(** ** Sessions *)

Inductive action :=
| Edit (p : part) (f : string) (v : jsval) | Save (p : part) | OpenNew | OpenRow (i : nat) | CloseDialog
| Field (f : string) (v : jsval) | Keep | Remove (id : jsval).

Section session.
Variable t : string → string.

Definition act (a : action) (s : shop) : shop :=
  match a with
  | Edit p f v => edit p f v s
  | Save p => submit t p s
  | OpenNew => openProductModal None s
  | OpenRow i => match products s with
                 | VArr l => match l !! i with Some v => openProductModal (Some v) s | None => s end
                 | _ => s
                 end
  | CloseDialog => closeProductModal s
  | Field f v => setProductField f v s
  | Keep => saveProduct t s
  | Remove id => deleteProduct id s
  end.

(** The field of the product id holds texts. *)
Definition act_ok (a : action) : Prop := match a with Field "productId" v => ∃ x, v = VStr x | _ => True end.

(** [session os s]: [s] was reached, and the pages were loaded with the options
    [os], in this order. *)
Inductive session : list obj → shop → Prop :=
| started : session [default_options] start
| acted os s a : session os s → act_ok a → session os (act a s)
| options_failed os s r l1 l2 : session os s → jobs s = l1 ++ JOptions :: l2 →
    (r = None ∨ ∃ m, r = Some (inl m)) → session os (optionsDone t r (setJobs (l1 ++ l2) s))
| options_loaded os s data l1 l2 : session os s → jobs s = l1 ++ JOptions :: l2 →
    session (os ++ [getOptions data]) (optionsDone t (Some (inr data)) (setJobs (l1 ++ l2) s))
| save_answered os s p ins r l1 l2 : session os s → jobs s = l1 ++ JSave p ins :: l2 →
    session os (saveDone t p ins r (setJobs (l1 ++ l2) s)).
End session.

(** ** What the pages send *)

(** The value an option of the gateway has for given inputs. *)
Definition gateway_value (ins : obj) (k : string) : res jsval :=
  if decide (k = "PayAddress") then removeTrailingSlash (get ins "PayAddress")
  else if decide (k ∈ ["Price"; "MinTopUp"]) then to_string (get ins k)
  else if decide (k = "payment_setting.amount_options") then Ok (get ins "AmountOptions")
  else if decide (k = "payment_setting.amount_discount") then Ok (get ins "AmountDiscount")
  else Ok (get ins k).

Lemma elem_of_if_ b l (kv : string * jsval) : kv ∈ if_ b l → kv ∈ l.
Proof. by destruct b; [|intros ?%elem_of_nil]. Qed.

Lemma gateway_options_values origin ins l k v :
  gateway_options origin ins = Ok l → (k, v) ∈ l → gateway_value ins k = Ok v.
Proof.
  unfold gateway_options, mbind, res_bind. intros H Hin.
  destruct (removeTrailingSlash (get ins "PayAddress")) as [a|] eqn:Ea; [|done].
  destruct (if filled (get ins "Price") then _ else _) as [p|] eqn:Ep; [|done].
  destruct (if filled (get ins "MinTopUp") then _ else _) as [m|] eqn:Em; [|done].
  injection H as <-.
  assert (Hp : (k, v) ∈ p → k = "Price" ∧ to_string (get ins k) = Ok v).
  { intros Hp. destruct (filled (get ins "Price")); simplify_eq; [|by apply elem_of_nil in Hp].
    destruct (to_string (get ins "Price")) eqn:E; simplify_eq. apply list_elem_of_singleton in Hp. by simplify_eq. }
  assert (Hm : (k, v) ∈ m → k = "MinTopUp" ∧ to_string (get ins k) = Ok v).
  { intros Hm. destruct (filled (get ins "MinTopUp")); simplify_eq; [|by apply elem_of_nil in Hm].
    destruct (to_string (get ins "MinTopUp")) eqn:E; simplify_eq. apply list_elem_of_singleton in Hm. by simplify_eq. }
  apply elem_of_cons in Hin as [Hin|Hin]; [by simplify_eq|].
  repeat apply elem_of_app in Hin as [Hin|Hin].
  all: first [apply Hp in Hin as [-> Hv]; exact Hv | apply Hm in Hin as [-> Hv]; exact Hv
             | try apply elem_of_if_ in Hin; apply list_elem_of_singleton in Hin; simplify_eq; done].
Qed.

Lemma changed_undef origin ins k : get origin k ≠ VUndef → get ins k = VUndef → changed origin ins k = true.
Proof. unfold changed. intros Ho ->. by destruct (get origin k). Qed.

Lemma bad_json_undef origin ins k : get origin k ≠ VUndef → get ins k = VUndef → bad_json origin ins false k = Ok true.
Proof. intros Ho Hi. unfold bad_json. rewrite changed_undef, Hi by done. done. Qed.

Lemma bad_json_Ok origin ins k : ∃ b, bad_json origin ins false k = Ok b.
Proof. unfold bad_json. destruct (changed origin ins k); simpl; eauto. Qed.

Lemma get_single f v k : f ≠ k → get [(f, v)] k = VUndef.
Proof. intros H. unfold get, obj_get. by case_decide. Qed.

(** With one field only, the check of the gateway fails. *)
Lemma single_refused opts origin f v : get origin "TopupGroupRatio" ≠ VUndef → get origin "PayMethods" ≠ VUndef →
  ∃ m, gateway_check opts origin [(f, v)] = Ok (Some m).
Proof.
  intros Ht Hp. unfold gateway_check. destruct (js_same _ _); [eauto|].
  destruct (decide (f = "TopupGroupRatio")) as [->|Hf].
  - destruct (bad_json_Ok origin [("TopupGroupRatio", v)] "TopupGroupRatio") as [[] ->]; simpl; [eauto|].
    rewrite bad_json_undef by done. simpl. eauto.
  - rewrite (bad_json_undef origin [(f, v)] "TopupGroupRatio"); [simpl; eauto|done|]. by apply get_single.
Qed.

Lemma js_or_text v x : js_or v (VStr x) ≠ VUndef.
Proof. unfold js_or. by destruct v; simpl; try case_match. Qed.

Definition both_set (o : obj) : Prop := get o "TopupGroupRatio" ≠ VUndef ∧ get o "PayMethods" ≠ VUndef.

Lemma current_set o : both_set (currentInputs Gateway o).
Proof. split; apply js_or_text. Qed.

(** The invariant of the gateway page. *)
Record gateway_inv (os : list obj) (s : shop) : Prop := {
  g_inputs : (∃ o, o ∈ os ∧ sub_inputs (subs s Gateway) = currentInputs Gateway o) ∨
             (∃ f v, sub_inputs (subs s Gateway) = [(f, v)]);
  g_origin : both_set (sub_origin (subs s Gateway));
  g_jobs : ∀ ins, JSave Gateway ins ∈ jobs s → both_set ins;
  g_sent : ∀ k v, PutOption Gateway k v ∈ requests s → ∃ o, o ∈ os ∧ gateway_value (currentInputs Gateway o) k = Ok v }.

Lemma setSub_same p x s : subs (setSub p x s) p = x.
Proof. destruct s; simpl. by rewrite decide_True. Qed.
Lemma setSub_other p q x s : q ≠ p → subs (setSub p x s) q = subs s q.
Proof. intros. destruct s; simpl. by rewrite decide_False. Qed.
Lemma setSub_rest p x s : jobs (setSub p x s) = jobs s ∧ requests (setSub p x s) = requests s.
Proof. by destruct s. Qed.

(** A state that differs in nothing the gateway page sees. *)
Lemma gateway_frame os s s' : subs s' Gateway = subs s Gateway → jobs s' = jobs s → requests s' = requests s →
  gateway_inv os s → gateway_inv os s'.
Proof. intros E1 E2 E3 [H1 H2 H3 H4]. split; rewrite ?E1, ?E2, ?E3; done. Qed.

(** Notices and requests of other pages. *)
Definition foreign (e : request) : Prop := match e with PutOption Gateway _ _ => False | _ => True end.

Lemma gateway_requests os s l : Forall foreign l → gateway_inv os s → gateway_inv os (request_all l s).
Proof.
  intros Hl [H1 H2 H3 H4]. destruct s; split; simpl in *; try done.
  intros k v [Hin|Hin]%elem_of_app; [by apply H4|]. rewrite Forall_forall in Hl. by apply Hl in Hin.
Qed.

Lemma gateway_jobs os s l : (∀ ins, JSave Gateway ins ∈ l → both_set ins) → gateway_inv os s → gateway_inv os (setJobs l s).
Proof. intros Hl [H1 H2 H3 H4]. by destruct s; split. Qed.

Lemma gateway_queue os s j : (∀ ins, j = JSave Gateway ins → both_set ins) → gateway_inv os s → gateway_inv os (queue_job j s).
Proof.
  intros Hj H. apply gateway_jobs; [|done]. intros ins [Hin|Hin]%elem_of_app; [by eapply g_jobs|].
  apply list_elem_of_singleton in Hin. by apply Hj.
Qed.

Lemma gateway_sub os s u : (∃ o, o ∈ os ∧ sub_inputs u = currentInputs Gateway o) ∨ (∃ f v, sub_inputs u = [(f, v)]) →
  both_set (sub_origin u) → gateway_inv os s → gateway_inv os (setSub Gateway u s).
Proof.
  intros Hu Ho [H1 H2 H3 H4]. destruct (setSub_rest Gateway u s) as [Ej Er].
  split; rewrite ?setSub_same, ?Ej, ?Er; done.
Qed.

Lemma gateway_other os s p u : p ≠ Gateway → gateway_inv os s → gateway_inv os (setSub p u s).
Proof. intros Hp. destruct (setSub_rest p u s). apply gateway_frame; [by apply setSub_other|done..]. Qed.

Lemma gateway_busy os s p b : gateway_inv os s → gateway_inv os (sub_busy p b s).
Proof.
  intros H. unfold sub_busy. destruct (decide (p = Gateway)) as [->|Hp]; [|by apply gateway_other].
  apply gateway_sub; [apply (g_inputs _ _ H)|apply (g_origin _ _ H)|done].
Qed.

Lemma gateway_refresh os s : gateway_inv os s → gateway_inv os (onRefresh s).
Proof.
  intros H. apply gateway_queue; [done|]. apply gateway_requests; [by repeat constructor|].
  by apply (gateway_frame _ s); [destruct s..|].
Qed.

Lemma gateway_submit t os s p : gateway_inv os s → gateway_inv os (submit t p s).
Proof.
  intros H. unfold submit. destruct (page_check p s) as [[m|]|] eqn:Ec; [by apply gateway_requests; [repeat constructor|]| |done].
  destruct (page_options p s) as [l|] eqn:El; [|by apply gateway_requests; [repeat constructor|]].
  destruct (decide (p = Gateway)) as [->|Hp].
  - destruct (g_inputs _ _ H) as [(o & Ho & Hi)|(f & v & Hi)].
    + simpl in El. rewrite Hi in El. apply gateway_queue.
      * intros ins [= <-]. rewrite Hi. apply current_set.
      * apply (gateway_busy _ _ Gateway true) in H. destruct H as [H1 H2 H3 H4].
        revert H1 H2 H3 H4. generalize (sub_busy Gateway true s). intros [] H1 H2 H3 H4. split; simpl in *; try done.
        intros k v [Hin|Hin]%elem_of_app; [by apply H4|]. apply list_elem_of_fmap in Hin as ([k' v'] & E & Hin).
        simplify_eq. exists o. split; [done|]. by eapply gateway_options_values.
    + exfalso. simpl in Ec. rewrite Hi in Ec. destruct (g_origin _ _ H) as [Ht Hm].
      destruct (single_refused (options s) (sub_origin (subs s Gateway)) f v Ht Hm) as [m E]. congruence.
  - apply gateway_queue; [naive_solver|]. apply gateway_requests; [|by apply gateway_busy].
    apply Forall_forall. intros e Hin. apply list_elem_of_fmap in Hin as (? & -> & _). by destruct p.
Qed.

Lemma gateway_more os os' s : gateway_inv os s → gateway_inv (os ++ os') s.
Proof. intros [H1 H2 H3 H4]. split; [|done|done|]; [destruct H1 as [(o & ? & ?)|?]; [left|by right]|]; set_solver. Qed.

Lemma loaded_rest o s : jobs (loaded o s) = jobs s ∧ requests (loaded o s) = requests s ∧
  ∀ p, subs (loaded o s) p = load_sub p o (subs s p).
Proof. destruct s. unfold loaded. simpl. repeat split. intros []; by repeat case_decide. Qed.

Lemma gateway_loaded os s o : o ∈ os → gateway_inv os s → gateway_inv os (loaded o s).
Proof.
  intros Ho [H1 H2 H3 H4]. destruct (loaded_rest o s) as (Ej & Er & Es). split; rewrite ?Ej, ?Er, ?Es; try done.
  - left. by exists o.
  - apply current_set.
Qed.

Lemma gateway_act t os s a : gateway_inv os s → gateway_inv os (act t a s).
Proof.
  intros H. destruct a as [p f v|p| |i| |f v| |id]; simpl.
  - unfold edit. destruct (decide (p = Gateway)) as [->|Hp]; [|by apply gateway_other].
    apply gateway_sub; [right; by exists f, v|apply (g_origin _ _ H)|done].
  - by apply gateway_submit.
  - by apply (gateway_frame _ s); [destruct s..|].
  - destruct (products s); try done. case_match; [|done]. by apply (gateway_frame _ s); [destruct s..|].
  - by apply (gateway_frame _ s); [destruct s..|].
  - unfold setProductField. case_decide; [done|]. by apply (gateway_frame _ s); [destruct s..|].
  - unfold saveProduct. destruct (incomplete _); [by apply gateway_requests; [repeat constructor|]|].
    destruct (_ ≫= _) as [[l i]|]; [|done].
    destruct (editingProduct s), i; first [by apply gateway_requests; [repeat constructor|]
      |by apply (gateway_frame _ s); [destruct s..|]].
  - unfold deleteProduct. destruct (products s); try done. destruct (without_product _ _); [|done].
    by apply (gateway_frame _ s); [destruct s..|].
Qed.

Lemma gateway_saveDone t os s p ins r : (p = Gateway → both_set ins) → gateway_inv os s → gateway_inv os (saveDone t p ins r s).
Proof.
  intros Hi H. unfold saveDone. apply gateway_busy. destruct r as [[|m ms]|].
  - apply gateway_refresh. set (s1 := request_all _ s).
    assert (H1 : gateway_inv os s1) by (apply gateway_requests; [by repeat constructor|done]).
    destruct (decide (p = Gateway)) as [->|Hp]; [|by apply gateway_other].
    apply gateway_sub; [apply (g_inputs _ _ H1)|by apply Hi|done].
  - apply gateway_requests; [|done]. apply Forall_forall. intros e Hin. by apply list_elem_of_fmap in Hin as (? & -> & _).
  - by apply gateway_requests; [repeat constructor|].
Qed.

Lemma gateway_drop os s l1 j l2 : jobs s = l1 ++ j :: l2 → gateway_inv os s → gateway_inv os (setJobs (l1 ++ l2) s).
Proof.
  intros Hj H. apply gateway_jobs; [|done]. intros ins Hin. apply (g_jobs _ _ H). rewrite Hj. set_solver.
Qed.

Lemma gateway_setBusy os s b : gateway_inv os s → gateway_inv os (setBusy b s).
Proof. by apply gateway_frame; destruct s. Qed.

Lemma session_gateway t os s : session t os s → gateway_inv os s.
Proof.
  induction 1 as [|os s a _ IH _|os s r l1 l2 _ IH Hj Hr|os s data l1 l2 _ IH Hj|os s p ins r l1 l2 _ IH Hj].
  - split; simpl; [left; exists default_options; split; [set_solver|done]|apply current_set|set_solver|set_solver].
  - by apply gateway_act.
  - apply (gateway_drop _ _ _ _ _ Hj) in IH. unfold optionsDone.
    apply gateway_setBusy.
    destruct Hr as [->|[m ->]]; by apply gateway_requests; [repeat constructor|].
  - apply (gateway_drop _ _ _ _ _ Hj), (gateway_more _ [getOptions data]) in IH. unfold optionsDone.
    apply gateway_setBusy. by apply gateway_loaded; [set_solver|].
  - apply gateway_saveDone; [|by eapply gateway_drop]. intros ->. apply (g_jobs _ _ IH). rewrite Hj. set_solver.
Qed.

(** C22.  The gateway page never sends an edit: in every session, every value it
    sends is the one some options of the service were loaded with, since one
    changed field replaces all inputs and the check of the JSON fields then
    fails. *)
Theorem gateway_sends_loaded t os s k v :
  session t os s → PutOption Gateway k v ∈ requests s →
  ∃ o, o ∈ os ∧ gateway_value (currentInputs Gateway o) k = Ok v.
Proof. intros H%session_gateway. apply (g_sent _ _ H). Qed.

(** ** Products *)

Definition product_ok (v : jsval) : Prop := ∃ o x, v = VObj o ∧ get o "productId" = VStr x ∧ incomplete o = false.
Definition id_of (v : jsval) : string := match prop_opt v "productId" with VStr x => x | _ => "" end.
Definition products_ok (v : jsval) : Prop := ∃ l, v = VArr l ∧ Forall product_ok l ∧ NoDup (id_of <$> l).

Record creem_inv (s : shop) : Prop := {
  c_products : products_ok (products s);
  c_form : ∃ x, get (productForm s) "productId" = VStr x ∧
           ∀ e, editingProduct s = Some e → prop_opt e "productId" = VStr x;
  c_sent : ∀ v, PutOption Creem "CreemProducts" v ∈ requests s → ∃ l, v = VStr (stringify (VArr l)) ∧ products_ok (VArr l) }.

Lemma find_product_spec x l : Forall product_ok l →
  match find_product (VStr x) l with
  | Ok (Some i) => ∃ p, l !! i = Some p ∧ id_of p = x
  | Ok None => x ∉ id_of <$> l
  | Throw _ => False
  end.
Proof.
  induction 1 as [|p l (o & y & -> & Hy & _) _ IH]; simpl; [set_solver|]. unfold mbind, res_bind.
  replace (default VUndef (obj_get o "productId")) with (VStr y) by done. simpl. case_bool_decide as Hxy.
  - exists (VObj o). split; [done|]. unfold id_of. simpl. fold (get o "productId"). by rewrite Hy.
  - destruct (find_product (VStr x) l) as [[i|]|]; simpl; [exact IH| |done].
    unfold id_of at 1. simpl. fold (get o "productId"). rewrite Hy. set_solver.
Qed.

Lemma without_product_ok id l : Forall product_ok l → ∃ l', without_product id l = Ok l' ∧ l' `sublist_of` l.
Proof.
  induction 1 as [|p l (o & y & -> & Hy & _) _ (l' & IH & Hs)]; simpl; [by exists []|]. unfold mbind, res_bind.
  rewrite IH. eexists. split; [done|]. case_match; by constructor.
Qed.

Lemma sublist_products l l' : products_ok (VArr l) → l' `sublist_of` l → products_ok (VArr l').
Proof.
  intros (l0 & [= <-] & Hf & Hn) Hs. exists l'. split; [done|]. split.
  - rewrite Forall_forall in Hf |- *. intros x Hx. apply Hf. by eapply elem_of_sublist.
  - eapply sublist_NoDup; [exact Hn|]. by apply fmap_sublist.
Qed.

Lemma insert_product l i p q : products_ok (VArr l) → l !! i = Some p → product_ok q → id_of q = id_of p →
  products_ok (VArr (<[i := q]> l)).
Proof.
  intros (l0 & [= <-] & Hf & Hn) Hi Hq E. exists (<[i := q]> l). split; [done|]. split; [by apply Forall_insert|].
  rewrite list_fmap_insert, E. replace (<[i := id_of p]> (id_of <$> l)) with (id_of <$> l); [done|].
  symmetry. apply list_insert_id. by rewrite list_lookup_fmap, Hi.
Qed.

Lemma append_product l q : products_ok (VArr l) → product_ok q → id_of q ∉ id_of <$> l → products_ok (VArr (l ++ [q])).
Proof.
  intros (l0 & [= <-] & Hf & Hn) Hq E. exists (l ++ [q]). split; [done|]. split.
  - by apply Forall_app_2; [|apply Forall_singleton].
  - rewrite fmap_app. apply NoDup_app. split; [done|]. split; [|apply NoDup_singleton]. set_solver.
Qed.

Lemma creem_frame s s' : products s' = products s → editingProduct s' = editingProduct s → productForm s' = productForm s →
  requests s' = requests s → creem_inv s → creem_inv s'.
Proof. intros E1 E2 E3 E4 [H1 H2 H3]. split; rewrite ?E1, ?E2, ?E3, ?E4; done. Qed.

Lemma creem_requests s l : (∀ v, PutOption Creem "CreemProducts" v ∈ l → v = VStr (stringify (products s))) →
  creem_inv s → creem_inv (request_all l s).
Proof.
  intros Hl [H1 H2 H3]. destruct s; split; simpl in *; try done. intros v [Hin|Hin]%elem_of_app; [by apply H3|].
  apply Hl in Hin as ->. destruct H1 as (l' & -> & ?). exists l'. split; [done|]. by exists l'.
Qed.

Lemma creem_notice s e : (∀ p k v, e ≠ PutOption p k v) → creem_inv s → creem_inv (request_all [e] s).
Proof. intros He. apply creem_requests. intros v Hin%list_elem_of_singleton. by destruct (He _ _ _ (eq_sym Hin)). Qed.

Lemma page_options_keys p s l v : p ≠ Creem → page_options p s = Ok l → PutOption Creem "CreemProducts" v ∉ (λ kv, PutOption p kv.1 kv.2) <$> l.
Proof. intros Hp _ Hin. apply list_elem_of_fmap in Hin as (? & [= ? _ _] & _). congruence. Qed.

Lemma creem_submit t s p : creem_inv s → creem_inv (submit t p s).
Proof.
  intros H. unfold submit. destruct (page_check p s) as [[m|]|]; [by apply creem_notice| |done].
  destruct (page_options p s) as [l|] eqn:El; [|by apply creem_notice].
  set (s1 := sub_busy p true s).
  assert (H1 : creem_inv s1) by (by apply (creem_frame s); [destruct s..|]).
  assert (Ep : products s1 = products s) by (by destruct s).
  apply (creem_frame (request_all ((λ kv, PutOption p kv.1 kv.2) <$> l) s1)); [by destruct (request_all _ s1)..|].
  apply creem_requests; [|done]. intros v Hin. rewrite Ep. destruct (decide (p = Creem)) as [->|Hp].
  - simpl in El. injection El as <-. unfold creem_options in Hin. rewrite !fmap_app, !elem_of_app in Hin.
    destruct Hin as [Hin|[Hin|Hin]].
    + destruct (truthy _) in Hin; simpl in Hin; set_solver.
    + destruct (truthy _) in Hin; simpl in Hin; set_solver.
    + simpl in Hin. set_solver.
  - by apply (page_options_keys _ s l) in Hin.
Qed.

Lemma form_id o x : get o "productId" = VStr x → id_of (VObj o) = x.
Proof. unfold get, id_of. simpl. by intros ->. Qed.

Lemma creem_closed s v : products_ok v → creem_inv s → creem_inv (closeProductModal (setProducts v s)).
Proof. intros Hv [H1 H2 H3]. destruct s; split; simpl in *; [done| |done]. by exists "". Qed.

Lemma creem_saveProduct t s : creem_inv s → creem_inv (saveProduct t s).
Proof.
  intros H. unfold saveProduct. destruct (incomplete (productForm s)) eqn:Ei; [by apply creem_notice|].
  destruct H as [(l & Hl & Hok) Hf Hs] eqn:EH. pose proof H as H'. clear EH. destruct Hf as (x & Hx & He).
  assert (Hp : products_ok (VArr l)) by (by exists l). rewrite Hl. simpl. unfold mbind, res_bind.
  replace (match editingProduct s with Some e => prop_opt e "productId" | None => get (productForm s) "productId" end) with (VStr x)
    by (destruct (editingProduct s); [symmetry; by apply He|done]).
  pose proof (find_product_spec x l (proj1 Hok)) as Hspec.
  assert (Hq : product_ok (VObj (productForm s))) by (by exists (productForm s), x).
  assert (Hid := form_id _ _ Hx).
  destruct (find_product (VStr x) l) as [[i|]|]; [| |done].
  - destruct Hspec as (p & Hpi & Hpid). destruct (editingProduct s); [|by apply creem_notice].
    apply creem_closed; [|done]. eapply insert_product; [done|exact Hpi|done|congruence].
  - destruct (editingProduct s); apply creem_closed; try done. apply append_product; [done..|by rewrite Hid].
Qed.

Lemma creem_act t s a : act_ok a → creem_inv s → creem_inv (act t a s).
Proof.
  intros Ha H. destruct a as [p f v|p| |i| |f v| |id]; simpl.
  - by apply (creem_frame s); [destruct s..|].
  - by apply creem_submit.
  - destruct H as [H1 H2 H3]. destruct s; split; simpl in *; [done|by exists ""|done].
  - destruct H as [H1 H2 H3]. destruct H1 as (l & Hl & Hf & Hn). rewrite Hl.
    destruct (l !! i) as [v|] eqn:E; [|by split; [exists l|..]].
    apply (Forall_lookup_1 _ _ _ _ Hf) in E as (o & x & -> & Hx & _).
    destruct s; split; simpl in *; [by exists l| |done]. exists x. split; [done|]. by intros e [= <-].
  - destruct H as [H1 H2 H3]. destruct s; split; simpl in *; [done|by exists ""|done].
  - unfold setProductField. case_decide as Hc; [done|]. destruct H as [H1 (x & Hx & He) H3].
    destruct s; split; simpl in *; [done| |done].
    destruct (decide (f = "productId")) as [->|Hf].
    + destruct Ha as [y ->]. exists y. split; [unfold get; by rewrite obj_get_define_eq|]. intros e ->. destruct Hc. eauto.
    + exists x. split; [|done]. unfold get in *. by rewrite obj_get_define_ne.
  - by apply creem_saveProduct.
  - unfold deleteProduct. destruct H as [H1 H2 H3] eqn:EH. pose proof H as H'. clear EH. destruct H1 as (l & Hl & Hf & Hn). rewrite Hl.
    destruct (without_product_ok id l Hf) as (l' & -> & Hs).
    assert (Hp : products_ok (VArr l')) by (eapply sublist_products; [by exists l|done]).
    clear H. destruct s; by split.
Qed.

(** The products stored with these options. *)
Definition stored_products (o : obj) : jsval := parsed_products (get (currentInputs Creem o) "CreemProducts").

Lemma loaded_dialog o s : products (loaded o s) = stored_products o ∧ editingProduct (loaded o s) = editingProduct s ∧
  productForm (loaded o s) = productForm s ∧ requests (loaded o s) = requests s.
Proof. by destruct s. Qed.

Lemma creem_loaded o s : products_ok (stored_products o) → creem_inv s → creem_inv (loaded o s).
Proof. intros Ho [H1 H2 H3]. destruct (loaded_dialog o s) as (E1 & E2 & E3 & E4). split; rewrite ?E1, ?E2, ?E3, ?E4; done. Qed.

Lemma creem_saveDone t s p ins r : creem_inv s → creem_inv (saveDone t p ins r s).
Proof.
  intros H. unfold saveDone.
  assert (Hb : ∀ s, creem_inv s → creem_inv (sub_busy p false s)) by (intros []; by apply creem_frame). apply Hb.
  destruct r as [[|m ms]|]; [|apply creem_requests; [|done]|by apply creem_notice].
  - set (s1 := request_all _ s). assert (H1 : creem_inv s1) by (by apply creem_notice).
    set (s2 := setSub _ _ s1). assert (H2 : creem_inv s2) by (by apply (creem_frame s1); [destruct s1..|]).
    apply (creem_frame (request_all [GetOptions] s2)); [by destruct s2..|]. by apply creem_notice.
  - intros v Hin. by apply list_elem_of_fmap in Hin as (? & ? & _).
Qed.

Lemma session_creem t os s : session t os s → Forall (λ o, products_ok (stored_products o)) os → creem_inv s.
Proof.
  assert (Hj : ∀ l s, creem_inv s → creem_inv (setJobs l s)) by (intros l []; by apply creem_frame).
  assert (Hb : ∀ b s, creem_inv s → creem_inv (setBusy b s)) by (intros b []; by apply creem_frame).
  induction 1 as [|os s a _ IH Ha|os s r l1 l2 _ IH _ Hr|os s data l1 l2 _ IH _|os s p ins r l1 l2 _ IH _]; intros Ho.
  - rewrite Forall_singleton in Ho. split; simpl; [exact Ho|by exists ""|set_solver].
  - by apply creem_act; [|apply IH].
  - apply Hb. destruct Hr as [->|[m ->]]; by apply creem_notice, Hj, IH.
  - apply Forall_app in Ho as [Ho Hd]. rewrite Forall_singleton in Hd. by apply Hb, creem_loaded, Hj, IH.
  - by apply creem_saveDone, Hj, IH.
Qed.

(** C28.  The products of the Creem page: when the stored products are complete
    and have different ids, so have the products shown at any time and every
    list of products that is sent, whatever is added, edited, removed and
    loaded in between. *)
Theorem creem_products_distinct t os s :
  session t os s → Forall (λ o, products_ok (stored_products o)) os →
  products_ok (products s) ∧
  ∀ v, PutOption Creem "CreemProducts" v ∈ requests s → ∃ l, v = VStr (stringify (VArr l)) ∧ products_ok (VArr l).
Proof. intros Hs Ho. destruct (session_creem t os s Hs Ho) as [H1 _ H3]. by split. Qed.

(** ** Witnesses *)

Definition sample_data : list (string * string) := [("ServerAddress", "https://a.com"); ("PayAddress", "https://p.com/"); ("PayMethods", "[]")].
Definition opened_shop : shop := optionsDone (λ x, x) (Some (inr sample_data)) (setJobs [] start).

Lemma opened_session : session (λ x, x) [default_options; getOptions sample_data] opened_shop.
Proof. exact (options_loaded (λ x, x) [default_options] start sample_data [] [] (started (λ x, x)) eq_refl). Qed.

Lemma gateway_sends_loaded_witness :
  ∃ o, o ∈ [default_options; getOptions sample_data] ∧ gateway_value (currentInputs Gateway o) "PayAddress" = Ok (VStr "https://p.com").
Proof.
  apply (gateway_sends_loaded (λ x, x) _ (act (λ x, x) (Save Gateway) opened_shop)).
  - exact (acted (λ x, x) _ _ (Save Gateway) opened_session I).
  - vm_compute. right. left.
Defined.

(** A product is added. *)
Definition new_product : list action :=
  [OpenNew; Field "name" (VStr "basic"); Field "productId" (VStr "prod_1"); Field "price" (VNum (num_of_Z 5));
   Field "quota" (VNum (num_of_Z 100)); Keep].

Lemma acts_session t os s l : Forall act_ok l → session t os s → session t os (foldl (λ s a, act t a s) s l).
Proof. revert s. induction l as [|a l IH]; intros s Hl H; [done|]. inv Hl. apply IH; [done|]. by constructor. Qed.

Lemma new_product_ok : Forall act_ok new_product.
Proof. by repeat constructor; try eexists. Qed.

Lemma creem_products_distinct_witness :
  products_ok (products (foldl (λ s a, act (λ x, x) a s) opened_shop new_product)) ∧
  products (foldl (λ s a, act (λ x, x) a s) opened_shop new_product) ≠ VArr [].
Proof.
  split; [|by vm_compute].
  apply (creem_products_distinct (λ x, x) _ _ (acts_session _ _ _ _ new_product_ok opened_session)).
  repeat constructor; exists []; repeat split; constructor.
Defined.

(** ** Findings *)

Lemma stripe_number_single f v k x : to_str v = Ok x → ∃ l, stripe_number [(f, v)] k = Ok l.
Proof.
  intros Hv. unfold stripe_number. destruct (is_nullish (get [(f, v)] k)) eqn:En; [eauto|].
  unfold get, obj_get in *. case_decide; [|done]. simpl in *. unfold to_string. rewrite En, Hv. simpl. eauto.
Qed.

(** An edit of the Stripe page other than the price id sends the price id
    without a value. *)
Lemma stripe_price_id_lost t s f v x :
  js_same (get (options s) "ServerAddress") (VStr "") = false → f ≠ "StripePriceId" → to_str v = Ok x →
  PutOption Stripe "StripePriceId" VUndef ∈ requests (submit t Stripe (edit Stripe f v s)).
Proof.
  intros Hs Hf Hv. set (s1 := edit Stripe f v s).
  assert (Hc : page_check Stripe s1 = Ok None).
  { unfold page_check, s1, edit. replace (options (setSub Stripe _ s)) with (options s) by (by destruct s). by rewrite Hs. }
  assert (Ho : ∃ l, page_options Stripe s1 = Ok l ∧ ("StripePriceId", VUndef) ∈ l).
  { unfold page_options, s1, edit. rewrite setSub_same. unfold stripe_options, sub_inputs, mbind, res_bind.
    destruct (stripe_number_single f v "StripeUnitPrice" x Hv) as [l1 ->].
    destruct (stripe_number_single f v "StripeMinTopUp" x Hv) as [l2 ->].
    eexists. split; [done|]. rewrite (get_single f v "StripePriceId") by done. simpl. set_solver. }
  destruct Ho as (l & Ho & Hin). unfold submit. rewrite Hc, Ho.
  assert (Hr : ∀ s l j, requests (queue_job j (request_all l s)) = requests s ++ l) by (by intros []). rewrite Hr.
  apply elem_of_app. right. by apply (list_elem_of_fmap_2 (λ kv, PutOption Stripe kv.1 kv.2)) in Hin.
Qed.

(** An edit of a key of the Creem page turns the test mode off. *)
Lemma creem_test_mode_off t s f v : f ≠ "CreemTestMode" →
  PutOption Creem "CreemTestMode" (VStr "false") ∈ requests (submit t Creem (edit Creem f v s)).
Proof.
  intros Hf. unfold submit. simpl. set (s1 := edit Creem f v s).
  assert (Hr : ∀ s l j, requests (queue_job j (request_all l s)) = requests s ++ l) by (by intros []). rewrite Hr.
  apply elem_of_app. right. unfold s1, edit. rewrite setSub_same. simpl.
  unfold creem_options. rewrite (get_single f v "CreemTestMode") by done. simpl. rewrite !fmap_app. set_solver.
Qed.

(** A cleared price is accepted. *)
Lemma blank_price_accepted (t : string → string) :
  let s := foldl (λ s a, act t a s) opened_shop
    [OpenNew; Field "name" (VStr "basic"); Field "productId" (VStr "prod_1"); Field "price" VUndef; Field "quota" (VNum (num_of_Z 1)); Keep] in
  showProductModal s = false ∧ length (match products s with VArr l => l | _ => [] end) = 1.
Proof. by vm_compute. Qed.
