(* ===== verification/SystemSettings.v ===== *)
(** * System settings

    [web/src/components/settings/SystemSetting.jsx]: the form of all system
    options, its groups with a save button each, the check boxes that save at
    once, and [updateOptions], which sends options.

    The object the options are read into is [inputs] and [originInputs] and the
    initial values of the form at the same time, and the form writes into it
    (see [FormCompat]), so all of them are locations in the heap of the form.
    [handleFormChange] gets the object of the changed field from the form and
    makes it [inputs]. *)
From Stdlib Require Import Ascii SpecFloat.
From stdpp Require Import relations.
From S2P Require Import Prelude JsString JsNumber JsValue Json FormCompat SettingsPages ChannelAffinity PaymentSettings.

(** ** Data *)

Abbreviation opt := (string * jsval)%type.

Inductive note := Get | Put (key : string) (value : jsval) | Fetch (url : string) | Error_ (e : jsval) | Success_ (text : string).

(** What follows [updateOptions]. *)
Inductive cont := KNone | KLinux (value : bool) | KPassword.

(** Waiting for the options, for the switch [cur] of [opts] (then [rest], then
    [others]), for the others, and for a discovery; [ins] is the location of the
    inputs of the handler. *)
Inductive work :=
| WLoad | WSwitch (opts : list opt) (cur : opt) (rest others : list opt) (ins : nat) (k : cont) | WOthers (opts : list opt) (ins : nat) (k : cont)
| WDiscovery (ins origin : nat).

Record system := System {
  sysForm : form; inputsAt : nat; originAt : nat; isLoaded : bool; sysLoading : bool;
  emailDomainWhitelist : list string; emailToAdd : string; showPasswordLoginConfirmModal : bool; linuxDOOAuthEnabled : bool;
  domainFilterMode : bool; ipFilterMode : bool; domainList : list jsval; ipList : list jsval; allowedPorts : list jsval;
  works : list work; notes : list note }.

Definition setForm (f : form) (i : nat) (s : system) : system :=
  let '(System _ _ c d e f' g h i' j k l m n o p) := s in System f i c d e f' g h i' j k l m n o p.
Definition setLoading_ (x : bool) (s : system) : system :=
  let '(System a b c d _ f g h i j k l m n o p) := s in System a b c d x f g h i j k l m n o p.
Definition setWhitelist (x : list string) (y : string) (s : system) : system :=
  let '(System a b c d e _ _ h i j k l m n o p) := s in System a b c d e x y h i j k l m n o p.
Definition setModal (x : bool) (s : system) : system :=
  let '(System a b c d e f g _ i j k l m n o p) := s in System a b c d e f g x i j k l m n o p.
Definition setLinux (x : bool) (s : system) : system :=
  let '(System a b c d e f g h _ j k l m n o p) := s in System a b c d e f g h x j k l m n o p.
Definition setModes (x y : bool) (s : system) : system :=
  let '(System a b c d e f g h i _ _ l m n o p) := s in System a b c d e f g h i x y l m n o p.
Definition setLists (x y z : list jsval) (s : system) : system :=
  let '(System a b c d e f g h i j k _ _ _ o p) := s in System a b c d e f g h i j k x y z o p.
Definition setWorks (x : list work) (s : system) : system :=
  let '(System a b c d e f g h i j k l m n _ p) := s in System a b c d e f g h i j k l m n x p.
Definition tell (x : list note) (s : system) : system :=
  let '(System a b c d e f g h i j k l m n o p) := s in System a b c d e f g h i j k l m n o (p ++ x).
Definition queue_work (w : work) (s : system) : system := setWorks (works s ++ [w]) s.

(** Objects. *)
Definition at_ (s : system) (l : nat) : obj := deref (sysForm s) l.
Definition ins (s : system) : obj := at_ s (inputsAt s).
Definition origin (s : system) : obj := at_ s (originAt s).

(** Make [inputs] a new object. *)
Definition setInputs (o : obj) (s : system) : system :=
  let f := sysForm s in
  let l := fresh (dom (heap f)) in
  setForm (Form (<[l := o]> (heap f)) (values f) (queue f) (valuesRef f) (events f)) l s.

(** ** Loading *)

Definition flags : list string :=
  ["fetch_setting.allow_private_ip"; "fetch_setting.enable_ssrf_protection"; "fetch_setting.domain_filter_mode";
   "fetch_setting.ip_filter_mode"; "fetch_setting.apply_ip_filter_for_domain"; "PasswordLoginEnabled"; "PasswordRegisterEnabled";
   "EmailVerificationEnabled"; "GitHubOAuthEnabled"; "WeChatAuthEnabled"; "TelegramOAuthEnabled"; "RegisterEnabled";
   "TurnstileCheckEnabled"; "EmailDomainRestrictionEnabled"; "EmailAliasRestrictionEnabled"; "SMTPSSLEnabled";
   "LinuxDOOAuthEnabled"; "discord.enabled"; "oidc.enabled"; "passkey.enabled"; "passkey.allow_insecure_origin";
   "WorkerAllowHttpImageRequestEnabled"].

(** [item.value] after the switch. *)
Definition read_value (key value : string) : res jsval :=
  if decide (key = "TopupGroupRatio") then
    match json_parse value with Some v => Ok (VStr (stringify2 v)) | None => Throw "SyntaxError" end
  else if decide (key ∈ flags) then Ok (VBool (toBoolean (VStr value)))
  else if decide (key = "passkey.user_verification") then Ok (VStr (if decide (value = "") then "preferred" else value))
  else if decide (key ∈ ["Price"; "MinTopUp"]) then Ok (VNum (parse_float value))
  else Ok (VStr value).

Fixpoint read_options (data : list (string * string)) (o : obj) : res obj :=
  match data with
  | [] => Ok o
  | (k, x) :: data => v ← read_value k x; read_options data (obj_set k v o)
  end.

(** A list stored as JSON; [broken] when the text is not JSON. *)
Definition stored_list (broken : list jsval) (x : string) : list jsval :=
  if decide (x = "") then []
  else match json_parse x with Some (VArr l) => l | Some _ => [] | None => broken end.

Definition last_value (k : string) (data : list (string * string)) : option string := snd <$> last (filter (λ kv, kv.1 = k) data).

Definition default_ports : list jsval := VStr <$> ["80"; "443"; "8080"; "8443"].

(** The page when the options are there: the form is mounted with the new
    object, which is [inputs] and [originInputs] too. *)
Definition loadedWith (data : list (string * string)) (o : obj) (s : system) : system :=
  let lists k broken old := from_option (stored_list broken) old (last_value k data) in
  let mode k old := if is_undef (get o k) then old else truthy (get o k) in
  System (FormCompat.mount (Some o)) 0 0 true false
    (from_option (λ x, if decide (x = "") then [] else split_on ","%char x) (emailDomainWhitelist s) (last_value "EmailDomainWhitelist" data))
    (emailToAdd s) (showPasswordLoginConfirmModal s) (linuxDOOAuthEnabled s)
    (mode "fetch_setting.domain_filter_mode" (domainFilterMode s)) (mode "fetch_setting.ip_filter_mode" (ipFilterMode s))
    (lists "fetch_setting.domain_list" [] (domainList s)) (lists "fetch_setting.ip_list" [] (ipList s))
    (lists "fetch_setting.allowed_ports" default_ports (allowedPorts s)) (works s) (notes s).

(** Before the answer. *)
Definition opening : system :=
  System (FormCompat.mount None) 0 0 false true [] "" false false true true [] [] [] [WLoad] [Get].

Section page.
Variable t : string → string.

(** A text that is not JSON throws, and the page stays loading. *)
Definition optionsLoaded (r : option (jsval + list (string * string))) (s : system) : system :=
  match r with
  | None => s
  | Some (inl m) => setLoading_ false (tell [Error_ m] s)
  | Some (inr data) => match read_options data [] with Ok o => loadedWith data o s | Throw _ => s end
  end.

(** ** Sending options *)

Definition is_switch (key : string) : bool := ends_with "enabled" (to_lower key).

Definition sent_value (v : jsval) : jsval := match v with VBool b => VStr (if b then "true" else "false") | _ => v end.
(** [opt.value.toString()] of a switch, which is a boolean or a text. *)
Definition put_of (kv : opt) : note := Put kv.1 (sent_value kv.2).

Definition continue (k : cont) (s : system) : system :=
  match k with KNone => s | KLinux b => setLinux b s | KPassword => setModal false s end.

Definition finish (opts : list opt) (i : nat) (k : cont) (s : system) : system :=
  let o := foldl (λ o kv, obj_set kv.1 kv.2 o) (at_ s i) opts in
  continue k (setLoading_ false (setInputs o (tell [Success_ (t "更新成功")] s))).

Definition send_others (opts others : list opt) (i : nat) (k : cont) (s : system) : system :=
  match others with
  | [] => finish opts i k s
  | _ => queue_work (WOthers opts i k) (tell (put_of <$> others) s)
  end.

Definition send_switches (opts switches others : list opt) (i : nat) (k : cont) (s : system) : system :=
  match switches with
  | [] => send_others opts others i k s
  | cur :: rest => queue_work (WSwitch opts cur rest others i k) (tell [put_of cur] s)
  end.

Definition updateOptions (opts : list opt) (i : nat) (k : cont) (s : system) : system :=
  send_switches opts (filter (λ kv, is_switch kv.1 = true) opts) (filter (λ kv, is_switch kv.1 ≠ true) opts) i k (setLoading_ true s).

Inductive verdict := Rejected | Refused (message : jsval) | Accepted.

(** The answer to a switch: a refusal returns at once, a rejection is caught. *)
Definition switchDone (opts rest others : list opt) (i : nat) (k : cont) (r : verdict) (s : system) : system :=
  match r with
  | Accepted => send_switches opts rest others i k s
  | Refused m => continue k (tell [Error_ m] s)
  | Rejected => continue k (setLoading_ false (tell [Error_ (VStr (t "更新失败"))] s))
  end.

(** The answers to the others: [None] when one was rejected, else the messages
    of the refused ones. *)
Definition othersDone (opts : list opt) (i : nat) (k : cont) (r : option (list jsval)) (s : system) : system :=
  match r with
  | Some ms => finish opts i k (tell (Error_ <$> ms) s)
  | None => continue k (setLoading_ false (tell [Error_ (VStr (t "更新失败"))] s))
  end.

(** ** Editing *)

(** A field of the form changes. *)
Definition editField (f : string) (v : jsval) (s : system) : system :=
  let s := setForm (FormCompat.setValue f v (sysForm s)) (inputsAt s) s in
  let s := setInputs [(f, v)] s in
  setForm (FormCompat.render (sysForm s)) (inputsAt s) s.

(** The check boxes that save at once: [field] is the field of the form. *)
Definition handleCheckboxChange (field key : string) (on : bool) (s : system) : system :=
  let i := inputsAt s in
  let s := editField field (VBool on) s in
  if decide (key = "PasswordLoginEnabled" ∧ on = false) then setModal true s
  else updateOptions [(key, VBool on)] i (if decide (key = "LinuxDOOAuthEnabled") then KLinux on else KNone) s.

Definition handlePasswordLoginConfirm (s : system) : system :=
  updateOptions [("PasswordLoginEnabled", VBool false)] (inputsAt s) KPassword s.
Definition cancelPasswordLogin (s : system) : system := editField "PasswordLoginEnabled" (VBool true) (setModal false s).

(** Lists and modes beside the form: [setInputs((prev) => ({...prev, k: v}))]. *)
Definition mergeInput (k : string) (v : jsval) (s : system) : system := setInputs (obj_define k v (ins s)) s.
Definition changeDomainMode (white : bool) (s : system) : system :=
  mergeInput "fetch_setting.domain_filter_mode" (VBool white) (setModes white (ipFilterMode s) s).
Definition changeIpMode (white : bool) (s : system) : system :=
  mergeInput "fetch_setting.ip_filter_mode" (VBool white) (setModes (domainFilterMode s) white s).
Definition changeDomains (l : list jsval) (s : system) : system :=
  mergeInput "fetch_setting.domain_list" (VArr l) (setLists l (ipList s) (allowedPorts s) s).
Definition changeIps (l : list jsval) (s : system) : system :=
  mergeInput "fetch_setting.ip_list" (VArr l) (setLists (domainList s) l (allowedPorts s) s).
Definition changePorts (l : list jsval) (s : system) : system :=
  mergeInput "fetch_setting.allowed_ports" (VArr l) (setLists (domainList s) (ipList s) l s).

(** ** Domains of addresses *)

Definition is_letter (c : ascii) : bool :=
  let n := nat_of_ascii c in ((65 <=? n) && (n <=? 90) || (97 <=? n) && (n <=? 122))%nat.
Definition is_alnum (c : ascii) : bool := is_letter c || is_digit c.

(** [[a-zA-Z0-9]([a-zA-Z0-9\-]{0,61}[a-zA-Z0-9])?]. *)
Definition is_label (x : string) : bool :=
  let l := chars x in
  (length l <=? 63)%nat && forallb (λ c, is_alnum c || bool_decide (c = "-"%char)) l &&
  from_option is_alnum false (head l) && from_option is_alnum false (last l).

(** The whole expression: labels before a top level domain of letters. *)
Definition is_domain (x : string) : bool :=
  let parts := split_on "."%char x in
  match last parts with
  | Some tld => (2 <=? length parts)%nat && forallb is_label (removelast parts) && (2 <=? length (chars tld))%nat && forallb is_letter (chars tld)
  | None => false
  end.

Definition handleAddEmail (s : system) : system :=
  let domain := trim (emailToAdd s) in
  if decide (domain = "") then s
  else if is_domain domain then
    if decide (domain ∈ emailDomainWhitelist s) then tell [Error_ (VStr (t "该域名已存在于白名单中"))] s
    else tell [Success_ (t "已添加到白名单")] (setWhitelist (emailDomainWhitelist s ++ [domain]) "" s)
  else tell [Error_ (VStr (t "邮箱域名格式不正确，请输入有效的域名，如 gmail.com"))] s.

(** ** Groups *)

Inductive group := Worker | Server | SMTP | Whitelist | SSRF | WeChat | GitHub | Discord | Telegram | Turnstile | LinuxDO | PasskeyOptions.

Definition diff (org i : obj) (k : string) : list opt := if changed org i k then [(k, get i k)] else [].
(** A secret is left alone when it is blank. *)
Definition diff_filled (org i : obj) (k : string) : list opt := if changed org i k && filled (get i k) then [(k, get i k)] else [].

Definition passkey_value (form i : obj) (d k : string) : opt := (k, js_or (js_or (get form k) (get i k)) (VStr d)).

Definition workerOptions (i : obj) : res (list opt) :=
  url ← removeTrailingSlash (get i "WorkerUrl");
  Ok ([("WorkerUrl", url);
       ("WorkerAllowHttpImageRequestEnabled", VStr (if truthy (get i "WorkerAllowHttpImageRequestEnabled") then "true" else "false"))] ++
      if filled (get i "WorkerValidKey") || js_same url (VStr "") then [("WorkerValidKey", get i "WorkerValidKey")] else []).

Definition serverOptions (i : obj) : res (list opt) := x ← removeTrailingSlash (get i "ServerAddress"); Ok [("ServerAddress", x)].

Definition smtpOptions (org i : obj) : list opt :=
  diff org i "SMTPServer" ++ diff org i "SMTPAccount" ++ diff org i "SMTPFrom" ++ diff_filled org i "SMTPPort" ++ diff_filled org i "SMTPToken".

Definition whitelistOptions (s : system) : list opt := [("EmailDomainWhitelist", VStr (join "," (emailDomainWhitelist s)))].

Definition ssrfOptions (s : system) : list opt :=
  [("fetch_setting.domain_filter_mode", VBool (domainFilterMode s));
   ("fetch_setting.domain_list", VStr (stringify (VArr (domainList s))));
   ("fetch_setting.ip_filter_mode", VBool (ipFilterMode s));
   ("fetch_setting.ip_list", VStr (stringify (VArr (ipList s))));
   ("fetch_setting.allowed_ports", VStr (stringify (VArr (allowedPorts s))))].

Definition wechatOptions (org i : obj) : res (list opt) :=
  address ← (if changed org i "WeChatServerAddress"
             then x ← removeTrailingSlash (get i "WeChatServerAddress"); Ok [("WeChatServerAddress", x)] else Ok []);
  Ok (address ++ diff org i "WeChatAccountQRCodeImageURL" ++ diff_filled org i "WeChatServerToken").

Definition githubOptions (org i : obj) : list opt := diff org i "GitHubClientId" ++ diff_filled org i "GitHubClientSecret".
Definition discordOptions (org i : obj) : list opt := diff org i "discord.client_id" ++ diff_filled org i "discord.client_secret".
Definition telegramOptions (i : obj) : list opt :=
  [("TelegramBotToken", get i "TelegramBotToken"); ("TelegramBotName", get i "TelegramBotName")].
Definition turnstileOptions (org i : obj) : list opt := diff org i "TurnstileSiteKey" ++ diff_filled org i "TurnstileSecretKey".
Definition linuxdoOptions (org i : obj) : list opt :=
  diff org i "LinuxDOClientId" ++ diff_filled org i "LinuxDOClientSecret" ++ diff org i "LinuxDOMinimumTrustLevel".

Definition passkeyOptions (f i : obj) : list opt :=
  [passkey_value f i "" "passkey.rp_display_name"; passkey_value f i "" "passkey.rp_id";
   passkey_value f i "preferred" "passkey.user_verification"; passkey_value f i "" "passkey.attachment_preference";
   passkey_value f i "" "passkey.origins"].

Definition group_options (g : group) (s : system) : res (list opt) :=
  match g with
  | Worker => workerOptions (ins s)
  | Server => serverOptions (ins s)
  | SMTP => Ok (smtpOptions (origin s) (ins s))
  | Whitelist => Ok (whitelistOptions s)
  | SSRF => Ok (ssrfOptions s)
  | WeChat => wechatOptions (origin s) (ins s)
  | GitHub => Ok (githubOptions (origin s) (ins s))
  | Discord => Ok (discordOptions (origin s) (ins s))
  | Telegram => Ok (telegramOptions (ins s))
  | Turnstile => Ok (turnstileOptions (origin s) (ins s))
  | LinuxDO => Ok (linuxdoOptions (origin s) (ins s))
  | PasskeyOptions => Ok (passkeyOptions (getValues (sysForm s)) (ins s))
  end.

Definition submitGroup (g : group) (s : system) : system :=
  match group_options g s with
  | Throw _ | Ok [] => s
  | Ok opts => updateOptions opts (inputsAt s) KNone s
  end.

(** *** OIDC *)

Definition oidc_options (org i : obj) : list opt :=
  diff org i "oidc.well_known" ++ diff org i "oidc.client_id" ++ diff_filled org i "oidc.client_secret" ++
  diff org i "oidc.authorization_endpoint" ++ diff org i "oidc.token_endpoint" ++ diff org i "oidc.user_info_endpoint".

Definition sendOIDC (i org : nat) (s : system) : system :=
  match oidc_options (at_ s org) (at_ s i) with [] => s | opts => updateOptions opts i KNone s end.

Definition submitOIDCSettings (s : system) : system :=
  match get (ins s) "oidc.well_known" with
  | VStr x =>
      if decide (x = "") then sendOIDC (inputsAt s) (originAt s) s
      else if starts_with "http://" x || starts_with "https://" x
      then queue_work (WDiscovery (inputsAt s) (originAt s)) (tell [Fetch x] s)
      else tell [Error_ (VStr (t "Well-Known URL 必须以 http:// 或 https:// 开头"))] s
  | v => if truthy v then s else sendOIDC (inputsAt s) (originAt s) s
  end.

(** The endpoints are written into the inputs of the handler. *)
Definition discovered_endpoints (data : jsval) (o : obj) : res obj :=
  a ← prop data "authorization_endpoint"; b ← prop data "token_endpoint"; c ← prop data "userinfo_endpoint";
  Ok (obj_set "oidc.user_info_endpoint" c (obj_set "oidc.token_endpoint" b (obj_set "oidc.authorization_endpoint" a o))).

Definition writeAt (l : nat) (o : obj) (s : system) : system :=
  let f := sysForm s in setForm (Form (<[l := o]> (heap f)) (values f) (queue f) (valuesRef f) (events f)) (inputsAt s) s.

Definition discoveryAnswered (i org : nat) (r : option jsval) (s : system) : system :=
  match r ≫= (λ data, match discovered_endpoints data (at_ s i) with Ok o => Some o | Throw _ => None end) with
  | Some o => sendOIDC i org (tell [Success_ (t "获取 OIDC 配置成功！")] (writeAt i o s))
  | None => tell [Error_ (VStr (t "获取 OIDC 配置失败，请检查网络状况和 Well-Known URL 是否正确"))] s
  end.
End page.

(** ** One save, answered *)

(** The last work is answered until there is none of this save: switches by
    [answer], the others by [r]. *)
Fixpoint settle (t : string → string) (answer : opt → verdict) (r : option (list jsval)) (n : nat) (s : system) : system :=
  match n, last (works s) with
  | S n, Some (WSwitch opts cur rest others i k) =>
      settle t answer r n (switchDone t opts rest others i k (answer cur) (setWorks (removelast (works s)) s))
  | S n, Some (WOthers opts i k) => settle t answer r n (othersDone t opts i k r (setWorks (removelast (works s)) s))
  | _, _ => s
  end.

Definition quiet_works (s : system) : Prop :=
  match last (works s) with Some (WSwitch _ _ _ _ _ _) | Some (WOthers _ _ _) => False | _ => True end.

Lemma settle_quiet t answer r n s : quiet_works s → settle t answer r n s = s.
Proof. unfold quiet_works. destruct n; simpl; [done|]. destruct (last (works s)) as [[]|]; done. Qed.

Lemma setWorks_queue w s : setWorks (removelast (works (queue_work w s))) (queue_work w s) = s.
Proof. destruct s; unfold queue_work; simpl. by rewrite removelast_last. Qed.

Lemma last_queue w s : last (works (queue_work w s)) = Some w.
Proof. destruct s; unfold queue_work; simpl. apply last_snoc. Qed.

(** What a save of these options comes to. *)
Section outcome.
Context (t : string → string) (answer : opt → verdict) (r : option (list jsval)).

(** The first switch that is not accepted: the switches up to it, the message
    shown, and whether the page stays loading. *)
Fixpoint first_bad (switches : list opt) : option (list opt * jsval * bool) :=
  match switches with
  | [] => None
  | c :: rest =>
      match answer c with
      | Accepted => (λ '(pre, m, b), (c :: pre, m, b)) <$> first_bad rest
      | Refused m => Some ([c], m, true)
      | Rejected => Some ([c], VStr (t "更新失败"), false)
      end
  end.

Definition others_notes (others : list opt) : list note :=
  match others, r with
  | [], _ => [Success_ (t "更新成功")]
  | _, Some ms => (put_of <$> others) ++ (Error_ <$> ms) ++ [Success_ (t "更新成功")]
  | _, None => (put_of <$> others) ++ [Error_ (VStr (t "更新失败"))]
  end.

(** The inputs afterwards. *)
Definition inputs_after (opts others : list opt) (i : nat) (s : system) : obj :=
  match others, r with
  | _ :: _, None => ins s
  | _, _ => foldl (λ o kv, obj_set kv.1 kv.2 o) (at_ s i) opts
  end.

Definition outcome (opts switches others : list opt) (i : nat) (s s' : system) : Prop :=
  works s' = works s ∧
  match first_bad switches with
  | None => notes s' = notes s ++ (put_of <$> switches) ++ others_notes others ∧ sysLoading s' = false ∧
            ins s' = inputs_after opts others i s
  | Some (pre, m, b) => notes s' = notes s ++ (put_of <$> pre) ++ [Error_ m] ∧ (b = true → sysLoading s' = sysLoading s) ∧
                        (b = false → sysLoading s' = false) ∧ ins s' = ins s
  end.

Lemma continue_rest k s : works (continue k s) = works s ∧ notes (continue k s) = notes s ∧
  sysLoading (continue k s) = sysLoading s ∧ ins (continue k s) = ins s.
Proof. destruct s, k; done. Qed.

Lemma ins_setInputs o s : ins (setInputs o s) = o.
Proof. destruct s as [f]; destruct f. unfold ins, at_, setInputs, deref. simpl. by rewrite lookup_insert_eq. Qed.

Lemma finish_rest opts i k s :
  works (finish t opts i k s) = works s ∧ notes (finish t opts i k s) = notes s ++ [Success_ (t "更新成功")] ∧
  sysLoading (finish t opts i k s) = false ∧ ins (finish t opts i k s) = foldl (λ o kv, obj_set kv.1 kv.2 o) (at_ s i) opts.
Proof.
  unfold finish. set (o := foldl _ _ opts). clearbody o.
  destruct (continue_rest k (setLoading_ false (setInputs o (tell [Success_ (t "更新成功")] s)))) as (-> & -> & -> & ->).
  split; [by destruct s|]. split; [by destruct s|]. split; [by destruct s|].
  etrans; [|apply (ins_setInputs o (tell [Success_ (t "更新成功")] s))]. by destruct s.
Qed.

Lemma settle_others n opts others i k s : quiet_works s →
  outcome opts [] others i s (settle t answer r (S n) (send_others t opts others i k s)).
Proof.
  intros Hq. unfold outcome, send_others. simpl first_bad. cbv iota. rewrite fmap_nil, app_nil_l. destruct others as [|o others].
  - destruct (finish_rest opts i k s) as (Hw & Hn & Hl & Hi).
    rewrite settle_quiet by (unfold quiet_works; by rewrite Hw). by rewrite Hw, Hn, Hl, Hi.
  - set (s1 := tell _ s). cbn [settle]. rewrite last_queue, setWorks_queue.
    assert (H1 : works s1 = works s ∧ notes s1 = notes s ++ (put_of <$> o :: others) ∧ ins s1 = ins s ∧ at_ s1 i = at_ s i) by (by destruct s).
    destruct H1 as (Hw & Hn & Hi & Ha). destruct r as [ms|] eqn:Er; simpl othersDone.
    + destruct (finish_rest opts i k (tell (Error_ <$> ms) s1)) as (Hw' & Hn' & Hl' & Hi').
      assert (H2 : works (tell (Error_ <$> ms) s1) = works s1 ∧ notes (tell (Error_ <$> ms) s1) = notes s1 ++ (Error_ <$> ms) ∧
        at_ (tell (Error_ <$> ms) s1) i = at_ s1 i) by (by destruct s1). destruct H2 as (Hw2 & Hn2 & Ha2).
      rewrite settle_quiet by (unfold quiet_works; by rewrite Hw', Hw2, Hw).
      rewrite Hw', Hn', Hl', Hi', Hw2, Hn2, Ha2, Hw, Hn, Ha. unfold others_notes, inputs_after. rewrite Er. by rewrite <-!app_assoc.
    + destruct (continue_rest k (setLoading_ false (tell [Error_ (VStr (t "更新失败"))] s1))) as (Hw' & Hn' & Hl' & Hi').
      rewrite settle_quiet by (unfold quiet_works; rewrite Hw'; destruct s1; simpl in *; by rewrite Hw).
      rewrite Hw', Hn', Hl', Hi'. unfold others_notes, inputs_after. rewrite Er.
      destruct s1; simpl in *. subst. by rewrite <-!app_assoc.
Qed.
Lemma tell_rest l i s : works (tell l s) = works s ∧ notes (tell l s) = notes s ++ l ∧ ins (tell l s) = ins s ∧
  at_ (tell l s) i = at_ s i ∧ sysLoading (tell l s) = sysLoading s.
Proof. by destruct s. Qed.

(** An accepted switch. *)
Lemma outcome_accepted opts c rest others i s s' : answer c = Accepted →
  outcome opts rest others i (tell [put_of c] s) s' → outcome opts (c :: rest) others i s s'.
Proof.
  destruct (tell_rest [put_of c] i s) as (Hw & Hn & Hi & Ha & Hl). intros Hc. unfold outcome, inputs_after. simpl. rewrite Hc, Hw, Hn, Hi, Ha, Hl.
  destruct (first_bad rest) as [[[pre m] b]|]; simpl; by rewrite <-!app_assoc.
Qed.

Lemma settle_switches switches n opts others i k s : quiet_works s → length switches < n →
  outcome opts switches others i s (settle t answer r n (send_switches t opts switches others i k s)).
Proof.
  revert n s. induction switches as [|c rest IH]; intros n s Hq Hn.
  - destruct n; [simpl in Hn; lia|]. by apply settle_others.
  - destruct n; [simpl in Hn; lia|]. cbn [send_switches settle]. rewrite last_queue, setWorks_queue.
    destruct (tell_rest [put_of c] i s) as (Hw & Hno & Hi & _ & Hl). destruct (answer c) as [|m|] eqn:Ec; simpl switchDone.
    + set (s1 := continue k _). assert (H1 := continue_rest k (setLoading_ false (tell [Error_ (VStr (t "更新失败"))] (tell [put_of c] s)))).
      fold s1 in H1. destruct H1 as (Hw1 & Hn1 & Hl1 & Hi1).
      rewrite settle_quiet by (unfold quiet_works; rewrite Hw1; by destruct s).
      unfold outcome. simpl. rewrite Ec, Hw1, Hn1, Hl1, Hi1. destruct s; simpl in *. by rewrite <-!app_assoc.
    + set (s1 := continue k _). assert (H1 := continue_rest k (tell [Error_ m] (tell [put_of c] s))).
      fold s1 in H1. destruct H1 as (Hw1 & Hn1 & Hl1 & Hi1).
      rewrite settle_quiet by (unfold quiet_works; rewrite Hw1; by destruct s).
      unfold outcome. simpl. rewrite Ec, Hw1, Hn1, Hl1, Hi1. destruct s; simpl in *. by rewrite <-!app_assoc.
    + apply outcome_accepted; [done|]. apply IH; [|simpl in Hn; lia]. unfold quiet_works. by rewrite Hw.
Qed.

(** C13.  The outcome of every save, however it is answered: the switches are sent
    one after the other, each after the one before was accepted; at the first
    that is not, its error is shown and nothing more is sent (after a refusal
    the page even stays loading); the other options are sent together, only
    after all switches were accepted, and then success is shown and the values
    count as saved, also where some were refused. *)
Theorem update_options_outcome opts i k s : quiet_works s →
  outcome opts (filter (λ kv, is_switch kv.1 = true) opts) (filter (λ kv, is_switch kv.1 ≠ true) opts) i (setLoading_ true s)
    (settle t answer r (S (length opts)) (updateOptions t opts i k s)).
Proof.
  intros Hq. apply settle_switches; [by destruct s|]. pose proof (length_filter (λ kv, is_switch kv.1 = true) opts). lia.
Qed.
End outcome.

(** ** Sessions *)

(** The check boxes that save at once, with their option. *)
Definition boxes : list (string * string) :=
  ((λ k, (k, k)) <$> ["fetch_setting.enable_ssrf_protection"; "fetch_setting.allow_private_ip"; "fetch_setting.apply_ip_filter_for_domain";
    "PasswordLoginEnabled"; "PasswordRegisterEnabled"; "EmailVerificationEnabled"; "RegisterEnabled"; "TurnstileCheckEnabled";
    "GitHubOAuthEnabled"; "discord.enabled"; "LinuxDOOAuthEnabled"; "WeChatAuthEnabled"; "TelegramOAuthEnabled";
    "EmailDomainRestrictionEnabled"; "EmailAliasRestrictionEnabled"; "SMTPSSLEnabled"]) ++
  [("['oidc.enabled']", "oidc.enabled"); ("['passkey.enabled']", "passkey.enabled");
   ("['passkey.allow_insecure_origin']", "passkey.allow_insecure_origin")].

(** The fields that only change the form. *)
Definition text_fields : list string :=
  ["ServerAddress"; "WorkerUrl"; "WorkerValidKey"; "WorkerAllowHttpImageRequestEnabled"; "['passkey.rp_display_name']";
   "['passkey.rp_id']"; "['passkey.user_verification']"; "['passkey.attachment_preference']"; "['passkey.origins']";
   "SMTPServer"; "SMTPPort"; "SMTPAccount"; "SMTPFrom"; "SMTPToken"; "['oidc.well_known']"; "['oidc.client_id']";
   "['oidc.client_secret']"; "['oidc.authorization_endpoint']"; "['oidc.token_endpoint']"; "['oidc.user_info_endpoint']";
   "GitHubClientId"; "GitHubClientSecret"; "['discord.client_id']"; "['discord.client_secret']"; "LinuxDOClientId";
   "LinuxDOClientSecret"; "LinuxDOMinimumTrustLevel"; "WeChatServerAddress"; "WeChatServerToken"; "WeChatAccountQRCodeImageURL";
   "TelegramBotToken"; "TelegramBotName"; "TurnstileSiteKey"; "TurnstileSecretKey"].

Inductive deed :=
| DEdit (f : string) (v : jsval) | DBox (field key : string) (on : bool) | DConfirm | DCancel
| DDomainMode (white : bool) | DIpMode (white : bool) | DDomains (l : list jsval) | DIps (l : list jsval) | DPorts (l : list jsval)
| DEmails (l : list string) | DEmailText (x : string) | DAddEmail | DSave (g : group) | DOIDC.

Section session.
Variable t : string → string.

Definition deed_of (d : deed) (s : system) : system :=
  match d with
  | DEdit f v => editField f v s
  | DBox field key on => handleCheckboxChange t field key on s
  | DConfirm => handlePasswordLoginConfirm t s
  | DCancel => cancelPasswordLogin s
  | DDomainMode b => changeDomainMode b s
  | DIpMode b => changeIpMode b s
  | DDomains l => changeDomains l s
  | DIps l => changeIps l s
  | DPorts l => changePorts l s
  | DEmails l => setWhitelist l (emailToAdd s) s
  | DEmailText x => setWhitelist (emailDomainWhitelist s) x s
  | DAddEmail => handleAddEmail t s
  | DSave g => submitGroup t g s
  | DOIDC => submitOIDCSettings t s
  end.

(** What the page offers: a control gives its field a value, the dialog is
    there only while it is shown. *)
Definition offered (d : deed) (s : system) : Prop :=
  match d with
  | DEdit f v => f ∈ text_fields ∧ v ≠ VUndef
  | DBox field key _ => (field, key) ∈ boxes
  | DConfirm | DCancel => showPasswordLoginConfirmModal s = true
  | _ => True
  end.

(** An answer to a work of the page. *)
Inductive answered : work → system → system → Prop :=
| a_switch opts cur rest others i k r s : answered (WSwitch opts cur rest others i k) s (switchDone t opts rest others i k r s)
| a_others opts i k r s : answered (WOthers opts i k) s (othersDone t opts i k r s)
| a_discovery i org r s : answered (WDiscovery i org) s (discoveryAnswered t i org r s).

(** The page after it was loaded with the options [o]. *)
Inductive running (o : obj) : system → Prop :=
| run_loaded data : read_options data [] = Ok o → running o (loadedWith data o (setWorks [] opening))
| run_deed d s : running o s → offered d s → running o (deed_of d s)
| run_answer w s s' l1 l2 : running o s → works s = l1 ++ w :: l2 → answered w (setWorks (l1 ++ l2) s) s' → running o s'.
End session.

(** ** The form at rest *)

(** Every location of the page is an object, and nothing is queued. *)
Record store_ok (s : system) : Prop := {
  st_queue : queue (sysForm s) = [];
  st_values : values (sysForm s) = valuesRef (sysForm s);
  st_locs : ∀ l, l ∈ [values (sysForm s); inputsAt s; originAt s] → is_Some (heap (sysForm s) !! l) }.

Lemma editField_eq f v s : queue (sysForm s) = [] →
  let h := <[valuesRef (sysForm s) := obj_set f v (getValues (sysForm s))]> (heap (sysForm s)) in
  let l := fresh (dom h) in
  let h1 := <[l := [(f, v)]]> h in
  let l' := fresh (dom h1) in
  ∃ e, editField f v s =
    setForm (Form (<[l' := obj_define f v (default [] (h1 !! values (sysForm s)))]> h1) l' [] l' e) l s.
Proof. intros Hq. destruct s as [f0]; destruct f0; simpl in *; subst. eexists. reflexivity. Qed.

Lemma fresh_ne (h : gmap nat obj) l : is_Some (h !! l) → l ≠ fresh (dom h).
Proof. intros Hl ->. apply (is_fresh (dom h)). by apply elem_of_dom. Qed.

Lemma editField_store f v s : store_ok s → store_ok (editField f v s).
Proof.
  intros [Hq Hv Hl]. destruct (editField_eq f v s Hq) as [e ->]. set (h := <[_ := _]> (heap _)). set (h1 := <[_ := _]> h).
  destruct s as [[hp vs qu vr ev] ia oa]; simpl in *. split; simpl; [done..|].
  assert (Hk : ∀ l, is_Some (hp !! l) → is_Some (h1 !! l)).
  { intros l Hs. unfold h1, h. rewrite !lookup_insert_is_Some'. auto. }
  intros l Hin. rewrite lookup_insert_is_Some'. apply elem_of_cons in Hin as [->|Hin]; [by left|]. right.
  apply elem_of_cons in Hin as [->|Hin]; [unfold h1; rewrite lookup_insert_is_Some'; by left|]. apply Hk, Hl. set_solver.
Qed.

Lemma editField_ins f v s : store_ok s → ins (editField f v s) = [(f, v)].
Proof.
  intros [Hq Hv Hl]. destruct (editField_eq f v s Hq) as [e ->]. set (h := <[_ := _]> (heap _)). set (h1 := <[_ := [(f, v)]]> h).
  destruct s as [[hp vs qu vr ev] ia oa]; simpl in *. unfold ins, at_, deref. simpl.
  rewrite lookup_insert_ne; [unfold h1; by rewrite lookup_insert_eq|].
  apply not_eq_sym, fresh_ne. unfold h1. rewrite lookup_insert_is_Some'. by left.
Qed.

(** The first edits are written into the origin as well. *)
Lemma editField_origin f v s : store_ok s →
  origin (editField f v s) = if decide (originAt s = valuesRef (sysForm s)) then obj_set f v (origin s) else origin s.
Proof.
  intros [Hq Hv Hl]. destruct (editField_eq f v s Hq) as [e ->]. set (h := <[_ := _]> (heap _)). set (h1 := <[_ := [(f, v)]]> h).
  destruct s as [[hp vs qu vr ev] ia oa]; simpl in *. unfold origin, at_, deref. simpl.
  assert (Hh : is_Some (h !! oa)) by (unfold h; rewrite lookup_insert_is_Some'; right; apply Hl; set_solver).
  rewrite lookup_insert_ne by (apply not_eq_sym, fresh_ne; unfold h1; rewrite lookup_insert_is_Some'; by right).
  unfold h1. rewrite lookup_insert_ne by (by apply not_eq_sym, fresh_ne).
  unfold h, getValues, deref. simpl. case_decide; [subst; by rewrite lookup_insert_eq|by rewrite lookup_insert_ne].
Qed.

Lemma setInputs_store o s : store_ok s → store_ok (setInputs o s) ∧ origin (setInputs o s) = origin s.
Proof.
  intros [Hq Hv Hl]. destruct s as [[hp vs qu vr ev] ia oa]; simpl in *. split.
  - split; simpl; [done..|]. intros l Hin. rewrite lookup_insert_is_Some'.
    apply elem_of_cons in Hin as [->|Hin]; [right; apply Hl; set_solver|].
    apply elem_of_cons in Hin as [->|Hin]; [by left|right; apply Hl; set_solver].
  - unfold origin, at_, deref. simpl. rewrite lookup_insert_ne; [done|]. apply not_eq_sym, fresh_ne, Hl. set_solver.
Qed.

Definition endpoints : list string := ["oidc.authorization_endpoint"; "oidc.token_endpoint"; "oidc.user_info_endpoint"].

(** Nothing loaded gets lost from the origin. *)
Record kept (o : obj) (s : system) : Prop := {
  k_store : store_ok s;
  k_origin : ∀ k, k ∉ endpoints → get o k ≠ VUndef → get (origin s) k ≠ VUndef }.

Lemma kept_frame o s s' : sysForm s' = sysForm s → inputsAt s' = inputsAt s → originAt s' = originAt s → kept o s → kept o s'.
Proof.
  intros E1 E2 E3 [[Hq Hv Hl] Ho]. split; [split; by rewrite ?E1, ?E2, ?E3|]. unfold origin, at_. by rewrite E1, E3.
Qed.

Ltac still := match goal with |- kept _ ?s' =>
  match goal with s : system |- _ => apply (kept_frame _ s s'); [by destruct s..|] end end.

Lemma kept_edit o f v s : f ≠ "__proto__" → v ≠ VUndef → kept o s → kept o (editField f v s).
Proof.
  intros Hf Hv [Hs Ho]. split; [by apply editField_store|]. intros k Hk Hd. rewrite editField_origin by done.
  case_decide; [|by apply Ho]. rewrite get_field_set by done. case_decide; [done|by apply Ho].
Qed.

Lemma kept_inputs o x s : kept o s → kept o (setInputs x s).
Proof. intros [Hs Ho]. destruct (setInputs_store x s Hs) as [H E]. split; [done|]. by rewrite E. Qed.

Lemma kept_tell o l s : kept o s → kept o (tell l s).
Proof. intros. by still. Qed.
Lemma kept_works o l s : kept o s → kept o (setWorks l s).
Proof. intros. by still. Qed.
Lemma kept_queue o w s : kept o s → kept o (queue_work w s).
Proof. intros. by still. Qed.
Lemma kept_loading o b s : kept o s → kept o (setLoading_ b s).
Proof. intros. by still. Qed.
Lemma kept_continue o k s : kept o s → kept o (continue k s).
Proof. intros. destruct k; [done|by still..]. Qed.
Create HintDb kept.
#[local] Hint Resolve kept_tell kept_works kept_queue kept_loading kept_continue kept_inputs : kept.

Section kept.
Context (t : string → string) (o : obj).

Lemma kept_finish opts i k s : kept o s → kept o (finish t opts i k s).
Proof. unfold finish. auto with kept. Qed.
Lemma kept_others opts others i k s : kept o s → kept o (send_others t opts others i k s).
Proof. destruct others; simpl; auto using kept_finish with kept. Qed.
Lemma kept_switches opts switches others i k s : kept o s → kept o (send_switches t opts switches others i k s).
Proof. destruct switches; simpl; auto using kept_others with kept. Qed.
Lemma kept_update opts i k s : kept o s → kept o (updateOptions t opts i k s).
Proof. intros. by apply kept_switches, kept_loading. Qed.
Lemma kept_oidc i org s : kept o s → kept o (sendOIDC t i org s).
Proof. unfold sendOIDC. destruct (oidc_options _ _); auto using kept_update. Qed.

Lemma kept_write i data x s : discovered_endpoints data (at_ s i) = Ok x → kept o s → kept o (writeAt i x s).
Proof.
  intros Hx [[Hq Hv Hl] Ho]. destruct s as [[hp vs qu vr ev] ia oa]; simpl in *. split.
  - split; simpl; [done..|]. intros l Hin. rewrite lookup_insert_is_Some'. right. by apply Hl.
  - intros k Hk Hd. unfold origin, at_, deref in *. simpl in *. specialize (Ho k Hk Hd).
    destruct (decide (i = oa)) as [->|Hne]; [|by rewrite lookup_insert_ne]. rewrite lookup_insert_eq. simpl.
    revert Hx. unfold discovered_endpoints, mbind, res_bind. destruct (prop data "authorization_endpoint"); [|done].
    destruct (prop data "token_endpoint"); [|done]. destruct (prop data "userinfo_endpoint"); [|done]. intros [= <-]. unfold endpoints in Hk. rewrite !get_field_set by done. rewrite !decide_False by set_solver. done.
Qed.

Lemma box_fields fk : fk ∈ boxes → fk.1 ≠ "__proto__".
Proof.
  intros Hin E. apply (list_elem_of_fmap_2 fst) in Hin. rewrite E in Hin. revert Hin. by apply (bool_decide_eq_false_1 (_ ∈ _)).
Qed.
Lemma text_fields_proto f : f ∈ text_fields → f ≠ "__proto__".
Proof. intros Hin ->. revert Hin. by apply (bool_decide_eq_false_1 (_ ∈ _)). Qed.

Lemma kept_deed d s : offered d s → kept o s → kept o (deed_of t d s).
Proof.
  intros Ho H. destruct d; simpl in *.
  - destruct Ho. apply kept_edit; [by apply text_fields_proto|done..].
  - unfold handleCheckboxChange. assert (H1 : kept o (editField field (VBool on) s)) by (apply kept_edit; [by apply (box_fields (_, _) Ho)|done..]).
    case_decide; [|by apply kept_update]. revert H1. generalize (editField field (VBool on) s). intros s1 ?. by still.
  - by apply kept_update.
  - apply kept_edit; [done..|]. by still.
  - by apply kept_inputs; still.
  - by apply kept_inputs; still.
  - by apply kept_inputs; still.
  - by apply kept_inputs; still.
  - by apply kept_inputs; still.
  - by still.
  - by still.
  - unfold handleAddEmail. case_decide; [done|]. destruct (is_domain _); [case_decide|]; [by auto with kept| |by auto with kept].
    apply kept_tell. by still.
  - unfold submitGroup. destruct (group_options g s) as [[|? ?]|]; auto using kept_update.
  - unfold submitOIDCSettings. destruct (get (ins s) _); simpl; try case_decide; try case_match; auto using kept_oidc with kept.
Qed.

Lemma kept_answered w s s' : answered t w s s' → kept o s → kept o s'.
Proof.
  intros Ha H. destruct Ha as [opts cur rest others i k r s|opts i k r s|i org r s]; simpl.
  - destruct r; simpl; auto using kept_switches with kept.
  - destruct r; simpl; auto using kept_finish with kept.
  - unfold discoveryAnswered. destruct r as [data|]; simpl; [|auto with kept].
    destruct (discovered_endpoints data (at_ s i)) as [x|] eqn:E; [|auto with kept].
    apply kept_oidc, kept_tell. by eapply kept_write.
Qed.

Lemma running_kept s : running t o s → kept o s.
Proof.
  induction 1 as [data Hd|d s _ IH Ho|w s s' l1 l2 _ IH _ Ha].
  - split; [split; simpl; [done..|]|].
    + intros l Hin. assert (l = 0) as -> by set_solver. by rewrite lookup_singleton_eq.
    + intros k _ Hk. unfold origin, at_, deref. simpl. by rewrite lookup_singleton_eq.
  - by apply kept_deed.
  - eapply kept_answered; [exact Ha|]. auto with kept.
Qed.
End kept.

(** ** What an edit does to the next save *)

(** What a group sends for an option the inputs have no field for: nothing at
    all, or a blank address, or a switch that is off.  The whitelist and the
    lists of the request filter have a state of their own, and the passkey
    options are read from the form. *)
Definition forgotten (g : group) : list opt :=
  let none := fmap (λ k, (k, VUndef)) in
  match g with
  | Worker => [("WorkerUrl", VStr ""); ("WorkerAllowHttpImageRequestEnabled", VStr "false"); ("WorkerValidKey", VUndef)]
  | Server => [("ServerAddress", VStr "")]
  | SMTP => none ["SMTPServer"; "SMTPAccount"; "SMTPFrom"; "SMTPPort"; "SMTPToken"]
  | WeChat => [("WeChatServerAddress", VStr "")] ++ none ["WeChatAccountQRCodeImageURL"; "WeChatServerToken"]
  | GitHub => none ["GitHubClientId"; "GitHubClientSecret"]
  | Discord => none ["discord.client_id"; "discord.client_secret"]
  | Telegram => none ["TelegramBotToken"; "TelegramBotName"]
  | Turnstile => none ["TurnstileSiteKey"; "TurnstileSecretKey"]
  | LinuxDO => none ["LinuxDOClientId"; "LinuxDOClientSecret"; "LinuxDOMinimumTrustLevel"]
  | Whitelist | SSRF | PasskeyOptions => []
  end.

Lemma forgotten_table g : Forall (λ kv, (kv.1 ∉ endpoints) ∧ sent_value kv.2 = kv.2) (forgotten g).
Proof. destruct g; vm_compute; repeat constructor; set_solver. Qed.

Lemma forgotten_endpoints g k v : (k, v) ∈ forgotten g → k ∉ endpoints.
Proof. intros H. by destruct (proj1 (Forall_forall _ _) (forgotten_table g) _ H). Qed.

Lemma forgotten_put g k v : (k, v) ∈ forgotten g → put_of (k, v) = Put k v.
Proof. intros H. destruct (proj1 (Forall_forall _ _) (forgotten_table g) _ H) as [_ E]. unfold put_of. simpl in *. by rewrite E. Qed.

Lemma get_single_same f v : get [(f, v)] f = v.
Proof. unfold get. simpl. by rewrite decide_True. Qed.

Lemma diff_undef org i k : get org k ≠ VUndef → get i k = VUndef → (k, VUndef) ∈ diff org i k ∧ (k, VUndef) ∈ diff_filled org i k.
Proof. intros Ho Hi. unfold diff, diff_filled. rewrite changed_undef, Hi by done. simpl. set_solver. Qed.

Definition no_switch (kv : opt) : Prop := is_switch kv.1 ≠ true.

Lemma diff_no_switch org i k : is_switch k = false → Forall no_switch (diff org i k) ∧ Forall no_switch (diff_filled org i k).
Proof.
  intros H. unfold diff, diff_filled. split; case_match; constructor; try done; unfold no_switch; simpl; by rewrite H.
Qed.

Ltac group_unfold := unfold workerOptions, serverOptions, smtpOptions, whitelistOptions, ssrfOptions, wechatOptions, githubOptions, discordOptions,
    telegramOptions, turnstileOptions, linuxdoOptions, passkeyOptions in *.

Ltac by_diffs :=
  match goal with Hl : Ok _ = Ok _ |- _ => injection Hl as <-; repeat (apply Forall_app; split); by apply diff_no_switch end.

(** The other groups send no switch. *)
Lemma group_no_switch g s l : g ≠ Worker → forgotten g ≠ [] → group_options g s = Ok l → Forall no_switch l.
Proof.
  intros Hw Hg Hl. destruct g; try done; simpl in Hl; group_unfold; unfold mbind, res_bind in Hl.
  - destruct (removeTrailingSlash _); [|done]. injection Hl as <-. repeat constructor. by vm_compute.
  - by_diffs.
  - destruct (if changed _ _ _ then _ else _) as [a|] eqn:E; [|done]. injection Hl as <-.
    apply Forall_app. split; [|apply Forall_app; split; by apply diff_no_switch].
    destruct (changed _ _ _); [|by simplify_eq]. destruct (removeTrailingSlash _); [|done]. simplify_eq. repeat constructor. by vm_compute.
  - by_diffs.
  - by_diffs.
  - injection Hl as <-. repeat constructor; by vm_compute.
  - by_diffs.
  - by_diffs.
Qed.

(** A field of the inputs is a text or missing. *)
Definition text_or_missing (v : jsval) : Prop := v = VUndef ∨ ∃ x, v = VStr x.

Lemma removeTrailingSlash_text v : text_or_missing v → ∃ y, removeTrailingSlash v = Ok y ∧ (v = VUndef → y = VStr "").
Proof.
  intros [->|[x ->]]; unfold removeTrailingSlash; simpl; [by eexists|]. repeat case_match; by eexists.
Qed.

Lemma forgotten_worker i kv : kv ∈ forgotten Worker → get i kv.1 = VUndef → text_or_missing (get i "WorkerUrl") →
  ∃ l, workerOptions i = Ok l ∧ kv ∈ l.
Proof.
  intros Hk Hi (y & Hy & Hu)%removeTrailingSlash_text. unfold workerOptions. rewrite Hy. simpl. eexists. split; [done|].
  unfold forgotten in Hk. apply elem_of_cons in Hk as [->|Hk]; simpl in *; [rewrite (Hu Hi); set_solver|].
  apply elem_of_cons in Hk as [->|Hk]; simpl in *; [rewrite Hi; set_solver|].
  apply list_elem_of_singleton in Hk as ->. simpl in *. rewrite Hi. set_solver.
Qed.

Lemma forgotten_wechat org i kv : kv ∈ forgotten WeChat → get org kv.1 ≠ VUndef → get i kv.1 = VUndef →
  text_or_missing (get i "WeChatServerAddress") → ∃ l, wechatOptions org i = Ok l ∧ kv ∈ l.
Proof.
  intros Hk Ho Hi (y & Hy & Hu)%removeTrailingSlash_text. destruct (diff_undef _ _ kv.1 Ho Hi) as [H1 H2].
  unfold wechatOptions. unfold forgotten in Hk. apply elem_of_cons in Hk as [->|Hk]; simpl in *.
  - rewrite changed_undef, Hy, (Hu Hi) by done. simpl. eexists. split; [done|]. set_solver.
  - assert (∃ a, (if changed org i "WeChatServerAddress"
      then x ← removeTrailingSlash (get i "WeChatServerAddress"); Ok [("WeChatServerAddress", x)] else Ok []) = Ok a) as [a ->].
    { rewrite Hy. case_match; by eexists. }
    simpl. eexists. split; [done|].
    apply elem_of_cons in Hk as [->|[->|[]%elem_of_nil]%elem_of_cons]; simpl in *; set_solver.
Qed.

(** Each option of a group in turn. *)
Ltac each_forgotten :=
  match goal with Hk : _ ∈ forgotten _, Hi : get _ _ = VUndef |- _ =>
    unfold forgotten in Hk; simpl in Hk; eexists; split; [done|]; group_unfold;
    repeat (apply elem_of_cons in Hk as [->|Hk]; [simpl in *; rewrite ?Hi; set_solver|]);
    by apply elem_of_nil in Hk
  end.

Lemma forgotten_options g s kv : kv ∈ forgotten g → get (origin s) kv.1 ≠ VUndef → get (ins s) kv.1 = VUndef →
  (∀ k, text_or_missing (get (ins s) k)) → ∃ l, group_options g s = Ok l ∧ kv ∈ l.
Proof.
  intros Hk Ho Hi Ht. destruct (diff_undef _ _ kv.1 Ho Hi) as [H1 H2].
  destruct g; simpl group_options; try (by apply elem_of_nil in Hk).
  - by apply forgotten_worker.
  - unfold forgotten in Hk. apply list_elem_of_singleton in Hk as ->. simpl in *.
    destruct (removeTrailingSlash_text _ (Ht "ServerAddress")) as (y & Hy & Hu). unfold serverOptions. rewrite Hy, (Hu Hi).
    eexists. split; [done|]. simpl. set_solver.
  - each_forgotten.
  - by apply forgotten_wechat.
  - each_forgotten.
  - each_forgotten.
  - each_forgotten.
  - each_forgotten.
  - each_forgotten.
Qed.

Lemma no_switch_split opts : Forall no_switch opts →
  filter (λ kv, is_switch kv.1 = true) opts = [] ∧ filter (λ kv, is_switch kv.1 ≠ true) opts = opts.
Proof.
  induction 1 as [|kv opts H _ [IH1 IH2]]; [done|]. unfold no_switch in H. rewrite !filter_cons.
  rewrite decide_False, decide_True by done. by rewrite IH1, IH2.
Qed.

(** An option of a save with at most one switch is sent at the latest when
    that switch is accepted. *)
Lemma notes_continue_finish t opts i k s : ∃ l, notes (finish t opts i k s) = notes s ++ l.
Proof. destruct (finish_rest t opts i k s) as (_ & -> & _). by eexists. Qed.

Lemma othersDone_notes t opts i k r s : ∃ l, notes (othersDone t opts i k r s) = notes s ++ l.
Proof.
  destruct r as [ms|]; simpl.
  - destruct (notes_continue_finish t opts i k (tell (Error_ <$> ms) s)) as [l ->]. destruct s; simpl. rewrite <-app_assoc. by eexists.
  - destruct (continue_rest k (setLoading_ false (tell [Error_ (VStr (t "更新失败"))] s))) as (_ & -> & _). destruct s. by eexists.
Qed.

Lemma send_others_notes t opts others i k s : ∃ l, notes (send_others t opts others i k s) = notes s ++ (put_of <$> others) ++ l.
Proof.
  destruct others as [|o others]; simpl.
  - destruct (notes_continue_finish t opts i k s) as [l ->]. by eexists.
  - exists []. rewrite app_nil_r. by destruct s.
Qed.

Lemma update_sent t opts i k r s : opts ≠ [] → length (filter (λ kv : opt, is_switch kv.1 = true) opts) ≤ 1 →
  ∀ kv, kv ∈ opts → put_of kv ∈ notes (settle t (λ _, Accepted) r 1 (updateOptions t opts i k s)).
Proof.
  intros Hn Hs kv Hkv. unfold updateOptions.
  assert (kv ∈ filter (λ kv : opt, is_switch kv.1 = true) opts ∨ kv ∈ filter (λ kv : opt, is_switch kv.1 ≠ true) opts) as Hin.
  { rewrite !list_elem_of_filter. destruct (decide (is_switch kv.1 = true)); [left|right]; done. }
  revert Hin Hs. set (others := filter (λ kv : opt, is_switch kv.1 ≠ true) opts).
  destruct (filter (λ kv : opt, is_switch kv.1 = true) opts) as [|c [|? ?]]; simpl; intros Hin Hs; [| |lia].
  - destruct Hin as [[]%elem_of_nil|Hin]. destruct others as [|o others']; [by apply elem_of_nil in Hin|].
    unfold send_others. rewrite last_queue, setWorks_queue.
    destruct (othersDone_notes t opts i k r (tell (put_of <$> o :: others') (setLoading_ true s))) as [l ->].
    apply elem_of_app. left. destruct (tell_rest (put_of <$> o :: others') i (setLoading_ true s)) as (_ & -> & _).
    apply elem_of_app. right. by apply (list_elem_of_fmap_2 put_of).
  - rewrite last_queue, setWorks_queue. simpl.
    destruct (send_others_notes t opts others i k (tell [put_of c] (setLoading_ true s))) as [l ->].
    rewrite !elem_of_app. destruct (tell_rest [put_of c] i (setLoading_ true s)) as (_ & -> & _).
    destruct Hin as [->%list_elem_of_singleton|Hin]; [left; apply elem_of_app; right; by apply list_elem_of_singleton|].
    right. left. by apply (list_elem_of_fmap_2 put_of).
Qed.

Lemma group_one_switch g s l : forgotten g ≠ [] → group_options g s = Ok l →
  length (filter (λ kv : opt, is_switch kv.1 = true) l) ≤ 1.
Proof.
  intros Hf Hl. assert (g = Worker ∨ g ≠ Worker) as [->|Hw] by (destruct g; auto).
  - simpl in Hl. unfold workerOptions in Hl. apply res_bind_Ok in Hl as (y & _ & [= <-]).
    repeat case_match; apply Nat.leb_le; vm_compute; reflexivity.
  - destruct (no_switch_split l (group_no_switch g s l Hw Hf Hl)) as [-> _]. simpl. lia.
Qed.

(** C21.  One edit spoils the other options of a group.  In every session,
    after a text is typed into a field, saving a group that reads its options
    from the inputs (every group but the whitelist, the request filter and
    the passkeys; OIDC has a handler of its own) sends every other option of the group that the service had
    a value for, and without that value: an address as the blank text, the
    switch of the worker as off, and any other option with no value.  The
    requests are made at once, those of the worker that follow its switch when
    that is accepted. *)
Theorem saved_group_forgets t o s f x g k v r :
  running t o s → f ∈ text_fields → (k, v) ∈ forgotten g → k ≠ f → get o k ≠ VUndef →
  Put k v ∈ notes (settle t (λ _, Accepted) r 1 (submitGroup t g (editField f (VStr x) s))).
Proof.
  intros Hr Hf Hk Hkf Ho. pose proof (running_kept t o s Hr) as H.
  assert (H1 : kept o (editField f (VStr x) s)) by (by apply kept_edit; [apply text_fields_proto|..]).
  assert (Hin := editField_ins f (VStr x) s (k_store _ _ H)). set (s1 := editField f (VStr x) s) in *.
  assert (Hke : k ∉ endpoints) by (by eapply forgotten_endpoints).
  destruct (forgotten_options g s1 (k, v) Hk (k_origin _ _ H1 k Hke Ho)) as (l & Hl & Hkl).
  { rewrite Hin. by apply get_single. }
  { intros k'. rewrite Hin. destruct (decide (k' = f)) as [->|]; [right; exists x; apply get_single_same|left; by apply get_single]. }
  assert (Hn : forgotten g ≠ []) by (intros E; rewrite E in Hk; by apply elem_of_nil in Hk).
  pose proof (group_one_switch g s1 l Hn Hl) as Hs. unfold submitGroup. rewrite Hl. destruct l as [|a l]; [by apply elem_of_nil in Hkl|].
  rewrite <-(forgotten_put g k v) by done. by apply update_sent.
Qed.

(** ** Switching the password login off *)

Definition P_KEY : string := "PasswordLoginEnabled".
Definition switches_off (n : note) : Prop := n = Put P_KEY (VStr "false").
Definition harmless (kv : opt) : Prop := ¬ switches_off (put_of kv).

(** What is still to be sent is harmless. *)
Definition works_ok (s : system) : Prop :=
  ∀ opts cur rest others i k, WSwitch opts cur rest others i k ∈ works s → Forall harmless (rest ++ others).

(** A step that adds only notes other than this one, and keeps the works so. *)
Definition calm (s s' : system) : Prop :=
  works_ok s → works_ok s' ∧ ∃ l, notes s' = notes s ++ l ∧ Forall (λ n, ¬ switches_off n) l.

Lemma calm_same s s' : works s' = works s → notes s' = notes s → calm s s'.
Proof. intros E1 E2 H. split; [unfold works_ok; by rewrite E1|]. exists []. by rewrite E2, app_nil_r. Qed.

#[export] Instance calm_trans : Transitive calm.
Proof.
  intros s1 s2 s3 H1 H2 H. destruct (H1 H) as (Ha & l1 & E1 & F1). destruct (H2 Ha) as (Hb & l2 & E2 & F2).
  split; [done|]. exists (l1 ++ l2). rewrite E2, E1, app_assoc. split; [done|]. by apply Forall_app.
Qed.

#[export] Instance calm_refl : Reflexive calm.
Proof. intros s. by apply calm_same. Qed.

Lemma calm_tell l s : Forall (λ n, ¬ switches_off n) l → calm s (tell l s).
Proof. intros Hl H. split; [by destruct s|]. exists l. by destruct s. Qed.

Lemma calm_queue w s : (∀ opts cur rest others i k, w = WSwitch opts cur rest others i k → Forall harmless (rest ++ others)) →
  calm s (queue_work w s).
Proof.
  intros Hw H. split; [|exists []; rewrite app_nil_r; by destruct s].
  intros opts cur rest others i k Hin. replace (works (queue_work w s)) with (works s ++ [w]) in Hin by (by destruct s).
  apply elem_of_app in Hin as [Hin|Hin]; [by eapply H|]. apply list_elem_of_singleton in Hin. by eapply Hw.
Qed.

Lemma calm_continue k s : calm s (continue k s).
Proof. by apply calm_same; destruct k, s. Qed.

Lemma calm_puts l s : Forall harmless l → calm s (tell (put_of <$> l) s).
Proof. intros H. apply calm_tell. by apply Forall_fmap. Qed.

Section calm.
Variable t : string → string.

Lemma calm_finish opts i k s : calm s (finish t opts i k s).
Proof.
  unfold finish. etrans; [|apply calm_continue]. etrans; [apply (calm_tell [Success_ (t "更新成功")]); by repeat constructor|].
  by apply calm_same; destruct s.
Qed.

Lemma calm_others opts others i k s : Forall harmless others → calm s (send_others t opts others i k s).
Proof.
  intros H. unfold send_others. destruct others as [|c others]; [apply calm_finish|].
  etrans; [by apply (calm_puts (c :: others))|]. by apply calm_queue.
Qed.

Lemma calm_switches opts switches others i k s : Forall harmless (switches ++ others) →
  calm s (send_switches t opts switches others i k s).
Proof.
  intros H. destruct switches as [|c rest]; simpl; [by apply calm_others|]. inv H.
  etrans; [apply (calm_puts [c]); by repeat constructor|]. apply calm_queue. by intros ? ? ? ? ? ? [= -> -> -> -> -> ->].
Qed.

Lemma calm_update opts i k s : Forall harmless opts → calm s (updateOptions t opts i k s).
Proof.
  intros H. unfold updateOptions. etrans; [|apply calm_switches]; [by apply calm_same; destruct s|].
  apply Forall_app. split; rewrite Forall_forall in H |- *; intros kv [_ ?]%list_elem_of_filter; auto.
Qed.

Lemma key_harmless (kv : opt) : kv.1 ≠ P_KEY → harmless kv.
Proof. intros H [= E _]. done. Qed.

Lemma diff_harmless org i k : k ≠ P_KEY → Forall harmless (diff org i k) ∧ Forall harmless (diff_filled org i k).
Proof. intros H. unfold diff, diff_filled. split; case_match; constructor; try done; by apply key_harmless. Qed.

Lemma oidc_harmless org i : Forall harmless (oidc_options org i).
Proof. repeat (apply Forall_app; split); by apply diff_harmless. Qed.

Lemma group_harmless g s l : group_options g s = Ok l → Forall harmless l.
Proof.
  intros Hl. destruct g; simpl in Hl; group_unfold; unfold mbind, res_bind in Hl.
  1: destruct (removeTrailingSlash _); [|done]; injection Hl as <-; repeat constructor; try (by apply key_harmless);
     case_match; repeat constructor; by apply key_harmless.
  1: destruct (removeTrailingSlash _); [|done]; injection Hl as <-; repeat constructor; by apply key_harmless.
  4: { destruct (if changed _ _ _ then _ else _) as [a|] eqn:E; [|done]. injection Hl as <-.
       apply Forall_app. split; [|apply Forall_app; split; by apply diff_harmless].
       destruct (changed _ _ _); [|by simplify_eq]. destruct (removeTrailingSlash _); [|done]. simplify_eq.
       repeat constructor. by apply key_harmless. }
  all: injection Hl as <-; first [repeat (apply Forall_app; split); by apply diff_harmless
                                 | repeat constructor; by apply key_harmless].
Qed.

Lemma calm_edit f v s : calm s (editField f v s).
Proof. by apply calm_same; destruct s. Qed.

Lemma calm_oidc i org s : calm s (sendOIDC t i org s).
Proof.
  unfold sendOIDC. pose proof (oidc_harmless (at_ s org) (at_ s i)) as H.
  destruct (oidc_options _ _); [done|]. by apply calm_update.
Qed.

Lemma calm_box field key on s : calm s (handleCheckboxChange t field key on s).
Proof.
  unfold handleCheckboxChange. etrans; [apply (calm_edit field (VBool on))|]. generalize (editField field (VBool on) s). intros s1.
  case_decide as Hc; [by apply calm_same; destruct s1|]. apply calm_update. repeat constructor. intros E.
  unfold switches_off, put_of, P_KEY in E. simpl in E. destruct on; [done|]. naive_solver.
Qed.

Lemma calm_deed d s : d ≠ DConfirm → calm s (deed_of t d s).
Proof.
  intros Hd. destruct d; simpl; try done; try (by apply calm_same; destruct s).
  - apply calm_box.
  - unfold handleAddEmail. case_decide; [done|].
    destruct (is_domain _); [case_decide|]; [by apply calm_tell; repeat constructor| |by apply calm_tell; repeat constructor].
    etrans; [|apply calm_tell; by repeat constructor]. by apply calm_same; destruct s.
  - unfold submitGroup. destruct (group_options g s) as [l|] eqn:E; [|done]. destruct l as [|a l]; [done|].
    apply calm_update. by eapply group_harmless.
  - unfold submitOIDCSettings.
    destruct (get (ins s) _) as [| |b|n|x|l|l]; simpl; try case_match; try apply calm_oidc; try done.
    case_match; [|by apply calm_tell; repeat constructor].
    etrans; [apply (calm_tell [Fetch x]); by repeat constructor|]. by apply calm_queue.
Qed.

Lemma calm_answered w s s' :
  (∀ opts cur rest others i k, w = WSwitch opts cur rest others i k → Forall harmless (rest ++ others)) → answered t w s s' → calm s s'.
Proof.
  intros Hw Ha. assert (Hl : ∀ b s, calm s (setLoading_ b s)) by (by intros b []; apply calm_same).
  destruct Ha as [opts cur rest others i k r s|opts i k r s|i org r s]; simpl.
  - destruct r; simpl.
    + etrans; [|apply calm_continue]. etrans; [|apply Hl]. apply calm_tell. by repeat constructor.
    + etrans; [|apply calm_continue]. apply calm_tell. by repeat constructor.
    + apply calm_switches. by eapply Hw.
  - destruct r as [ms|]; simpl.
    + etrans; [|apply calm_finish]. apply calm_tell. apply Forall_fmap. by apply Forall_true.
    + etrans; [|apply calm_continue]. etrans; [|apply Hl]. apply calm_tell. by repeat constructor.
  - unfold discoveryAnswered. destruct (r ≫= _) as [x|]; [|by apply calm_tell; repeat constructor].
    etrans; [|apply calm_oidc]. etrans; [|apply calm_tell; by repeat constructor]. by apply calm_same; destruct s.
Qed.

(** Confirming sends its one switch at once. *)
Lemma confirm_works s : works_ok s → works_ok (handlePasswordLoginConfirm t s).
Proof.
  intros H opts cur rest others i k Hin.
  replace (works (handlePasswordLoginConfirm t s)) with (works s ++
    [WSwitch [("PasswordLoginEnabled", VBool false)] ("PasswordLoginEnabled", VBool false) [] [] (inputsAt s) KPassword]) in Hin
    by (by destruct s).
  apply elem_of_app in Hin as [Hin|Hin]; [by eapply H|]. apply list_elem_of_singleton in Hin. by simplify_eq.
Qed.

Lemma drop_works s l1 w l2 : works s = l1 ++ w :: l2 → works_ok s → works_ok (setWorks (l1 ++ l2) s).
Proof.
  intros Hw H opts cur rest others i k Hin. apply (H opts cur rest others i k). rewrite Hw.
  replace (works (setWorks (l1 ++ l2) s)) with (l1 ++ l2) in Hin by (by destruct s). set_solver.
Qed.

Lemma confirm_or_not d : d = DConfirm ∨ d ≠ DConfirm.
Proof. destruct d; auto. Qed.

Lemma running_works o s : running t o s → works_ok s.
Proof.
  induction 1 as [data Hd|d s _ IH Ho|w s s' l1 l2 _ IH Hw Ha]; [by intros ? ? ? ? ? ? ?%elem_of_nil| |].
  - destruct (confirm_or_not d) as [->|Hd]; [by apply confirm_works|]. by apply calm_deed.
  - eapply calm_answered; [|exact Ha|by eapply drop_works].
    intros opts cur rest others i k ->. apply (IH opts cur rest others i k). rewrite Hw. set_solver.
Qed.
End calm.

(** C7.  The password login is switched off only by confirming the dialog: in
    every session, whatever is clicked and however requests are answered, the
    request that switches it off is sent only by the confirmation, and only
    while its dialog is shown. *)
Theorem password_login_confirmed t o s : running t o s →
  (∀ d l, offered d s → notes (deed_of t d s) = notes s ++ l → Put "PasswordLoginEnabled" (VStr "false") ∈ l →
     d = DConfirm ∧ showPasswordLoginConfirmModal s = true) ∧
  (∀ w l1 l2 s' l, works s = l1 ++ w :: l2 → answered t w (setWorks (l1 ++ l2) s) s' → notes s' = notes s ++ l →
     Put "PasswordLoginEnabled" (VStr "false") ∉ l).
Proof.
  intros Hr. pose proof (running_works t o s Hr) as Hw.
  assert (Hno : ∀ s0 s' l, notes s0 = notes s → works_ok s0 → calm s0 s' → notes s' = notes s ++ l → Put P_KEY (VStr "false") ∉ l).
  { intros s0 s' l E0 H0 Hc E Hin. destruct (Hc H0) as (_ & l' & E' & F). rewrite E, E0 in E'. apply app_inv_head in E' as <-.
    rewrite Forall_forall in F. by apply (F _ Hin). }
  split.
  - intros d l Ho E Hin. destruct (confirm_or_not d) as [->|Hd]; [done|].
    exfalso. by eapply (Hno s); [..|by apply calm_deed| |exact Hin].
  - intros w l1 l2 s' l El Ha E. eapply (Hno (setWorks (l1 ++ l2) s)); [by destruct s|by eapply drop_works| |exact E].
    eapply calm_answered; [|exact Ha]. intros opts cur rest others i k ->. apply (Hw opts cur rest others i k). rewrite El. set_solver.
Qed.

(** ** Witnesses *)

Definition system_data : list (string * string) :=
  [("SMTPServer", "a"); ("SMTPAccount", "me"); ("passkey.rp_id", "a.com"); ("PasswordLoginEnabled", "true")].
Definition system_options : obj := match read_options system_data [] with Ok o => o | Throw _ => [] end.
Definition system_page : system := loadedWith system_data system_options (setWorks [] opening).

Lemma system_page_running : running (λ x, x) system_options system_page.
Proof. exact (run_loaded (λ x, x) system_options system_data eq_refl). Qed.

Lemma update_options_outcome_witness :
  let s := settle (λ x, x) (λ _, Refused (VStr "no")) None 3
    (updateOptions (λ x, x) [("SMTPServer", VStr "b"); ("SMTPSSLEnabled", VBool true)] 0 KNone system_page) in
  notes s = notes system_page ++ [Put "SMTPSSLEnabled" (VStr "true"); Error_ (VStr "no")] ∧ sysLoading s = true.
Proof.
  destruct (update_options_outcome (λ x, x) (λ _, Refused (VStr "no")) None
    [("SMTPServer", VStr "b"); ("SMTPSSLEnabled", VBool true)] 0 KNone system_page I) as (_ & Hn & Hl & _).
  split; [exact Hn|]. exact (Hl eq_refl).
Defined.

Lemma saved_group_forgets_witness :
  Put "SMTPAccount" VUndef ∈ notes (settle (λ x, x) (λ _, Accepted) None 1
    (submitGroup (λ x, x) SMTP (editField "SMTPServer" (VStr "b") system_page))).
Proof.
  apply (saved_group_forgets (λ x, x) system_options system_page "SMTPServer" "b" SMTP "SMTPAccount" VUndef None system_page_running);
    [by apply (bool_decide_eq_true_1 (_ ∈ _))| |done..].
  right. left.
Defined.

Lemma password_login_confirmed_witness :
  showPasswordLoginConfirmModal (deed_of (λ x, x) (DBox "PasswordLoginEnabled" "PasswordLoginEnabled" false) system_page) = true.
Proof.
  assert (Hr : running (λ x, x) system_options (deed_of (λ x, x) (DBox "PasswordLoginEnabled" "PasswordLoginEnabled" false) system_page)).
  { apply run_deed; [exact system_page_running|].
    by apply (bool_decide_eq_true_1 (("PasswordLoginEnabled", "PasswordLoginEnabled") ∈ boxes)). }
  destruct (password_login_confirmed (λ x, x) system_options _ Hr) as [H _].
  apply (H DConfirm [Put "PasswordLoginEnabled" (VStr "false")]); [by vm_compute|by vm_compute|left].
Defined.

(** ** Findings *)

(** The first edit of the page is written into the origin as well, so it is not
    saved. *)
Lemma first_edit_not_saved t :
  let s := loadedWith [] [("SMTPServer", VStr "a")] (setWorks [] opening) in
  notes (submitGroup t SMTP (editField "SMTPServer" (VStr "b") s)) = notes s.
Proof. by vm_compute. Qed.

(** The name of the field of the form is a text with brackets, which is not the
    option that is saved. *)
Lemma passkey_edit_ignored t :
  last (notes (submitGroup t PasskeyOptions (editField "['passkey.rp_id']" (VStr "b.com") system_page))) =
    Some (Put "passkey.origins" (VStr "")) ∧
  Put "passkey.rp_id" (VStr "a.com") ∈ notes (submitGroup t PasskeyOptions (editField "['passkey.rp_id']" (VStr "b.com") system_page)).
Proof. split; [by vm_compute|]. vm_compute. set_solver. Qed.

(** The origin is not updated by a save: a value cannot be changed back. *)
Lemma change_back_not_saved t :
  let s0 := loadedWith [] [("SMTPServer", VStr "a"); ("ServerAddress", VStr "h")] (setWorks [] opening) in
  let s1 := editField "SMTPServer" (VStr "b") (editField "ServerAddress" (VStr "h2") s0) in
  let s2 := settle t (λ _, Accepted) (Some []) 2 (submitGroup t SMTP s1) in
  notes s2 = notes s1 ++ [Put "SMTPServer" (VStr "b"); Success_ (t "更新成功")] ∧
  notes (submitGroup t SMTP (editField "SMTPServer" (VStr "a") s2)) = notes s2.
Proof. by vm_compute. Qed.

(** What was typed while a save was under way is dropped from the inputs. *)
Lemma typed_while_saving_dropped t :
  let s1 := editField "SMTPServer" (VStr "b") system_page in
  let s2 := editField "SMTPFrom" (VStr "new") (submitGroup t SMTP s1) in
  get (ins s2) "SMTPFrom" = VStr "new" ∧ get (ins (settle t (λ _, Accepted) (Some []) 2 s2)) "SMTPFrom" = VUndef.
Proof. by vm_compute. Qed.
